(* ===== verification/_CoqProject ===== *)
-Q . S2P
Prelude.v
Mem.v
StringC.v
Memlayout.v
Kalloc.v
Cpu.v
ProcData.v
Rbtree.v
Proc.v
ProcSpec.v
Sched.v
Vm.v
VmInv.v
VmSpec.v
VmProps.v
Block.v
Bio.v
Ide.v
Log.v
LogBio.v
Fs.v
FsSpec.v
FsPath.v
FsFile.v
Pipe.v
File.v
Syscall.v
Sysfile.v
SysfileSpec.v
FsTx.v
FileIO.v
FsDir.v
FsTrunc.v
FsName.v
Sysproc.v
Trap.v
Dev.v
Segment.v
Asm.v
AsmProc.v
AsmBoot.v
Exec.v
ProcMem.v
BootMem.v
Ulib.v
Mkfs.v
Grep.v
Uprogs.v
Sh.v
Umalloc.v
UmallocSpec.v
Console.v
Debug.v
Kbd.v
Mp.v
Lapic.v
Ioapic.v
Uart.v
Bootmain.v
Main.v
