(* ===== verification/Prelude.v ===== *)
(** * xv6 with the CFS course skeleton: a verification development

    The program is the kernel under xv6-public/, a fork of MIT's xv6 for the
    32-bit x86 with system calls that inspect a red-black tree of runnable
    processes, and its user programs.  All paths below are relative to it.

    ** The program and its model

    The kernel is a stack of components that call downwards: system calls
    (syscall.c, sysfile.c, sysproc.c, exec.c) use processes (proc.c), virtual
    memory (vm.c) and open files (file.c); open files use pipes (pipe.c), the
    console (console.c, kbd.c) and the file system (fs.c); the file system
    records its writes in the log (log.c); the log uses the buffer cache
    (bio.c), and the cache a disk (memide.c, ide.c).  Interrupts enter through
    trapasm.S and trap.c, and swtch.S goes from one kernel stack to another.
    User programs see the kernel through user.h and the stubs of usys.S.  The
    boot loader (bootasm.S, bootmain.c) reads the kernel from the disk, and
    entry.S and main.c start it: memory, page table, processors (mp.c), interrupt
    controllers (lapic.c, ioapic.c, picirq.c), serial port (uart.c), the tables
    of the components, the other CPUs (entryother.S) and the first process
    (initcode.S).

    A C function is a Rocq function of the same name.  Code with effects is a
    computation [M S A] on the state [S] of its component, defined in this
    file: it returns a value and a new state, or stops with an error that says
    why ([err]).  Pointers to elements of kernel arrays are indices, other
    pointers are 32-bit addresses.  Integers are in [Z] with the conversions
    [u8], [u16], [u32], [s16], [s32] written where C wraps.  A loop whose number
    of rounds is not structural takes fuel; running out is [NoFuel], and the
    theorems show that it does not happen.

    - Mem, StringC: string.c and the string instructions of x86.h on a byte
      memory and on arrays of characters.
    - Memlayout: the macros of memlayout.h and mmu.h, the constants of param.h.
    - Kalloc: kalloc.c, the free list threaded through the free pages.
    - Cpu: spinlock.c, mycpu and cpuid of proc.c; the lock on several CPUs as a
      step relation.
    - ProcData: struct proc and its parts.  Rbtree: treebalanced and the
      collection of the nodes of the tree.  Proc: the process table and every
      function of proc.c on it.  ProcSpec: what they do.  Sched: the scheduler
      on several CPUs, a step relation over the sections that hold ptable.lock.
    - Vm: vm.c on the memory of Kalloc.  VmInv: the ownership of pages.  VmSpec,
      VmProps: what the functions of vm.c do to address spaces.
    - Block: fields of disk blocks.  Bio: sleeplock.c, memide.c and bio.c.
      Ide: ide.c.  Log: log.c with crashes, on a block store.  LogBio: log.c on
      the buffers of Bio, a refinement of Log.  Fs: fs.c on the log.  FsSpec,
      FsPath, FsFile: blocks and inodes, path elements, the content of files.
      FsTx: a transaction from begin_op to end_op as the files see it.  FsDir:
      directories as lists of entries.  FsTrunc: itrunc and iput.  FsName: namex
      as a walk over the directories.  Mkfs: mkfs.c, the program that makes the
      disk.
    - Pipe: pipe.c.  File: file.c.  FileIO: filewrite and fileread above the
      transactions.  Syscall: syscall.c.  Sysfile: sysfile.c.
      SysfileSpec: the reference counts of open files.  Sysproc: sysproc.c.
      Trap: trap.c.  Segment: the descriptor tables of seginit, switchkvm and
      switchuvm in vm.c and of idtinit.  Exec: exec.c.
    - Asm: a machine of registers and memory, and on it swtch.S, trapasm.S, the
      entry points that vectors.pl generates and the stubs of usys.S, each a list
      of instructions in the order of the source.  AsmProc: these with syscall.c
      and proc.c.  AsmBoot: entry.S, entryother.S, bootasm.S, initcode.S, asm.h
      and sign.pl.
    - ProcMem: proc.c above vm.c and kalloc.c, the interface [kernel_ops]
      implemented.  BootMem: the page allocator, inituvm and userinit at boot.
      Dev: the port and memory accesses of the drivers.  Mp: mp.c.  Lapic:
      lapic.c.  Ioapic: ioapic.c and picirq.c.  Uart: uart.c.  Bootmain:
      bootmain.c.  Main: main.c, kvmalloc and consoleinit.
    - Ulib: ulib.c and printf.c.  Grep: grep.c.  Uprogs: cat, echo, wc, kill, ln,
      rm, mkdir, ls, init and zombie.  Sh: sh.c.  Umalloc: umalloc.c and
      UmallocSpec: its heap.  Console: console.c.  Kbd: kbd.c and kbd.h.  Debug:
      getcallerpcs, procdump and panic.

    Components meet at interfaces: [Proc.kernel_ops] is what proc.c needs of
    memory and files, [File.page_ops] what a pipe needs of the page allocator,
    [Sysproc.user_ops] and [Sysproc.has_ticks] what the process system calls
    need of vm.c and of the clock, [Trap.irq_ops] the drivers behind trap.c,
    [Ulib.usys] the system calls that a user program sees, [Ide.ide_ctl] and
    [Bootmain.boot_ctl] the disk controller, [Dev.port_io] and [Dev.mmio] the
    other devices.  What a client relies on is a class of laws beside the
    interface ([ProcSpec.fs_returns], [Ide.ctl_laws], [Bootmain.boot_laws],
    [Lapic.rtc], [Ioapic.ioapic], [Uart.serial]); [ProcMem.vm_ops] discharges
    the memory part of [Proc.kernel_ops], and every theorem that uses laws of a
    device has a concrete instance as its witness.

    ** What is shown

    - Memory: the page allocator refines a list of free pages.  The page-table
      functions preserve an invariant in which every page has one role, so that
      address spaces share no page and no free page is mapped; each of
      [copyuvm], [allocuvm], [deallocuvm], [freevm], [setupkvm] is described on
      every branch, exhaustion of memory included, and fails only when that few
      pages are left.
    - Memory of processes: [fork], [wait], [exit] and [growproc] keep an
      invariant in which every page handed out belongs to one process or to the
      kernel, and the boot establishes it.
    - Boot: the loader places every segment, [mpinit] finds the processors, and
      [main] reaches the scheduler on every CPU with the first process ready.
      The descriptor tables keep user code from the kernel's segments, gates and
      ports.  The drivers of the interrupt controllers, the clock and the serial
      port do what is relied on.
    - Processes: the functional behaviour of [fork], [exit], [wait], [kill],
      [sleep], [wakeup], [yield]; the child of [fork] reaches user mode with the
      registers of its parent and 0 in [eax]; in every reachable state of the scheduler an
      entry is RUNNING on exactly one CPU, every process has a live parent, and
      a runnable process is picked within NPROC steps.  A spin lock excludes.
      [treebalanced] decides the red-black properties.
    - Disk: a crash at any write of a commit or of a recovery leaves all of a
      transaction or nothing, on a block store and on the buffer cache; the log
      has room for every admitted operation if it has more than LOGSIZE blocks;
      the buffer cache returns the content of
      the block and keeps each block once; the request queue of the driver
      implements the memory disk.
    - Files: [filewrite] and [fileread] read and overwrite exactly the bytes of
      the abstract file, each transaction of a write fits the log, and after a
      crash and recovery the file holds a number of whole transactions and every
      other file is untouched; a linked name is found again; [namex] reaches what
      the directories say and balances its references; the last [iput] of an
      unlinked file frees exactly its blocks; [balloc] and the inode cache keep
      their invariants, the image that mkfs makes holds its files as the kernel reads them, the
      counts of open files are the numbers of their descriptors after every file
      system call, and a pipe delivers its bytes in order and never leaves both
      ends asleep.
    - Control: a context that [swtch] left is resumed with its registers and its
      stack; a trap saves every register and its return restores them; a stub
      reaches the handler of its name and returns the result.
    - System calls: argument fetching accepts exactly the arguments inside the
      process; [exec] replaces the image or changes nothing.
    - Input: the keyboard handler is total on every sequence of bytes, and the
      console's ring is a line editor.
    - User programs: the shell's parser terminates and its words are those of
      the line; the matcher of grep decides the language of its patterns;
      printf and atoi are inverse; malloc never hands out overlapping blocks;
      wc counts what its input contains, however it is cut into reads.

    Theorems whose comment starts with C and a number are the main properties.
    Others record where the code falls short: the collection of tree nodes can
    exceed its buffer, [kill(0)] kills the next child, the log that mkfs makes is
    one block too small, a full log leaves the cache without a buffer for its
    commit, [dirlink] of the directory's own name waits for itself, and so on.

    ** Bounds and fuel

    Tables have the sizes of the source (NPROC, NFILE, NINODE, NBUF, NOFILE).
    Walks of the buffer list have fuel NBUF, of the tree NPROC; loops over a
    memory range have fuel the length of the range; the parser of the shell has
    fuel the length of the line; the loops of the user allocator have fuel above
    the number of free blocks; in each case the theorems give enough fuel as a
    hypothesis on concrete sizes or compute it from the input.  A wait for a
    device has fuel [polls], the number of status reads within which the device
    is ready; the laws of the device say so.

    A transaction is followed with the set of blocks it may record: [fs_in s F m]
    says that besides the blocks in [F] it can record [m] more.  The bitmap of a
    disk of [size] blocks counts as [size / BPB + 1] of them; the theorems on
    [filewrite] are for disks with at most three, the most that fit beside the
    blocks of one round in MAXOPBLOCKS, and FSSIZE needs one.

    A function that gives up the CPU is modelled up to that point, with the rest
    as a definition of its own; interleaving is explicit where it matters: in
    the lock, the scheduler, the pipe, the log and the disk queue.

    ** Not modelled

    - Instructions are functions on registers and memory: no encoding, no
      segmentation or paging inside a stretch of assembly.  Where C code gives up
      the CPU the model of that code stops with the error [Swtch]; what the
      switch does is in Asm.  User programs see the stubs as the class
      [Ulib.usys]; [main] ends where it calls the scheduler.
    - kernel.ld and the other input of the build.
    - The hardware: devices are parameters with the laws named above.
    - The test programs, which make no promise to other code.
    - The template proc.c at the root of the repository, whose functions have
      empty bodies and which is not compiled. *)

From stdpp Require Import gmap list strings numbers.
From Stdlib Require Import ZArith Lia.

#[global] Open Scope Z_scope.

(** ** Outcomes of kernel code

    A C function that the kernel calls is a computation [M S A] on the state
    [S] of its component.  It returns a value, or stops: [Panic] is a call of
    [panic()], [Blocked] a call of [sleep()] that nobody in a sequential run
    could answer, [Fault] an access the C language leaves undefined (a null
    pointer, an index outside an array), [Swtch] a switch to the scheduler
    ([sched()] reached [swtch]), [Exited] a call of the [exit()] system call by
    a user program and [NoFuel] a loop that did not finish within its fuel. *)

Inductive err : Type :=
| Panic (msg : string)
| Blocked (chan : string)
| Fault
| Swtch
| Exited
| NoFuel.

Arguments Panic msg%_string.
Arguments Blocked chan%_string.

#[global] Instance err_eq_dec : EqDecision err.
Proof. solve_decision. Defined.

Inductive res (S A : Type) : Type :=
| Ok (a : A) (s : S)
| Err (e : err) (s : S).
Arguments Ok {S A} a s.
Arguments Err {S A} e s.

Definition M (S A : Type) : Type := S → res S A.

Definition ret {S A} (a : A) : M S A := λ s, Ok a s.

Definition bind {S A B} (m : M S A) (k : A → M S B) : M S B :=
  λ s, match m s with
       | Ok a s' => k a s'
       | Err e s' => Err e s'
       end.

Definition fail {S A} (e : err) : M S A := λ s, Err e s.
Definition panic {S A} (msg : string) : M S A := fail (Panic msg).
Arguments panic {S A} msg%_string.
Definition get {S} : M S S := λ s, Ok s s.
Definition put {S} (s : S) : M S unit := λ _, Ok tt s.
Definition gets {S A} (f : S → A) : M S A := λ s, Ok (f s) s.
Definition modify {S} (f : S → S) : M S unit := λ s, Ok tt (f s).

(** A value the code dereferences without a check. *)
Definition deref {S A} (o : option A) : M S A :=
  match o with Some a => ret a | None => fail Fault end.

(** Run the code of an inner component on its part of a larger state. *)
Definition zoom {S T A} (getter : S → T) (setter : T → S → S) (m : M T A) : M S A :=
  λ s, match m (getter s) with
       | Ok a t => Ok a (setter t s)
       | Err e t => Err e (setter t s)
       end.

Declare Scope kernel_scope.
Delimit Scope kernel_scope with kernel.
Notation "x <- c ;; k" := (bind c (λ x, k))
  (at level 20, c at level 99, k at level 200) : kernel_scope.
Notation "' pat <- c ;; k" := (bind c (λ pat, k))
  (at level 20, pat pattern, c at level 99, k at level 200) : kernel_scope.
Notation "c ;;; k" := (bind c (λ _, k))
  (at level 100, k at level 200, right associativity) : kernel_scope.
#[global] Open Scope kernel_scope.

(** [wp m s Q]: from [s] the computation returns, and the returned value and
    final state satisfy [Q].  It rules out every error outcome. *)
Definition wp {S A} (m : M S A) (s : S) (Q : A → S → Prop) : Prop :=
  match m s with
  | Ok a s' => Q a s'
  | Err _ _ => False
  end.

Section wp_rules.
Context {S A B : Type}.
Implicit Types (s : S).

Lemma wp_ret (a : A) s (Q : A → S → Prop) : Q a s → wp (ret a) s Q.
Proof. done. Qed.

Lemma wp_bind (m : M S A) (k : A → M S B) s (Q : B → S → Prop) :
  wp m s (λ a s', wp (k a) s' Q) → wp (bind m k) s Q.
Proof. unfold wp, bind. by destruct (m s). Qed.

Lemma wp_mono (m : M S A) s (P Q : A → S → Prop) :
  wp m s P → (∀ a s', P a s' → Q a s') → wp m s Q.
Proof. unfold wp. destruct (m s); auto. Qed.

Lemma wp_run (m : M S A) s (Q : A → S → Prop) :
  wp m s Q ↔ ∃ a s', m s = Ok a s' ∧ Q a s'.
Proof.
  unfold wp. split.
  - destruct (m s) as [a s'|]; [eauto|done].
  - by intros (a & s' & -> & HQ).
Qed.

Lemma wp_ok (m : M S A) s a s' (Q : A → S → Prop) :
  m s = Ok a s' → Q a s' → wp m s Q.
Proof. unfold wp. by intros ->. Qed.

Lemma bind_ok (m : M S A) (k : A → M S B) s a s' :
  m s = Ok a s' → bind m k s = k a s'.
Proof. unfold bind. by intros ->. Qed.

Lemma bind_err (m : M S A) (k : A → M S B) s e s' :
  m s = Err e s' → bind m k s = Err e s'.
Proof. unfold bind. by intros ->. Qed.

Lemma bind_inv (m : M S A) (k : A → M S B) s b s'' :
  bind m k s = Ok b s'' → ∃ a s', m s = Ok a s' ∧ k a s' = Ok b s''.
Proof. unfold bind. destruct (m s); [eauto|done]. Qed.

Lemma bind_gets (f : S → A) (k : A → M S B) s : bind (gets f) k s = k (f s) s.
Proof. done. Qed.

Lemma bind_modify (f : S → S) (k : unit → M S B) s : bind (modify f) k s = k tt (f s).
Proof. done. Qed.

Lemma bind_ret (a : A) (k : A → M S B) s : bind (ret a) k s = k a s.
Proof. done. Qed.

Lemma bind_assoc {C : Type} (m : M S A) (f : A → M S B) (k : B → M S C) s :
  bind (bind m f) k s = bind m (λ a, bind (f a) k) s.
Proof. unfold bind. by destruct (m s). Qed.

End wp_rules.

(** Take an equation [bind m k s = Ok b s'] apart, one call at a time. *)
Ltac run_inv :=
  repeat match goal with
  | H : bind _ _ _ = Ok _ _ |- _ =>
      let a := fresh "v" in let s := fresh "st" in
      let H1 := fresh "Hrun" in
      apply bind_inv in H as (a & s & H1 & H)
  | H : ret _ _ = Ok _ _ |- _ => unfold ret in H
  | H : gets _ _ = Ok _ _ |- _ => unfold gets in H
  | H : modify _ _ = Ok _ _ |- _ => unfold modify in H
  | H : fail _ _ = Ok _ _ |- _ => discriminate H
  | H : panic _ _ = Ok _ _ |- _ => discriminate H
  | H : Err _ _ = Ok _ _ |- _ => discriminate H
  | H : Ok _ _ = Ok _ _ |- _ => injection H as H; subst
  | H : (_, _) = (_, _) |- _ => injection H as H; subst
  end.

(** ** Machine integers *)

Definition u8 (z : Z) : Z := z mod 256.
Definition u16 (z : Z) : Z := z mod 65536.
Definition u32 (z : Z) : Z := z mod 4294967296.

(** Two's complement reading of the low 32 (16) bits. *)
Definition s32 (z : Z) : Z := (z + 2147483648) mod 4294967296 - 2147483648.
Definition s16 (z : Z) : Z := (z + 32768) mod 65536 - 32768.

(** [lia] after the divisions and remainders have become equations. *)
Ltac zlia :=
  unfold u8, u16, u32, s32, s16 in *; Z.div_mod_to_equations; lia.

Section machine_ints.
Implicit Types (a b z : Z).

Lemma u32_range z : 0 ≤ u32 z < 4294967296.
Proof. unfold u32. apply Z.mod_pos_bound. lia. Qed.

Lemma u32_small z : 0 ≤ z < 4294967296 → u32 z = z.
Proof. intros. unfold u32. by apply Z.mod_small. Qed.

Lemma u32_idemp z : u32 (u32 z) = u32 z.
Proof. apply u32_small, u32_range. Qed.

Lemma u32_add_l a b : u32 (u32 a + b) = u32 (a + b).
Proof. unfold u32. by rewrite Zplus_mod_idemp_l. Qed.

Lemma u32_add_r a b : u32 (a + u32 b) = u32 (a + b).
Proof. unfold u32. by rewrite Zplus_mod_idemp_r. Qed.

Lemma u32_sub_l a b : u32 (u32 a - b) = u32 (a - b).
Proof. unfold u32. by rewrite Zminus_mod_idemp_l. Qed.

Lemma u32_sub_r a b : u32 (a - u32 b) = u32 (a - b).
Proof. unfold u32. by rewrite Zminus_mod_idemp_r. Qed.

Lemma s32_range z : -2147483648 ≤ s32 z < 2147483648.
Proof. zlia. Qed.

Lemma s32_small z : -2147483648 ≤ z < 2147483648 → s32 z = z.
Proof. zlia. Qed.

Lemma u8_range z : 0 ≤ u8 z < 256.
Proof. zlia. Qed.

Lemma u8_small z : 0 ≤ z < 256 → u8 z = z.
Proof. zlia. Qed.

End machine_ints.

Create HintDb machine.
Create Rewrite HintDb machine_rw.
#[export] Hint Resolve u32_range s32_range u8_range u32_small u8_small : machine.
#[export] Hint Rewrite u32_idemp u32_add_l u32_add_r u32_sub_l u32_sub_r : machine_rw.
