(* ===== verification/Mem.v ===== *)
(** Byte-addressed memory and the routines of string.c and x86.h that work on it

    Memory is a finite map from addresses to bytes; an address that was never
    written reads as 0.  [ld8]/[st8] are the byte accesses, [ld32]/[st32] the
    little-endian word accesses, [stosb]/[stosl] the string instructions
    wrapped by x86.h, and [memset], [memcmp], [memmove] the routines of
    string.c, with the pointer tests and both copying directions of the
    source. *)

From stdpp Require Import gmap list numbers.
From Stdlib Require Import ZArith Lia.
From S2P Require Import Prelude.

Abbreviation mem := (gmap Z Z).

Definition ld8 (m : mem) (a : Z) : Z := u8 (default 0 (m !! a)).
Definition st8 (m : mem) (a v : Z) : mem := <[a := u8 v]> m.

Definition ld32 (m : mem) (a : Z) : Z :=
  ld8 m a + 256 * ld8 m (a + 1) + 65536 * ld8 m (a + 2) + 16777216 * ld8 m (a + 3).
Definition st32 (m : mem) (a v : Z) : mem :=
  st8 (st8 (st8 (st8 m a v) (a + 1) (v / 256)) (a + 2) (v / 65536))
      (a + 3) (v / 16777216).

(** The [n] bytes at [a]. *)
Fixpoint bytes_at (m : mem) (a : Z) (n : nat) : list Z :=
  match n with
  | O => []
  | S n' => ld8 m a :: bytes_at m (a + 1) n'
  end.

(** Store a list of bytes at [a]. *)
Fixpoint store_bytes (m : mem) (a : Z) (bs : list Z) : mem :=
  match bs with
  | [] => m
  | b :: bs' => store_bytes (st8 m a b) (a + 1) bs'
  end.

(** x86.h: [rep stosb] and [rep stosl]. *)
Fixpoint stosb (m : mem) (addr data : Z) (cnt : nat) : mem :=
  match cnt with
  | O => m
  | S cnt' => stosb (st8 m addr data) (addr + 1) data cnt'
  end.

Fixpoint stosl (m : mem) (addr data : Z) (cnt : nat) : mem :=
  match cnt with
  | O => m
  | S cnt' => stosl (st32 m addr data) (addr + 4) data cnt'
  end.

(** string.c: [memset].  The word-wise branch is taken when the address, read
    as an [int], and the length are multiples of 4. *)
Definition memset (m : mem) (dst c n : Z) : mem :=
  if (Z.rem (s32 dst) 4 =? 0) && (n mod 4 =? 0) then
    let c := Z.land c 255 in
    stosl m dst
      (Z.lor (Z.lor (Z.lor (Z.shiftl c 24) (Z.shiftl c 16)) (Z.shiftl c 8)) c)
      (Z.to_nat (n / 4))
  else stosb m dst c (Z.to_nat n).

(** string.c: [memcmp]. *)
Fixpoint memcmp (m : mem) (s1 s2 : Z) (n : nat) : Z :=
  match n with
  | O => 0
  | S n' =>
      if ld8 m s1 =? ld8 m s2 then memcmp m (s1 + 1) (s2 + 1) n'
      else ld8 m s1 - ld8 m s2
  end.

(** The two loops of [memmove]: from the end down, with [s] and [d] one past
    the last byte, and from the start up. *)
Fixpoint copy_down (m : mem) (d s : Z) (n : nat) : mem :=
  match n with
  | O => m
  | S n' => copy_down (st8 m (d - 1) (ld8 m (s - 1))) (d - 1) (s - 1) n'
  end.

Fixpoint copy_up (m : mem) (d s : Z) (n : nat) : mem :=
  match n with
  | O => m
  | S n' => copy_up (st8 m d (ld8 m s)) (d + 1) (s + 1) n'
  end.

(** string.c: [memmove]. *)
Definition memmove (m : mem) (dst src n : Z) : mem :=
  if (src <? dst) && (dst <? u32 (src + n)) then
    copy_down m (dst + n) (src + n) (Z.to_nat n)
  else copy_up m dst src (Z.to_nat n).

(** ** Loads and stores *)

Section loads_stores.
Implicit Types (m : mem) (a b v : Z).

Lemma ld8_range m a : 0 ≤ ld8 m a < 256.
Proof. apply u8_range. Qed.

Lemma u8_ld8 m a : u8 (ld8 m a) = ld8 m a.
Proof. apply u8_small, ld8_range. Qed.

Lemma ld8_st8 m a b v : ld8 (st8 m a v) b = if decide (a = b) then u8 v else ld8 m b.
Proof.
  unfold ld8, st8. rewrite lookup_insert.
  case_decide; simpl; [apply u8_small, u8_range | done].
Qed.

Lemma ld8_st8_eq m a v : ld8 (st8 m a v) a = u8 v.
Proof. rewrite ld8_st8. by case_decide. Qed.

Lemma ld8_st8_ne m a b v : a ≠ b → ld8 (st8 m a v) b = ld8 m b.
Proof. intros. rewrite ld8_st8. by case_decide. Qed.

Lemma ld32_range m a : 0 ≤ ld32 m a < 4294967296.
Proof.
  unfold ld32. pose proof (ld8_range m a). pose proof (ld8_range m (a+1)).
  pose proof (ld8_range m (a+2)). pose proof (ld8_range m (a+3)). lia.
Qed.

Lemma ld8_st32_ne m a b v : b < a ∨ a + 4 ≤ b → ld8 (st32 m a v) b = ld8 m b.
Proof. intros. unfold st32. rewrite !ld8_st8_ne by lia. done. Qed.

Lemma ld32_st32_eq m a v : ld32 (st32 m a v) a = u32 v.
Proof.
  unfold ld32, st32.
  repeat first [rewrite ld8_st8_eq | rewrite ld8_st8_ne by lia]. zlia.
Qed.

Lemma ld32_st32_ne m a b v : b + 4 ≤ a ∨ a + 4 ≤ b → ld32 (st32 m a v) b = ld32 m b.
Proof. intros. unfold ld32. rewrite !ld8_st32_ne by lia. done. Qed.

Lemma ld32_ext m m' a :
  (∀ b, a ≤ b < a + 4 → ld8 m b = ld8 m' b) → ld32 m a = ld32 m' a.
Proof. intros H. unfold ld32. rewrite !H by lia. done. Qed.

Lemma ld8_st32_in m a v i : 0 ≤ i < 4 →
  ld8 (st32 m a v) (a + i) = u8 (v / 2 ^ (8 * i)).
Proof.
  intros. assert (i = 0 ∨ i = 1 ∨ i = 2 ∨ i = 3) as [->|[->|[->| ->]]] by lia;
    unfold st32;
    repeat first [rewrite Z.add_0_r | rewrite ld8_st8_eq | rewrite ld8_st8_ne by lia];
    rewrite ?Z.div_1_r; done.
Qed.

Lemma length_bytes_at m a n : length (bytes_at m a n) = n.
Proof. revert a. induction n; intros; simpl; auto. Qed.

Lemma bytes_at_lookup m n : ∀ a i, (i < n)%nat →
  bytes_at m a n !! i = Some (ld8 m (a + Z.of_nat i)).
Proof.
  induction n as [|n IH]; intros a i Hi; [lia|].
  destruct i as [|i]; simpl; [by rewrite Z.add_0_r|].
  rewrite IH by lia. do 2 f_equal. lia.
Qed.

Lemma bytes_at_ext m m' a n :
  (∀ b, a ≤ b < a + Z.of_nat n → ld8 m b = ld8 m' b) → bytes_at m a n = bytes_at m' a n.
Proof.
  revert a. induction n as [|n IH]; intros a H; [done|].
  simpl. rewrite H by lia. f_equal. apply IH. intros. apply H. lia.
Qed.

Lemma ld8_store_bytes bs : ∀ m a b,
  ld8 (store_bytes m a bs) b =
  if decide (a ≤ b < a + Z.of_nat (length bs))
  then u8 (default 0 (bs !! Z.to_nat (b - a))) else ld8 m b.
Proof.
  induction bs as [|x bs IH]; intros m a b; simpl.
  { case_decide; [lia|done]. }
  rewrite IH, ld8_st8. repeat case_decide; try lia; try done.
  - replace (Z.to_nat (b - a)) with (S (Z.to_nat (b - (a + 1)))) by lia. done.
  - by replace (Z.to_nat (b - a)) with 0%nat by lia.
Qed.

End loads_stores.

#[export] Hint Resolve ld8_range ld32_range u8_ld8 : machine.

(** ** Filling and copying *)

Section fill_copy.
Implicit Types (m : mem).

Lemma stosb_spec n : ∀ m a c b,
  ld8 (stosb m a c n) b = if decide (a ≤ b < a + Z.of_nat n) then u8 c else ld8 m b.
Proof.
  induction n as [|n IH]; intros m a c b; simpl.
  { case_decide; [lia|done]. }
  rewrite IH, ld8_st8. repeat case_decide; try lia; done.
Qed.

(** A word all of whose bytes are [c]. *)
Lemma splat_byte c i : 0 ≤ c < 256 → 0 ≤ i < 4 →
  u8 (Z.lor (Z.lor (Z.lor (Z.shiftl c 24) (Z.shiftl c 16)) (Z.shiftl c 8)) c
      / 2 ^ (8 * i)) = c.
Proof.
  intros Hc Hi.
  assert (Hlow : ∀ j, 8 ≤ j → Z.testbit c j = false).
  { intros j Hj. destruct (decide (c = 0)) as [->|]; [apply Z.bits_0|].
    apply Z.bits_above_log2; [lia|].
    assert (Z.log2 c < 8) by (apply Z.log2_lt_pow2; lia). lia. }
  unfold u8. change 256 with (2 ^ 8).
  rewrite <- Z.shiftr_div_pow2 by lia. rewrite <- Z.land_ones by lia.
  apply Z.bits_inj'. intros n Hn.
  rewrite Z.land_spec, Z.testbit_ones, Z.shiftr_spec by lia.
  rewrite !Z.lor_spec, !Z.shiftl_spec by lia.
  destruct (decide (n < 8)).
  - rewrite (proj2 (Z.ltb_lt n 8)) by done.
    rewrite (proj2 (Z.leb_le 0 n)) by done. rewrite andb_true_r.
    assert (i = 0 ∨ i = 1 ∨ i = 2 ∨ i = 3) as [->|[->|[->| ->]]] by lia;
      repeat match goal with
      | |- context [Z.testbit c ?j] =>
          first [ rewrite (Hlow j) by lia
                | rewrite (Z.testbit_neg_r c j) by lia
                | progress (replace j with n by lia) ]
      end; rewrite ?orb_false_r, ?orb_false_l; done.
  - rewrite (proj2 (Z.ltb_ge n 8)) by lia.
    rewrite andb_false_r, andb_false_r. by rewrite Hlow by lia.
Qed.

Lemma stosl_spec n : ∀ m a v c b,
  (∀ i, 0 ≤ i < 4 → u8 (v / 2 ^ (8 * i)) = c) →
  ld8 (stosl m a v n) b = if decide (a ≤ b < a + 4 * Z.of_nat n) then c else ld8 m b.
Proof.
  induction n as [|n IH]; intros m a v c b Hv; simpl.
  { case_decide; [lia|done]. }
  rewrite (IH _ _ _ c) by done.
  destruct (decide (a ≤ b < a + 4)).
  - rewrite decide_False by lia. rewrite decide_True by lia.
    replace b with (a + (b - a)) by lia. rewrite ld8_st32_in by lia. apply Hv. lia.
  - rewrite ld8_st32_ne by lia. repeat case_decide; try lia; done.
Qed.

(** [memset]: every byte of the range gets the low byte of [c], nothing else
    changes, whichever of the two branches runs. *)
Lemma ld8_memset m dst c n b : 0 ≤ n →
  ld8 (memset m dst c n) b = if decide (dst ≤ b < dst + n) then u8 c else ld8 m b.
Proof.
  intros Hn. unfold memset.
  destruct ((Z.rem (s32 dst) 4 =? 0) && (n mod 4 =? 0)) eqn:E.
  - apply andb_true_iff in E as [_ E]. apply Z.eqb_eq in E.
    assert (Hc : Z.land c 255 = u8 c)
      by (unfold u8; change 255 with (Z.ones 8); rewrite Z.land_ones by lia; done).
    rewrite (stosl_spec _ _ _ _ (u8 c)).
    + assert (4 * Z.of_nat (Z.to_nat (n / 4)) = n) as -> by zlia. done.
    + intros i Hi. rewrite Hc. apply splat_byte; [apply u8_range | lia].
  - rewrite stosb_spec. by rewrite Z2Nat.id by lia.
Qed.

Lemma copy_up_spec n : ∀ m d s b,
  d ≤ s ∨ s + Z.of_nat n ≤ d →
  ld8 (copy_up m d s n) b =
  if decide (d ≤ b < d + Z.of_nat n) then ld8 m (s + (b - d)) else ld8 m b.
Proof.
  induction n as [|n IH]; intros m d s b Hds; simpl.
  { case_decide; [lia|done]. }
  rewrite IH by lia. rewrite !ld8_st8, u8_ld8.
  repeat case_decide; try lia; try done; try (f_equal; lia).
Qed.

Lemma copy_down_spec n : ∀ m d s b,
  s ≤ d →
  ld8 (copy_down m d s n) b =
  if decide (d - Z.of_nat n ≤ b < d) then ld8 m (s - (d - b)) else ld8 m b.
Proof.
  induction n as [|n IH]; intros m d s b Hds; simpl.
  { case_decide; [lia|done]. }
  rewrite IH by lia. rewrite !ld8_st8, u8_ld8.
  repeat case_decide; try lia; try done; try (f_equal; lia).
Qed.

Lemma ld8_memmove m dst src n b :
  0 ≤ src → 0 ≤ n → src + n < 4294967296 →
  ld8 (memmove m dst src n) b =
  if decide (dst ≤ b < dst + n) then ld8 m (src + (b - dst)) else ld8 m b.
Proof.
  intros Hsrc Hn Hend. unfold memmove. rewrite (u32_small (src + n)) by lia.
  destruct ((src <? dst) && (dst <? src + n)) eqn:E.
  - apply andb_true_iff in E as [H1 H2]. apply Z.ltb_lt in H1, H2.
    rewrite copy_down_spec by lia. rewrite Z2Nat.id by lia.
    repeat case_decide; try lia; try done; f_equal; lia.
  - rewrite copy_up_spec.
    + by rewrite Z2Nat.id by lia.
    + rewrite Z2Nat.id by lia.
      apply andb_false_iff in E as [H|H]; apply Z.ltb_ge in H; lia.
Qed.

Lemma bytes_at_memmove m dst src n :
  0 ≤ src → 0 ≤ n → src + n < 4294967296 →
  bytes_at (memmove m dst src n) dst (Z.to_nat n) = bytes_at m src (Z.to_nat n).
Proof.
  intros. apply list_eq_same_length with (n := Z.to_nat n);
    rewrite ?length_bytes_at; try done.
  intros i x y Hi. rewrite !bytes_at_lookup by lia.
  rewrite ld8_memmove by lia. rewrite decide_True by lia.
  intros. simplify_eq. f_equal. lia.
Qed.

Lemma memcmp_zero_iff n : ∀ m s1 s2,
  memcmp m s1 s2 n = 0 ↔ bytes_at m s1 n = bytes_at m s2 n.
Proof.
  induction n as [|n IH]; intros m s1 s2; simpl; [done|].
  destruct (Z.eqb_spec (ld8 m s1) (ld8 m s2)) as [E|E].
  - rewrite E, IH. split; [by intros -> | by intros [=]].
  - split; [lia | by intros [=]].
Qed.

End fill_copy.
