(* ===== verification/StringC.v ===== *)
(** C strings: the str* routines of string.c

    A pointer into a character array is the list of bytes from that pointer to
    the end of the array, so dereferencing the empty list is an access outside
    the object and the routine has no result ([None]).  A routine that writes
    through a pointer returns the new contents of the array. *)

From stdpp Require Import list numbers.
From Stdlib Require Import ZArith Lia.
From S2P Require Import Prelude Mem.

(** The string an array holds: its bytes before the first NUL. *)
Fixpoint cstr (l : list Z) : list Z :=
  match l with
  | [] => []
  | c :: l' => if c =? 0 then [] else c :: cstr l'
  end.

(** string.c: [strlen]. *)
Fixpoint strlen (s : list Z) : option Z :=
  match s with
  | [] => None
  | c :: s' => if c =? 0 then Some 0 else (λ n, n + 1) <$> strlen s'
  end.

(** string.c: [strncmp]. *)
Fixpoint strncmp (p q : list Z) (n : nat) {struct n} : option Z :=
  match n with
  | O => Some 0
  | S n' =>
      match p, q with
      | a :: p', b :: q' =>
          if negb (a =? 0) && (a =? b) then strncmp p' q' n'
          else Some (u8 a - u8 b)
      | _, _ => None
      end
  end.

(** string.c: [strncpy]: the [n] bytes it writes at [s]. *)
Fixpoint strncpy (t : list Z) (n : nat) {struct n} : option (list Z) :=
  match n with
  | O => Some []
  | S n' =>
      match t with
      | [] => None
      | c :: t' =>
          if c =? 0 then Some (0 :: replicate n' 0)
          else (λ r, c :: r) <$> strncpy t' n'
      end
  end.

(** The loop of [safestrcpy] and the store after it; [k] is [n - 1], the
    number of bytes the loop may still copy. *)
Fixpoint safestrcpy_loop (s t : list Z) (k : nat) {struct k} : option (list Z) :=
  match k with
  | O => match s with [] => None | _ :: s' => Some (0 :: s') end
  | S k' =>
      match s, t with
      | _ :: s', c :: t' =>
          if c =? 0 then
            match s' with [] => None | _ :: s'' => Some (0 :: 0 :: s'') end
          else (λ r, c :: r) <$> safestrcpy_loop s' t' k'
      | _, _ => None
      end
  end.

(** string.c: [safestrcpy]: the new contents of the array at [s]. *)
Definition safestrcpy (s t : list Z) (n : Z) : option (list Z) :=
  if n <=? 0 then Some s else safestrcpy_loop s t (Z.to_nat (n - 1)).

(** ** Facts *)

Section cstr_facts.
Implicit Types (l s t p q : list Z) (n k : nat).

(** The routine may read [n] bytes of [l], or fewer up to a NUL. *)
Definition readable l n : Prop := 0 ∈ l ∨ (n ≤ length l)%nat.

Lemma readable_cons c l n : c ≠ 0 → readable (c :: l) (S n) → readable l n.
Proof.
  intros Hc [H|H]; [left | right; simpl in H; lia].
  apply elem_of_cons in H as [?|?]; [congruence | done].
Qed.

Lemma readable_nil n : ¬ readable [] (S n).
Proof. intros [H|H]; [by apply elem_of_nil in H | simpl in H; lia]. Qed.

Lemma cstr_no_nul l : 0 ∉ cstr l.
Proof.
  induction l as [|c l IH]; simpl; [apply not_elem_of_nil|].
  destruct (Z.eqb_spec c 0); [apply not_elem_of_nil|].
  apply not_elem_of_cons; auto.
Qed.

Lemma cstr_app_nul l r : 0 ∉ l → cstr (l ++ 0 :: r) = l.
Proof.
  induction l as [|c l IH]; intros H; simpl; [done|].
  apply not_elem_of_cons in H as [H1 H2].
  destruct (Z.eqb_spec c 0); [congruence|]. by rewrite IH.
Qed.

Lemma cstr_length_le l : (length (cstr l) ≤ length l)%nat.
Proof. induction l as [|c l IH]; simpl; [lia|]. destruct (c =? 0); simpl; lia. Qed.

Lemma cstr_replicate n : cstr (replicate n 0) = [].
Proof. by destruct n. Qed.

Lemma strlen_Some l : 0 ∈ l → strlen l = Some (Z.of_nat (length (cstr l))).
Proof.
  induction l as [|c l IH]; intros H; simpl; [by apply elem_of_nil in H|].
  destruct (Z.eqb_spec c 0); [done|].
  apply elem_of_cons in H as [?|H]; [congruence|].
  rewrite IH by done. simpl. f_equal. lia.
Qed.

Lemma strncmp_Some n : ∀ p q,
  readable p n → readable q n →
  Forall (λ c, 0 ≤ c < 256) p → Forall (λ c, 0 ≤ c < 256) q →
  ∃ r, strncmp p q n = Some r ∧ (r = 0 ↔ cstr (take n p) = cstr (take n q)).
Proof.
  induction n as [|n IH]; intros p q Hp Hq Bp Bq; simpl; [exists 0; split; [done|split; done]|].
  destruct p as [|a p]; [by apply readable_nil in Hp|].
  destruct q as [|b q]; [by apply readable_nil in Hq|].
  apply Forall_cons_1 in Bp as [Ba Bp], Bq as [Bb Bq]. simpl.
  destruct (Z.eqb_spec a 0) as [->|Ha]; simpl.
  { eexists; split; [done|]. rewrite !u8_small by lia.
    destruct (Z.eqb_spec b 0) as [->|]; [done|]. split; [intros; lia | done]. }
  destruct (Z.eqb_spec a b) as [->|Hab].
  - destruct (IH p q) as (r & -> & Hr); eauto using readable_cons.
    exists r. split; [done|]. destruct (Z.eqb_spec b 0); [done|].
    rewrite Hr. split; [by intros -> | by intros [=]].
  - eexists; split; [done|]. rewrite !u8_small by lia.
    destruct (b =? 0); split; intros; simplify_eq; lia.
Qed.

Lemma strncpy_Some n : ∀ t, readable t n →
  ∃ r, strncpy t n = Some r ∧ length r = n ∧
       r = cstr (take n t) ++ replicate (n - length (cstr (take n t))) 0.
Proof.
  induction n as [|n IH]; intros t Ht; simpl; [by exists []|].
  destruct t as [|c t]; [by apply readable_nil in Ht|]. simpl.
  destruct (Z.eqb_spec c 0) as [->|Hc].
  - eexists; split; [done|]. simpl. by rewrite length_replicate.
  - destruct (IH t) as (r & -> & Hl & Hr); [eauto using readable_cons|].
    exists (c :: r). simpl. split; [done|]. split; [congruence|]. by f_equal.
Qed.

Lemma safestrcpy_loop_Some k : ∀ s t,
  (S k ≤ length s)%nat → readable t k →
  ∃ r, safestrcpy_loop s t k = Some r ∧ length r = length s ∧
       cstr r = cstr (take k t) ∧ drop (S k) r = drop (S k) s.
Proof.
  induction k as [|k IH]; intros s t Hs Ht; destruct s as [|x s]; simpl in Hs; try lia.
  { simpl. by eexists. }
  destruct t as [|c t]; [by apply readable_nil in Ht|]. simpl.
  destruct (Z.eqb_spec c 0) as [->|Hc].
  - destruct s as [|y s]; simpl in Hs; [lia|]. by eexists.
  - destruct (IH s t) as (r & -> & Hl & Hc' & Hd); [lia|eauto using readable_cons|].
    exists (c :: r). simpl. destruct (Z.eqb_spec c 0); [done|].
    rewrite Hl, Hc'. auto.
Qed.

End cstr_facts.

#[export] Hint Resolve cstr_no_nul : machine.
