(* ===== verification/Memlayout.v ===== *)
(** Address arithmetic: memlayout.h, mmu.h and param.h

    The macros of the two headers on 32-bit unsigned addresses, with the bit
    operations of the source, and the division/remainder form of each that the
    page-table and allocator proofs compute with. *)

From stdpp Require Import list numbers.
From Stdlib Require Import ZArith Lia.
From S2P Require Import Prelude.

(** memlayout.h *)
Definition EXTMEM : Z := 0x100000.
Definition PHYSTOP : Z := 0xE000000.
Definition DEVSPACE : Z := 0xFE000000.
Definition KERNBASE : Z := 0x80000000.
Definition KERNLINK : Z := KERNBASE + EXTMEM.
Definition V2P (a : Z) : Z := u32 (a - KERNBASE).
Definition P2V (a : Z) : Z := u32 (a + KERNBASE).

(** param.h *)
Definition NPROC : nat := 64.
Definition KSTACKSIZE : Z := 4096.
Definition NCPU : nat := 8.
Definition NOFILE : nat := 16.
Definition NFILE : nat := 100.
Definition NINODE : nat := 50.
Definition NDEV : Z := 10.
Definition ROOTDEV : Z := 1.
Definition MAXARG : nat := 32.
Definition MAXOPBLOCKS : Z := 10.
Definition LOGSIZE : Z := MAXOPBLOCKS * 3.
Definition NBUF : nat := 30.
Definition FSSIZE : Z := 3000.

(** mmu.h: pages and page-table entries *)
Definition PGSIZE : Z := 4096.
Definition NPDENTRIES : Z := 1024.
Definition PTE_P : Z := 0x001.
Definition PTE_W : Z := 0x002.
Definition PTE_U : Z := 0x004.
Definition PDX (va : Z) : Z := Z.land (Z.shiftr va 22) 0x3FF.
Definition PTX (va : Z) : Z := Z.land (Z.shiftr va 12) 0x3FF.
Definition PGADDR (d t o : Z) : Z := u32 (Z.lor (Z.lor (Z.shiftl d 22) (Z.shiftl t 12)) o).
Definition PGROUNDUP (sz : Z) : Z := Z.land (u32 (sz + PGSIZE - 1)) (Z.lnot (PGSIZE - 1)).
Definition PGROUNDDOWN (a : Z) : Z := Z.land a (Z.lnot (PGSIZE - 1)).
Definition PTE_ADDR (pte : Z) : Z := Z.land pte (Z.lnot 0xFFF).
Definition PTE_FLAGS (pte : Z) : Z := Z.land pte 0xFFF.

(** mmu.h: segment selectors and flags used by proc.c *)
Definition SEG_KCODE : Z := 1.
Definition SEG_KDATA : Z := 2.
Definition SEG_UCODE : Z := 3.
Definition SEG_UDATA : Z := 4.
Definition SEG_TSS : Z := 5.
Definition DPL_USER : Z := 3.
Definition FL_IF : Z := 0x200.

(** ** Division form of the macros *)

Section macros.
Implicit Types (a va pte : Z).

Lemma land_low12 a : Z.land a 0xFFF = a mod 4096.
Proof. change 0xFFF with (Z.ones 12). by rewrite Z.land_ones by lia. Qed.

Lemma land_lnot_low12 a : Z.land a (Z.lnot 0xFFF) = 4096 * (a / 4096).
Proof.
  change 0xFFF with (Z.ones 12). rewrite <- Z.ldiff_land.
  rewrite Z.ldiff_ones_r by lia.
  rewrite Z.shiftl_mul_pow2, Z.shiftr_div_pow2 by lia. change (2 ^ 12) with 4096. lia.
Qed.

Lemma PGROUNDDOWN_div a : PGROUNDDOWN a = 4096 * (a / 4096).
Proof. apply land_lnot_low12. Qed.

Lemma PTE_ADDR_div pte : PTE_ADDR pte = 4096 * (pte / 4096).
Proof. apply land_lnot_low12. Qed.

Lemma PTE_FLAGS_mod pte : PTE_FLAGS pte = pte mod 4096.
Proof. apply land_low12. Qed.

Lemma PGROUNDUP_div a : 0 ≤ a → a + 4095 < 4294967296 →
  PGROUNDUP a = 4096 * ((a + 4095) / 4096).
Proof.
  intros. unfold PGROUNDUP, PGSIZE. rewrite u32_small by lia.
  rewrite <- land_lnot_low12. do 2 f_equal. lia.
Qed.

Lemma PDX_div va : PDX va = (va / 4194304) mod 1024.
Proof.
  unfold PDX. change 0x3FF with (Z.ones 10).
  by rewrite Z.land_ones, Z.shiftr_div_pow2 by lia.
Qed.

Lemma PTX_div va : PTX va = (va / 4096) mod 1024.
Proof.
  unfold PTX. change 0x3FF with (Z.ones 10).
  by rewrite Z.land_ones, Z.shiftr_div_pow2 by lia.
Qed.

Lemma PDX_range va : 0 ≤ PDX va < 1024.
Proof. rewrite PDX_div. apply Z.mod_pos_bound. lia. Qed.

Lemma PTX_range va : 0 ≤ PTX va < 1024.
Proof. rewrite PTX_div. apply Z.mod_pos_bound. lia. Qed.

(** The two indices identify the page of a 32-bit address. *)
Lemma PDX_PTX_inj a va : 0 ≤ a < 4294967296 → 0 ≤ va < 4294967296 →
  PDX a = PDX va → PTX a = PTX va → a / 4096 = va / 4096.
Proof. rewrite !PDX_div, !PTX_div. intros. Z.div_mod_to_equations. lia. Qed.

Lemma PGADDR_next d : 0 ≤ d < 1023 → PGADDR (d + 1) 0 0 = (d + 1) * 4194304.
Proof.
  intros. unfold PGADDR. rewrite Z.shiftl_0_l, !Z.lor_0_r.
  rewrite Z.shiftl_mul_pow2 by lia. rewrite u32_small; lia.
Qed.

Lemma V2P_P2V a : 0 ≤ a < 4294967296 → V2P (P2V a) = a.
Proof.
  intros. unfold V2P, P2V. autorewrite with machine_rw.
  rewrite u32_small; lia.
Qed.

Lemma P2V_V2P a : 0 ≤ a < 4294967296 → P2V (V2P a) = a.
Proof.
  intros. unfold V2P, P2V. autorewrite with machine_rw.
  rewrite u32_small; lia.
Qed.

End macros.

#[export] Hint Resolve PDX_range PTX_range : machine.
