(* ===== verification/Kalloc.v ===== *)
(** The physical page allocator: kalloc.c

    The free list is threaded through the free pages themselves: the first
    word of a free page is the address of the next one, so the allocator's
    state is the head pointer together with the memory.  The development is
    parametric in [kend], the linker symbol [end] (first address after the
    kernel image).

    The abstract state is the list of free pages; [kmem_inv] ties it to the
    pointers in memory, and the refinement lemmas say that [kalloc] takes its
    head, [kfree] pushes on it and [freerange] pushes every page of a range. *)

From stdpp Require Import gmap list numbers strings.
From Stdlib Require Import ZArith Lia.
From S2P Require Import Prelude Mem Memlayout.

(** [struct kmem] and the memory it points into. *)
Record kst := Kst {
  memory : mem;
  kmem_lock : bool;      (* kmem.lock is held *)
  use_lock : bool;
  freelist : Z
}.

Definition set_memory (m : mem) (s : kst) : kst :=
  Kst m (kmem_lock s) (use_lock s) (freelist s).
Definition set_kmem_lock (b : bool) (s : kst) : kst :=
  Kst (memory s) b (use_lock s) (freelist s).
Definition set_use_lock (b : bool) (s : kst) : kst :=
  Kst (memory s) (kmem_lock s) b (freelist s).
Definition set_freelist (p : Z) (s : kst) : kst :=
  Kst (memory s) (kmem_lock s) (use_lock s) p.

(** [acquire(&kmem.lock)] and [release(&kmem.lock)] as the CPU that runs the
    allocator sees them. *)
Definition acquire_kmem : M kst unit :=
  l <- gets kmem_lock ;;
  if l : bool then panic "acquire" else modify (set_kmem_lock true).
Definition release_kmem : M kst unit :=
  l <- gets kmem_lock ;;
  if l : bool then modify (set_kmem_lock false) else panic "release".

(** [if(kmem.use_lock) ...] *)
Definition if_use_lock (c : M kst unit) : M kst unit :=
  u <- gets use_lock ;;
  if u : bool then c else ret tt.

Section kalloc.
Variable kend : Z.

Definition kfree (v : Z) : M kst unit :=
  if negb (v mod PGSIZE =? 0) || (v <? kend) || (PHYSTOP <=? V2P v) then panic "kfree"
  else
    modify (λ s, set_memory (memset (memory s) v 1 PGSIZE) s) ;;;
    if_use_lock acquire_kmem ;;;
    modify (λ s, set_memory (st32 (memory s) v (freelist s)) s) ;;;
    modify (set_freelist v) ;;;
    if_use_lock release_kmem.

Definition kalloc : M kst Z :=
  if_use_lock acquire_kmem ;;;
  r <- gets freelist ;;
  (if r =? 0 then ret tt
   else modify (λ s, set_freelist (ld32 (memory s) r) s)) ;;;
  if_use_lock release_kmem ;;;
  ret r.

(** The loop of [freerange]; one unit of fuel per page. *)
Fixpoint freerange_loop (fuel : nat) (p vend : Z) : M kst unit :=
  if u32 (p + PGSIZE) <=? vend then
    match fuel with
    | O => fail NoFuel
    | S fuel' => kfree p ;;; freerange_loop fuel' (u32 (p + PGSIZE)) vend
    end
  else ret tt.

Definition freerange (vstart vend : Z) : M kst unit :=
  freerange_loop (Z.to_nat (vend / PGSIZE + 1)) (PGROUNDUP vstart) vend.

Definition kinit1 (vstart vend : Z) : M kst unit :=
  modify (set_kmem_lock false) ;;;
  modify (set_use_lock false) ;;;
  freerange vstart vend.

Definition kinit2 (vstart vend : Z) : M kst unit :=
  freerange vstart vend ;;;
  modify (set_use_lock true).

(** ** Abstraction *)

(** A page [kfree] accepts. *)
Definition page_ok (v : Z) : Prop :=
  v mod PGSIZE = 0 ∧ kend ≤ v ∧ KERNBASE ≤ v ∧ v < KERNBASE + PHYSTOP.

(** The chain of next pointers from [head] visits exactly the pages [l]. *)
Fixpoint chain (m : mem) (head : Z) (l : list Z) : Prop :=
  match l with
  | [] => head = 0
  | p :: l' => head = p ∧ chain m (ld32 m p) l'
  end.

Definition kmem_inv (s : kst) (l : list Z) : Prop :=
  chain (memory s) (freelist s) l ∧ NoDup l ∧ Forall page_ok l ∧
  kmem_lock s = false.

(** [p] lies in the page that starts at [v]. *)
Definition in_page (v p : Z) : Prop := v ≤ p < v + PGSIZE.

(** The pages [freerange] walks over, first to last. *)
Fixpoint pages_from (p : Z) (n : nat) : list Z :=
  match n with
  | O => []
  | S n' => p :: pages_from (p + PGSIZE) n'
  end.

(** ** Lemmas *)

Section lemmas.
Implicit Types (s : kst) (l : list Z) (v p : Z) (m : mem).

Lemma page_ok_pos p : page_ok p → KERNBASE ≤ p < 4294967296 ∧ p ≠ 0.
Proof. unfold page_ok, KERNBASE, PHYSTOP. lia. Qed.

Lemma page_ok_disjoint p q a : page_ok p → page_ok q → p ≠ q →
  in_page p a → ¬ in_page q a.
Proof. unfold page_ok, in_page, PGSIZE. intros. Z.div_mod_to_equations. lia. Qed.

Lemma kfree_guard v : page_ok v →
  negb (v mod PGSIZE =? 0) || (v <? kend) || (PHYSTOP <=? V2P v) = false.
Proof.
  unfold page_ok, V2P, KERNBASE, PHYSTOP. intros.
  rewrite u32_small by lia.
  destruct (Z.eqb_spec (v mod PGSIZE) 0); [|lia].
  destruct (Z.ltb_spec v kend); [lia|].
  by destruct (Z.leb_spec 0xE000000 (v - 0x80000000)); [lia|].
Qed.

(** Only the free pages matter for the chain. *)
Lemma chain_ext m m' l : ∀ head,
  (∀ p a, p ∈ l → in_page p a → ld8 m a = ld8 m' a) →
  chain m head l → chain m' head l.
Proof.
  induction l as [|p l IH]; intros head Hext; simpl; [done|].
  intros [-> Hch]. split; [done|].
  rewrite <- (ld32_ext m m').
  - apply IH; [|done]. intros q a Hq. apply Hext. by right.
  - intros b Hb. apply (Hext p); [by left|]. unfold in_page, PGSIZE. lia.
Qed.

Lemma ld8_set_next m v nx b : ¬ in_page v b →
  ld8 (st32 (memset m v 1 PGSIZE) v nx) b = ld8 m b.
Proof.
  unfold in_page, PGSIZE. intros Hb. rewrite ld8_st32_ne by lia.
  rewrite ld8_memset by lia. rewrite decide_False by lia. done.
Qed.

(** [kalloc] takes the head of the abstract free list. *)
Lemma kalloc_pop s p l : kmem_inv s (p :: l) →
  ∃ s', kalloc s = Ok p s' ∧ kmem_inv s' l ∧ memory s' = memory s ∧
        use_lock s' = use_lock s ∧ (p ∉ l) ∧ page_ok p.
Proof.
  intros ((Hhd & Hch) & Hnd & Hok & Hlk).
  apply NoDup_cons in Hnd as [Hp Hnd].
  apply Forall_cons_1 in Hok as [Hokp Hok].
  pose proof (page_ok_pos p Hokp) as [_ Hp0].
  destruct s as [m lk ul fl]; simpl in *; subst.
  exists (Kst m false ul (ld32 m p)).
  split; [|done].
  unfold kalloc, if_use_lock, acquire_kmem, release_kmem, bind, gets, modify, ret.
  destruct ul; simpl; rewrite (proj2 (Z.eqb_neq p 0)) by done; done.
Qed.

Lemma kalloc_empty s : kmem_inv s [] → kalloc s = Ok 0 s.
Proof.
  intros (Hhd & _ & _ & Hlk). simpl in Hhd.
  destruct s as [m lk ul fl]; simpl in *; subst.
  unfold kalloc, if_use_lock, acquire_kmem, release_kmem, bind, gets, modify, ret.
  by destruct ul.
Qed.

(** [kfree] pushes the page; memory changes inside the page only. *)
Lemma kfree_push s l v : kmem_inv s l → page_ok v → v ∉ l →
  ∃ s', kfree v s = Ok tt s' ∧ kmem_inv s' (v :: l) ∧ use_lock s' = use_lock s ∧
        ∀ b, ¬ in_page v b → ld8 (memory s') b = ld8 (memory s) b.
Proof.
  intros (Hch & Hnd & Hok & Hlk) Hv Hnin.
  destruct s as [m lk ul fl]; simpl in *; subst.
  exists (Kst (st32 (memset m v 1 PGSIZE) v fl) false ul v).
  split_and!.
  - unfold kfree. rewrite kfree_guard by done.
    unfold if_use_lock, acquire_kmem, release_kmem, bind, gets, modify, ret.
    by destruct ul.
  - split_and!; simpl; [|by apply NoDup_cons|by constructor|done].
    split; [done|]. rewrite ld32_st32_eq.
    assert (u32 fl = fl) as ->.
    { destruct l as [|p l]; simpl in Hch; [by subst|].
      destruct Hch as [-> _]. apply Forall_cons_1 in Hok as [Hp _].
      apply page_ok_pos in Hp. apply u32_small. unfold KERNBASE in Hp. lia. }
    eapply chain_ext; [|done]. intros p a Hp Ha. symmetry. apply ld8_set_next.
    rewrite Forall_forall in Hok.
    apply (page_ok_disjoint p v); [by apply Hok|done|by intros ->|done].
  - done.
  - intros b Hb. simpl. by apply ld8_set_next.
Qed.

Lemma kfree_panics s v : v mod PGSIZE ≠ 0 ∨ v < kend ∨ PHYSTOP ≤ V2P v →
  kfree v s = Err (Panic "kfree") s.
Proof.
  intros H. unfold kfree.
  destruct (negb (v mod PGSIZE =? 0) || (v <? kend) || (PHYSTOP <=? V2P v)) eqn:E; [done|].
  apply orb_false_iff in E as [E E3]. apply orb_false_iff in E as [E1 E2].
  apply negb_false_iff, Z.eqb_eq in E1. apply Z.ltb_ge in E2. apply Z.leb_gt in E3. lia.
Qed.

Lemma pages_from_elem n : ∀ p q,
  q ∈ pages_from p n ↔ ∃ i, (i < n)%nat ∧ q = p + PGSIZE * Z.of_nat i.
Proof.
  induction n as [|n IH]; intros p q; simpl.
  { rewrite elem_of_nil. split; [done | intros (i & ? & _); lia]. }
  rewrite elem_of_cons, IH. split.
  - intros [->|(i & Hi & ->)]; [exists 0%nat; lia | exists (S i); lia].
  - intros ([|i] & Hi & ->); [left; lia | right; exists i; lia].
Qed.

(** The loop frees the [n] pages from [p]; it needs [n] units of fuel. *)
Lemma freerange_loop_spec vend n : ∀ fuel p s l,
  (n ≤ fuel)%nat →
  kmem_inv s l →
  Forall page_ok (pages_from p n) → (∀ q, q ∈ pages_from p n → q ∉ l) →
  0 ≤ p + PGSIZE * Z.of_nat n → vend < p + PGSIZE * (Z.of_nat n + 1) →
  p + PGSIZE * Z.of_nat n ≤ vend ∨ n = O →
  p + PGSIZE * (Z.of_nat n + 1) < 4294967296 →
  ∃ s', freerange_loop fuel p vend s = Ok tt s' ∧
        kmem_inv s' (rev (pages_from p n) ++ l) ∧ use_lock s' = use_lock s.
Proof.
  unfold PGSIZE.
  induction n as [|n IH]; intros fuel p s l Hf Hinv Hok Hdisj H0 Hend Hle Hw.
  - exists s. split; [|done]. destruct fuel; simpl; unfold PGSIZE;
      rewrite u32_small, (proj2 (Z.leb_gt _ _)) by lia; done.
  - destruct fuel as [|fuel]; [lia|]. simpl in Hok, Hdisj.
    apply Forall_cons_1 in Hok as [Hp Hok].
    pose proof (page_ok_pos _ Hp) as [Hpr _]. unfold KERNBASE in Hpr.
    destruct (kfree_push s l p) as (s1 & Hk & Hinv1 & Hul & _);
      [done|done|apply Hdisj; by left|].
    destruct (IH fuel (p + 4096) s1 (p :: l)) as (s2 & Hl & Hinv2 & Hul2);
      try lia; try done.
    { intros q Hq. apply not_elem_of_cons. split; [|apply Hdisj; by right].
      apply pages_from_elem in Hq as (i & _ & ->). unfold PGSIZE. lia. }
    exists s2. split_and!; [| |congruence].
    + simpl. unfold PGSIZE. rewrite u32_small, (proj2 (Z.leb_le _ _)) by lia.
      unfold bind. by rewrite Hk.
    + simpl. by rewrite <- app_assoc.
Qed.

End lemmas.
End kalloc.

(** ** Properties *)

Lemma freerange_spec kend s l vstart vend :
  kmem_inv kend s l →
  kend ≤ vstart → KERNBASE ≤ vstart → vstart ≤ vend → vend ≤ KERNBASE + PHYSTOP →
  (∀ q, q ∈ l → q < vstart ∨ vend ≤ q) →
  let n := Z.to_nat ((vend - PGROUNDUP vstart) / PGSIZE) in
  ∃ s', freerange kend vstart vend s = Ok tt s' ∧
        kmem_inv kend s' (rev (pages_from (PGROUNDUP vstart) n) ++ l) ∧
        use_lock s' = use_lock s.
Proof.
  intros Hinv Hke Hkb Hse Hve Hdisj n. unfold KERNBASE, PHYSTOP in Hkb, Hve.
  assert (Hr : PGROUNDUP vstart = 4096 * ((vstart + 4095) / 4096))
    by (apply PGROUNDUP_div; lia).
  assert (Hn : Z.of_nat n = Z.max 0 ((vend - PGROUNDUP vstart) / 4096))
    by (unfold n, PGSIZE; lia).
  assert (Hin : ∀ q, q ∈ pages_from (PGROUNDUP vstart) n →
     q mod 4096 = 0 ∧ vstart ≤ q ∧ q + 4096 ≤ vend).
  { intros q (i & Hi & ->)%pages_from_elem. unfold PGSIZE.
    Z.div_mod_to_equations. lia. }
  unfold freerange. apply freerange_loop_spec; unfold PGSIZE; auto.
  - Z.div_mod_to_equations. lia.
  - apply Forall_forall. intros q Hq%Hin. unfold page_ok, PGSIZE, KERNBASE, PHYSTOP. lia.
  - intros q Hq Hl. apply Hin in Hq. apply Hdisj in Hl. lia.
  - Z.div_mod_to_equations. lia.
  - Z.div_mod_to_equations. lia.
  - destruct (decide (n = 0%nat)); [by right|left]. Z.div_mod_to_equations. lia.
  - Z.div_mod_to_equations. lia.
Qed.

(** [kalloc] implements the abstract allocator: it returns the first page of the
    free list and removes it, changing no memory, and it returns 0 and changes
    nothing exactly when the list is empty.  A page it hands out is not on the
    list it leaves, so no page is handed out twice. *)
Theorem kalloc_refines kend s l : kmem_inv kend s l →
  match l with
  | [] => kalloc s = Ok 0 s
  | p :: l' => ∃ s', kalloc s = Ok p s' ∧ kmem_inv kend s' l' ∧
                     memory s' = memory s ∧ (p ∉ l') ∧ page_ok kend p
  end.
Proof.
  destruct l as [|p l]; intros H; [by eapply kalloc_empty|].
  destruct (kalloc_pop kend s p l H) as (s' & ? & ? & ? & _ & ? & ?). eauto 10.
Qed.

(** Two free pages, linked through their first words. *)
Definition kst_example : kst :=
  Kst (st32 ∅ 0x80400000 0x80401000) false true 0x80400000.

Lemma kst_example_inv : kmem_inv 0x80300000 kst_example [0x80400000; 0x80401000].
Proof.
  split_and!; [by vm_compute| |repeat constructor; vm_compute; done|done].
  apply (bool_decide_unpack _). by vm_compute.
Qed.

Lemma kalloc_refines_witness :
  ∃ s', kalloc kst_example = Ok 0x80400000 s' ∧
        kmem_inv 0x80300000 s' [0x80401000] ∧ memory s' = memory kst_example ∧
        (0x80400000 ∉ [0x80401000]) ∧ page_ok 0x80300000 0x80400000.
Proof.
  exact (kalloc_refines 0x80300000 kst_example [0x80400000; 0x80401000] kst_example_inv).
Defined.

(** [kfree] of a page that [kalloc] could have returned puts it at the head of
    the free list and writes nothing outside the page; a misaligned address,
    one below the end of the kernel or one above PHYSTOP panics instead. *)
Theorem kfree_refines kend s l v : kmem_inv kend s l → (v ∉ l) →
  (page_ok kend v →
   ∃ s', kfree kend v s = Ok tt s' ∧ kmem_inv kend s' (v :: l) ∧
         ∀ b, ¬ in_page v b → ld8 (memory s') b = ld8 (memory s) b) ∧
  (v mod PGSIZE ≠ 0 ∨ v < kend ∨ PHYSTOP ≤ V2P v →
   kfree kend v s = Err (Panic "kfree") s).
Proof.
  intros Hinv Hv. split; [|apply kfree_panics].
  intros Hok. destruct (kfree_push kend s l v Hinv Hok Hv) as (s' & ? & ? & _ & ?). eauto.
Qed.

Lemma kfree_refines_witness :
  (∃ s', kfree 0x80300000 0x80402000 kst_example = Ok tt s' ∧
         kmem_inv 0x80300000 s' [0x80402000; 0x80400000; 0x80401000] ∧
         ∀ b, ¬ in_page 0x80402000 b → ld8 (memory s') b = ld8 (memory kst_example) b) ∧
  kfree 0x80300000 0x80402004 kst_example = Err (Panic "kfree") kst_example.
Proof.
  split.
  - apply (kfree_refines 0x80300000 kst_example [0x80400000; 0x80401000] 0x80402000
             kst_example_inv).
    + rewrite !not_elem_of_cons. split_and!; [lia|lia|apply not_elem_of_nil].
    + by vm_compute.
  - apply (kfree_refines 0x80300000 kst_example [0x80400000; 0x80401000] 0x80402004
             kst_example_inv).
    + rewrite !not_elem_of_cons. split_and!; [lia|lia|apply not_elem_of_nil].
    + left. by vm_compute.
Defined.

(** [freerange] terminates and frees exactly the whole pages between its
    bounds, each once: the free list grows by the pages
    PGROUNDUP(vstart), PGROUNDUP(vstart)+PGSIZE, ... that end at or before
    vend, the last one first. *)
Theorem freerange_frees_range kend s l vstart vend :
  kmem_inv kend s l →
  kend ≤ vstart → KERNBASE ≤ vstart → vstart ≤ vend → vend ≤ KERNBASE + PHYSTOP →
  (∀ q, q ∈ l → q < vstart ∨ vend ≤ q) →
  ∃ s', freerange kend vstart vend s = Ok tt s' ∧
        kmem_inv kend s'
          (rev (pages_from (PGROUNDUP vstart)
                 (Z.to_nat ((vend - PGROUNDUP vstart) / PGSIZE))) ++ l) ∧
        use_lock s' = use_lock s.
Proof. apply freerange_spec. Qed.

Lemma freerange_frees_range_witness :
  ∃ s', freerange 0x80300000 0x80500123 0x80503fff kst_example = Ok tt s' ∧
        kmem_inv 0x80300000 s'
          [0x80502000; 0x80501000; 0x80400000; 0x80401000] ∧
        use_lock s' = use_lock kst_example.
Proof.
  assert (E : rev (pages_from (PGROUNDUP 0x80500123)
                (Z.to_nat ((0x80503fff - PGROUNDUP 0x80500123) / PGSIZE)))
              ++ [0x80400000; 0x80401000] =
              [0x80502000; 0x80501000; 0x80400000; 0x80401000])
    by (vm_compute; reflexivity).
  rewrite <- E.
  refine (freerange_frees_range 0x80300000 kst_example [0x80400000; 0x80401000]
            0x80500123 0x80503fff kst_example_inv _ _ _ _ _); [vm_compute; done..|].
  intros q. rewrite !elem_of_cons, elem_of_nil. lia.
Defined.
