(* ===== verification/Cpu.v ===== *)
(** Per-CPU state and spin locks: spinlock.c, and mycpu/cpuid of proc.c

    The first part models the routines as the CPU that runs them sees them:
    [pushcli]/[popcli] with the nesting count and the saved interrupt flag,
    [mycpu]'s search by APIC id, and [acquire]/[release]/[holding] on one
    lock.  The second part runs several CPUs against one lock, one hardware
    access at a time, as a step relation. *)

From stdpp Require Import list numbers strings relations.
From Stdlib Require Import ZArith Lia.
From S2P Require Import Prelude Memlayout.

(** The fields of [struct cpu] that spinlock.c and proc.c use, and the
    interrupt flag of the CPU's eflags register. *)
Record cpu := Cpu {
  apicid : Z;
  ncli : Z;            (* depth of pushcli nesting *)
  intena : bool;       (* were interrupts enabled before pushcli? *)
  fl_if : bool         (* eflags & FL_IF *)
}.

Definition set_ncli (n : Z) (c : cpu) : cpu := Cpu (apicid c) n (intena c) (fl_if c).
Definition set_intena (b : bool) (c : cpu) : cpu := Cpu (apicid c) (ncli c) b (fl_if c).
Definition set_fl_if (b : bool) (c : cpu) : cpu := Cpu (apicid c) (ncli c) (intena c) b.

Definition cli : M cpu unit := modify (set_fl_if false).
Definition sti : M cpu unit := modify (set_fl_if true).

(** proc.c: [mycpu]: the index of the first CPU with the running CPU's APIC
    id; [lapicid] is what the local APIC reports. *)
Fixpoint find_apicid (l : list cpu) (lapicid : Z) (i : nat) : option nat :=
  match l with
  | [] => None
  | c :: l' => if apicid c =? lapicid then Some i else find_apicid l' lapicid (S i)
  end.

Definition mycpu (cpus : list cpu) (lapicid : Z) (interrupts : bool) : M unit nat :=
  if interrupts then panic "mycpu called with interrupts enabled"
  else match find_apicid cpus lapicid 0 with
       | Some i => ret i
       | None => panic "unknown apicid"
       end.

(** spinlock.c: [pushcli]. *)
Definition pushcli : M cpu unit :=
  eflags <- gets fl_if ;;
  cli ;;;
  n <- gets ncli ;;
  (if n =? 0 then modify (set_intena eflags) else ret tt) ;;;
  modify (λ c, set_ncli (ncli c + 1) c).

(** spinlock.c: [popcli]. *)
Definition popcli : M cpu unit :=
  eflags <- gets fl_if ;;
  if eflags : bool then panic "popcli - interruptible"
  else
    modify (λ c, set_ncli (ncli c - 1) c) ;;;
    c <- get ;;
    if ncli c <? 0 then panic "popcli"
    else if (ncli c =? 0) && intena c then sti
    else ret tt.

(** [struct spinlock]: [locked] and the CPU that holds it. *)
Record spinlock := Spinlock { locked : bool; holder : option nat }.

Definition initlock : spinlock := Spinlock false None.

(** A CPU [me] running with one lock. *)
Record cpulock := CpuLock { the_cpu : cpu; the_lock : spinlock }.
Definition on_cpu {A} (m : M cpu A) : M cpulock A :=
  zoom the_cpu (λ c s, CpuLock c (the_lock s)) m.
Definition set_lock (l : spinlock) (s : cpulock) : cpulock := CpuLock (the_cpu s) l.

Section one_cpu.
Variable me : nat.

(** spinlock.c: [holding]. *)
Definition holding : M cpulock bool :=
  on_cpu pushcli ;;;
  lk <- gets the_lock ;;
  let r := locked lk && bool_decide (holder lk = Some me) in
  on_cpu popcli ;;;
  ret r.

(** spinlock.c: [acquire].  [xchg] on a lock another CPU holds keeps spinning:
    that is the outcome [Blocked]. *)
Definition acquire : M cpulock unit :=
  on_cpu pushcli ;;;
  h <- holding ;;
  if h : bool then panic "acquire"
  else
    lk <- gets the_lock ;;
    if locked lk then fail (Blocked "xchg")
    else
      modify (set_lock (Spinlock true None)) ;;;
      modify (set_lock (Spinlock true (Some me))).

(** spinlock.c: [release]. *)
Definition release : M cpulock unit :=
  h <- holding ;;
  if h : bool then
    modify (λ s, set_lock (Spinlock (locked (the_lock s)) None) s) ;;;
    modify (λ s, set_lock (Spinlock false (holder (the_lock s))) s) ;;;
    on_cpu popcli
  else panic "release".

End one_cpu.

(** ** Several CPUs and one lock

    Between two hardware accesses another CPU may run.  A CPU that wants the
    lock spins on [xchg]; the one whose [xchg] returned 0 records itself in
    [lk->cpu], runs its critical section, clears [lk->cpu] and stores 0. *)

Inductive pc : Type :=
| Outside        (* not in acquire or release *)
| Spinning       (* at while(xchg(&lk->locked, 1) != 0) *)
| Acquired       (* xchg returned 0; about to set lk->cpu *)
| Critical       (* acquire returned *)
| Releasing.     (* release cleared lk->cpu; about to store 0 *)

#[global] Instance pc_eq_dec : EqDecision pc.
Proof. solve_decision. Defined.

Record smp := Smp { lock_word : spinlock; pcs : list pc }.

Inductive smp_step : smp → smp → Prop :=
| StepEnter i l ps :
    ps !! i = Some Outside →
    smp_step (Smp l ps) (Smp l (<[i := Spinning]> ps))
| StepXchgFail i l ps :
    ps !! i = Some Spinning → locked l = true →
    smp_step (Smp l ps) (Smp (Spinlock true (holder l)) ps)
| StepXchg i l ps :
    ps !! i = Some Spinning → locked l = false →
    smp_step (Smp l ps) (Smp (Spinlock true (holder l)) (<[i := Acquired]> ps))
| StepSetCpu i l ps :
    ps !! i = Some Acquired →
    smp_step (Smp l ps) (Smp (Spinlock (locked l) (Some i)) (<[i := Critical]> ps))
| StepClearCpu i l ps :
    ps !! i = Some Critical → locked l = true → holder l = Some i →
    smp_step (Smp l ps) (Smp (Spinlock (locked l) None) (<[i := Releasing]> ps))
| StepStore i l ps :
    ps !! i = Some Releasing →
    smp_step (Smp l ps) (Smp (Spinlock false (holder l)) (<[i := Outside]> ps)).

Definition smp_init (n : nat) : smp := Smp initlock (replicate n Outside).

(** The CPU owns the lock: its [xchg] took it and it has not stored 0 yet. *)
Definition owns (p : pc) : bool :=
  match p with
  | Acquired | Critical | Releasing => true
  | Outside | Spinning => false
  end.

(** There is an owner exactly when the lock word is set, at most one, and
    [lk->cpu] names it while it is in its critical section. *)
Definition smp_inv (s : smp) : Prop :=
  ∃ o : option nat,
    locked (lock_word s) = bool_decide (is_Some o) ∧
    (∀ i p, pcs s !! i = Some p → (owns p = true ↔ o = Some i)) ∧
    holder (lock_word s) =
      match o with
      | Some i => if decide (pcs s !! i = Some Critical) then Some i else None
      | None => None
      end ∧
    (∀ i, o = Some i → is_Some (pcs s !! i)).

(** ** Lemmas *)

Section smp_lemmas.

Lemma smp_inv_init n : smp_inv (smp_init n).
Proof.
  exists None. split_and!; [done| |done|done].
  intros i p [-> _]%lookup_replicate. done.
Qed.

(** Inserting a program counter that is an owner exactly when [o] says so. *)
Lemma owner_insert (ps : list pc) (o o' : option nat) i p q :
  ps !! i = Some q →
  (∀ j r, ps !! j = Some r → (owns r = true ↔ o = Some j)) →
  (owns p = true ↔ o' = Some i) →
  (∀ j, j ≠ i → (o' = Some j ↔ o = Some j)) →
  ∀ j r, <[i:=p]> ps !! j = Some r → (owns r = true ↔ o' = Some j).
Proof.
  intros Hi Hps Hp Ho j r Hj.
  destruct (decide (i = j)) as [<-|Hne].
  - rewrite list_lookup_insert_eq in Hj by eauto using lookup_lt_Some.
    by injection Hj as <-.
  - rewrite list_lookup_insert_ne in Hj by done. rewrite Ho by done. eauto.
Qed.

Lemma smp_inv_step s s' : smp_inv s → smp_step s s' → smp_inv s'.
Proof.
  intros (o & Hlk & Hown & Hcpu & Hdom) Hstep.
  destruct Hstep as [i l ps Hi|i l ps Hi Hl|i l ps Hi Hl|i l ps Hi|i l ps Hi Hl Hh|i l ps Hi];
    simpl in *; pose proof (Hown _ _ Hi) as Hio;
    pose proof (lookup_lt_Some _ _ _ Hi) as Hlt.
  - (* Enter *)
    assert (o ≠ Some i) by (by intros ?%Hio).
    exists o; simpl; split_and!; [done| | |].
    + eapply owner_insert; eauto; simpl; split; congruence.
    + rewrite Hcpu. destruct o as [k|]; [|done]. by rewrite list_lookup_insert_ne by congruence.
    + intros k Hk. rewrite list_lookup_insert_ne by congruence. eauto.
  - (* failed xchg *)
    exists o; simpl; split_and!; auto. congruence.
  - (* xchg takes the lock *)
    destruct o as [k|]; [rewrite bool_decide_eq_true_2 in Hlk by eauto; congruence|].
    exists (Some i); simpl; split_and!.
    + done.
    + eapply owner_insert; eauto; simpl; split; congruence.
    + rewrite Hcpu, list_lookup_insert_eq by done. by case_decide.
    + intros k [= <-]. rewrite list_lookup_insert_eq by done. eauto.
  - (* lk->cpu = mycpu() *)
    assert (o = Some i) as -> by (by apply Hio).
    exists (Some i); simpl; split_and!; [done| | |].
    + eapply owner_insert; eauto; simpl; split; congruence.
    + rewrite list_lookup_insert_eq by done. by case_decide.
    + intros k [= <-]. rewrite list_lookup_insert_eq by done. eauto.
  - (* lk->cpu = 0 *)
    assert (o = Some i) as -> by (by apply Hio).
    exists (Some i); simpl; split_and!; [done| | |].
    + eapply owner_insert; eauto; simpl; split; congruence.
    + rewrite list_lookup_insert_eq by done. by case_decide.
    + intros k [= <-]. rewrite list_lookup_insert_eq by done. eauto.
  - (* locked = 0 *)
    assert (o = Some i) as -> by (by apply Hio).
    exists None; simpl; split_and!; [done| | |done].
    + eapply owner_insert; eauto; simpl; split; congruence.
    + rewrite Hcpu, decide_False; [done|]. by rewrite Hi.
Qed.

Lemma smp_inv_reachable n s : rtc smp_step (smp_init n) s → smp_inv s.
Proof.
  intros H. remember (smp_init n) as s0 eqn:E.
  assert (smp_inv s0) as Hinv by (subst; apply smp_inv_init). clear E.
  induction H; eauto using smp_inv_step.
Qed.

End smp_lemmas.

(** A CPU between operations: the count is not negative, and interrupts are off
    while it is positive. *)
Definition cpu_ok (c : cpu) : Prop := 0 ≤ ncli c ∧ (0 < ncli c → fl_if c = false).

Lemma pushcli_run c : 0 ≤ ncli c →
  pushcli c = Ok tt (Cpu (apicid c) (ncli c + 1)
                         (if ncli c =? 0 then fl_if c else intena c) false).
Proof.
  intros. destruct c as [a n ie fl]; simpl in *.
  unfold pushcli, cli, bind, gets, modify, ret. simpl.
  by destruct (Z.eqb_spec n 0); subst.
Qed.

Lemma popcli_run c : 0 < ncli c → fl_if c = false →
  popcli c = Ok tt (Cpu (apicid c) (ncli c - 1) (intena c)
                        ((ncli c - 1 =? 0) && intena c)).
Proof.
  intros Hn Hf. destruct c as [a n ie fl]; simpl in *; subst.
  unfold popcli, sti, bind, gets, get, modify, ret. simpl.
  destruct (Z.ltb_spec (n - 1) 0); [lia|].
  by destruct ((n - 1 =? 0) && ie).
Qed.

(** [pushcli]; [popcli] gives the interrupt flag back: the saved flag is only
    rewritten by the outermost pair. *)
Lemma push_pop_run c : cpu_ok c →
  ∃ ie, (pushcli ;;; popcli) c = Ok tt (Cpu (apicid c) (ncli c) ie (fl_if c)) ∧
        (0 < ncli c → ie = intena c).
Proof.
  intros [Hn Hoff]. exists (if ncli c =? 0 then fl_if c else intena c).
  split; [|intros; destruct (Z.eqb_spec (ncli c) 0); [lia|done]].
  unfold bind. rewrite pushcli_run by done. rewrite popcli_run by (simpl; auto; lia). simpl.
  do 2 f_equal; [lia|].
  destruct (Z.eqb_spec (ncli c) 0) as [E|E].
  - rewrite E. simpl. done.
  - rewrite (proj2 (Z.eqb_neq _ _)) by lia. simpl. symmetry. apply Hoff. lia.
Qed.

Lemma holding_run me c l : cpu_ok c →
  ∃ ie, holding me (CpuLock c l) =
        Ok (locked l && bool_decide (holder l = Some me))
           (CpuLock (Cpu (apicid c) (ncli c) ie (fl_if c)) l) ∧
        (0 < ncli c → ie = intena c).
Proof.
  intros Hc. destruct (push_pop_run c Hc) as (ie & Hrun & Hie).
  exists ie. split; [|done].
  unfold holding, on_cpu, zoom, bind, gets, ret in *. simpl.
  destruct (pushcli c) as [[] c1|]; [|done]. simpl. by rewrite Hrun.
Qed.

(** [acquire] of a free lock takes it with interrupts off and one more level of
    nesting; [release] by its holder undoes both. *)
Lemma acquire_run me c : cpu_ok c →
  acquire me (CpuLock c initlock) =
  Ok tt (CpuLock (Cpu (apicid c) (ncli c + 1)
                      (if ncli c =? 0 then fl_if c else intena c) false)
                 (Spinlock true (Some me))).
Proof.
  intros [Hn Hoff]. unfold acquire.
  erewrite bind_ok by (unfold on_cpu, zoom; simpl; by rewrite pushcli_run by done).
  set (c1 := Cpu _ _ _ false).
  destruct (holding_run me c1 initlock) as (ie & Hh & Hie).
  { unfold c1, cpu_ok; simpl. split; [lia|done]. }
  simpl. erewrite bind_ok by exact Hh. simpl in *.
  rewrite Hie by (unfold c1; simpl; lia). done.
Qed.

Lemma release_run me c l : 0 < ncli c → fl_if c = false → locked l = true →
  holder l = Some me →
  release me (CpuLock c l) =
  Ok tt (CpuLock (Cpu (apicid c) (ncli c - 1) (intena c) ((ncli c - 1 =? 0) && intena c))
                 (Spinlock false None)).
Proof.
  intros Hn Hf Hl Hh. unfold release.
  destruct (holding_run me c l) as (ie & Hrun & Hie); [split; [lia|done]|].
  erewrite bind_ok by exact Hrun. rewrite Hl, Hh, bool_decide_eq_true_2 by done.
  rewrite Hie by done. simpl.
  unfold bind, modify, on_cpu, zoom, set_lock. simpl.
  rewrite popcli_run by done. done.
Qed.

(** ** Properties *)

(** C33. Mutual exclusion: however the CPUs interleave their accesses to the lock
    word, at most one is inside its critical section, and while it is there
    the lock word is set and [lk->cpu] is that CPU, so the checks of
    [holding] in [release] succeed for it and fail for every other CPU. *)
Theorem spinlock_mutual_exclusion n s : rtc smp_step (smp_init n) s →
  ∀ i, pcs s !! i = Some Critical →
    locked (lock_word s) = true ∧ holder (lock_word s) = Some i ∧
    ∀ j, pcs s !! j = Some Critical → j = i.
Proof.
  intros (o & Hlk & Hown & Hcpu & _)%smp_inv_reachable i Hi.
  assert (∀ k, pcs s !! k = Some Critical → o = Some k) as Ho.
  { intros k Hk. by apply (Hown _ _ Hk). }
  pose proof (Ho _ Hi) as Hoi. split_and!.
  - by rewrite Hlk, Hoi.
  - rewrite Hcpu, Hoi. by case_decide.
  - intros j Hj%Ho. congruence.
Qed.

Lemma spinlock_mutual_exclusion_witness :
  let s := Smp (Spinlock true (Some 1%nat)) [Spinning; Critical] in
  rtc smp_step (smp_init 2) s ∧
  (locked (lock_word s) = true ∧ holder (lock_word s) = Some 1%nat ∧
   ∀ j, pcs s !! j = Some Critical → j = 1%nat).
Proof.
  simpl.
  assert (Hr : rtc smp_step (smp_init 2) (Smp (Spinlock true (Some 1%nat)) [Spinning; Critical])).
  { eapply rtc_l; [apply (StepEnter 0); reflexivity|].
    eapply rtc_l; [apply (StepEnter 1); reflexivity|].
    eapply rtc_l; [apply (StepXchg 1); reflexivity|].
    eapply rtc_l; [apply (StepXchgFail 0); reflexivity|].
    eapply rtc_l; [apply (StepSetCpu 1); reflexivity|]. apply rtc_refl. }
  split; [exact Hr|]. exact (spinlock_mutual_exclusion 2 _ Hr 1%nat eq_refl).
Defined.

(** [acquire] followed by [release] on a free lock leaves the lock free and the
    CPU's nesting count and interrupt flag as they were; in between the lock
    is held by this CPU, interrupts are off and a second [acquire] panics
    instead of deadlocking. *)
Theorem acquire_release_restores me c : cpu_ok c →
  ∃ s1, acquire me (CpuLock c initlock) = Ok tt s1 ∧
    the_lock s1 = Spinlock true (Some me) ∧ fl_if (the_cpu s1) = false ∧
    (∃ s2, acquire me s1 = Err (Panic "acquire") s2) ∧
    ∃ ie, release me s1 =
          Ok tt (CpuLock (Cpu (apicid c) (ncli c) ie (fl_if c)) (Spinlock false None)).
Proof.
  intros [Hn Hoff]. eexists. split; [by apply acquire_run|]. split_and!; [done|done| |].
  - unfold acquire.
    erewrite bind_ok by (unfold on_cpu, zoom; simpl; rewrite pushcli_run by (simpl; lia); done).
    destruct (holding_run me
       (Cpu (apicid c) (ncli c + 1 + 1)
         (if ncli c + 1 =? 0 then false else if ncli c =? 0 then fl_if c else intena c) false)
       (Spinlock true (Some me))) as (ie & Hrun & _); [split; simpl; [lia|done]|].
    simpl in *. erewrite bind_ok by exact Hrun.
    rewrite bool_decide_eq_true_2 by done. simpl. eauto.
  - eexists. rewrite release_run by (simpl; auto; lia). simpl. do 3 f_equal; [lia|].
    destruct (Z.eqb_spec (ncli c) 0) as [E|E].
    + rewrite E. done.
    + rewrite (proj2 (Z.eqb_neq _ _)) by lia. simpl. symmetry. apply Hoff. lia.
Qed.

Lemma acquire_release_restores_witness :
  let c := Cpu 3 0 false true in
  ∃ s1, acquire 3 (CpuLock c initlock) = Ok tt s1 ∧
    the_lock s1 = Spinlock true (Some 3%nat) ∧ fl_if (the_cpu s1) = false ∧
    (∃ s2, acquire 3 s1 = Err (Panic "acquire") s2) ∧
    ∃ ie, release 3 s1 = Ok tt (CpuLock (Cpu 3 0 ie true) (Spinlock false None)).
Proof.
  apply (acquire_release_restores 3 (Cpu 3 0 false true)).
  split; simpl; lia.
Defined.
