(* ===== verification/ProcData.v ===== *)
(** Process data: proc.h

    [struct proc] with every field of the header, the enumerations, the saved
    register frames and the red-black tree of runnable processes.  A
    [struct proc *] is the index of the process in [ptable.proc], [None] for
    the null pointer. *)

From stdpp Require Import list numbers.
From Stdlib Require Import ZArith Lia.
From S2P Require Import Prelude Memlayout.

Inductive procstate : Type := UNUSED | EMBRYO | SLEEPING | RUNNABLE | RUNNING | ZOMBIE.
Inductive procColor : Type := RED | BLACK.

(** A sleep channel: an address compared for equality only.  The process
    table's own entries are channels of [wait]; every other kernel object is
    known by its address. *)
Inductive chanptr : Type := ChNull | ChProc (i : nat) | ChAddr (a : Z).

#[global] Instance procstate_eq_dec : EqDecision procstate.
Proof. solve_decision. Defined.
#[global] Instance procColor_eq_dec : EqDecision procColor.
Proof. solve_decision. Defined.
#[global] Instance chanptr_eq_dec : EqDecision chanptr.
Proof. solve_decision. Defined.

(** x86.h: [struct trapframe], padding left out. *)
Record trapframe := Trapframe {
  tf_edi : Z; tf_esi : Z; tf_ebp : Z; tf_oesp : Z;
  tf_ebx : Z; tf_edx : Z; tf_ecx : Z; tf_eax : Z;
  tf_gs : Z; tf_fs : Z; tf_es : Z; tf_ds : Z; tf_trapno : Z;
  tf_err : Z; tf_eip : Z; tf_cs : Z; tf_eflags : Z;
  tf_esp : Z; tf_ss : Z
}.
Definition sizeof_trapframe : Z := 76.

(** [struct context]: the registers [swtch] saves. *)
Record context := Context { c_edi : Z; c_esi : Z; c_ebx : Z; c_ebp : Z; c_eip : Z }.
Definition sizeof_context : Z := 20.

Record proc := Proc {
  p_sz : Z;               (* size of process memory (bytes) *)
  p_pgdir : Z;            (* page table *)
  p_kstack : Z;           (* bottom of kernel stack *)
  p_state : procstate;
  p_pid : Z;
  p_parent : option nat;  (* index of the parent in ptable *)
  p_tf : Z;               (* address of the trap frame *)
  p_context : Z;          (* address of the saved context *)
  p_chan : chanptr;
  p_killed : Z;
  p_ofile : list Z;       (* open files, 0 for none *)
  p_cwd : Z;
  p_name : list Z;        (* char name[16] *)
  p_vruntime : Z;         (* the 64 bits of the double *)
  p_curr_runtime : Z;
  p_time_slice : Z;
  p_nice_value : Z;
  p_weight : Z;
  p_color : procColor;
  p_r : option nat;
  p_l : option nat;
  p_p : option nat
}.

Definition set_sz (x : Z) (q : proc) : proc :=
  Proc x (p_pgdir q) (p_kstack q) (p_state q) (p_pid q) (p_parent q) (p_tf q)
       (p_context q) (p_chan q) (p_killed q) (p_ofile q) (p_cwd q) (p_name q)
       (p_vruntime q) (p_curr_runtime q) (p_time_slice q) (p_nice_value q)
       (p_weight q) (p_color q) (p_r q) (p_l q) (p_p q).
Definition set_pgdir (x : Z) (q : proc) : proc :=
  Proc (p_sz q) x (p_kstack q) (p_state q) (p_pid q) (p_parent q) (p_tf q)
       (p_context q) (p_chan q) (p_killed q) (p_ofile q) (p_cwd q) (p_name q)
       (p_vruntime q) (p_curr_runtime q) (p_time_slice q) (p_nice_value q)
       (p_weight q) (p_color q) (p_r q) (p_l q) (p_p q).
Definition set_kstack (x : Z) (q : proc) : proc :=
  Proc (p_sz q) (p_pgdir q) x (p_state q) (p_pid q) (p_parent q) (p_tf q)
       (p_context q) (p_chan q) (p_killed q) (p_ofile q) (p_cwd q) (p_name q)
       (p_vruntime q) (p_curr_runtime q) (p_time_slice q) (p_nice_value q)
       (p_weight q) (p_color q) (p_r q) (p_l q) (p_p q).
Definition set_state (x : procstate) (q : proc) : proc :=
  Proc (p_sz q) (p_pgdir q) (p_kstack q) x (p_pid q) (p_parent q) (p_tf q)
       (p_context q) (p_chan q) (p_killed q) (p_ofile q) (p_cwd q) (p_name q)
       (p_vruntime q) (p_curr_runtime q) (p_time_slice q) (p_nice_value q)
       (p_weight q) (p_color q) (p_r q) (p_l q) (p_p q).
Definition set_pid (x : Z) (q : proc) : proc :=
  Proc (p_sz q) (p_pgdir q) (p_kstack q) (p_state q) x (p_parent q) (p_tf q)
       (p_context q) (p_chan q) (p_killed q) (p_ofile q) (p_cwd q) (p_name q)
       (p_vruntime q) (p_curr_runtime q) (p_time_slice q) (p_nice_value q)
       (p_weight q) (p_color q) (p_r q) (p_l q) (p_p q).
Definition set_parent (x : option nat) (q : proc) : proc :=
  Proc (p_sz q) (p_pgdir q) (p_kstack q) (p_state q) (p_pid q) x (p_tf q)
       (p_context q) (p_chan q) (p_killed q) (p_ofile q) (p_cwd q) (p_name q)
       (p_vruntime q) (p_curr_runtime q) (p_time_slice q) (p_nice_value q)
       (p_weight q) (p_color q) (p_r q) (p_l q) (p_p q).
Definition set_tf (x : Z) (q : proc) : proc :=
  Proc (p_sz q) (p_pgdir q) (p_kstack q) (p_state q) (p_pid q) (p_parent q) x
       (p_context q) (p_chan q) (p_killed q) (p_ofile q) (p_cwd q) (p_name q)
       (p_vruntime q) (p_curr_runtime q) (p_time_slice q) (p_nice_value q)
       (p_weight q) (p_color q) (p_r q) (p_l q) (p_p q).
Definition set_context (x : Z) (q : proc) : proc :=
  Proc (p_sz q) (p_pgdir q) (p_kstack q) (p_state q) (p_pid q) (p_parent q) (p_tf q) x
       (p_chan q) (p_killed q) (p_ofile q) (p_cwd q) (p_name q) (p_vruntime q)
       (p_curr_runtime q) (p_time_slice q) (p_nice_value q) (p_weight q) (p_color q)
       (p_r q) (p_l q) (p_p q).
Definition set_chan (x : chanptr) (q : proc) : proc :=
  Proc (p_sz q) (p_pgdir q) (p_kstack q) (p_state q) (p_pid q) (p_parent q) (p_tf q)
       (p_context q) x (p_killed q) (p_ofile q) (p_cwd q) (p_name q) (p_vruntime q)
       (p_curr_runtime q) (p_time_slice q) (p_nice_value q) (p_weight q) (p_color q)
       (p_r q) (p_l q) (p_p q).
Definition set_killed (x : Z) (q : proc) : proc :=
  Proc (p_sz q) (p_pgdir q) (p_kstack q) (p_state q) (p_pid q) (p_parent q) (p_tf q)
       (p_context q) (p_chan q) x (p_ofile q) (p_cwd q) (p_name q) (p_vruntime q)
       (p_curr_runtime q) (p_time_slice q) (p_nice_value q) (p_weight q) (p_color q)
       (p_r q) (p_l q) (p_p q).
Definition set_ofile (x : list Z) (q : proc) : proc :=
  Proc (p_sz q) (p_pgdir q) (p_kstack q) (p_state q) (p_pid q) (p_parent q) (p_tf q)
       (p_context q) (p_chan q) (p_killed q) x (p_cwd q) (p_name q) (p_vruntime q)
       (p_curr_runtime q) (p_time_slice q) (p_nice_value q) (p_weight q) (p_color q)
       (p_r q) (p_l q) (p_p q).
Definition set_cwd (x : Z) (q : proc) : proc :=
  Proc (p_sz q) (p_pgdir q) (p_kstack q) (p_state q) (p_pid q) (p_parent q) (p_tf q)
       (p_context q) (p_chan q) (p_killed q) (p_ofile q) x (p_name q) (p_vruntime q)
       (p_curr_runtime q) (p_time_slice q) (p_nice_value q) (p_weight q) (p_color q)
       (p_r q) (p_l q) (p_p q).
Definition set_name (x : list Z) (q : proc) : proc :=
  Proc (p_sz q) (p_pgdir q) (p_kstack q) (p_state q) (p_pid q) (p_parent q) (p_tf q)
       (p_context q) (p_chan q) (p_killed q) (p_ofile q) (p_cwd q) x (p_vruntime q)
       (p_curr_runtime q) (p_time_slice q) (p_nice_value q) (p_weight q) (p_color q)
       (p_r q) (p_l q) (p_p q).

#[global] Instance proc_eq_dec : EqDecision proc.
Proof. solve_decision. Defined.

(** An entry of the zeroed BSS. *)
Definition zero_proc : proc :=
  Proc 0 0 0 UNUSED 0 None 0 0 ChNull 0 (replicate NOFILE 0) 0 (replicate 16 0)
       0 0 0 0 0 RED None None None.

(** [struct rbtree]. *)
Record rbtree := Rbtree {
  rb_length : Z;
  rb_period : Z;
  rb_total_weight : Z;
  rb_root : option nat;
  rb_min_vruntime : option nat
}.

(** [struct proc_info] and [struct rb_node_info], what the scheduler system
    calls report. *)
Record proc_info := ProcInfo {
  pi_pid : Z; pi_nice_value : Z; pi_weight : Z; pi_vruntime : Z; pi_curr_runtime : Z
}.
Record rb_node_info := RbNodeInfo {
  ni_pid : Z; ni_vruntime : Z; ni_color : Z;
  ni_left_pid : Z; ni_right_pid : Z; ni_parent_pid : Z
}.
(** An [int], a [double] aligned to 4 and four [int]s on i386. *)
Definition sizeof_rb_node_info : Z := 28.
Definition sizeof_proc_info : Z := 24.
