(* ===== verification/Rbtree.v ===== *)
(** The red-black tree of runnable processes: treebalanced and
    check_rb_tree_properties of proc.c, collect_rb_tree_nodes of sysproc.c

    The nodes are entries of the process table linked by index.  The two
    walks of the source are modelled with their early returns and the counter
    they share; a walk has no result ([None]) when it runs out of fuel or
    follows a link out of the table.  [tree_at] relates the linked nodes to a
    binary tree, on which the red-black properties and the in-order listing
    are defined independently of the walks. *)

From stdpp Require Import list numbers.
From Stdlib Require Import ZArith Lia.
From S2P Require Import Prelude Memlayout ProcData.

(** [node->l != 0 && node->l->color == RED]; [None] follows a bad link. *)
Definition link_red (pt : list proc) (node : option nat) : option bool :=
  match node with
  | None => Some false
  | Some i => (λ n, bool_decide (p_color n = RED)) <$> pt !! i
  end.

(** proc.c: [check_rb_tree_properties]: the verdict and the new value of
    [*path_black_count]. *)
Fixpoint check_rb_tree_properties (fuel : nat) (pt : list proc) (node : option nat)
    (black_count path_black_count : Z) : option (bool * Z) :=
  match fuel with
  | O => None
  | S fuel' =>
      match node with
      | None =>
          if path_black_count =? -1 then Some (true, black_count)
          else if negb (black_count =? path_black_count) then Some (false, path_black_count)
          else Some (true, path_black_count)
      | Some i =>
          n ← pt !! i;
          lred ← link_red pt (p_l n);
          rred ← link_red pt (p_r n);
          if bool_decide (p_color n = RED) && (lred || rred)
          then Some (false, path_black_count)
          else
            let black_count :=
              if bool_decide (p_color n = BLACK) then black_count + 1 else black_count in
            '(okl, pbc) ← check_rb_tree_properties fuel' pt (p_l n) black_count path_black_count;
            if negb okl then Some (false, pbc)
            else
              '(okr, pbc) ← check_rb_tree_properties fuel' pt (p_r n) black_count pbc;
              if negb okr then Some (false, pbc) else Some (true, pbc)
      end
  end.

(** proc.c: [treebalanced].  A tree of table entries has at most NPROC nodes,
    so NPROC + 1 levels of recursion are enough. *)
Definition treebalanced (pt : list proc) (t : rbtree) : option Z :=
  root_red ← match rb_root t with
             | None => Some false
             | Some i => (λ n, negb (bool_decide (p_color n = BLACK))) <$> pt !! i
             end;
  if root_red : bool then Some 0
  else
    '(ok, _) ← check_rb_tree_properties (S NPROC) pt (rb_root t) 0 (-1);
    Some (if ok : bool then 1 else 0).

(** [node ? node->pid : -1] *)
Definition link_pid (pt : list proc) (node : option nat) : option Z :=
  match node with
  | None => Some (-1)
  | Some i => p_pid <$> pt !! i
  end.

(** sysproc.c: [collect_rb_tree_nodes]: [out] holds the entries written so far,
    [*index] of them. *)
Fixpoint collect_rb_tree_nodes (fuel : nat) (pt : list proc) (node : option nat)
    (out : list rb_node_info) (max_nodes : Z) : option (list rb_node_info) :=
  match fuel with
  | O => None
  | S fuel' =>
      match node with
      | None => Some out
      | Some i =>
          if max_nodes <=? Z.of_nat (length out) then Some out
          else
            n ← pt !! i;
            out ← collect_rb_tree_nodes fuel' pt (p_l n) out max_nodes;
            lpid ← link_pid pt (p_l n);
            rpid ← link_pid pt (p_r n);
            ppid ← link_pid pt (p_p n);
            let info := RbNodeInfo (p_pid n) (p_vruntime n)
                          (if bool_decide (p_color n = RED) then 0 else 1)
                          lpid rpid ppid in
            collect_rb_tree_nodes fuel' pt (p_r n) (out ++ [info]) max_nodes
      end
  end.

(** ** The tree the links describe *)

Inductive tree : Type :=
| Leaf
| Node (l : tree) (i : nat) (n : proc) (r : tree).

Fixpoint tree_at (pt : list proc) (node : option nat) (t : tree) : Prop :=
  match t with
  | Leaf => node = None
  | Node l i n r => node = Some i ∧ pt !! i = Some n ∧
                    tree_at pt (p_l n) l ∧ tree_at pt (p_r n) r
  end.

Fixpoint tree_nodes (t : tree) : list nat :=
  match t with
  | Leaf => []
  | Node l i _ r => tree_nodes l ++ i :: tree_nodes r
  end.

Fixpoint height (t : tree) : nat :=
  match t with
  | Leaf => 0
  | Node l _ _ r => S (Nat.max (height l) (height r))
  end.

Definition tree_red (t : tree) : bool :=
  match t with
  | Leaf => false
  | Node _ _ n _ => bool_decide (p_color n = RED)
  end.

(** No red node has a red child. *)
Fixpoint no_red_red (t : tree) : Prop :=
  match t with
  | Leaf => True
  | Node l _ n r =>
      (p_color n = RED → tree_red l = false ∧ tree_red r = false) ∧
      no_red_red l ∧ no_red_red r
  end.

(** Every path down to a missing child crosses [h] black nodes. *)
Fixpoint black_height (t : tree) (h : Z) : Prop :=
  match t with
  | Leaf => h = 0
  | Node l _ n r =>
      let h' := if bool_decide (p_color n = BLACK) then h - 1 else h in
      black_height l h' ∧ black_height r h'
  end.

Definition red_black (t : tree) : Prop :=
  tree_red t = false ∧ no_red_red t ∧ ∃ h, black_height t h.

(** The entry the system call reports for a node, read off the tree. *)
Definition node_pid (t : tree) : Z :=
  match t with Leaf => -1 | Node _ _ n _ => p_pid n end.

Fixpoint inorder (pt : list proc) (t : tree) : list rb_node_info :=
  match t with
  | Leaf => []
  | Node l _ n r =>
      inorder pt l ++
      RbNodeInfo (p_pid n) (p_vruntime n)
        (if bool_decide (p_color n = RED) then 0 else 1)
        (node_pid l) (node_pid r) (default (-1) (link_pid pt (p_p n)))
      :: inorder pt r
  end.

(** Parent links stay inside the table. *)
Fixpoint parents_ok (pt : list proc) (t : tree) : Prop :=
  match t with
  | Leaf => True
  | Node l _ n r => is_Some (link_pid pt (p_p n)) ∧ parents_ok pt l ∧ parents_ok pt r
  end.

(** ** Lemmas *)

Section lemmas.
Context (pt : list proc).
Implicit Types (t : tree).

Lemma link_red_tree node t : tree_at pt node t → link_red pt node = Some (tree_red t).
Proof. destruct t; simpl; [by intros ->|]. intros (-> & Hi & _). simpl. by rewrite Hi. Qed.

Lemma link_pid_tree node t : tree_at pt node t → link_pid pt node = Some (node_pid t).
Proof. destruct t; simpl; [by intros ->|]. intros (-> & Hi & _). simpl. by rewrite Hi. Qed.

Lemma height_nodes t : (height t ≤ length (tree_nodes t))%nat.
Proof. induction t; simpl; [lia|]. rewrite length_app. simpl. lia. Qed.

Lemma tree_at_bound t : ∀ node i, tree_at pt node t → i ∈ tree_nodes t → (i < length pt)%nat.
Proof.
  induction t as [|l IHl j n r IHr]; intros node i Ht Hi; simpl in *.
  { by apply elem_of_nil in Hi. }
  destruct Ht as (_ & Hj & Hl & Hr).
  apply elem_of_app in Hi as [Hi|[->|Hi]%elem_of_cons]; eauto using lookup_lt_Some.
Qed.

Lemma nodup_bounded_length (l : list nat) n :
  NoDup l → (∀ i, i ∈ l → (i < n)%nat) → (length l ≤ n)%nat.
Proof.
  intros Hnd Hb. rewrite <- (length_seq n 0).
  apply submseteq_length, NoDup_submseteq; [done|].
  intros i Hi. apply elem_of_seq. specialize (Hb i Hi). lia.
Qed.

Lemma tree_height_bound node t : tree_at pt node t → NoDup (tree_nodes t) →
  (height t ≤ length pt)%nat.
Proof.
  intros Ht Hnd. etransitivity; [apply height_nodes|].
  apply nodup_bounded_length; eauto using tree_at_bound.
Qed.

Lemma black_height_nonneg t : ∀ h, black_height t h → 0 ≤ h.
Proof.
  induction t as [|l IHl j n r IHr]; simpl; intros h; [lia|].
  intros [H _]. apply IHl in H. case_bool_decide; lia.
Qed.

Lemma black_height_unique t : ∀ h h', black_height t h → black_height t h' → h = h'.
Proof.
  induction t as [|l IHl j n r IHr]; simpl; intros h h'; [lia|].
  intros [H _] [H' _]. specialize (IHl _ _ H H'). case_bool_decide; lia.
Qed.

(** The recorded count [pbc], once set, is the count every path must have. *)
Definition check_ok t bc pbc pbc' : Prop :=
  no_red_red t ∧ black_height t (pbc' - bc) ∧ (pbc = -1 ∨ pbc' = pbc).

Lemma check_rb_spec t : ∀ fuel node bc pbc,
  (height t < fuel)%nat → tree_at pt node t → 0 ≤ bc → -1 ≤ pbc →
  ∃ ok pbc', check_rb_tree_properties fuel pt node bc pbc = Some (ok, pbc') ∧
    -1 ≤ pbc' ∧
    (ok = true → check_ok t bc pbc pbc' ∧ 0 ≤ pbc') ∧
    (ok = false → ∀ h, ¬ check_ok t bc pbc h).
Proof.
  induction t as [|l IHl i n r IHr]; intros fuel node bc pbc Hf Ht Hbc Hpbc;
    (destruct fuel as [|fuel]; [lia|]); simpl in *.
  - subst node. unfold check_ok. simpl.
    destruct (Z.eqb_spec pbc (-1)) as [->|Hp]; [|destruct (Z.eqb_spec bc pbc) as [->|Hb]];
      simpl; do 2 eexists; (split; [done|]); (split; [lia|]); split; try done;
      intros _; first [intros h; lia | repeat split; lia].
  - destruct Ht as (-> & Hi & Hl & Hr). rewrite Hi. simpl.
    rewrite (link_red_tree _ _ Hl), (link_red_tree _ _ Hr). simpl.
    destruct (bool_decide (p_color n = RED) && (tree_red l || tree_red r)) eqn:Ered.
    { do 2 eexists. split; [done|]. split; [done|]. split; [done|]. intros _ h (Hrr & _).
      simpl in Hrr. destruct Hrr as [Hrr _].
      apply andb_true_iff in Ered as [E1 E2]. apply bool_decide_eq_true in E1.
      destruct (Hrr E1) as [El Er]. by rewrite El, Er in E2. }
    assert (Hcol : p_color n = RED → tree_red l = false ∧ tree_red r = false).
    { intros E. rewrite bool_decide_eq_true_2 in Ered by done. simpl in Ered.
      by apply orb_false_iff in Ered. }
    set (bc' := if bool_decide (p_color n = BLACK) then bc + 1 else bc).
    assert (Hbc' : ∀ h, (if bool_decide (p_color n = BLACK) then h - bc - 1 else h - bc) = h - bc')
      by (intros; unfold bc'; destruct (bool_decide (p_color n = BLACK)); lia).
    assert (0 ≤ bc') by (unfold bc'; case_bool_decide; lia).
    destruct (IHl fuel (p_l n) bc' pbc) as (okl & p1 & El & Hp1 & Hokl & Hnl); auto; [lia|].
    rewrite El. simpl. destruct okl; simpl.
    + destruct (Hokl eq_refl) as [(Hrl & Hbl & Hpl) Hp1'].
      destruct (IHr fuel (p_r n) bc' p1) as (okr & p2 & Er & Hp2 & Hokr & Hnr); auto; [lia|].
      rewrite Er. simpl. destruct okr; simpl; do 2 eexists; (split; [done|]); (split; [done|]);
        split; try done; intros _.
      * destruct (Hokr eq_refl) as [(Hrr & Hbr & Hpr) Hp2']. split; [|done].
        assert (p2 = p1) as -> by lia.
        unfold check_ok. simpl. rewrite Hbc'. auto 10.
      * intros h (Hrb & Hbh & Hph). simpl in Hrb, Hbh. rewrite Hbc' in Hbh.
        destruct Hrb as (_ & _ & Hrr), Hbh as [Hb1 Hb2].
        pose proof (black_height_unique _ _ _ Hb1 Hbl).
        apply (Hnr eq_refl h). split_and!; [done|done|right; lia].
    + do 2 eexists. split; [done|]. split; [done|]. split; [done|].
      intros _ h (Hrb & Hbh & Hph). simpl in Hrb, Hbh. rewrite Hbc' in Hbh.
      destruct Hrb as (_ & Hrl & _), Hbh as [Hb1 _].
      by apply (Hnl eq_refl h).
Qed.

Lemma collect_spec t : ∀ fuel node out mx,
  (height t < fuel)%nat → tree_at pt node t → parents_ok pt t →
  Z.of_nat (length out) + Z.of_nat (length (tree_nodes t)) ≤ mx →
  collect_rb_tree_nodes fuel pt node out mx = Some (out ++ inorder pt t).
Proof.
  induction t as [|l IHl i n r IHr]; intros fuel node out mx Hf Ht Hp Hmx;
    (destruct fuel as [|fuel]; [lia|]); simpl in *.
  { subst node. by rewrite app_nil_r. }
  destruct Ht as (-> & Hi & Hl & Hr), Hp as ([pp Hpp] & Hpl & Hpr).
  rewrite length_app in Hmx; simpl in Hmx.
  destruct (Z.leb_spec mx (Z.of_nat (length out))); [lia|].
  rewrite Hi. simpl. rewrite (IHl fuel) by (auto; lia). simpl.
  rewrite (link_pid_tree _ _ Hl), (link_pid_tree _ _ Hr), Hpp. simpl.
  rewrite IHr; auto; [|lia|].
  - by rewrite <- !app_assoc.
  - rewrite !length_app. simpl. clear IHl IHr.
    assert (length (inorder pt l) = length (tree_nodes l)) as ->; [|lia].
    clear. induction l as [|a IHa ? ? b IHb]; simpl; [done|].
    rewrite !length_app. simpl. lia.
Qed.

End lemmas.

Arguments check_rb_tree_properties : simpl never.
Arguments collect_rb_tree_nodes : simpl never.

(** ** Properties *)

(** C39. [treebalanced] decides the red-black properties: on every tree of distinct
    table entries it returns 1 when the root is black, no red node has a red
    child and all paths cross the same number of black nodes, and 0
    otherwise.  The recursion always ends within its fuel. *)
Theorem treebalanced_iff pt rb t :
  length pt = NPROC → tree_at pt (rb_root rb) t → NoDup (tree_nodes t) →
  (treebalanced pt rb = Some 1 ∧ red_black t) ∨ (treebalanced pt rb = Some 0 ∧ ¬ red_black t).
Proof.
  intros Hlen Ht Hnd. pose proof (tree_height_bound _ _ _ Ht Hnd) as Hh.
  unfold treebalanced, red_black.
  assert (Hroot : match rb_root rb with
                  | None => Some false
                  | Some i => (λ n, negb (bool_decide (p_color n = BLACK))) <$> pt !! i
                  end = Some (tree_red t)).
  { destruct t; simpl in Ht; [by rewrite Ht|]. destruct Ht as (-> & -> & _). simpl.
    by destruct (p_color n). }
  rewrite Hroot. simpl. destruct (tree_red t) eqn:Ered; [right; split; [done|by intros [? _]]|].
  destruct (check_rb_spec pt t (S NPROC) (rb_root rb) 0 (-1)) as (ok & p & -> & _ & Hok & Hno);
    try done; [lia|].
  simpl. destruct ok.
  - left. destruct (Hok eq_refl) as [(H1 & H2 & _) _]. eauto.
  - right. split; [done|]. intros (_ & Hrr & h & Hbh). apply (Hno eq_refl h).
    unfold check_ok. rewrite Z.sub_0_r. auto.
Qed.

(** A black root with a red left child: slots 0 and 1. *)
Definition node_example (q : proc) (c : procColor) (l r p : option nat) (pid : Z) : proc :=
  Proc (p_sz q) (p_pgdir q) (p_kstack q) RUNNABLE pid (p_parent q) (p_tf q)
       (p_context q) (p_chan q) (p_killed q) (p_ofile q) (p_cwd q) (p_name q)
       (p_vruntime q) (p_curr_runtime q) (p_time_slice q) (p_nice_value q)
       (p_weight q) c r l p.
Definition pt_example : list proc :=
  node_example zero_proc BLACK (Some 1%nat) None None 7 ::
  node_example zero_proc RED None None (Some 0%nat) 9 :: replicate 62 zero_proc.
Definition rb_example : rbtree := Rbtree 2 32 2048 (Some 0%nat) (Some 1%nat).
Definition tree_example : tree :=
  Node (Node Leaf 1 (node_example zero_proc RED None None (Some 0%nat) 9) Leaf)
       0 (node_example zero_proc BLACK (Some 1%nat) None None 7) Leaf.

Lemma treebalanced_iff_witness :
  (treebalanced pt_example rb_example = Some 1 ∧ red_black tree_example) ∨
  (treebalanced pt_example rb_example = Some 0 ∧ ¬ red_black tree_example).
Proof.
  apply (treebalanced_iff pt_example rb_example tree_example); [done|done|].
  apply (bool_decide_unpack _). by vm_compute.
Defined.

(** When the caller's buffer has room for the whole tree,
    [collect_rb_tree_nodes] writes one entry per node, in order, with the
    pids of its two children and of its parent (-1 for none). *)
Theorem collect_inorder pt node t max_nodes :
  length pt = NPROC → tree_at pt node t → NoDup (tree_nodes t) → parents_ok pt t →
  Z.of_nat (length (tree_nodes t)) ≤ max_nodes →
  collect_rb_tree_nodes (S NPROC) pt node [] max_nodes = Some (inorder pt t).
Proof.
  intros Hlen Ht Hnd Hp Hmx. pose proof (tree_height_bound _ _ _ Ht Hnd).
  rewrite (collect_spec pt t) by (simpl; auto; lia). done.
Qed.

Lemma collect_inorder_witness :
  collect_rb_tree_nodes (S NPROC) pt_example (Some 0%nat) [] 64 =
  Some [RbNodeInfo 9 0 0 (-1) (-1) 7; RbNodeInfo 7 0 1 9 (-1) (-1)].
Proof.
  apply (collect_inorder pt_example (Some 0%nat) tree_example 64); try done.
  apply (bool_decide_unpack _). by vm_compute.
Defined.

(** The bound is only tested on entry to a node, before its left subtree is
    walked: with room for one entry ([max_nodes] = 1) the walk of a two-node
    red-black tree writes two, past the end of the caller's buffer. *)
Theorem collect_exceeds_max_nodes :
  ∃ pt node t out,
    tree_at pt node t ∧ red_black t ∧
    collect_rb_tree_nodes (S NPROC) pt node [] 1 = Some out ∧ length out = 2%nat.
Proof.
  exists pt_example, (Some 0%nat), tree_example.
  eexists. split_and!; [done| | |].
  - split_and!; [done|by split_and!|]. exists 1. by vm_compute.
  - by vm_compute.
  - done.
Qed.
