(* ===== verification/Proc.v ===== *)
(** Processes: proc.c

    The process table and the operations on it.  The scans and updates that
    the code performs while it holds [ptable.lock] are functions on the table
    ([wakeup1], [kill_table], [reparent], [wait_scan], ...); the kernel
    functions are computations that take and release the lock, call the other
    components and use those functions.  Memory management and the file system
    are reached through the interface [kernel_ops].

    [cur] is the result of [myproc()].  A function that gives up the CPU ends
    in [Err Swtch], with the state in which [sched] called [swtch]; what the
    code does when it is resumed is a definition of its own ([yield_resume],
    [sleep_resume]). *)

From stdpp Require Import gmap list numbers strings.
From Stdlib Require Import ZArith Lia.
From S2P Require Import Prelude Memlayout StringC Cpu ProcData Rbtree.

(** What proc.c calls in kalloc.c, vm.c, file.c, fs.c and log.c, on the state
    [E] of those components. *)
Class kernel_ops (E : Type) := KernelOps {
  k_kalloc : M E Z;
  k_kfree : Z → M E unit;
  k_setupkvm : M E Z;
  k_inituvm : Z → M E unit;
  k_copyuvm : Z → Z → M E Z;
  k_freevm : Z → M E unit;
  k_allocuvm : Z → Z → Z → M E Z;
  k_deallocuvm : Z → Z → Z → M E Z;
  k_switchuvm : proc → M E unit;
  k_filedup : Z → M E Z;
  k_fileclose : Z → M E unit;
  k_idup : Z → M E Z;
  k_iput : Z → M E unit;
  k_namei : list Z → M E Z;
  k_begin_op : M E unit;
  k_end_op : M E unit;
  k_iinit : Z → M E unit;
  k_initlog : Z → M E unit
}.

(** ** Functions on the table *)

(** [wakeup1]. *)
Definition wakeup1 (ch : chanptr) (pt : list proc) : list proc :=
  (λ p, if bool_decide (p_state p = SLEEPING) && bool_decide (p_chan p = ch)
        then set_state RUNNABLE p else p) <$> pt.

(** The index of the first entry a scan stops at. *)
Fixpoint scan (f : proc → bool) (pt : list proc) (i : nat) : option nat :=
  match pt with
  | [] => None
  | p :: pt' => if f p then Some i else scan f pt' (S i)
  end.
Definition find_index (f : proc → bool) (pt : list proc) : option nat := scan f pt 0.

Definition is_unused (p : proc) : bool := bool_decide (p_state p = UNUSED).
Definition is_runnable (p : proc) : bool := bool_decide (p_state p = RUNNABLE).
Definition has_pid (pid : Z) (p : proc) : bool := p_pid p =? pid.

(** The part of [kill] inside the lock; [None] when no entry has the pid. *)
Definition kill_table (pid : Z) (pt : list proc) : option (list proc) :=
  match find_index (has_pid pid) pt with
  | None => None
  | Some i =>
      Some (alter (λ p, let p := set_killed 1 p in
                        if bool_decide (p_state p = SLEEPING) then set_state RUNNABLE p else p)
                  i pt)
  end.

(** The channel a process pointer names. *)
Definition proc_chan (i : option nat) : chanptr :=
  match i with Some j => ChProc j | None => ChNull end.

(** The loop of [exit] that passes abandoned children to init: entries
    [i], ..., [i + n - 1]. *)
Fixpoint reparent_from (n i cur : nat) (init : option nat) (pt : list proc) : list proc :=
  match n with
  | O => pt
  | S n' =>
      let pt :=
        match pt !! i with
        | Some p =>
            if bool_decide (p_parent p = Some cur) then
              let pt := alter (set_parent init) i pt in
              if bool_decide (p_state p = ZOMBIE)
              then wakeup1 (proc_chan init) pt
              else pt
            else pt
        | None => pt
        end in
      reparent_from n' (S i) cur init pt
  end.
Definition reparent (cur : nat) (init : option nat) (pt : list proc) : list proc :=
  reparent_from (length pt) 0 cur init pt.

(** The stores of [exit] to the table: wake the parent, pass on the children,
    become a zombie. *)
Definition exit_table (cur : nat) (par init : option nat) (pt : list proc) : list proc :=
  alter (set_state ZOMBIE) cur (reparent cur init (wakeup1 (proc_chan par) pt)).

(** The scan of [wait]: the first zombie child, if the scan reaches one, and
    otherwise whether there is a child at all. *)
Fixpoint wait_scan (cur : nat) (pt : list proc) (i : nat) (havekids : bool) : option nat * bool :=
  match pt with
  | [] => (None, havekids)
  | p :: pt' =>
      if negb (bool_decide (p_parent p = Some cur)) then wait_scan cur pt' (S i) havekids
      else if bool_decide (p_state p = ZOMBIE) then (Some i, true)
      else wait_scan cur pt' (S i) true
  end.

(** What [wait] stores in the entry it frees. *)
Definition reap (p : proc) : proc :=
  set_state UNUSED (set_killed 0 (set_name (<[0%nat := 0]> (p_name p))
    (set_parent None (set_pid 0 (set_kstack 0 p))))).

(** ** The kernel functions *)

Record pst (E : Type) := Pst {
  ptable : list proc;
  ptlock : spinlock;
  pcpu : cpu;                    (* the CPU that runs the code *)
  initproc : option nat;
  nextpid : Z;
  frames : gmap Z trapframe;     (* trap frames, by address *)
  contexts : gmap Z context;     (* saved contexts, by address *)
  stackw : gmap Z Z;             (* other words of the kernel stacks *)
  rbTree : rbtree;
  first : bool;                  (* forkret's static flag *)
  ext : E
}.
Arguments Pst {E}.
Arguments ptable {E}.
Arguments ptlock {E}.
Arguments pcpu {E}.
Arguments initproc {E}.
Arguments nextpid {E}.
Arguments frames {E}.
Arguments contexts {E}.
Arguments stackw {E}.
Arguments rbTree {E}.
Arguments first {E}.
Arguments ext {E}.

Section ops.
Context {E : Type} `{kernel_ops E}.
Variable me : nat.                   (* index of the CPU *)
Variables forkret_addr trapret_addr : Z.

Abbreviation st := (pst E).

Definition set_ptable (pt : list proc) (s : st) : st :=
  Pst pt (ptlock s) (pcpu s) (initproc s) (nextpid s) (frames s) (contexts s)
      (stackw s) (rbTree s) (first s) (ext s).
Definition set_ptlock (c : cpulock) (s : st) : st :=
  Pst (ptable s) (the_lock c) (the_cpu c) (initproc s) (nextpid s) (frames s)
      (contexts s) (stackw s) (rbTree s) (first s) (ext s).
Definition set_initproc (i : option nat) (s : st) : st :=
  Pst (ptable s) (ptlock s) (pcpu s) i (nextpid s) (frames s) (contexts s)
      (stackw s) (rbTree s) (first s) (ext s).
Definition set_nextpid (n : Z) (s : st) : st :=
  Pst (ptable s) (ptlock s) (pcpu s) (initproc s) n (frames s) (contexts s)
      (stackw s) (rbTree s) (first s) (ext s).
Definition set_frame (a : Z) (f : trapframe) (s : st) : st :=
  Pst (ptable s) (ptlock s) (pcpu s) (initproc s) (nextpid s) (<[a := f]> (frames s))
      (contexts s) (stackw s) (rbTree s) (first s) (ext s).
Definition set_ctx (a : Z) (c : context) (s : st) : st :=
  Pst (ptable s) (ptlock s) (pcpu s) (initproc s) (nextpid s) (frames s)
      (<[a := c]> (contexts s)) (stackw s) (rbTree s) (first s) (ext s).
Definition set_stackw (a v : Z) (s : st) : st :=
  Pst (ptable s) (ptlock s) (pcpu s) (initproc s) (nextpid s) (frames s)
      (contexts s) (<[a := v]> (stackw s)) (rbTree s) (first s) (ext s).
Definition set_first (b : bool) (s : st) : st :=
  Pst (ptable s) (ptlock s) (pcpu s) (initproc s) (nextpid s) (frames s)
      (contexts s) (stackw s) (rbTree s) b (ext s).
Definition set_ext (e : E) (s : st) : st :=
  Pst (ptable s) (ptlock s) (pcpu s) (initproc s) (nextpid s) (frames s)
      (contexts s) (stackw s) (rbTree s) (first s) e.

Definition lift {A} (m : M E A) : M st A := zoom ext set_ext m.
Definition with_lock {A} (m : M cpulock A) : M st A :=
  zoom (λ s, CpuLock (pcpu s) (ptlock s)) set_ptlock m.
Definition acquire_pt : M st unit := with_lock (acquire me).
Definition release_pt : M st unit := with_lock (release me).

(** [ptable.proc[i]], and an assignment to its fields. *)
Definition proc_at (i : nat) : M st proc := o <- gets (λ s, ptable s !! i) ;; deref o.
Definition upd (i : nat) (f : proc → proc) : M st unit :=
  modify (λ s, set_ptable (alter f i (ptable s)) s).
Definition frame_at (a : Z) : M st trapframe := o <- gets (λ s, frames s !! a) ;; deref o.

(** proc.c: [setnice], [gettreeinfo], [getprocinfo], [treebalanced]. *)
Definition setnice (pid nice_value : Z) : M st Z := ret 0.

Definition gettreeinfo : M st (Z * Z * Z) :=
  gets (λ s, (rb_length (rbTree s), rb_total_weight (rbTree s), rb_period (rbTree s))).

(** [info] is the caller's buffer. *)
Definition getprocinfo (pid : Z) (info : proc_info) : M st proc_info :=
  acquire_pt ;;;
  pt <- gets ptable ;;
  match find_index (has_pid pid) pt with
  | Some i =>
      p <- proc_at i ;;
      release_pt ;;;
      ret (ProcInfo (p_pid p) (p_nice_value p) (p_weight p) (p_vruntime p) (p_curr_runtime p))
  | None =>
      release_pt ;;;
      ret (ProcInfo (-1) (pi_nice_value info) (pi_weight info) (pi_vruntime info)
                    (pi_curr_runtime info))
  end.

Definition sys_treebalanced : M st Z :=
  o <- gets (λ s, treebalanced (ptable s) (rbTree s)) ;; deref o.

(** proc.c: [pinit]. *)
Definition pinit : M st unit := modify (λ s, set_ptlock (CpuLock (pcpu s) initlock) s).

(** proc.c: [allocproc]. *)
Definition allocproc : M st (option nat) :=
  acquire_pt ;;;
  pt <- gets ptable ;;
  match find_index is_unused pt with
  | None => release_pt ;;; ret None
  | Some i =>
      upd i (set_state EMBRYO) ;;;
      pid <- gets nextpid ;;
      upd i (set_pid pid) ;;;
      modify (set_nextpid (s32 (pid + 1))) ;;;
      release_pt ;;;
      ks <- lift k_kalloc ;;
      upd i (set_kstack ks) ;;;
      if ks =? 0 then upd i (set_state UNUSED) ;;; ret None
      else
        let sp := u32 (ks + KSTACKSIZE) in
        let sp := u32 (sp - sizeof_trapframe) in
        upd i (set_tf sp) ;;;
        let sp := u32 (sp - 4) in
        modify (set_stackw sp trapret_addr) ;;;
        let sp := u32 (sp - sizeof_context) in
        upd i (set_context sp) ;;;
        modify (set_ctx sp (Context 0 0 0 0 forkret_addr)) ;;;
        ret (Some i)
  end.

(** "initcode" and "/" *)
Definition str_initcode : list Z := [105; 110; 105; 116; 99; 111; 100; 101; 0].
Definition str_slash : list Z := [47; 0].

(** proc.c: [userinit]. *)
Definition userinit : M st unit :=
  np <- allocproc ;;
  modify (set_initproc np) ;;;
  i <- deref np ;;
  pg <- lift k_setupkvm ;;
  upd i (set_pgdir pg) ;;;
  if pg =? 0 then panic "userinit: out of memory?"
  else
    lift (k_inituvm pg) ;;;
    upd i (set_sz PGSIZE) ;;;
    p <- proc_at i ;;
    let cs := Z.lor (Z.shiftl SEG_UCODE 3) DPL_USER in
    let ds := Z.lor (Z.shiftl SEG_UDATA 3) DPL_USER in
    modify (set_frame (p_tf p)
      (Trapframe 0 0 0 0 0 0 0 0 0 0 ds ds 0 0 0 cs FL_IF PGSIZE ds)) ;;;
    nm <- deref (safestrcpy (p_name p) str_initcode 16) ;;
    upd i (set_name nm) ;;;
    cwd <- lift (k_namei str_slash) ;;
    upd i (set_cwd cwd) ;;;
    acquire_pt ;;;
    upd i (set_state RUNNABLE) ;;;
    release_pt.

(** proc.c: [growproc]. *)
Definition growproc (cur : nat) (n : Z) : M st Z :=
  p <- proc_at cur ;;
  let sz := p_sz p in
  let finish sz :=
    upd cur (set_sz sz) ;;;
    q <- proc_at cur ;;
    lift (k_switchuvm q) ;;;
    ret 0 in
  if 0 <? n then
    sz <- lift (k_allocuvm (p_pgdir p) sz (u32 (sz + n))) ;;
    if sz =? 0 then ret (-1) else finish sz
  else if n <? 0 then
    sz <- lift (k_deallocuvm (p_pgdir p) sz (u32 (sz + n))) ;;
    if sz =? 0 then ret (-1) else finish sz
  else finish sz.

(** The descriptor loop of [fork]. *)
Fixpoint dup_files (fds : list Z) (np i : nat) : M st unit :=
  match fds with
  | [] => ret tt
  | f :: fds' =>
      (if f =? 0 then ret tt
       else g <- lift (k_filedup f) ;;
            upd np (λ q, set_ofile (<[i := g]> (p_ofile q)) q)) ;;;
      dup_files fds' np (S i)
  end.

Definition clear_eax (f : trapframe) : trapframe :=
  Trapframe (tf_edi f) (tf_esi f) (tf_ebp f) (tf_oesp f) (tf_ebx f) (tf_edx f) (tf_ecx f) 0
            (tf_gs f) (tf_fs f) (tf_es f) (tf_ds f) (tf_trapno f)
            (tf_err f) (tf_eip f) (tf_cs f) (tf_eflags f) (tf_esp f) (tf_ss f).

(** proc.c: [fork]. *)
Definition fork (cur : nat) : M st Z :=
  onp <- allocproc ;;
  match onp with
  | None => ret (-1)
  | Some np =>
      c <- proc_at cur ;;
      pg <- lift (k_copyuvm (p_pgdir c) (p_sz c)) ;;
      upd np (set_pgdir pg) ;;;
      n <- proc_at np ;;
      if pg =? 0 then
        lift (k_kfree (p_kstack n)) ;;;
        upd np (set_kstack 0) ;;;
        upd np (set_state UNUSED) ;;;
        ret (-1)
      else
        upd np (set_sz (p_sz c)) ;;;
        upd np (set_parent (Some cur)) ;;;
        f <- frame_at (p_tf c) ;;
        modify (set_frame (p_tf n) f) ;;;
        modify (set_frame (p_tf n) (clear_eax f)) ;;;
        dup_files (p_ofile c) np 0 ;;;
        cwd <- lift (k_idup (p_cwd c)) ;;
        upd np (set_cwd cwd) ;;;
        nm <- deref (safestrcpy (p_name n) (p_name c) 16) ;;
        upd np (set_name nm) ;;;
        let pid := p_pid n in
        acquire_pt ;;;
        upd np (set_state RUNNABLE) ;;;
        release_pt ;;;
        ret pid
  end.

(** proc.c: [sched], up to the switch. *)
Definition sched (cur : nat) : M st unit :=
  h <- with_lock (holding me) ;;
  if negb h then panic "sched ptable.lock"
  else
    n <- gets (λ s, ncli (pcpu s)) ;;
    if negb (n =? 1) then panic "sched locks"
    else
      p <- proc_at cur ;;
      if bool_decide (p_state p = RUNNING) then panic "sched running"
      else
        i <- gets (λ s, fl_if (pcpu s)) ;;
        if i : bool then panic "sched interruptible"
        else fail Swtch.

(** ... and after it: [intena] is the value [sched] saved. *)
Definition sched_resume (saved : bool) : M st unit :=
  modify (λ s, set_ptlock (CpuLock (set_intena saved (pcpu s)) (ptlock s)) s).

(** The close loop of [exit]: [n] descriptors from [fd]. *)
Fixpoint close_files (n fd cur : nat) : M st unit :=
  match n with
  | O => ret tt
  | S n' =>
      p <- proc_at cur ;;
      f <- deref (p_ofile p !! fd) ;;
      (if f =? 0 then ret tt
       else lift (k_fileclose f) ;;;
            upd cur (λ q, set_ofile (<[fd := 0]> (p_ofile q)) q)) ;;;
      close_files n' (S fd) cur
  end.

(** proc.c: [exit]. *)
Definition exit (cur : nat) : M st unit :=
  ip <- gets initproc ;;
  if bool_decide (ip = Some cur) then panic "init exiting"
  else
    close_files NOFILE 0 cur ;;;
    lift k_begin_op ;;;
    p <- proc_at cur ;;
    lift (k_iput (p_cwd p)) ;;;
    lift k_end_op ;;;
    upd cur (set_cwd 0) ;;;
    acquire_pt ;;;
    p <- proc_at cur ;;
    modify (λ s, set_ptable (exit_table cur (p_parent p) (initproc s) (ptable s)) s) ;;;
    sched cur ;;;
    panic "zombie exit".

(** The lock [sleep] is called with: none, [ptable.lock] itself, or another
    lock with its release and acquire. *)
Inductive sleep_lock : Type :=
| LkNull
| LkPtable
| LkOther (release_lk acquire_lk : M st unit).

(** proc.c: [sleep], up to the switch. *)
Definition sleep (cur : option nat) (ch : chanptr) (lk : sleep_lock) : M st unit :=
  match cur with
  | None => panic "sleep"
  | Some i =>
      match lk with
      | LkNull => panic "sleep without lk"
      | LkOther release_lk _ => acquire_pt ;;; release_lk
      | LkPtable => ret tt
      end ;;;
      upd i (set_chan ch) ;;;
      upd i (set_state SLEEPING) ;;;
      sched i
  end.

(** ... and from where it is resumed. *)
Definition sleep_resume (cur : nat) (lk : sleep_lock) : M st unit :=
  upd cur (set_chan ChNull) ;;;
  match lk with
  | LkOther _ acquire_lk => release_pt ;;; acquire_lk
  | _ => ret tt
  end.

(** proc.c: [wait]: one round of its loop; it sleeps on the process itself
    when there is a child but no zombie. *)
Definition wait_round (cur : nat) : M st Z :=
  pt <- gets ptable ;;
  match wait_scan cur pt 0 false with
  | (Some i, _) =>
      p <- proc_at i ;;
      lift (k_kfree (p_kstack p)) ;;;
      lift (k_freevm (p_pgdir p)) ;;;
      upd i reap ;;;
      release_pt ;;;
      ret (p_pid p)
  | (None, havekids) =>
      c <- proc_at cur ;;
      if negb havekids || negb (p_killed c =? 0) then release_pt ;;; ret (-1)
      else sleep (Some cur) (ChProc cur) LkPtable ;;; ret 0
  end.
Definition wait (cur : nat) : M st Z := acquire_pt ;;; wait_round cur.

(** proc.c: [yield], up to the switch and after it. *)
Definition yield (cur : nat) : M st unit :=
  acquire_pt ;;;
  upd cur (set_state RUNNABLE) ;;;
  sched cur.
Definition yield_resume : M st unit := release_pt.

(** proc.c: [forkret]. *)
Definition forkret : M st unit :=
  release_pt ;;;
  f <- gets first ;;
  if f : bool then
    modify (set_first false) ;;;
    lift (k_iinit ROOTDEV) ;;;
    lift (k_initlog ROOTDEV)
  else ret tt.

(** proc.c: [wakeup] and [kill]. *)
Definition wakeup (ch : chanptr) : M st unit :=
  acquire_pt ;;;
  modify (λ s, set_ptable (wakeup1 ch (ptable s)) s) ;;;
  release_pt.

Definition kill (pid : Z) : M st Z :=
  acquire_pt ;;;
  pt <- gets ptable ;;
  match kill_table pid pt with
  | Some pt' => modify (set_ptable pt') ;;; release_pt ;;; ret 0
  | None => release_pt ;;; ret (-1)
  end.

End ops.

(** ** Lemmas *)

Section table_lemmas.
Implicit Types (pt : list proc) (f : proc → bool).

Lemma scan_Some f pt : ∀ k i, scan f pt k = Some i →
  (k ≤ i)%nat ∧ (∃ p, pt !! (i - k)%nat = Some p ∧ f p = true) ∧
  ∀ j p, (j < i - k)%nat → pt !! j = Some p → f p = false.
Proof.
  induction pt as [|q pt IH]; intros k i; simpl; [done|].
  destruct (f q) eqn:Eq.
  - intros [= <-]. rewrite Nat.sub_diag. split; [lia|]. split; [eauto|]. lia.
  - intros (Hk & (p & Hp & Hfp) & Hlt)%IH. split; [lia|].
    replace (i - k)%nat with (S (i - S k)) by lia. split; [eauto|].
    intros [|j] r Hj; simpl; [congruence|]. apply Hlt. lia.
Qed.

Lemma scan_None f pt : ∀ k, scan f pt k = None ↔ ∀ i p, pt !! i = Some p → f p = false.
Proof.
  induction pt as [|q pt IH]; intros k; simpl.
  { split; [intros _ i p Hi; by rewrite lookup_nil in Hi | done]. }
  destruct (f q) eqn:Eq.
  - split; [done|]. intros H. specialize (H 0%nat q eq_refl). congruence.
  - rewrite IH. split.
    + intros H [|i] p; simpl; [congruence|]. apply H.
    + intros H i p Hi. by apply (H (S i)).
Qed.

Lemma find_index_Some f pt i : find_index f pt = Some i →
  (∃ p, pt !! i = Some p ∧ f p = true) ∧
  ∀ j p, (j < i)%nat → pt !! j = Some p → f p = false.
Proof. intros (_ & H1 & H2)%scan_Some. by rewrite Nat.sub_0_r in *. Qed.

Lemma find_index_None f pt : find_index f pt = None ↔ ∀ i p, pt !! i = Some p → f p = false.
Proof. apply scan_None. Qed.

Lemma scan_alter_same f g pt : ∀ k i,
  (∀ p, pt !! i = Some p → f (g p) = f p) → scan f (alter g i pt) k = scan f pt k.
Proof.
  induction pt as [|q pt IH]; intros k i Hf; simpl; [done|].
  destruct i as [|i]; simpl; [by rewrite Hf|].
  destruct (f q); [done|]. apply IH. intros p. apply (Hf p).
Qed.

(** What [wakeup1] does to one entry. *)
Definition woken (ch : chanptr) (p : proc) : proc :=
  if bool_decide (p_state p = SLEEPING) && bool_decide (p_chan p = ch)
  then set_state RUNNABLE p else p.

Lemma wakeup1_fmap ch pt : wakeup1 ch pt = woken ch <$> pt.
Proof. done. Qed.

Lemma wakeup1_lookup ch pt i : wakeup1 ch pt !! i = woken ch <$> pt !! i.
Proof. apply list_lookup_fmap. Qed.

Lemma woken_cases ch p :
  (p_state p = SLEEPING ∧ p_chan p = ch ∧ woken ch p = set_state RUNNABLE p) ∨
  (¬ (p_state p = SLEEPING ∧ p_chan p = ch) ∧ woken ch p = p).
Proof. unfold woken. repeat case_bool_decide; simpl; tauto. Qed.

Lemma woken_parent ch p : p_parent (woken ch p) = p_parent p.
Proof. destruct (woken_cases ch p) as [(_ & _ & ->)|[_ ->]]; done. Qed.

Lemma woken_zombie ch p : p_state (woken ch p) = ZOMBIE ↔ p_state p = ZOMBIE.
Proof. destruct (woken_cases ch p) as [(E & _ & ->)|[_ ->]]; simpl; [rewrite E|]; done. Qed.

Lemma woken_idemp ch p : woken ch (woken ch p) = woken ch p.
Proof.
  destruct (woken_cases ch p) as [(E & _ & ->)|[H E]]; [done|]. by rewrite E, E.
Qed.

(** The reference definition of [reparent]: every child of [cur] becomes a
    child of init, and init is woken if one of them is a zombie. *)
Definition adopt (cur : nat) (init : option nat) (p : proc) : proc :=
  if bool_decide (p_parent p = Some cur) then set_parent init p else p.

Definition zombie_child (cur : nat) (p : proc) : bool :=
  bool_decide (p_parent p = Some cur) && bool_decide (p_state p = ZOMBIE).

Definition reparent_ref (cur : nat) (init : option nat) (pt : list proc) : list proc :=
  let pt' := adopt cur init <$> pt in
  if existsb (zombie_child cur) pt then wakeup1 (proc_chan init) pt' else pt'.

Lemma adopt_woken cur init ch p : adopt cur init (woken ch p) = woken ch (adopt cur init p).
Proof.
  unfold adopt. rewrite woken_parent. case_bool_decide; [|done].
  unfold woken. simpl. by destruct (_ && _).
Qed.

Lemma zombie_child_woken cur ch p : zombie_child cur (woken ch p) = zombie_child cur p.
Proof.
  unfold zombie_child. rewrite woken_parent. f_equal.
  apply bool_decide_ext, woken_zombie.
Qed.

Lemma existsb_woken cur ch pt :
  existsb (zombie_child cur) (woken ch <$> pt) = existsb (zombie_child cur) pt.
Proof.
  induction pt as [|p pt IH]; [done|].
  rewrite fmap_cons. cbn [existsb]. by rewrite zombie_child_woken, IH.
Qed.

(** The loop invariant of [reparent_from]: the first entries [done] are
    finished, the rest are as before up to wake-ups of init. *)
Lemma reparent_from_spec cur init (todo : list proc) : ∀ (fin : list proc),
  reparent_from (length todo) (length fin) cur init (fin ++ todo) =
  if existsb (zombie_child cur) todo
  then wakeup1 (proc_chan init) (fin ++ (adopt cur init <$> todo))
  else fin ++ (adopt cur init <$> todo).
Proof.
  remember (length todo) as n eqn:Hn. revert todo Hn.
  induction n as [|n IH]; intros [|p todo] Hn fin; simpl in *; try lia; [done|].
  rewrite lookup_app_r, Nat.sub_diag by lia. simpl.
  assert (Halt : alter (set_parent init) (length fin) (fin ++ p :: todo) =
                 (fin ++ [set_parent init p]) ++ todo).
  { rewrite alter_app_r_alt, Nat.sub_diag by lia. simpl. by rewrite <- app_assoc. }
  assert (Hlen : ∀ x, S (length fin) = length (fin ++ [x] : list proc))
    by (intros; rewrite length_app; simpl; lia).
  assert (Happ : ∀ x, fin ++ x :: (adopt cur init <$> todo) =
                      (fin ++ [x]) ++ (adopt cur init <$> todo))
    by (intros; by rewrite <- app_assoc).
  destruct (decide (p_parent p = Some cur)) as [Hpar|Hpar].
  - assert (adopt cur init p = set_parent init p) as ->
      by (unfold adopt; by rewrite bool_decide_eq_true_2).
    assert (zombie_child cur p = bool_decide (p_state p = ZOMBIE)) as ->
      by (unfold zombie_child; by rewrite bool_decide_eq_true_2).
    rewrite bool_decide_eq_true_2 by done.
    case_bool_decide as Hz; simpl; rewrite Halt.
    + rewrite wakeup1_fmap, fmap_app.
      replace (S (length fin)) with (length (woken (proc_chan init) <$> (fin ++ [set_parent init p])))
        by (by rewrite length_fmap, <- Hlen).
      rewrite IH by (rewrite length_fmap; lia). rewrite existsb_woken, Happ.
      rewrite !wakeup1_fmap, !fmap_app.
      assert (Hc : adopt cur init <$> (woken (proc_chan init) <$> todo) =
                   woken (proc_chan init) <$> (adopt cur init <$> todo)).
      { rewrite <- !list_fmap_compose. apply list_fmap_ext. intros. apply adopt_woken. }
      rewrite Hc. destruct (existsb _ todo); [|done].
      assert (Hii : ∀ l : list proc, woken (proc_chan init) <$> (woken (proc_chan init) <$> l) =
                woken (proc_chan init) <$> l).
      { intros. rewrite <- list_fmap_compose. apply list_fmap_ext. intros. apply woken_idemp. }
      by rewrite !Hii.
    + rewrite (Hlen (set_parent init p)), IH by lia. by rewrite Happ.
  - assert (adopt cur init p = p) as -> by (unfold adopt; by rewrite bool_decide_eq_false_2).
    assert (zombie_child cur p = false) as ->
      by (unfold zombie_child; by rewrite bool_decide_eq_false_2).
    rewrite bool_decide_eq_false_2 by done. simpl.
    replace (fin ++ p :: todo) with ((fin ++ [p]) ++ todo) by (by rewrite <- app_assoc).
    rewrite (Hlen p), IH by lia. by rewrite Happ.
Qed.

Lemma reparent_eq_ref cur init pt : reparent cur init pt = reparent_ref cur init pt.
Proof.
  unfold reparent, reparent_ref. exact (reparent_from_spec cur init pt []).
Qed.

End table_lemmas.

(** ** Running the kernel functions *)

(** The CPU inside and after a section that holds [ptable.lock]. *)
Definition locked_cpu (c : cpu) : cpu :=
  Cpu (apicid c) (ncli c + 1) (if ncli c =? 0 then fl_if c else intena c) false.
Definition unlocked_cpu (c : cpu) : cpu :=
  Cpu (apicid c) (ncli c) (if ncli c =? 0 then fl_if c else intena c) (fl_if c).

Section run_lemmas.
Context {E : Type} `{!kernel_ops E}.
Variables (me : nat).
Implicit Types (s : pst E) (c : cpu).

(** [ptable.lock] is free and the CPU is in order. *)
Definition pt_ready s : Prop := ptlock s = initlock ∧ cpu_ok (pcpu s).

(** [ptable.lock] is held by this CPU, which was in state [c] when it took it. *)
Definition pt_held c s : Prop :=
  ptlock s = Spinlock true (Some me) ∧ pcpu s = locked_cpu c ∧ cpu_ok c.

Definition lock_state s : pst E :=
  set_ptlock (CpuLock (locked_cpu (pcpu s)) (Spinlock true (Some me))) s.
Definition unlock_state c s : pst E := set_ptlock (CpuLock (unlocked_cpu c) initlock) s.

Lemma acquire_pt_run s : pt_ready s → acquire_pt me s = Ok tt (lock_state s).
Proof.
  intros [Hl Hc]. unfold acquire_pt, with_lock, zoom. rewrite Hl.
  by rewrite acquire_run.
Qed.

Lemma release_pt_run c s : pt_held c s → release_pt me s = Ok tt (unlock_state c s).
Proof.
  intros (Hl & Hp & Hn & Hoff). unfold release_pt, with_lock, zoom.
  rewrite release_run; rewrite ?Hl, ?Hp; simpl; try done; [|lia].
  unfold unlock_state, unlocked_cpu. do 4 f_equal; [lia|].
  destruct (Z.eqb_spec (ncli c) 0) as [->|].
  - done.
  - rewrite (proj2 (Z.eqb_neq _ _)) by lia. simpl. symmetry. apply Hoff. lia.
Qed.

Lemma pt_held_lock s : pt_ready s → pt_held (pcpu s) (lock_state s).
Proof. by intros [Hl Hc]. Qed.

Lemma pt_ready_unlock c s : cpu_ok c → pt_ready (unlock_state c s).
Proof. intros [H1 H2]. split; [done|]. by split. Qed.

Lemma pt_held_ptable c pt s : pt_held c s → pt_held c (set_ptable pt s).
Proof. done. Qed.

Lemma bind_acquire {A} s (k : unit → M (pst E) A) : pt_ready s →
  bind (acquire_pt me) k s = k tt (lock_state s).
Proof. intros. by erewrite bind_ok by (by apply acquire_pt_run). Qed.

Lemma bind_release {A} c s (k : unit → M (pst E) A) : pt_held c s →
  bind (release_pt me) k s = k tt (unlock_state c s).
Proof. intros. by erewrite bind_ok by (by apply release_pt_run). Qed.

Lemma bind_proc_at {A} s i p (k : proc → M (pst E) A) : ptable s !! i = Some p →
  bind (proc_at i) k s = k p s.
Proof. intros Hi. unfold proc_at, bind, gets, deref. by rewrite Hi. Qed.

Lemma bind_lift {A B} (m : M E A) (k : A → M (pst E) B) s a e' :
  m (ext s) = Ok a e' → bind (lift m) k s = k a (set_ext e' s).
Proof. intros Hm. unfold bind, lift, zoom. by rewrite Hm. Qed.

Lemma bind_upd {A} i f s (k : unit → M (pst E) A) :
  bind (upd i f) k s = k tt (set_ptable (alter f i (ptable s)) s).
Proof. done. Qed.

Lemma sched_run c cur p s : pt_held c s → ncli c = 0 →
  ptable s !! cur = Some p → p_state p ≠ RUNNING →
  sched me cur s = Err Swtch s.
Proof.
  intros (Hl & Hp & Hn & Hoff) Hc0 Hi Hst. unfold sched.
  destruct (holding_run me (locked_cpu c) (Spinlock true (Some me))) as (ie & Hh & Hie).
  { split; simpl; [lia|done]. }
  assert (Hrun : with_lock (holding me) s = Ok true s).
  { unfold with_lock, zoom. rewrite Hl, Hp, Hh.
    rewrite bool_decide_eq_true_2 by done. simpl in *. rewrite Hie by lia.
    unfold set_ptlock. simpl.
    destruct s; simpl in *; subst. unfold locked_cpu. by simpl. }
  erewrite bind_ok by exact Hrun. simpl.
  unfold bind at 1, gets at 1. rewrite Hp. simpl. rewrite Hc0. simpl.
  erewrite bind_proc_at by done. rewrite bool_decide_eq_false_2 by done.
  unfold bind, gets. by rewrite Hp.
Qed.

Lemma wait_scan_spec cur pt : ∀ k hk o hk',
  wait_scan cur pt k hk = (o, hk') →
  match o with
  | Some i => (k ≤ i)%nat ∧
      (∃ p, pt !! (i - k)%nat = Some p ∧ p_parent p = Some cur ∧ p_state p = ZOMBIE) ∧
      ∀ j p, (j < i - k)%nat → pt !! j = Some p → zombie_child cur p = false
  | None => (∀ j p, pt !! j = Some p → zombie_child cur p = false) ∧
      (hk' = true ↔ hk = true ∨ ∃ j p, pt !! j = Some p ∧ p_parent p = Some cur)
  end.
Proof.
  induction pt as [|q pt IH]; intros k hk o hk' Hw; simpl in Hw.
  { injection Hw as <- <-. split; [intros j p Hj; by rewrite lookup_nil in Hj|].
    split; [by left|]. intros [?|(j & p & Hj & _)]; [done|by rewrite lookup_nil in Hj]. }
  unfold zombie_child in *.
  case_bool_decide as Hpar; simpl in Hw; [case_bool_decide as Hz|].
  - injection Hw as <- <-. rewrite Nat.sub_diag. split; [lia|]. split; [eauto|]. lia.
  - apply IH in Hw. destruct o as [i|].
    + destruct Hw as (Hk & (p & Hp & Hpp) & Hlt). split; [lia|].
      replace (i - k)%nat with (S (i - S k)) by lia. split; [eauto|].
      intros [|j] r Hj; simpl; [intros [= <-]; by rewrite (bool_decide_eq_false_2 (_ = ZOMBIE)), andb_false_r|].
      apply Hlt. lia.
    + destruct Hw as [Hz' Hhk]. split.
      * intros [|j] r; simpl; [intros [= <-]; by rewrite (bool_decide_eq_false_2 (_ = ZOMBIE)), andb_false_r|].
        apply Hz'.
      * rewrite Hhk. split; [intros _; right; exists 0%nat, q; done|by left].
  - apply IH in Hw. destruct o as [i|].
    + destruct Hw as (Hk & (p & Hp & Hpp) & Hlt). split; [lia|].
      replace (i - k)%nat with (S (i - S k)) by lia. split; [eauto|].
      intros [|j] r Hj; simpl; [intros [= <-]; by rewrite bool_decide_eq_false_2|].
      apply Hlt. lia.
    + destruct Hw as [Hz' Hhk]. split.
      * intros [|j] r; simpl; [intros [= <-]; by rewrite bool_decide_eq_false_2|]. apply Hz'.
      * rewrite Hhk. split; intros [?|(j & p & Hj & Hjp)]; auto; right.
        -- by exists (S j), p.
        -- destruct j as [|j]; simpl in Hj; [congruence|]. by exists j, p.
Qed.

End run_lemmas.
