(* ===== verification/ProcSpec.v ===== *)
(** What the functions of proc.c do to the process table

    The functional behaviour of [kill], [wakeup], [sleep], [yield], [wait],
    [exit] and [fork] on every branch, from a state in which [ptable.lock] is
    free, and the life of a slot that [kill(0)] has marked. *)

From stdpp Require Import gmap list numbers strings.
From Stdlib Require Import ZArith Lia.
From S2P Require Import Prelude Memlayout StringC Cpu ProcData Rbtree Proc.

(** A kernel in which every call into the other components succeeds: memory
    comes from a bump allocator and files and inodes are plain handles. *)
#[local] Instance bump_ops : kernel_ops Z := {|
  k_kalloc := λ e, Ok (u32 (e + 4096)) (e + 4096);
  k_kfree _ := ret tt;
  k_setupkvm := ret 4096;
  k_inituvm _ := ret tt;
  k_copyuvm pg _ := ret pg;
  k_freevm _ := ret tt;
  k_allocuvm _ _ n := ret n;
  k_deallocuvm _ _ n := ret n;
  k_switchuvm _ := ret tt;
  k_filedup f := ret f;
  k_fileclose _ := ret tt;
  k_idup i := ret i;
  k_iput _ := ret tt;
  k_namei _ := ret 1;
  k_begin_op := ret tt;
  k_end_op := ret tt;
  k_iinit _ := ret tt;
  k_initlog _ := ret tt
|}.

(** A table of four slots: init, its child 1, a zombie child of 1 and a free
    slot. *)
Definition demo_proc (st : procstate) (pid : Z) (par : option nat) : proc :=
  set_tf (pid * 64) (set_pgdir 8192 (set_parent par (set_pid pid (set_state st zero_proc)))).
Definition demo_table : list proc :=
  [demo_proc SLEEPING 1 None; demo_proc RUNNING 2 (Some 0%nat);
   demo_proc ZOMBIE 3 (Some 1%nat); zero_proc].
Definition demo_frame : trapframe := Trapframe 1 2 3 4 5 6 7 8 0 0 35 35 64 0 100 27 512 200 35.
Definition demo_state : pst Z :=
  Pst demo_table initlock (Cpu 0 0 false true) (Some 0%nat) 4 {[ 128 := demo_frame ]} ∅ ∅
      (Rbtree 0 0 0 None None) true 0.

Lemma demo_ready : pt_ready demo_state.
Proof. split; [done|]. by split. Qed.

(** The state in which a computation in the goal returns is the witness. *)
Ltac exists_final := match goal with |- context [ret _ ?st] => exists st end.

Section proc_spec_base.
Context {E : Type} `{!kernel_ops E}.
Variables (me : nat).
Implicit Types (s : pst E) (c : cpu).

(** What [kill] makes of the entry it finds. *)
Definition killed_proc (p : proc) : proc :=
  if bool_decide (p_state p = SLEEPING) then set_state RUNNABLE (set_killed 1 p)
  else set_killed 1 p.

Lemma alter_lookup_insert {A} (f : A → A) (l : list A) i x :
  l !! i = Some x → alter f i l = <[i := f x]> l.
Proof.
  intros Hi. apply list_eq. intros j. destruct (decide (i = j)) as [<-|].
  - rewrite list_lookup_alter_eq, list_lookup_insert_eq by (by eapply lookup_lt_Some).
    by rewrite Hi.
  - by rewrite list_lookup_alter_ne, list_lookup_insert_ne.
Qed.

Lemma kill_run s pid : pt_ready s →
  ∃ s', pt_ready s' ∧ initproc s' = initproc s ∧ nextpid s' = nextpid s ∧ ext s' = ext s ∧
  frames s' = frames s ∧
  match find_index (has_pid pid) (ptable s) with
  | Some i => ∃ p, ptable s !! i = Some p ∧ kill me pid s = Ok 0 s' ∧
      ptable s' = <[i := killed_proc p]> (ptable s)
  | None => kill me pid s = Ok (-1) s' ∧ ptable s' = ptable s
  end.
Proof.
  intros Hr. pose proof Hr as [Hl Hc]. unfold kill.
  rewrite bind_acquire, bind_gets by done. unfold kill_table. simpl ptable.
  destruct (find_index _ _) as [i|] eqn:Hf.
  - apply find_index_Some in Hf as ((p & Hp & _) & _). simpl in Hp.
    erewrite alter_lookup_insert, bind_modify by done.
    erewrite bind_release by (apply pt_held_ptable, pt_held_lock; done).
    exists_final. split; [by apply pt_ready_unlock|]. do 4 (split; [done|]).
    exists p. by split_and!.
  - cbv iota. erewrite bind_release by (apply pt_held_lock; done).
    exists_final. split; [by apply pt_ready_unlock|]. do 4 (split; [done|]).
    by split.
Qed.

(** [kill(pid)] never blocks or panics when [ptable.lock] is free, and
    gives the lock back.  If some entry of the table has the pid, it returns 0,
    and the only change to the table is that the first such entry is marked
    killed and, if it was sleeping, made runnable; otherwise it returns -1 and
    leaves the table alone. *)
Theorem kill_correct s pid : pt_ready s →
  ∃ r s', kill me pid s = Ok r s' ∧ pt_ready s' ∧
  ((r = 0 ∧ ∃ i p, ptable s !! i = Some p ∧ p_pid p = pid ∧
      (∀ j q, (j < i)%nat → ptable s !! j = Some q → p_pid q ≠ pid) ∧
      ptable s' = <[i := killed_proc p]> (ptable s)) ∨
   (r = -1 ∧ (∀ j q, ptable s !! j = Some q → p_pid q ≠ pid) ∧ ptable s' = ptable s)).
Proof.
  intros Hr. destruct (kill_run s pid Hr) as (s' & Hr' & _ & _ & _ & _ & Hm).
  destruct (find_index _ _) as [i|] eqn:Hf.
  - destruct Hm as (p & Hp & Hrun & Hpt). exists 0, s'. split_and!; [done..|]. left. split; [done|].
    apply find_index_Some in Hf as ((q & Hq & Hpid) & Hlt). exists i, p.
    assert (q = p) as -> by congruence. split_and!; [done| |intros j q Hj Hq'|done].
    + by apply Z.eqb_eq in Hpid.
    + by specialize (Hlt j q Hj Hq') as ?%Z.eqb_neq.
  - destruct Hm as [Hrun Hpt]. exists (-1), s'. split_and!; [done..|]. right. split; [done|].
    split; [|done]. intros j q Hj.
    by pose proof (proj1 (find_index_None _ _) Hf j q Hj) as ?%Z.eqb_neq.
Qed.

(** The calls into the file system return, [filedup] and [idup] with the same
    reference, and relate the states of the other components by [R]: what the
    file system does not touch. *)
Class fs_returns (R : E → E → Prop) : Prop := {
  fs_preorder :: PreOrder R;
  filedup_returns f e : ∃ e', k_filedup (E:=E) f e = Ok f e' ∧ R e e';
  idup_returns i e : ∃ e', k_idup (E:=E) i e = Ok i e' ∧ R e e';
  fileclose_returns f e : ∃ e', k_fileclose (E:=E) f e = Ok tt e' ∧ R e e';
  iput_returns i e : ∃ e', k_iput (E:=E) i e = Ok tt e' ∧ R e e';
  begin_op_returns e : ∃ e', k_begin_op (E:=E) e = Ok tt e' ∧ R e e';
  end_op_returns e : ∃ e', k_end_op (E:=E) e = Ok tt e' ∧ R e e'
}.

End proc_spec_base.
Arguments fs_returns E {_} R.

Section proc_spec.
Context {E : Type} `{!kernel_ops E}.
Context {R : E → E → Prop} {Hfs : fs_returns E R}.
Variables (me : nat).
Implicit Types (s : pst E) (c : cpu).

(** [close_files] only clears descriptors of the exiting process. *)
Lemma close_files_run cur : ∀ n fd s p,
  ptable s !! cur = Some p → (fd + n ≤ length (p_ofile p))%nat →
  (∀ j, (j < fd)%nat → p_ofile p !! j = Some 0) →
  ∃ e' fs, close_files n fd cur s = Ok tt (set_ext e' (set_ptable (<[cur := set_ofile fs p]> (ptable s)) s)) ∧
    R (ext s) e' ∧ length fs = length (p_ofile p) ∧ ∀ j, (j < fd + n)%nat → fs !! j = Some 0.
Proof.
  induction n as [|n IH]; intros fd s p Hp Hlen Hz; simpl.
  { exists (ext s), (p_ofile p). rewrite list_insert_id by (by destruct p).
    split; [by destruct s|]. do 2 (split; [done|]). intros. apply Hz. lia. }
  erewrite bind_proc_at by done.
  destruct (lookup_lt_is_Some_2 (p_ofile p) fd) as [f Hf]; [lia|].
  rewrite Hf. unfold bind at 1, deref at 1, ret at 1.
  destruct (Z.eqb_spec f 0) as [->|Hne].
  - unfold bind at 1, ret at 1. destruct (IH (S fd) s p) as (e' & fs & Hrun & HR & Hl & Hall);
      [done|lia| |].
    { intros j Hj. destruct (decide (j = fd)) as [->|]; [done|]. apply Hz. lia. }
    exists e', fs. split_and!; [done|done|done|]. intros. apply Hall. lia.
  - destruct (fileclose_returns f (ext s)) as (e1 & He1 & HR1).
    erewrite bind_ok; [|erewrite bind_lift by done; unfold upd, modify; reflexivity].
    simpl ptable. erewrite alter_lookup_insert by done.
    match goal with |- context [close_files n (S fd) cur ?s1] =>
      destruct (IH (S fd) s1 (set_ofile (<[fd := 0]> (p_ofile p)) p))
        as (e' & fs & Hrun & HR & Hl & Hall) end.
    { simpl. apply list_lookup_insert_eq. by eapply lookup_lt_Some. }
    { simpl. rewrite length_insert. lia. }
    { simpl. intros j Hj. destruct (decide (j = fd)) as [->|].
      - apply list_lookup_insert_eq. lia.
      - rewrite list_lookup_insert_ne by done. apply Hz. lia. }
    exists e', fs. rewrite Hrun. simpl. rewrite list_insert_insert_eq. simpl in Hl.
    rewrite length_insert in Hl. split_and!; [done|by etransitivity|done|]. intros. apply Hall. lia.
Qed.

Lemma exit_table_length cur par init pt : length (exit_table cur par init pt) = length pt.
Proof.
  unfold exit_table. rewrite length_alter, reparent_eq_ref. unfold reparent_ref.
  destruct (existsb _ _); rewrite ?wakeup1_fmap, !length_fmap; done.
Qed.

Lemma woken_state ch p : p_state (woken ch p) =
  if decide (p_state p = SLEEPING ∧ p_chan p = ch) then RUNNABLE else p_state p.
Proof.
  destruct (woken_cases ch p) as [(H & H' & ->)|[H ->]]; simpl; case_decide; intuition congruence.
Qed.

Lemma existsb_insert_same {A} (f : A → bool) (l : list A) i x y :
  l !! i = Some x → f y = f x → existsb f (<[i := y]> l) = existsb f l.
Proof.
  revert i. induction l as [|z l IH]; intros [|i] Hi Hf; simpl in *; try done.
  - injection Hi as ->. by rewrite Hf.
  - by erewrite IH.
Qed.

(** The stack and the address space of an entry stay the same. *)
Definition same_space (p q : proc) : Prop :=
  p_kstack q = p_kstack p ∧ p_pgdir q = p_pgdir p ∧ p_sz q = p_sz p.

(** [woken] and [adopt] leave the other fields alone. *)
Lemma woken_frame ch p : let q := woken ch p in
  p_chan q = p_chan p ∧ p_pid q = p_pid p ∧ p_cwd q = p_cwd p ∧ p_ofile q = p_ofile p ∧ same_space p q.
Proof. by destruct (woken_cases ch p) as [(_ & _ & ->)|[_ ->]]. Qed.

Lemma adopt_frame cur init p : let q := adopt cur init p in
  p_state q = p_state p ∧ p_chan q = p_chan p ∧ p_pid q = p_pid p ∧
  p_cwd q = p_cwd p ∧ p_ofile q = p_ofile p ∧ same_space p q.
Proof. unfold adopt. by case_bool_decide. Qed.

(** What [exit] leaves of an entry, its own state apart. *)
Definition exit_entry cur par init (b : bool) (q : proc) : proc :=
  let q1 := adopt cur (Some init) (woken (proc_chan par) q) in
  if b then woken (ChProc init) q1 else q1.

(** The entries of the table after [exit]. *)
Lemma exit_table_lookup cur par init pt i p : pt !! i = Some p →
  exit_table cur par (Some init) pt !! i = Some
    (let q := exit_entry cur par init (existsb (zombie_child cur) pt) p in
     if decide (i = cur) then set_state ZOMBIE q else q).
Proof.
  intros Hi. unfold exit_table, exit_entry. rewrite reparent_eq_ref. unfold reparent_ref.
  rewrite wakeup1_fmap, existsb_woken.
  assert (∀ l : list proc, l !! i = Some p → woken (proc_chan par) <$> l !! i = Some (woken (proc_chan par) p)) as Hw.
  { by intros l ->. }
  destruct (decide (i = cur)) as [->|Hne].
  - rewrite list_lookup_alter_eq. destruct (existsb _ pt).
    + rewrite wakeup1_lookup, !list_lookup_fmap, Hw by done. done.
    + rewrite !list_lookup_fmap, Hw by done. done.
  - rewrite list_lookup_alter_ne by done. destruct (existsb _ pt).
    + rewrite wakeup1_lookup, !list_lookup_fmap, Hw by done. done.
    + rewrite !list_lookup_fmap, Hw by done. done.
Qed.

Lemma exit_entry_frame cur par init b q : let q' := exit_entry cur par init b q in
  p_pid q' = p_pid q ∧ p_cwd q' = p_cwd q ∧ p_ofile q' = p_ofile q ∧ same_space q q'.
Proof.
  unfold exit_entry, same_space in *.
  pose proof (woken_frame (proc_chan par) q) as H1.
  pose proof (adopt_frame cur (Some init) (woken (proc_chan par) q)) as H2.
  pose proof (woken_frame (ChProc init) (adopt cur (Some init) (woken (proc_chan par) q))) as H3.
  unfold same_space in *. simpl in *. destruct b; intuition congruence.
Qed.

Lemma exit_entry_parent cur par init b q :
  p_parent (exit_entry cur par init b q) =
  if decide (p_parent q = Some cur) then Some init else p_parent q.
Proof.
  unfold exit_entry. transitivity (p_parent (adopt cur (Some init) q)).
  - destruct b; rewrite ?woken_parent, adopt_woken, ?woken_parent; done.
  - unfold adopt. case_bool_decide; by case_decide.
Qed.

Lemma exit_entry_state cur par init b q :
  p_state (exit_entry cur par init b q) =
  if decide (p_state q = SLEEPING ∧
             (p_chan q = proc_chan par ∨ (p_chan q = ChProc init ∧ b = true)))
  then RUNNABLE else p_state q.
Proof.
  unfold exit_entry.
  pose proof (woken_frame (proc_chan par) q) as (H1 & _).
  pose proof (adopt_frame cur (Some init) (woken (proc_chan par) q)) as (H2 & H3 & _).
  simpl in *. destruct b; rewrite ?woken_state, H2, ?H3, woken_state, ?H1;
    repeat case_decide; intuition congruence.
Qed.

Lemma exit_run s cur init p :
  pt_ready s → ncli (pcpu s) = 0 → initproc s = Some init → init ≠ cur →
  ptable s !! cur = Some p → length (p_ofile p) = NOFILE → p_state p = RUNNING →
  ∃ s' p', exit me cur s = Err Swtch s' ∧ ptlock s' = Spinlock true (Some me) ∧
    R (ext s) (ext s') ∧ length (ptable s') = length (ptable s) ∧
    ptable s' !! cur = Some p' ∧ p_state p' = ZOMBIE ∧ p_cwd p' = 0 ∧
    p_ofile p' = replicate NOFILE 0 ∧ p_pid p' = p_pid p ∧ same_space p p' ∧
    ∀ i q, i ≠ cur → ptable s !! i = Some q → ∃ q', ptable s' !! i = Some q' ∧
      p_pid q' = p_pid q ∧ same_space q q' ∧
      p_parent q' = (if decide (p_parent q = Some cur) then Some init else p_parent q) ∧
      p_state q' =
        (if decide (p_state q = SLEEPING ∧
              (p_chan q = proc_chan (p_parent p) ∨
               (p_chan q = ChProc init ∧ existsb (zombie_child cur) (ptable s) = true)))
         then RUNNABLE else p_state q).
Proof.
  intros Hr Hn Hip Hic Hp Hofl Hst. pose proof Hr as [Hl Hc]. unfold exit.
  rewrite bind_gets, Hip, bool_decide_eq_false_2 by congruence.
  destruct (close_files_run cur NOFILE 0 s p) as (e1 & fs & Hcl & HR1 & Hlf & Hnil);
    [done|by rewrite Hofl|lia|].
  erewrite bind_ok by exact Hcl. clear Hcl.
  destruct (begin_op_returns e1) as (e2 & He2 & HR2). erewrite bind_lift by done.
  erewrite bind_proc_at by (simpl; apply list_lookup_insert_eq; by eapply lookup_lt_Some).
  destruct (iput_returns (p_cwd p) e2) as (e3 & He3 & HR3). erewrite bind_lift by done.
  destruct (end_op_returns e3) as (e4 & He4 & HR4). erewrite bind_lift by done.
  rewrite bind_upd. simpl ptable.
  erewrite alter_lookup_insert by (apply list_lookup_insert_eq; by eapply lookup_lt_Some).
  rewrite list_insert_insert_eq. rewrite bind_acquire by done.
  erewrite bind_proc_at by (simpl; apply list_lookup_insert_eq; by eapply lookup_lt_Some).
  rewrite bind_modify. simpl.
  set (p1 := set_cwd 0 (set_ofile fs p)). rewrite Hip.
  set (pt1 := <[cur := p1]> (ptable s)).
  assert (Hp1 : pt1 !! cur = Some p1) by (apply list_lookup_insert_eq; by eapply lookup_lt_Some).
  pose proof (exit_table_lookup cur (p_parent p) init pt1 cur p1 Hp1) as Hcur.
  rewrite decide_True in Hcur by done. simpl in Hcur.
  erewrite bind_err.
  2:{ eapply (sched_run me (pcpu s)); [done..| |]; simpl; [exact Hcur|done]. }
  eexists _, _. split; [reflexivity|]. simpl. split; [done|]. split.
  { do 3 (etransitivity; [eassumption|]). done. }
  split.
  { rewrite exit_table_length. unfold pt1. by rewrite length_insert. }
  split; [exact Hcur|].
  pose proof (exit_entry_frame cur (p_parent p) init (existsb (zombie_child cur) pt1) p1) as (F1 & F2 & F3 & F4).
  split; [done|]. split; [exact F2|]. split.
  { etransitivity; [exact F3|]. change (fs = replicate NOFILE 0). apply list_eq. intros j.
    destruct (decide (j < NOFILE)%nat).
    - rewrite Hnil by done. by rewrite lookup_replicate_2.
    - rewrite !lookup_ge_None_2; [done|rewrite length_replicate; lia|lia]. }
  split; [exact F1|]. split; [exact F4|]. intros i q Hi Hq.
  assert (Hq1 : pt1 !! i = Some q) by (unfold pt1; by rewrite list_lookup_insert_ne).
  rewrite (exit_table_lookup cur (p_parent p) init pt1 i q Hq1).
  rewrite decide_False by done.
  assert (Hz : existsb (zombie_child cur) pt1 = existsb (zombie_child cur) (ptable s)).
  { eapply existsb_insert_same; [exact Hp|]. unfold zombie_child. simpl. by rewrite Hst. }
  rewrite Hz. eexists. split; [reflexivity|].
  split; [apply exit_entry_frame|]. split; [apply exit_entry_frame|].
  split; [apply exit_entry_parent|apply exit_entry_state].
Qed.


Lemma wait_run s cur p :
  pt_ready s → ncli (pcpu s) = 0 → ptable s !! cur = Some p →
  (∀ i z, ptable s !! i = Some z → zombie_child cur z = true →
     ∃ e1 e2, k_kfree (p_kstack z) (ext s) = Ok tt e1 ∧ k_freevm (p_pgdir z) e1 = Ok tt e2) →
  (∃ i z s', ptable s !! i = Some z ∧ p_parent z = Some cur ∧ p_state z = ZOMBIE ∧
     (∀ j q, (j < i)%nat → ptable s !! j = Some q → zombie_child cur q = false) ∧
     wait me cur s = Ok (p_pid z) s' ∧ pt_ready s' ∧ ptable s' = <[i := reap z]> (ptable s) ∧
     ∃ e1, k_kfree (p_kstack z) (ext s) = Ok tt e1 ∧ k_freevm (p_pgdir z) e1 = Ok tt (ext s')) ∨
  ((∀ j q, ptable s !! j = Some q → zombie_child cur q = false) ∧
   (((¬ (∃ j q, ptable s !! j = Some q ∧ p_parent q = Some cur) ∨ p_killed p ≠ 0) ∧
    ∃ s', wait me cur s = Ok (-1) s' ∧ pt_ready s' ∧ ptable s' = ptable s ∧ ext s' = ext s) ∨
   ((∃ j q, ptable s !! j = Some q ∧ p_parent q = Some cur) ∧ p_killed p = 0 ∧
    ∃ s', wait me cur s = Err Swtch s' ∧ ptlock s' = Spinlock true (Some me) ∧ ext s' = ext s ∧
      ptable s' = <[cur := set_state SLEEPING (set_chan (ChProc cur) p)]> (ptable s)))).
Proof.
  intros Hr Hn Hp Hfree. pose proof Hr as [Hl Hc]. unfold wait.
  rewrite bind_acquire by done. unfold wait_round. rewrite bind_gets.
  change (ptable (lock_state me s)) with (ptable s).
  destruct (wait_scan cur (ptable s) 0 false) as [o hk] eqn:Hw.
  pose proof (wait_scan_spec cur _ _ _ _ _ Hw) as Hspec. destruct o as [i|].
  - left. cbv iota. destruct Hspec as (_ & (z & Hz & Hzp & Hzs) & Hlt). rewrite Nat.sub_0_r in *.
    erewrite bind_proc_at by exact Hz.
    destruct (Hfree i z Hz) as (e1 & e2 & He1 & He2).
    { unfold zombie_child. by rewrite !bool_decide_eq_true_2. }
    erewrite !bind_lift by done.
    rewrite bind_upd. simpl ptable. erewrite alter_lookup_insert by done.
    erewrite bind_release by (apply pt_held_ptable; by apply (pt_held_lock me s)).
    exists i, z. exists_final. split_and!; try done. by exists e1.
  - right. cbv iota. destruct Hspec as [Hz Hhk]. erewrite bind_proc_at by exact Hp.
    split; [done|].
    destruct (decide (p_killed p = 0)) as [Hk|Hk]; [destruct hk|].
    + right. rewrite (proj2 (Z.eqb_eq _ _) Hk). cbn [negb orb].
      split; [destruct (proj1 Hhk eq_refl) as [?|?]; done|]. split; [done|].
      unfold sleep. rewrite bind_assoc, bind_ret, bind_assoc, bind_upd, bind_assoc, bind_upd.
      cbn [ptable set_ptable]. rewrite (alter_lookup_insert (set_chan _) _ _ p) by exact Hp.
      erewrite alter_lookup_insert by (apply list_lookup_insert_eq; by eapply lookup_lt_Some).
      rewrite list_insert_insert_eq.
      erewrite bind_err.
      2:{ eapply (sched_run me (pcpu s)); [done..| |]; simpl;
          [apply list_lookup_insert_eq; by eapply lookup_lt_Some|done]. }
      by eexists.
    + left. rewrite (proj2 (Z.eqb_eq _ _) Hk). cbn [negb orb].
      erewrite bind_release by (by apply (pt_held_lock me s)).
      split.
      { left. intros Hch. discriminate (proj2 Hhk (or_intror Hch)). }
      exists_final. by split_and!.
    + left. rewrite (proj2 (Z.eqb_neq _ _) Hk), orb_true_r. simpl.
      erewrite bind_release by (by apply (pt_held_lock me s)).
      split; [by right|].
      exists_final. by split_and!.
Qed.

(** C26. [wait] on every branch.  If the caller has a zombie child, the first
    one in the table is freed, its stack and address space are released and its
    pid is returned, provided that the allocator takes the two back.  If it has no child, or has been killed and has no zombie
    child, the result is -1 and the table is unchanged.  Otherwise the caller
    goes to sleep on its own channel, holding [ptable.lock] up to the switch.
    Nothing else happens, and no branch panics. *)
Theorem wait_correct s cur p :
  pt_ready s → ncli (pcpu s) = 0 → ptable s !! cur = Some p →
  (∀ i z, ptable s !! i = Some z → zombie_child cur z = true →
     ∃ e1 e2, k_kfree (p_kstack z) (ext s) = Ok tt e1 ∧ k_freevm (p_pgdir z) e1 = Ok tt e2) →
  (∃ i z s', ptable s !! i = Some z ∧ p_parent z = Some cur ∧ p_state z = ZOMBIE ∧
     (∀ j q, (j < i)%nat → ptable s !! j = Some q → zombie_child cur q = false) ∧
     wait me cur s = Ok (p_pid z) s' ∧ pt_ready s' ∧ ptable s' = <[i := reap z]> (ptable s) ∧
     ∃ e1, k_kfree (p_kstack z) (ext s) = Ok tt e1 ∧ k_freevm (p_pgdir z) e1 = Ok tt (ext s')) ∨
  ((∀ j q, ptable s !! j = Some q → zombie_child cur q = false) ∧
   (((¬ (∃ j q, ptable s !! j = Some q ∧ p_parent q = Some cur) ∨ p_killed p ≠ 0) ∧
    ∃ s', wait me cur s = Ok (-1) s' ∧ pt_ready s' ∧ ptable s' = ptable s ∧ ext s' = ext s) ∨
   ((∃ j q, ptable s !! j = Some q ∧ p_parent q = Some cur) ∧ p_killed p = 0 ∧
    ∃ s', wait me cur s = Err Swtch s' ∧ ptlock s' = Spinlock true (Some me) ∧ ext s' = ext s ∧
      ptable s' = <[cur := set_state SLEEPING (set_chan (ChProc cur) p)]> (ptable s)))).
Proof. apply wait_run. Qed.

(** [dup_files] copies the descriptors into a slot that has none from [i] on. *)
Lemma dup_files_run np : ∀ fds i s q,
  ptable s !! np = Some q → (i + length fds = length (p_ofile q))%nat →
  (∀ j, (i ≤ j < length (p_ofile q))%nat → p_ofile q !! j = Some 0) →
  ∃ e', dup_files fds np i s = Ok tt (set_ext e' (set_ptable
      (<[np := set_ofile (take i (p_ofile q) ++ fds) q]> (ptable s)) s)) ∧ R (ext s) e'.
Proof.
  induction fds as [|f fds IH]; intros i s q Hq Hlen Hz; simpl in *.
  { exists (ext s). rewrite take_ge, app_nil_r by lia.
    rewrite list_insert_id by (by destruct q). split; [by destruct s|done]. }
  assert (Hi : p_ofile q !! i = Some 0) by (apply Hz; lia).
  destruct (Z.eqb_spec f 0) as [->|Hne].
  - rewrite bind_ret. destruct (IH (S i) s q) as (e' & Hrun & HR); [done|lia|intros; apply Hz; lia|].
    exists e'. rewrite Hrun, (take_S_r _ _ 0), <-app_assoc by done. done.
  - destruct (filedup_returns f (ext s)) as (e1 & He1 & HR1).
    erewrite bind_assoc, bind_lift, bind_upd by done. cbn [ptable set_ext].
    erewrite alter_lookup_insert by done.
    match goal with |- context [dup_files fds np (S i) ?s1] =>
      destruct (IH (S i) s1 (set_ofile (<[i := f]> (p_ofile q)) q)) as (e' & Hrun & HR) end.
    + simpl. apply list_lookup_insert_eq. by eapply lookup_lt_Some.
    + simpl. rewrite length_insert. lia.
    + simpl. intros j. rewrite length_insert. intros Hj.
      rewrite list_lookup_insert_ne by lia. apply Hz. lia.
    + exists e'. rewrite Hrun. simpl. rewrite list_insert_insert_eq.
      rewrite (take_S_r _ _ f) by (apply list_lookup_insert_eq; lia).
      rewrite take_insert_ge by lia. rewrite <-app_assoc. split; [done|]. by etransitivity.
Qed.

(** The kernel stack that [allocproc] builds: the trap frame at its top, below it
    the address [tr] that [forkret] returns to, and the context. *)
Definition new_stack (tr : Z) (s : pst E) (q : proc) : Prop :=
  p_tf q = u32 (u32 (p_kstack q + KSTACKSIZE) - sizeof_trapframe) ∧
  p_context q = u32 (u32 (p_tf q - 4) - sizeof_context) ∧
  stackw s !! u32 (p_tf q - 4) = Some tr.

(** [allocproc] when there is a free slot and a page for the stack. *)
Lemma allocproc_run fk tr s np q ks e1 : pt_ready s →
  find_index is_unused (ptable s) = Some np → ptable s !! np = Some q →
  k_kalloc (ext s) = Ok ks e1 → ks ≠ 0 →
  ∃ s' q', allocproc me fk tr s = Ok (Some np) s' ∧ pt_ready s' ∧
    nextpid s' = s32 (nextpid s + 1) ∧ ext s' = e1 ∧
    ptable s' = <[np := q']> (ptable s) ∧ frames s' = frames s ∧
    p_kstack q' = ks ∧ p_pid q' = nextpid s ∧ p_ofile q' = p_ofile q ∧
    p_name q' = p_name q ∧ p_killed q' = p_killed q ∧
    contexts s' !! p_context q' = Some (Context 0 0 0 0 fk) ∧ new_stack tr s' q'.
Proof.
  intros Hr Hnp Hq Hka Hks. pose proof Hr as [Hl Hcpu].
  assert (Hlt : (np < length (ptable s))%nat) by (by eapply lookup_lt_Some).
  unfold allocproc. rewrite bind_acquire, bind_gets by done.
  cbn [ptable set_ptlock lock_state]. rewrite Hnp, bind_upd, bind_gets, bind_upd, bind_modify.
  cbn [ptable set_ptlock lock_state nextpid set_ptable].
  rewrite (alter_lookup_insert (set_state _) _ _ q) by done.
  erewrite alter_lookup_insert by (by apply list_lookup_insert_eq).
  rewrite list_insert_insert_eq.
  erewrite (bind_release me (pcpu s)) by (by split_and!).
  erewrite bind_lift by exact Hka. rewrite bind_upd.
  rewrite (proj2 (Z.eqb_neq _ _) Hks), !bind_upd, !bind_modify, bind_upd, bind_modify.
  cbn [ptable set_ptable set_nextpid set_ext unlock_state set_ptlock set_stackw].
  rewrite (alter_lookup_insert (set_kstack _) _ _ (set_pid (nextpid s) (set_state EMBRYO q)))
    by (by apply list_lookup_insert_eq).
  rewrite list_insert_insert_eq.
  rewrite (alter_lookup_insert (set_tf _) _ _ (set_kstack ks (set_pid (nextpid s) (set_state EMBRYO q))))
    by (by apply list_lookup_insert_eq).
  rewrite list_insert_insert_eq.
  erewrite alter_lookup_insert by (by apply list_lookup_insert_eq).
  rewrite list_insert_insert_eq. exists_final.
  eexists. split; [reflexivity|]. split; [by apply (pt_ready_unlock (pcpu s))|].
  do 2 (split; [done|]). split; [reflexivity|]. unfold new_stack. simpl.
  rewrite !lookup_insert_eq. by split_and!.
Qed.

(** ... when every slot is in use, and when there is no page for the stack. *)
Lemma allocproc_full fk tr s : pt_ready s → find_index is_unused (ptable s) = None →
  ∃ s', allocproc me fk tr s = Ok None s' ∧ pt_ready s' ∧ ptable s' = ptable s ∧ ext s' = ext s.
Proof.
  intros Hr Hnp. pose proof Hr as [Hl Hcpu]. unfold allocproc. rewrite bind_acquire, bind_gets by done.
  cbn [ptable set_ptlock lock_state]. rewrite Hnp.
  erewrite (bind_release me (pcpu s)) by (by split_and!).
  exists_final. split; [reflexivity|]. split; [by apply (pt_ready_unlock (pcpu s))|done].
Qed.

Lemma allocproc_nomem fk tr s np q e1 : pt_ready s →
  find_index is_unused (ptable s) = Some np → ptable s !! np = Some q → k_kalloc (ext s) = Ok 0 e1 →
  ∃ s' q', allocproc me fk tr s = Ok None s' ∧ pt_ready s' ∧ ext s' = e1 ∧
    ptable s' = <[np := q']> (ptable s) ∧ p_state q' = UNUSED.
Proof.
  intros Hr Hnp Hq Hka. pose proof Hr as [Hl Hcpu].
  assert (Hlt : (np < length (ptable s))%nat) by (by eapply lookup_lt_Some).
  unfold allocproc. rewrite bind_acquire, bind_gets by done.
  cbn [ptable set_ptlock lock_state]. rewrite Hnp, bind_upd, bind_gets, bind_upd, bind_modify.
  cbn [ptable set_ptlock lock_state nextpid set_ptable].
  rewrite (alter_lookup_insert (set_state _) _ _ q) by done.
  erewrite alter_lookup_insert by (by apply list_lookup_insert_eq).
  rewrite list_insert_insert_eq.
  erewrite (bind_release me (pcpu s)) by (by split_and!).
  erewrite bind_lift by exact Hka. rewrite bind_upd, Z.eqb_refl, bind_upd.
  cbn [ptable set_ptable set_nextpid set_ext unlock_state set_ptlock].
  erewrite (alter_lookup_insert (set_kstack _)) by (by apply list_lookup_insert_eq).
  rewrite list_insert_insert_eq. erewrite alter_lookup_insert by (by apply list_lookup_insert_eq).
  rewrite list_insert_insert_eq. exists_final. eexists. split; [reflexivity|].
  split; [by apply (pt_ready_unlock (pcpu s))|]. split; [done|]. by split.
Qed.

(** [fork] when the address space cannot be copied: the stack is given back. *)
Lemma fork_nocopy fk tr s cur (c : proc) np q ks e1 e2 e3 :
  pt_ready s → ptable s !! cur = Some c → p_state c = RUNNING →
  find_index is_unused (ptable s) = Some np → ptable s !! np = Some q →
  k_kalloc (ext s) = Ok ks e1 → ks ≠ 0 →
  k_copyuvm (p_pgdir c) (p_sz c) e1 = Ok 0 e2 → k_kfree ks e2 = Ok tt e3 →
  ∃ s' q', fork me fk tr cur s = Ok (-1) s' ∧ pt_ready s' ∧ ext s' = e3 ∧
    ptable s' = <[np := q']> (ptable s) ∧ p_state q' = UNUSED.
Proof.
  intros Hr Hc Hcs Hnp Hq Hka Hks Hcp Hkf.
  assert (Hne : np ≠ cur).
  { intros ->. apply find_index_Some in Hnp as ((q' & Hq' & Hu) & _).
    unfold is_unused in Hu. rewrite bool_decide_eq_true in Hu. congruence. }
  assert (Hlt : (np < length (ptable s))%nat) by (by eapply lookup_lt_Some).
  destruct (allocproc_run fk tr s np q ks e1) as (s1 & q1 & Hal & Hr1 & _ & He1 & Hpt1 & _ & Hk1 & _);
    [done..|].
  unfold fork. erewrite bind_ok by exact Hal. cbv iota.
  erewrite bind_proc_at by (rewrite Hpt1; by rewrite list_lookup_insert_ne).
  erewrite bind_lift by (rewrite He1; exact Hcp).
  rewrite bind_upd. cbn [ptable set_ext]. rewrite Hpt1.
  rewrite (alter_lookup_insert _ _ _ q1) by (by apply list_lookup_insert_eq).
  rewrite list_insert_insert_eq.
  erewrite bind_proc_at by (by apply list_lookup_insert_eq). rewrite Z.eqb_refl.
  erewrite bind_lift by (cbn [p_kstack set_pgdir ext set_ptable set_ext]; rewrite Hk1; exact Hkf).
  rewrite !bind_upd. cbn [ptable set_ext set_ptable].
  erewrite (alter_lookup_insert (set_kstack _)) by (by apply list_lookup_insert_eq).
  rewrite list_insert_insert_eq. erewrite alter_lookup_insert by (by apply list_lookup_insert_eq).
  rewrite list_insert_insert_eq. exists_final. eexists. split; [reflexivity|].
  split; [done|]. split; [done|]. by split.
Qed.

Lemma fork_run fk tr s cur (c : proc) np q f ks pg nm e1 e2 :
  pt_ready s → ptable s !! cur = Some c → p_state c = RUNNING →
  find_index is_unused (ptable s) = Some np → ptable s !! np = Some q →
  p_ofile q = replicate NOFILE 0 → length (p_ofile c) = NOFILE →
  frames s !! p_tf c = Some f →
  k_kalloc (ext s) = Ok ks e1 → ks ≠ 0 →
  k_copyuvm (p_pgdir c) (p_sz c) e1 = Ok pg e2 → pg ≠ 0 →
  safestrcpy (p_name q) (p_name c) 16 = Some nm →
  ∃ s' n, fork me fk tr cur s = Ok (nextpid s) s' ∧ pt_ready s' ∧ R e2 (ext s') ∧
    nextpid s' = s32 (nextpid s + 1) ∧ ptable s' = <[np := n]> (ptable s) ∧
    p_state n = RUNNABLE ∧ p_pid n = nextpid s ∧ p_parent n = Some cur ∧
    p_sz n = p_sz c ∧ p_pgdir n = pg ∧ p_kstack n = ks ∧ p_ofile n = p_ofile c ∧
    p_cwd n = p_cwd c ∧ p_name n = nm ∧ p_killed n = p_killed q ∧
    frames s' !! p_tf n = Some (clear_eax f) ∧
    contexts s' !! p_context n = Some (Context 0 0 0 0 fk) ∧ new_stack tr s' n.
Proof.
  intros Hr Hc Hcs Hnp Hq Hqo Hco Hf Hka Hks Hcp Hpg Hnm.
  assert (Hne : np ≠ cur).
  { intros ->. apply find_index_Some in Hnp as ((q' & Hq' & Hu) & _).
    unfold is_unused in Hu. rewrite bool_decide_eq_true in Hu. congruence. }
  assert (Hlt : (np < length (ptable s))%nat) by (by eapply lookup_lt_Some).
  destruct (allocproc_run fk tr s np q ks e1) as (s1 & q1 & Hal & Hr1 & Hn1 & He1 & Hpt1 & Hfr1 &
    Hk1 & Hpid1 & Hof1 & Hnm1 & Hkl1 & Hcx1 & Hst1); [done..|].
  unfold fork. erewrite bind_ok by exact Hal. cbv iota.
  erewrite bind_proc_at by (rewrite Hpt1; by rewrite list_lookup_insert_ne).
  erewrite bind_lift by (rewrite He1; exact Hcp).
  rewrite bind_upd. cbn [ptable set_ext]. rewrite Hpt1.
  rewrite (alter_lookup_insert _ _ _ q1) by (by apply list_lookup_insert_eq).
  rewrite list_insert_insert_eq.
  erewrite bind_proc_at by (by apply list_lookup_insert_eq).
  rewrite (proj2 (Z.eqb_neq _ _) Hpg), !bind_upd. cbn [ptable set_ext set_ptable].
  rewrite (alter_lookup_insert (set_sz _) _ _ (set_pgdir pg q1)) by (by apply list_lookup_insert_eq).
  rewrite list_insert_insert_eq.
  erewrite alter_lookup_insert by (by apply list_lookup_insert_eq).
  rewrite list_insert_insert_eq.
  unfold frame_at. rewrite bind_assoc, bind_gets. cbn [frames set_ext set_ptable].
  rewrite Hfr1, Hf. unfold deref. rewrite bind_ret, !bind_modify.
  match goal with |- context [bind (dup_files _ np 0) _ ?s2] =>
    destruct (dup_files_run np (p_ofile c) 0 s2
      (set_parent (Some cur) (set_sz (p_sz c) (set_pgdir pg q1)))) as (e3 & Hd & HR3) end.
  { simpl. by apply list_lookup_insert_eq. }
  { simpl. by rewrite Hof1, Hqo. }
  { simpl. rewrite Hof1, Hqo. intros j [_ Hj]. rewrite length_replicate in Hj.
    by apply lookup_replicate_2. }
  erewrite bind_ok by exact Hd. clear Hd. simpl p_ofile. rewrite take_0, app_nil_l.
  destruct (idup_returns (p_cwd c) e3) as (e4 & He4 & HR4). erewrite bind_lift by done.
  rewrite bind_upd. cbn [ptable set_ext set_ptable set_frame]. rewrite list_insert_insert_eq.
  erewrite alter_lookup_insert by (by apply list_lookup_insert_eq).
  rewrite list_insert_insert_eq. simpl p_name at 1. rewrite Hnm1, Hnm, bind_ret, bind_upd.
  cbn [ptable set_ext set_ptable set_frame].
  erewrite alter_lookup_insert by (by apply list_lookup_insert_eq).
  rewrite list_insert_insert_eq. rewrite bind_acquire by exact Hr1. rewrite bind_upd.
  cbn [ptable set_ext set_ptable set_frame lock_state set_ptlock].
  erewrite alter_lookup_insert by (by apply list_lookup_insert_eq).
  rewrite list_insert_insert_eq.
  destruct Hr1 as [Hl1 Hc1].
  erewrite (bind_release me (pcpu s1)) by done. simpl p_pid. rewrite Hpid1.
  exists_final. eexists. split; [reflexivity|]. split; [by apply pt_ready_unlock|].
  split; [by etransitivity|]. split; [done|]. split; [reflexivity|]. unfold new_stack in *. simpl.
  rewrite lookup_insert_eq. by destruct Hst1 as (? & ? & ?); split_and!.
Qed.

(** [fork] when the table has a free slot and memory does not run out:
    it returns the next pid, which is used up; the first free slot, and no
    other, becomes a runnable child of the caller with that pid, the same size,
    open files and current directory, the copied address space, and a trap
    frame that is the caller's except that it returns 0.  The slot's [killed]
    flag is the one the slot had before. *)
Theorem fork_correct fk tr s cur (c : proc) np q f ks pg nm e1 e2 :
  pt_ready s → ptable s !! cur = Some c → p_state c = RUNNING →
  find_index is_unused (ptable s) = Some np → ptable s !! np = Some q →
  p_ofile q = replicate NOFILE 0 → length (p_ofile c) = NOFILE →
  frames s !! p_tf c = Some f →
  k_kalloc (ext s) = Ok ks e1 → ks ≠ 0 →
  k_copyuvm (p_pgdir c) (p_sz c) e1 = Ok pg e2 → pg ≠ 0 →
  safestrcpy (p_name q) (p_name c) 16 = Some nm →
  ∃ s' n, fork me fk tr cur s = Ok (nextpid s) s' ∧ pt_ready s' ∧ R e2 (ext s') ∧
    nextpid s' = s32 (nextpid s + 1) ∧ ptable s' = <[np := n]> (ptable s) ∧
    p_state n = RUNNABLE ∧ p_pid n = nextpid s ∧ p_parent n = Some cur ∧
    p_sz n = p_sz c ∧ p_pgdir n = pg ∧ p_kstack n = ks ∧ p_ofile n = p_ofile c ∧
    p_cwd n = p_cwd c ∧ p_name n = nm ∧ p_killed n = p_killed q ∧
    frames s' !! p_tf n = Some (clear_eax f) ∧
    contexts s' !! p_context n = Some (Context 0 0 0 0 fk) ∧ new_stack tr s' n.
Proof. intros. by eapply fork_run. Qed.

(** The flag that [kill(0)] leaves behind.  Free slots have pid 0, so
    [kill(0)] succeeds as soon as the table has a free slot that no live entry
    of pid 0 precedes; it marks that slot, and the next process [fork] creates
    there is born killed, although nobody killed it. *)
Theorem kill_zero_kills_next_child fk tr s cur (c : proc) np q f ks pg nm e1 e2 :
  pt_ready s → ptable s !! cur = Some c → p_state c = RUNNING →
  find_index is_unused (ptable s) = Some np → ptable s !! np = Some q →
  find_index (has_pid 0) (ptable s) = Some np →
  p_ofile q = replicate NOFILE 0 → length (p_ofile c) = NOFILE →
  frames s !! p_tf c = Some f →
  k_kalloc (ext s) = Ok ks e1 → ks ≠ 0 →
  k_copyuvm (p_pgdir c) (p_sz c) e1 = Ok pg e2 → pg ≠ 0 →
  safestrcpy (p_name q) (p_name c) 16 = Some nm →
  ∃ s1 s2 n, kill me 0 s = Ok 0 s1 ∧ fork me fk tr cur s1 = Ok (nextpid s) s2 ∧
    ptable s2 !! np = Some n ∧ p_state n = RUNNABLE ∧ p_parent n = Some cur ∧ p_killed n = 1.
Proof.
  intros Hr Hc Hcs Hnp Hq Hpid Hqo Hco Hf Hka Hks Hcp Hpg Hnm.
  destruct (kill_run me s 0 Hr) as (s1 & Hr1 & Hip & Hnx & Hex & Hfr & Hk). rewrite Hpid in Hk.
  destruct Hk as (q' & Hq' & Hrun & Hpt). assert (q' = q) as -> by congruence.
  pose proof (find_index_Some _ _ _ Hnp) as ((q' & Hq2 & Hu) & Hlt).
  assert (q' = q) as -> by congruence. unfold is_unused in Hu. rewrite bool_decide_eq_true in Hu.
  assert (Hkp : killed_proc q = set_killed 1 q)
    by (unfold killed_proc; by rewrite Hu).
  assert (Hne : np ≠ cur) by (intros ->; congruence).
  assert (Hnlt : (np < length (ptable s))%nat) by (by eapply lookup_lt_Some).
  rewrite Hkp in Hpt.
  destruct (fork_run fk tr s1 cur c np (set_killed 1 q) f ks pg nm e1 e2)
    as (s2 & n & Hfk & _ & _ & _ & Hpt2 & Hn1 & _ & Hn3 & _ & _ & _ & _ & _ & _ & Hkl & _); try done.
  - rewrite Hpt. by rewrite list_lookup_insert_ne.
  - rewrite Hpt. rewrite <-(alter_lookup_insert (set_killed 1)) by done.
    unfold find_index. by rewrite scan_alter_same.
  - rewrite Hpt. by apply list_lookup_insert_eq.
  - by rewrite Hfr.
  - by rewrite Hex.
  - exists s1, s2, n. rewrite Hnx in Hfk. split_and!; try done.
    rewrite Hpt2. apply list_lookup_insert_eq. rewrite Hpt. by rewrite length_insert.
Qed.

End proc_spec.

#[local] Instance bump_fs_returns : fs_returns Z (λ _ _, True).
Proof. split; [by split|intros; by eexists..]. Qed.

Lemma kill_correct_witness : ∃ r s', kill 0 2 demo_state = Ok r s' ∧ pt_ready s' ∧
  ((r = 0 ∧ ∃ i p, ptable demo_state !! i = Some p ∧ p_pid p = 2 ∧
      (∀ j q, (j < i)%nat → ptable demo_state !! j = Some q → p_pid q ≠ 2) ∧
      ptable s' = <[i := killed_proc p]> (ptable demo_state)) ∨
   (r = -1 ∧ (∀ j q, ptable demo_state !! j = Some q → p_pid q ≠ 2) ∧
    ptable s' = ptable demo_state)).
Proof. exact (kill_correct 0 demo_state 2 demo_ready). Defined.


Lemma wait_correct_witness : ∃ s', wait 0 1 demo_state = Ok 3 s' ∧
  ptable s' = <[2%nat := reap (demo_proc ZOMBIE 3 (Some 1%nat))]> (ptable demo_state).
Proof.
  destruct (wait_correct 0 demo_state 1 (demo_proc RUNNING 2 (Some 0%nat)) demo_ready)
    as [(i & z & s' & Hi & Hp & Hz & Hlt & Hrun & _ & Hpt & _)|[Hn _]]; [done..|by eexists _, _| |].
  - assert (i = 2%nat) as ->.
    { destruct i as [|[|[|[|i]]]]; simpl in Hi; simplify_eq; try done. }
    simpl in Hi. simplify_eq. exists s'. done.
  - by specialize (Hn 2%nat _ eq_refl).
Defined.

Lemma fork_correct_witness : ∃ s' n, fork 0 7 9 1 demo_state = Ok 4 s' ∧
  ptable s' = <[3%nat := n]> (ptable demo_state) ∧ p_state n = RUNNABLE ∧ p_parent n = Some 1%nat.
Proof.
  destruct (fork_correct 0 7 9 demo_state 1 (demo_proc RUNNING 2 (Some 0%nat)) 3 zero_proc
      demo_frame 4096 8192 (replicate 16 0) 4096 4096)
    as (s' & n & H1 & _ & _ & _ & H2 & H3 & _ & H4 & _); [exact demo_ready|vm_compute; done..|].
  exists s', n. exact (conj H1 (conj H2 (conj H3 H4))).
Defined.

Lemma kill_zero_kills_next_child_witness : ∃ s1 s2 n, kill 0 0 demo_state = Ok 0 s1 ∧
  fork 0 7 9 1 s1 = Ok 4 s2 ∧ ptable s2 !! 3%nat = Some n ∧ p_killed n = 1.
Proof.
  destruct (kill_zero_kills_next_child 0 7 9 demo_state 1 (demo_proc RUNNING 2 (Some 0%nat)) 3
      zero_proc demo_frame 4096 8192 (replicate 16 0) 4096 4096)
    as (s1 & s2 & n & H1 & H2 & H3 & _ & _ & H4); [exact demo_ready|vm_compute; done..|].
  exists s1, s2, n. exact (conj H1 (conj H2 (conj H3 H4))).
Defined.
