(* ===== verification/Sched.v ===== *)
(** The scheduler: proc.c [scheduler] on several CPUs

    Everything the kernel does to the process table happens while
    [ptable.lock] is held, so a run of the machine is a sequence of such atomic
    sections.  [sys] is the table together with what each CPU is doing: the
    process it runs ([c->proc]) and the position its loop in [scheduler] has
    reached.  [action] lists the sections, [act] executes one.

    [act] uses the table functions of [Proc]; a [fork] is two sections, the
    allocation of a slot in [allocproc] and the commit (or the clean-up after a
    failure), between which other CPUs may run. *)

From stdpp Require Import gmap list numbers strings relations.
From Stdlib Require Import ZArith Lia.
From S2P Require Import Prelude Memlayout StringC Cpu ProcData Rbtree Proc ProcSpec.

(** A CPU: [c->proc], and the index at which its scan of the table goes on. *)
Record cpu_sched := CpuSched {
  c_proc : option nat;
  c_pos : nat
}.

Record sys := Sys {
  pt : list proc;
  cpus : list cpu_sched;
  init : nat;
  npid : Z;
  pend : gmap nat nat      (* forks in progress: parent to child *)
}.

Inductive action : Type :=
| SchedRun (c : nat)             (* the loop finds a RUNNABLE process *)
| SchedWrap (c : nat)            (* it reaches the end of the table *)
| AYield (c : nat)
| ASleep (c : nat) (ch : chanptr)
| AResume (c : nat)              (* the end of [sleep] *)
| AExit (c : nat)
| AReap (c : nat)                (* [wait] finds a zombie child *)
| AWakeup (ch : chanptr)
| AKill (pid : Z)
| AForkAlloc (c : nat)
| AForkFail (c : nat)
| AForkCommit (c : nat).

(** The scan of [scheduler] from position [pos]. *)
Definition pick (pos : nat) (t : list proc) : option nat := scan is_runnable (drop pos t) pos.

Definition set_pt (t : list proc) (s : sys) : sys := Sys t (cpus s) (init s) (npid s) (pend s).
Definition set_cpu (c : nat) (x : cpu_sched) (s : sys) : sys :=
  Sys (pt s) (<[c := x]> (cpus s)) (init s) (npid s) (pend s).
Definition set_pend (m : gmap nat nat) (s : sys) : sys := Sys (pt s) (cpus s) (init s) (npid s) m.

(** The process that runs on CPU [c]. *)
Definition current (s : sys) (c : nat) : option nat := x ← cpus s !! c; c_proc x.

(** CPU [c] gives up its process: [sched] switched to [scheduler], which
    clears [c->proc] and goes on with its loop. *)
Definition idle (c : nat) (s : sys) : sys :=
  match cpus s !! c with
  | Some x => set_cpu c (CpuSched None (c_pos x)) s
  | None => s
  end.

Definition act (a : action) (s : sys) : option sys :=
  match a with
  | SchedRun c =>
      x ← cpus s !! c;
      match c_proc x with
      | Some _ => None
      | None =>
          j ← pick (c_pos x) (pt s);
          Some (set_cpu c (CpuSched (Some j) (S j)) (set_pt (alter (set_state RUNNING) j (pt s)) s))
      end
  | SchedWrap c =>
      x ← cpus s !! c;
      match c_proc x, pick (c_pos x) (pt s) with
      | None, None => Some (set_cpu c (CpuSched None 0) s)
      | _, _ => None
      end
  | AYield c =>
      i ← current s c;
      Some (idle c (set_pt (alter (set_state RUNNABLE) i (pt s)) s))
  | ASleep c ch =>
      i ← current s c;
      Some (idle c (set_pt (alter (λ p, set_state SLEEPING (set_chan ch p)) i (pt s)) s))
  | AResume c =>
      i ← current s c;
      Some (set_pt (alter (set_chan ChNull) i (pt s)) s)
  | AExit c =>
      i ← current s c;
      if decide (i = init s ∨ is_Some (pend s !! i)) then None
      else
        p ← pt s !! i;
        Some (idle c (set_pt (exit_table i (p_parent p) (Some (init s)) (pt s)) s))
  | AReap c =>
      i ← current s c;
      match wait_scan i (pt s) 0 false with
      | (Some j, _) => Some (set_pt (alter reap j (pt s)) s)
      | (None, _) => None
      end
  | AWakeup ch => Some (set_pt (wakeup1 ch (pt s)) s)
  | AKill pid =>
      match kill_table pid (pt s) with
      | Some t => Some (set_pt t s)
      | None => Some s
      end
  | AForkAlloc c =>
      (* C leaves the overflow of [nextpid] undefined *)
      i ← current s c;
      if decide (is_Some (pend s !! i) ∨ 2147483647 ≤ npid s) then None
      else
        j ← find_index is_unused (pt s);
        Some (Sys (alter (λ p, set_pid (npid s) (set_state EMBRYO p)) j (pt s))
                  (cpus s) (init s) (npid s + 1) (<[i := j]> (pend s)))
  | AForkFail c =>
      i ← current s c;
      j ← pend s !! i;
      Some (set_pend (delete i (pend s))
             (set_pt (alter (λ p, set_state UNUSED (set_kstack 0 p)) j (pt s)) s))
  | AForkCommit c =>
      i ← current s c;
      j ← pend s !! i;
      Some (set_pend (delete i (pend s))
             (set_pt (alter (λ p, set_state RUNNABLE (set_parent (Some i) p)) j (pt s)) s))
  end.

Definition step (s s' : sys) : Prop := ∃ a, act a s = Some s'.

(** The machine after [userinit]: init is runnable in slot 0, every other slot
    is free and every CPU enters [scheduler]. *)
Definition boot (n : nat) : sys :=
  Sys (set_pid 1 (set_state RUNNABLE zero_proc) :: replicate (NPROC - 1) zero_proc)
      (replicate n (CpuSched None 0)) 0 2 ∅.

(** ** The invariant *)

(** What other processes can tell about an entry: which phase of its life it
    is in, its pid and its parent. *)
Inductive phase := Free | Embryo | Alive | Zombie.
#[global] Instance phase_eq_dec : EqDecision phase.
Proof. solve_decision. Defined.

Definition phase_of (p : proc) : phase :=
  match p_state p with
  | UNUSED => Free
  | EMBRYO => Embryo
  | SLEEPING | RUNNABLE | RUNNING => Alive
  | ZOMBIE => Zombie
  end.

Definition view (p : proc) : phase * Z * option nat := (phase_of p, p_pid p, p_parent p).

(** The family tree and the pids. *)
Record family_ok (v : list (phase * Z * option nat)) (ini : nat) (n : Z) (pd : gmap nat nat) : Prop := {
  init_alive : ∃ pid par, v !! ini = Some (Alive, pid, par);
  pids_range : ∀ i ph pid par, v !! i = Some (ph, pid, par) → ph ≠ Free → 0 < pid < n;
  pids_distinct : ∀ i j ph ph' pid par par', v !! i = Some (ph, pid, par) →
    v !! j = Some (ph', pid, par') → ph ≠ Free → ph' ≠ Free → i = j;
  parents_alive : ∀ i ph pid par, v !! i = Some (ph, pid, par) → i ≠ ini →
    ph = Alive ∨ ph = Zombie →
    ∃ j pid' par', par = Some j ∧ v !! j = Some (Alive, pid', par');
  no_parent : ∀ i ph pid par, v !! i = Some (ph, pid, par) → ph = Free ∨ ph = Embryo → par = None;
  pend_ok : ∀ i j, pd !! i = Some j →
    (∃ pid par, v !! i = Some (Alive, pid, par)) ∧ (∃ pid par, v !! j = Some (Embryo, pid, par));
  pend_inj : ∀ i i' j, pd !! i = Some j → pd !! i' = Some j → i = i'
}.

(** Who runs where. *)
Record running_ok (t : list proc) (cs : list cpu_sched) : Prop := {
  running_iff : ∀ i p, t !! i = Some p →
    (p_state p = RUNNING ↔ ∃ c x, cs !! c = Some x ∧ c_proc x = Some i);
  one_cpu : ∀ c c' x x' i, cs !! c = Some x → cs !! c' = Some x' →
    c_proc x = Some i → c_proc x' = Some i → c = c';
  cur_in_table : ∀ c x i, cs !! c = Some x → c_proc x = Some i → (i < length t)%nat;
  pos_in_table : ∀ c x, cs !! c = Some x → (c_pos x ≤ length t)%nat
}.

Definition sys_inv (s : sys) : Prop :=
  length (pt s) = NPROC ∧ family_ok (view <$> pt s) (init s) (npid s) (pend s) ∧
  running_ok (pt s) (cpus s).

(** ** Preservation *)

(** Look up through an insertion, in hypotheses and in the goal. *)
Ltac vcase :=
  repeat match goal with
  | H : <[_ := _]> _ !! _ = Some _ |- _ =>
      let Hn := fresh "Hneq" in
      apply list_lookup_insert_Some in H as [(<- & H & _)|(Hn & H)]
  | H : (_, _) = (_, _) |- _ => injection H as ???; subst
  end.

Section family.
Context (v : list (phase * Z * option nat)) (ini : nat) (n : Z) (pd : gmap nat nat).
Hypothesis Hok : family_ok v ini n pd.

(** An entry that stays as it is when another one is written. *)
Lemma keep_alive j w i pid par : v !! i = Some (Alive, pid, par) →
  (∃ ph' pid' par', v !! j = Some (ph', pid', par') ∧ ph' ≠ Alive) →
  <[j := w]> v !! i = Some (Alive, pid, par).
Proof.
  intros Hi (ph' & pid' & par' & Hj & Hne). rewrite list_lookup_insert_ne; [done|].
  intros ->. rewrite Hi in Hj. by injection Hj as <- <- <-.
Qed.

Lemma family_alloc i j pid par pid' par' : v !! j = Some (Free, pid, par) →
  v !! i = Some (Alive, pid', par') → pd !! i = None →
  family_ok (<[j := (Embryo, n, None)]> v) ini (n + 1) (<[i := j]> pd).
Proof.
  intros Hj Hi Hpd. destruct Hok as [(ip & ipar & Hini) Hr Hd Hp Hnp Hpe Hpi].
  assert (Hn : 0 < n) by (pose proof (Hr _ _ _ _ Hini ltac:(done)); lia).
  assert (Hjne : ∃ ph' p' par', v !! j = Some (ph', p', par') ∧ ph' ≠ Alive) by eauto.
  assert (Hjlt : (j < length v)%nat) by (by eapply lookup_lt_Some).
  split.
  - exists ip, ipar. by apply keep_alive.
  - intros k ph q pr Hk Hne. vcase; [lia|]. pose proof (Hr _ _ _ _ Hk Hne). lia.
  - intros k k' ph ph' q pr pr' Hk Hk' H1 H2. vcase; [done| | |by eapply Hd].
    + pose proof (Hr _ _ _ _ Hk H1). lia.
    + pose proof (Hr _ _ _ _ Hk' H2). lia.
  - intros k ph q pr Hk Hne Hph. vcase; [intuition congruence|].
    destruct (Hp _ _ _ _ Hk Hne Hph) as (m & q' & pr' & -> & Hm).
    exists m, q', pr'. split; [done|]. by apply keep_alive.
  - intros k ph q pr Hk Hph. vcase; [done|]. by eapply Hnp.
  - intros k m Hkm. apply lookup_insert_Some in Hkm as [(<- & <-)|(Hne & Hkm)].
    + split; [exists pid', par'; by apply keep_alive|].
      exists n, None. by apply list_lookup_insert_eq.
    + destruct (Hpe _ _ Hkm) as ((q & pr & Hq) & (q' & pr' & Hq')).
      split; [exists q, pr; by apply keep_alive|]. exists q', pr'.
      rewrite list_lookup_insert_ne; [done|]. intros ->. congruence.
  - intros k k' m H1 H2.
    apply lookup_insert_Some in H1 as [(<- & <-)|(Hne & H1)];
    apply lookup_insert_Some in H2 as [(<- & E)|(Hne' & H2)]; try done.
    + destruct (Hpe _ _ H2) as (_ & (q' & pr' & Hq')). congruence.
    + destruct (Hpe _ _ H1) as (_ & (q' & pr' & Hq')). congruence.
    + by eapply Hpi.
Qed.

(** The slot of a fork in progress is released or becomes a process. *)
Lemma family_settle i j pid par ph (pr : option nat) : pd !! i = Some j →
  v !! j = Some (Embryo, pid, par) →
  (ph = Free ∧ pr = None) ∨ (ph = Alive ∧ pr = Some i) →
  family_ok (<[j := (ph, pid, pr)]> v) ini n (delete i pd).
Proof.
  intros Hpd Hj Hcase. destruct Hok as [(ip & ipar & Hini) Hr Hd Hp Hnp Hpe Hpi].
  assert (Hjne : ∃ ph' p' par', v !! j = Some (ph', p', par') ∧ ph' ≠ Alive) by eauto.
  assert (Hjlt : (j < length v)%nat) by (by eapply lookup_lt_Some).
  destruct (Hpe _ _ Hpd) as ((ipid & iparent & Hi) & _).
  assert (Hjr : 0 < pid < n) by (by eapply Hr).
  split.
  - exists ip, ipar. by apply keep_alive.
  - intros k ph' q pr' Hk Hne. vcase; [done|]. by eapply Hr.
  - intros k k' ph' ph'' q pr' pr'' Hk Hk' H1 H2. vcase; [done| | |by eapply Hd].
    + by eapply (Hd k j).
    + by eapply (Hd j k').
  - intros k ph' q pr' Hk Hne Hph. vcase.
    + destruct Hcase as [[-> ->]|[-> ->]]; [intuition congruence|].
      exists i, ipid, iparent. split; [done|]. by apply keep_alive.
    + destruct (Hp _ _ _ _ Hk Hne Hph) as (m & q' & pr'' & -> & Hm).
      exists m, q', pr''. split; [done|]. by apply keep_alive.
  - intros k ph' q pr' Hk Hph. vcase; [|by eapply Hnp]. intuition congruence.
  - intros k m Hkm. apply lookup_delete_Some in Hkm as [Hne Hkm].
    destruct (Hpe _ _ Hkm) as ((q & pr' & Hq) & (q' & pr'' & Hq')).
    split; [exists q, pr'; by apply keep_alive|]. exists q', pr''.
    rewrite list_lookup_insert_ne; [done|]. intros ->. by eapply Hne, Hpi.
  - intros k k' m [_ H1]%lookup_delete_Some [_ H2]%lookup_delete_Some. by eapply Hpi.
Qed.

Lemma family_reap j pid par : v !! j = Some (Zombie, pid, par) →
  family_ok (<[j := (Free, 0, None)]> v) ini n pd.
Proof.
  intros Hj. destruct Hok as [(ip & ipar & Hini) Hr Hd Hp Hnp Hpe Hpi].
  assert (Hjne : ∃ ph' p' par', v !! j = Some (ph', p', par') ∧ ph' ≠ Alive) by eauto.
  assert (Hjlt : (j < length v)%nat) by (by eapply lookup_lt_Some).
  split.
  - exists ip, ipar. by apply keep_alive.
  - intros k ph q pr Hk Hne. vcase; [done|]. by eapply Hr.
  - intros k k' ph ph' q pr pr' Hk Hk' H1 H2. vcase; [done..|]. by eapply Hd.
  - intros k ph q pr Hk Hne Hph. vcase; [intuition congruence|].
    destruct (Hp _ _ _ _ Hk Hne Hph) as (m & q' & pr' & -> & Hm).
    exists m, q', pr'. split; [done|]. by apply keep_alive.
  - intros k ph q pr Hk Hph. vcase; [done|]. by eapply Hnp.
  - intros k m Hkm. destruct (Hpe _ _ Hkm) as ((q & pr & Hq) & (q' & pr' & Hq')).
    split; [exists q, pr; by apply keep_alive|]. exists q', pr'.
    rewrite list_lookup_insert_ne; [done|]. intros ->. congruence.
  - done.
Qed.

(** What [exit] does to the view of entry [k]. *)
Definition exit_view (cur k : nat) (w : phase * Z * option nat) : phase * Z * option nat :=
  let '(ph, pid, par) := w in
  (if decide (k = cur) then Zombie else ph, pid,
   if decide (par = Some cur) then Some ini else par).

Lemma family_exit cur pid par v' : v !! cur = Some (Alive, pid, par) → cur ≠ ini →
  pd !! cur = None → (∀ k, v' !! k = exit_view cur k <$> v !! k) →
  family_ok v' ini n pd.
Proof.
  intros Hcur Hne Hpd Hv'. destruct Hok as [(ip & ipar & Hini) Hr Hd Hp Hnp Hpe Hpi].
  assert (Hinv : ∀ k ph q pr, v' !! k = Some (ph, q, pr) → ∃ ph0 pr0,
    v !! k = Some (ph0, q, pr0) ∧ ph = (if decide (k = cur) then Zombie else ph0) ∧
    pr = if decide (pr0 = Some cur) then Some ini else pr0).
  { intros k ph q pr. rewrite Hv'. destruct (v !! k) as [[[ph0 q0] pr0]|]; simpl; [|done].
    intros [= <- <- <-]. eauto. }
  assert (Hkeep : ∀ k ph q pr, k ≠ cur → v !! k = Some (ph, q, pr) → ∃ pr', v' !! k = Some (ph, q, pr')).
  { intros k ph q pr Hk Hl. rewrite Hv', Hl. simpl. rewrite decide_False by done. eauto. }
  assert (Hini' : ∃ pr', v' !! ini = Some (Alive, ip, pr')) by (by eapply Hkeep).
  split.
  - destruct Hini' as [pr' ?]. eauto.
  - intros k ph q pr (ph0 & pr0 & Hk & -> & _)%Hinv Hf. eapply Hr; [done|].
    case_decide; [|done]. subst. rewrite Hcur in Hk. by injection Hk as <- <- <-.
  - intros k k' ph ph' q pr pr' (ph0 & pr0 & Hk & -> & _)%Hinv (ph1 & pr1 & Hk' & -> & _)%Hinv H1 H2.
    eapply Hd; [done..| |].
    + clear H2. case_decide; [|done]. subst. rewrite Hcur in Hk. by injection Hk as <- <- <-.
    + clear H1. case_decide; [|done]. subst. rewrite Hcur in Hk'. by injection Hk' as <- <- <-.
  - intros k ph q pr (ph0 & pr0 & Hk & -> & ->)%Hinv Hki Hph.
    destruct (Hp _ _ _ _ Hk Hki) as (m & q' & pr' & -> & Hm).
    { case_decide; [|done]. subst. left. rewrite Hcur in Hk. by injection Hk as <- <- <-. }
    destruct Hini' as [ipr Hini']. destruct (decide (Some m = Some cur)) as [Hm'|Hm']; [by exists ini, ip, ipr|].
    destruct (Hkeep m _ _ _ ltac:(congruence) Hm) as [pr'' ?]. by exists m, q', pr''.
  - intros k ph q pr (ph0 & pr0 & Hk & -> & ->)%Hinv Hph.
    assert (pr0 = None) as ->; [|done]. eapply Hnp; [done|]. case_decide; [intuition congruence|done].
  - intros k m Hkm. destruct (Hpe _ _ Hkm) as ((q & pr & Hq) & (q' & pr' & Hq')). split.
    + destruct (Hkeep k _ _ _ ltac:(congruence) Hq) as [pr'' ?]. eauto.
    + destruct (Hkeep m _ _ _ ltac:(congruence) Hq') as [pr'' ?]. eauto.
  - done.
Qed.

End family.

Section running.
Context (t : list proc) (cs : list cpu_sched).
Hypothesis Hok : running_ok t cs.

Lemma running_same t' : length t' = length t →
  (∀ i p p', t !! i = Some p → t' !! i = Some p' → (p_state p' = RUNNING ↔ p_state p = RUNNING)) →
  running_ok t' cs.
Proof.
  intros Hlen Hsame. destruct Hok as [Hr H1 Hc Hp]. split.
  - intros i p' Hi. destruct (lookup_lt_is_Some_2 t i) as [p Hpi].
    { rewrite <-Hlen. by eapply lookup_lt_Some. }
    rewrite (Hsame i p p' Hpi Hi). by apply Hr.
  - done.
  - rewrite Hlen. done.
  - rewrite Hlen. done.
Qed.

Lemma running_start c x j p : cs !! c = Some x → c_proc x = None →
  t !! j = Some p → p_state p ≠ RUNNING →
  running_ok (alter (set_state RUNNING) j t) (<[c := CpuSched (Some j) (S j)]> cs).
Proof.
  intros Hc Hx Hj Hst. destruct Hok as [Hr H1 Hcur Hp].
  assert (Hclt : (c < length cs)%nat) by (by eapply lookup_lt_Some).
  assert (Hjlt : (j < length t)%nat) by (by eapply lookup_lt_Some).
  assert (Hjfree : ∀ c' x', cs !! c' = Some x' → c_proc x' ≠ Some j).
  { intros c' x' H' E. apply Hst. apply (Hr j p Hj). eauto. }
  split.
  - intros i q Hi. destruct (decide (j = i)) as [<-|Hne].
    + rewrite list_lookup_alter_eq, Hj in Hi. injection Hi as <-. split; [|done].
      intros _. exists c, (CpuSched (Some j) (S j)). split; [|done]. by apply list_lookup_insert_eq.
    + rewrite list_lookup_alter_ne in Hi by done. rewrite (Hr i q Hi). split.
      * intros (c' & x' & Hc' & Hx'). exists c', x'. split; [|done].
        rewrite list_lookup_insert_ne; [done|]. intros <-. congruence.
      * intros (c' & x' & [(-> & <- & _)|(_ & Hc')]%list_lookup_insert_Some & Hx').
        -- simpl in Hx'. congruence.
        -- eauto.
  - intros c1 c2 x1 x2 i [(<- & <- & _)|(Hn1 & Hc1)]%list_lookup_insert_Some
      [(<- & <- & _)|(Hn2 & Hc2)]%list_lookup_insert_Some E1 E2; simpl in *.
    + done.
    + injection E1 as <-. by destruct (Hjfree _ _ Hc2).
    + injection E2 as <-. by destruct (Hjfree _ _ Hc1).
    + by eapply H1.
  - rewrite length_alter. intros c1 x1 i [(<- & <- & _)|(_ & Hc1)]%list_lookup_insert_Some Hi.
    + simpl in Hi. congruence.
    + by eapply Hcur.
  - rewrite length_alter. intros c1 x1 [(<- & <- & _)|(_ & Hc1)]%list_lookup_insert_Some.
    + simpl. lia.
    + by eapply Hp.
Qed.

Lemma running_stop c x i t' : cs !! c = Some x → c_proc x = Some i →
  length t' = length t →
  (∀ p', t' !! i = Some p' → p_state p' ≠ RUNNING) →
  (∀ k p p', k ≠ i → t !! k = Some p → t' !! k = Some p' →
     (p_state p' = RUNNING ↔ p_state p = RUNNING)) →
  running_ok t' (<[c := CpuSched None (c_pos x)]> cs).
Proof.
  intros Hc Hx Hlen Hi Hsame. destruct Hok as [Hr H1 Hcur Hp].
  assert (Hclt : (c < length cs)%nat) by (by eapply lookup_lt_Some).
  split.
  - intros k q Hk. destruct (decide (k = i)) as [->|Hne].
    + split; [intros Hq; by destruct (Hi q Hk)|].
      intros (c' & x' & [(<- & <- & _)|(Hn & Hc')]%list_lookup_insert_Some & Hx'); [done|].
      by destruct Hn; eapply H1.
    + destruct (lookup_lt_is_Some_2 t k) as [p Hpk].
      { rewrite <-Hlen. by eapply lookup_lt_Some. }
      rewrite (Hsame k p q Hne Hpk Hk), (Hr k p Hpk). split.
      * intros (c' & x' & Hc' & Hx'). exists c', x'. split; [|done].
        rewrite list_lookup_insert_ne; [done|]. intros <-. congruence.
      * intros (c' & x' & [(<- & <- & _)|(Hn & Hc')]%list_lookup_insert_Some & Hx'); [done|]. eauto.
  - intros c1 c2 x1 x2 k [(<- & <- & _)|(Hn1 & Hc1)]%list_lookup_insert_Some
      [(<- & <- & _)|(Hn2 & Hc2)]%list_lookup_insert_Some E1 E2; try done. by eapply H1.
  - rewrite Hlen. intros c1 x1 k [(<- & <- & _)|(_ & Hc1)]%list_lookup_insert_Some Hk; [done|].
    by eapply Hcur.
  - rewrite Hlen. intros c1 x1 [(<- & <- & _)|(_ & Hc1)]%list_lookup_insert_Some; [|by eapply Hp].
    simpl. by eapply Hp.
Qed.

Lemma running_reset c x : cs !! c = Some x → c_proc x = None →
  running_ok t (<[c := CpuSched None 0]> cs).
Proof.
  intros Hc Hx. destruct Hok as [Hr H1 Hcur Hp]. split.
  - intros i p Hi. rewrite (Hr i p Hi). split.
    + intros (c' & x' & Hc' & Hx'). exists c', x'. split; [|done].
      rewrite list_lookup_insert_ne; [done|]. intros <-. congruence.
    + intros (c' & x' & [(<- & <- & _)|(Hn & Hc')]%list_lookup_insert_Some & Hx'); [done|]. eauto.
  - intros c1 c2 x1 x2 k [(<- & <- & _)|(Hn1 & Hc1)]%list_lookup_insert_Some
      [(<- & <- & _)|(Hn2 & Hc2)]%list_lookup_insert_Some E1 E2; try done. by eapply H1.
  - intros c1 x1 k [(<- & <- & _)|(_ & Hc1)]%list_lookup_insert_Some Hk; [done|]. by eapply Hcur.
  - intros c1 x1 [(<- & <- & _)|(_ & Hc1)]%list_lookup_insert_Some; [simpl; lia|by eapply Hp].
Qed.

End running.

(** Reading the scheduler's state. *)

Lemma current_Some s c i : current s c = Some i ↔ ∃ x, cpus s !! c = Some x ∧ c_proc x = Some i.
Proof.
  unfold current. destruct (cpus s !! c) as [x|]; simpl; [|naive_solver].
  split; [eauto|]. by intros (? & [= ->] & ?).
Qed.

Lemma current_running s c i : sys_inv s → current s c = Some i →
  ∃ p, pt s !! i = Some p ∧ p_state p = RUNNING.
Proof.
  intros (_ & _ & Hr) (x & Hc & Hx)%current_Some.
  destruct (lookup_lt_is_Some_2 (pt s) i) as [p Hp]; [by eapply cur_in_table|].
  exists p. split; [done|]. apply (running_iff _ _ Hr i p Hp). eauto.
Qed.

Lemma pick_Some pos t j : pick pos t = Some j →
  (pos ≤ j)%nat ∧ (∃ p, t !! j = Some p ∧ p_state p = RUNNABLE) ∧
  ∀ k p, (pos ≤ k < j)%nat → t !! k = Some p → p_state p ≠ RUNNABLE.
Proof.
  intros (Hle & (p & Hp & Hr) & Hlt)%scan_Some. unfold is_runnable in *.
  rewrite lookup_drop in Hp. replace (pos + (j - pos))%nat with j in Hp by lia.
  split; [done|]. split.
  - exists p. split; [done|]. by rewrite bool_decide_eq_true in Hr.
  - intros k q Hk Hq. specialize (Hlt (k - pos)%nat q). rewrite lookup_drop in Hlt.
    replace (pos + (k - pos))%nat with k in Hlt by lia.
    specialize (Hlt ltac:(lia) Hq). by rewrite bool_decide_eq_false in Hlt.
Qed.

Lemma pick_None pos t k p : pick pos t = None → (pos ≤ k)%nat → t !! k = Some p →
  p_state p ≠ RUNNABLE.
Proof.
  intros Hn Hk Hp. pose proof (proj1 (scan_None _ _ _) Hn (k - pos)%nat p) as H.
  rewrite lookup_drop in H. replace (pos + (k - pos))%nat with k in H by lia.
  specialize (H Hp). unfold is_runnable in H. by rewrite bool_decide_eq_false in H.
Qed.

(** Updates of one entry, seen through [view]. *)
Lemma view_alter_same f i (t : list proc) : (∀ p, t !! i = Some p → view (f p) = view p) →
  view <$> alter f i t = view <$> t.
Proof.
  intros Hf. apply list_eq. intros k. rewrite !list_lookup_fmap.
  destruct (decide (i = k)) as [<-|].
  - rewrite list_lookup_alter_eq. destruct (t !! i) as [p|]; [|done]. simpl. by rewrite Hf.
  - by rewrite list_lookup_alter_ne.
Qed.

Lemma view_alter f i (t : list proc) p w : t !! i = Some p → view (f p) = w →
  view <$> alter f i t = <[i := w]> (view <$> t).
Proof.
  intros Hi <-. erewrite alter_lookup_insert by done. apply list_fmap_insert.
Qed.

Lemma view_lookup (t : list proc) i p : t !! i = Some p → (view <$> t) !! i = Some (view p).
Proof. intros Hi. by rewrite list_lookup_fmap, Hi. Qed.

Lemma view_wakeup1 ch t : view <$> wakeup1 ch t = view <$> t.
Proof.
  rewrite wakeup1_fmap, <-list_fmap_compose. apply list_fmap_ext. intros i p _. simpl.
  unfold view, phase_of. destruct (woken_cases ch p) as [(E & _ & ->)|(_ & ->)]; simpl; [|done].
  by rewrite E.
Qed.

Lemma view_exit cur par ini t : t !! cur ≠ None → ∀ k,
  (view <$> exit_table cur par (Some ini) t) !! k = exit_view ini cur k <$> (view <$> t) !! k.
Proof.
  intros _ k. rewrite !list_lookup_fmap. destruct (t !! k) as [p|] eqn:Hk.
  - rewrite (exit_table_lookup cur par ini t k p Hk). simpl. f_equal.
    set (q := exit_entry cur par ini (existsb (zombie_child cur) t) p).
    destruct (exit_entry_frame cur par ini (existsb (zombie_child cur) t) p) as (F1 & _ & _).
    pose proof (exit_entry_parent cur par ini (existsb (zombie_child cur) t) p) as F2.
    pose proof (exit_entry_state cur par ini (existsb (zombie_child cur) t) p) as F3.
    fold q in F1, F2, F3. clearbody q. unfold view, exit_view, phase_of.
    destruct (decide (k = cur)); simpl.
    + by rewrite F1, F2.
    + rewrite F1, F2, F3. destruct (decide (p_state p = SLEEPING ∧ _)) as [Hd|]; [|done].
      by rewrite (proj1 Hd).
  - rewrite lookup_ge_None_2; [done|]. rewrite exit_table_length. by apply lookup_ge_None.
Qed.

Section preserve.
Context (s : sys).
Hypothesis Hinv : sys_inv s.

(** A section that changes one entry, without changing its view or whether it
    is RUNNING. *)
Lemma inv_set_pt t : length t = length (pt s) → view <$> t = view <$> pt s →
  (∀ i p p', pt s !! i = Some p → t !! i = Some p' → (p_state p' = RUNNING ↔ p_state p = RUNNING)) →
  sys_inv (set_pt t s).
Proof.
  intros Hlen Hv Hr. destruct Hinv as (Hl & Hf & Hrun). split; [simpl; congruence|].
  split; [simpl; by rewrite Hv|]. simpl. by eapply running_same.
Qed.

Lemma inv_alter_same f i : (∀ p, pt s !! i = Some p → view (f p) = view p ∧
    (p_state (f p) = RUNNING ↔ p_state p = RUNNING)) →
  sys_inv (set_pt (alter f i (pt s)) s).
Proof.
  intros Hf. apply inv_set_pt; [by rewrite length_alter|by apply view_alter_same; intros; apply Hf|].
  intros k p p' Hk Hk'. destruct (decide (i = k)) as [<-|].
  - rewrite list_lookup_alter_eq, Hk in Hk'. injection Hk' as <-. by apply Hf.
  - rewrite list_lookup_alter_ne in Hk' by done. by rewrite Hk in Hk'; injection Hk' as ->.
Qed.

(** The running process leaves the CPU in another phase-preserving state. *)
Lemma inv_stop c i f : current s c = Some i →
  (∀ p, p_state p = RUNNING → view (f p) = view p ∧ p_state (f p) ≠ RUNNING) →
  sys_inv (idle c (set_pt (alter f i (pt s)) s)).
Proof.
  intros Hcur Hf. destruct (current_running s c i Hinv Hcur) as (p & Hp & Hst).
  apply current_Some in Hcur as (x & Hc & Hx). destruct Hinv as (Hl & Hfam & Hrun).
  unfold idle. simpl. rewrite Hc. split; [simpl; by rewrite length_alter|]. split.
  - simpl. rewrite view_alter_same; [done|]. intros q Hq. apply Hf. congruence.
  - simpl. eapply running_stop; [done..|by rewrite length_alter| |].
    + intros p'. rewrite list_lookup_alter_eq, Hp. intros [= <-]. by apply Hf.
    + intros k q q' Hk Hq. rewrite list_lookup_alter_ne, Hq by done. by intros [= ->].
Qed.

Lemma inv_exit c i p : current s c = Some i → i ≠ init s → pend s !! i = None →
  pt s !! i = Some p →
  sys_inv (idle c (set_pt (exit_table i (p_parent p) (Some (init s)) (pt s)) s)).
Proof.
  intros Hcur Hne Hpd Hp. destruct (current_running s c i Hinv Hcur) as (p0 & Hp0 & Hst).
  assert (p0 = p) as -> by congruence.
  apply current_Some in Hcur as (x & Hc & Hx). destruct Hinv as (Hl & Hfam & Hrun).
  unfold idle. simpl. rewrite Hc. split; [simpl; by rewrite exit_table_length|]. split.
  - simpl. eapply family_exit; [done| |done|done|].
    + apply view_lookup in Hp. unfold view, phase_of in Hp. rewrite Hst in Hp. exact Hp.
    + apply view_exit. congruence.
  - simpl. eapply running_stop; [done..|by rewrite exit_table_length| |].
    + intros p'. rewrite (exit_table_lookup i (p_parent p) (init s) (pt s) i p Hp).
      rewrite decide_True by done. by intros [= <-].
    + intros k q q' Hk Hq. rewrite (exit_table_lookup i (p_parent p) (init s) (pt s) k q Hq).
      rewrite decide_False by done. intros [= <-]. rewrite exit_entry_state.
      case_decide as Hd; [|done]. by rewrite (proj1 Hd).
Qed.

Lemma inv_reap c i j b : current s c = Some i → wait_scan i (pt s) 0 false = (Some j, b) →
  sys_inv (set_pt (alter reap j (pt s)) s).
Proof.
  intros _ Hw. destruct (wait_scan_spec _ _ _ _ _ _ Hw) as (_ & (z & Hz & _ & Hst) & _).
  rewrite Nat.sub_0_r in Hz. destruct Hinv as (Hl & Hfam & Hrun).
  split; [simpl; by rewrite length_alter|]. split.
  - simpl. erewrite view_alter; [|done|reflexivity]. eapply family_reap; [done|].
    apply view_lookup in Hz. unfold view, phase_of in Hz. rewrite Hst in Hz. exact Hz.
  - simpl. eapply running_same; [done|by rewrite length_alter|].
    intros k q q' Hk Hk'. destruct (decide (j = k)) as [<-|].
    + rewrite list_lookup_alter_eq, Hk in Hk'. injection Hk' as <-.
      assert (q = z) as -> by congruence. simpl. by rewrite Hst.
    + rewrite list_lookup_alter_ne in Hk' by done. by rewrite Hk in Hk'; injection Hk' as ->.
Qed.

Lemma inv_kill pid t : kill_table pid (pt s) = Some t → sys_inv (set_pt t s).
Proof.
  unfold kill_table. destruct (find_index _ _) as [i|]; [|done]. intros [= <-].
  apply inv_alter_same. intros p _. unfold view, phase_of. simpl.
  case_bool_decide as E; simpl; [rewrite E|]; done.
Qed.

Lemma inv_fork_alloc c i j : current s c = Some i → pend s !! i = None →
  find_index is_unused (pt s) = Some j →
  sys_inv (Sys (alter (λ p, set_pid (npid s) (set_state EMBRYO p)) j (pt s))
                (cpus s) (init s) (npid s + 1) (<[i := j]> (pend s))).
Proof.
  intros Hcur Hpd Hj. destruct (current_running s c i Hinv Hcur) as (p & Hp & Hst).
  apply find_index_Some in Hj as ((q & Hq & Hu) & _). unfold is_unused in Hu.
  rewrite bool_decide_eq_true in Hu. destruct Hinv as (Hl & Hfam & Hrun).
  pose proof (view_lookup _ _ _ Hq) as Hvq. unfold view, phase_of in Hvq. rewrite Hu in Hvq.
  pose proof (view_lookup _ _ _ Hp) as Hvp. unfold view, phase_of in Hvp. rewrite Hst in Hvp.
  assert (Hpar : p_parent q = None) by (eapply no_parent; [done..|by left]).
  split; [simpl; by rewrite length_alter|]. split.
  - simpl. erewrite view_alter; [|done|reflexivity]. unfold view, phase_of. simpl. rewrite Hpar.
    by eapply family_alloc.
  - simpl. eapply running_same; [done|by rewrite length_alter|].
    intros k r r' Hk Hk'. destruct (decide (j = k)) as [<-|].
    + rewrite list_lookup_alter_eq, Hk in Hk'. injection Hk' as <-.
      assert (r = q) as -> by congruence. simpl. by rewrite Hu.
    + rewrite list_lookup_alter_ne in Hk' by done. by rewrite Hk in Hk'; injection Hk' as ->.
Qed.

Lemma inv_fork_settle i j f : pend s !! i = Some j →
  (∀ p, p_pid (f p) = p_pid p ∧ p_state (f p) ≠ RUNNING ∧
    ((p_state (f p) = UNUSED ∧ p_parent (f p) = p_parent p) ∨
     (p_state (f p) = RUNNABLE ∧ p_parent (f p) = Some i))) →
  sys_inv (set_pend (delete i (pend s)) (set_pt (alter f j (pt s)) s)).
Proof.
  intros Hpd Hf. destruct Hinv as (Hl & Hfam & Hrun).
  destruct (pend_ok _ _ _ _ Hfam _ _ Hpd) as (_ & (pid & par & Hj)).
  assert (par = None) as -> by (eapply no_parent; [done..|by right]).
  pose proof Hj as Hj'. rewrite list_lookup_fmap in Hj'.
  destruct (pt s !! j) as [q|] eqn:Hq; [|done]. injection Hj' as Hph Hpid Hpar.
  destruct (Hf q) as (F1 & F2 & F3).
  split; [simpl; by rewrite length_alter|]. split.
  - simpl. erewrite view_alter; [|done|reflexivity]. unfold view. rewrite F1, Hpid.
    eapply family_settle; [done..|]. unfold phase_of.
    destruct F3 as [[-> ->]|[-> ->]]; [left|right]; done.
  - simpl. eapply running_same; [done|by rewrite length_alter|].
    intros k r r' Hk Hk'. destruct (decide (j = k)) as [<-|].
    + rewrite list_lookup_alter_eq, Hk in Hk'. injection Hk' as <-.
      assert (r = q) as -> by congruence. split; [done|]. intros E. unfold phase_of in Hph.
      by rewrite E in Hph.
    + rewrite list_lookup_alter_ne in Hk' by done. by rewrite Hk in Hk'; injection Hk' as ->.
Qed.

End preserve.

Ltac opt_inv H :=
  repeat (let x := fresh "x" in let E := fresh "E" in apply bind_Some in H as (x & E & H));
  injection H as <-.

Lemma act_inv a s s' : sys_inv s → act a s = Some s' → sys_inv s'.
Proof.
  intros Hinv Hact. destruct a; simpl in Hact.
  - apply bind_Some in Hact as (x & Hx & Hact). destruct (c_proc x) eqn:Hc; [done|].
    apply bind_Some in Hact as (j & Hj & Hact). injection Hact as <-.
    apply pick_Some in Hj as (_ & (p & Hp & Hst) & _). destruct Hinv as (Hl & Hf & Hr).
    split; [simpl; by rewrite length_alter|]. split.
    + simpl. rewrite view_alter_same; [done|]. intros q Hq. unfold view, phase_of. simpl.
      assert (q = p) as -> by congruence. by rewrite Hst.
    + simpl. eapply running_start; try done. by rewrite Hst.
  - apply bind_Some in Hact as (x & Hx & Hact). destruct (c_proc x) eqn:Hc; [done|].
    destruct (pick _ _); [done|]. injection Hact as <-. destruct Hinv as (Hl & Hf & Hr).
    split_and!; [done..|]. by eapply running_reset.
  - opt_inv Hact. eapply inv_stop; [done..|]. intros p Hp. unfold view, phase_of. simpl. by rewrite Hp.
  - opt_inv Hact. eapply inv_stop; [done..|]. intros p Hp. unfold view, phase_of. simpl. by rewrite Hp.
  - opt_inv Hact. by apply inv_alter_same.
  - apply bind_Some in Hact as (i & Hi & Hact). case_decide as Hd; [done|].
    opt_inv Hact. eapply inv_exit; [done|done|tauto| |done]. apply eq_None_not_Some. tauto.
  - apply bind_Some in Hact as (i & Hi & Hact).
    destruct (wait_scan _ _ _ _) as [[j|] b] eqn:Hw; [|done]. injection Hact as <-.
    by eapply inv_reap.
  - injection Hact as <-. apply inv_set_pt; [done|by rewrite wakeup1_fmap, length_fmap|apply view_wakeup1|].
    intros i p p' Hi. rewrite wakeup1_lookup, Hi. intros [= <-].
    destruct (woken_cases ch p) as [(E & _ & ->)|(_ & ->)]; simpl; [by rewrite E|done].
  - destruct (kill_table _ _) eqn:Hk; injection Hact as <-; [by eapply inv_kill|done].
  - apply bind_Some in Hact as (i & Hi & Hact). case_decide as Hd; [done|].
    opt_inv Hact. eapply inv_fork_alloc; [done..| |done]. apply eq_None_not_Some. tauto.
  - opt_inv Hact. apply inv_fork_settle; [done..|]. intros p. split_and!; try done. by left.
  - opt_inv Hact. apply inv_fork_settle; [done..|]. intros p. split_and!; try done. by right.
Qed.

Lemma boot_inv n : sys_inv (boot n).
Proof.
  assert (Hlk : ∀ i p, pt (boot n) !! i = Some p →
    (i = 0%nat ∧ p = set_pid 1 (set_state RUNNABLE zero_proc)) ∨ (i ≠ 0%nat ∧ p = zero_proc)).
  { intros [|i] p; unfold boot, pt; [intros [= <-]; by left|]. right. split; [done|].
    rewrite lookup_cons in H. by apply lookup_replicate in H as [-> _]. }
  assert (Hv : ∀ i ph pid par, (view <$> pt (boot n)) !! i = Some (ph, pid, par) →
    par = None ∧ ((i = 0%nat ∧ ph = Alive ∧ pid = 1) ∨ (i ≠ 0%nat ∧ ph = Free))).
  { intros i ph pid par. rewrite list_lookup_fmap.
    destruct (pt (boot n) !! i) as [p|] eqn:E; [|done].
    destruct (Hlk i p E) as [[-> ->]|[Hne ->]]; intros [= <- <- <-]; auto. }
  assert (Hidle : ∀ c x, cpus (boot n) !! c = Some x → x = CpuSched None 0).
  { intros c x [-> _]%lookup_replicate. done. }
  split; [done|]. split; split.
  - by eexists _, _.
  - intros i ph pid par (_ & [(_ & _ & ->)|(_ & ->)])%Hv; [simpl; lia|done].
  - intros i j ph ph' pid par par' (_ & [(-> & _)|(_ & ->)])%Hv (_ & [(-> & _)|(_ & ->)])%Hv; done.
  - intros i ph pid par (_ & [(-> & _)|(_ & ->)])%Hv; [done|]. intros _ [?|?]; done.
  - intros i ph pid par (-> & _)%Hv; done.
  - intros i j. unfold boot, pend. by rewrite lookup_empty.
  - intros i i' j. unfold boot, pend. by rewrite lookup_empty.
  - intros i p Hi. split.
    + by destruct (Hlk i p Hi) as [[-> ->]|[_ ->]].
    + by intros (c & x & ->%Hidle & Hx).
  - by intros c c' x x' i ->%Hidle _.
  - by intros c x i ->%Hidle.
  - intros c x ->%Hidle. simpl. lia.
Qed.

Lemma reachable_inv n s : rtc step (boot n) s → sys_inv s.
Proof.
  intros Hr. pose proof (boot_inv n) as H. induction Hr as [|s1 s2 s3 [a Ha] _ IH]; [done|].
  apply IH. by eapply act_inv.
Qed.

(** ** Theorems *)

(** C27. No process runs on two CPUs, and the table agrees with the CPUs: in
    every state that the machine can reach after boot, with any number of CPUs
    and any interleaving of their critical sections, an entry is RUNNING
    exactly when it is the current process of one CPU, and of only one. *)
Theorem running_on_one_cpu n s i p : rtc step (boot n) s → pt s !! i = Some p →
  (p_state p = RUNNING ↔ ∃ c, current s c = Some i ∧ ∀ c', current s c' = Some i → c' = c).
Proof.
  intros (_ & _ & Hr)%reachable_inv Hp. rewrite (running_iff _ _ Hr i p Hp). split.
  - intros (c & x & Hc & Hx). exists c. split; [by apply current_Some; eauto|].
    intros c' (x' & Hc' & Hx')%current_Some. by eapply (one_cpu _ _ Hr).
  - intros (c & (x & Hc & Hx)%current_Some & _). eauto.
Qed.

(** C28. The process family: in every reachable state init is alive; the pids
    of the entries in use are positive and distinct; and every process other
    than init, zombies included, has a parent that is alive, so that some
    process is left to [wait] for it. *)
Theorem family_invariant n s : rtc step (boot n) s →
  (∃ p, pt s !! init s = Some p ∧ phase_of p = Alive) ∧
  (∀ i p, pt s !! i = Some p → p_state p ≠ UNUSED → 0 < p_pid p < npid s) ∧
  (∀ i j p q, pt s !! i = Some p → pt s !! j = Some q → p_state p ≠ UNUSED →
     p_state q ≠ UNUSED → p_pid p = p_pid q → i = j) ∧
  (∀ i p, pt s !! i = Some p → i ≠ init s → p_state p ≠ UNUSED → p_state p ≠ EMBRYO →
     ∃ j q, p_parent p = Some j ∧ pt s !! j = Some q ∧ phase_of q = Alive).
Proof.
  intros (_ & Hf & _)%reachable_inv.
  assert (Hfree : ∀ p, p_state p ≠ UNUSED → phase_of p ≠ Free)
    by (intros p; unfold phase_of; by destruct (p_state p)).
  assert (Hback : ∀ i pid par, (view <$> pt s) !! i = Some (Alive, pid, par) →
    ∃ p, pt s !! i = Some p ∧ phase_of p = Alive).
  { intros i pid par. rewrite list_lookup_fmap. destruct (pt s !! i) as [p|]; [|done].
    intros [= Hph _ _]. eauto. }
  split_and!.
  - destruct (init_alive _ _ _ _ Hf) as (pid & par & Hi). by eapply Hback.
  - intros i p Hp Hu. eapply (pids_range _ _ _ _ Hf); [by apply view_lookup|by apply Hfree].
  - intros i j p q Hp Hq Hpu Hqu E. apply view_lookup in Hp, Hq. unfold view in Hp, Hq.
    rewrite E in Hp. eapply (pids_distinct _ _ _ _ Hf); try done; by apply Hfree.
  - intros i p Hp Hi Hu He. apply view_lookup in Hp.
    destruct (parents_alive _ _ _ _ Hf _ _ _ _ Hp Hi) as (j & pid & par & Hj & Hjv).
    { unfold phase_of. destruct (p_state p); auto; done. }
    destruct (Hback _ _ _ Hjv) as (q & Hq & Hqa). eauto.
Qed.

(** The states a run visits after each of its actions. *)
Fixpoint trace (l : list action) (s : sys) : option (list sys) :=
  match l with
  | [] => Some []
  | a :: l' => s' ← act a s; ss ← trace l' s'; Some (s' :: ss)
  end.

(** The steps of [scheduler] on CPU [c]. *)
Definition is_sched (c : nat) (a : action) : bool :=
  match a with
  | SchedRun d | SchedWrap d => bool_decide (c = d)
  | _ => false
  end.

Definition runnable (k : nat) (s : sys) : Prop := p_state <$> pt s !! k = Some RUNNABLE.

(** How many steps CPU [c]'s scan may take before it reaches entry [k]. *)
Definition distance (pos k : nat) : nat :=
  if decide (pos ≤ k)%nat then k - pos else NPROC - pos + 1 + k.

Definition pos_of (c : nat) (s : sys) : nat :=
  match cpus s !! c with Some x => c_pos x | None => 0 end.

Lemma pos_of_idle c d s : pos_of c (idle d s) = pos_of c s.
Proof.
  unfold idle. destruct (cpus s !! d) as [x|] eqn:Hd; [|done]. unfold pos_of. simpl.
  destruct (decide (d = c)) as [<-|].
  - rewrite list_lookup_insert_eq by (by eapply lookup_lt_Some). by rewrite Hd.
  - by rewrite list_lookup_insert_ne.
Qed.

Lemma pos_of_set_cpu c d x s y : cpus s !! d = Some y →
  pos_of c (set_cpu d x s) = if decide (c = d) then c_pos x else pos_of c s.
Proof.
  intros Hd. unfold pos_of. simpl. case_decide; subst.
  - by rewrite list_lookup_insert_eq by (by eapply lookup_lt_Some).
  - by rewrite list_lookup_insert_ne.
Qed.

(** A step that is not one of CPU [c]'s scheduler leaves its position; one that
    is brings it closer to every entry that was and is RUNNABLE. *)
Lemma act_distance c k a s s' : sys_inv s → act a s = Some s' → runnable k s → runnable k s' →
  if is_sched c a then (distance (pos_of c s') k < distance (pos_of c s) k)%nat
  else pos_of c s' = pos_of c s.
Proof.
  intros Hinv Hact Hk Hk'. pose proof Hinv as (Hlen & _ & Hr).
  assert (Hrk : ∃ p, pt s !! k = Some p ∧ p_state p = RUNNABLE).
  { unfold runnable in Hk. destruct (pt s !! k) as [p|]; [|done]. simpl in Hk. naive_solver. }
  destruct Hrk as (p & Hp & Hst).
  assert (Hklt : (k < NPROC)%nat) by (rewrite <-Hlen; by eapply lookup_lt_Some).
  destruct a as [d|d|d|d ch|d|d|d|ch|pid|d|d|d]; simpl in Hact; simpl is_sched; cbv iota.
  - apply bind_Some in Hact as (x & Hx & Hact). destruct (c_proc x) eqn:Hc; [done|].
    apply bind_Some in Hact as (j & Hj & Hact). injection Hact as <-.
    erewrite pos_of_set_cpu by done. case_bool_decide as Hcd; subst.
    2:{ by rewrite decide_False. }
    rewrite decide_True by done. unfold pos_of. rewrite Hx. simpl.
    apply pick_Some in Hj as (Hle & (q & Hq & Hqs) & Hmin).
    assert (j ≠ k).
    { intros ->. unfold runnable in Hk'. simpl in Hk'. rewrite list_lookup_alter_eq, Hp in Hk'.
      by simpl in Hk'. }
    assert (Hjlt : (j < NPROC)%nat) by (rewrite <-Hlen; by eapply lookup_lt_Some).
    unfold distance. repeat case_decide; try lia.
    by destruct (Hmin k p ltac:(lia) Hp).
  - apply bind_Some in Hact as (x & Hx & Hact). destruct (c_proc x) eqn:Hc; [done|].
    destruct (pick _ _) eqn:Hpick; [done|]. injection Hact as <-.
    erewrite pos_of_set_cpu by done. case_bool_decide as Hcd; subst.
    2:{ by rewrite decide_False. }
    rewrite decide_True by done. unfold pos_of. rewrite Hx. simpl.
    pose proof (pos_in_table _ _ Hr _ _ Hx) as Hpos. rewrite Hlen in Hpos.
    unfold distance. repeat case_decide; try lia.
    by destruct (pick_None _ _ k p Hpick ltac:(lia) Hp).
  - opt_inv Hact. by rewrite pos_of_idle.
  - opt_inv Hact. by rewrite pos_of_idle.
  - by opt_inv Hact.
  - apply bind_Some in Hact as (i & Hi & Hact). case_decide; [done|].
    opt_inv Hact. by rewrite pos_of_idle.
  - apply bind_Some in Hact as (i & Hi & Hact).
    destruct (wait_scan _ _ _ _) as [[j|] b]; [|done]. by injection Hact as <-.
  - by injection Hact as <-.
  - destruct (kill_table _ _); by injection Hact as <-.
  - apply bind_Some in Hact as (i & Hi & Hact). case_decide; [done|]. by opt_inv Hact.
  - by opt_inv Hact.
  - by opt_inv Hact.
Qed.

Lemma distance_bound c k : ∀ l s ss, sys_inv s → trace l s = Some ss →
  Forall (runnable k) (s :: ss) →
  (length (filter (λ a, is_sched c a = true) l) ≤ distance (pos_of c s) k)%nat.
Proof.
  induction l as [|a l IH]; intros s ss Hinv Htr Hall; simpl in *; [lia|].
  apply bind_Some in Htr as (s' & Ha & Htr). apply bind_Some in Htr as (ss' & Hss & Htr).
  injection Htr as <-. apply Forall_cons_1 in Hall as [Hk Hall].
  pose proof (Forall_inv Hall) as Hk'.
  specialize (IH s' ss' (act_inv _ _ _ Hinv Ha) Hss Hall).
  pose proof (act_distance c k a s s' Hinv Ha Hk Hk') as Hd.
  rewrite filter_cons. destruct (is_sched c a); [rewrite decide_True by done|rewrite decide_False by done].
  - simpl. lia.
  - by rewrite <-Hd.
Qed.

(** C29. Round robin: while a process stays RUNNABLE and is not picked, the
    scheduler of each CPU takes at most NPROC steps (runs of other processes
    and restarts of its loop), whatever the other CPUs and the processes do in
    between. *)
Theorem round_robin_bound n s l ss c k :
  rtc step (boot n) s → trace l s = Some ss → Forall (runnable k) (s :: ss) →
  (length (filter (λ a, is_sched c a = true) l) ≤ NPROC)%nat.
Proof.
  intros Hinv%reachable_inv Htr Hall.
  pose proof (distance_bound c k l s ss Hinv Htr Hall) as Hb.
  destruct Hinv as (Hlen & _ & Hr).
  assert (Hk : (k < NPROC)%nat).
  { apply Forall_inv in Hall. unfold runnable in Hall. rewrite <-Hlen.
    destruct (pt s !! k) eqn:E; [by eapply lookup_lt_Some|done]. }
  assert (Hpos : (pos_of c s ≤ NPROC)%nat).
  { unfold pos_of. destruct (cpus s !! c) as [x|] eqn:E; [|lia]. rewrite <-Hlen.
    by eapply pos_in_table. }
  unfold distance in Hb. case_decide; lia.
Qed.

(** A run on two CPUs: init forks, the child runs on CPU 1, forks in turn, and
    the grandchild waits for a CPU. *)
Fixpoint run (l : list action) (s : sys) : option sys :=
  match l with
  | [] => Some s
  | a :: l' => s' ← act a s; run l' s'
  end.

Lemma run_reachable l : ∀ s s', run l s = Some s' → rtc step s s'.
Proof.
  induction l as [|a l IH]; intros s s' Hr; simpl in Hr; [by injection Hr as ->|].
  apply bind_Some in Hr as (s1 & Ha & Hr). eapply rtc_l; [by exists a|by apply IH].
Qed.

Definition demo_run : list action :=
  [SchedRun 0; AForkAlloc 0; AForkCommit 0; SchedRun 1; AForkAlloc 1; AForkCommit 1].
Definition demo_sys : sys := default (boot 2) (run demo_run (boot 2)).

Lemma demo_reachable : rtc step (boot 2) demo_sys.
Proof. apply (run_reachable demo_run). vm_compute. reflexivity. Qed.

Lemma running_on_one_cpu_witness : ∃ p, pt demo_sys !! 1%nat = Some p ∧
  (p_state p = RUNNING ↔
   ∃ c, current demo_sys c = Some 1%nat ∧ ∀ c', current demo_sys c' = Some 1%nat → c' = c).
Proof.
  destruct (pt demo_sys !! 1%nat) as [p|] eqn:E; [|vm_compute in E; discriminate E].
  exists p. split; [reflexivity|]. exact (running_on_one_cpu 2 demo_sys 1 p demo_reachable E).
Defined.

Lemma family_invariant_witness : ∃ p, pt demo_sys !! init demo_sys = Some p ∧ phase_of p = Alive.
Proof. exact (proj1 (family_invariant 2 demo_sys demo_reachable)). Defined.

(** The grandchild waits while CPU 0 picks its parent again. *)
Definition demo_wait : list action := [AYield 0; AYield 1; SchedRun 0].

Lemma round_robin_bound_witness : ∃ ss, trace demo_wait demo_sys = Some ss ∧
  (length (filter (λ a, is_sched 0 a = true) demo_wait) ≤ NPROC)%nat.
Proof.
  destruct (trace demo_wait demo_sys) as [ss|] eqn:E; [|vm_compute in E; discriminate E].
  exists ss. split; [reflexivity|].
  apply (round_robin_bound 2 demo_sys _ ss 0 2 demo_reachable E).
  vm_compute in E. injection E as <-. repeat constructor; vm_compute; reflexivity.
Defined.
