(* ===== verification/Vm.v ===== *)
(** Virtual memory: vm.c

    The page-table code of the kernel on the memory of [Kalloc]: page
    directories, page tables and user pages are pages of that memory, named by
    their kernel addresses, and every access is a load or store of it.  The
    linker symbols [end] and [data] are the variables [kend] and [kdata]. *)

From stdpp Require Import gmap list numbers strings.
From Stdlib Require Import ZArith Lia.
From S2P Require Import Prelude Mem Memlayout Kalloc.

(** A word of memory. *)
Definition ldw (a : Z) : M kst Z := gets (λ s, ld32 (memory s) a).
Definition stw (a v : Z) : M kst unit := modify (λ s, set_memory (st32 (memory s) a v) s).
Definition fill (a c n : Z) : M kst unit :=
  modify (λ s, set_memory (memset (memory s) a c n) s).
Definition move (dst src n : Z) : M kst unit :=
  modify (λ s, set_memory (memmove (memory s) dst src n) s).

(** [e & PTE_P] as a test. *)
Definition present (e : Z) : bool := negb (Z.land e PTE_P =? 0).

(** The kernel address of the page an entry refers to. *)
Definition page_of (e : Z) : Z := P2V (PTE_ADDR e).

Section vm.
Variables kend kdata : Z.

Definition walkpgdir (pgdir va : Z) (alloc : bool) : M kst Z :=
  let pde := u32 (pgdir + 4 * PDX va) in
  e <- ldw pde ;;
  if present e then ret (u32 (page_of e + 4 * PTX va))
  else if negb alloc then ret 0
  else
    pgtab <- kalloc ;;
    if pgtab =? 0 then ret 0
    else
      fill pgtab 0 PGSIZE ;;;
      stw pde (Z.lor (Z.lor (Z.lor (V2P pgtab) PTE_P) PTE_W) PTE_U) ;;;
      ret (u32 (pgtab + 4 * PTX va)).

(** The loop of [mappages]: [a] reaches [last] after as many rounds as there
    are pages between them, which is the fuel it is given. *)
Fixpoint mappages_loop (fuel : nat) (pgdir a last pa perm : Z) : M kst Z :=
  match fuel with
  | O => fail NoFuel
  | S fuel' =>
      pte <- walkpgdir pgdir a true ;;
      if pte =? 0 then ret (-1)
      else
        e <- ldw pte ;;
        if present e then panic "remap"
        else
          stw pte (Z.lor (Z.lor pa perm) PTE_P) ;;;
          if a =? last then ret 0
          else mappages_loop fuel' pgdir (u32 (a + PGSIZE)) last (u32 (pa + PGSIZE)) perm
  end.

Definition mappages (pgdir va size pa perm : Z) : M kst Z :=
  let a := PGROUNDDOWN va in
  let last := PGROUNDDOWN (u32 (va + size - 1)) in
  mappages_loop (Z.to_nat (u32 (last - a) / PGSIZE + 1)) pgdir a last pa perm.

(** The loop of [deallocuvm].  Every round moves [a] up by a page at least. *)
Fixpoint deallocuvm_loop (fuel : nat) (pgdir a oldsz : Z) : M kst unit :=
  if a <? oldsz then
    match fuel with
    | O => fail NoFuel
    | S fuel' =>
        pte <- walkpgdir pgdir a false ;;
        if pte =? 0 then
          let a := u32 (PGADDR (PDX a + 1) 0 0 - PGSIZE) in
          deallocuvm_loop fuel' pgdir (u32 (a + PGSIZE)) oldsz
        else
          e <- ldw pte ;;
          (if present e then
             let pa := PTE_ADDR e in
             if pa =? 0 then panic "kfree"
             else kfree kend (P2V pa) ;;; stw pte 0
           else ret tt) ;;;
          deallocuvm_loop fuel' pgdir (u32 (a + PGSIZE)) oldsz
    end
  else ret tt.

Definition deallocuvm (pgdir oldsz newsz : Z) : M kst Z :=
  if oldsz <=? newsz then ret oldsz
  else
    deallocuvm_loop (Z.to_nat (oldsz / PGSIZE + 1)) pgdir (PGROUNDUP newsz) oldsz ;;;
    ret newsz.

(** The loop of [freevm] over the directory, [n] entries from [i]. *)
Fixpoint freevm_loop (n : nat) (i pgdir : Z) : M kst unit :=
  match n with
  | O => ret tt
  | S n' =>
      e <- ldw (u32 (pgdir + 4 * i)) ;;
      (if present e then kfree kend (page_of e) else ret tt) ;;;
      freevm_loop n' (i + 1) pgdir
  end.

Definition freevm (pgdir : Z) : M kst unit :=
  if pgdir =? 0 then panic "freevm: no pgdir"
  else
    deallocuvm pgdir KERNBASE 0 ;;;
    freevm_loop (Z.to_nat NPDENTRIES) 0 pgdir ;;;
    kfree kend pgdir.

(** [struct kmap] and the table [kmap]. *)
Record kmap := Kmap {
  virt : Z;
  phys_start : Z;
  phys_end : Z;
  perm : Z
}.
Definition kmaps : list kmap :=
  [ Kmap KERNBASE 0 EXTMEM PTE_W;
    Kmap KERNLINK (V2P KERNLINK) (V2P kdata) 0;
    Kmap kdata (V2P kdata) PHYSTOP PTE_W;
    Kmap DEVSPACE DEVSPACE 0 PTE_W ].

Fixpoint setupkvm_loop (ks : list kmap) (pgdir : Z) : M kst Z :=
  match ks with
  | [] => ret pgdir
  | k :: ks' =>
      r <- mappages pgdir (virt k) (u32 (phys_end k - phys_start k)) (phys_start k) (perm k) ;;
      if r <? 0 then freevm pgdir ;;; ret 0
      else setupkvm_loop ks' pgdir
  end.

Definition setupkvm : M kst Z :=
  pgdir <- kalloc ;;
  if pgdir =? 0 then ret 0
  else
    fill pgdir 0 PGSIZE ;;;
    if DEVSPACE <? P2V PHYSTOP then panic "PHYSTOP too high"
    else setupkvm_loop kmaps pgdir.

(** [init] is the address of the code to load. *)
Definition inituvm (pgdir init sz : Z) : M kst unit :=
  if PGSIZE <=? sz then panic "inituvm: more than a page"
  else
    mem <- kalloc ;;
    if mem =? 0 then fail Fault       (* memset on a null pointer *)
    else
      fill mem 0 PGSIZE ;;;
      mappages pgdir 0 PGSIZE (V2P mem) (Z.lor PTE_W PTE_U) ;;;
      move mem init sz.

(** The code of vm.c beside another component's state [F]. *)
Definition on_vm {F A} (m : M kst A) : M (kst * F) A := zoom fst (λ k s, (k, s.2)) m.

(** [loaduvm], with [readi] (fs.c) on the inode as a parameter. *)
Fixpoint loaduvm_loop {F} (readi : Z → Z → Z → M (kst * F) Z) (fuel : nat) (pgdir addr i offset sz : Z)
    : M (kst * F) Z :=
  if i <? sz then
    match fuel with
    | O => fail NoFuel
    | S fuel' =>
        pte <- on_vm (walkpgdir pgdir (u32 (addr + i)) false) ;;
        if pte =? 0 then panic "loaduvm: address should exist"
        else
          e <- on_vm (ldw pte) ;;
          let pa := PTE_ADDR e in
          let n := if u32 (sz - i) <? PGSIZE then u32 (sz - i) else PGSIZE in
          r <- readi (P2V pa) (u32 (offset + i)) n ;;
          if negb (u32 r =? n) then ret (-1)
          else loaduvm_loop readi fuel' pgdir addr (u32 (i + PGSIZE)) offset sz
    end
  else ret 0.

Definition loaduvm {F} (readi : Z → Z → Z → M (kst * F) Z) (pgdir addr offset sz : Z) : M (kst * F) Z :=
  if negb (addr mod PGSIZE =? 0) then panic "loaduvm: addr must be page aligned"
  else loaduvm_loop readi (Z.to_nat (sz / PGSIZE + 1)) pgdir addr 0 offset sz.

Fixpoint allocuvm_loop (fuel : nat) (pgdir a oldsz newsz : Z) : M kst Z :=
  if a <? newsz then
    match fuel with
    | O => fail NoFuel
    | S fuel' =>
        mem <- kalloc ;;
        if mem =? 0 then
          deallocuvm pgdir newsz oldsz ;;; ret 0
        else
          fill mem 0 PGSIZE ;;;
          r <- mappages pgdir a PGSIZE (V2P mem) (Z.lor PTE_W PTE_U) ;;
          if r <? 0 then
            deallocuvm pgdir newsz oldsz ;;; kfree kend mem ;;; ret 0
          else allocuvm_loop fuel' pgdir (u32 (a + PGSIZE)) oldsz newsz
    end
  else ret newsz.

Definition allocuvm (pgdir oldsz newsz : Z) : M kst Z :=
  if KERNBASE <=? newsz then ret 0
  else if newsz <? oldsz then ret oldsz
  else allocuvm_loop (Z.to_nat (newsz / PGSIZE + 1)) pgdir (PGROUNDUP oldsz) oldsz newsz.

Definition clearpteu (pgdir uva : Z) : M kst unit :=
  pte <- walkpgdir pgdir uva false ;;
  if pte =? 0 then panic "clearpteu"
  else e <- ldw pte ;; stw pte (Z.land e (Z.lnot PTE_U)).

Fixpoint copyuvm_loop (fuel : nat) (pgdir d i sz : Z) : M kst Z :=
  if i <? sz then
    match fuel with
    | O => fail NoFuel
    | S fuel' =>
        pte <- walkpgdir pgdir i false ;;
        if pte =? 0 then panic "copyuvm: pte should exist"
        else
          e <- ldw pte ;;
          if negb (present e) then panic "copyuvm: page not present"
          else
            let pa := PTE_ADDR e in
            let flags := PTE_FLAGS e in
            mem <- kalloc ;;
            if mem =? 0 then freevm d ;;; ret 0
            else
              move mem (P2V pa) PGSIZE ;;;
              r <- mappages d i PGSIZE (V2P mem) flags ;;
              if r <? 0 then kfree kend mem ;;; freevm d ;;; ret 0
              else copyuvm_loop fuel' pgdir d (u32 (i + PGSIZE)) sz
    end
  else ret d.

Definition copyuvm (pgdir sz : Z) : M kst Z :=
  d <- setupkvm ;;
  if d =? 0 then ret 0
  else copyuvm_loop (Z.to_nat (sz / PGSIZE + 1)) pgdir d 0 sz.

Definition uva2ka (pgdir uva : Z) : M kst Z :=
  pte <- walkpgdir pgdir uva false ;;
  if pte =? 0 then fail Fault         (* [*pte] on a null pointer *)
  else
    e <- ldw pte ;;
    if Z.land e PTE_P =? 0 then ret 0
    else if Z.land e PTE_U =? 0 then ret 0
    else ret (page_of e).

Fixpoint copyout_loop (fuel : nat) (pgdir va buf len : Z) : M kst Z :=
  if 0 <? len then
    match fuel with
    | O => fail NoFuel
    | S fuel' =>
        let va0 := PGROUNDDOWN va in
        pa0 <- uva2ka pgdir va0 ;;
        if pa0 =? 0 then ret (-1)
        else
          let n := u32 (PGSIZE - (va - va0)) in
          let n := if len <? n then len else n in
          move (u32 (pa0 + (va - va0))) buf n ;;;
          copyout_loop fuel' pgdir (u32 (va0 + PGSIZE)) (u32 (buf + n)) (u32 (len - n))
    end
  else ret 0.

Definition copyout (pgdir va p len : Z) : M kst Z :=
  copyout_loop (Z.to_nat (len / PGSIZE + 2)) pgdir va p len.

End vm.
