(* ===== verification/VmInv.v ===== *)
(** Who owns which page: the invariant of the page tables

    [own] gives every allocated page its role: a page directory, the page table
    of a directory entry, the user page behind a virtual page number, or a page
    that running kernel code holds ([Loose]).  [vm_inv own l s] says that the
    directories and tables in memory agree with [own] and that the free list is
    [l].  Since a page has one role only, it follows that no page is mapped
    twice, that address spaces share nothing and that a page on the free list
    is mapped nowhere.  Every page of the pool is free or has a role, so that
    none is ever lost.

    Each lemma here is one kind of store or allocation that the code performs,
    with its effect on [own] and on the entries [pte_val] of every address
    space. *)

From stdpp Require Import gmap list numbers strings.
From Stdlib Require Import ZArith Lia.
From S2P Require Import Prelude Mem Memlayout Kalloc Vm.

Inductive role : Type :=
| Loose
| Dir
| Tab (d i : Z)
| User (d v : Z).

#[global] Instance role_eq_dec : EqDecision role.
Proof. solve_decision. Defined.

(** The pages that the allocator manages: what [kinit1] and [kinit2] freed. *)
Class page_pool := pool : gset Z.

(** Entry [i] of the page at [p]. *)
Definition word (m : mem) (p i : Z) : Z := ld32 m (p + 4 * i).

(** The page-table entry of virtual page [v]; 0 where there is no table. *)
Definition pte_val (m : mem) (d v : Z) : Z :=
  let e := word m d (v / 1024) in
  if present e then word m (page_of e) (v mod 1024) else 0.

(** Virtual pages below KERNBASE. *)
Definition USERPAGES : Z := 524288.

(** ** Entries *)

Lemma present_odd e : present e = Z.odd e.
Proof.
  unfold present, PTE_P. change 1 with (Z.ones 1). rewrite Z.land_ones by lia. change (2 ^ 1) with 2.
  rewrite Zmod_odd. by destruct (Z.odd e).
Qed.

Lemma lor_low12 a fl : a mod 4096 = 0 → 0 ≤ fl < 4096 → Z.lor a fl = a + fl.
Proof.
  intros Ha Hfl.
  assert (H : Z.land a fl = 0).
  { replace a with (Z.shiftl (a / 4096) 12)
      by (rewrite Z.shiftl_mul_pow2 by lia; change (2 ^ 12) with 4096; Z.div_mod_to_equations; lia).
    apply Z.bits_inj'. intros n Hn. rewrite Z.land_spec, Z.bits_0.
    destruct (decide (n < 12)).
    - by rewrite Z.shiftl_spec_low.
    - assert (Z.testbit fl n = false) as ->; [|apply andb_false_r].
      destruct (decide (fl = 0)) as [->|]; [apply Z.bits_0|].
      apply Z.bits_above_log2; [lia|].
      assert (Z.log2 fl < 12) by (apply Z.log2_lt_pow2; lia). lia. }
  rewrite <-Z.lxor_lor by done. symmetry. by apply Z.add_nocarry_lxor.
Qed.

Lemma lor_range12 a b : 0 ≤ a < 4096 → 0 ≤ b < 4096 → 0 ≤ Z.lor a b < 4096.
Proof.
  intros Ha Hb. split; [apply Z.lor_nonneg; lia|].
  destruct (decide (Z.lor a b = 0)) as [->|]; [lia|].
  apply (Z.log2_lt_pow2 _ 12).
  - pose proof (proj2 (Z.lor_nonneg a b) ltac:(lia)). lia.
  - rewrite Z.log2_lor by lia. apply Z.max_lub_lt.
    + destruct (decide (a = 0)) as [->|]; [done|]. apply Z.log2_lt_pow2; lia.
    + destruct (decide (b = 0)) as [->|]; [done|]. apply Z.log2_lt_pow2; lia.
Qed.

(** An entry the code builds from a page-aligned physical address. *)
Lemma entry_page a fl : a mod 4096 = 0 → 0 ≤ a → 0 ≤ fl < 4096 → a + KERNBASE < 4294967296 →
  page_of (Z.lor a fl) = a + KERNBASE.
Proof.
  intros Ha H0 Hfl Hb. unfold page_of, P2V. rewrite lor_low12, PTE_ADDR_div by done.
  replace (4096 * ((a + fl) / 4096)) with a by (Z.div_mod_to_equations; lia).
  apply u32_small. unfold KERNBASE in *. lia.
Qed.

Lemma entry_flags a fl : a mod 4096 = 0 → 0 ≤ fl < 4096 → PTE_FLAGS (Z.lor a fl) = fl.
Proof.
  intros Ha Hfl. rewrite lor_low12, PTE_FLAGS_mod by done. Z.div_mod_to_equations; lia.
Qed.

Lemma present_lor a : present (Z.lor a PTE_P) = true.
Proof.
  rewrite present_odd. unfold PTE_P. rewrite <-Z.bit0_odd, Z.lor_spec.
  apply orb_true_r.
Qed.

Section pages.
Context {Hpool : page_pool}.
Variable kend : Z.
Implicit Types (m : mem) (p q d t i j : Z).

Lemma page_addr p i : page_ok kend p → 0 ≤ i < 1024 → u32 (p + 4 * i) = p + 4 * i.
Proof. intros Hp Hi. unfold page_ok, KERNBASE, PHYSTOP in Hp. apply u32_small. lia. Qed.

Lemma page_addr' p i : page_ok kend p → 0 ≤ i < 1024 → u32 (p + 4 * i) = p + 4 * i ∧ p + 4 * i ≠ 0.
Proof. intros Hp Hi. rewrite page_addr by done. apply page_ok_pos in Hp. unfold KERNBASE in Hp. lia. Qed.

(** Words of other pages are not affected by a change inside a page. *)
Lemma word_other m m' p q i : page_ok kend p → page_ok kend q → p ≠ q → 0 ≤ i < 1024 →
  (∀ b, ¬ in_page p b → ld8 m' b = ld8 m b) → word m' q i = word m q i.
Proof.
  intros Hp Hq Hne Hi Heq. apply ld32_ext. intros b Hb. apply Heq.
  apply (page_ok_disjoint kend q p); try done. unfold in_page, PGSIZE. lia.
Qed.

Lemma word_st32 m p q i j w : page_ok kend p → page_ok kend q → 0 ≤ i < 1024 → 0 ≤ j < 1024 →
  word (st32 m (p + 4 * i) w) q j = if decide (p = q ∧ i = j) then u32 w else word m q j.
Proof.
  intros Hp Hq Hi Hj. unfold word. case_decide as Hd.
  - destruct Hd as [-> ->]. apply ld32_st32_eq.
  - apply ld32_st32_ne. unfold page_ok, PGSIZE in *. Z.div_mod_to_equations. lia.
Qed.

Lemma word_fill m p i : page_ok kend p → 0 ≤ i < 1024 → word (memset m p 0 PGSIZE) p i = 0.
Proof.
  intros Hp Hi. unfold word, ld32, PGSIZE. rewrite !ld8_memset by lia.
  rewrite !decide_True by lia. done.
Qed.

Lemma fill_other m p c b : ¬ in_page p b → ld8 (memset m p c PGSIZE) b = ld8 m b.
Proof.
  unfold in_page, PGSIZE. intros. rewrite ld8_memset by lia. by rewrite decide_False.
Qed.

Lemma st32_in_page m p i w b : page_ok kend p → 0 ≤ i < 1024 → ¬ in_page p b →
  ld8 (st32 m (p + 4 * i) w) b = ld8 m b.
Proof. unfold in_page, PGSIZE. intros. apply ld8_st32_ne. lia. Qed.

(** Page-sized physical addresses of the allocator's pages. *)
Lemma V2P_page p : page_ok kend p → V2P p = p - KERNBASE ∧ V2P p mod 4096 = 0 ∧ 0 ≤ V2P p ∧
  V2P p + KERNBASE < 4294967296 ∧ V2P p + KERNBASE = p.
Proof.
  intros Hp. pose proof (page_ok_pos _ _ Hp) as [Hr _]. unfold page_ok, PGSIZE in Hp.
  assert (V2P p = p - KERNBASE) as -> by (unfold V2P; apply u32_small; unfold KERNBASE in *; lia).
  unfold KERNBASE, PHYSTOP in *. Z.div_mod_to_equations. lia.
Qed.

(** ** The invariant *)

(** Every page of the pool, and no other, is free or has a role. *)
Definition accounted (own : gmap Z role) (l : list Z) : Prop :=
  ∀ p, p ∈ pool ↔ p ∈ l ∨ is_Some (own !! p).

Lemma accounted_role own l p r : accounted own l → is_Some (own !! p) → accounted (<[p := r]> own) l.
Proof.
  intros H Hp q. rewrite (H q). destruct (decide (p = q)) as [<-|].
  - rewrite lookup_insert_eq. naive_solver.
  - by rewrite lookup_insert_ne.
Qed.

Lemma accounted_take own l p r : accounted own (p :: l) → accounted (<[p := r]> own) l.
Proof.
  intros H q. rewrite (H q), elem_of_cons. destruct (decide (p = q)) as [<-|].
  - rewrite lookup_insert_eq. naive_solver.
  - rewrite lookup_insert_ne by done. naive_solver.
Qed.

Lemma accounted_give own l p : accounted own l → is_Some (own !! p) → accounted (delete p own) (p :: l).
Proof.
  intros H Hp q. rewrite (H q), elem_of_cons. destruct (decide (p = q)) as [<-|].
  - rewrite lookup_delete_eq. naive_solver.
  - rewrite lookup_delete_ne by done. naive_solver.
Qed.

Record vm_inv (own : gmap Z role) (l : list Z) (s : kst) : Prop := {
  vi_kmem : kmem_inv kend s l;
  vi_page : ∀ p r, own !! p = Some r → page_ok kend p ∧ p ∉ l;
  vi_pde : ∀ d i, own !! d = Some Dir → 0 ≤ i < 1024 → present (word (memory s) d i) = true →
    own !! page_of (word (memory s) d i) = Some (Tab d i);
  vi_tab : ∀ t d i, own !! t = Some (Tab d i) → own !! d = Some Dir ∧ 0 ≤ i < 1024 ∧
    present (word (memory s) d i) = true ∧ page_of (word (memory s) d i) = t;
  vi_pte : ∀ t d i j, own !! t = Some (Tab d i) → i < 512 → 0 ≤ j < 1024 →
    present (word (memory s) t j) = true →
    own !! page_of (word (memory s) t j) = Some (User d (1024 * i + j));
  vi_user : ∀ p d v, own !! p = Some (User d v) → 0 ≤ v < USERPAGES ∧
    ∃ t, own !! t = Some (Tab d (v / 1024)) ∧ present (word (memory s) t (v mod 1024)) = true ∧
      page_of (word (memory s) t (v mod 1024)) = p;
  vi_pool : accounted own l
}.

Lemma vpn_split v : 0 ≤ v → v = 1024 * (v / 1024) + v mod 1024 ∧ 0 ≤ v mod 1024 < 1024 ∧ 0 ≤ v / 1024.
Proof. intros. Z.div_mod_to_equations. lia. Qed.

Lemma vpn_index i j : 0 ≤ i → 0 ≤ j < 1024 → (1024 * i + j) / 1024 = i ∧ (1024 * i + j) mod 1024 = j.
Proof. intros. Z.div_mod_to_equations. lia. Qed.

Section inv.
Context (own : gmap Z role) (l : list Z) (s : kst).
Hypothesis Hinv : vm_inv own l s.

(** The page behind a present user entry. *)
Lemma pte_val_user d v : own !! d = Some Dir → 0 ≤ v < USERPAGES →
  present (pte_val (memory s) d v) = true →
  own !! page_of (pte_val (memory s) d v) = Some (User d v).
Proof.
  intros Hd Hv Hp. unfold pte_val in *. pose proof (vpn_split v ltac:(lia)) as (E & Hm & Hq).
  unfold USERPAGES in Hv.
  destruct (present (word (memory s) d (v / 1024))) eqn:Hpde; [|done].
  rewrite E at 3. apply (vi_pte _ _ _ Hinv); try done; [|lia].
  apply (vi_pde _ _ _ Hinv); try done. lia.
Qed.

Lemma pte_val_tab t d i j : own !! t = Some (Tab d i) → 0 ≤ j < 1024 →
  pte_val (memory s) d (1024 * i + j) = word (memory s) t j.
Proof.
  intros Ht Hj. destruct (vi_tab _ _ _ Hinv _ _ _ Ht) as (Hd & Hi & Hp & Hpg).
  unfold pte_val. destruct (vpn_index i j) as [-> ->]; [lia..|]. by rewrite Hp, Hpg.
Qed.

(** A page with one role is not a page with another. *)
Lemma role_ne p q r r' : own !! p = Some r → own !! q = Some r' → r ≠ r' → p ≠ q.
Proof. intros Hp Hq Hr ->. congruence. Qed.

Lemma own_page p r : own !! p = Some r → page_ok kend p.
Proof. intros Hp. by destruct (vi_page _ _ _ Hinv _ _ Hp). Qed.

Lemma own_nfree p r : own !! p = Some r → p ∉ l.
Proof. intros Hp. by destruct (vi_page _ _ _ Hinv _ _ Hp). Qed.

(** [pte_val] only reads directories and tables. *)
Lemma pte_val_ext m' d v : own !! d = Some Dir → 0 ≤ v < 1048576 →
  (∀ i, 0 ≤ i < 1024 → word m' d i = word (memory s) d i) →
  (∀ t i j, own !! t = Some (Tab d i) → 0 ≤ j < 1024 → word m' t j = word (memory s) t j) →
  pte_val m' d v = pte_val (memory s) d v.
Proof.
  intros Hd Hv H1 H2. unfold pte_val. pose proof (vpn_split v ltac:(lia)) as (E & Hm & Hq).
  rewrite H1 by lia. destruct (present _) eqn:Hp; [|done].
  eapply H2; [|done]. apply (vi_pde _ _ _ Hinv); try done. lia.
Qed.

(** The lock and free list stay while memory outside the free pages changes. *)
Lemma kmem_inv_mem m' : (∀ p b, p ∈ l → in_page p b → ld8 m' b = ld8 (memory s) b) →
  kmem_inv kend (set_memory m' s) l.
Proof.
  intros Hm. destruct (vi_kmem _ _ _ Hinv) as (Hc & Hn & Ho & Hl). split_and!; try done.
  simpl. eapply chain_ext; [|done]. intros p a Hp Ha. symmetry. by eapply Hm.
Qed.

(** A change confined to one owned page keeps the allocator's invariant. *)
Lemma kmem_inv_page m' q r : own !! q = Some r →
  (∀ b, ¬ in_page q b → ld8 m' b = ld8 (memory s) b) → kmem_inv kend (set_memory m' s) l.
Proof.
  intros Hq Hm. apply kmem_inv_mem. intros p b Hp Hb. apply Hm.
  destruct (vi_page _ _ _ Hinv _ _ Hq) as [Hok Hnin].
  destruct (vi_kmem _ _ _ Hinv) as (_ & _ & Ho & _). rewrite Forall_forall in Ho.
  apply (page_ok_disjoint kend p q); [by apply Ho|done|by intros ->|done].
Qed.

(** What a change confined to [q] leaves of another owned page. *)
Lemma word_keep m' q r p r' i : own !! q = Some r → own !! p = Some r' → q ≠ p → 0 ≤ i < 1024 →
  (∀ b, ¬ in_page q b → ld8 m' b = ld8 (memory s) b) → word m' p i = word (memory s) p i.
Proof. intros Hq Hp Hne Hi Hm. apply (word_other _ _ q p); [by eapply own_page|by eapply own_page|done..]. Qed.

End inv.

(** ** Transitions *)

Section transitions.
Context (own : gmap Z role) (l : list Z) (s : kst).
Hypothesis Hinv : vm_inv own l s.

Lemma own_free p : p ∈ l → own !! p = None.
Proof.
  intros Hp. destruct (own !! p) as [r|] eqn:E; [|done].
  by destruct (vi_page _ _ _ Hinv _ _ E).
Qed.

(** Entries of [own] that are not [p] survive an insertion at [p]. *)
Lemma own_keep p r q r' : (own !! p = None ∨ own !! p = Some Loose) → r' ≠ Loose →
  own !! q = Some r' → <[p := r]> own !! q = Some r'.
Proof. intros Hp Hr Hq. rewrite lookup_insert_ne; [done|]. intros ->. destruct Hp; congruence. Qed.

(** Stores into a page that is neither a directory nor a table change no
    mapping. *)
Lemma inv_scratch q m' : (own !! q = Some Loose ∨ ∃ d v, own !! q = Some (User d v)) →
  (∀ b, ¬ in_page q b → ld8 m' b = ld8 (memory s) b) →
  vm_inv own l (set_memory m' s) ∧
  ∀ d v, own !! d = Some Dir → 0 ≤ v < 1048576 → pte_val m' d v = pte_val (memory s) d v.
Proof.
  intros Hq Hm.
  assert (Hqr : ∃ r, own !! q = Some r) by (destruct Hq as [?|(? & ? & ?)]; eauto). destruct Hqr as [r Hr].
  assert (Hw : ∀ p r' i, own !! p = Some r' → (r' = Dir ∨ ∃ d j, r' = Tab d j) → 0 ≤ i < 1024 →
    word m' p i = word (memory s) p i).
  { intros p r' i Hp Hr' Hi. apply (word_keep own l s Hinv m' q r p r' i); try done.
    intros ->. rewrite Hp in Hq. destruct Hr' as [->|(? & ? & ->)], Hq as [?|(? & ? & ?)]; congruence. }
  assert (Hpg : ∀ d v, own !! d = Some Dir → 0 ≤ v < 1048576 →
    pte_val m' d v = pte_val (memory s) d v).
  { intros d v Hd Hv. apply (pte_val_ext own l s Hinv); [done|done|..].
    - intros i Hi. eapply Hw; [done|by left|done].
    - intros t i j Ht Hj. eapply Hw; [done|by right; eauto|done]. }
  split; [|done]. destruct Hinv as [H1 H2 H3 H4 H5 H6 H7]. split; simpl.
  - by eapply kmem_inv_page.
  - done.
  - intros d i Hd Hi. rewrite (Hw d Dir i) by auto. by apply H3.
  - intros t d i Ht. destruct (H4 t d i Ht) as (Hd & Hi & ?). rewrite (Hw d Dir i) by auto. auto.
  - intros t d i j Ht Hi Hj. rewrite (Hw t (Tab d i) j) by eauto. by eapply H5.
  - intros p d v Hp. destruct (H6 p d v Hp) as (Hv & t & Ht & ?). split; [done|]. exists t.
    unfold USERPAGES in Hv. pose proof (vpn_split v ltac:(lia)).
    rewrite (Hw t (Tab d (v / 1024)) (v mod 1024)) by (eauto; lia). done.
  - done.
Qed.

(** A zeroed loose page becomes the table of an absent directory entry. *)
Lemma inv_new_table t d i w : own !! t = Some Loose → own !! d = Some Dir → 0 ≤ i < 1024 →
  present (word (memory s) d i) = false →
  (∀ j, 0 ≤ j < 1024 → word (memory s) t j = 0) →
  present (u32 w) = true → page_of (u32 w) = t →
  let m' := st32 (memory s) (d + 4 * i) w in
  vm_inv (<[t := Tab d i]> own) l (set_memory m' s) ∧
  ∀ d' v, own !! d' = Some Dir → 0 ≤ v < 1048576 → pte_val m' d' v = pte_val (memory s) d' v.
Proof.
  intros Ht Hd Hi Habs Hz Hw Hwt m'.
  assert (Hnot : ∀ t', own !! t' ≠ Some (Tab d i)).
  { intros t' Ht'. destruct (vi_tab _ _ _ Hinv _ _ _ Ht') as (_ & _ & Hp & _). congruence. }
  assert (Hokd : page_ok kend d) by (by eapply own_page).
  assert (Hokt : page_ok kend t) by (by eapply own_page).
  assert (Hdt : d ≠ t) by (intros ->; congruence).
  assert (Hwd : ∀ d' i', own !! d' = Some Dir → 0 ≤ i' < 1024 →
    word m' d' i' = if decide (d = d' ∧ i = i') then u32 w else word (memory s) d' i').
  { intros d' i' Hd' Hi'. apply word_st32; try done. by eapply own_page. }
  assert (Hwt' : ∀ t' r' j, own !! t' = Some r' → r' ≠ Dir → 0 ≤ j < 1024 →
    word m' t' j = word (memory s) t' j).
  { intros t' r' j Ht' Hr' Hj. apply (word_keep own l s Hinv m' d Dir t' r' j); try done.
    - intros ->. congruence.
    - intros b Hb. by eapply st32_in_page. }
  split.
  - destruct Hinv as [H1 H2 H3 H4 H5 H6 H7]. split; simpl.
    + eapply (kmem_inv_page own l s Hinv); [exact Hd|]. intros b Hb. by eapply st32_in_page.
    + intros q r [(<- & _)|(_ & Hq)]%lookup_insert_Some; by eapply H2.
    + intros d' i' [(_ & [=])|(Hne & Hd')]%lookup_insert_Some Hi' Hp. rewrite Hwd in * by done.
      case_decide as Hc.
      * destruct Hc as [<- <-]. rewrite Hwt. apply lookup_insert_eq.
      * apply own_keep; [by right|done|]. by apply H3.
    + intros t' d' i' [(<- & [= <- <-])|(Hne & Ht')]%lookup_insert_Some.
      * split_and!; try lia; [by apply own_keep; [right|..]| |]; rewrite Hwd, decide_True by done; done.
      * destruct (H4 _ _ _ Ht') as (Hd' & Hi' & Hp' & Hpg').
        rewrite Hwd by done. rewrite decide_False by (intros [<- <-]; by eapply Hnot).
        split_and!; try done; try lia. apply own_keep; [by right|done..].
    + intros t' d' i' j [(<- & [= <- <-])|(Hne & Ht')]%lookup_insert_Some Hi' Hj.
      * rewrite (Hwt' t Loose), Hz by done. done.
      * rewrite (Hwt' t' (Tab d' i')) by done. intros Hp.
        apply own_keep; [by right|done|]. by eapply H5.
    + intros q d' v [(<- & [=])|(Hne & Hq)]%lookup_insert_Some.
      destruct (H6 _ _ _ Hq) as (Hv & t' & Ht' & Hp' & Hpg'). split; [done|]. exists t'.
      unfold USERPAGES in Hv. pose proof (vpn_split v ltac:(lia)).
      rewrite (Hwt' t' (Tab d' (v / 1024))) by (try done; lia).
      split; [|done]. apply own_keep; [by right|done..].
    + apply accounted_role; eauto.
  - intros d' v Hd' Hv. pose proof (vpn_split v ltac:(lia)) as (E & Hm & Hq). unfold pte_val.
    rewrite Hwd by (try done; lia). case_decide as Hc.
    + destruct Hc as [<- Hc]. rewrite Hw, Hwt, <-Hc, Habs. by rewrite (Hwt' t Loose), Hz.
    + destruct (present (word (memory s) d' (v / 1024))) eqn:Hp; [|done].
      apply (Hwt' _ (Tab d' (v / 1024))); [|done|done]. apply (vi_pde _ _ _ Hinv); try done. lia.
Qed.

End transitions.

(** [kalloc] hands a free page to the running code. *)
Lemma inv_kalloc own p l' s : vm_inv own (p :: l') s →
  ∃ s', kalloc s = Ok p s' ∧ memory s' = memory s ∧ vm_inv (<[p := Loose]> own) l' s' ∧
        own !! p = None ∧ page_ok kend p.
Proof.
  intros Hinv. destruct (kalloc_pop kend s p l' (vi_kmem _ _ _ Hinv))
    as (s' & Hrun & Hk & Hm & _ & Hnin & Hok).
  assert (Hnone : own !! p = None) by (eapply own_free; [done|by left]).
  exists s'. split_and!; try done. split; rewrite ?Hm.
  - done.
  - intros q r [(<- & <-)|(_ & Hq)]%lookup_insert_Some; [done|].
    destruct (vi_page _ _ _ Hinv _ _ Hq) as [? Hn]. split; [done|].
    intros Hin. apply Hn. by right.
  - intros d i [(_ & [=])|(_ & Hd)]%lookup_insert_Some Hi Hp.
    apply (own_keep own); [by left|done|]. by apply (vi_pde _ _ _ Hinv).
  - intros t d i [(_ & [=])|(_ & Ht)]%lookup_insert_Some.
    destruct (vi_tab _ _ _ Hinv _ _ _ Ht) as (? & ? & ? & ?).
    split_and!; try done; try lia. apply (own_keep own); [by left|done..].
  - intros t d i j [(_ & [=])|(_ & Ht)]%lookup_insert_Some Hi Hj Hp.
    apply (own_keep own); [by left|done|]. by eapply (vi_pte _ _ _ Hinv).
  - intros q d v [(_ & [=])|(_ & Hq)]%lookup_insert_Some.
    destruct (vi_user _ _ _ Hinv _ _ _ Hq) as (Hv & t & Ht & Hpt & Hpg).
    split; [done|]. exists t. split; [|done]. apply (own_keep own); [by left|done..].
  - apply accounted_take, (vi_pool _ _ _ Hinv).
Qed.

(** *** A store to entry [j] of the table of directory entry [i] *)

Section store_pte.
Context (own : gmap Z role) (l : list Z) (s : kst) (t d i j w : Z).
Hypothesis Hinv : vm_inv own l s.
Hypothesis Ht : own !! t = Some (Tab d i).
Hypothesis Hj : 0 ≤ j < 1024.

Let m' : mem := st32 (memory s) (t + 4 * j) w.

Lemma store_word p r k : own !! p = Some r → 0 ≤ k < 1024 →
  word m' p k = if decide (t = p ∧ j = k) then u32 w else word (memory s) p k.
Proof. intros Hp Hk. apply word_st32; try done; by eapply own_page. Qed.

Lemma store_dir d' k : own !! d' = Some Dir → 0 ≤ k < 1024 → word m' d' k = word (memory s) d' k.
Proof.
  intros Hd Hk. rewrite (store_word d' Dir) by done. rewrite decide_False; [done|].
  intros [<- _]. congruence.
Qed.

Lemma store_outside b : ¬ in_page t b → ld8 m' b = ld8 (memory s) b.
Proof. intros Hb. apply st32_in_page; try done. by eapply own_page. Qed.

Lemma store_pte_val d' v : own !! d' = Some Dir → 0 ≤ v < 1048576 →
  pte_val m' d' v = if decide (d' = d ∧ v = 1024 * i + j) then u32 w else pte_val (memory s) d' v.
Proof.
  intros Hd Hv. pose proof (vpn_split v ltac:(lia)) as (E & Hm & Hq). unfold pte_val.
  destruct (vi_tab _ _ _ Hinv _ _ _ Ht) as (_ & Hi & Hp & Hpg).
  rewrite store_dir by (done || lia).
  destruct (present (word (memory s) d' (v / 1024))) eqn:Hpde.
  - assert (Hown : own !! page_of (word (memory s) d' (v / 1024)) = Some (Tab d' (v / 1024)))
      by (apply (vi_pde _ _ _ Hinv); [done|lia|done]).
    rewrite (store_word _ _ _ Hown) by done.
    destruct (decide (t = page_of (word (memory s) d' (v / 1024)) ∧ j = v mod 1024)) as [[H1 H2]|Hn].
    + rewrite <-H1, Ht in Hown. injection Hown as -> ->. rewrite decide_True by (split; lia). done.
    + rewrite decide_False; [done|]. intros [-> ->].
      destruct (vpn_index i j) as [E1 E2]; [lia..|]. rewrite E1, E2, Hpg in Hn. by destruct Hn.
  - rewrite decide_False; [done|]. intros [-> ->].
    destruct (vpn_index i j) as [E1 E2]; [lia..|]. rewrite E1 in Hpde. congruence.
Qed.

(** Entries of the kernel half do not matter for ownership. *)
Lemma inv_store_kern : 512 ≤ i → vm_inv own l (set_memory m' s).
Proof.
  intros Hi. pose proof Hinv as [H1 H2 H3 H4 H5 H6 H7]. split; simpl.
  - eapply (kmem_inv_page own l s Hinv); [exact Ht|]. apply store_outside.
  - done.
  - intros d' k Hd Hk. rewrite store_dir by done. by apply H3.
  - intros t' d' k Ht'. destruct (H4 _ _ _ Ht') as (Hd & Hk & ?). rewrite store_dir by done. auto.
  - intros t' d' k q Ht' Hk Hq. rewrite (store_word _ _ _ Ht') by done.
    rewrite decide_False; [by eapply H5|]. intros [<- _]. rewrite Ht in Ht'. injection Ht' as -> ->. lia.
  - intros q d' v Hq. destruct (H6 _ _ _ Hq) as (Hv & t' & Ht' & Hp). split; [done|]. exists t'.
    unfold USERPAGES in Hv. pose proof (vpn_split v ltac:(lia)).
    rewrite (store_word _ _ _ Ht') by lia. rewrite decide_False; [done|].
    intros [<- _]. rewrite Ht in Ht'. injection Ht' as -> ->. Z.div_mod_to_equations; lia.
  - done.
Qed.

(** An absent user entry is made to refer to a loose page. *)
Lemma inv_store_user p : i < 512 → own !! p = Some Loose →
  present (word (memory s) t j) = false → present (u32 w) = true → page_of (u32 w) = p →
  vm_inv (<[p := User d (1024 * i + j)]> own) l (set_memory m' s).
Proof.
  intros Hi Hp Habs Hw Hwp. pose proof Hinv as [H1 H2 H3 H4 H5 H6 H7].
  destruct (H4 _ _ _ Ht) as (Hd & Hi' & Hpde & Hpg).
  assert (Hpt : p ≠ t) by (intros ->; congruence).
  split; simpl.
  - eapply (kmem_inv_page own l s Hinv); [exact Ht|]. apply store_outside.
  - intros q r [(<- & _)|(_ & Hq)]%lookup_insert_Some; by eapply H2.
  - intros d' k [(_ & [=])|(_ & Hd')]%lookup_insert_Some Hk. rewrite store_dir by done.
    intros Hp'. apply own_keep; [by right|done|]. by apply H3.
  - intros t' d' k [(_ & [=])|(_ & Ht')]%lookup_insert_Some.
    destruct (H4 _ _ _ Ht') as (Hd' & Hk & ? & ?). rewrite store_dir by done.
    split_and!; try done; try lia. apply own_keep; [by right|done..].
  - intros t' d' k q [(_ & [=])|(_ & Ht')]%lookup_insert_Some Hk Hq.
    rewrite (store_word _ _ _ Ht') by done. case_decide as Hc.
    + destruct Hc as [<- <-]. rewrite Ht in Ht'. injection Ht' as -> ->.
      intros _. rewrite Hwp. apply lookup_insert_eq.
    + intros Hp'. apply own_keep; [by right|done|]. by eapply H5.
  - intros q d' v [(<- & [= <- <-])|(Hne & Hq)]%lookup_insert_Some.
    + destruct (vpn_index i j) as [-> ->]; [lia..|]. unfold USERPAGES. split; [lia|]. exists t.
      rewrite (store_word _ _ _ Ht), decide_True by done.
      split; [|done]. apply own_keep; [by right|done..].
    + destruct (H6 _ _ _ Hq) as (Hv & t' & Ht' & Hp' & Hpg'). split; [done|]. exists t'.
      unfold USERPAGES in Hv. pose proof (vpn_split v ltac:(lia)) as (E & Hm & _).
      rewrite (store_word _ _ _ Ht') by lia. rewrite decide_False.
      * split; [|done]. apply own_keep; [by right|done..].
      * intros [<- Ej]. congruence.
  - apply accounted_role; eauto.
Qed.

(** The flags of a present user entry change. *)
Lemma inv_store_flags : i < 512 → present (word (memory s) t j) = true →
  present (u32 w) = true → page_of (u32 w) = page_of (word (memory s) t j) →
  vm_inv own l (set_memory m' s).
Proof.
  intros Hi Hpr Hw Hwp. pose proof Hinv as [H1 H2 H3 H4 H5 H6 H7]. split; simpl.
  - eapply (kmem_inv_page own l s Hinv); [exact Ht|]. apply store_outside.
  - done.
  - intros d' k Hd Hk. rewrite store_dir by done. by apply H3.
  - intros t' d' k Ht'. destruct (H4 _ _ _ Ht') as (Hd & Hk & ?). rewrite store_dir by done. auto.
  - intros t' d' k q Ht' Hk Hq. rewrite (store_word _ _ _ Ht') by done.
    case_decide as Hc; [|by eapply H5]. destruct Hc as [<- <-]. rewrite Hwp. intros _.
    by eapply H5.
  - intros q d' v Hq. destruct (H6 _ _ _ Hq) as (Hv & t' & Ht' & Hp & Hpg). split; [done|]. exists t'.
    unfold USERPAGES in Hv. pose proof (vpn_split v ltac:(lia)).
    rewrite (store_word _ _ _ Ht') by lia. case_decide as Hc; [|done].
    destruct Hc as [<- Ej]. rewrite Hwp. rewrite <-Ej in Hpg. done.
  - done.
Qed.

End store_pte.

(** *** Freeing *)

(** [kfree] of a page no other page refers to. *)
Lemma inv_kfree own l s p : vm_inv own l s → own !! p = Some Loose →
  ∃ s', kfree kend p s = Ok tt s' ∧ vm_inv (delete p own) (p :: l) s' ∧
    (∀ b, ¬ in_page p b → ld8 (memory s') b = ld8 (memory s) b) ∧
    ∀ d v, own !! d = Some Dir → 0 ≤ v < 1048576 → pte_val (memory s') d v = pte_val (memory s) d v.
Proof.
  intros Hinv Hp. destruct (vi_page _ _ _ Hinv _ _ Hp) as [Hok Hnin].
  destruct (kfree_push kend s l p (vi_kmem _ _ _ Hinv) Hok Hnin) as (s' & Hrun & Hk & _ & Hm).
  exists s'. split; [done|].
  destruct (inv_scratch own l s Hinv p (memory s') (or_introl Hp) Hm) as [Hs Hpv].
  split; [|done]. destruct Hs as [H1 H2 H3 H4 H5 H6 H7]. simpl in *.
  assert (Hkeep : ∀ q r, own !! q = Some r → r ≠ Loose → delete p own !! q = Some r).
  { intros q r Hq Hr. rewrite lookup_delete_ne; [done|]. intros <-. congruence. }
  split.
  - done.
  - intros q r [Hne Hq]%lookup_delete_Some. destruct (H2 _ _ Hq) as [? Hn]. split; [done|].
    rewrite not_elem_of_cons. done.
  - intros d i [_ Hd]%lookup_delete_Some Hi Hpr. apply Hkeep; [|done]. by apply H3.
  - intros t d i [_ Ht]%lookup_delete_Some. destruct (H4 _ _ _ Ht) as (? & ? & ? & ?).
    split_and!; try done; try lia. by apply Hkeep.
  - intros t d i j [_ Ht]%lookup_delete_Some Hi Hj Hpr. apply Hkeep; [|done]. by eapply H5.
  - intros q d v [_ Hq]%lookup_delete_Some. destruct (H6 _ _ _ Hq) as (Hv & t & Ht & ?).
    split; [done|]. exists t. split; [by apply Hkeep|done].
  - apply accounted_give; eauto.
Qed.

(** [deallocuvm] frees a user page and then clears the entry that refers to it. *)
Lemma inv_unmap own l s t d i j p : vm_inv own l s → own !! t = Some (Tab d i) → i < 512 →
  0 ≤ j < 1024 → present (word (memory s) t j) = true → page_of (word (memory s) t j) = p →
  ∃ s1, kfree kend p s = Ok tt s1 ∧
    let s2 := set_memory (st32 (memory s1) (t + 4 * j) 0) s1 in
    vm_inv (delete p own) (p :: l) s2 ∧
    (∀ b, ¬ in_page p b → ¬ in_page t b → ld8 (memory s2) b = ld8 (memory s) b) ∧
    ∀ d' v, own !! d' = Some Dir → 0 ≤ v < 1048576 →
      pte_val (memory s2) d' v =
      if decide (d' = d ∧ v = 1024 * i + j) then 0 else pte_val (memory s) d' v.
Proof.
  intros Hinv Ht Hi Hj Hpr Hpg.
  assert (Hp : own !! p = Some (User d (1024 * i + j))) by (rewrite <-Hpg; by eapply vi_pte).
  destruct (vi_tab _ _ _ Hinv _ _ _ Ht) as (Hd & Hi' & _).
  destruct (vi_page _ _ _ Hinv _ _ Hp) as [Hok Hnin].
  destruct (kfree_push kend s l p (vi_kmem _ _ _ Hinv) Hok Hnin) as (s1 & Hrun & Hk & _ & Hm).
  destruct (inv_scratch own l s Hinv p (memory s1)) as [Hs Hpv]; [eauto|done|].
  exists s1. split; [done|]. intros s2.
  pose proof (store_word own l (set_memory (memory s1) s) t d i j 0 Hs Ht Hj) as Hword.
  pose proof (store_dir own l (set_memory (memory s1) s) t d i j 0 Hs Ht Hj) as Hdir.
  pose proof (store_outside own l (set_memory (memory s1) s) t d i j 0 Hs Ht Hj) as Hout.
  simpl in *.
  split; [|split].
  - destruct Hs as [H1 H2 H3 H4 H5 H6 H7]. simpl in *.
    assert (Hkeep : ∀ q r, own !! q = Some r → r ≠ User d (1024 * i + j) → delete p own !! q = Some r).
    { intros q r Hq Hr. rewrite lookup_delete_ne; [done|]. intros <-. congruence. }
    split; simpl.
    + destruct Hk as (Hc & Hn & Ho & Hlk). split_and!; try done.
      apply (chain_ext (memory s1)); [|exact Hc]. intros q a Hq Ha. symmetry. apply Hout.
      rewrite Forall_forall in Ho. apply (page_ok_disjoint kend q t); [by apply Ho| | |done].
      * exact (proj1 (H2 _ _ Ht)).
      * intros ->. apply elem_of_cons in Hq as [->|Hq]; [congruence|]. by destruct (H2 _ _ Ht).
    + intros q r [Hne Hq]%lookup_delete_Some. destruct (H2 _ _ Hq) as [? Hn]. split; [done|].
      rewrite not_elem_of_cons. done.
    + intros d' k [_ Hd']%lookup_delete_Some Hk'. rewrite Hdir by done. intros Hpr'.
      apply Hkeep; [|done]. by apply H3.
    + intros t' d' k [_ Ht']%lookup_delete_Some. destruct (H4 _ _ _ Ht') as (? & ? & ? & ?).
      rewrite Hdir by done. split_and!; try done; try lia. by apply Hkeep.
    + intros t' d' k q [_ Ht']%lookup_delete_Some Hk' Hq. rewrite (Hword _ _ _ Ht') by done.
      case_decide as Hc; [done|]. intros Hpr'. apply Hkeep; [by eapply H5|].
      intros [= -> E]. assert (k = i ∧ q = j) as [-> ->] by (Z.div_mod_to_equations; lia).
      destruct Hc. split; [|done]. destruct (H4 _ _ _ Ht') as (_ & _ & _ & <-).
      by destruct (H4 _ _ _ Ht) as (_ & _ & _ & <-).
    + intros q d' v [Hne Hq]%lookup_delete_Some. destruct (H6 _ _ _ Hq) as (Hv & t' & Ht' & Hp' & Hpg').
      split; [done|]. exists t'. unfold USERPAGES in Hv. pose proof (vpn_split v ltac:(lia)) as (E & Hmod & _).
      rewrite (Hword _ _ _ Ht') by done. rewrite decide_False.
      * split; [by apply Hkeep|done].
      * intros [<- Ej]. apply Hne. rewrite <-Hpg', <-Ej, <-Hpg. f_equal. symmetry.
        apply (word_keep own l s Hinv (memory s1) p (User d (1024 * i + j)) t (Tab d i) j); try done.
        intros ->. congruence.
    + apply accounted_give; eauto.
  - intros b Hb1 Hb2. rewrite <-(Hm b Hb1). apply Hout. done.
  - intros d' v Hd' Hv.
    pose proof (store_pte_val own l (set_memory (memory s1) s) t d i j 0 Hs Ht Hj d' v Hd' Hv) as E.
    simpl in E. unfold s2. simpl. rewrite E. case_decide; [done|]. by apply Hpv.
Qed.

(** *** Directories *)

(** A zeroed loose page becomes an empty directory. *)
Lemma inv_new_dir own l s p : vm_inv own l s → own !! p = Some Loose →
  (∀ j, 0 ≤ j < 1024 → word (memory s) p j = 0) → vm_inv (<[p := Dir]> own) l s.
Proof.
  intros Hinv Hp Hz. pose proof Hinv as [H1 H2 H3 H4 H5 H6 H7]. split; simpl.
  - done.
  - intros q r [(<- & _)|(_ & Hq)]%lookup_insert_Some; by eapply H2.
  - intros d i [(<- & _)|(_ & Hd)]%lookup_insert_Some Hi Hpr; [by rewrite Hz in Hpr|].
    apply own_keep; [by right|done|]. by apply H3.
  - intros t d i [(_ & [=])|(_ & Ht)]%lookup_insert_Some.
    destruct (H4 _ _ _ Ht) as (? & ? & ? & ?). split_and!; try done; try lia.
    apply own_keep; [by right|done..].
  - intros t d i j [(_ & [=])|(_ & Ht)]%lookup_insert_Some Hi Hj Hpr.
    apply own_keep; [by right|done|]. by eapply H5.
  - intros q d v [(_ & [=])|(_ & Hq)]%lookup_insert_Some.
    destruct (H6 _ _ _ Hq) as (Hv & t & Ht & ?). split; [done|]. exists t. split; [|done].
    apply own_keep; [by right|done..].
  - apply accounted_role; eauto.
Qed.

(** The directory and tables of an address space without user pages become
    loose: nothing refers to them any more. *)
Definition retire (d : Z) (own : gmap Z role) : gmap Z role :=
  map_imap (λ q r, Some (if decide (q = d) then Loose else
    match r with Tab d' _ => if decide (d' = d) then Loose else r | _ => r end)) own.

Lemma retire_lookup d own q : retire d own !! q =
  (λ r, if decide (q = d) then Loose else
    match r with Tab d' _ => if decide (d' = d) then Loose else r | _ => r end) <$> own !! q.
Proof. unfold retire. rewrite map_lookup_imap. by destruct (own !! q). Qed.

Lemma inv_retire own l s d : vm_inv own l s → own !! d = Some Dir →
  (∀ q v, own !! q ≠ Some (User d v)) → vm_inv (retire d own) l s.
Proof.
  intros Hinv Hd Hno. pose proof Hinv as [H1 H2 H3 H4 H5 H6 H7].
  assert (Hback : ∀ q r, retire d own !! q = Some r → ∃ r', own !! q = Some r' ∧ (r ≠ Loose → r = r')).
  { intros q r. rewrite retire_lookup. destruct (own !! q) as [r'|]; [|done]. simpl. intros [= <-].
    exists r'. split; [done|]. repeat case_decide; try done. destruct r'; try done. by case_decide. }
  assert (Hfwd : ∀ q r, own !! q = Some r → q ≠ d → (∀ i, r ≠ Tab d i) → retire d own !! q = Some r).
  { intros q r Hq Hne Hr. rewrite retire_lookup, Hq. simpl. rewrite decide_False by done.
    destruct r; try done. case_decide; [|done]. subst. by destruct (Hr i). }
  assert (Hnd : retire d own !! d = Some Loose).
  { rewrite retire_lookup, Hd. simpl. by rewrite decide_True. }
  assert (Hnt : ∀ q i, retire d own !! q ≠ Some (Tab d i)).
  { intros q i. rewrite retire_lookup. destruct (own !! q) as [r|]; [|done]. simpl.
    case_decide; [done|]. destruct r; try done. case_decide; [done|]. congruence. }
  split; simpl.
  - done.
  - intros q r (r' & Hq & _)%Hback. by eapply H2.
  - intros d' i Hd' Hi Hpr. assert (d' ≠ d) by congruence.
    destruct (Hback _ _ Hd') as (r' & Hq & Hr). rewrite <-(Hr ltac:(done)) in Hq.
    apply Hfwd; [by apply H3| |congruence].
    intros E. specialize (H3 _ _ Hq Hi Hpr). rewrite E in H3. congruence.
  - intros t d' i Ht. assert (d' ≠ d) by (intros ->; by eapply Hnt).
    destruct (Hback _ _ Ht) as (r' & Hq & Hr). rewrite <-(Hr ltac:(done)) in Hq.
    destruct (H4 _ _ _ Hq) as (? & ? & ? & ?). split_and!; try done; try lia. by apply Hfwd.
  - intros t d' i j Ht Hi Hj Hpr. assert (d' ≠ d) by (intros ->; by eapply Hnt).
    destruct (Hback _ _ Ht) as (r' & Hq & Hr). rewrite <-(Hr ltac:(done)) in Hq.
    apply Hfwd; [by eapply H5| |done]. intros E.
    specialize (H5 _ _ _ _ Hq Hi Hj Hpr). rewrite E in H5. congruence.
  - intros q d' v Hq. destruct (Hback _ _ Hq) as (r' & Hq' & Hr). rewrite <-(Hr ltac:(done)) in Hq'.
    destruct (H6 _ _ _ Hq') as (Hv & t & Ht & ?). split; [done|]. exists t. split; [|done].
    assert (d' ≠ d) by (intros ->; by eapply Hno). apply Hfwd; [done|intros ->; congruence|congruence].
  - intros q. rewrite (H7 q), retire_lookup, fmap_is_Some. done.
Qed.

End pages.
