(* ===== verification/VmSpec.v ===== *)
(** What the functions of vm.c do to address spaces

    Every function of [Vm] is run from a state that satisfies [vm_inv]; the
    result is described by the ownership map, the entries [pte_val] of every
    address space and the contents of the pages. *)

From stdpp Require Import gmap list numbers strings.
From Stdlib Require Import ZArith Lia.
From S2P Require Import Prelude Mem Memlayout Kalloc Vm VmInv.

(** [own'] is [own] with more tables for the directory [d]. *)
Definition more_tables (d : Z) (own own' : gmap Z role) : Prop :=
  (∀ q r, own !! q = Some r → own' !! q = Some r) ∧
  ∀ q r, own' !! q = Some r → own !! q = Some r ∨ (own !! q = None ∧ ∃ i, r = Tab d i).

(** A page that holds data rather than page-table entries. *)
Definition is_data (r : role) : Prop := r = Loose ∨ ∃ d v, r = User d v.

(** The data pages of [own] have the same contents in [m'] as in [m]. *)
Definition data_same (own : gmap Z role) (m m' : mem) : Prop :=
  ∀ q r b, own !! q = Some r → is_data r → in_page q b → ld8 m' b = ld8 m b.

(** Every entry of every address space of [own] is the same in [m'] as in [m]. *)
Definition ptes_same (own : gmap Z role) (m m' : mem) : Prop :=
  ∀ d v, own !! d = Some Dir → 0 ≤ v < 1048576 → pte_val m' d v = pte_val m d v.

Lemma more_tables_refl d own : more_tables d own own.
Proof. split; auto. Qed.

Lemma more_tables_trans d o1 o2 o3 : more_tables d o1 o2 → more_tables d o2 o3 → more_tables d o1 o3.
Proof.
  intros [A1 A2] [B1 B2]. split; [auto|]. intros q r Hq. destruct (B2 q r Hq) as [H|[H Hr]]; [auto|].
  right. split; [|done]. destruct (o1 !! q) as [r'|] eqn:E; [|done]. apply A1 in E. congruence.
Qed.

Lemma more_tables_dir d o1 o2 q : more_tables d o1 o2 → o2 !! q = Some Dir → o1 !! q = Some Dir.
Proof. intros [_ H] Hq. destruct (H _ _ Hq) as [?|[_ [i ?]]]; [done|congruence]. Qed.

Lemma data_same_refl own m : data_same own m m.
Proof. done. Qed.

Lemma data_same_trans own m1 m2 m3 : data_same own m1 m2 → data_same own m2 m3 → data_same own m1 m3.
Proof. intros H1 H2 q r b Hq Hr Hb. rewrite (H2 q r b) by done. by eapply H1. Qed.

Lemma data_same_mono own own' m m' : (∀ q r, own !! q = Some r → own' !! q = Some r) →
  data_same own' m m' → data_same own m m'.
Proof. intros Ho Hd q r b Hq. apply Hd. by apply Ho. Qed.

(** The indices of an address. *)
Lemma va_index va : 0 ≤ va < 4294967296 →
  PDX va = va / 4096 / 1024 ∧ PTX va = (va / 4096) mod 1024 ∧ 0 ≤ va / 4096 < 1048576.
Proof. intros. rewrite PDX_div, PTX_div. Z.div_mod_to_equations. lia. Qed.

Section spec.
Context {Hpool : page_pool}.
Variable kend : Z.
Implicit Types (own : gmap Z role) (l : list Z) (s : kst).

Lemma data_ne own l s q r t r' : vm_inv kend own l s → own !! q = Some r → is_data r →
  own !! t = Some r' → ¬ is_data r' → ∀ b, in_page q b → ¬ in_page t b.
Proof.
  intros Hinv Hq Hr Ht Hr' b Hb. eapply (page_ok_disjoint kend q t); [by eapply own_page..| |done].
  intros ->. congruence.
Qed.

(** Without [alloc], [walkpgdir] only reads. *)
Lemma walkpgdir_run own l s d va : vm_inv kend own l s → own !! d = Some Dir →
  0 ≤ va < 4294967296 →
  let e := word (memory s) d (PDX va) in
  walkpgdir d va false s = Ok (if present e then page_of e + 4 * PTX va else 0) s ∧
  (present e = true → page_of e + 4 * PTX va ≠ 0 ∧ own !! page_of e = Some (Tab d (PDX va)) ∧
     word (memory s) (page_of e) (PTX va) = pte_val (memory s) d (va / 4096)) ∧
  (present e = false → pte_val (memory s) d (va / 4096) = 0).
Proof.
  intros Hinv Hd Hva e. destruct (va_index va Hva) as (Ed & Et & Hv).
  assert (Hi : 0 ≤ PDX va < 1024) by auto with machine.
  assert (Hj : 0 ≤ PTX va < 1024) by auto with machine.
  assert (Hde : ld32 (memory s) (u32 (d + 4 * PDX va)) = e).
  { rewrite (page_addr kend) by (done || by eapply own_page). done. }
  split_and!.
  - unfold walkpgdir, ldw. rewrite bind_gets, Hde. destruct (present e) eqn:Hp; [|done].
    unfold ret. f_equal. eapply page_addr; [|done]. eapply own_page; [done|]. by eapply vi_pde.
  - intros Hp. assert (Ht : own !! page_of e = Some (Tab d (PDX va))) by (by eapply vi_pde).
    split_and!; [|done|].
    + eapply page_addr'; [|done]. by eapply own_page.
    + unfold pte_val. rewrite <-Ed, <-Et. fold e. by rewrite Hp.
  - intros Hp. unfold pte_val. rewrite <-Ed. fold e. by rewrite Hp.
Qed.

(** With [alloc], it adds a table if it must and fails only without memory. *)
(** The memory below the kernel's end does not change. *)
Definition low_same (m m' : mem) : Prop := ∀ b, b < kend → ld8 m' b = ld8 m b.

Lemma low_page p b : page_ok kend p → b < kend → ¬ in_page p b.
Proof. unfold page_ok, in_page. lia. Qed.

Lemma low_trans m1 m2 m3 : low_same m1 m2 → low_same m2 m3 → low_same m1 m3.
Proof. intros A B b Hb. by rewrite B, A. Qed.

Lemma walkpgdir_alloc_run own l s d va : vm_inv kend own l s → own !! d = Some Dir →
  0 ≤ va < 4294967296 →
  (walkpgdir d va true s = Ok 0 s ∧ l = []) ∨
  ∃ t s' own' l', walkpgdir d va true s = Ok (t + 4 * PTX va) s' ∧ t + 4 * PTX va ≠ 0 ∧
    vm_inv kend own' l' s' ∧ own' !! t = Some (Tab d (PDX va)) ∧ more_tables d own own' ∧
    ptes_same own (memory s) (memory s') ∧ data_same own (memory s) (memory s') ∧
    (∀ q r, own' !! q = Some r → own !! q = Some r ∨ r = Tab d (PDX va)) ∧ low_same (memory s) (memory s').
Proof.
  intros Hinv Hd Hva. pose proof (walkpgdir_run own l s d va Hinv Hd Hva) as (Hw & Hpres & _).
  assert (Hi : 0 ≤ PDX va < 1024) by auto with machine.
  assert (Hj : 0 ≤ PTX va < 1024) by auto with machine.
  set (e := word (memory s) d (PDX va)) in *.
  assert (Hda : u32 (d + 4 * PDX va) = d + 4 * PDX va) by (by apply (page_addr kend); [eapply own_page|]).
  unfold walkpgdir, ldw in *. rewrite bind_gets, Hda in *.
  change (ld32 (memory s) (d + 4 * PDX va)) with e in *.
  destruct (present e) eqn:Hp.
  { right. destruct (Hpres eq_refl) as (Hne & Ht & _). exists (page_of e), s, own, l.
    split_and!; try done; [apply more_tables_refl|by auto]. }
  cbn [negb]. destruct l as [|p l].
  { left. split; [|done]. erewrite bind_ok by (eapply kalloc_empty, vi_kmem, Hinv). done. }
  right. destruct (inv_kalloc kend own p l s Hinv) as (s1 & Hk & Hm1 & Hinv1 & Hnone & Hokp).
  erewrite bind_ok by exact Hk.
  pose proof (page_ok_pos kend p Hokp) as [_ Hp0]. rewrite (proj2 (Z.eqb_neq p 0)) by done.
  unfold fill, stw. rewrite !bind_modify. cbn [memory set_memory].
  set (s2 := set_memory (memset (memory s1) p 0 PGSIZE) s1).
  assert (Hpl : <[p := Loose]> own !! p = Some Loose) by apply lookup_insert_eq.
  destruct (inv_scratch kend _ _ _ Hinv1 p (memset (memory s1) p 0 PGSIZE)) as [Hinv2 Hpv2];
    [by left|intros b Hb; by apply fill_other|].
  assert (Hdp : d ≠ p) by (intros ->; congruence).
  assert (Hd1 : <[p := Loose]> own !! d = Some Dir) by (by rewrite lookup_insert_ne).
  destruct (V2P_page kend p Hokp) as (_ & Hal & Hv0 & Hvlt & Hvp).
  set (w := Z.lor (Z.lor (Z.lor (V2P p) PTE_P) PTE_W) PTE_U).
  assert (Hw' : w = Z.lor (V2P p) 7) by (unfold w; by rewrite <-!Z.lor_assoc).
  assert (Hwu : u32 w = w).
  { apply u32_small. rewrite Hw', lor_low12 by (done || lia). unfold KERNBASE in *. lia. }
  destruct (inv_new_table kend _ _ _ Hinv2 p d (PDX va) w) as [Hinv3 Hpv3]; try done.
  - cbn [memory set_memory].
    rewrite (word_keep kend _ _ _ Hinv1 _ p Loose d Dir) by (done || (intros; by apply fill_other)).
    by rewrite Hm1.
  - intros j Hj'. by apply word_fill with (kend := kend).
  - rewrite Hwu, present_odd, Hw', <-Z.bit0_odd, Z.lor_spec. apply orb_true_r.
  - rewrite Hwu, Hw', entry_page by (done || lia). lia.
  - exists p, (set_memory (st32 (memory s2) (d + 4 * PDX va) w) s2),
      (<[p := Tab d (PDX va)]> own), l.
    destruct (page_addr' kend p (PTX va) Hokp Hj) as [Hpa Hpne].
    split_and!; [by rewrite Hpa|done| |by apply lookup_insert_eq| | | | |].
    + by rewrite insert_insert_eq in Hinv3.
    + split.
      * intros q r Hq. rewrite lookup_insert_ne; [done|]. intros ->. congruence.
      * intros q r [(<- & <-)|(_ & Hq)]%lookup_insert_Some; [right; eauto|by left].
    + intros d' v Hd' Hv. assert (Hd2 : <[p := Loose]> own !! d' = Some Dir)
        by (rewrite lookup_insert_ne; [done|]; intros ->; congruence).
      etransitivity; [exact (Hpv3 d' v Hd2 Hv)|]. rewrite <-Hm1. by apply Hpv2.
    + intros q r b Hq Hr Hb. cbn [memory set_memory].
      rewrite (st32_in_page kend); [|exact (own_page kend own _ s Hinv d Dir Hd)|done|].
      2:{ eapply (data_ne own); try done. intros [?|(? & ? & ?)]; congruence. }
      rewrite <-Hm1. apply fill_other.
      apply (page_ok_disjoint kend q p);
        [exact (own_page kend own _ s Hinv q r Hq)|done| |done]. intros ->. congruence.
    + intros q r [(<- & <-)|(_ & Hq)]%lookup_insert_Some; auto.
    + intros b Hb. cbn [memory set_memory]. pose proof (own_page kend own _ s Hinv d Dir Hd) as Hokd.
      rewrite (st32_in_page kend) by (done || by apply low_page). rewrite <-Hm1. by apply fill_other, low_page.
Qed.

Lemma page_va v : 0 ≤ v < 1048576 → 0 ≤ 4096 * v < 4294967296 ∧ 4096 * v / 4096 = v ∧
  PDX (4096 * v) = v / 1024 ∧ PTX (4096 * v) = v mod 1024.
Proof.
  intros Hv. assert (0 ≤ 4096 * v < 4294967296) as Hr by lia.
  destruct (va_index _ Hr) as (E1 & E2 & _). rewrite E1, E2.
  replace (4096 * v / 4096) with v by (Z.div_mod_to_equations; lia). done.
Qed.

(** One round of [mappages]: either there is no memory for a table, or the
    entry of the page is written. *)
Lemma map_round own l s d v : vm_inv kend own l s → own !! d = Some Dir → 0 ≤ v < 1048576 →
  present (pte_val (memory s) d v) = false →
  (walkpgdir d (4096 * v) true s = Ok 0 s ∧ l = []) ∨
  ∃ t s' own' l', walkpgdir d (4096 * v) true s = Ok (t + 4 * (v mod 1024)) s' ∧
    t + 4 * (v mod 1024) ≠ 0 ∧
    vm_inv kend own' l' s' ∧ own' !! t = Some (Tab d (v / 1024)) ∧ more_tables d own own' ∧
    ptes_same own (memory s) (memory s') ∧ data_same own (memory s) (memory s') ∧
    present (word (memory s') t (v mod 1024)) = false ∧
    (∀ q r, own' !! q = Some r → own !! q = Some r ∨ r = Tab d (v / 1024)) ∧ low_same (memory s) (memory s').
Proof.
  intros Hinv Hd Hv Habs. destruct (page_va v Hv) as (Hr & Hdv & Ed & Et).
  destruct (walkpgdir_alloc_run own l s d (4096 * v) Hinv Hd Hr)
    as [?|(t & s' & own' & l' & Hw & Hne & Hinv' & Ht & Hmore & Hp & Hdat & Hnew & Hlow)]; [by left|].
  right. rewrite Ed in Ht, Hnew. rewrite Et in *. exists t, s', own', l'. split_and!; try done.
  pose proof (vpn_split v ltac:(lia)) as (E & Hm & _).
  rewrite <-(pte_val_tab kend own' l' s' Hinv' t d (v / 1024)) by done.
  rewrite <-E. by rewrite Hp.
Qed.

Lemma data_same_store own l s t d i j w : vm_inv kend own l s → own !! t = Some (Tab d i) →
  0 ≤ j < 1024 → data_same own (memory s) (st32 (memory s) (t + 4 * j) w).
Proof.
  intros Hinv Ht Hj q r b Hq Hr Hb. eapply st32_in_page; [by eapply own_page|done|].
  eapply data_ne; try done. intros [?|(? & ? & ?)]; congruence.
Qed.

(** At some point the allocator had nothing left, and the pages taken from [own]
    until then were at most [k] pages, tables of [d] from index [ilo] on and user
    pages of [d] between [lo] and [hi]. *)
Definition exhausted (own : gmap Z role) (k : nat) (d ilo lo hi : Z) : Prop :=
  ∃ own1 s1 P, vm_inv kend own1 [] s1 ∧ (length P ≤ k)%nat ∧ ∀ q r, own1 !! q = Some r →
    own !! q = Some r ∨ q ∈ P ∨ (∃ i, ilo ≤ i ∧ r = Tab d i) ∨ (∃ v, lo ≤ v < hi ∧ r = User d v).

Lemma exhausted_mono own own' P k d ilo lo lo' hi : exhausted own' k d ilo lo' hi → lo ≤ lo' →
  (∀ q r, own' !! q = Some r →
     own !! q = Some r ∨ q ∈ P ∨ (∃ i, ilo ≤ i ∧ r = Tab d i) ∨ (∃ v, lo ≤ v < hi ∧ r = User d v)) →
  exhausted own (length P + k) d ilo lo hi.
Proof.
  intros (own1 & s1 & P1 & Hi & Hk & H) Hlo Hs. exists own1, s1, (P ++ P1).
  split; [done|]. split; [rewrite length_app; lia|]. intros q r Hq. rewrite elem_of_app.
  destruct (H q r Hq) as [Hq'|[?|[?|(v & ? & ->)]]]; [destruct (Hs q r Hq') as [?|[?|?]]; auto| | |]; auto.
  right; right; right. exists v. split; [lia|done].
Qed.

Lemma length_filter_notin (l P : list Z) : NoDup l → (length l ≤ length P + length (filter (λ q, q ∉ P) l))%nat.
Proof.
  intros Hnd. assert (Hsub : l ⊆+ P ++ filter (λ q, q ∉ P) l).
  { apply NoDup_submseteq; [done|]. intros x Hx. apply elem_of_app.
    destruct (decide (x ∈ P)); [by left|right]. by apply list_elem_of_filter. }
  apply submseteq_length in Hsub. by rewrite length_app in Hsub.
Qed.

(** Tables and user pages have one role each. *)
Lemma role_inj own l s q q' r : vm_inv kend own l s → own !! q = Some r → own !! q' = Some r →
  r ≠ Loose → r ≠ Dir → q = q'.
Proof.
  intros Hinv Hq Hq' H1 H2. destruct r as [| |d i|d v]; try done.
  - destruct (vi_tab _ _ _ _ Hinv _ _ _ Hq) as (_ & _ & _ & <-), (vi_tab _ _ _ _ Hinv _ _ _ Hq') as (_ & _ & _ & <-). done.
  - destruct (vi_user _ _ _ _ Hinv _ _ _ Hq) as (_ & t & Ht & _ & <-), (vi_user _ _ _ _ Hinv _ _ _ Hq') as (_ & t' & Ht' & _ & <-).
    destruct (vi_tab _ _ _ _ Hinv _ _ _ Ht) as (_ & _ & _ & <-), (vi_tab _ _ _ _ Hinv _ _ _ Ht') as (_ & _ & _ & <-). done.
Qed.

(** How many pages were taken from the allocator. *)
Lemma taken_few own l s own1 l1 s1 P d ilo lo hi : vm_inv kend own l s → vm_inv kend own1 l1 s1 →
  (∀ q r, own1 !! q = Some r → own !! q = Some r ∨ q ∈ P ∨ (∃ i, ilo ≤ i ∧ r = Tab d i) ∨
     (∃ v, lo ≤ v < hi ∧ r = User d v)) → ilo ≤ 1024 → lo ≤ hi →
  Z.of_nat (length l) ≤ Z.of_nat (length l1) + Z.of_nat (length P) + (1024 - ilo) + (hi - lo).
Proof.
  intros Hinv Hinv1 Hnew Hi Hlo. pose proof (vi_kmem _ _ _ _ Hinv) as (_ & Hnd & _).
  assert (Htaken : ∀ q, q ∈ l → q ∉ l1 → own !! q = None ∧ ∃ r, own1 !! q = Some r).
  { intros q Hq Hq1. split.
    - destruct (own !! q) as [r|] eqn:E; [|done]. by destruct (vi_page _ _ _ _ Hinv q r E).
    - assert (Hp : q ∈ pool) by (apply (vi_pool _ _ _ _ Hinv); by left).
      apply (vi_pool _ _ _ _ Hinv1) in Hp as [Hp|[r Hr]]; [done|by exists r]. }
  set (R := (Tab d <$> seqZ ilo (1024 - ilo)) ++ (User d <$> seqZ lo (hi - lo))).
  set (f := λ q, default Loose (own1 !! q)). set (lp := l1 ++ P).
  assert (HR : ∀ q, q ∈ filter (λ q, q ∉ lp) l → ∃ r, own1 !! q = Some r ∧ f q = r ∧ r ∈ R ∧ r ≠ Loose ∧ r ≠ Dir).
  { intros q [Hne Hq]%list_elem_of_filter. unfold lp in Hne. rewrite elem_of_app in Hne.
    destruct (Htaken q Hq) as [Hn [r Hr]]; [tauto|]. exists r. unfold f. rewrite Hr.
    split_and!; [done|done|..]; destruct (Hnew q r Hr) as [?|[?|[(i & ? & ->)|(v & ? & ->)]]]; try done; try congruence; try tauto.
    - destruct (vi_tab _ _ _ _ Hinv1 _ _ _ Hr) as (_ & ? & _). apply elem_of_app. left.
      apply list_elem_of_fmap. exists i. split; [done|]. apply elem_of_seqZ. lia.
    - apply elem_of_app. right. apply list_elem_of_fmap. exists v. split; [done|]. apply elem_of_seqZ. lia. }
  assert (Hlen : (length (f <$> filter (λ q, q ∉ lp) l) ≤ length R)%nat).
  { apply submseteq_length, NoDup_submseteq.
    - apply NoDup_fmap_2_strong; [|by apply NoDup_filter]. intros q q' Hq Hq' E.
      destruct (HR q Hq) as (r & Hr & E1 & _ & N1 & N2), (HR q' Hq') as (r' & Hr' & E2 & _).
      apply (role_inj own1 l1 s1 q q' r); congruence.
    - intros r (q & -> & Hq)%list_elem_of_fmap. destruct (HR q Hq) as (r & _ & -> & ? & _). done. }
  rewrite length_fmap in Hlen. pose proof (length_filter_notin l lp Hnd) as Hl1.
  unfold lp at 1 in Hl1. rewrite length_app in Hl1.
  unfold R in Hlen. rewrite length_app, !length_fmap, !length_seqZ in Hlen. lia.
Qed.

Lemma exhausted_few own l s k d ilo lo hi : vm_inv kend own l s → exhausted own k d ilo lo hi → ilo ≤ 1024 → lo ≤ hi →
  Z.of_nat (length l) ≤ Z.of_nat k + (1024 - ilo) + (hi - lo).
Proof.
  intros Hinv (own1 & s1 & P & Hinv1 & HP & Hnew) Hi Hlo.
  pose proof (taken_few own l s own1 [] s1 P d ilo lo hi Hinv Hinv1 Hnew Hi Hlo). simpl in *. lia.
Qed.

(** [mappages] of one user page that the caller has just allocated. *)
Lemma map_user_run own l s d v p perm : vm_inv kend own l s → own !! d = Some Dir →
  0 ≤ v < USERPAGES → own !! p = Some Loose → present (pte_val (memory s) d v) = false →
  0 ≤ perm < 4096 →
  (mappages d (4096 * v) PGSIZE (V2P p) perm s = Ok (-1) s ∧ l = []) ∨
  ∃ s' own' l', mappages d (4096 * v) PGSIZE (V2P p) perm s = Ok 0 s' ∧
    vm_inv kend (<[p := User d v]> own') l' s' ∧ more_tables d own own' ∧
    (∀ d' v', own !! d' = Some Dir → 0 ≤ v' < 1048576 →
       pte_val (memory s') d' v' = if decide (d' = d ∧ v' = v)
         then Z.lor (V2P p) (Z.lor perm PTE_P) else pte_val (memory s) d' v') ∧
    data_same own (memory s) (memory s') ∧ low_same (memory s) (memory s').
Proof.
  intros Hinv Hd Hv Hp Habs Hperm. unfold USERPAGES in Hv.
  destruct (page_va v ltac:(lia)) as (Hr & _). unfold mappages.
  assert (PGROUNDDOWN (4096 * v) = 4096 * v) as ->
    by (rewrite PGROUNDDOWN_div; Z.div_mod_to_equations; lia).
  assert (PGROUNDDOWN (u32 (4096 * v + PGSIZE - 1)) = 4096 * v) as ->.
  { unfold PGSIZE. rewrite u32_small, PGROUNDDOWN_div by lia. Z.div_mod_to_equations; lia. }
  rewrite Z.sub_diag. change (Z.to_nat (u32 0 / PGSIZE + 1)) with 1%nat. cbn [mappages_loop].
  destruct (map_round own l s d v Hinv Hd ltac:(lia) Habs)
    as [[Hw Hl]|(t & s1 & own1 & l1 & Hw & Hne & Hinv1 & Ht & Hmore & Hpv & Hdat & Habs1 & _ & Hlow)].
  { left. split; [|done]. by erewrite bind_ok by exact Hw. }
  right. pose proof (vpn_split v ltac:(lia)) as (E & Hm & Hq).
  erewrite bind_ok by exact Hw. rewrite (proj2 (Z.eqb_neq _ 0)) by done.
  unfold ldw. rewrite bind_gets.
  change (ld32 (memory s1) (t + 4 * (v mod 1024))) with (word (memory s1) t (v mod 1024)).
  rewrite Habs1. unfold stw. rewrite bind_modify, Z.eqb_refl.
  set (w := Z.lor (Z.lor (V2P p) perm) PTE_P).
  assert (Hokp : page_ok kend p) by (by apply (own_page kend own l s Hinv p Loose)).
  destruct (V2P_page kend p Hokp) as (_ & Hal & Hv0 & Hvlt & Hvp).
  assert (Hfl : 0 ≤ Z.lor perm PTE_P < 4096) by (apply lor_range12; [done|unfold PTE_P; lia]).
  assert (Hw' : w = Z.lor (V2P p) (Z.lor perm PTE_P)) by (unfold w; by rewrite Z.lor_assoc).
  assert (Hwu : u32 w = w).
  { apply u32_small. rewrite Hw', lor_low12 by done. unfold KERNBASE in *. lia. }
  eexists _, own1, l1. split; [reflexivity|]. split_and!.
  - rewrite E at 1. apply (inv_store_user kend own1 l1 s1 t d (v / 1024) (v mod 1024) w); try done.
    + Z.div_mod_to_equations; lia.
    + by apply Hmore.
    + rewrite Hwu. apply present_lor.
    + rewrite Hwu, Hw', entry_page by done. lia.
  - done.
  - intros d' v' Hd' Hv'. cbn [memory set_memory].
    rewrite (store_pte_val kend own1 l1 s1 t d (v / 1024) (v mod 1024) w Hinv1 Ht Hm d' v');
      [|by apply Hmore|done].
    rewrite <-E, Hwu, Hw'. case_decide; [done|]. by apply Hpv.
  - cbn [memory set_memory]. eapply data_same_trans; [exact Hdat|].
    eapply data_same_mono; [apply Hmore|]. by eapply data_same_store.
  - intros b Hb. cbn [memory set_memory]. pose proof (own_page kend own1 _ s1 Hinv1 t _ Ht) as Hokt.
    rewrite (st32_in_page kend) by (done || by apply low_page). by apply Hlow.
Qed.

(** [own'] is [own] with tables for the kernel half of [d]. *)
Definition kern_tables (d : Z) (own own' : gmap Z role) : Prop :=
  ∀ q r, own' !! q = Some r → own !! q = Some r ∨ ∃ i, 512 ≤ i ∧ r = Tab d i.

Lemma kern_tables_trans d o1 o2 o3 : kern_tables d o1 o2 → kern_tables d o2 o3 → kern_tables d o1 o3.
Proof. intros A B q r Hq. destruct (B q r Hq) as [H|H]; [apply A, H|by right]. Qed.

Lemma exhausted_kern own own' d : exhausted own' 0 d 512 0 0 → kern_tables d own own' → exhausted own 0 d 512 0 0.
Proof. intros Hex Hk. apply (exhausted_mono own own' [] 0 d 512 0 0); [done|lia|]. intros q r Hq. destruct (Hk q r Hq); auto. Qed.

(** [mappages] in the kernel half: [S n] pages from [v]. *)
Lemma map_kern_loop d perm n : ∀ own l s v pa, vm_inv kend own l s → own !! d = Some Dir →
  USERPAGES ≤ v → v + Z.of_nat n < 1048576 → 0 ≤ pa < 4294967296 →
  (∀ k, v ≤ k ≤ v + Z.of_nat n → present (pte_val (memory s) d k) = false) →
  ∃ r s' own' l', mappages_loop (S n) d (4096 * v) (4096 * (v + Z.of_nat n)) pa perm s = Ok r s' ∧
    (r = 0 ∨ (r = -1 ∧ exhausted own 0 d 512 0 0)) ∧ vm_inv kend own' l' s' ∧ more_tables d own own' ∧
    kern_tables d own own' ∧ low_same (memory s) (memory s') ∧
    data_same own (memory s) (memory s') ∧
    (∀ d' v', own !! d' = Some Dir → 0 ≤ v' < 1048576 → ¬ (d' = d ∧ v ≤ v' ≤ v + Z.of_nat n) →
       pte_val (memory s') d' v' = pte_val (memory s) d' v') ∧
    (r = 0 → ∀ k, 0 ≤ k ≤ Z.of_nat n →
       pte_val (memory s') d (v + k) = u32 (Z.lor (Z.lor (u32 (pa + 4096 * k)) perm) PTE_P)).
Proof.
  induction n as [|n IH]; intros own l s v pa Hinv Hd Hv Hend Hpa Habs; unfold USERPAGES in Hv;
    cbn [mappages_loop];
    destruct (map_round own l s d v Hinv Hd ltac:(lia) (Habs v ltac:(lia)))
      as [[Hw Hl]|(t & s1 & own1 & l1 & Hw & Hne & Hinv1 & Ht & Hmore & Hpv & Hdat & Habs1 & Hnew & Hlow)].
  1, 3: exists (-1), s, own, l; erewrite bind_ok by exact Hw; split_and!;
    [done| |done|apply more_tables_refl|intros ?; by auto|done|done|done|done]; right; split; [done|];
    exists own, s, []; subst l; split_and!; [done|done|by auto].
  all: pose proof (vpn_split v ltac:(lia)) as (E & Hm & Hq);
    erewrite bind_ok by exact Hw; rewrite (proj2 (Z.eqb_neq _ 0)) by done;
    unfold ldw; rewrite bind_gets;
    change (ld32 (memory s1) (t + 4 * (v mod 1024))) with (word (memory s1) t (v mod 1024));
    rewrite Habs1; unfold stw; rewrite bind_modify;
    set (w := Z.lor (Z.lor pa perm) PTE_P);
    set (s2 := set_memory (st32 (memory s1) (t + 4 * (v mod 1024)) w) s1);
    assert (Hinv2 : vm_inv kend own1 l1 s2)
      by (apply (inv_store_kern kend own1 l1 s1 t d (v / 1024)); try done; Z.div_mod_to_equations; lia);
    assert (Hd1 : own1 !! d = Some Dir) by (by apply Hmore);
    assert (Hdat2 : data_same own (memory s) (memory s2))
      by (eapply data_same_trans; [exact Hdat|]; eapply data_same_mono; [apply Hmore|];
          by eapply data_same_store);
    assert (Hpv2 : ∀ d' v', own !! d' = Some Dir → 0 ≤ v' < 1048576 →
      pte_val (memory s2) d' v' = if decide (d' = d ∧ v' = v) then u32 w else pte_val (memory s) d' v')
      by (intros d' v' Hd' Hv'; unfold s2; cbn [memory set_memory];
          rewrite (store_pte_val kend own1 l1 s1 t d (v / 1024) (v mod 1024) w Hinv1 Ht Hm d' v');
          [|by apply Hmore|done];
          rewrite <-E; case_decide; [done|by apply Hpv]);
    assert (Hkt : kern_tables d own own1)
      by (intros q x Hx; destruct (Hnew q x Hx) as [?| ->]; [by left|right]; exists (v / 1024);
          split; [Z.div_mod_to_equations; lia|done]);
    assert (Hlow2 : low_same (memory s) (memory s2))
      by (intros b Hb; unfold s2; cbn [memory set_memory];
          pose proof (own_page kend own1 _ s1 Hinv1 t _ Ht) as Hokt;
          rewrite (st32_in_page kend) by (done || by apply low_page); by apply Hlow).
  - rewrite Z.add_0_r, Z.eqb_refl. exists 0, s2, own1, l1. split_and!; try done; [by left| |].
    + intros d' v' Hd' Hv' Hn. rewrite Hpv2 by done. rewrite decide_False; [done|]. intros [-> ->]. lia.
    + intros _ k Hk. assert (k = 0) as -> by lia. rewrite Z.mul_0_r, !Z.add_0_r, (u32_small pa) by lia.
      rewrite Hpv2 by (done || lia). by rewrite decide_True.
  - rewrite (proj2 (Z.eqb_neq _ _)) by lia.
    assert (u32 (4096 * v + PGSIZE) = 4096 * (v + 1)) as ->
      by (unfold PGSIZE; rewrite u32_small by lia; lia).
    destruct (IH own1 l1 s2 (v + 1) (u32 (pa + PGSIZE))) as
      (r & s3 & own3 & l3 & Hrun & Hr & Hinv3 & Hmore3 & Hkt3 & Hlow3 & Hdat3 & Hpv3 & Hres);
      [done|done|unfold USERPAGES; lia|lia|apply u32_range| |].
    { intros k Hk. rewrite Hpv2 by (done || lia). rewrite decide_False by lia. apply Habs. lia. }
    replace (v + Z.of_nat (S n)) with (v + 1 + Z.of_nat n) by lia.
    exists r, s3, own3, l3. split_and!; try done.
    + destruct Hr as [?|[? Hex]]; [by left|right]. split; [done|]. by eapply exhausted_kern.
    + by eapply more_tables_trans.
    + by eapply kern_tables_trans.
    + by eapply low_trans.
    + eapply data_same_trans; [exact Hdat2|]. eapply data_same_mono; [apply Hmore|done].
    + intros d' v' Hd' Hv' Hn. rewrite Hpv3; [|by apply Hmore|done|intros [-> ?]; apply Hn; lia].
      rewrite Hpv2 by done. rewrite decide_False; [done|]. intros [-> ->]. apply Hn. lia.
    + intros Hr0 k Hk. destruct (decide (k = 0)) as [->|Hk0].
      * rewrite Z.mul_0_r, !Z.add_0_r, (u32_small pa) by lia.
        rewrite Hpv3 by (done || lia). rewrite Hpv2 by (done || lia). by rewrite decide_True.
      * replace (v + k) with (v + 1 + (k - 1)) by lia. rewrite Hres by (done || lia).
        rewrite u32_add_l. do 4 f_equal. unfold PGSIZE. lia.
Qed.

(** ** Releasing user pages *)

(** User page [v] of [d] with [lo ≤ v < hi]. *)
Definition dropped (d lo hi : Z) (r : role) : bool :=
  match r with
  | User d' v => bool_decide (d' = d ∧ lo ≤ v < hi)
  | _ => false
  end.

Definition drop_range (d lo hi : Z) (own : gmap Z role) : gmap Z role :=
  filter (λ kv, dropped d lo hi kv.2 = false) own.

Lemma drop_range_Some d lo hi own q r :
  drop_range d lo hi own !! q = Some r ↔ own !! q = Some r ∧ dropped d lo hi r = false.
Proof. apply map_lookup_filter_Some. Qed.

Lemma drop_range_dir d lo hi own q :
  drop_range d lo hi own !! q = Some Dir ↔ own !! q = Some Dir.
Proof. rewrite drop_range_Some. naive_solver. Qed.

Lemma drop_range_skip d lo lo' hi own : lo ≤ lo' →
  (∀ q v, own !! q = Some (User d v) → lo ≤ v < hi → lo' ≤ v) →
  drop_range d lo hi own = drop_range d lo' hi own.
Proof.
  intros Hlo Hno. apply map_eq. intros q. apply option_eq. intros r.
  rewrite !drop_range_Some. split; intros [Hq Hr]; (split; [done|]); destruct r; try done; simpl in *.
  - rewrite bool_decide_eq_false in *. intros [-> ?]. apply Hr. split; [done|]. lia.
  - rewrite bool_decide_eq_false in *. intros [-> ?]. apply Hr. split; [done|].
    split; [by eapply Hno|lia].
Qed.

(** Freeing the pages one by one frees the range. *)
Lemma drop_range_delete d v hi own p : v < hi → own !! p = Some (User d v) →
  (∀ q, own !! q = Some (User d v) → q = p) →
  drop_range d (v + 1) hi (delete p own) = drop_range d v hi own.
Proof.
  intros Hv Hp Huniq. apply map_eq. intros q. apply option_eq. intros r.
  rewrite !drop_range_Some, lookup_delete_Some. split.
  - intros [[Hne Hq] Hr]. split; [done|]. destruct r as [| |d' i|d' w]; try done. simpl in *.
    rewrite bool_decide_eq_false in *. intros [-> ?]. destruct (decide (w = v)) as [->|].
    + by destruct Hne; rewrite (Huniq q Hq).
    + apply Hr. split; [done|lia].
  - intros [Hq Hr]. split_and!; [|done|].
    + intros <-. rewrite Hp in Hq. injection Hq as <-. simpl in Hr.
      rewrite bool_decide_eq_false in Hr. apply Hr. split; [done|lia].
    + destruct r as [| |d' i|d' w]; try done. simpl in *. rewrite bool_decide_eq_false in *.
      intros [-> ?]. apply Hr. split; [done|lia].
Qed.

(** Effect of releasing the pages [lo], ..., [hi - 1] of [d]. *)
Record released (d lo hi : Z) (own : gmap Z role) (l l' : list Z) (s s' : kst) : Prop := {
  rel_inv : vm_inv kend (drop_range d lo hi own) l' s';
  rel_ptes : ∀ d' v, own !! d' = Some Dir → 0 ≤ v < 1048576 →
    pte_val (memory s') d' v =
    if decide (d' = d ∧ lo ≤ v < hi ∧ present (pte_val (memory s) d' v) = true)
    then 0 else pte_val (memory s) d' v;
  rel_free : ∀ q, q ∈ l' ↔ q ∈ l ∨ ∃ r, own !! q = Some r ∧ dropped d lo hi r = true;
  rel_data : data_same (drop_range d lo hi own) (memory s) (memory s')
}.

(** Nothing to do between [lo] and [lo']. *)
Lemma released_skip d lo lo' hi own l l' s s' : vm_inv kend own l s → own !! d = Some Dir →
  lo ≤ lo' → 0 ≤ lo → hi ≤ USERPAGES →
  (∀ v, lo ≤ v < lo' → v < hi → present (pte_val (memory s) d v) = false) →
  released d lo' hi own l l' s s' → released d lo hi own l l' s s'.
Proof.
  intros Hinv Hd Hlo H0 Hhi Hno [R1 R2 R3 R4].
  assert (Huser : ∀ q v, own !! q = Some (User d v) → lo ≤ v < hi → lo' ≤ v).
  { intros q v Hq Hv. destruct (decide (lo' ≤ v)) as [|Hn]; [done|].
    destruct (vi_user _ _ _ _ Hinv _ _ _ Hq) as (Hvr & t & Ht & Hpr & _). unfold USERPAGES in Hvr.
    pose proof (vpn_split v ltac:(lia)) as (E & Hm & _).
    rewrite <-(pte_val_tab kend own l s Hinv t d (v / 1024)) in Hpr by done. rewrite <-E in Hpr.
    by rewrite Hno in Hpr by lia. }
  rewrite <-(drop_range_skip d lo lo' hi own Hlo Huser) in R1, R4. split; try done.
  - intros d' v Hd' Hv. rewrite R2 by done.
    destruct (decide (d' = d ∧ lo' ≤ v < hi ∧ _)) as [Hc|Hc].
    + rewrite decide_True; [done|]. destruct Hc as (-> & ? & ?). split_and!; try done; lia.
    + destruct (decide (d' = d ∧ lo ≤ v < hi ∧ _)) as [(-> & Hr & Hp)|]; [|done].
      destruct (decide (lo' ≤ v)); [by destruct Hc; split_and!; try done; lia|].
      by rewrite Hno in Hp by lia.
  - intros q. rewrite R3. split; (intros [Hq|(r & Hq & Hr)]; [by left|right; exists r; split; [done|]]);
      destruct r as [| |d' i|d' v]; try done; simpl in *; rewrite bool_decide_eq_true in *.
    + destruct Hr as [-> ?]. split; [done|lia].
    + destruct Hr as [-> ?]. split; [done|]. split; [by eapply Huser|lia].
Qed.

Lemma released_nil d lo hi own l s : vm_inv kend own l s → hi ≤ lo → released d lo hi own l l s s.
Proof.
  intros Hinv Hle.
  assert (E : drop_range d lo hi own = own).
  { apply map_eq. intros q. apply option_eq. intros r. rewrite drop_range_Some. split; [by intros []|].
    intros Hq. split; [done|]. destruct r; try done. simpl. rewrite bool_decide_eq_false. lia. }
  split; rewrite ?E; try done.
  - intros. rewrite decide_False; [done|]. lia.
  - intros q. split; [by left|]. intros [?|(r & Hq & Hr)]; [done|]. destruct r; try done. simpl in Hr.
    rewrite bool_decide_eq_true in Hr. lia.
Qed.

Lemma user_page own l s q d v : vm_inv kend own l s → own !! q = Some (User d v) →
  0 ≤ v < USERPAGES ∧ present (pte_val (memory s) d v) = true ∧ page_of (pte_val (memory s) d v) = q.
Proof.
  intros Hinv Hq. destruct (vi_user _ _ _ _ Hinv _ _ _ Hq) as (Hv & t & Ht & Hpr & Hpg).
  unfold USERPAGES in Hv. pose proof (vpn_split v ltac:(lia)) as (E & Hm & _).
  rewrite <-(pte_val_tab kend own l s Hinv t d (v / 1024)) in Hpr, Hpg by done. rewrite <-E in Hpr, Hpg.
  done.
Qed.

Lemma released_step d v hi own l l' s s2 s' p : vm_inv kend own l s → v < hi →
  own !! p = Some (User d v) →
  (∀ q r b, own !! q = Some r → is_data r → q ≠ p → in_page q b → ld8 (memory s2) b = ld8 (memory s) b) →
  (∀ d' w, own !! d' = Some Dir → 0 ≤ w < 1048576 → pte_val (memory s2) d' w =
     if decide (d' = d ∧ w = v) then 0 else pte_val (memory s) d' w) →
  released d (v + 1) hi (delete p own) (p :: l) l' s2 s' → released d v hi own l l' s s'.
Proof.
  intros Hinv Hv Hp Hdat Hpv [R1 R2 R3 R4].
  destruct (user_page own l s p d v Hinv Hp) as (Hvr & Hpr & Hpg).
  assert (Huniq : ∀ q, own !! q = Some (User d v) → q = p).
  { intros q Hq. destruct (user_page own l s q d v Hinv Hq) as (_ & _ & <-). done. }
  rewrite (drop_range_delete d v hi own p Hv Hp Huniq) in R1, R4. split; try done.
  - intros d' w Hd' Hw. rewrite R2; [|rewrite lookup_delete_ne; [done|intros ->; congruence]|done].
    rewrite !Hpv by done. destruct (decide (d' = d ∧ w = v)) as [[-> ->]|Hn].
    + rewrite decide_False by (intros (_ & ? & _); lia). rewrite decide_True; [done|].
      split_and!; try done; lia.
    + destruct (decide (d' = d ∧ v + 1 ≤ w < hi ∧ _)) as [(-> & ? & ?)|Hc].
      * rewrite decide_True; [done|]. split_and!; try done; lia.
      * rewrite decide_False; [done|]. intros (-> & ? & ?). destruct (decide (w = v)) as [->|]; [tauto|].
        apply Hc. split_and!; try done; lia.
  - intros q. rewrite R3, elem_of_cons. split.
    + intros [[->|Hq]|(r & [Hne Hq]%lookup_delete_Some & Hr)]; [| |].
      * right. exists (User d v). split; [done|]. simpl. rewrite bool_decide_eq_true. split; [done|lia].
      * by left.
      * right. exists r. split; [done|]. destruct r as [| |d' i|d' w]; try done. simpl in *.
        rewrite bool_decide_eq_true in *. destruct Hr as [-> ?]. split; [done|lia].
    + intros [Hq|(r & Hq & Hr)]; [left; by right|].
      destruct (decide (q = p)) as [->|Hne]; [left; by left|]. right. exists r.
      split; [by rewrite lookup_delete_ne|]. destruct r as [| |d' i|d' w]; try done. simpl in *.
      rewrite bool_decide_eq_true in *. destruct Hr as [-> ?]. split; [done|].
      destruct (decide (w = v)) as [->|]; [by destruct Hne; apply Huniq|lia].
  - eapply data_same_trans; [|exact R4]. intros q r b Hq Hr Hb.
    apply drop_range_Some in Hq as [Hq Hdr]. eapply Hdat; try done. intros ->.
    rewrite Hp in Hq. injection Hq as <-. simpl in Hdr. rewrite bool_decide_eq_false in Hdr.
    apply Hdr. split; [done|lia].
Qed.

(** The kernel image starts above KERNBASE. *)
Hypothesis Hkend : KERNBASE < kend.

(** The loop of [deallocuvm], from page [v] on; [hi] is the first page at or
    after [oldsz]. *)
Lemma dealloc_loop_run d oldsz : 0 ≤ oldsz ≤ KERNBASE → ∀ fuel own l s v,
  let hi := (oldsz + 4095) / 4096 in
  vm_inv kend own l s → own !! d = Some Dir → 0 ≤ v → hi - v ≤ Z.of_nat fuel →
  ∃ s' l', deallocuvm_loop kend fuel d (4096 * v) oldsz s = Ok tt s' ∧ released d v hi own l l' s s'.
Proof.
  intros Hsz. unfold KERNBASE in Hsz.
  induction fuel as [|fuel IH]; intros own l s v hi Hinv Hd Hv Hf; simpl.
  { rewrite (proj2 (Z.ltb_ge _ _)) by (unfold hi in *; Z.div_mod_to_equations; lia).
    exists s, l. split; [done|]. apply released_nil; [done|lia]. }
  assert (Hhi : hi ≤ USERPAGES) by (unfold hi, USERPAGES; Z.div_mod_to_equations; lia).
  destruct (Z.ltb_spec (4096 * v) oldsz) as [Hlt|Hge].
  2:{ exists s, l. split; [done|]. apply released_nil; [done|]. unfold hi. Z.div_mod_to_equations; lia. }
  assert (Hvhi : v < hi) by (unfold hi; Z.div_mod_to_equations; lia). unfold USERPAGES in Hhi.
  destruct (page_va v ltac:(lia)) as (Hr & Hdv & Ed & Et).
  destruct (walkpgdir_run own l s d (4096 * v) Hinv Hd Hr) as (Hw & Hpres & Habs).
  erewrite bind_ok by exact Hw. rewrite Ed, Et, Hdv in *.
  pose proof (vpn_split v Hv) as (E & Hm & Hq).
  destruct (present (word (memory s) d (v / 1024))) eqn:Hpde.
  - destruct (Hpres eq_refl) as (Hne & Ht & Hword). rewrite (proj2 (Z.eqb_neq _ _)) by done.
    unfold ldw. rewrite bind_gets. set (t := page_of (word (memory s) d (v / 1024))) in *.
    change (ld32 (memory s) (t + 4 * (v mod 1024))) with (word (memory s) t (v mod 1024)).
    assert (u32 (4096 * v + PGSIZE) = 4096 * (v + 1)) as ->
      by (unfold PGSIZE; rewrite u32_small by lia; lia).
    rewrite Hword. destruct (present (pte_val (memory s) d v)) eqn:Hpr.
    + assert (Hown : own !! page_of (pte_val (memory s) d v) = Some (User d v))
        by (eapply pte_val_user; [done|done|unfold USERPAGES; lia|done]).
      set (p := page_of (pte_val (memory s) d v)) in *.
      assert (Hpa0 : PTE_ADDR (pte_val (memory s) d v) ≠ 0).
      { intros E0. assert (Hp : p = KERNBASE) by (unfold p, page_of; by rewrite E0).
        pose proof (own_page kend own l s Hinv _ _ Hown) as (_ & Hp2 & _). lia. }
      rewrite (proj2 (Z.eqb_neq _ _)) by done. change (P2V (PTE_ADDR (pte_val (memory s) d v))) with p.
      destruct (inv_unmap kend own l s t d (v / 1024) (v mod 1024) p Hinv Ht) as
        (s1 & Hfree & Hinv2 & Hout & Hpv); [Z.div_mod_to_equations; lia|lia|by rewrite Hword..|].
      rewrite bind_assoc. erewrite bind_ok by exact Hfree. unfold stw. rewrite bind_modify.
      set (s2 := set_memory (st32 (memory s1) (t + 4 * (v mod 1024)) 0) s1) in *.
      destruct (IH (delete p own) (p :: l) s2 (v + 1) Hinv2) as (s' & l' & Hrun & Hrel); [|lia|lia|].
      { rewrite lookup_delete_ne; [done|]. intros ->. congruence. }
      exists s', l'. split; [done|]. apply (released_step d v hi own l l' s s2 s' p Hinv Hvhi Hown); [| |exact Hrel].
      * intros q r b Hqo Hr' Hne' Hb. apply Hout.
        -- apply (page_ok_disjoint kend q p); [by eapply (own_page kend own l s Hinv)..|done|done].
        -- eapply (data_ne own l s q r t); try done. intros [?|(? & ? & ?)]; congruence.
      * intros d' w Hd' Hw'. rewrite Hpv by done. by rewrite <-E.
    + rewrite bind_ret. destruct (IH own l s (v + 1) Hinv Hd ltac:(lia) ltac:(lia)) as (s' & l' & Hrun & Hrel).
      exists s', l'. split; [done|]. eapply (released_skip d v (v + 1)); try done; try lia.
      intros w Hw1 Hw2. by replace w with v by lia.
  - simpl. rewrite PGADDR_next by lia. rewrite u32_add_l.
    assert (u32 ((v / 1024 + 1) * 4194304 - PGSIZE + PGSIZE) = 4096 * (1024 * (v / 1024 + 1))) as ->
      by (unfold PGSIZE; rewrite u32_small by lia; lia).
    destruct (IH own l s (1024 * (v / 1024 + 1)) Hinv Hd ltac:(lia) ltac:(lia)) as (s' & l' & Hrun & Hrel).
    exists s', l'. split; [done|]. eapply (released_skip d v (1024 * (v / 1024 + 1))); try done; try lia.
    intros w Hw1 Hw2. unfold pte_val.
    replace (w / 1024) with (v / 1024) by (Z.div_mod_to_equations; lia). by rewrite Hpde.
Qed.

Lemma dealloc_run own l s d oldsz newsz : vm_inv kend own l s → own !! d = Some Dir →
  0 ≤ newsz < oldsz → oldsz ≤ KERNBASE →
  ∃ s' l', deallocuvm kend d oldsz newsz s = Ok newsz s' ∧
    released d ((newsz + 4095) / 4096) ((oldsz + 4095) / 4096) own l l' s s'.
Proof.
  intros Hinv Hd Hn Ho. unfold KERNBASE in Ho. unfold deallocuvm.
  rewrite (proj2 (Z.leb_gt _ _)) by lia. rewrite PGROUNDUP_div by lia.
  destruct (dealloc_loop_run d oldsz ltac:(unfold KERNBASE; lia) (Z.to_nat (oldsz / PGSIZE + 1))
    own l s ((newsz + 4095) / 4096) Hinv Hd) as (s' & l' & Hrun & Hrel).
  { Z.div_mod_to_equations; lia. }
  { unfold PGSIZE. Z.div_mod_to_equations; lia. }
  exists s', l'. split; [|done]. by erewrite bind_ok by exact Hrun.
Qed.

(** ** Releasing an address space *)

(** The pages of the address space of [d]. *)
Definition of_dir (d q : Z) (r : role) : bool :=
  bool_decide (q = d) ||
  match r with
  | Tab d' _ | User d' _ => bool_decide (d' = d)
  | _ => false
  end.

Definition strip (d : Z) (own : gmap Z role) : gmap Z role :=
  filter (λ kv, of_dir d kv.1 kv.2 = false) own.

Lemma strip_Some d own q r : strip d own !! q = Some r ↔ own !! q = Some r ∧ of_dir d q r = false.
Proof. apply map_lookup_filter_Some. Qed.

(** The loop of [freevm]: the tables named by entries [i], [i + 1], ... of the
    directory are loose pages, all different. *)
Lemma freevm_loop_run d (W : Z → Z) n : ∀ i own l s,
  vm_inv kend own l s → own !! d = Some Loose → 0 ≤ i → i + Z.of_nat n = 1024 →
  (∀ k, 0 ≤ k < 1024 → word (memory s) d k = W k) →
  (∀ k, i ≤ k < 1024 → present (W k) = true → own !! page_of (W k) = Some Loose ∧ page_of (W k) ≠ d) →
  (∀ k k', i ≤ k < 1024 → i ≤ k' < 1024 → present (W k) = true → present (W k') = true →
     page_of (W k) = page_of (W k') → k = k') →
  ∃ s' own' l', freevm_loop kend n i d s = Ok tt s' ∧ vm_inv kend own' l' s' ∧
    (∀ q r, own' !! q = Some r ↔ own !! q = Some r ∧
       ¬ (∃ k, i ≤ k < 1024 ∧ present (W k) = true ∧ page_of (W k) = q)) ∧
    (∀ q, q ∈ l' ↔ q ∈ l ∨ ∃ k, i ≤ k < 1024 ∧ present (W k) = true ∧ page_of (W k) = q) ∧
    ptes_same own (memory s) (memory s') ∧ data_same own' (memory s) (memory s').
Proof.
  induction n as [|n IH]; intros i own l s Hinv Hd Hi Hn Hw Hown Hinj; simpl.
  { exists s, own, l. split_and!; try done.
    - intros q r. split; [|by intros []]. intros Hq. split; [done|]. intros (k & ? & _). lia.
    - intros q. split; [by left|]. intros [?|(k & ? & _)]; [done|lia]. }
  assert (Hda : u32 (d + 4 * i) = d + 4 * i)
    by (apply (page_addr kend); [by apply (own_page kend own l s Hinv d Loose)|lia]).
  unfold ldw. rewrite bind_gets, Hda.
  change (ld32 (memory s) (d + 4 * i)) with (word (memory s) d i). rewrite Hw by lia.
  destruct (present (W i)) eqn:Hp.
  - destruct (Hown i ltac:(lia) Hp) as [Hl Hne].
    destruct (inv_kfree kend own l s (page_of (W i)) Hinv Hl) as (s1 & Hrun & Hinv1 & Hout & Hpv).
    erewrite bind_ok by exact Hrun.
    destruct (IH (i + 1) (delete (page_of (W i)) own) (page_of (W i) :: l) s1) as
      (s' & own' & l' & Hrun' & Hinv' & Ho' & Hl' & Hpv' & Hdat'); try done; try lia.
    + by rewrite lookup_delete_ne.
    + intros k Hk. rewrite <-Hw by done.
      apply (word_keep kend own l s Hinv _ (page_of (W i)) Loose d Loose); try done.
    + intros k Hk Hpk. destruct (Hown k ltac:(lia) Hpk) as [Hk1 Hk2]. split; [|done].
      rewrite lookup_delete_ne; [done|]. intros E. specialize (Hinj i k ltac:(lia) ltac:(lia) Hp Hpk E). lia.
    + intros k k' Hk Hk'. apply Hinj; lia.
    + exists s', own', l'. split_and!; try done.
      * intros q r. rewrite Ho', lookup_delete_Some. split.
        -- intros [[Hq1 Hq2] Hk]. split; [done|]. intros (k & Hk1 & Hk2 & Hk3).
           destruct (decide (k = i)) as [->|]; [done|]. apply Hk. exists k. split_and!; try done; lia.
        -- intros [Hq Hk]. split_and!; [|done|].
           ++ intros E. apply Hk. exists i. split_and!; try done; lia.
           ++ intros (k & Hk1 & Hk2 & Hk3). apply Hk. exists k. split_and!; try done; lia.
      * intros q. rewrite Hl', elem_of_cons. split.
        -- intros [[->|Hq]|(k & Hk1 & Hk2 & Hk3)]; [right; exists i|by left|right; exists k];
             split_and!; try done; lia.
        -- intros [Hq|(k & Hk1 & Hk2 & Hk3)]; [left; by right|].
           destruct (decide (k = i)) as [->|]; [left; by left|].
           right. exists k. split_and!; try done; lia.
      * intros d' v Hd' Hv. rewrite Hpv'; [by apply Hpv| |done].
        rewrite lookup_delete_ne; [done|]. intros <-. congruence.
      * intros q r b Hq Hr Hb. rewrite (Hdat' q r b) by done. apply Hout.
        apply Ho' in Hq as [[Hq1 Hq2]%lookup_delete_Some _].
        apply (page_ok_disjoint kend q (page_of (W i))); [by eapply (own_page kend own l s Hinv)..|done|done].
  - rewrite bind_ret.
    destruct (IH (i + 1) own l s) as (s' & own' & l' & Hrun' & Hinv' & Ho' & Hl' & Hpv' & Hdat');
      try done; try lia.
    + intros k Hk. apply Hown. lia.
    + intros k k' Hk Hk'. apply Hinj; lia.
    + assert (Heq : ∀ q, (∃ k, i + 1 ≤ k < 1024 ∧ present (W k) = true ∧ page_of (W k) = q) ↔
                         (∃ k, i ≤ k < 1024 ∧ present (W k) = true ∧ page_of (W k) = q)).
      { intros q. split; intros (k & Hk1 & Hk2 & Hk3); exists k; split_and!; try done; try lia.
        destruct (decide (k = i)) as [->|]; [congruence|lia]. }
      exists s', own', l'. split_and!; try done.
      * intros q r. by rewrite Ho', Heq.
      * intros q. by rewrite Hl', Heq.
Qed.

Lemma freevm_run own l s d : vm_inv kend own l s → own !! d = Some Dir →
  ∃ s' l', freevm kend d s = Ok tt s' ∧ vm_inv kend (strip d own) l' s' ∧
    (∀ q, q ∈ l' ↔ q ∈ l ∨ ∃ r, own !! q = Some r ∧ of_dir d q r = true) ∧
    (∀ d' v, own !! d' = Some Dir → d' ≠ d → 0 ≤ v < 1048576 →
       pte_val (memory s') d' v = pte_val (memory s) d' v) ∧
    data_same (strip d own) (memory s) (memory s').
Proof.
  intros Hinv Hd. unfold freevm.
  pose proof (page_ok_pos kend d (own_page kend own l s Hinv d Dir Hd)) as [_ Hd0].
  rewrite (proj2 (Z.eqb_neq _ _)) by done.
  destruct (dealloc_run own l s d KERNBASE 0 Hinv Hd) as (s1 & l1 & Hrun1 & Hrel);
    [unfold KERNBASE; lia|lia|].
  erewrite bind_ok by exact Hrun1. clear Hrun1.
  change ((0 + 4095) / 4096) with 0 in Hrel. change ((KERNBASE + 4095) / 4096) with USERPAGES in Hrel.
  destruct Hrel as [R1 R2 R3 R4]. set (own1 := drop_range d 0 USERPAGES own) in *.
  assert (Hd1 : own1 !! d = Some Dir) by (by apply drop_range_dir).
  assert (Hno : ∀ q v, own1 !! q ≠ Some (User d v)).
  { intros q v Hq. apply drop_range_Some in Hq as [Hq Hr]. simpl in Hr.
    rewrite bool_decide_eq_false in Hr. apply Hr. split; [done|].
    by destruct (user_page own l s q d v Hinv Hq). }
  pose proof (inv_retire kend own1 l1 s1 d R1 Hd1 Hno) as Hinv2. set (own2 := retire d own1) in *.
  assert (Hlk : ∀ q, own2 !! q = _) by (exact (retire_lookup d own1)).
  assert (Hd2 : own2 !! d = Some Loose).
  { rewrite Hlk, Hd1. simpl. by rewrite decide_True. }
  set (W := λ k, word (memory s1) d k).
  assert (Htab : ∀ k, 0 ≤ k < 1024 → present (W k) = true → own1 !! page_of (W k) = Some (Tab d k)).
  { intros k Hk Hp. by apply (vi_pde _ _ _ _ R1). }
  destruct (freevm_loop_run d W (Z.to_nat NPDENTRIES) 0 own2 l1 s1) as
    (s2 & own3 & l3 & Hrun2 & Hinv3 & Ho3 & Hl3 & Hpv3 & Hdat3); try done.
  { intros k Hk Hp. specialize (Htab k Hk Hp). split.
    - rewrite Hlk, Htab. simpl. destruct (decide (page_of (W k) = d)); [done|].
      by rewrite decide_True.
    - intros E. rewrite E in Htab. congruence. }
  { intros k k' Hk Hk' Hp Hp' E. pose proof (Htab k Hk Hp) as H1. pose proof (Htab k' Hk' Hp') as H2.
    rewrite E in H1. congruence. }
  erewrite bind_ok by exact Hrun2. clear Hrun2.
  assert (Hd3 : own3 !! d = Some Loose).
  { apply Ho3. split; [done|]. intros (k & Hk & Hp & E). pose proof (Htab k Hk Hp) as H.
    rewrite E in H. congruence. }
  destruct (inv_kfree kend own3 l3 s2 d Hinv3 Hd3) as (s' & Hrun3 & Hinv' & Hout & Hpv').
  assert (Hstrip : delete d own3 = strip d own).
  { apply map_eq. intros q. apply option_eq. intros r.
    rewrite lookup_delete_Some, Ho3, strip_Some, Hlk. unfold of_dir. split.
    - intros [Hne [Hq Hk]]. destruct (own1 !! q) as [r1|] eqn:Hq1; [|done]. simpl in Hq.
      rewrite decide_False in Hq by done. rewrite bool_decide_eq_false_2 by done.
      assert (Htd : ∀ i, r1 ≠ Tab d i).
      { intros i ->. destruct (vi_tab _ _ _ _ R1 _ _ _ Hq1) as (_ & Hi & Hp & Hpg).
        apply Hk. by exists i. }
      assert (r1 = r) as ->.
      { destruct r1; try congruence. case_decide; [subst; by destruct (Htd i)|congruence]. }
      apply drop_range_Some in Hq1 as [Hq1 Hdr]. split; [done|].
      destruct r; simpl in *; try done; rewrite bool_decide_eq_false; [congruence|].
      intros ->. rewrite bool_decide_eq_false in Hdr. apply Hdr. split; [done|].
      by destruct (user_page own l s q d v Hinv Hq1).
    - intros [Hq Hof]. apply orb_false_iff in Hof as [Hne Hr]. rewrite bool_decide_eq_false in Hne.
      assert (Hq1 : own1 !! q = Some r).
      { apply drop_range_Some. split; [done|]. destruct r; try done. simpl.
        rewrite bool_decide_eq_false in *. tauto. }
      split; [done|]. rewrite Hq1. simpl. rewrite decide_False by done. split.
      + destruct r; try done. rewrite bool_decide_eq_false in Hr. by rewrite decide_False.
      + intros (k & Hk & Hp & <-). pose proof (Htab k Hk Hp) as H. rewrite H in Hq1.
        injection Hq1 as <-. by rewrite bool_decide_eq_false in Hr. }
  rewrite Hstrip in Hinv'. exists s', (d :: l3). split_and!; try done.
  - intros q. rewrite elem_of_cons, Hl3, R3. split.
    + intros [->|[[Hq|(r & Hq & Hr)]|(k & Hk & Hp & <-)]]; [right| |right|right].
      * exists Dir. split; [done|]. unfold of_dir. by rewrite bool_decide_eq_true_2.
      * by left.
      * exists r. split; [done|]. destruct r; try done. simpl in Hr. unfold of_dir.
        rewrite bool_decide_eq_true in Hr. destruct Hr as [-> _].
        rewrite (bool_decide_eq_true_2 (d = d)) by done. apply orb_true_r.
      * pose proof (Htab k Hk Hp) as H. apply drop_range_Some in H as [H _]. exists (Tab d k).
        split; [done|]. unfold of_dir. rewrite (bool_decide_eq_true_2 (d = d)) by done. apply orb_true_r.
    + intros [Hq|(r & Hq & Hr)]; [by right; left; left|]. unfold of_dir in Hr.
      apply orb_true_iff in Hr as [Hr|Hr]; [rewrite bool_decide_eq_true in Hr; by left|]. right.
      destruct r as [| |d' k|d' v]; try done; rewrite bool_decide_eq_true in Hr; subst d'.
      * right. assert (H1 : own1 !! q = Some (Tab d k)) by (by apply drop_range_Some).
        destruct (vi_tab _ _ _ _ R1 _ _ _ H1) as (_ & Hk & Hp & Hpg). by exists k.
      * left. right. exists (User d v). split; [done|]. simpl. rewrite bool_decide_eq_true.
        split; [done|]. by destruct (user_page own l s q d v Hinv Hq).
  - intros d' v Hd' Hne Hv.
    assert (Hd1' : own1 !! d' = Some Dir) by (by apply drop_range_dir).
    assert (Hd2' : own2 !! d' = Some Dir) by (rewrite Hlk, Hd1'; simpl; by rewrite decide_False).
    assert (Hd3' : own3 !! d' = Some Dir).
    { apply Ho3. split; [done|]. intros (k & Hk & Hp & E). pose proof (Htab k Hk Hp) as H.
      rewrite E in H. congruence. }
    rewrite Hpv', Hpv3, R2 by done. rewrite decide_False; [done|]. intros (-> & _). done.
  - intros q r b Hq Hr Hb. apply strip_Some in Hq as [Hq Hof].
    assert (H3 : own3 !! q = Some r).
    { assert (H : delete d own3 !! q = Some r) by (rewrite Hstrip; by apply strip_Some).
      by apply lookup_delete_Some in H as [_ ?]. }
    assert (Hqd : q ≠ d).
    { intros ->. unfold of_dir in Hof. by rewrite bool_decide_eq_true_2 in Hof. }
    rewrite Hout.
    2:{ apply (page_ok_disjoint kend q d); [by eapply (own_page kend own3 l3 s2 Hinv3)..|done|done]. }
    rewrite (Hdat3 q r b) by done. apply (R4 q r b); [|done|done]. apply drop_range_Some. split; [done|].
    destruct r; try done. simpl. unfold of_dir in Hof. apply orb_false_iff in Hof as [_ Hof].
    rewrite bool_decide_eq_false in *. tauto.
Qed.

Lemma strip_more d own own' : more_tables d own own' → strip d own' = strip d own.
Proof.
  intros [H1 H2]. apply map_eq. intros q. apply option_eq. intros r. rewrite !strip_Some.
  split; intros [Hq Hof]; (split; [|done]); [|by apply H1].
  destruct (H2 q r Hq) as [?|(_ & i & ->)]; [done|]. unfold of_dir in Hof.
  by rewrite (bool_decide_eq_true_2 (d = d)), orb_true_r in Hof.
Qed.

(** A page that is not a directory has no tables and no user pages. *)
Lemma of_dir_none own l s d q r : vm_inv kend own l s → own !! d = None → own !! q = Some r →
  of_dir d q r = false.
Proof.
  intros Hinv Hd Hq. unfold of_dir. rewrite bool_decide_eq_false_2 by congruence. simpl.
  destruct r as [| |d' i|d' v]; try done; rewrite bool_decide_eq_false; intros ->.
  - destruct (vi_tab _ _ _ _ Hinv _ _ _ Hq) as (? & _). congruence.
  - destruct (vi_user _ _ _ _ Hinv _ _ _ Hq) as (_ & t & Ht & _).
    destruct (vi_tab _ _ _ _ Hinv _ _ _ Ht) as (? & _). congruence.
Qed.

Lemma strip_new own l s d : vm_inv kend own l s → own !! d = None → strip d (<[d := Dir]> own) = own.
Proof.
  intros Hinv Hd. apply map_eq. intros q. apply option_eq. intros r.
  rewrite strip_Some, lookup_insert_Some. split.
  - intros [[(<- & <-)|(_ & ?)] Hof]; [|done]. unfold of_dir in Hof. by rewrite bool_decide_eq_true_2 in Hof.
  - intros Hq. split; [|by eapply of_dir_none]. right. split; [congruence|done].
Qed.

(** [mappages] of a kernel range of [n] pages from page [v]. *)
Lemma map_kern_run own l s d v n pa perm : vm_inv kend own l s → own !! d = Some Dir →
  USERPAGES ≤ v → 0 < n → v + n ≤ 1048576 → 0 ≤ pa < 4294967296 →
  (∀ k, v ≤ k < v + n → present (pte_val (memory s) d k) = false) →
  ∃ r s' own' l', mappages d (4096 * v) (4096 * n) pa perm s = Ok r s' ∧
    (r = 0 ∨ (r = -1 ∧ exhausted own 0 d 512 0 0)) ∧ vm_inv kend own' l' s' ∧ more_tables d own own' ∧
    kern_tables d own own' ∧ low_same (memory s) (memory s') ∧
    data_same own (memory s) (memory s') ∧
    (∀ d' v', own !! d' = Some Dir → 0 ≤ v' < 1048576 → ¬ (d' = d ∧ v ≤ v' < v + n) →
       pte_val (memory s') d' v' = pte_val (memory s) d' v') ∧
    (r = 0 → ∀ k, 0 ≤ k < n →
       pte_val (memory s') d (v + k) = u32 (Z.lor (Z.lor (u32 (pa + 4096 * k)) perm) PTE_P)).
Proof.
  intros Hinv Hd Hv Hn Hend Hpa Habs. unfold USERPAGES in Hv. unfold mappages.
  assert (PGROUNDDOWN (4096 * v) = 4096 * v) as ->
    by (rewrite PGROUNDDOWN_div; Z.div_mod_to_equations; lia).
  assert (PGROUNDDOWN (u32 (4096 * v + 4096 * n - 1)) = 4096 * (v + Z.of_nat (Z.to_nat (n - 1)))) as ->.
  { rewrite u32_small, PGROUNDDOWN_div by lia. Z.div_mod_to_equations; lia. }
  replace (4096 * (v + Z.of_nat (Z.to_nat (n - 1))) - 4096 * v) with (4096 * (n - 1)) by lia.
  rewrite (u32_small (4096 * (n - 1))) by lia.
  replace (Z.to_nat (4096 * (n - 1) / PGSIZE + 1)) with (S (Z.to_nat (n - 1)))
    by (unfold PGSIZE; rewrite Z.mul_comm, Z.div_mul by lia; lia).
  destruct (map_kern_loop d perm (Z.to_nat (n - 1)) own l s v pa) as
    (r & s' & own' & l' & Hrun & Hr & Hinv' & Hmore & Hkt & Hlow0 & Hdat & Hpv & Hres); try done; try lia.
  { intros k Hk. apply Habs. lia. }
  exists r, s', own', l'. split_and!; try done.
  - intros d' v' Hd' Hv' Hno. apply Hpv; [done|done|]. intros [-> ?]. apply Hno. lia.
  - intros Hr0 k Hk. apply Hres; [done|lia].
Qed.

(** ** The kernel mappings *)

Definition kfirst (k : kmap) : Z := virt k / 4096.
Definition kpages (k : kmap) : Z := u32 (phys_end k - phys_start k) / 4096.

(** The ranges are whole pages of the kernel half, in ascending order from page
    [lo]. *)
Fixpoint kmaps_ok (lo : Z) (ks : list kmap) : Prop :=
  match ks with
  | [] => lo ≤ 1048576
  | k :: ks' =>
      lo ≤ kfirst k ∧ virt k = 4096 * kfirst k ∧ 0 < kpages k ∧
      u32 (phys_end k - phys_start k) = 4096 * kpages k ∧ 0 ≤ phys_start k < 4294967296 ∧
      kmaps_ok (kfirst k + kpages k) ks'
  end.

Lemma kmaps_ok_bound ks : ∀ lo, kmaps_ok lo ks → lo ≤ 1048576.
Proof.
  induction ks as [|k ks IH]; intros lo Hok; simpl in Hok; [done|].
  destruct Hok as (? & _ & ? & _ & _ & Hok). apply IH in Hok. lia.
Qed.

Lemma kmaps_ok_first ks : ∀ lo k, kmaps_ok lo ks → k ∈ ks → lo ≤ kfirst k.
Proof.
  induction ks as [|k' ks IH]; intros lo k Hok Hk; [by apply elem_of_nil in Hk|].
  destruct Hok as (? & _ & ? & _ & _ & Hok). apply elem_of_cons in Hk as [->|Hk]; [done|].
  specialize (IH _ _ Hok Hk). lia.
Qed.

(** The entry of page [j] of a range. *)
Definition kentry (k : kmap) (j : Z) : Z :=
  u32 (Z.lor (Z.lor (u32 (phys_start k + 4096 * j)) (perm k)) PTE_P).

Lemma setupkvm_loop_run d ks : ∀ lo own l s, vm_inv kend own l s → own !! d = Some Dir →
  USERPAGES ≤ lo → kmaps_ok lo ks → d ≠ 0 →
  (∀ v, lo ≤ v < 1048576 → present (pte_val (memory s) d v) = false) →
  ∃ r s' own' l', setupkvm_loop kend ks d s = Ok r s' ∧ vm_inv kend own' l' s' ∧
    data_same (strip d own) (memory s) (memory s') ∧
    (∀ d' v, own !! d' = Some Dir → d' ≠ d → 0 ≤ v < 1048576 →
       pte_val (memory s') d' v = pte_val (memory s) d' v) ∧
    ((r = 0 ∧ own' = strip d own ∧ exhausted own 0 d 512 0 0) ∨
     (r = d ∧ more_tables d own own' ∧ kern_tables d own own' ∧ low_same (memory s) (memory s') ∧
      (∀ v, 0 ≤ v < lo → pte_val (memory s') d v = pte_val (memory s) d v) ∧
      ∀ k j, k ∈ ks → 0 ≤ j < kpages k → pte_val (memory s') d (kfirst k + j) = kentry k j)).
Proof.
  induction ks as [|k ks IH]; intros lo own l s Hinv Hd Hlo Hok Hd0 Habs;
    pose proof (kmaps_ok_bound _ _ Hok) as Hlob; unfold USERPAGES in Hlo; simpl.
  { exists d, s, own, l. split_and!; try done. right.
    split_and!; try done; [apply more_tables_refl|intros q r; by auto|]. intros k j Hk. by apply elem_of_nil in Hk. }
  destruct Hok as (Hlk & Hvirt & Hn & Hsz & Hpa & Hok).
  pose proof (kmaps_ok_bound _ _ Hok) as Hb. rewrite Hvirt, Hsz.
  destruct (map_kern_run own l s d (kfirst k) (kpages k) (phys_start k) (perm k)) as
    (r & s1 & own1 & l1 & Hrun & Hr & Hinv1 & Hmore & Hkt & Hlow0 & Hdat & Hpv & Hres); try done.
  { unfold USERPAGES. lia. }
  { intros v Hv. apply Habs. lia. }
  assert (Hd1 : own1 !! d = Some Dir) by (by apply Hmore).
  assert (Hdat1 : data_same (strip d own) (memory s) (memory s1)).
  { eapply data_same_mono; [|exact Hdat]. by intros q x [? _]%strip_Some. }
  erewrite bind_ok by exact Hrun. destruct Hr as [->|[-> Hex]]; simpl.
  - destruct (IH (kfirst k + kpages k) own1 l1 s1) as
      (r & s' & own' & l' & Hrun' & Hinv' & Hdat' & Hpv' & Hcase); try done.
    { unfold USERPAGES. lia. }
    { intros v Hv. rewrite Hpv by (done || lia). apply Habs. lia. }
    rewrite (strip_more d own own1 Hmore) in Hdat', Hcase.
    exists r, s', own', l'. split_and!; try done.
    + by eapply data_same_trans.
    + intros d' v Hd' Hne Hv. rewrite Hpv'; [|by apply Hmore|done|done].
      apply Hpv; [done|done|]. by intros [-> _].
    + destruct Hcase as [(-> & -> & Hex)|(-> & Hmore' & Hkt' & Hlow' & Hlow & Hk)].
      { left. split_and!; [done|done|]. by eapply exhausted_kern. }
      right. split_and!; try done.
      * by eapply more_tables_trans.
      * by eapply kern_tables_trans.
      * by eapply low_trans.
      * intros v Hv. rewrite Hlow by lia. apply Hpv; [done|lia|]. intros [_ ?]. lia.
      * intros k' j Hk' Hj. apply elem_of_cons in Hk' as [->|Hk']; [|by apply Hk].
        rewrite Hlow by lia. by apply Hres.
  - destruct (freevm_run own1 l1 s1 d Hinv1 Hd1) as (s' & l' & Hrun' & Hinv' & Hl' & Hpv' & Hdat').
    erewrite bind_ok by exact Hrun'. rewrite (strip_more d own own1 Hmore) in Hinv', Hdat'.
    exists 0, s', (strip d own), l'. split_and!; try done; [by eapply data_same_trans| |by left].
    intros d' v Hd' Hne Hv. rewrite Hpv'; [|by apply Hmore|done|done].
    apply Hpv; [done|done|]. by intros [-> _].
Qed.

(** The linker symbol [data] is page aligned, between the kernel's start and
    the end of physical memory. *)
Variable kdata : Z.
Hypothesis Hdata : kdata mod 4096 = 0 ∧ KERNLINK < kdata < KERNBASE + PHYSTOP.

Lemma kmaps_valid : kmaps_ok USERPAGES (kmaps kdata).
Proof.
  destruct Hdata as [Hal Hr]. unfold KERNLINK, KERNBASE, EXTMEM, PHYSTOP in Hr.
  assert (V2P kdata = kdata - KERNBASE) as Hv by (unfold V2P, KERNBASE; apply u32_small; lia).
  assert (V2P KERNLINK = EXTMEM) as Hk by (vm_compute; reflexivity).
  unfold kmaps, kmaps_ok, kfirst, kpages. simpl virt. simpl phys_start. simpl phys_end.
  rewrite Hv, Hk. unfold KERNBASE, EXTMEM, PHYSTOP, DEVSPACE, KERNLINK, USERPAGES, KERNBASE, EXTMEM.
  rewrite !(u32_small (kdata - _ - _)), !(u32_small (_ - (kdata - _))) by lia.
  change (u32 (0x100000 - 0)) with 0x100000. change (u32 (0 - 0xFE000000)) with 0x2000000.
  Z.div_mod_to_equations; lia.
Qed.

Lemma setupkvm_run own l s : vm_inv kend own l s →
  ∃ r s' own' l', setupkvm kend kdata s = Ok r s' ∧ vm_inv kend own' l' s' ∧
    data_same own (memory s) (memory s') ∧ ptes_same own (memory s) (memory s') ∧
    ((r = 0 ∧ own' = own ∧ Z.of_nat (length l) ≤ 513) ∨
     (r ≠ 0 ∧ own !! r = None ∧ more_tables r (<[r := Dir]> own) own' ∧
      Z.of_nat (length l) ≤ Z.of_nat (length l') + 513 ∧ low_same (memory s) (memory s') ∧
      (∀ v, 0 ≤ v < USERPAGES → pte_val (memory s') r v = 0) ∧
      ∀ k j, k ∈ kmaps kdata → 0 ≤ j < kpages k → pte_val (memory s') r (kfirst k + j) = kentry k j)).
Proof.
  intros Hinv. unfold setupkvm. destruct l as [|p l].
  { erewrite bind_ok by (eapply kalloc_empty, vi_kmem, Hinv).
    exists 0, s, own, []. split_and!; try done. left. split_and!; [done|done|simpl; lia]. }
  destruct (inv_kalloc kend own p l s Hinv) as (s1 & Hk & Hm1 & Hinv1 & Hnone & Hokp).
  erewrite bind_ok by exact Hk. pose proof (page_ok_pos kend p Hokp) as [_ Hp0].
  rewrite (proj2 (Z.eqb_neq p 0)) by done. unfold fill. rewrite bind_modify.
  change (DEVSPACE <? P2V PHYSTOP) with false. cbv iota.
  assert (Hpl : <[p := Loose]> own !! p = Some Loose) by apply lookup_insert_eq.
  destruct (inv_scratch kend _ _ _ Hinv1 p (memset (memory s1) p 0 PGSIZE)) as [Hinv2 Hpv2];
    [by left|intros b Hb; by apply fill_other|].
  set (s2 := set_memory (memset (memory s1) p 0 PGSIZE) s1) in *.
  assert (Hz : ∀ j, 0 ≤ j < 1024 → word (memory s2) p j = 0)
    by (intros j Hj; by apply word_fill with (kend := kend)).
  pose proof (inv_new_dir kend _ _ _ p Hinv2 Hpl Hz) as Hinv3. rewrite insert_insert_eq in Hinv3.
  assert (Hpte0 : ∀ v, 0 ≤ v < 1048576 → pte_val (memory s2) p v = 0).
  { intros v Hv. unfold pte_val. by rewrite Hz by (Z.div_mod_to_equations; lia). }
  assert (Hdat2 : data_same own (memory s) (memory s2)).
  { intros q r b Hq Hr Hb. rewrite <-Hm1. apply fill_other.
    apply (page_ok_disjoint kend q p); [by apply (own_page kend own _ s Hinv q r)|done| |done].
    intros ->. congruence. }
  assert (Hpt2 : ptes_same own (memory s) (memory s2)).
  { intros d v Hd Hv. rewrite <-Hm1. apply Hpv2; [|done].
    rewrite lookup_insert_ne; [done|]. intros ->. congruence. }
  destruct (setupkvm_loop_run p (kmaps kdata) USERPAGES _ l s2 Hinv3) as
    (r & s' & own' & l' & Hrun & Hinv' & Hdat' & Hpv' & Hcase).
  { apply lookup_insert_eq. }
  { done. }
  { apply kmaps_valid. }
  { done. }
  { unfold USERPAGES. intros v Hv. by rewrite Hpte0 by lia. }
  rewrite (strip_new own (p :: l) s p Hinv Hnone) in Hdat', Hcase.
  exists r, s', own', l'. split_and!; try done.
  - by eapply data_same_trans.
  - intros d v Hd Hv. assert (d ≠ p) by (intros ->; congruence).
    rewrite Hpv' by (done || by rewrite lookup_insert_ne). by apply Hpt2.
  - destruct Hcase as [(-> & -> & Hex)|(-> & Hmore & Hkt & Hlow' & Hlow & Hkm)].
    { left. split_and!; [done|done|]. pose proof (exhausted_few _ _ _ _ _ _ _ _ Hinv3 Hex ltac:(lia) ltac:(lia)).
      simpl length. lia. }
    right. split_and!; try done.
    { pose proof (taken_few _ _ _ own' l' s' [] p 512 0 0 Hinv3 Hinv' ltac:(intros q r Hq; destruct (Hkt q r Hq); auto)
        ltac:(lia) ltac:(lia)). simpl length in *. lia. }
    { eapply low_trans; [|exact Hlow']. intros b Hb. rewrite <- Hm1. by apply fill_other, low_page. }
    intros v Hv. rewrite Hlow by done. apply Hpte0. unfold USERPAGES in Hv. lia.
Qed.

(** ** Growing *)

(** [own'] is [own] with more pages of the address space [d]. *)
Definition grows (d : Z) (own own' : gmap Z role) : Prop :=
  (∀ q r, own !! q = Some r → own' !! q = Some r) ∧
  ∀ q r, own' !! q = Some r → own !! q = Some r ∨ (own !! q = None ∧ of_dir d q r = true).

Lemma grows_refl d own : grows d own own.
Proof. split; auto. Qed.

Lemma grows_trans d o1 o2 o3 : grows d o1 o2 → grows d o2 o3 → grows d o1 o3.
Proof.
  intros [A1 A2] [B1 B2]. split; [auto|]. intros q r Hq. destruct (B2 q r Hq) as [H|[H Hr]]; [auto|].
  right. split; [|done]. destruct (o1 !! q) as [r'|] eqn:E; [|done]. apply A1 in E. congruence.
Qed.

Lemma strip_grows d own own' : grows d own own' → strip d own' = strip d own.
Proof.
  intros [H1 H2]. apply map_eq. intros q. apply option_eq. intros r. rewrite !strip_Some.
  split; intros [Hq Hof]; (split; [|done]); [|by apply H1].
  destruct (H2 q r Hq) as [?|(_ & E)]; [done|]. congruence.
Qed.

(** A freshly allocated page that has become user page [v] of [d]. *)
Lemma grows_map d own own' p v : own !! p = None → more_tables d (<[p := Loose]> own) own' →
  grows d own (<[p := User d v]> own').
Proof.
  intros Hp [H1 H2]. split.
  - intros q r Hq. assert (q ≠ p) by congruence. rewrite lookup_insert_ne by done.
    apply H1. by rewrite lookup_insert_ne.
  - intros q r [(<- & <-)|(Hne & Hq)]%lookup_insert_Some.
    + right. split; [done|]. unfold of_dir. by rewrite (bool_decide_eq_true_2 (d = d)), orb_true_r.
    + destruct (H2 q r Hq) as [Hl|(Hn & i & ->)].
      * left. by rewrite lookup_insert_ne in Hl by done.
      * right. rewrite lookup_insert_ne in Hn by done. split; [done|].
        unfold of_dir. by rewrite (bool_decide_eq_true_2 (d = d)), orb_true_r.
Qed.

(** One page more: a fresh page is filled by [g], confined to the page, and
    mapped at page [v] of [d] with the flags [fl].  This is the body of the
    loops of [allocuvm] and [copyuvm]. *)
Lemma grow_round own p l s d v fl m' : vm_inv kend own (p :: l) s → own !! d = Some Dir →
  0 ≤ v < USERPAGES → present (pte_val (memory s) d v) = false → 0 ≤ fl < 4096 →
  (∀ b, ¬ in_page p b → ld8 m' b = ld8 (memory s) b) →
  ∃ s1, kalloc s = Ok p s1 ∧ memory s1 = memory s ∧ p ≠ 0 ∧ own !! p = None ∧
    let s2 := set_memory m' s1 in
    vm_inv kend (<[p := Loose]> own) l s2 ∧ data_same own (memory s) m' ∧
    ptes_same own (memory s) m' ∧
    ((mappages d (4096 * v) PGSIZE (V2P p) fl s2 = Ok (-1) s2 ∧ l = []) ∨
     ∃ s' own' l', mappages d (4096 * v) PGSIZE (V2P p) fl s2 = Ok 0 s' ∧
       vm_inv kend own' l' s' ∧ grows d own own' ∧ own' !! p = Some (User d v) ∧
       more_tables d (<[p := User d v]> own) own' ∧
       (∀ d' v', own !! d' = Some Dir → 0 ≤ v' < 1048576 →
          pte_val (memory s') d' v' = if decide (d' = d ∧ v' = v)
            then Z.lor (V2P p) (Z.lor fl PTE_P) else pte_val (memory s) d' v') ∧
       data_same own (memory s) (memory s') ∧
       (∀ b, in_page p b → ld8 (memory s') b = ld8 m' b) ∧ low_same (memory s) (memory s')).
Proof.
  intros Hinv Hd Hv Habs Hfl Hm'.
  destruct (inv_kalloc kend own p l s Hinv) as (s1 & Hk & Hm1 & Hinv1 & Hnone & Hokp).
  pose proof (page_ok_pos kend p Hokp) as [_ Hp0].
  exists s1. do 4 (split; [done|]). intros s2.
  assert (Hpl : <[p := Loose]> own !! p = Some Loose) by apply lookup_insert_eq.
  rewrite <-Hm1 in Hm'.
  destruct (inv_scratch kend _ _ _ Hinv1 p m') as [Hinv2 Hpv2]; [by left|done|].
  assert (Hkeep : ∀ q r, own !! q = Some r → <[p := Loose]> own !! q = Some r).
  { intros q r Hq. rewrite lookup_insert_ne; [done|]. intros ->. congruence. }
  assert (Hdat2 : data_same own (memory s) m').
  { intros q r b Hq Hr Hb. rewrite <-Hm1. apply Hm'.
    apply (page_ok_disjoint kend q p); [by apply (own_page kend own _ s Hinv q r)|done| |done].
    intros ->. congruence. }
  assert (Hpt2 : ptes_same own (memory s) m').
  { intros d' v' Hd' Hv'. rewrite <-Hm1. apply Hpv2; [by apply Hkeep|done]. }
  do 3 (split; [done|]).
  destruct (map_user_run _ _ _ d v p fl Hinv2 (Hkeep _ _ Hd) Hv Hpl) as
    [[Hrun Hl]|(s' & own' & l' & Hrun & Hinv' & Hmore & Hpv' & Hdat' & Hlow')]; [|done|by left|right].
  { cbn [memory set_memory]. rewrite Hpt2; [done|done|]. unfold USERPAGES in Hv. lia. }
  exists s', (<[p := User d v]> own'), l'. split_and!; try done.
  - by apply grows_map.
  - apply lookup_insert_eq.
  - destruct Hmore as [M1 M2]. split.
    + intros q r [(<- & <-)|(Hne & Hq)]%lookup_insert_Some; [apply lookup_insert_eq|].
      rewrite lookup_insert_ne by done. apply M1. by rewrite lookup_insert_ne.
    + intros q r [(<- & <-)|(Hne & Hq)]%lookup_insert_Some; [left; apply lookup_insert_eq|].
      rewrite lookup_insert_ne by done. destruct (M2 q r Hq) as [Hq'|[Hq' Hr]];
        rewrite lookup_insert_ne in Hq' by done; auto.
  - intros d' v' Hd' Hv'. rewrite Hpv' by (try done; by apply Hkeep). case_decide; [done|].
    by apply Hpt2.
  - eapply data_same_trans; [exact Hdat2|]. eapply data_same_mono; [apply Hkeep|done].
  - intros b Hb. apply (Hdat' p Loose b); try done. by left.
  - intros b Hb. rewrite Hlow' by done. cbn [memory set_memory]. rewrite Hm' by (by apply low_page). by rewrite Hm1.
Qed.

End spec.
