(* ===== verification/VmProps.v ===== *)
(** Properties of the virtual-memory system

    [allocuvm], [deallocuvm], [copyuvm], [freevm] and [setupkvm] as operations
    on address spaces: which pages they take and give back, which entries they
    change, and what the pages contain. *)

From stdpp Require Import gmap list numbers strings.
From Stdlib Require Import ZArith Lia.
From S2P Require Import Prelude Mem Memlayout Kalloc Vm VmInv VmSpec.

Section props.
Context {Hpool : page_pool}.
Variable kend : Z.
Hypothesis Hkend : KERNBASE < kend.
Implicit Types (own : gmap Z role) (l : list Z) (s : kst).

(** ** [allocuvm] *)

(** User page [v] of [d] is the page [p], writable by the user. *)
Definition user_pte (p : Z) : Z := Z.lor (V2P p) (Z.lor (Z.lor PTE_W PTE_U) PTE_P).

(** The pages [v], ..., [hi - 1] of [d] are new, zeroed and mapped. *)
Definition zero_pages (d v hi : Z) own own' s' : Prop :=
  ∀ w, v ≤ w < hi → ∃ p, own !! p = None ∧ own' !! p = Some (User d w) ∧
    pte_val (memory s') d w = user_pte p ∧ ∀ b, in_page p b → ld8 (memory s') b = 0.

Lemma drop_range_grow d lo hi v own own' p : lo ≤ v < hi → own !! p = None →
  more_tables d (<[p := User d v]> own) own' →
  more_tables d (drop_range d lo hi own) (drop_range d lo hi own').
Proof.
  intros Hv Hp [M1 M2]. split.
  - intros q r [Hq Hr]%drop_range_Some. apply drop_range_Some. split; [|done]. apply M1.
    rewrite lookup_insert_ne; [done|]. intros ->. congruence.
  - intros q r [Hq Hr]%drop_range_Some. destruct (M2 q r Hq) as [[(<- & <-)|(Hne & Hq')]%lookup_insert_Some|[Hq' Hi]].
    + simpl in Hr. rewrite bool_decide_eq_false in Hr. by destruct Hr.
    + left. by apply drop_range_Some.
    + right. split; [|done]. apply lookup_insert_None in Hq' as [Hq' _].
      destruct (drop_range d lo hi own !! q) eqn:E; [|done].
      apply drop_range_Some in E as [E _]. congruence.
Qed.

Lemma drop_range_more d lo hi own own' : more_tables d own own' →
  more_tables d (drop_range d lo hi own) (drop_range d lo hi own').
Proof.
  intros [M1 M2]. split.
  - intros q r [Hq Hr]%drop_range_Some. apply drop_range_Some. split; [by apply M1|done].
  - intros q r [Hq Hr]%drop_range_Some. destruct (M2 q r Hq) as [Hq'|[Hq' Hi]].
    + left. by apply drop_range_Some.
    + right. split; [|done]. destruct (drop_range d lo hi own !! q) eqn:E; [|done].
      apply drop_range_Some in E as [E _]. congruence.
Qed.

(** What a failed [allocuvm] leaves: the range is unmapped, everything else is
    as before, except that tables may have been added. *)
Record alloc_failed (d lo hi : Z) own own' s s' : Prop := {
  af_own : more_tables d (drop_range d lo hi own) own';
  af_ptes : ∀ d' w, own !! d' = Some Dir → 0 ≤ w < 1048576 → ¬ (d' = d ∧ lo ≤ w < hi) →
    pte_val (memory s') d' w = pte_val (memory s) d' w;
  af_absent : ∀ w, lo ≤ w < hi → present (pte_val (memory s') d w) = false;
  af_data : data_same (drop_range d lo hi own) (memory s) (memory s')
}.

Record alloc_done (d v hi : Z) own own' s s' : Prop := {
  ad_own : grows d own own';
  ad_zero : zero_pages d v hi own own' s';
  ad_ptes : ∀ d' w, own !! d' = Some Dir → 0 ≤ w < 1048576 → ¬ (d' = d ∧ v ≤ w < hi) →
    pte_val (memory s') d' w = pte_val (memory s) d' w;
  ad_data : data_same own (memory s) (memory s')
}.

(** The pages taken by one round. *)
Lemma more_tables_taken own own' l' s' d p v lo hi : vm_inv kend own' l' s' →
  more_tables d (<[p := User d v]> own) own' → lo ≤ v < hi → ∀ q r, own' !! q = Some r →
  own !! q = Some r ∨ (∃ i, 0 ≤ i ∧ r = Tab d i) ∨ (∃ v, lo ≤ v < hi ∧ r = User d v).
Proof.
  intros Hinv [_ M] Hv q r Hq. destruct (M q r Hq) as [[(<- & <-)|(_ & ?)]%lookup_insert_Some|[_ [i ->]]]; [eauto|by left|].
  right. left. exists i. split; [|done]. destruct (vi_tab _ _ _ _ Hinv _ _ _ Hq) as (_ & ? & _). lia.
Qed.

(** The allocator is empty, or was when the last page had been taken. *)
Lemma exhausted_now own s k d ilo lo hi : vm_inv kend own [] s → exhausted kend own k d ilo lo hi.
Proof. intros H. exists own, s, []. split_and!; [done|simpl; lia|by auto]. Qed.

Lemma exhausted_last own s p r d ilo lo hi : vm_inv kend (<[p := r]> own) [] s → exhausted kend own 1 d ilo lo hi.
Proof.
  intros H. exists (<[p := r]> own), s, [p]. split_and!; [done|done|].
  intros q x [(<- & _)|(_ & ?)]%lookup_insert_Some; [right; left; apply list_elem_of_here|by left].
Qed.

Lemma exhausted_round own own' l' s' k d p v lo lo' hi : vm_inv kend own' l' s' →
  more_tables d (<[p := User d v]> own) own' → lo ≤ v < hi → lo ≤ lo' →
  exhausted kend own' k d 0 lo' hi → exhausted kend own k d 0 lo hi.
Proof.
  intros Hinv Hm Hv Hlo Hex. eapply (exhausted_mono kend own own' []); [exact Hex|done|].
  intros q r Hq. destruct (more_tables_taken own own' l' s' d p v lo hi Hinv Hm Hv q r Hq) as [?|[?|?]]; auto.
Qed.

(** [deallocuvm] as [allocuvm] calls it when memory runs out. *)
Lemma alloc_undo own l s d oldsz newsz :
  let lo := (oldsz + 4095) / 4096 in let hi := (newsz + 4095) / 4096 in
  vm_inv kend own l s → own !! d = Some Dir → 0 ≤ oldsz < newsz → newsz ≤ KERNBASE →
  ∃ s' l', deallocuvm kend d newsz oldsz s = Ok oldsz s' ∧
    vm_inv kend (drop_range d lo hi own) l' s' ∧
    (∀ d' w, own !! d' = Some Dir → 0 ≤ w < 1048576 → ¬ (d' = d ∧ lo ≤ w < hi) →
       pte_val (memory s') d' w = pte_val (memory s) d' w) ∧
    (∀ w, lo ≤ w < hi → present (pte_val (memory s') d w) = false) ∧
    data_same (drop_range d lo hi own) (memory s) (memory s').
Proof.
  intros lo hi Hinv Hd Hsz Hn.
  destruct (dealloc_run kend Hkend own l s d newsz oldsz Hinv Hd ltac:(lia) Hn)
    as (s' & l' & Hrun & [R1 R2 R3 R4]).
  exists s', l'. split_and!; try done.
  - intros d' w Hd' Hw Hno. rewrite R2 by done. rewrite decide_False; [done|]. tauto.
  - intros w Hw. unfold KERNBASE in Hn. rewrite R2 by (done || (unfold lo, hi in Hw; Z.div_mod_to_equations; lia)).
    destruct (present (pte_val (memory s) d w)) eqn:E; [by rewrite decide_True|].
    rewrite decide_False; [done|]. intros (_ & _ & ?). congruence.
Qed.

Lemma alloc_loop_run d oldsz newsz : 0 ≤ oldsz ≤ newsz → newsz ≤ KERNBASE → ∀ fuel own l s v,
  let lo := (oldsz + 4095) / 4096 in let hi := (newsz + 4095) / 4096 in
  vm_inv kend own l s → own !! d = Some Dir → lo ≤ v → hi - v ≤ Z.of_nat fuel →
  (∀ w, v ≤ w < hi → present (pte_val (memory s) d w) = false) →
  ∃ r s' own' l', allocuvm_loop kend fuel d (4096 * v) oldsz newsz s = Ok r s' ∧
    vm_inv kend own' l' s' ∧
    ((r = newsz ∧ alloc_done d v hi own own' s s') ∨
     (r = 0 ∧ exhausted kend own 1 d 0 lo hi ∧ alloc_failed d lo hi own own' s s')).
Proof.
  intros Hsz Hn. unfold KERNBASE in Hn.
  assert (Hdone : ∀ own l s v fuel, let hi := (newsz + 4095) / 4096 in
    vm_inv kend own l s → hi ≤ v →
    allocuvm_loop kend fuel d (4096 * v) oldsz newsz s = Ok newsz s ∧ alloc_done d v hi own own s s).
  { intros own l s v fuel hi Hinv Hv. split.
    - destruct fuel; simpl; rewrite (proj2 (Z.ltb_ge _ _)) by (unfold hi in *; Z.div_mod_to_equations; lia); done.
    - split; [apply grows_refl|intros w Hw; lia|done|done]. }
  induction fuel as [|fuel IH]; intros own l s v lo hi Hinv Hd Hv Hf Habs.
  { destruct (Hdone own l s v 0%nat Hinv ltac:(unfold hi in *; lia)) as [Hr Ha].
    exists newsz, s, own, l. split_and!; try done. by left. }
  destruct (decide (hi ≤ v)) as [Hge|Hlt].
  { destruct (Hdone own l s v (S fuel) Hinv Hge) as [Hr Ha].
    exists newsz, s, own, l. split_and!; try done. by left. }
  assert (Hvr : 0 ≤ v < USERPAGES) by (unfold USERPAGES, lo, hi in *; Z.div_mod_to_equations; lia).
  assert (Hlt' : oldsz < newsz) by (unfold lo, hi in *; Z.div_mod_to_equations; lia).
  cbn [allocuvm_loop]. rewrite (proj2 (Z.ltb_lt _ _)) by (unfold hi in *; Z.div_mod_to_equations; lia).
  destruct l as [|p l].
  { erewrite bind_ok by (eapply kalloc_empty, vi_kmem, Hinv). simpl.
    destruct (alloc_undo own [] s d oldsz newsz Hinv Hd ltac:(lia) ltac:(unfold KERNBASE; lia))
      as (s' & l' & Hrun & Hinv' & Hp1 & Hp2 & Hdat). erewrite bind_ok by exact Hrun.
    exists 0, s', (drop_range d lo hi own), l'. split_and!; try done. right. split; [done|].
    split; [by eapply exhausted_now|]. split; try done. apply more_tables_refl. }
  destruct (grow_round kend own p l s d v (Z.lor PTE_W PTE_U) (memset (memory s) p 0 PGSIZE) Hinv Hd Hvr)
    as (s1 & Hk & Hm1 & Hp0 & Hnone & Hinv2 & Hdat2 & Hpt2 & Hcase);
    [apply Habs; lia|done|intros b Hb; by apply fill_other|].
  erewrite bind_ok by exact Hk. rewrite (proj2 (Z.eqb_neq _ _)) by done.
  unfold fill. rewrite bind_modify, Hm1.
  set (s2 := set_memory (memset (memory s) p 0 PGSIZE) s1) in *.
  destruct Hcase as [[Hrun Hl]|(s3 & own3 & l3 & Hrun & Hinv3 & Hgrow & Hp3 & Hmore3 & Hpv3 & Hdat3 & Hcont & _)];
    erewrite bind_ok by exact Hrun; cbn [Z.ltb Z.compare].
  - (* no memory for a table *)
    assert (Hdl : <[p := Loose]> own !! d = Some Dir)
      by (rewrite lookup_insert_ne; [done|]; intros ->; congruence).
    destruct (alloc_undo _ l s2 d oldsz newsz Hinv2 Hdl ltac:(lia) ltac:(unfold KERNBASE; lia))
      as (s' & l' & Hrun' & Hinv' & Hp1 & Hp2 & Hdat').
    fold lo hi in Hinv', Hp1, Hp2, Hdat'.
    assert (Hpl : drop_range d lo hi (<[p := Loose]> own) !! p = Some Loose)
      by (apply drop_range_Some; split; [apply lookup_insert_eq|done]).
    destruct (inv_kfree kend _ l' s' p Hinv' Hpl) as (s4 & Hrun4 & Hinv4 & Hout4 & Hpv4).
    erewrite bind_ok by exact Hrun'. erewrite bind_ok by exact Hrun4.
    assert (E : delete p (drop_range d lo hi (<[p := Loose]> own)) = drop_range d lo hi own).
    { apply map_eq. intros q. apply option_eq. intros r.
      rewrite lookup_delete_Some, !drop_range_Some, lookup_insert_Some. split.
      - intros (Hne & [(<- & _)|(_ & Hq)] & Hr); done.
      - intros [Hq Hr]. split_and!; [congruence| |done]. right. split; [congruence|done]. }
    rewrite E in Hinv4.
    assert (Hdir : ∀ d', own !! d' = Some Dir → drop_range d lo hi (<[p := Loose]> own) !! d' = Some Dir).
    { intros d' Hd'. apply drop_range_dir. rewrite lookup_insert_ne; [done|]. intros ->. congruence. }
    assert (Hdir' : ∀ d', own !! d' = Some Dir → <[p := Loose]> own !! d' = Some Dir).
    { intros d' Hd'. rewrite lookup_insert_ne; [done|]. intros ->. congruence. }
    exists 0, s4, (drop_range d lo hi own), (p :: l'). split_and!; try done. right. split; [done|].
    split; [by subst l; eapply exhausted_last|]. split.
    + apply more_tables_refl.
    + intros d' w Hd' Hw Hno. rewrite Hpv4, Hp1 by auto. by apply Hpt2.
    + intros w Hw. rewrite Hpv4; [by apply Hp2|by apply Hdir|].
      unfold lo, hi in Hw. Z.div_mod_to_equations; lia.
    + intros q r b Hq Hr Hb. apply drop_range_Some in Hq as [Hq Hdr].
      assert (Hqp : q ≠ p) by congruence.
      rewrite Hout4. 2:{ apply (page_ok_disjoint kend q p); try done.
        - by apply (own_page kend own _ s Hinv q r).
        - by apply (own_page kend _ _ _ Hinv' p Loose). }
      rewrite (Hdat' q r b); [by eapply Hdat2| |done|done].
      apply drop_range_Some. split; [|done]. by rewrite lookup_insert_ne.
  - assert (u32 (4096 * v + PGSIZE) = 4096 * (v + 1)) as ->
      by (unfold PGSIZE, USERPAGES in *; rewrite u32_small by lia; lia).
    destruct (IH own3 l3 s3 (v + 1) Hinv3) as (r & s' & own' & l' & Hrun' & Hinv' & Hcase);
      [by apply Hgrow|lia|lia| |].
    { intros w Hw. rewrite Hpv3; [|done|unfold hi, USERPAGES in *; Z.div_mod_to_equations; lia].
      rewrite decide_False by lia. apply Habs. lia. }
    exists r, s', own', l'. split_and!; try done.
    destruct Hcase as [[-> [D1 D2 D3 D4]]|(-> & Hex & [F1 F2 F3 F4])]; [left|right]; (split; [done|]);
      [|split; [by eapply exhausted_round; [exact Hinv3|exact Hmore3|lia|..|exact Hex]; lia|]]; split.
    + by eapply grows_trans.
    + intros w Hw. destruct (decide (w = v)) as [->|].
      * exists p. split_and!; try done; [by apply D1| |].
        -- rewrite D3; [|by apply Hgrow|unfold USERPAGES in *; lia|lia].
           rewrite Hpv3 by (done || (unfold USERPAGES in *; lia)). by rewrite decide_True.
        -- intros b Hb. rewrite (D4 p (User d v) b); [|done|right; eauto|done].
           rewrite Hcont by done. rewrite ld8_memset by (unfold PGSIZE; lia).
           by rewrite decide_True by (unfold in_page in Hb; lia).
      * destruct (D2 w ltac:(lia)) as (p' & Hp1 & Hp2 & Hp3' & Hp4). exists p'. split_and!; try done.
        destruct (own !! p') eqn:E'; [|done]. apply Hgrow in E'. congruence.
    + intros d' w Hd' Hw Hno. rewrite D3; [|by apply Hgrow|done|intros [-> ?]; apply Hno; lia].
      rewrite Hpv3 by done. rewrite decide_False; [done|]. intros [-> ->]. apply Hno. lia.
    + eapply data_same_trans; [exact Hdat3|]. eapply data_same_mono; [apply Hgrow|done].
    + eapply more_tables_trans; [|exact F1]. eapply (drop_range_grow d lo hi v); try done. lia.
    + intros d' w Hd' Hw Hno. rewrite F2; [|by apply Hgrow|done|done].
      rewrite Hpv3 by done. rewrite decide_False; [done|]. intros [-> ->]. apply Hno. lia.
    + done.
    + intros q x b Hq Hx Hb. rewrite (F4 q x b); [|apply drop_range_Some in Hq as [Hq ?];
        apply drop_range_Some; split; [by apply Hgrow|done]|done|done].
      apply drop_range_Some in Hq as [Hq _]. by eapply Hdat3.
Qed.

(** ** [copyuvm] *)

(** Page [w] of [d] is a copy of page [w] of [pgdir]: a new page with the same
    flags and the same bytes. *)
Definition copied_page (pgdir d w : Z) own own' s s' : Prop :=
  ∃ p, own !! p = None ∧ own' !! p = Some (User d w) ∧
    let e := pte_val (memory s) pgdir w in
    pte_val (memory s') d w = Z.lor (V2P p) (Z.lor (PTE_FLAGS e) PTE_P) ∧
    ∀ b, 0 ≤ b < 4096 → ld8 (memory s') (p + b) = ld8 (memory s) (page_of e + b).

Record copy_done (pgdir d v hi : Z) own own' s s' : Prop := {
  cd_own : grows d own own';
  cd_pages : ∀ w, v ≤ w < hi → copied_page pgdir d w own own' s s';
  cd_ptes : ∀ d' w, own !! d' = Some Dir → 0 ≤ w < 1048576 → ¬ (d' = d ∧ v ≤ w < hi) →
    pte_val (memory s') d' w = pte_val (memory s) d' w;
  cd_data : data_same own (memory s) (memory s')
}.

(** What is left when memory runs out: the copy is gone. *)
Record copy_failed (d : Z) own own' s s' : Prop := {
  cf_own : own' = strip d own;
  cf_ptes : ∀ d' w, own !! d' = Some Dir → d' ≠ d → 0 ≤ w < 1048576 →
    pte_val (memory s') d' w = pte_val (memory s) d' w;
  cf_data : data_same (strip d own) (memory s) (memory s')
}.

Lemma page_move m p src b : 0 ≤ src → src + 4096 < 4294967296 →
  ld8 (memmove m p src PGSIZE) b = if decide (in_page p b) then ld8 m (src + (b - p)) else ld8 m b.
Proof. intros. rewrite ld8_memmove by (unfold PGSIZE; lia). done. Qed.

Lemma copy_undo own l s d : vm_inv kend own l s → own !! d = Some Dir →
  ∃ s' l', freevm kend d s = Ok tt s' ∧ vm_inv kend (strip d own) l' s' ∧
    copy_failed d own (strip d own) s s'.
Proof.
  intros Hinv Hd. destruct (freevm_run kend Hkend own l s d Hinv Hd)
    as (s' & l' & Hrun & Hinv' & _ & Hpv & Hdat). exists s', l'. split_and!; try done.
Qed.

(** A failure after one more page is a failure from the start. *)
Lemma copy_failed_mono d own own1 own' s s1 s' : grows d own own1 →
  (∀ d' w, own !! d' = Some Dir → d' ≠ d → 0 ≤ w < 1048576 →
     pte_val (memory s1) d' w = pte_val (memory s) d' w) →
  data_same own (memory s) (memory s1) →
  copy_failed d own1 own' s1 s' → copy_failed d own own' s s'.
Proof.
  intros Hg Hp Hdat [F1 F2 F3]. rewrite (strip_grows d own own1 Hg) in F1, F3. split; try done.
  - intros d' w Hd' Hne Hw. rewrite F2; [by apply Hp|by apply Hg|done|done].
  - eapply data_same_trans; [|exact F3]. eapply data_same_mono; [|exact Hdat].
    by intros q r [? _]%strip_Some.
Qed.

(** A later page copied from the state after this round is a copy from the
    start. *)
Lemma copied_page_mono pgdir d w own l own1 own' s s1 s' : vm_inv kend own l s →
  own !! pgdir = Some Dir → 0 ≤ w < USERPAGES → present (pte_val (memory s) pgdir w) = true →
  grows d own own1 → pte_val (memory s1) pgdir w = pte_val (memory s) pgdir w →
  data_same own (memory s) (memory s1) →
  copied_page pgdir d w own1 own' s1 s' → copied_page pgdir d w own own' s s'.
Proof.
  intros Hinv Hpg Hw Hpr Hg Hpte Hdat (p & Hp1 & Hp2 & Hp3 & Hp4). rewrite Hpte in Hp3, Hp4.
  exists p. split; [|split; [done|split; [done|]]].
  - destruct (own !! p) eqn:E; [|done]. apply Hg in E. congruence.
  - intros b Hb. rewrite Hp4 by done.
    apply (Hdat (page_of (pte_val (memory s) pgdir w)) (User pgdir w)); [|right; eauto|unfold in_page, PGSIZE; lia].
    by apply (pte_val_user kend own l s Hinv).
Qed.

Lemma copy_loop_run pgdir d sz : 0 ≤ sz ≤ KERNBASE → pgdir ≠ d → ∀ fuel own l s v,
  let hi := (sz + 4095) / 4096 in
  vm_inv kend own l s → own !! pgdir = Some Dir → own !! d = Some Dir → 0 ≤ v →
  hi - v ≤ Z.of_nat fuel →
  (∀ w, v ≤ w < hi → present (pte_val (memory s) pgdir w) = true) →
  (∀ w, v ≤ w < hi → present (pte_val (memory s) d w) = false) →
  ∃ r s' own' l', copyuvm_loop kend fuel pgdir d (4096 * v) sz s = Ok r s' ∧
    vm_inv kend own' l' s' ∧
    ((r = d ∧ copy_done pgdir d v hi own own' s s') ∨
     (r = 0 ∧ exhausted kend own 1 d 0 v hi ∧ copy_failed d own own' s s')).
Proof.
  intros Hsz Hne. unfold KERNBASE in Hsz.
  assert (Hdone : ∀ own l s v fuel, let hi := (sz + 4095) / 4096 in
    vm_inv kend own l s → hi ≤ v →
    copyuvm_loop kend fuel pgdir d (4096 * v) sz s = Ok d s ∧ copy_done pgdir d v hi own own s s).
  { intros own l s v fuel hi Hinv Hv. split.
    - destruct fuel; simpl; rewrite (proj2 (Z.ltb_ge _ _)) by (unfold hi in *; Z.div_mod_to_equations; lia); done.
    - split; [apply grows_refl|intros w Hw; lia|done|done]. }
  induction fuel as [|fuel IH]; intros own l s v hi Hinv Hpg Hd Hv Hf Hpres Habs.
  { destruct (Hdone own l s v 0%nat Hinv ltac:(unfold hi in *; lia)) as [Hr Ha].
    exists d, s, own, l. split_and!; try done. by left. }
  destruct (decide (hi ≤ v)) as [Hge|Hlt].
  { destruct (Hdone own l s v (S fuel) Hinv Hge) as [Hr Ha].
    exists d, s, own, l. split_and!; try done. by left. }
  assert (Hhi : hi ≤ USERPAGES) by (unfold USERPAGES, hi; Z.div_mod_to_equations; lia).
  assert (Hvr : 0 ≤ v < USERPAGES) by lia. unfold USERPAGES in Hhi, Hvr.
  destruct (page_va v ltac:(lia)) as (Hr & Hdv & Ed & Et).
  destruct (walkpgdir_run kend own l s pgdir (4096 * v) Hinv Hpg Hr) as (Hw & Hp1 & Hp2).
  specialize (Hpres v ltac:(lia)) as Hpv. rewrite Ed, Et, Hdv in *.
  cbn [copyuvm_loop]. rewrite (proj2 (Z.ltb_lt _ _)) by (unfold hi in *; Z.div_mod_to_equations; lia).
  erewrite bind_ok by exact Hw.
  destruct (present (word (memory s) pgdir (v / 1024))) eqn:Hpde; [|by rewrite Hp2 in Hpv].
  destruct (Hp1 eq_refl) as (Hnz & Ht & Hword). rewrite (proj2 (Z.eqb_neq _ _)) by done.
  unfold ldw. rewrite bind_gets.
  change (ld32 (memory s) (page_of (word (memory s) pgdir (v / 1024)) + 4 * (v mod 1024)))
    with (word (memory s) (page_of (word (memory s) pgdir (v / 1024))) (v mod 1024)).
  rewrite Hword. set (e := pte_val (memory s) pgdir v) in *. rewrite Hpv. cbn [negb].
  change (P2V (PTE_ADDR e)) with (page_of e).
  assert (Hsrc : own !! page_of e = Some (User pgdir v))
    by (by apply (pte_val_user kend own l s Hinv)).
  pose proof (own_page kend own l s Hinv _ _ Hsrc) as Hoksrc.
  assert (Hsr : 0 ≤ page_of e ∧ page_of e + 4096 < 4294967296)
    by (unfold page_ok, KERNBASE, PHYSTOP in Hoksrc; lia).
  assert (Hfl : 0 ≤ PTE_FLAGS e < 4096) by (rewrite PTE_FLAGS_mod; apply Z.mod_pos_bound; lia).
  destruct l as [|p l].
  { erewrite bind_ok by (eapply kalloc_empty, vi_kmem, Hinv). cbn [Z.eqb].
    destruct (copy_undo own [] s d Hinv Hd) as (s' & l' & Hrun & Hinv' & Hfail).
    erewrite bind_ok by exact Hrun. exists 0, s', (strip d own), l'. split_and!; try done. right.
    split_and!; [done|by eapply exhausted_now|done]. }
  destruct (grow_round kend own p l s d v (PTE_FLAGS e) (memmove (memory s) p (page_of e) PGSIZE) Hinv Hd)
    as (s1 & Hk & Hm1 & Hp0 & Hnone & Hinv2 & Hdat2 & Hpt2 & Hcase); try done.
  { apply Habs. lia. }
  { intros b Hb. rewrite page_move by lia. by rewrite decide_False. }
  erewrite bind_ok by exact Hk. rewrite (proj2 (Z.eqb_neq _ _)) by done.
  unfold move. rewrite bind_modify, Hm1.
  set (s2 := set_memory (memmove (memory s) p (page_of e) PGSIZE) s1) in *.
  destruct Hcase as [[Hrun Hl]|(s3 & own3 & l3 & Hrun & Hinv3 & Hgrow & Hp3 & Hmore3 & Hpv3 & Hdat3 & Hcont & _)];
    erewrite bind_ok by exact Hrun; cbn [Z.ltb Z.compare].
  - destruct (inv_kfree kend _ l s2 p Hinv2) as (s4 & Hrun4 & Hinv4 & Hout4 & Hpv4);
      [apply lookup_insert_eq|]. rewrite delete_insert_id in Hinv4 by done.
    destruct (copy_undo own (p :: l) s4 d Hinv4 Hd) as (s' & l' & Hrun' & Hinv' & Hfail).
    erewrite bind_ok by exact Hrun4. erewrite bind_ok by exact Hrun'.
    exists 0, s', (strip d own), l'. split_and!; try done. right. split; [done|].
    split; [by subst l; eapply exhausted_last|]. eapply copy_failed_mono; [apply grows_refl| | |exact Hfail].
    + intros d' w Hd' Hne' Hw'. rewrite Hpv4; [by apply Hpt2| |done].
      rewrite lookup_insert_ne; [done|]. intros ->. congruence.
    + intros q x b Hq Hx Hb. rewrite Hout4; [by eapply Hdat2|].
      apply (page_ok_disjoint kend q p); [by apply (own_page kend own _ s Hinv q x)| | |done].
      * by apply (own_page kend _ _ _ Hinv2 p Loose), lookup_insert_eq.
      * intros ->. congruence.
  - assert (u32 (4096 * v + PGSIZE) = 4096 * (v + 1)) as ->
      by (unfold PGSIZE in *; rewrite u32_small by lia; lia).
    assert (Hpg3 : ∀ w, 0 ≤ w < 1048576 → pte_val (memory s3) pgdir w = pte_val (memory s) pgdir w).
    { intros w Hw'. rewrite Hpv3 by done. rewrite decide_False; [done|]. by intros [? _]. }
    destruct (IH own3 l3 s3 (v + 1) Hinv3) as (r & s' & own' & l' & Hrun' & Hinv' & Hcase);
      [by apply Hgrow|by apply Hgrow|lia|lia|fold hi; intros w Hw'..|].
    { rewrite Hpg3 by lia. apply Hpres. lia. }
    { rewrite Hpv3 by (done || lia). rewrite decide_False by lia. apply Habs. lia. }
    exists r, s', own', l'. split_and!; try done.
    destruct Hcase as [[-> [D1 D2 D3 D4]]|(-> & Hex & Hfail)]; [left|right]; (split; [done|]);
      [|split; [by eapply exhausted_round; [exact Hinv3|exact Hmore3|lia|..|exact Hex]; lia|]].
    + split.
      * by eapply grows_trans.
      * intros w Hw'. destruct (decide (w = v)) as [->|].
        -- exists p. split; [done|]. split; [by apply D1|]. fold e. cbv zeta. split.
           ++ rewrite D3; [|by apply Hgrow|lia|lia]. rewrite Hpv3 by (done || lia).
              by rewrite decide_True.
           ++ intros b Hb. assert (Hin : in_page p (p + b)) by (unfold in_page, PGSIZE; lia).
              rewrite (D4 p (User d v)); [|done|right; eauto|done].
              rewrite Hcont by done. rewrite page_move by lia. rewrite decide_True by done.
              f_equal. lia.
        -- apply (copied_page_mono pgdir d w own (p :: l) own3 own' s s3 s' Hinv Hpg);
             [unfold USERPAGES; lia|apply Hpres; lia|done|apply Hpg3; lia|done|].
           apply D2. unfold hi in *. lia.
      * intros d' w Hd' Hw' Hno. rewrite D3; [|by apply Hgrow|done|intros [-> ?]; apply Hno; unfold hi; lia].
        rewrite Hpv3 by done. rewrite decide_False; [done|]. intros [-> ->]. apply Hno. lia.
      * eapply data_same_trans; [exact Hdat3|]. eapply data_same_mono; [apply Hgrow|done].
    + eapply copy_failed_mono; [exact Hgrow| |exact Hdat3|exact Hfail].
      intros d' w Hd' Hne' Hw'. rewrite Hpv3 by done. rewrite decide_False; [done|]. by intros [? _].
Qed.

(** ** Theorems *)

Lemma allocuvm_run own l s d oldsz newsz :
  vm_inv kend own l s → own !! d = Some Dir → 0 ≤ oldsz ≤ newsz → newsz < KERNBASE →
  (∀ w, (oldsz + 4095) / 4096 ≤ w < (newsz + 4095) / 4096 →
     present (pte_val (memory s) d w) = false) →
  let lo := (oldsz + 4095) / 4096 in let hi := (newsz + 4095) / 4096 in
  ∃ r s' own' l', allocuvm kend d oldsz newsz s = Ok r s' ∧ vm_inv kend own' l' s' ∧
    ((r = newsz ∧ alloc_done d lo hi own own' s s') ∨
     (r = 0 ∧ alloc_failed d lo hi own own' s s' ∧ Z.of_nat (length l) ≤ 1025 + (hi - lo))).
Proof.
  intros Hinv Hd Hsz Hn Habs lo hi. unfold allocuvm. unfold KERNBASE in *.
  rewrite (proj2 (Z.leb_gt _ _)), (proj2 (Z.ltb_ge _ _)), PGROUNDUP_div by lia.
  destruct (alloc_loop_run d oldsz newsz Hsz ltac:(unfold KERNBASE; lia) (Z.to_nat (newsz / PGSIZE + 1)) own l s lo)
    as (r & s' & own' & l' & Hrun & Hinv' & Hcase); try done.
  { unfold PGSIZE. Z.div_mod_to_equations; lia. }
  exists r, s', own', l'. split_and!; [done|done|]. destruct Hcase as [?|(-> & Hex & Hf)]; [by left|right].
  split_and!; [done|done|]. pose proof (exhausted_few kend _ _ _ _ _ _ _ _ Hinv Hex ltac:(lia)) as Hfew.
  fold lo hi in Hfew. specialize (Hfew ltac:(unfold lo, hi; Z.div_mod_to_equations; lia)). lia.
Qed.

(** C9. [allocuvm] grows an address space or leaves it as it was.  On success
    it returns the new size; the pages between the old and the new size are
    freshly allocated, zeroed and mapped user-writable, and no other entry, of
    this or any other address space, and no byte of any page in use has
    changed.  It returns 0 only when fewer pages were free than the new pages and
    their tables can take; the range is unmapped again, the pages taken are given
    back (page tables excepted), and every other entry and page is as before. *)
Theorem allocuvm_correct own l s d oldsz newsz :
  vm_inv kend own l s → own !! d = Some Dir → 0 ≤ oldsz ≤ newsz → newsz < KERNBASE →
  (∀ w, (oldsz + 4095) / 4096 ≤ w < (newsz + 4095) / 4096 →
     present (pte_val (memory s) d w) = false) →
  let lo := (oldsz + 4095) / 4096 in let hi := (newsz + 4095) / 4096 in
  ∃ r s' own' l', allocuvm kend d oldsz newsz s = Ok r s' ∧ vm_inv kend own' l' s' ∧
    ((r = newsz ∧ alloc_done d lo hi own own' s s') ∨
     (r = 0 ∧ alloc_failed d lo hi own own' s s' ∧ Z.of_nat (length l) ≤ 1025 + (hi - lo))).
Proof. apply allocuvm_run. Qed.

(** [deallocuvm] to a smaller size returns the new size, unmaps exactly the
    pages between the new and the old size and puts exactly those on the free
    list, each once; other entries and the contents of other pages do not
    change.  To a size that is not smaller it does nothing. *)
Theorem deallocuvm_correct own l s d oldsz newsz :
  vm_inv kend own l s → own !! d = Some Dir → 0 ≤ newsz → 0 ≤ oldsz ≤ KERNBASE →
  if decide (newsz < oldsz) then
    ∃ s' l', deallocuvm kend d oldsz newsz s = Ok newsz s' ∧
      released kend d ((newsz + 4095) / 4096) ((oldsz + 4095) / 4096) own l l' s s'
  else deallocuvm kend d oldsz newsz s = Ok oldsz s.
Proof.
  intros Hinv Hd Hn Ho. case_decide.
  - apply dealloc_run; try done; lia.
  - unfold deallocuvm. by rewrite (proj2 (Z.leb_le _ _)) by lia.
Qed.

(** C10. [freevm] never panics on an address space in order, and gives back
    exactly its pages: the directory, its page tables and its user pages, each
    once.  No other address space loses an entry and no page that remains in
    use changes. *)
Theorem freevm_correct own l s d : vm_inv kend own l s → own !! d = Some Dir →
  ∃ s' l', freevm kend d s = Ok tt s' ∧ vm_inv kend (strip d own) l' s' ∧
    (∀ q, q ∈ l' ↔ q ∈ l ∨ ∃ r, own !! q = Some r ∧ of_dir d q r = true) ∧
    (∀ d' v, own !! d' = Some Dir → d' ≠ d → 0 ≤ v < 1048576 →
       pte_val (memory s') d' v = pte_val (memory s) d' v) ∧
    data_same (strip d own) (memory s) (memory s').
Proof. by apply freevm_run. Qed.

(** The linker symbol [data]. *)
Variable kdata : Z.
Hypothesis Hdata : kdata mod 4096 = 0 ∧ KERNLINK < kdata < KERNBASE + PHYSTOP.

(** [setupkvm] returns 0 only when at most 513 pages were free, one for the
    directory and one for each table of its kernel half, and then takes nothing.
    Otherwise it returns a new directory whose user half is empty and which
    maps every page of every range of [kmap] to its physical page with its
    permission; no other address space and no page in use changes. *)
Theorem setupkvm_correct own l s : vm_inv kend own l s →
  ∃ r s' own' l', setupkvm kend kdata s = Ok r s' ∧ vm_inv kend own' l' s' ∧
    data_same own (memory s) (memory s') ∧ ptes_same own (memory s) (memory s') ∧
    ((r = 0 ∧ own' = own ∧ Z.of_nat (length l) ≤ 513) ∨
     (r ≠ 0 ∧ own !! r = None ∧ own' !! r = Some Dir ∧
      (∀ v, 0 ≤ v < USERPAGES → pte_val (memory s') r v = 0) ∧
      ∀ k j, k ∈ kmaps kdata → 0 ≤ j < kpages k →
        pte_val (memory s') r (kfirst k + j) = kentry k j)).
Proof.
  intros Hinv. destruct (setupkvm_run kend Hkend kdata Hdata own l s Hinv)
    as (r & s' & own' & l' & Hrun & Hinv' & Hdat & Hpt & Hcase).
  exists r, s', own', l'. split_and!; try done.
  destruct Hcase as [?|(Hr & Hn & Hmore & _ & _ & Hu & Hk)]; [by left|]. right. split_and!; try done.
  apply Hmore, lookup_insert_eq.
Qed.

(** A new directory and its tables. *)
Lemma grows_new d own own1 : own !! d = None → more_tables d (<[d := Dir]> own) own1 → grows d own own1.
Proof.
  intros Hnone [M1 M2]. split.
  - intros q r Hq. apply M1. rewrite lookup_insert_ne; [done|]. intros ->. congruence.
  - intros q r Hq. destruct (M2 q r Hq) as [[(<- & <-)|(? & ?)]%lookup_insert_Some|[Hq' [i ->]]].
    + right. split; [done|]. unfold of_dir. by rewrite bool_decide_eq_true_2.
    + by left.
    + right. apply lookup_insert_None in Hq' as [? _]. split; [done|].
      unfold of_dir. by rewrite (bool_decide_eq_true_2 (d = d)), orb_true_r.
Qed.

(** The page of a copy is in no other address space. *)
Lemma copied_page_fresh pgdir d w d' v own1 own' l' s1 s' : vm_inv kend own' l' s' → copied_page pgdir d w own1 own' s1 s' →
  own' !! d' = Some Dir → d' ≠ d → 0 ≤ v < USERPAGES → present (pte_val (memory s') d' v) = true →
  page_of (pte_val (memory s') d' v) ≠ page_of (pte_val (memory s') d w).
Proof.
  intros Hinv' (p & _ & Hp2 & Hp3 & _) Hd' Hne Hv Hp Heq.
  assert (Hokp : page_ok kend p) by (by apply (own_page kend own' l' s' Hinv' p _ Hp2)).
  assert (Hu : own' !! page_of (pte_val (memory s') d' v) = Some (User d' v)) by (by apply (pte_val_user kend own' l' s' Hinv')).
  assert (Hpp : page_of (pte_val (memory s') d w) = p).
  { destruct (V2P_page kend p Hokp) as (_ & ? & ? & ? & ?). rewrite Hp3, entry_page; [lia|done|done| |done].
    apply lor_range12; [rewrite PTE_FLAGS_mod; apply Z.mod_pos_bound; lia|unfold PTE_P; lia]. }
  rewrite Heq, Hpp, Hp2 in Hu. congruence.
Qed.

Lemma copyuvm_run own l s pgdir sz :
  vm_inv kend own l s → own !! pgdir = Some Dir → 0 ≤ sz ≤ KERNBASE →
  (∀ w, 0 ≤ w < (sz + 4095) / 4096 → present (pte_val (memory s) pgdir w) = true) →
  ∃ r s' own' l', copyuvm kend kdata pgdir sz s = Ok r s' ∧ vm_inv kend own' l' s' ∧
    data_same own (memory s) (memory s') ∧ ptes_same own (memory s) (memory s') ∧
    ((r = 0 ∧ own' = own ∧ Z.of_nat (length l) ≤ 1026 + (sz + 4095) / 4096) ∨
     (r ≠ 0 ∧ own !! r = None ∧ own' !! r = Some Dir ∧ grows r own own' ∧
      (∀ w, 0 ≤ w < (sz + 4095) / 4096 → copied_page pgdir r w own own' s s') ∧
      (∀ w, (sz + 4095) / 4096 ≤ w < USERPAGES → pte_val (memory s') r w = 0) ∧
      ∀ d' v w, own !! d' = Some Dir → 0 ≤ v < USERPAGES → 0 ≤ w < (sz + 4095) / 4096 →
        present (pte_val (memory s') d' v) = true →
        page_of (pte_val (memory s') d' v) ≠ page_of (pte_val (memory s') r w))).
Proof.
  intros Hinv Hpg Hsz Hpres. unfold copyuvm. unfold KERNBASE in Hsz.
  assert (Hhi : 0 ≤ (sz + 4095) / 4096 ≤ USERPAGES) by (unfold USERPAGES; Z.div_mod_to_equations; lia).
  destruct (setupkvm_run kend Hkend kdata Hdata own l s Hinv)
    as (d & s1 & own1 & l1 & Hrun1 & Hinv1 & Hdat1 & Hpt1 & [(-> & -> & Hfew)|(Hd0 & Hnone & Hmore & _ & _ & Hempty & _)]);
    erewrite bind_ok by exact Hrun1.
  { exists 0, s1, own, l1. split_and!; try done. left. split_and!; [done|done|lia]. }
  rewrite (proj2 (Z.eqb_neq _ _)) by done.
  assert (Hne : pgdir ≠ d) by congruence.
  pose proof (grows_new d own own1 Hnone Hmore) as Hg1.
  assert (Hd1 : own1 !! d = Some Dir) by (apply Hmore, lookup_insert_eq).
  unfold USERPAGES in *.
  destruct (copy_loop_run pgdir d sz ltac:(unfold KERNBASE; lia) Hne (Z.to_nat (sz / PGSIZE + 1)) own1 l1 s1 0)
    as (r & s' & own' & l' & Hrun & Hinv' & Hcase); try done.
  { by apply Hg1. }
  { unfold PGSIZE. Z.div_mod_to_equations; lia. }
  { intros w Hw. rewrite Hpt1 by (done || lia). by apply Hpres. }
  { intros w Hw. by rewrite Hempty by lia. }
  exists r, s', own', l'. split; [done|]. split; [done|].
  destruct Hcase as [[-> [D1 D2 D3 D4]]|(-> & Hex & [F1 F2 F3])].
  - assert (Hpt' : ptes_same own (memory s) (memory s')).
    { intros d' v Hd' Hv. rewrite D3; [by apply Hpt1|by apply Hg1|done|]. intros [-> _]. congruence. }
    split; [eapply data_same_trans; [exact Hdat1|]; eapply data_same_mono; [apply Hg1|done]|].
    split; [done|]. right. split_and!; try done.
    + by apply D1.
    + by eapply grows_trans.
    + intros w Hw. apply (copied_page_mono pgdir d w own l own1 own' s s1 s' Hinv Hpg);
        [unfold USERPAGES; lia|by apply Hpres|done|apply Hpt1; [done|lia]|done|by apply D2].
    + intros w Hw. rewrite D3; [apply Hempty; lia|done|lia|]. intros [_ ?]. lia.
    + intros d' v w Hd' Hv Hw Hp. apply (copied_page_fresh pgdir d w d' v own1 own' l' s1 s' Hinv'); [by apply D2|by apply D1, Hg1|congruence|done|done].
  - rewrite (strip_more d _ _ Hmore), (strip_new kend own l s d Hinv Hnone) in F1, F3. subst own'.
    split; [by eapply data_same_trans|]. split.
    + intros d' v Hd' Hv. rewrite F2; [by apply Hpt1|by apply Hg1| |done]. congruence.
    + left. split_and!; [done|done|].
      assert (Hex' : exhausted kend own 2 d 0 0 ((sz + 4095) / 4096)).
      { eapply (exhausted_mono kend own own1 [d]); [exact Hex|lia|]. intros q r Hq.
        destruct (proj2 Hmore q r Hq) as [[(<- & _)|(_ & ?)]%lookup_insert_Some|[_ [i ->]]]; [|by left|].
        - right. left. apply list_elem_of_here.
        - right. right. left. exists i. split; [|done]. destruct (vi_tab _ _ _ _ Hinv1 _ _ _ Hq) as (_ & ? & _). lia. }
      pose proof (exhausted_few kend _ _ _ _ _ _ _ _ Hinv Hex' ltac:(lia) ltac:(lia)). lia.
Qed.

(** C8. [copyuvm] makes an independent copy of an address space.  It never
    panics when the pages below [sz] are present.  It returns 0 only when fewer
    pages were free than the copy and its tables can take, and then everything it
    took is given back.  Otherwise the new
    directory maps each page below [sz] to a new page with the same flags and
    the same bytes, and nothing else in the user half; the parent's mappings and
    memory are unchanged, every page taken belongs to the new address space and
    none of them is mapped in another. *)
Theorem copyuvm_correct own l s pgdir sz :
  vm_inv kend own l s → own !! pgdir = Some Dir → 0 ≤ sz ≤ KERNBASE →
  (∀ w, 0 ≤ w < (sz + 4095) / 4096 → present (pte_val (memory s) pgdir w) = true) →
  ∃ r s' own' l', copyuvm kend kdata pgdir sz s = Ok r s' ∧ vm_inv kend own' l' s' ∧
    data_same own (memory s) (memory s') ∧ ptes_same own (memory s) (memory s') ∧
    ((r = 0 ∧ own' = own ∧ Z.of_nat (length l) ≤ 1026 + (sz + 4095) / 4096) ∨
     (r ≠ 0 ∧ own !! r = None ∧ own' !! r = Some Dir ∧ grows r own own' ∧
      (∀ w, 0 ≤ w < (sz + 4095) / 4096 → copied_page pgdir r w own own' s s') ∧
      (∀ w, (sz + 4095) / 4096 ≤ w < USERPAGES → pte_val (memory s') r w = 0) ∧
      ∀ d' v w, own !! d' = Some Dir → 0 ≤ v < USERPAGES → 0 ≤ w < (sz + 4095) / 4096 →
        present (pte_val (memory s') d' v) = true →
        page_of (pte_val (memory s') d' v) ≠ page_of (pte_val (memory s') r w))).
Proof. apply copyuvm_run. Qed.

End props.

(** ** An address space with one page *)

(** Directory, table and user page at three consecutive pages, and three free
    pages after them. *)
Definition demo_d : Z := 0x80400000.
Definition demo_t : Z := 0x80401000.
Definition demo_p : Z := 0x80402000.
Definition demo_free : list Z := [0x80403000; 0x80404000; 0x80405000].
Definition demo_mem : mem :=
  st32 (st32 (st32 (st32 ∅ (demo_d + 4 * 0) 0x401007) (demo_t + 4 * 0) 0x402007)
    (0x80403000 + 4 * 0) 0x80404000) (0x80404000 + 4 * 0) 0x80405000.
Definition demo_kst : kst := Kst demo_mem false true 0x80403000.
Definition demo_own : gmap Z role :=
  <[demo_d := Dir]> (<[demo_t := Tab demo_d 0]> {[demo_p := User demo_d 0]}).
Definition demo_kend : Z := 0x80300000.
Definition demo_kdata : Z := 0x80108000.

#[local] Instance demo_pool : page_pool := (list_to_set demo_free ∪ dom demo_own : gset Z).

Lemma word_empty q j : word ∅ q j = 0.
Proof. unfold word, ld32, ld8. by rewrite !lookup_empty. Qed.

Lemma demo_word q j : page_ok demo_kend q → 0 ≤ j < 1024 → (q = demo_d ∨ q = demo_t) →
  word demo_mem q j = if decide (j = 0) then (if decide (q = demo_d) then 0x401007 else 0x402007) else 0.
Proof.
  intros Hq Hj Hc. unfold demo_mem.
  rewrite !(word_st32 demo_kend) by (done || lia || (vm_compute; done)). rewrite word_empty.
  unfold demo_d, demo_t in *. repeat case_decide; try lia; vm_compute; done.
Qed.

Lemma demo_own_cases q r : demo_own !! q = Some r →
  (q = demo_d ∧ r = Dir) ∨ (q = demo_t ∧ r = Tab demo_d 0) ∨ (q = demo_p ∧ r = User demo_d 0).
Proof.
  unfold demo_own. intros [(<- & <-)|(_ & [(<- & <-)|(_ & Hq)]%lookup_insert_Some)]%lookup_insert_Some;
    [by auto..|]. apply lookup_singleton_Some in Hq as [<- <-]. auto.
Qed.

Lemma demo_inv : vm_inv demo_kend demo_own demo_free demo_kst.
Proof.
  assert (Hok : page_ok demo_kend demo_d ∧ page_ok demo_kend demo_t ∧ page_ok demo_kend demo_p)
    by (by vm_compute).
  destruct Hok as (Hd & Ht & Hp).
  assert (Hld : demo_own !! demo_d = Some Dir ∧ demo_own !! demo_t = Some (Tab demo_d 0) ∧
    demo_own !! demo_p = Some (User demo_d 0)) by (by vm_compute).
  destruct Hld as (Hld & Hlt & Hlp).
  split; simpl memory.
  - split_and!; [by vm_compute| |repeat constructor; vm_compute; done|done].
    apply (bool_decide_unpack _). by vm_compute.
  - intros q r [[-> _]|[[-> _]|[-> _]]]%demo_own_cases; (split; [done|]);
      apply (bool_decide_unpack _); by vm_compute.
  - intros d i [[-> _]|[[_ [=]]|[_ [=]]]]%demo_own_cases Hi. rewrite demo_word by auto.
    case_decide; [|done]. subst. intros _. by vm_compute.
  - intros t d i [[_ [=]]|[[-> [= -> ->]]|[_ [=]]]]%demo_own_cases.
    rewrite demo_word by (auto; lia). split_and!; by vm_compute.
  - intros t d i j [[_ [=]]|[[-> [= -> ->]]|[_ [=]]]]%demo_own_cases Hi Hj.
    rewrite demo_word by auto. case_decide; [|done]. subst. intros _. by vm_compute.
  - intros q d v [[_ [=]]|[[_ [=]]|[-> [= -> ->]]]]%demo_own_cases.
    split; [unfold USERPAGES; lia|]. exists demo_t. change (0 / 1024) with 0. change (0 mod 1024) with 0.
    rewrite demo_word by (auto; lia). split_and!; by vm_compute.
  - intros q. unfold pool, demo_pool. by rewrite elem_of_union, elem_of_list_to_set, elem_of_dom.
Qed.

Lemma demo_dir : demo_own !! demo_d = Some Dir.
Proof. by vm_compute. Qed.

Lemma demo_data : demo_kdata mod 4096 = 0 ∧ KERNLINK < demo_kdata < KERNBASE + PHYSTOP.
Proof. by vm_compute. Qed.

Lemma allocuvm_correct_witness : ∃ r s' own' l',
  allocuvm demo_kend demo_d 100 5000 demo_kst = Ok r s' ∧ vm_inv demo_kend own' l' s' ∧
  ((r = 5000 ∧ alloc_done demo_d 1 2 demo_own own' demo_kst s') ∨
   (r = 0 ∧ alloc_failed demo_d 1 2 demo_own own' demo_kst s' ∧ Z.of_nat (length demo_free) ≤ 1025 + (2 - 1))).
Proof.
  refine (allocuvm_correct demo_kend _ demo_own demo_free demo_kst demo_d 100 5000 demo_inv demo_dir _ _ _);
    [by vm_compute|lia|by vm_compute|].
  change ((100 + 4095) / 4096) with 1. change ((5000 + 4095) / 4096) with 2.
  intros w Hw. assert (w = 1) as -> by lia. by vm_compute.
Defined.

Lemma deallocuvm_correct_witness : ∃ s' l', deallocuvm demo_kend demo_d 100 0 demo_kst = Ok 0 s' ∧
  released demo_kend demo_d 0 1 demo_own demo_free l' demo_kst s'.
Proof.
  refine (deallocuvm_correct demo_kend _ demo_own demo_free demo_kst demo_d 100 0 demo_inv demo_dir _ _);
    [by vm_compute|lia|unfold KERNBASE; lia].
Defined.

Lemma freevm_correct_witness : ∃ s' l', freevm demo_kend demo_d demo_kst = Ok tt s' ∧
  vm_inv demo_kend (strip demo_d demo_own) l' s'.
Proof.
  destruct (freevm_correct demo_kend ltac:(by vm_compute) demo_own demo_free demo_kst demo_d demo_inv demo_dir)
    as (s' & l' & H1 & H2 & _). exists s', l'. exact (conj H1 H2).
Defined.

Lemma setupkvm_correct_witness : ∃ r s' own' l', setupkvm demo_kend demo_kdata demo_kst = Ok r s' ∧
  vm_inv demo_kend own' l' s'.
Proof.
  destruct (setupkvm_correct demo_kend ltac:(by vm_compute) demo_kdata demo_data demo_own demo_free demo_kst demo_inv)
    as (r & s' & own' & l' & H1 & H2 & _). exists r, s', own', l'. exact (conj H1 H2).
Defined.

Lemma copyuvm_correct_witness : ∃ r s' own' l',
  copyuvm demo_kend demo_kdata demo_d 100 demo_kst = Ok r s' ∧ vm_inv demo_kend own' l' s'.
Proof.
  destruct (copyuvm_correct demo_kend ltac:(by vm_compute) demo_kdata demo_data demo_own demo_free demo_kst
    demo_d 100 demo_inv demo_dir) as (r & s' & own' & l' & H1 & H2 & _).
  - unfold KERNBASE. lia.
  - change ((100 + 4095) / 4096) with 1. intros w Hw. assert (w = 0) as -> by lia. by vm_compute.
  - exists r, s', own', l'. exact (conj H1 H2).
Defined.
