(* ===== verification/Block.v ===== *)
(** Disk blocks and the little-endian fields in them

    A block is the list of its bytes.  [get16], [get32] and [put8], [put16],
    [put32] are the loads and stores that the kernel performs through pointers
    into a buffer's data; [splice] is the copy of a byte range into it. *)

From stdpp Require Import gmap list numbers.
From Stdlib Require Import ZArith Lia.
From S2P Require Import Prelude.

(** fs.h *)
Definition BSIZE : Z := 512.

Abbreviation block := (list Z).
Definition zero_block : block := replicate 512 0.

Definition get8 (l : block) (o : nat) : Z := u8 (default 0 (l !! o)).
Definition get16 (l : block) (o : nat) : Z := get8 l o + 256 * get8 l (o + 1).
Definition get32 (l : block) (o : nat) : Z :=
  get8 l o + 256 * get8 l (o + 1) + 65536 * get8 l (o + 2) + 16777216 * get8 l (o + 3).

Definition put8 (l : block) (o : nat) (v : Z) : block := <[o := u8 v]> l.
Definition put16 (l : block) (o : nat) (v : Z) : block := put8 (put8 l o v) (o + 1) (v / 256).
Definition put32 (l : block) (o : nat) (v : Z) : block :=
  put8 (put8 (put8 (put8 l o v) (o + 1) (v / 256)) (o + 2) (v / 65536)) (o + 3) (v / 16777216).

(** [memmove] of the bytes [bs] to offset [o]. *)
Definition splice (l : block) (o : nat) (bs : list Z) : block :=
  take o l ++ bs ++ drop (o + length bs) l.

Section fields.
Implicit Types (l : block) (o : nat) (v : Z).

Lemma get8_put8 l o o' v : (o < length l)%nat →
  get8 (put8 l o v) o' = if decide (o = o') then u8 v else get8 l o'.
Proof.
  intros Ho. unfold get8, put8. case_decide as E.
  - subst. rewrite list_lookup_insert_eq by done. simpl. apply u8_small, u8_range.
  - by rewrite list_lookup_insert_ne.
Qed.

Lemma length_put8 l o v : length (put8 l o v) = length l.
Proof. apply length_insert. Qed.

Lemma length_put32 l o v : length (put32 l o v) = length l.
Proof. unfold put32. by rewrite !length_put8. Qed.

Lemma length_put16 l o v : length (put16 l o v) = length l.
Proof. unfold put16. by rewrite !length_put8. Qed.

Lemma get8_put32_ne l o o' v : (o + 3 < length l)%nat → (o' < o ∨ o + 4 ≤ o')%nat →
  get8 (put32 l o v) o' = get8 l o'.
Proof.
  intros Hl Ho. unfold put32. rewrite !get8_put8 by (rewrite ?length_put8; lia).
  rewrite !decide_False by lia. done.
Qed.

Lemma get8_put16_ne l o o' v : (o + 1 < length l)%nat → (o' < o ∨ o + 2 ≤ o')%nat →
  get8 (put16 l o v) o' = get8 l o'.
Proof.
  intros Hl Ho. unfold put16. rewrite !get8_put8 by (rewrite ?length_put8; lia).
  rewrite !decide_False by lia. done.
Qed.

Lemma get32_put32_eq l o v : (o + 3 < length l)%nat → get32 (put32 l o v) o = u32 v.
Proof.
  intros Hl. unfold get32, put32. rewrite !get8_put8 by (rewrite ?length_put8; lia).
  repeat (first [rewrite decide_True by lia | rewrite decide_False by lia]). zlia.
Qed.

Lemma get16_put16_eq l o v : (o + 1 < length l)%nat → get16 (put16 l o v) o = u16 v.
Proof.
  intros Hl. unfold get16, put16. rewrite !get8_put8 by (rewrite ?length_put8; lia).
  repeat (first [rewrite decide_True by lia | rewrite decide_False by lia]). zlia.
Qed.

Lemma get32_put32_ne l o o' v : (o + 3 < length l)%nat → (o' + 4 ≤ o ∨ o + 4 ≤ o')%nat →
  get32 (put32 l o v) o' = get32 l o'.
Proof. intros Hl Ho. unfold get32. rewrite !get8_put32_ne by lia. done. Qed.

Lemma get16_put16_ne l o o' v : (o + 1 < length l)%nat → (o' + 2 ≤ o ∨ o + 2 ≤ o')%nat →
  get16 (put16 l o v) o' = get16 l o'.
Proof. intros Hl Ho. unfold get16. rewrite !get8_put16_ne by lia. done. Qed.

Lemma get16_put32_ne l o o' v : (o + 3 < length l)%nat → (o' + 2 ≤ o ∨ o + 4 ≤ o')%nat →
  get16 (put32 l o v) o' = get16 l o'.
Proof. intros Hl Ho. unfold get16. rewrite !get8_put32_ne by lia. done. Qed.

Lemma get32_put16_ne l o o' v : (o + 1 < length l)%nat → (o' + 4 ≤ o ∨ o + 2 ≤ o')%nat →
  get32 (put16 l o v) o' = get32 l o'.
Proof. intros Hl Ho. unfold get32. rewrite !get8_put16_ne by lia. done. Qed.

Lemma get8_range l o : 0 ≤ get8 l o < 256.
Proof. apply u8_range. Qed.

Lemma get32_range l o : 0 ≤ get32 l o < 4294967296.
Proof.
  unfold get32. pose proof (get8_range l o). pose proof (get8_range l (o + 1)).
  pose proof (get8_range l (o + 2)). pose proof (get8_range l (o + 3)). lia.
Qed.

Lemma get16_range l o : 0 ≤ get16 l o < 65536.
Proof. unfold get16. pose proof (get8_range l o). pose proof (get8_range l (o + 1)). lia. Qed.

Lemma length_splice l o bs : (o + length bs ≤ length l)%nat → length (splice l o bs) = length l.
Proof. intros H. unfold splice. rewrite !length_app, length_take, length_drop. lia. Qed.

Lemma splice_lookup l o bs i : (o + length bs ≤ length l)%nat →
  splice l o bs !! i =
  if decide (o ≤ i < o + length bs)%nat then bs !! (i - o)%nat else l !! i.
Proof.
  intros H. unfold splice. case_decide as Hd.
  - rewrite lookup_app_r by (rewrite length_take; lia).
    rewrite length_take, Nat.min_l by lia. by rewrite lookup_app_l by lia.
  - destruct (decide (i < o)%nat).
    + rewrite lookup_app_l by (rewrite length_take; lia). by rewrite lookup_take_lt by lia.
    + rewrite lookup_app_r by (rewrite length_take; lia).
      rewrite length_take, Nat.min_l, lookup_app_r by lia.
      rewrite lookup_drop. f_equal. lia.
Qed.

(** The slice that was spliced in. *)
Lemma splice_slice l o bs : (o + length bs ≤ length l)%nat →
  take (length bs) (drop o (splice l o bs)) = bs.
Proof.
  intros H. unfold splice. rewrite drop_app_length' by (rewrite length_take; lia).
  by rewrite take_app_length.
Qed.

End fields.

Create HintDb blocks.
#[export] Hint Resolve get32_range get16_range get8_range : blocks.
