(* ===== verification/Bio.v ===== *)
(** Sleep locks, the memory disk and the buffer cache: sleeplock.c, memide.c, bio.c

    The cache is the array [bcache.buf] with [bcache.head] as its last element;
    [prev] and [next] are indices.  The code runs in the process [me]; an
    [acquiresleep] of a lock that another process holds ends in [Blocked].

    [ring] is the doubly linked list as a list of buffers, most recently used
    first; the pointer updates of [brelse] are shown to move a buffer to its
    front.  [bcache_ok] is the cache's contract with its clients: no block is
    cached twice and a clean valid buffer that nobody holds equals the disk. *)

From stdpp Require Import gmap list numbers strings.
From Stdlib Require Import ZArith Lia.
From S2P Require Import Prelude Memlayout Block.

(** ** Sleep locks *)

Record sleeplock := Sleeplock {
  slocked : bool;
  spid : Z
}.

Definition initsleeplock : sleeplock := Sleeplock false 0.

Definition acquiresleep (me : Z) : M sleeplock unit :=
  l <- gets slocked ;;
  if l : bool then fail (Blocked "sleep lock") else put (Sleeplock true me).

Definition releasesleep : M sleeplock unit := put (Sleeplock false 0).

Definition holdingsleep (me : Z) : M sleeplock bool :=
  gets (λ lk, slocked lk && (spid lk =? me)).

(** ** Buffers *)

Definition B_VALID : Z := 2.
Definition B_DIRTY : Z := 4.

Record buf := Buf {
  b_flags : Z;
  b_dev : Z;
  b_blockno : Z;
  b_lock : sleeplock;
  b_refcnt : Z;
  b_prev : nat;
  b_next : nat;
  b_data : block
}.

Definition set_flags (f : Z) (b : buf) : buf :=
  Buf f (b_dev b) (b_blockno b) (b_lock b) (b_refcnt b) (b_prev b) (b_next b) (b_data b).
Definition set_block (dev blockno : Z) (b : buf) : buf :=
  Buf (b_flags b) dev blockno (b_lock b) (b_refcnt b) (b_prev b) (b_next b) (b_data b).
Definition set_lock (l : sleeplock) (b : buf) : buf :=
  Buf (b_flags b) (b_dev b) (b_blockno b) l (b_refcnt b) (b_prev b) (b_next b) (b_data b).
Definition set_refcnt (r : Z) (b : buf) : buf :=
  Buf (b_flags b) (b_dev b) (b_blockno b) (b_lock b) r (b_prev b) (b_next b) (b_data b).
Definition set_prev (p : nat) (b : buf) : buf :=
  Buf (b_flags b) (b_dev b) (b_blockno b) (b_lock b) (b_refcnt b) p (b_next b) (b_data b).
Definition set_next (n : nat) (b : buf) : buf :=
  Buf (b_flags b) (b_dev b) (b_blockno b) (b_lock b) (b_refcnt b) (b_prev b) n (b_data b).
Definition set_data (d : block) (b : buf) : buf :=
  Buf (b_flags b) (b_dev b) (b_blockno b) (b_lock b) (b_refcnt b) (b_prev b) (b_next b) d.

Definition valid (b : buf) : bool := negb (Z.land (b_flags b) B_VALID =? 0).
Definition dirty (b : buf) : bool := negb (Z.land (b_flags b) B_DIRTY =? 0).

(** The cache, and the disk of memide.c with its size in blocks. *)
Record bst := Bst {
  bufs : list buf;
  memdisk : gmap Z block;
  disksize : Z
}.

(** The index of [bcache.head]. *)
Definition HEAD : nat := NBUF.

Definition zero_buf : buf := Buf 0 0 0 initsleeplock 0 0 0 zero_block.

Section bio.
Variable me : Z.

Definition set_bufs (l : list buf) (s : bst) : bst := Bst l (memdisk s) (disksize s).
Definition buf_at (i : nat) : M bst buf := o <- gets (λ s, bufs s !! i) ;; deref o.
Definition upd_buf (i : nat) (f : buf → buf) : M bst unit :=
  modify (λ s, set_bufs (alter f i (bufs s)) s).

(** An operation on the lock of buffer [i]. *)
Definition on_lock {A} (i : nat) (m : M sleeplock A) : M bst A :=
  b <- buf_at i ;;
  λ s, match m (b_lock b) with
       | Ok a l => Ok a (set_bufs (alter (set_lock l) i (bufs s)) s)
       | Err e l => Err e (set_bufs (alter (set_lock l) i (bufs s)) s)
       end.

(** One round of the loop of [binit]. *)
Definition binit_buf (i : nat) : M bst unit :=
  h <- buf_at HEAD ;;
  upd_buf i (set_next (b_next h)) ;;;
  upd_buf i (set_prev HEAD) ;;;
  upd_buf i (set_lock initsleeplock) ;;;
  upd_buf (b_next h) (set_prev i) ;;;
  upd_buf HEAD (set_next i).

Fixpoint binit_loop (n i : nat) : M bst unit :=
  match n with
  | O => ret tt
  | S n' => binit_buf i ;;; binit_loop n' (S i)
  end.

Definition binit : M bst unit :=
  upd_buf HEAD (set_prev HEAD) ;;;
  upd_buf HEAD (set_next HEAD) ;;;
  binit_loop NBUF 0.

(** A walk along [step] from [b] to the first buffer that passes [test], or
    back to the head. *)
Fixpoint walk (fuel : nat) (step : buf → nat) (test : buf → bool) (b : nat) : M bst (option nat) :=
  if bool_decide (b = HEAD) then ret None
  else
    match fuel with
    | O => fail NoFuel
    | S fuel' =>
        x <- buf_at b ;;
        if test x then ret (Some b) else walk fuel' step test (step x)
    end.

Definition holds_block (dev blockno : Z) (b : buf) : bool :=
  (b_dev b =? dev) && (b_blockno b =? blockno).
Definition recyclable (b : buf) : bool := (b_refcnt b =? 0) && negb (dirty b).

Definition bget (dev blockno : Z) : M bst nat :=
  h <- buf_at HEAD ;;
  o <- walk NBUF b_next (holds_block dev blockno) (b_next h) ;;
  match o with
  | Some b =>
      upd_buf b (λ x, set_refcnt (u32 (b_refcnt x + 1)) x) ;;;
      on_lock b (acquiresleep me) ;;;
      ret b
  | None =>
      o <- walk NBUF b_prev recyclable (b_prev h) ;;
      match o with
      | Some b =>
          upd_buf b (set_block dev blockno) ;;;
          upd_buf b (set_flags 0) ;;;
          upd_buf b (set_refcnt 1) ;;;
          on_lock b (acquiresleep me) ;;;
          ret b
      | None => panic "bget: no buffers"
      end
  end.

(** memide.c: [iderw]. *)
Definition iderw (b : nat) : M bst unit :=
  h <- on_lock b (holdingsleep me) ;;
  if negb h then panic "iderw: buf not locked"
  else
    x <- buf_at b ;;
    if Z.land (b_flags x) (Z.lor B_VALID B_DIRTY) =? B_VALID then panic "iderw: nothing to do"
    else if negb (b_dev x =? 1) then panic "iderw: request not for disk 1"
    else
      n <- gets disksize ;;
      if n <=? b_blockno x then panic "iderw: block out of range"
      else
        (if negb (Z.land (b_flags x) B_DIRTY =? 0) then
           upd_buf b (λ x, set_flags (Z.land (b_flags x) (Z.lnot B_DIRTY)) x) ;;;
           modify (λ s, Bst (bufs s) (<[b_blockno x := b_data x]> (memdisk s)) (disksize s))
         else
           d <- gets memdisk ;;
           upd_buf b (set_data (default zero_block (d !! b_blockno x)))) ;;;
        upd_buf b (λ x, set_flags (Z.lor (b_flags x) B_VALID) x).

Definition bread (dev blockno : Z) : M bst nat :=
  b <- bget dev blockno ;;
  x <- buf_at b ;;
  (if Z.land (b_flags x) B_VALID =? 0 then iderw b else ret tt) ;;;
  ret b.

Definition bwrite (b : nat) : M bst unit :=
  h <- on_lock b (holdingsleep me) ;;
  if negb h then panic "bwrite"
  else
    upd_buf b (λ x, set_flags (Z.lor (b_flags x) B_DIRTY) x) ;;;
    iderw b.

(** The pointer updates of [brelse]. *)
Definition move_front (b : nat) : M bst unit :=
  x <- buf_at b ;;
  upd_buf (b_next x) (set_prev (b_prev x)) ;;;
  x <- buf_at b ;;
  upd_buf (b_prev x) (set_next (b_next x)) ;;;
  h <- buf_at HEAD ;;
  upd_buf b (set_next (b_next h)) ;;;
  upd_buf b (set_prev HEAD) ;;;
  h <- buf_at HEAD ;;
  upd_buf (b_next h) (set_prev b) ;;;
  upd_buf HEAD (set_next b).

Definition brelse (b : nat) : M bst unit :=
  h <- on_lock b (holdingsleep me) ;;
  if negb h then panic "brelse"
  else
    on_lock b releasesleep ;;;
    upd_buf b (λ x, set_refcnt (u32 (b_refcnt x - 1)) x) ;;;
    x <- buf_at b ;;
    if b_refcnt x =? 0 then move_front b else ret tt.

End bio.

(** ** The linked list *)

(** From [a] the [next] pointers lead through [l] to [z], and the [prev]
    pointers back. *)
Fixpoint linked (nx pv : nat → nat) (a : nat) (l : list nat) (z : nat) : Prop :=
  match l with
  | [] => nx a = z ∧ pv z = a
  | b :: l' => nx a = b ∧ pv b = a ∧ linked nx pv b l' z
  end.

Definition nx (bs : list buf) (i : nat) : nat := default 0%nat (b_next <$> bs !! i).
Definition pv (bs : list buf) (i : nat) : nat := default 0%nat (b_prev <$> bs !! i).

(** The buffers, most recently used first. *)
Definition ring (bs : list buf) (l : list nat) : Prop :=
  linked (nx bs) (pv bs) HEAD l HEAD ∧ NoDup (HEAD :: l) ∧ ∀ i, i ∈ l ↔ (i < NBUF)%nat.

Section linked.
Implicit Types (f g : nat → nat) (l : list nat) (a b z i : nat).

Lemma linked_ext f g f' g' l : ∀ a z, (∀ i, i ∈ a :: l → f' i = f i) →
  (∀ i, i ∈ l ++ [z] → g' i = g i) → linked f g a l z → linked f' g' a l z.
Proof.
  induction l as [|b l IH]; intros a z Hf Hg; simpl.
  - intros [H1 H2]. rewrite Hf, Hg by set_solver. done.
  - intros (H1 & H2 & Hl). rewrite Hf, Hg by set_solver. split_and!; try done.
    apply IH; [| |done]; intros i Hi; [apply Hf|apply Hg]; set_solver.
Qed.

Lemma linked_app f g l1 : ∀ a b l2 z,
  linked f g a (l1 ++ b :: l2) z ↔ linked f g a l1 b ∧ linked f g b l2 z.
Proof.
  induction l1 as [|c l1 IH]; intros a b l2 z; simpl; [tauto|]. rewrite IH. tauto.
Qed.

Lemma linked_last f g l : ∀ a z, linked f g a l z → g z ∈ a :: l.
Proof.
  induction l as [|b l IH]; intros a z; simpl; [intros [_ ->]; set_solver|].
  intros (_ & _ & Hl%IH). set_solver.
Qed.

Lemma linked_rev f g l : ∀ a z, linked f g a l z → linked g f z (reverse l) a.
Proof.
  induction l as [|b l IH]; intros a z; [simpl; tauto|]. simpl linked.
  intros (Hf & Hg & Hl%IH). rewrite reverse_cons. apply linked_app. simpl. done.
Qed.

(** The last pointer of a chain is made to lead to [z']. *)
Lemma linked_retarget f g f' g' z z' l : ∀ a, linked f g a l z → NoDup (a :: l) → z' ∉ l →
  (∀ i, f' i = if decide (i = g z) then z' else f i) →
  (∀ i, g' i = if decide (i = z') then g z else g i) → linked f' g' a l z'.
Proof.
  induction l as [|b l IH]; intros a; simpl.
  - intros [Hf Hg] _ _ Hf' Hg'. rewrite Hf', Hg', !decide_True; auto.
  - intros (Hf & Hg & Hl) Hnd Hz Hf' Hg'. apply NoDup_cons in Hnd as [Ha Hnd].
    pose proof (linked_last _ _ _ _ _ Hl) as Hin.
    rewrite Hf', Hg'. rewrite (decide_False (P := a = g z)) by (intros ->; set_solver).
    rewrite (decide_False (P := b = z')) by (intros ->; set_solver). split_and!; try done.
    apply IH; try done. set_solver.
Qed.

(** [b] is taken out of a chain. *)
Lemma linked_remove f g f' g' a l1 b l2 z : linked f g a (l1 ++ b :: l2) z →
  NoDup (a :: l1 ++ b :: l2) → z ∉ l1 ++ b :: l2 →
  (∀ i, f' i = if decide (i = g b) then f b else f i) →
  (∀ i, g' i = if decide (i = f b) then g b else g i) → linked f' g' a (l1 ++ l2) z.
Proof.
  intros [H1 H2]%linked_app Hnd Hz Hf' Hg'.
  pose proof (linked_last _ _ _ _ _ H1) as Hgb.
  change (a :: l1 ++ b :: l2) with ((a :: l1) ++ b :: l2) in Hnd.
  apply NoDup_app in Hnd as (Hnd1 & Hdis & Hnd2).
  destruct l2 as [|n l2]; simpl in H2.
  - destruct H2 as [Hfb _]. rewrite app_nil_r. rewrite Hfb in *.
    eapply (linked_retarget f g f' g' b z); try done. set_solver.
  - destruct H2 as (Hfb & Hgn & H2). rewrite Hfb in *. apply linked_app. split.
    + eapply (linked_retarget f g f' g' b n); try done. set_solver.
    + eapply linked_ext; [| |exact H2]; intros i Hi.
      * rewrite Hf', decide_False; [done|]. intros ->. set_solver.
      * rewrite Hg', decide_False; [done|]. apply NoDup_cons in Hnd2 as [_ Hnd2].
        apply NoDup_cons in Hnd2 as [Hn _]. intros ->. set_solver.
Qed.

(** [b] is put at the front of a ring. *)
Lemma linked_push f g f' g' h l b : linked f g h l h → NoDup (h :: l) → b ∉ h :: l →
  (∀ i, f' i = if decide (i = h) then b else if decide (i = b) then f h else f i) →
  (∀ i, g' i = if decide (i = f h) then b else if decide (i = b) then h else g i) →
  linked f' g' h (b :: l) h.
Proof.
  intros Hl Hnd Hb Hf' Hg'. apply NoDup_cons in Hnd as [Hh Hnd]. simpl.
  assert (Hfh : f h ∈ l ++ [h]) by (destruct l; simpl in Hl; destruct Hl as [-> _]; set_solver).
  split_and!.
  - by rewrite Hf', decide_True.
  - rewrite Hg', decide_False, decide_True; [done|done|]. intros ->. set_solver.
  - destruct l as [|c l]; simpl in *.
    + destruct Hl as [Hfh' _]. rewrite Hf', Hg', Hfh'.
      rewrite (decide_False (P := b = h)) by (intros ->; set_solver). rewrite !decide_True by done. done.
    + destruct Hl as (Hc & Hgc & Hl). apply NoDup_cons in Hnd as [Hcl Hnd].
      split_and!.
      * rewrite Hf', decide_False, decide_True; [done|done|]. intros ->. set_solver.
      * rewrite Hg', decide_True by done. done.
      * eapply linked_ext; [| |exact Hl]; intros i Hi.
        -- rewrite Hf', (decide_False (P := i = h)) by (intros ->; set_solver).
           rewrite (decide_False (P := i = b)) by (intros ->; set_solver). done.
        -- rewrite Hg', Hc, (decide_False (P := i = c)) by (intros ->; set_solver).
           rewrite (decide_False (P := i = b)) by (intros ->; set_solver). done.
Qed.

End linked.

(** ** Moving a buffer to the front *)

Lemma nx_set_next bs i n k : (i < length bs)%nat →
  nx (alter (set_next n) i bs) k = if decide (k = i) then n else nx bs k.
Proof.
  intros Hi. unfold nx. case_decide as E.
  - subst. rewrite list_lookup_alter_eq. by destruct (lookup_lt_is_Some_2 _ _ Hi) as [x ->].
  - by rewrite list_lookup_alter_ne.
Qed.

Lemma pv_set_prev bs i n k : (i < length bs)%nat →
  pv (alter (set_prev n) i bs) k = if decide (k = i) then n else pv bs k.
Proof.
  intros Hi. unfold pv. case_decide as E.
  - subst. rewrite list_lookup_alter_eq. by destruct (lookup_lt_is_Some_2 _ _ Hi) as [x ->].
  - by rewrite list_lookup_alter_ne.
Qed.

(** The other updates leave the pointers alone. *)
Lemma nx_alter f bs i k : (∀ x, b_next (f x) = b_next x) → nx (alter f i bs) k = nx bs k.
Proof.
  intros Hf. unfold nx. destruct (decide (i = k)) as [->|].
  - rewrite list_lookup_alter_eq. destruct (bs !! k); simpl; [by rewrite Hf|done].
  - by rewrite list_lookup_alter_ne.
Qed.

Lemma pv_alter f bs i k : (∀ x, b_prev (f x) = b_prev x) → pv (alter f i bs) k = pv bs k.
Proof.
  intros Hf. unfold pv. destruct (decide (i = k)) as [->|].
  - rewrite list_lookup_alter_eq. destruct (bs !! k); simpl; [by rewrite Hf|done].
  - by rewrite list_lookup_alter_ne.
Qed.

Lemma ring_ext bs bs' l : (∀ k, nx bs' k = nx bs k) → (∀ k, pv bs' k = pv bs k) →
  ring bs l → ring bs' l.
Proof. intros H1 H2 (Hl & Hr). split; [|done]. eapply linked_ext; [| |exact Hl]; auto. Qed.

(** What a buffer holds, its place in the list apart. *)
Definition payload (b : buf) : Z * Z * Z * sleeplock * Z * block :=
  (b_flags b, b_dev b, b_blockno b, b_lock b, b_refcnt b, b_data b).

Lemma payload_alter f i (bs : list buf) : (∀ x, payload (f x) = payload x) →
  payload <$> alter f i bs = payload <$> bs.
Proof.
  intros Hf. apply list_eq. intros k. rewrite !list_lookup_fmap. destruct (decide (i = k)) as [->|].
  - rewrite list_lookup_alter_eq. destruct (bs !! k); simpl; [by rewrite Hf|done].
  - by rewrite list_lookup_alter_ne.
Qed.

Lemma bind_buf_at {A} i x (k : buf → M bst A) s : bufs s !! i = Some x → bind (buf_at i) k s = k x s.
Proof. intros Hi. unfold buf_at, bind, gets, deref. by rewrite Hi. Qed.

Lemma bind_upd_buf {A} i f (k : unit → M bst A) s :
  bind (upd_buf i f) k s = k tt (set_bufs (alter f i (bufs s)) s).
Proof. done. Qed.

Lemma nx_lookup bs i x : bs !! i = Some x → b_next x = nx bs i.
Proof. unfold nx. by intros ->. Qed.

Lemma pv_lookup bs i x : bs !! i = Some x → b_prev x = pv bs i.
Proof. unfold pv. by intros ->. Qed.

Lemma move_front_run s l1 b l2 : length (bufs s) = S NBUF → ring (bufs s) (l1 ++ b :: l2) →
  ∃ bs', move_front b s = Ok tt (set_bufs bs' s) ∧ ring bs' (b :: l1 ++ l2) ∧
    length bs' = S NBUF ∧ payload <$> bs' = payload <$> bufs s.
Proof.
  intros Hlen (Hlk & Hnd & Hmem). unfold HEAD in *.
  assert (Hb : (b < NBUF)%nat) by (apply Hmem; set_solver).
  set (f := nx (bufs s)) in *. set (g := pv (bufs s)) in *.
  assert (Hfin : ∀ i, i ∈ NBUF :: l1 ++ b :: l2 → (i < S NBUF)%nat).
  { intros i [->|Hi]%elem_of_cons; [lia|]. apply Hmem in Hi. lia. }
  assert (Hfb : f b ∈ l2 ++ [NBUF]).
  { apply linked_app in Hlk as [_ H2]. destruct l2; simpl in H2; destruct H2 as [-> _]; set_solver. }
  assert (Hgb : g b ∈ NBUF :: l1) by (apply linked_app in Hlk as [H1 _]; by eapply linked_last).
  assert (Hnd' := Hnd). change (NBUF :: l1 ++ b :: l2) with ((NBUF :: l1) ++ b :: l2) in Hnd'.
  apply NoDup_app in Hnd' as (_ & Hdis & Hnd2). apply NoDup_cons in Hnd2 as [Hbl2 _].
  assert (Hfbb : f b ≠ b).
  { apply elem_of_app in Hfb as [Hf|Hf]; [congruence|]. apply list_elem_of_singleton in Hf. lia. }
  assert (Hfblt : (f b < S NBUF)%nat) by (apply Hfin; set_solver).
  assert (Hgblt : (g b < S NBUF)%nat) by (apply Hfin; set_solver).
  (* the states in between *)
  set (bs1 := alter (set_prev (g b)) (f b) (bufs s)).
  set (bs2 := alter (set_next (f b)) (g b) bs1).
  set (bs3 := alter (set_next (nx bs2 NBUF)) b bs2).
  set (bs4 := alter (set_prev NBUF) b bs3).
  set (bs5 := alter (set_prev b) (nx bs4 NBUF) bs4).
  set (bs6 := alter (set_next b) NBUF bs5).
  assert (Hn1 : ∀ k, nx bs1 k = f k) by (intros; by apply nx_alter).
  assert (Hp1 : ∀ k, pv bs1 k = if decide (k = f b) then g b else g k)
    by (intros; unfold bs1; rewrite pv_set_prev by lia; done).
  assert (Hl1 : length bs1 = S NBUF) by (unfold bs1; by rewrite length_alter).
  assert (Hn2 : ∀ k, nx bs2 k = if decide (k = g b) then f b else f k)
    by (intros; unfold bs2; rewrite nx_set_next by lia; by rewrite Hn1).
  assert (Hp2 : ∀ k, pv bs2 k = if decide (k = f b) then g b else g k)
    by (intros; unfold bs2; rewrite pv_alter by done; apply Hp1).
  assert (Hl2 : length bs2 = S NBUF) by (unfold bs2; by rewrite length_alter).
  assert (Hrem : linked (nx bs2) (pv bs2) NBUF (l1 ++ l2) NBUF).
  { eapply (linked_remove f g); try done. apply NoDup_cons in Hnd as [? _]. done. }
  assert (Hndr : NoDup (NBUF :: l1 ++ l2) ∧ b ∉ NBUF :: l1 ++ l2).
  { split.
    - apply NoDup_cons in Hnd as [H1 H2]. apply NoDup_cons. split; [set_solver|].
      apply NoDup_app in H2 as (A & B & C). apply NoDup_cons in C as [C1 C2].
      apply NoDup_app. split_and!; try done. set_solver.
    - apply not_elem_of_cons. split; [lia|]. set_solver. }
  destruct Hndr as [Hndr Hbr].
  assert (Hn2lt : (nx bs2 NBUF < S NBUF)%nat).
  { assert (nx bs2 NBUF ∈ (l1 ++ l2) ++ [NBUF]).
    { destruct (l1 ++ l2); simpl in Hrem; destruct Hrem as [-> _]; set_solver. }
    apply Hfin. set_solver. }
  assert (Hn4 : nx bs4 NBUF = nx bs2 NBUF).
  { unfold bs4. rewrite nx_alter by done. unfold bs3. rewrite nx_set_next by lia.
    by rewrite decide_False by lia. }
  assert (Hl6 : length bs6 = S NBUF)
    by (unfold bs6, bs5, bs4, bs3; by rewrite !length_alter).
  exists bs6. split_and!.
  - unfold move_front, HEAD.
    destruct (lookup_lt_is_Some_2 (bufs s) b) as [x Hx]; [lia|].
    erewrite bind_buf_at by exact Hx. rewrite bind_upd_buf.
    rewrite (nx_lookup _ _ _ Hx), (pv_lookup _ _ _ Hx). fold f g. cbn [bufs set_bufs]. fold bs1.
    destruct (lookup_lt_is_Some_2 bs1 b) as [x1 Hx1]; [lia|].
    erewrite bind_buf_at by exact Hx1. rewrite bind_upd_buf.
    rewrite (nx_lookup _ _ _ Hx1), (pv_lookup _ _ _ Hx1), Hn1, Hp1.
    rewrite decide_False by done. cbn [bufs set_bufs]. fold bs2.
    destruct (lookup_lt_is_Some_2 bs2 NBUF) as [h Hh]; [lia|].
    erewrite bind_buf_at by exact Hh. rewrite !bind_upd_buf. rewrite (nx_lookup _ _ _ Hh).
    cbn [bufs set_bufs]. fold bs3. fold bs4.
    destruct (lookup_lt_is_Some_2 bs4 NBUF) as [h4 Hh4];
      [unfold bs4, bs3; rewrite !length_alter; lia|].
    erewrite bind_buf_at by exact Hh4. rewrite bind_upd_buf. rewrite (nx_lookup _ _ _ Hh4).
    unfold upd_buf, modify. cbn [bufs set_bufs]. fold bs5. fold bs6. done.
  - unfold ring, HEAD. split_and!.
    + eapply (linked_push (nx bs2) (pv bs2)); try done.
      * intros i. unfold bs6. rewrite nx_set_next by (unfold bs5, bs4, bs3; rewrite !length_alter; lia).
        case_decide; [done|]. unfold bs5. rewrite nx_alter by done. unfold bs4.
        rewrite nx_alter by done. unfold bs3. rewrite nx_set_next by lia. done.
      * intros i. unfold bs6. rewrite pv_alter by done. unfold bs5. rewrite Hn4.
        rewrite pv_set_prev by (unfold bs4, bs3; rewrite !length_alter; lia).
        case_decide; [done|]. unfold bs4.
        rewrite pv_set_prev by (unfold bs3; rewrite length_alter; lia).
        case_decide; [done|]. unfold bs3. by rewrite pv_alter.
    + apply NoDup_cons in Hndr as [Hh Hndr]. apply NoDup_cons. split; [set_solver|].
      apply NoDup_cons. split; [set_solver|done].
    + intros i. rewrite <-Hmem. set_solver.
  - done.
  - unfold bs6, bs5, bs4, bs3, bs2, bs1. by rewrite !payload_alter by done.
Qed.

(** ** The contract of the cache *)

(** The first buffer of [l] that passes [test]. *)
Fixpoint first_buf (bs : list buf) (test : buf → bool) (l : list nat) : option nat :=
  match l with
  | [] => None
  | i :: l' =>
      match bs !! i with
      | Some x => if test x then Some i else first_buf bs test l'
      | None => None
      end
  end.

Lemma walk_run step test (f g : nat → nat) s l : ∀ fuel a,
  linked f g a l HEAD → HEAD ∉ l → (length l ≤ fuel)%nat →
  (∀ i, i ∈ l → ∃ x, bufs s !! i = Some x ∧ step x = f i) →
  walk fuel step test (f a) s = Ok (first_buf (bufs s) test l) s.
Proof.
  induction l as [|b l IH]; intros fuel a; simpl linked.
  - intros [-> _] _ _ _. by destruct fuel.
  - intros (-> & _ & Hl) Hn Hf Hx. destruct fuel as [|fuel]; simpl in Hf; [lia|].
    apply not_elem_of_cons in Hn as [Hne Hn]. cbn [walk]. rewrite bool_decide_eq_false_2 by done.
    destruct (Hx b ltac:(by left)) as (x & Hb & Hst). erewrite bind_buf_at by exact Hb.
    cbn [first_buf]. rewrite Hb. destruct (test x); [done|]. rewrite Hst.
    apply IH; [done|done|lia|]. intros i Hi. apply Hx. by right.
Qed.

Lemma first_buf_Some bs test l i : first_buf bs test l = Some i →
  i ∈ l ∧ ∃ x, bs !! i = Some x ∧ test x = true.
Proof.
  induction l as [|j l IH]; simpl; [done|]. destruct (bs !! j) as [x|] eqn:Hj; [|done].
  destruct (test x) eqn:Ht.
  - intros [= <-]. split; [by left|eauto].
  - intros [? ?]%IH. split; [by right|done].
Qed.

Lemma first_buf_None bs test l i x : (∀ j, j ∈ l → is_Some (bs !! j)) →
  first_buf bs test l = None → i ∈ l → bs !! i = Some x → test x = false.
Proof.
  induction l as [|j l IH]; intros Hs; simpl; [set_solver|].
  destruct (bs !! j) as [y|] eqn:Hj; [|by destruct (Hs j) as [? ?]; [left|congruence]].
  destruct (test y) eqn:Ht; [done|]. intros Hf [->|Hi]%elem_of_cons Hx; [congruence|].
  apply IH; try done. intros k Hk. apply Hs. by right.
Qed.

(** Block [k] of disk 1 as the cache shows it. *)
Definition disk_block (s : bst) (k : Z) : block := default zero_block (memdisk s !! k).
Definition cached (s : bst) (k : Z) (i : nat) (x : buf) : Prop :=
  (i < NBUF)%nat ∧ bufs s !! i = Some x ∧ holds_block 1 k x = true ∧ valid x = true.
Definition content (s : bst) (k : Z) (d : block) : Prop :=
  (∃ i x, cached s k i x ∧ b_data x = d) ∨ ((∀ i x, ¬ cached s k i x) ∧ disk_block s k = d).

Record bcache_ok (s : bst) : Prop := {
  bk_len : length (bufs s) = S NBUF;
  bk_ring : ∃ l, ring (bufs s) l;
  bk_uniq : ∀ i j x y, (i < NBUF)%nat → (j < NBUF)%nat → bufs s !! i = Some x → bufs s !! j = Some y →
    b_dev x ≠ 0 → b_dev x = b_dev y → b_blockno x = b_blockno y → i = j;
  bk_ref : ∀ i x, (i < NBUF)%nat → bufs s !! i = Some x → b_refcnt x = 0 → slocked (b_lock x) = false;
  bk_clean : ∀ i x, (i < NBUF)%nat → bufs s !! i = Some x → valid x = true → dirty x = false →
    slocked (b_lock x) = false → b_data x = disk_block s (b_blockno x);
  bk_dirty : ∀ i x, (i < NBUF)%nat → bufs s !! i = Some x → dirty x = true → valid x = true
}.

Lemma holds_block_spec dev k x : holds_block dev k x = true ↔ b_dev x = dev ∧ b_blockno x = k.
Proof. unfold holds_block. rewrite andb_true_iff, !Z.eqb_eq. done. Qed.

(** [bufs] after one entry has been replaced by a buffer with the same links. *)
Lemma ring_replace bs b x y l : bs !! b = Some x → b_next y = b_next x → b_prev y = b_prev x →
  ring bs l → ring (<[b := y]> bs) l.
Proof.
  intros Hb Hn Hp. assert (Hlt : (b < length bs)%nat) by (by eapply lookup_lt_Some).
  apply ring_ext; intros k; [unfold nx|unfold pv]; destruct (decide (b = k)) as [<-|];
    rewrite ?list_lookup_insert_eq, ?list_lookup_insert_ne, ?Hb by done; simpl; congruence.
Qed.

Lemma alter_buf f i (bs : list buf) x : bs !! i = Some x → alter f i bs = <[i := f x]> bs.
Proof.
  intros Hi. apply list_eq. intros j. destruct (decide (i = j)) as [<-|].
  - rewrite list_lookup_alter_eq, list_lookup_insert_eq by (by eapply lookup_lt_Some).
    by rewrite Hi.
  - by rewrite list_lookup_alter_ne, list_lookup_insert_ne.
Qed.

(** Operations on the lock of a buffer. *)
Lemma bind_acquiresleep {A} me b x s (k : unit → M bst A) : bufs s !! b = Some x →
  slocked (b_lock x) = false →
  bind (on_lock b (acquiresleep me)) k s =
  k tt (set_bufs (<[b := set_lock (Sleeplock true me) x]> (bufs s)) s).
Proof.
  intros Hb Hl. unfold on_lock. rewrite bind_assoc. erewrite bind_buf_at by exact Hb.
  unfold bind, acquiresleep, gets, put. cbn. rewrite Hl. by erewrite alter_buf by exact Hb.
Qed.

Lemma bind_holdingsleep {A} me b x s (k : bool → M bst A) : bufs s !! b = Some x →
  bind (on_lock b (holdingsleep me)) k s = k (slocked (b_lock x) && (spid (b_lock x) =? me)) s.
Proof.
  intros Hb. unfold on_lock. rewrite bind_assoc. erewrite bind_buf_at by exact Hb.
  unfold bind, holdingsleep, gets. erewrite alter_buf by exact Hb.
  rewrite list_insert_id by (by destruct x). by destruct s.
Qed.

Lemma bind_releasesleep {A} b x s (k : unit → M bst A) : bufs s !! b = Some x →
  bind (on_lock b releasesleep) k s =
  k tt (set_bufs (<[b := set_lock initsleeplock x]> (bufs s)) s).
Proof.
  intros Hb. unfold on_lock. rewrite bind_assoc. erewrite bind_buf_at by exact Hb.
  unfold bind, releasesleep, put. by erewrite alter_buf by exact Hb.
Qed.

Lemma bind_upd_buf' {A} i f x (k : unit → M bst A) s : bufs s !! i = Some x →
  bind (upd_buf i f) k s = k tt (set_bufs (<[i := f x]> (bufs s)) s).
Proof. intros Hi. rewrite bind_upd_buf. by erewrite alter_buf by exact Hi. Qed.

(** [bget] returns the buffer of the block, locked; its contents and flags are
    the cached ones, or the flags are clear after a recycling. *)
Lemma bget_run me s k : bcache_ok s → 0 ≤ k →
  (∀ i x, (i < NBUF)%nat → bufs s !! i = Some x → holds_block 1 k x = true →
     slocked (b_lock x) = false ∧ 0 ≤ b_refcnt x < 4294967295) →
  (∃ i x, (i < NBUF)%nat ∧ bufs s !! i = Some x ∧ (holds_block 1 k x = true ∨ recyclable x = true)) →
  ∃ b x y, bget me 1 k s = Ok b (set_bufs (<[b := y]> (bufs s)) s) ∧ (b < NBUF)%nat ∧
    bufs s !! b = Some x ∧ b_next y = b_next x ∧ b_prev y = b_prev x ∧ b_data y = b_data x ∧
    holds_block 1 k y = true ∧ b_lock y = Sleeplock true me ∧
    b_refcnt y = (if holds_block 1 k x then b_refcnt x + 1 else 1) ∧
    ((holds_block 1 k x = true ∧ b_flags y = b_flags x) ∨
     (recyclable x = true ∧ b_flags y = 0 ∧
      ∀ i z, (i < NBUF)%nat → bufs s !! i = Some z → holds_block 1 k z = false)).
Proof.
  intros [Hlen [l Hring] Huniq Href Hclean _] Hk Hfree Hex.
  pose proof Hring as (Hlk & Hnd & Hmem). pose proof (linked_rev _ _ _ _ _ Hlk) as Hlkr.
  apply NoDup_cons in Hnd as [Hh Hnd].
  assert (Hll : (length l ≤ NBUF)%nat).
  { assert (Hsub : l ⊆+ seq 0 NBUF).
    { apply NoDup_submseteq; [done|]. intros i Hi%Hmem. apply elem_of_seq. lia. }
    apply submseteq_length in Hsub. by rewrite length_seq in Hsub. }
  assert (Hbuf : ∀ i, i ∈ l → is_Some (bufs s !! i)).
  { intros i Hi%Hmem. apply lookup_lt_is_Some. lia. }
  destruct (lookup_lt_is_Some_2 (bufs s) HEAD) as [h Hhd]; [unfold HEAD; lia|].
  unfold bget. erewrite bind_buf_at by exact Hhd.
  rewrite (nx_lookup _ _ _ Hhd), (pv_lookup _ _ _ Hhd).
  erewrite bind_ok.
  2:{ eapply (walk_run b_next _ (nx (bufs s)) (pv (bufs s)) s l); try done.
      intros i Hi. destruct (Hbuf i Hi) as [x Hx]. exists x. split; [done|]. by apply nx_lookup. }
  destruct (first_buf (bufs s) (holds_block 1 k) l) as [b|] eqn:Hf1.
  - apply first_buf_Some in Hf1 as (Hb%Hmem & x & Hx & Hhold).
    destruct (Hfree b x Hb Hx Hhold) as [Hul Hrc].
    assert (Hblt : (b < length (bufs s))%nat) by lia.
    erewrite bind_upd_buf' by exact Hx.
    erewrite bind_acquiresleep; [|by apply list_lookup_insert_eq|done].
    cbn [bufs set_bufs]. rewrite list_insert_insert_eq.
    eexists b, x, _. split; [reflexivity|]. split_and!; try done.
    + cbn [b_refcnt set_refcnt set_lock]. rewrite Hhold, u32_small; lia.
    + by left.
  - erewrite bind_ok.
    2:{ eapply (walk_run b_prev _ (pv (bufs s)) (nx (bufs s)) s (reverse l)); try done.
        - by rewrite elem_of_reverse.
        - by rewrite length_reverse.
        - intros i Hi. rewrite elem_of_reverse in Hi. destruct (Hbuf i Hi) as [x Hx].
          exists x. split; [done|]. by apply pv_lookup. }
    assert (Hno : ∀ i z, (i < NBUF)%nat → bufs s !! i = Some z → holds_block 1 k z = false).
    { intros i z Hi%Hmem Hz. by eapply first_buf_None. }
    destruct (first_buf (bufs s) recyclable (reverse l)) as [b|] eqn:Hf2.
    + apply first_buf_Some in Hf2 as (Hb & x & Hx & Hrec). rewrite elem_of_reverse in Hb.
      apply Hmem in Hb. assert (Hblt : (b < length (bufs s))%nat) by lia.
      assert (Hul : slocked (b_lock x) = false).
      { apply (Href b x Hb Hx). unfold recyclable in Hrec. apply andb_true_iff in Hrec as [E _].
        by apply Z.eqb_eq in E. }
      erewrite bind_upd_buf' by exact Hx.
      do 2 (erewrite bind_upd_buf' by (by apply list_lookup_insert_eq; rewrite ?length_insert);
        cbn [bufs set_bufs]; rewrite list_insert_insert_eq).
      erewrite bind_acquiresleep; [|by apply list_lookup_insert_eq|done].
      cbn [bufs set_bufs]. rewrite list_insert_insert_eq.
      eexists b, x, _. split; [reflexivity|]. split_and!; try done.
      * apply holds_block_spec. done.
      * by rewrite (Hno b x Hb Hx).
      * right. done.
    + exfalso. destruct Hex as (i & x & Hi & Hx & [Hh1|Hr]).
      * by rewrite (Hno i x Hi Hx) in Hh1.
      * apply Hmem in Hi. assert (recyclable x = false); [|congruence].
        eapply (first_buf_None _ _ (reverse l) i); try done; [|by rewrite elem_of_reverse].
        intros j Hj. rewrite elem_of_reverse in Hj. by apply Hbuf.
Qed.

(** *** Flags *)

Lemma land_pow2 f n : 0 ≤ n → (Z.land f (2 ^ n) =? 0) = negb (Z.testbit f n).
Proof.
  intros Hn. destruct (Z.testbit f n) eqn:E; simpl.
  - apply Z.eqb_neq. intros H. assert (Z.testbit (Z.land f (2 ^ n)) n = true) as H1
      by (by rewrite Z.land_spec, E, Z.pow2_bits_true). by rewrite H, Z.bits_0 in H1.
  - apply Z.eqb_eq. apply Z.bits_inj'. intros m Hm. rewrite Z.land_spec, Z.bits_0.
    destruct (decide (m = n)) as [->|]; [by rewrite E|].
    rewrite Z.pow2_bits_false by lia. apply andb_false_r.
Qed.

Lemma valid_bit x : valid x = Z.testbit (b_flags x) 1.
Proof. unfold valid, B_VALID. change 2 with (2 ^ 1). rewrite land_pow2 by lia. apply negb_involutive. Qed.

Lemma dirty_bit x : dirty x = Z.testbit (b_flags x) 2.
Proof. unfold dirty, B_DIRTY. change 4 with (2 ^ 2). rewrite land_pow2 by lia. apply negb_involutive. Qed.

(** [(flags & (B_VALID|B_DIRTY)) == B_VALID] *)
Lemma valid_clean f : (Z.land f (Z.lor B_VALID B_DIRTY) =? B_VALID) =
  Z.testbit f 1 && negb (Z.testbit f 2).
Proof.
  assert (Hm : ∀ m, 0 ≤ m → Z.testbit (Z.land f (Z.lor B_VALID B_DIRTY)) m =
    Z.testbit f m && ((1 =? m) || (2 =? m))).
  { intros m Hm. unfold B_VALID, B_DIRTY. change 2 with (2 ^ 1) at 1. change 4 with (2 ^ 2).
    by rewrite Z.land_spec, Z.lor_spec, !Z.pow2_bits_eqb by lia. }
  destruct (Z.eqb_spec (Z.land f (Z.lor B_VALID B_DIRTY)) B_VALID) as [E|E].
  - pose proof (Hm 1 ltac:(lia)) as H1. pose proof (Hm 2 ltac:(lia)) as H2. rewrite E in H1, H2.
    cbn [Z.eqb Pos.eqb orb] in H1, H2. rewrite andb_true_r in H1, H2. by rewrite <-H1, <-H2.
  - symmetry. apply not_true_is_false. intros [H1 H2%negb_true_iff]%andb_true_iff. apply E.
    apply Z.bits_inj'. intros m Hm0. rewrite Hm by done. unfold B_VALID. change 2 with (2 ^ 1) at 2.
    rewrite Z.pow2_bits_eqb by lia.
    destruct (Z.eqb_spec 1 m) as [<-|]; [by rewrite H1|].
    destruct (Z.eqb_spec 2 m) as [<-|]; [by rewrite H2|]. apply andb_false_r.
Qed.

Lemma valid_lor f x : valid (set_flags (Z.lor f B_VALID) x) = true.
Proof. rewrite valid_bit. cbn [b_flags set_flags]. rewrite Z.lor_spec. apply orb_true_r. Qed.

(** Replacing one buffer, locked by the caller, by one that holds block [k]. *)
Lemma bcache_ok_replace s b x z k : bcache_ok s → (b < NBUF)%nat → bufs s !! b = Some x →
  b_next z = b_next x → b_prev z = b_prev x → holds_block 1 k z = true →
  slocked (b_lock z) = true → b_refcnt z ≠ 0 → valid z = true →
  (∀ i y, (i < NBUF)%nat → i ≠ b → bufs s !! i = Some y → holds_block 1 k y = false) →
  bcache_ok (set_bufs (<[b := z]> (bufs s)) s).
Proof.
  intros [Hlen [l Hring] Huniq Href Hclean Hdirty] Hb Hx Hn Hp Hh Hl Hrc Hv Hno.
  assert (Hlk : ∀ i y, <[b := z]> (bufs s) !! i = Some y → (i = b ∧ y = z) ∨ (i ≠ b ∧ bufs s !! i = Some y)).
  { intros i y [(-> & -> & _)|(? & ?)]%list_lookup_insert_Some; auto. }
  apply holds_block_spec in Hh as [Hdev Hbn].
  split; simpl.
  - by rewrite length_insert.
  - exists l. by eapply ring_replace.
  - intros i j y y' Hi Hj [(-> & ->)|(Hib & Hy)]%Hlk [(-> & ->)|(Hjb & Hy')]%Hlk Hd E1 E2; try done.
    + exfalso. assert (holds_block 1 k y' = true) by (apply holds_block_spec; split; congruence).
      by rewrite (Hno j y' Hj Hjb Hy') in *.
    + exfalso. assert (holds_block 1 k y = true) by (apply holds_block_spec; split; congruence).
      by rewrite (Hno i y Hi Hib Hy) in *.
    + by eapply Huniq.
  - intros i y Hi [(-> & ->)|(Hib & Hy)]%Hlk; [done|]. by eapply Href.
  - intros i y Hi [(-> & ->)|(Hib & Hy)]%Hlk; [congruence|]. by eapply Hclean.
  - intros i y Hi [(-> & ->)|(Hib & Hy)]%Hlk; [done|]. by eapply Hdirty.
Qed.

(** The cache holds a block at most once. *)
Lemma holder_uniq s k b x i z : bcache_ok s → (b < NBUF)%nat → bufs s !! b = Some x →
  holds_block 1 k x = true → (i < NBUF)%nat → bufs s !! i = Some z → i ≠ b → holds_block 1 k z = false.
Proof.
  intros Hok Hb Hx [Hx1 Hx2]%holds_block_spec Hi Hz Hne. apply not_true_is_false.
  intros [Hz1 Hz2]%holds_block_spec. apply Hne. eapply (bk_uniq _ Hok i b z x); try done; congruence.
Qed.

(** [iderw] of a locked buffer that is neither valid nor dirty reads the block. *)
Lemma iderw_read me s b y : bufs s !! b = Some y → b_lock y = Sleeplock true me →
  valid y = false → dirty y = false → b_dev y = 1 → b_blockno y < disksize s →
  iderw me b s = Ok tt (set_bufs (<[b := set_flags (Z.lor (b_flags y) B_VALID)
                     (set_data (disk_block s (b_blockno y)) y)]> (bufs s)) s).
Proof.
  intros Hy Hl Hv Hdy Hd Hk. assert (Hlt : (b < length (bufs s))%nat) by (by eapply lookup_lt_Some).
  unfold iderw. erewrite bind_holdingsleep by exact Hy. rewrite Hl. cbn [slocked spid].
  rewrite Z.eqb_refl. cbn [andb negb]. erewrite bind_buf_at by exact Hy.
  rewrite valid_clean, <-valid_bit, Hv, Hd. cbn [andb]. cbn [Z.eqb Pos.eqb negb].
  rewrite bind_gets, (proj2 (Z.leb_gt _ _)) by done.
  change (negb (Z.land (b_flags y) B_DIRTY =? 0)) with (dirty y). rewrite Hdy.
  rewrite bind_assoc, bind_gets. erewrite bind_upd_buf' by exact Hy.
  unfold upd_buf, modify. cbn [bufs set_bufs].
  erewrite alter_buf by (by apply list_lookup_insert_eq). by rewrite list_insert_insert_eq.
Qed.

(** What [bread] does to the cache: one buffer changes. *)
Lemma bread_run me s k : bcache_ok s → 0 ≤ k < disksize s →
  (∀ i x, (i < NBUF)%nat → bufs s !! i = Some x → holds_block 1 k x = true →
     slocked (b_lock x) = false ∧ 0 ≤ b_refcnt x < 4294967295) →
  (∃ i x, (i < NBUF)%nat ∧ bufs s !! i = Some x ∧ (holds_block 1 k x = true ∨ recyclable x = true)) →
  ∃ b x z, bread me 1 k s = Ok b (set_bufs (<[b := z]> (bufs s)) s) ∧ (b < NBUF)%nat ∧
    bufs s !! b = Some x ∧ b_next z = b_next x ∧ b_prev z = b_prev x ∧ holds_block 1 k z = true ∧
    b_lock z = Sleeplock true me ∧ b_refcnt z ≠ 0 ∧ valid z = true ∧
    b_data z = (if holds_block 1 k x && valid x then b_data x else disk_block s k) ∧
    (holds_block 1 k x = true ∨ recyclable x = true) ∧
    (∀ i y, (i < NBUF)%nat → i ≠ b → bufs s !! i = Some y → holds_block 1 k y = false) ∧
    b_refcnt z = (if holds_block 1 k x then b_refcnt x + 1 else 1) ∧
    dirty z = holds_block 1 k x && dirty x.
Proof.
  intros Hok [Hk0 Hk] Hfree Hex.
  destruct (bget_run me s k Hok Hk0 Hfree Hex)
    as (b & x & y & Hrun & Hb & Hx & Hn & Hp & Hd & Hh & Hl & Hrce & Hcase).
  assert (Hrc : b_refcnt y ≠ 0).
  { rewrite Hrce. destruct (holds_block 1 k x) eqn:E; [|done]. destruct (Hfree b x Hb Hx E). lia. }
  assert (Hblt : (b < length (bufs s))%nat) by (by eapply lookup_lt_Some).
  pose proof Hh as [Hh1 Hh2]%holds_block_spec.
  exists b, x. unfold bread. erewrite bind_ok by exact Hrun.
  erewrite bind_buf_at by (by apply list_lookup_insert_eq).
  assert (Hvy : (Z.land (b_flags y) B_VALID =? 0) = negb (valid y)) by (unfold valid; by rewrite negb_involutive).
  rewrite Hvy.
  assert (Hold : valid y = holds_block 1 k x && valid x ∧ (valid y = false → dirty y = false) ∧
    (holds_block 1 k x = true ∨ recyclable x = true) ∧
    (∀ i z, (i < NBUF)%nat → i ≠ b → bufs s !! i = Some z → holds_block 1 k z = false) ∧
    dirty y = holds_block 1 k x && dirty x).
  { destruct Hcase as [[Hhx Ef]|(Hrec & Ef & Hno)].
    - assert (valid y = valid x ∧ dirty y = dirty x) as [-> ->] by (unfold valid, dirty; by rewrite Ef).
      rewrite Hhx. split_and!; [done| |by left| |done].
      + intros Hv. apply not_true_is_false. intros Hdx%(bk_dirty _ Hok b x Hb Hx). congruence.
      + intros i z Hi Hne Hz. by eapply (holder_uniq s k b x).
    - rewrite (Hno b x Hb Hx). unfold valid, dirty. rewrite Ef. split_and!; try done; [by right|].
      intros i z Hi _. by apply Hno. }
  destruct Hold as (Hv & Hdy & Hor & Hno & Hdz).
  destruct (valid y) eqn:Ev; cbn [negb].
  - exists y. rewrite bind_ret. split_and!; try done. by rewrite <-Hv.
  - erewrite bind_ok. 2:{ apply (iderw_read me _ b y); try done; [by apply list_lookup_insert_eq|by auto|by simpl; rewrite Hh2]. }
    cbn [bufs set_bufs]. rewrite list_insert_insert_eq. eexists. split; [reflexivity|].
    split_and!; try done; [apply valid_lor|by rewrite <-Hv, Hh2|].
    rewrite <- Hdz, !dirty_bit. cbn [b_flags set_flags]. rewrite Z.lor_spec. apply orb_false_r.
Qed.

(** The contents survive the recycling of a buffer that nobody uses. *)
Lemma content_replace s b x z k k' d : bcache_ok s → (b < NBUF)%nat → bufs s !! b = Some x →
  holds_block 1 k z = true → valid z = true →
  b_data z = (if holds_block 1 k x && valid x then b_data x else disk_block s k) →
  (holds_block 1 k x = true ∨ recyclable x = true) →
  (∀ i y, (i < NBUF)%nat → i ≠ b → bufs s !! i = Some y → holds_block 1 k y = false) →
  content s k' d → content (set_bufs (<[b := z]> (bufs s)) s) k' d.
Proof.
  intros Hok Hb Hx Hzh Hzv Hzd Hor Hno Hc.
  assert (Hblt : (b < length (bufs s))%nat) by (by eapply lookup_lt_Some).
  destruct (decide (k' = k)) as [->|Hkk].
  { left. exists b, z. split; [split_and!; try done; by apply list_lookup_insert_eq|].
    rewrite Hzd. destruct Hc as [(i & w & (Hi & Hw & Hhw & Hvw) & <-)|[Hnc <-]].
    - assert (i = b) as -> by (destruct (decide (i = b)); [done|]; by rewrite (Hno i w) in Hhw).
      assert (w = x) as -> by congruence. by rewrite Hhw, Hvw.
    - destruct (holds_block 1 k x && valid x) eqn:E; [|done].
      apply andb_true_iff in E as [E1 E2]. by destruct (Hnc b x). }
  assert (Hz : ∀ w, holds_block 1 k' w = true → w ≠ z).
  { intros w [_ Hw]%holds_block_spec ->. apply holds_block_spec in Hzh as [_ ?]. congruence. }
  destruct Hc as [(i & w & (Hi & Hw & Hhw & Hvw) & <-)|[Hnc <-]].
  - destruct (decide (i = b)) as [->|Hne].
    + assert (w = x) as -> by congruence. right. split.
      * intros j u (Hj & Hu & Hhu & Hvu). simpl in Hu.
        apply list_lookup_insert_Some in Hu as [(<- & <- & _)|(Hjb & Hu)]; [by apply (Hz z)|].
        by rewrite (holder_uniq s k' b x j u) in Hhu.
      * pose proof Hhw as [_ <-]%holds_block_spec. destruct Hor as [Hhx|Hrec].
        -- apply holds_block_spec in Hhx as [_ ?]. congruence.
        -- unfold recyclable in Hrec. apply andb_true_iff in Hrec as [E1%Z.eqb_eq E2%negb_true_iff].
           symmetry. apply (bk_clean _ Hok b x); try done. by apply (bk_ref _ Hok b).
    + left. exists i, w. split; [|done]. split_and!; try done. simpl. by rewrite list_lookup_insert_ne.
  - right. split; [|done]. intros i w (Hi & Hw & Hhw & Hvw). simpl in Hw.
    apply list_lookup_insert_Some in Hw as [(<- & <- & _)|(Hjb & Hw)]; [by apply (Hz z)|].
    by eapply (Hnc i w).
Qed.

(** The buffer cache returns the right block.  From a cache in order,
    [bread] of a block in range that no process has locked, when some buffer
    holds it or is free to be recycled, returns a buffer of the cache, locked by
    the caller, whose data is the block's current content: the cached data if
    the block was cached, the disk's otherwise.  The cache stays in order (in
    particular the block is cached once only), the disk is not written and
    every other block's content is unchanged, whichever buffer was recycled. *)
Theorem bread_correct me s k : bcache_ok s → 0 ≤ k < disksize s →
  (∀ i x, (i < NBUF)%nat → bufs s !! i = Some x → holds_block 1 k x = true →
     slocked (b_lock x) = false ∧ 0 ≤ b_refcnt x < 4294967295) →
  (∃ i x, (i < NBUF)%nat ∧ bufs s !! i = Some x ∧ (holds_block 1 k x = true ∨ recyclable x = true)) →
  ∃ b s' x, bread me 1 k s = Ok b s' ∧ (b < NBUF)%nat ∧ bufs s' !! b = Some x ∧
    holds_block 1 k x = true ∧ valid x = true ∧ b_lock x = Sleeplock true me ∧
    content s k (b_data x) ∧ bcache_ok s' ∧ memdisk s' = memdisk s ∧
    ∀ k' d, content s k' d → content s' k' d.
Proof.
  intros Hok Hk Hfree Hex.
  destruct (bread_run me s k Hok Hk Hfree Hex)
    as (b & x & z & Hbr & Hb & Hx & Hzn & Hzp & Hzh & Hzl & Hzr & Hzv & Hzd & Hor & Hno & _).
  assert (Hblt : (b < length (bufs s))%nat) by (by eapply lookup_lt_Some).
  exists b, (set_bufs (<[b := z]> (bufs s)) s), z. split_and!; try done.
  - by apply list_lookup_insert_eq.
  - rewrite Hzd. destruct (holds_block 1 k x && valid x) eqn:E.
    + apply andb_true_iff in E as [E1 E2]. left. by exists b, x.
    + right. split; [|done]. intros i w (Hi & Hw & Hhw & Hvw).
      destruct (decide (i = b)) as [->|Hne]; [|by rewrite (Hno i w Hi Hne Hw) in Hhw].
      assert (w = x) as -> by congruence. by rewrite Hhw, Hvw in E.
  - apply (bcache_ok_replace s b x z k); try done. by rewrite Hzl.
  - intros k' d. by apply (content_replace s b x z k).
Qed.

(** *** Giving a buffer back *)

Lemma payload_eq x y : payload x = payload y → b_flags x = b_flags y ∧ b_dev x = b_dev y ∧
  b_blockno x = b_blockno y ∧ b_lock x = b_lock y ∧ b_refcnt x = b_refcnt y ∧ b_data x = b_data y.
Proof. intros [= ? ? ? ? ? ?]. done. Qed.

Lemma payload_lookup (bs bs' : list buf) i y : payload <$> bs' = payload <$> bs → bs' !! i = Some y →
  ∃ x, bs !! i = Some x ∧ payload x = payload y.
Proof.
  intros Hp Hy. assert (H : (payload <$> bs') !! i = Some (payload y)) by (by rewrite list_lookup_fmap, Hy).
  rewrite Hp, list_lookup_fmap in H. destruct (bs !! i) as [x|]; [|done]. simpl in H. exists x.
  split; [done|congruence].
Qed.

(** The cache in order and the contents of the blocks depend on the payloads. *)
Lemma bcache_ok_payload s bs' l : bcache_ok s → payload <$> bs' = payload <$> bufs s → ring bs' l →
  bcache_ok (set_bufs bs' s).
Proof.
  intros [Hlen _ Huniq Href Hclean Hdirty] Hp Hr.
  assert (Hpl := λ i y, payload_lookup (bufs s) bs' i y Hp).
  split; simpl.
  - by rewrite <-(length_fmap payload), Hp, length_fmap.
  - by exists l.
  - intros i j y y' Hi Hj (x & Hx & Ex)%Hpl (x' & Hx' & Ex')%Hpl. apply payload_eq in Ex, Ex'.
    destruct Ex as (_ & <- & <- & _), Ex' as (_ & <- & <- & _). by apply Huniq.
  - intros i y Hi (x & Hx & Ex)%Hpl. apply payload_eq in Ex. destruct Ex as (_ & _ & _ & <- & <- & _).
    by apply (Href i).
  - intros i y Hi (x & Hx & Ex)%Hpl. apply payload_eq in Ex. unfold valid, dirty.
    destruct Ex as (<- & _ & <- & <- & _ & <-). by apply (Hclean i).
  - intros i y Hi (x & Hx & Ex)%Hpl. apply payload_eq in Ex. unfold valid, dirty.
    destruct Ex as (<- & _). by apply (Hdirty i).
Qed.

Lemma cached_payload s bs bs' k i y : payload <$> bs' = payload <$> bs →
  cached (set_bufs bs' s) k i y → ∃ x, cached (set_bufs bs s) k i x ∧ b_data x = b_data y.
Proof.
  intros Hp (Hi & Hy & Hh & Hv). destruct (payload_lookup _ _ _ _ Hp Hy) as (x & Hx & Ex).
  apply payload_eq in Ex. destruct Ex as (Ef & E1 & E2 & _ & _ & Ed). exists x. split; [|done].
  unfold cached, holds_block, valid in *. rewrite Ef, E1, E2. done.
Qed.

Lemma content_payload s bs bs' k d : payload <$> bs' = payload <$> bs →
  content (set_bufs bs s) k d → content (set_bufs bs' s) k d.
Proof.
  intros Hp [(i & x & Hc & <-)|[Hn <-]].
  - destruct (cached_payload s bs' bs k i x (eq_sym Hp) Hc) as (y & Hy & E). left. by exists i, y.
  - right. split; [|done]. intros i y Hc. destruct (cached_payload s bs bs' k i y Hp Hc) as (x & Hx & _).
    by apply (Hn i x).
Qed.

(** Unlocking a buffer and dropping one reference to it. *)
Definition released_buf (x : buf) : buf := set_refcnt (u32 (b_refcnt x - 1)) (set_lock initsleeplock x).

Lemma bcache_ok_release s b x : bcache_ok s → bufs s !! b = Some x →
  (valid x = true → dirty x = false → b_data x = disk_block s (b_blockno x)) →
  bcache_ok (set_bufs (<[b := released_buf x]> (bufs s)) s).
Proof.
  intros [Hlen [l Hring] Huniq Href Hclean Hdirty] Hx Hsync.
  assert (Hlk : ∀ i y, <[b := released_buf x]> (bufs s) !! i = Some y →
    (i = b ∧ y = released_buf x) ∨ bufs s !! i = Some y).
  { intros i y [(-> & -> & _)|(? & ?)]%list_lookup_insert_Some; auto. }
  split; simpl.
  - by rewrite length_insert.
  - exists l. by eapply ring_replace.
  - intros i j y y' Hi Hj [(-> & ->)|Hy]%Hlk [(-> & ->)|Hy']%Hlk; [done| | |]; simpl;
      by first [apply (Huniq b j x y')|apply (Huniq i b y x)|apply (Huniq i j y y')].
  - intros i y Hi [(-> & ->)|Hy]%Hlk; [done|]. by apply (Href i).
  - intros i y Hi [(-> & ->)|Hy]%Hlk; [by auto|]. by apply (Hclean i).
  - intros i y Hi [(-> & ->)|Hy]%Hlk; [|by apply (Hdirty i)].
    intros Hd. by apply (Hdirty b x Hi Hx).
Qed.

Lemma content_release s b x k d : bufs s !! b = Some x → content s k d →
  content (set_bufs (<[b := released_buf x]> (bufs s)) s) k d.
Proof.
  intros Hx. assert (Hblt : (b < length (bufs s))%nat) by (by eapply lookup_lt_Some).
  intros [(i & w & (Hi & Hw & Hh & Hv) & <-)|[Hn <-]].
  - left. destruct (decide (i = b)) as [->|].
    + assert (w = x) as -> by congruence. exists b, (released_buf x).
      split; [|done]. split_and!; try done. by apply list_lookup_insert_eq.
    + exists i, w. split; [|done]. split_and!; try done. simpl. by rewrite list_lookup_insert_ne.
  - right. split; [|done]. intros i w (Hi & Hw & Hh & Hv). simpl in Hw.
    apply list_lookup_insert_Some in Hw as [(<- & <- & _)|(? & Hw)]; [by apply (Hn b x)|].
    by apply (Hn i w).
Qed.

(** Giving a buffer back.  When the caller has left the buffer equal to the
    disk or marked it dirty, [brelse] of a buffer it holds unlocks it and drops
    its reference; if that was the last one the buffer becomes the most
    recently used of the list, the order of the others being unchanged, and
    otherwise the list is as it was.  No other buffer changes, the cache stays
    in order and every block keeps its content. *)
Theorem brelse_correct me s b x l1 l2 : bcache_ok s → ring (bufs s) (l1 ++ b :: l2) →
  bufs s !! b = Some x → b_lock x = Sleeplock true me → 1 ≤ b_refcnt x < 4294967296 →
  (valid x = true → dirty x = false → b_data x = disk_block s (b_blockno x)) →
  ∃ bs', brelse me b s = Ok tt (set_bufs bs' s) ∧ bcache_ok (set_bufs bs' s) ∧
    ring bs' (if b_refcnt x =? 1 then b :: l1 ++ l2 else l1 ++ b :: l2) ∧
    payload <$> bs' = <[b := payload (released_buf x)]> (payload <$> bufs s) ∧
    ∀ k d, content s k d → content (set_bufs bs' s) k d.
Proof.
  intros Hok Hring Hx Hl Hrc Hsync.
  assert (Hblt : (b < length (bufs s))%nat) by (by eapply lookup_lt_Some).
  unfold brelse. erewrite bind_holdingsleep by exact Hx. rewrite Hl. cbn [slocked spid].
  rewrite Z.eqb_refl. cbn [andb negb]. erewrite bind_releasesleep by exact Hx.
  erewrite bind_upd_buf' by (by apply list_lookup_insert_eq). cbn [bufs set_bufs].
  rewrite list_insert_insert_eq. erewrite bind_buf_at by (by apply list_lookup_insert_eq).
  change (set_refcnt (u32 (b_refcnt (set_lock initsleeplock x) - 1)) (set_lock initsleeplock x))
    with (released_buf x).
  set (s1 := set_bufs (<[b := released_buf x]> (bufs s)) s).
  assert (Hok1 : bcache_ok s1) by (by apply bcache_ok_release).
  assert (Hr1 : ring (bufs s1) (l1 ++ b :: l2)) by (by eapply ring_replace).
  assert (Hp1 : payload <$> bufs s1 = <[b := payload (released_buf x)]> (payload <$> bufs s))
    by (unfold s1; simpl; by rewrite list_fmap_insert).
  assert (Hc1 : ∀ k d, content s k d → content s1 k d) by (intros k d; by apply content_release).
  cbn [b_refcnt released_buf set_refcnt set_lock]. rewrite u32_small by lia.
  replace (b_refcnt x - 1 =? 0) with (b_refcnt x =? 1) by (destruct (Z.eqb_spec (b_refcnt x) 1), (Z.eqb_spec (b_refcnt x - 1) 0); lia).
  destruct (b_refcnt x =? 1); [|by exists (bufs s1)].
  destruct (move_front_run s1 l1 b l2 (bk_len _ Hok1) Hr1) as (bs' & Hrun & Hr' & _ & Hp').
  exists bs'. split_and!; [done| |done|congruence|].
  - by apply (bcache_ok_payload s1 bs' (b :: l1 ++ l2)).
  - intros k d Hc. by apply (content_payload s (bufs s1)), Hc1.
Qed.

(** *** The cache at boot *)

(** What [binit] leaves in the array. *)
Definition boot_bufs : list buf :=
  match binit (Bst (replicate (S NBUF) zero_buf) ∅ 0) with Ok _ s | Err _ s => bufs s end.

Lemma binit_run disk n : binit (Bst (replicate (S NBUF) zero_buf) disk n) = Ok tt (Bst boot_bufs disk n).
Proof. vm_compute. reflexivity. Qed.

Lemma boot_ring : ring boot_bufs (reverse (seq 0 NBUF)).
Proof.
  split_and!.
  - vm_compute. intuition reflexivity.
  - apply (bool_decide_unpack _). by vm_compute.
  - intros i. rewrite elem_of_reverse, elem_of_seq. lia.
Qed.

Definition blank (x : buf) : bool :=
  (b_flags x =? 0) && (b_dev x =? 0) && (b_refcnt x =? 0) && negb (slocked (b_lock x)).

Lemma boot_blank i x : boot_bufs !! i = Some x →
  b_flags x = 0 ∧ b_dev x = 0 ∧ b_refcnt x = 0 ∧ slocked (b_lock x) = false.
Proof.
  assert (Hall : forallb blank boot_bufs = true) by (vm_compute; reflexivity).
  intros Hx%list_elem_of_lookup_2. rewrite forallb_forall in Hall.
  specialize (Hall x (proj1 (list_elem_of_In _ _) Hx)). unfold blank in Hall.
  rewrite !andb_true_iff, !Z.eqb_eq, negb_true_iff in Hall. tauto.
Qed.

Lemma boot_length : length boot_bufs = S NBUF.
Proof. vm_compute. reflexivity. Qed.

#[local] Opaque boot_bufs.

Lemma boot_uncached k i x : boot_bufs !! i = Some x → holds_block 1 k x = true → False.
Proof. intros (_ & Hd & _)%boot_blank [Hd' _]%holds_block_spec. congruence. Qed.

Lemma boot_ok disk n : bcache_ok (Bst boot_bufs disk n).
Proof.
  pose proof boot_blank as Hb.
  split; cbn [bufs memdisk].
  - apply boot_length.
  - exists (reverse (seq 0 NBUF)). apply boot_ring.
  - intros i j x y _ _ Hx _ Hd. destruct (Hb i x Hx) as (_ & ? & _). done.
  - intros i x _ Hx _. by apply (Hb i x).
  - intros i x _ Hx Hv. destruct (Hb i x Hx) as (E & _). unfold valid in Hv. by rewrite E in Hv.
  - intros i x _ Hx Hv. destruct (Hb i x Hx) as (E & _). unfold dirty in Hv. by rewrite E in Hv.
Qed.

(** The buffer cache at boot.  From the zeroed [bcache], [binit] builds the
    circular list of all [NBUF] buffers, the last of the array first, and the
    cache is in order: every block's content is what the disk holds. *)
Theorem binit_correct disk n :
  ∃ s, binit (Bst (replicate (S NBUF) zero_buf) disk n) = Ok tt s ∧ bcache_ok s ∧
    ring (bufs s) (reverse (seq 0 NBUF)) ∧ memdisk s = disk ∧
    ∀ k, content s k (disk_block s k).
Proof.
  exists (Bst boot_bufs disk n). split_and!; [apply binit_run|apply boot_ok|apply boot_ring|done|].
  intros k. right. split; [|done]. intros i x (_ & Hx & Hh & _). cbn [bufs] in Hx.
  exact (boot_uncached k i x Hx Hh).
Qed.

Definition demo_cache : bst := Bst boot_bufs ∅ 100.

(** Reading a block into the cache at boot. *)
Lemma bread_correct_witness : ∃ b s' x, bread 7 1 5 demo_cache = Ok b s' ∧ (b < NBUF)%nat ∧
  bufs s' !! b = Some x ∧ holds_block 1 5 x = true ∧ valid x = true ∧ b_lock x = Sleeplock true 7 ∧
  content demo_cache 5 (b_data x) ∧ bcache_ok s' ∧ memdisk s' = memdisk demo_cache ∧
  ∀ k' d, content demo_cache k' d → content s' k' d.
Proof.
  apply (bread_correct 7 demo_cache 5).
  - apply boot_ok.
  - unfold demo_cache. simpl. lia.
  - intros i x _ Hx Hh. destruct (boot_uncached 5 i x Hx Hh).
  - exists 0%nat, (Buf 0 0 0 initsleeplock 0 1 30 zero_block). split_and!.
    + unfold NBUF. lia.
    + vm_compute. reflexivity.
    + by right.
Defined.

(** The cache after that: buffer 0 holds block 5, locked by process 7. *)
Definition demo_held : buf := Buf 2 1 5 (Sleeplock true 7) 1 1 30 zero_block.
Definition demo_cache' : bst := set_bufs (<[0%nat := demo_held]> (bufs demo_cache)) demo_cache.

Lemma boot_first : boot_bufs !! 0%nat = Some (Buf 0 0 0 initsleeplock 0 1 30 zero_block).
Proof. vm_compute. reflexivity. Qed.

Lemma demo_cache'_ok : bcache_ok demo_cache'.
Proof.
  apply (bcache_ok_replace demo_cache 0 (Buf 0 0 0 initsleeplock 0 1 30 zero_block) demo_held 5);
    [apply boot_ok|unfold NBUF; lia|apply boot_first|done..|].
  intros i y _ _ Hy. apply not_true_is_false. exact (boot_uncached 5 i y Hy).
Qed.

Lemma brelse_correct_witness : ∃ bs', brelse 7 0 demo_cache' = Ok tt (set_bufs bs' demo_cache') ∧
  bcache_ok (set_bufs bs' demo_cache') ∧
  ring bs' (0%nat :: reverse (seq 1 29) ++ []) ∧
  payload <$> bs' = <[0%nat := payload (released_buf demo_held)]> (payload <$> bufs demo_cache') ∧
  ∀ k d, content demo_cache' k d → content (set_bufs bs' demo_cache') k d.
Proof.
  apply (brelse_correct 7 demo_cache' 0 demo_held (reverse (seq 1 29)) []).
  - apply demo_cache'_ok.
  - apply (ring_replace boot_bufs 0 _ demo_held _ boot_first); [done|done|apply boot_ring].
  - apply list_lookup_insert_eq. cbn [bufs demo_cache]. rewrite boot_length. unfold NBUF. lia.
  - done.
  - cbn [b_refcnt demo_held]. lia.
  - intros _ _. vm_compute. reflexivity.
Defined.
