(* ===== verification/Ide.v ===== *)
(** The disk driver: ide.c

    [iderw] appends a buffer to a queue linked through [qnext] and sleeps; the
    interrupt handler finishes the head of the queue and starts the next one.
    The controller is not part of the sources: it is the class [ide_ctl] of the
    port operations, with the behaviour that the driver relies on as [ctl_laws].

    The driver implements the memory disk of memide.c: the requests of the queue
    have the effect of calls of [Bio.iderw] in the order of the queue. *)

From stdpp Require Import gmap list numbers strings.
From Stdlib Require Import ZArith Lia.
From S2P Require Import Prelude Memlayout Block Bio.

Definition SECTOR_SIZE : Z := 512.
Definition IDE_BSY : Z := 0x80.
Definition IDE_DRDY : Z := 0x40.
Definition IDE_DF : Z := 0x20.
Definition IDE_ERR : Z := 0x01.

Definition IDE_CMD_READ : Z := 0x20.
Definition IDE_CMD_WRITE : Z := 0x30.
Definition IDE_CMD_RDMUL : Z := 0xc4.
Definition IDE_CMD_WRMUL : Z := 0xc5.

(** The ports of the controller: a byte out, the status byte in, and the data
    port. *)
Class ide_ctl (D : Type) := {
  outb : Z → Z → D → D;
  inb : Z → D → Z * D;
  outsl : list Z → D → D;
  insl : D → list Z * D
}.

(** The driver: the buffers, the field [qnext] of each, the queue, whether disk 1
    is there, the controller, and the buffers that [wakeup] was called on. *)
Record ide_st (D : Type) := IdeSt {
  i_bufs : list buf;
  i_qnext : list (option nat);
  idequeue : option nat;
  havedisk1 : bool;
  i_ctl : D;
  i_woken : list nat
}.
Arguments IdeSt {D}.
Arguments i_bufs {D}.
Arguments i_qnext {D}.
Arguments idequeue {D}.
Arguments havedisk1 {D}.
Arguments i_ctl {D}.
Arguments i_woken {D}.

Section ide.
Context {D : Type} `{!ide_ctl D}.
(** Rounds of the loop of [idewait]. *)
Variable polls : nat.
Implicit Types (s : ide_st D).

Definition i_buf (b : nat) : M (ide_st D) buf := o <- gets (λ s, i_bufs s !! b) ;; deref o.
Definition i_next (b : nat) : M (ide_st D) (option nat) := o <- gets (λ s, i_qnext s !! b) ;; deref o.
Definition set_buf (b : nat) (f : buf → buf) : M (ide_st D) unit :=
  modify (λ s, IdeSt (alter f b (i_bufs s)) (i_qnext s) (idequeue s) (havedisk1 s) (i_ctl s) (i_woken s)).
Definition set_qnext (b : nat) (n : option nat) : M (ide_st D) unit :=
  modify (λ s, IdeSt (i_bufs s) (<[b := n]> (i_qnext s)) (idequeue s) (havedisk1 s) (i_ctl s) (i_woken s)).
Definition set_queue (q : option nat) : M (ide_st D) unit :=
  modify (λ s, IdeSt (i_bufs s) (i_qnext s) q (havedisk1 s) (i_ctl s) (i_woken s)).
Definition wake (b : nat) : M (ide_st D) unit :=
  modify (λ s, IdeSt (i_bufs s) (i_qnext s) (idequeue s) (havedisk1 s) (i_ctl s) (i_woken s ++ [b])).
Definition set_disk1 : M (ide_st D) unit :=
  modify (λ s, IdeSt (i_bufs s) (i_qnext s) (idequeue s) true (i_ctl s) (i_woken s)).
Definition on_ctl {A} (f : D → A * D) : M (ide_st D) A :=
  λ s, let '(a, d) := f (i_ctl s) in
       Ok a (IdeSt (i_bufs s) (i_qnext s) (idequeue s) (havedisk1 s) d (i_woken s)).
Definition port_out (p v : Z) : M (ide_st D) unit := on_ctl (λ d, (tt, outb p v d)).

(** The loop of [idewait]. *)
Fixpoint idewait_loop (fuel : nat) : M (ide_st D) Z :=
  match fuel with
  | O => fail NoFuel
  | S fuel' =>
      r <- on_ctl (inb 0x1f7) ;;
      if negb (Z.land r (Z.lor IDE_BSY IDE_DRDY) =? IDE_DRDY) then idewait_loop fuel' else ret r
  end.

Definition idewait (checkerr : bool) : M (ide_st D) Z :=
  r <- idewait_loop polls ;;
  if checkerr && negb (Z.land r (Z.lor IDE_DF IDE_ERR) =? 0) then ret (-1) else ret 0.

(** The search of [ideinit] for disk 1. *)
Fixpoint find_disk1 (n : nat) : M (ide_st D) unit :=
  match n with
  | O => ret tt
  | S n' => r <- on_ctl (inb 0x1f7) ;; if negb (r =? 0) then set_disk1 else find_disk1 n'
  end.

Definition ideinit : M (ide_st D) unit :=
  idewait false ;;;
  port_out 0x1f6 (Z.lor 0xe0 (Z.shiftl 1 4)) ;;;
  find_disk1 1000 ;;;
  port_out 0x1f6 (Z.lor 0xe0 (Z.shiftl 0 4)).

(** Start the request for [b]. *)
Definition idestart (b : option nat) : M (ide_st D) unit :=
  match b with
  | None => panic "idestart"
  | Some b =>
      x <- i_buf b ;;
      if FSSIZE <=? b_blockno x then panic "incorrect blockno"
      else
        let sector_per_block := BSIZE / SECTOR_SIZE in
        let sector := s32 (b_blockno x * sector_per_block) in
        let read_cmd := if sector_per_block =? 1 then IDE_CMD_READ else IDE_CMD_RDMUL in
        let write_cmd := if sector_per_block =? 1 then IDE_CMD_WRITE else IDE_CMD_WRMUL in
        if 7 <? sector_per_block then panic "idestart"
        else
          idewait false ;;;
          port_out 0x3f6 0 ;;;
          port_out 0x1f2 sector_per_block ;;;
          port_out 0x1f3 (Z.land sector 0xff) ;;;
          port_out 0x1f4 (Z.land (Z.shiftr sector 8) 0xff) ;;;
          port_out 0x1f5 (Z.land (Z.shiftr sector 16) 0xff) ;;;
          port_out 0x1f6 (Z.lor (Z.lor 0xe0 (Z.shiftl (Z.land (b_dev x) 1) 4)) (Z.land (Z.shiftr sector 24) 0x0f)) ;;;
          if negb (Z.land (b_flags x) B_DIRTY =? 0) then
            port_out 0x1f7 write_cmd ;;;
            on_ctl (λ d, (tt, outsl (b_data x) d))
          else port_out 0x1f7 read_cmd
  end.

Definition ideintr : M (ide_st D) unit :=
  q <- gets idequeue ;;
  match q with
  | None => ret tt
  | Some b =>
      n <- i_next b ;;
      set_queue n ;;;
      x <- i_buf b ;;
      (if Z.land (b_flags x) B_DIRTY =? 0 then
         r <- idewait true ;;
         if 0 <=? r then data <- on_ctl insl ;; set_buf b (set_data data) else ret tt
       else ret tt) ;;;
      set_buf b (λ x, set_flags (Z.lor (b_flags x) B_VALID) x) ;;;
      set_buf b (λ x, set_flags (Z.land (b_flags x) (Z.lnot B_DIRTY)) x) ;;;
      wake b ;;;
      q <- gets idequeue ;;
      match q with
      | Some _ => idestart q
      | None => ret tt
      end
  end.

(** The loop of [iderw] to the end of the queue; [p] is the buffer whose [qnext]
    the pointer refers to. *)
Fixpoint queue_end (fuel : nat) (p : nat) : M (ide_st D) nat :=
  n <- i_next p ;;
  match n with
  | None => ret p
  | Some n => match fuel with O => fail NoFuel | S fuel' => queue_end fuel' n end
  end.

(** The wait of [iderw]; it goes on here when [sleep] returns. *)
Definition iderw_wait (b : nat) : M (ide_st D) unit :=
  x <- i_buf b ;;
  if Z.land (b_flags x) (Z.lor B_VALID B_DIRTY) =? B_VALID then ret tt else fail (Blocked "ide").

Definition iderw (me : Z) (b : nat) : M (ide_st D) unit :=
  x <- i_buf b ;;
  if negb (slocked (b_lock x) && (spid (b_lock x) =? me)) then panic "iderw: buf not locked"
  else if Z.land (b_flags x) (Z.lor B_VALID B_DIRTY) =? B_VALID then panic "iderw: nothing to do"
  else
    h <- gets havedisk1 ;;
    if negb (b_dev x =? 0) && negb h then panic "iderw: ide disk 1 not present"
    else
      set_qnext b None ;;;
      q <- gets idequeue ;;
      match q with
      | None => set_queue (Some b)
      | Some p => n <- gets (λ s, length (i_qnext s)) ;; e <- queue_end n p ;; set_qnext e (Some b)
      end ;;;
      q <- gets idequeue ;;
      (if bool_decide (q = Some b) then idestart (Some b) else ret tt) ;;;
      iderw_wait b.

End ide.

(** ** The controller *)

(** What the controller is doing: waiting for a command, or holding the data of
    a sector that was read. *)
Inductive phase :=
| PIdle
| PRead (drive : bool) (sector : Z).

(** The contents of the two disks. *)
Abbreviation disks := (gmap Z block * gmap Z block)%type.
Definition sector_data (v : bool) (k : Z) (ds : disks) : block :=
  default zero_block ((if v then ds.2 else ds.1) !! k).
Definition write_sector (v : bool) (k : Z) (data : block) (ds : disks) : disks :=
  if v then (ds.1, <[k := data]> ds.2) else (<[k := data]> ds.1, ds.2).

(** The drive and the sector that the registers select. *)
Definition drive_of (r6 : Z) : bool := Z.testbit r6 4.
Definition sector_of (r3 r4 r5 r6 : Z) : Z := r3 + 256 * r4 + 65536 * r5 + 16777216 * Z.land r6 15.

Section laws.
Context {D : Type} `{!ide_ctl D}.

(** Read the status until it says ready. *)
Fixpoint poll (fuel : nat) (d : D) : option (Z * D) :=
  match fuel with
  | O => None
  | S fuel' =>
      let '(r, d') := inb 0x1f7 d in
      if Z.land r (Z.lor IDE_BSY IDE_DRDY) =? IDE_DRDY then Some (r, d') else poll fuel' d'
  end.

(** The registers of a command on one sector. *)
Definition setup (r3 r4 r5 r6 : Z) (d : D) : D :=
  outb 0x1f6 r6 (outb 0x1f5 r5 (outb 0x1f4 r4 (outb 0x1f3 r3 (outb 0x1f2 1 (outb 0x3f6 0 d))))).

(** What the driver relies on: the controller gets ready within [polls] reads of
    its status, without an error; a command to read a sector makes it hold the
    data of the sector, which the data port then gives; a command to write a
    sector followed by 512 bytes stores them. *)
Class ctl_laws (polls : nat) := {
  ctl_ok : D → phase → disks → Prop;
  ctl_ready d p ds : ctl_ok d p ds →
    ∃ r d', poll polls d = Some (r, d') ∧ Z.land r (Z.lor IDE_DF IDE_ERR) = 0 ∧ ctl_ok d' p ds;
  ctl_read d ds r3 r4 r5 r6 : ctl_ok d PIdle ds → sector_of r3 r4 r5 r6 < FSSIZE →
    ctl_ok (outb 0x1f7 IDE_CMD_READ (setup r3 r4 r5 r6 d)) (PRead (drive_of r6) (sector_of r3 r4 r5 r6)) ds;
  ctl_write d ds r3 r4 r5 r6 data : ctl_ok d PIdle ds → sector_of r3 r4 r5 r6 < FSSIZE → length data = 512%nat →
    ctl_ok (outsl data (outb 0x1f7 IDE_CMD_WRITE (setup r3 r4 r5 r6 d))) PIdle
           (write_sector (drive_of r6) (sector_of r3 r4 r5 r6) data ds);
  ctl_data d ds v k : ctl_ok d (PRead v k) ds →
    ∃ d', insl d = (sector_data v k ds, d') ∧ ctl_ok d' PIdle ds
}.

End laws.

(** ** The queue *)

(** [Q] is the list of buffers from [q] along [qnext]. *)
Fixpoint chain (qn : list (option nat)) (q : option nat) (Q : list nat) : Prop :=
  match Q with
  | [] => q = None
  | b :: Q' => q = Some b ∧ ∃ n, qn !! b = Some n ∧ chain qn n Q'
  end.

(** A locked buffer of disk 1 that has something to transfer. *)
Record pending (x : buf) : Prop := {
  pd_lock : slocked (b_lock x) = true;
  pd_flags : (Z.land (b_flags x) (Z.lor B_VALID B_DIRTY) =? B_VALID) = false;
  pd_dev : b_dev x = 1;
  pd_block : 0 ≤ b_blockno x < FSSIZE;
  pd_data : length (b_data x) = 512%nat
}.

(** The transfer on the memory disk, by the process that holds the buffer. *)
Definition sync (b : nat) : M bst unit := x <- buf_at b ;; Bio.iderw (spid (b_lock x)) b.
Fixpoint sync_all (Q : list nat) : M bst unit :=
  match Q with
  | [] => ret tt
  | b :: Q' => sync b ;;; sync_all Q'
  end.

(** A buffer and the disk after the transfer. *)
Definition finish (disk : gmap Z block) (x : buf) : buf :=
  set_flags (Z.land (Z.lor (b_flags x) B_VALID) (Z.lnot B_DIRTY))
    (if dirty x then x else set_data (default zero_block (disk !! b_blockno x)) x).
Definition disk_after (disk : gmap Z block) (x : buf) : gmap Z block :=
  if dirty x then <[b_blockno x := b_data x]> disk else disk.

Section chains.
Implicit Types (qn : list (option nat)) (Q : list nat).

Lemma chain_insert qn q Q b v : b ∉ Q → chain qn q Q → chain (<[b := v]> qn) q Q.
Proof.
  revert q. induction Q as [|a Q IH]; intros q Hb; [done|]. apply not_elem_of_cons in Hb as [Hne Hb].
  intros (-> & n & Hn & Hc). split; [done|]. exists n. split; [by rewrite list_lookup_insert_ne|by apply IH].
Qed.

(** Appending [b] at the end of the queue. *)
Lemma chain_snoc qn q Q e b : NoDup (Q ++ [e]) → b ∉ Q ++ [e] → qn !! b = Some None → (e < length qn)%nat →
  chain qn q (Q ++ [e]) → chain (<[e := Some b]> qn) q (Q ++ [e] ++ [b]).
Proof.
  revert q. induction Q as [|a Q IH]; intros q Hnd Hb Hqb He; cbn [chain app].
  - intros (-> & n & Hn & ->). split; [done|]. exists (Some b). split; [by apply list_lookup_insert_eq|]. split; [done|].
    exists None. split; [|done]. rewrite list_lookup_insert_ne; [done|]. intros ->. apply Hb, list_elem_of_here.
  - intros (-> & n & Hn & Hc). cbn [app] in Hnd, Hb. apply NoDup_cons in Hnd as [Ha Hnd]. apply not_elem_of_cons in Hb as [_ Hb].
    split; [done|]. exists n. split; [rewrite list_lookup_insert_ne; [done|]|by apply IH].
    intros ->. apply Ha, elem_of_app. right. apply list_elem_of_here.
Qed.

End chains.

(** ** The memory disk *)

Lemma done_flags f : Z.lor (Z.land f (Z.lnot B_DIRTY)) B_VALID = Z.land (Z.lor f B_VALID) (Z.lnot B_DIRTY).
Proof. by rewrite Z.land_lor_distr_l. Qed.

Lemma valid_kept f : Z.land (Z.lor f B_VALID) B_VALID = B_VALID.
Proof.
  apply Z.bits_inj'. intros n Hn. rewrite Z.land_spec, Z.lor_spec. by destruct (Z.testbit B_VALID n), (Z.testbit f n).
Qed.

Lemma clean_flags f : Z.land f B_DIRTY = 0 → Z.land f (Z.lnot B_DIRTY) = f.
Proof. intros H. rewrite <-Z.ldiff_land. rewrite <-(Z.lor_ldiff_and f B_DIRTY) at 2. by rewrite H, Z.lor_0_r. Qed.

Lemma sync_finish bs disk b x : bs !! b = Some x → pending x →
  sync b (Bst bs disk FSSIZE) = Ok tt (Bst (<[b := finish disk x]> bs) (disk_after disk x) FSSIZE).
Proof.
  intros Hx [Hl Hf Hd Hb Hlen]. unfold sync. erewrite bind_buf_at by exact Hx. unfold Bio.iderw.
  erewrite bind_holdingsleep by exact Hx. rewrite Hl, Z.eqb_refl. cbn [andb negb].
  erewrite bind_buf_at by exact Hx. rewrite Hf, Hd. cbn [Z.eqb Pos.eqb negb].
  rewrite bind_gets, (proj2 (Z.leb_gt _ _)) by (cbn [disksize]; lia).
  change (negb (Z.land (b_flags x) B_DIRTY =? 0)) with (dirty x). unfold finish, disk_after.
  assert (Hlt : (b < length bs)%nat) by (by eapply lookup_lt_Some).
  destruct (dirty x) eqn:Edx; rewrite !bind_assoc.
  - erewrite bind_upd_buf' by exact Hx. rewrite bind_modify. unfold upd_buf, modify, set_bufs. cbn [bufs memdisk disksize].
    erewrite alter_buf by (by apply list_lookup_insert_eq). rewrite list_insert_insert_eq. cbn [b_flags set_flags].
    by rewrite done_flags.
  - rewrite bind_gets. erewrite bind_upd_buf' by exact Hx. unfold upd_buf, modify, set_bufs. cbn [bufs memdisk disksize].
    erewrite alter_buf by (by apply list_lookup_insert_eq). rewrite list_insert_insert_eq. cbn [b_flags set_flags set_data].
    assert (Hc : Z.land (b_flags x) B_DIRTY = 0) by (apply Z.eqb_eq; by apply negb_false_iff in Edx).
    by rewrite <-done_flags, (clean_flags _ Hc).
Qed.

Lemma finish_done disk x : Z.land (b_flags (finish disk x)) (Z.lor B_VALID B_DIRTY) = B_VALID.
Proof.
  unfold finish. cbn [b_flags set_flags]. rewrite <-done_flags, Z.land_lor_distr_l, <-Z.land_assoc.
  change (Z.land (Z.lnot B_DIRTY) (Z.lor B_VALID B_DIRTY)) with 2. change (Z.land B_VALID (Z.lor B_VALID B_DIRTY)) with 2.
  change B_VALID with 2. apply Z.bits_inj'. intros n Hn. rewrite Z.lor_spec, Z.land_spec.
  by destruct (Z.testbit 2 n), (Z.testbit (b_flags x) n).
Qed.

(** ** The driver *)

(** The registers select the sector of the block on disk 1. *)
Lemma sector_encode k : 0 ≤ k < FSSIZE →
  let r6 := Z.lor (Z.lor 0xe0 (Z.shiftl (Z.land 1 1) 4)) (Z.land (Z.shiftr k 24) 0x0f) in
  drive_of r6 = true ∧ sector_of (Z.land k 0xff) (Z.land (Z.shiftr k 8) 0xff) (Z.land (Z.shiftr k 16) 0xff) r6 = k.
Proof.
  intros Hk. unfold FSSIZE in Hk. cbn zeta. rewrite !Z.shiftr_div_pow2 by lia.
  replace (k / 2 ^ 24) with 0 by (symmetry; apply Z.div_small; lia). split; [done|]. unfold sector_of.
  replace (k / 2 ^ 16) with 0 by (symmetry; apply Z.div_small; lia).
  change 0xff with (Z.ones 8). rewrite !Z.land_ones by lia. change (2 ^ 8) with 256.
  change (Z.land (Z.lor (Z.lor 224 (Z.shiftl (Z.land 1 1) 4)) (Z.land 0 15)) 15) with 0. zlia.
Qed.

Section driver.
Context {D : Type} `{!ide_ctl D} {polls : nat} `{!ctl_laws (D := D) polls}.
Implicit Types (s : ide_st D) (Q : list nat) (ds : disks).

Definition with_ctl (d : D) s : ide_st D := IdeSt (i_bufs s) (i_qnext s) (idequeue s) (havedisk1 s) d (i_woken s).

(** The controller is at work on the request [x]. *)
Definition started (x : buf) (d : D) ds : Prop :=
  if dirty x then ctl_ok d PIdle (ds.1, <[b_blockno x := b_data x]> ds.2)
  else ctl_ok d (PRead true (b_blockno x)) ds.

Record ide_ok s Q ds : Prop := {
  io_chain : chain (i_qnext s) (idequeue s) Q;
  io_nodup : NoDup Q;
  io_len : length (i_qnext s) = length (i_bufs s);
  io_disk1 : havedisk1 s = true;
  io_pending : Forall (λ b, ∃ x, i_bufs s !! b = Some x ∧ pending x) Q;
  io_ctl : match Q with
           | [] => ctl_ok (i_ctl s) PIdle ds
           | b :: _ => ∃ x, i_bufs s !! b = Some x ∧ started x (i_ctl s) ds
           end
}.

Lemma bind_i_buf {A} b x (k : buf → M (ide_st D) A) s : i_bufs s !! b = Some x → bind (i_buf b) k s = k x s.
Proof. intros Hx. unfold i_buf, bind, gets, deref. by rewrite Hx. Qed.

Lemma bind_i_next {A} b n (k : option nat → M (ide_st D) A) s : i_qnext s !! b = Some n → bind (i_next b) k s = k n s.
Proof. intros Hx. unfold i_next, bind, gets, deref. by rewrite Hx. Qed.

Lemma idewait_loop_poll fuel : ∀ s r d, poll fuel (i_ctl s) = Some (r, d) → idewait_loop fuel s = Ok r (with_ctl d s).
Proof.
  induction fuel as [|fuel IH]; intros s r d; cbn [poll idewait_loop]; [done|].
  unfold bind at 1, on_ctl. destruct (inb 0x1f7 (i_ctl s)) as [r1 d1].
  destruct (Z.land r1 (Z.lor IDE_BSY IDE_DRDY) =? IDE_DRDY); cbn [negb]; [by intros [= <- <-]|].
  intros Hp. exact (IH (with_ctl d1 s) r d Hp).
Qed.

Lemma idewait_ok c s p ds : ctl_ok (i_ctl s) p ds →
  ∃ d, idewait polls c s = Ok 0 (with_ctl d s) ∧ ctl_ok d p ds.
Proof.
  intros (r & d & Hp & He & Hd)%ctl_ready. exists d. split; [|done]. unfold idewait.
  rewrite (bind_ok _ _ _ _ _ (idewait_loop_poll _ _ _ _ Hp)), He. by destruct c.
Qed.

Lemma idestart_ok b x s ds : i_bufs s !! b = Some x → pending x → ctl_ok (i_ctl s) PIdle ds →
  ∃ d, idestart polls (Some b) s = Ok tt (with_ctl d s) ∧ started x d ds.
Proof.
  intros Hx [_ _ Hdev Hb Hlen] Hc. unfold idestart. erewrite bind_i_buf by exact Hx.
  rewrite (proj2 (Z.leb_gt _ _)) by lia. change (BSIZE / SECTOR_SIZE) with 1. cbn [Z.eqb Pos.eqb Z.ltb Z.compare Pos.compare Pos.compare_cont].
  replace (s32 (b_blockno x * 1)) with (b_blockno x) by (unfold FSSIZE in Hb; zlia).
  destruct (idewait_ok false _ _ _ Hc) as (d & Hw & Hd). rewrite (bind_ok _ _ _ _ _ Hw), Hdev.
  destruct (sector_encode (b_blockno x) Hb) as [Hdr Hsec]. set (r6 := Z.lor _ (Z.land (Z.shiftr (b_blockno x) 24) 15)) in *.
  set (r3 := Z.land (b_blockno x) 255) in *. set (r4 := Z.land (Z.shiftr (b_blockno x) 8) 255) in *.
  set (r5 := Z.land (Z.shiftr (b_blockno x) 16) 255) in *. unfold started, dirty.
  destruct (Z.land (b_flags x) B_DIRTY =? 0); cbn [negb].
  - eexists. split; [done|]. pose proof (ctl_read d ds r3 r4 r5 r6 Hd) as H. rewrite Hdr, Hsec in H. apply H. lia.
  - eexists. split; [done|]. pose proof (ctl_write d ds r3 r4 r5 r6 (b_data x) Hd) as H. rewrite Hdr, Hsec in H. apply H; [lia|done].
Qed.

Lemma alter_inserted f b y (bs : list buf) : (b < length bs)%nat → alter f b (<[b := y]> bs) = <[b := f y]> bs.
Proof. intros Hb. erewrite alter_buf by (by apply list_lookup_insert_eq). apply list_insert_insert_eq. Qed.

(** The interrupt handler finishes the head of the queue. *)
Lemma ideintr_ok b Q s ds x : ide_ok s (b :: Q) ds → i_bufs s !! b = Some x →
  ∃ s', ideintr polls s = Ok tt s' ∧ ide_ok s' Q (ds.1, disk_after ds.2 x) ∧
    i_bufs s' = <[b := finish ds.2 x]> (i_bufs s) ∧ i_woken s' = i_woken s ++ [b].
Proof.
  intros [(Hq & n & Hn & Hc) [Hnb Hnd]%NoDup_cons Hlen Hd1 [(x' & Hx' & Hpx) Hp]%Forall_cons (x'' & Hx'' & Hst)] Hx.
  assert (x' = x) as -> by congruence. assert (x'' = x) as -> by congruence.
  set (bs' := <[b := finish ds.2 x]> (i_bufs s)).
  assert (Hmid : ∃ d, ctl_ok d PIdle (ds.1, disk_after ds.2 x) ∧
    ideintr polls s = (q <- gets idequeue ;; match q with Some _ => idestart polls q | None => ret tt end)
                        (IdeSt bs' (i_qnext s) n (havedisk1 s) d (i_woken s ++ [b]))).
  { unfold ideintr. rewrite bind_gets, Hq. erewrite bind_i_next by exact Hn. unfold set_queue at 1. rewrite bind_modify.
    set (s1 := IdeSt (i_bufs s) (i_qnext s) n (havedisk1 s) (i_ctl s) (i_woken s)).
    erewrite bind_i_buf by exact Hx. unfold started in Hst. unfold disk_after, bs', finish.
    assert (Hlt : (b < length (i_bufs s))%nat) by (by eapply lookup_lt_Some).
    destruct (dirty x) eqn:Edx; unfold dirty in Edx; [apply negb_true_iff in Edx|apply negb_false_iff in Edx]; rewrite Edx.
    - exists (i_ctl s). split; [done|]. rewrite bind_ret. unfold set_buf, wake. rewrite !bind_modify. cbn [i_bufs i_qnext idequeue havedisk1 i_ctl i_woken s1].
      rewrite (alter_buf _ b (i_bufs s) x Hx). by rewrite alter_inserted.
    - destruct (idewait_ok true s1 _ _ Hst) as (d & Hw & Hd). destruct (ctl_data _ _ _ _ Hd) as (d' & Hi & Hd').
      exists d'. split; [by destruct ds|]. rewrite bind_assoc, (bind_ok _ _ _ _ _ Hw). cbn [Z.leb Z.compare].
      assert (Hin : on_ctl insl (with_ctl d s1) = Ok (sector_data true (b_blockno x) ds) (with_ctl d' s1)).
      { unfold on_ctl. cbn [with_ctl i_ctl]. by rewrite Hi. }
      rewrite bind_assoc, (bind_ok _ _ _ _ _ Hin). unfold set_buf, wake. rewrite !bind_modify.
      cbn [with_ctl modify i_bufs i_qnext idequeue havedisk1 i_ctl i_woken s1].
      rewrite (alter_buf _ b (i_bufs s) x Hx). by rewrite !alter_inserted. }
  destruct Hmid as (d & Hd & Hrun). rewrite Hrun, bind_gets. cbn [idequeue].
  assert (Hp' : Forall (λ b, ∃ x, bs' !! b = Some x ∧ pending x) Q).
  { rewrite Forall_forall in Hp |- *. intros c Hcin. destruct (Hp c Hcin) as (y & Hy & Hpy). exists y. split; [|done].
    unfold bs'. rewrite list_lookup_insert_ne; [done|]. by intros <-. }
  destruct Q as [|c Q]; cbn [chain] in Hc.
  - subst n. eexists. split; [done|]. split; [|done]. split; try done. cbn [i_bufs i_qnext]. unfold bs'. by rewrite length_insert.
  - destruct Hc as (-> & n' & Hn' & Hc). apply Forall_cons in Hp' as Hp2. destruct Hp2 as [(y & Hy & Hpy) _].
    destruct (idestart_ok c y (IdeSt bs' (i_qnext s) (Some c) (havedisk1 s) d (i_woken s ++ [b])) _ Hy Hpy Hd) as (d2 & Hr2 & Hs2).
    rewrite Hr2. eexists. split; [done|]. split; [|done]. split; cbn [with_ctl i_bufs i_qnext idequeue havedisk1 i_ctl]; try done.
    + split; [done|]. by exists n'.
    + unfold bs'. by rewrite length_insert.
    + by exists y.
Qed.

(** The loop of [iderw] reaches the end of the queue. *)
Lemma queue_end_ok s Q : ∀ fuel p e, chain (i_qnext s) (Some p) (Q ++ [e]) → (length Q ≤ fuel)%nat → queue_end fuel p s = Ok e s.
Proof.
  induction Q as [|a Q IH]; intros fuel p e; cbn [app chain length].
  - intros ([= ->] & n & Hn & ->) _. destruct fuel; cbn [queue_end]; by erewrite bind_i_next by exact Hn.
  - intros ([= ->] & n & Hn & Hc) Hf. destruct fuel as [|fuel]; [lia|]. cbn [queue_end]. erewrite bind_i_next by exact Hn.
    destruct n as [n|]; [apply IH; [done|lia]|]. by destruct Q; destruct Hc.
Qed.

Lemma queue_short s Q ds : ide_ok s Q ds → (length Q ≤ length (i_qnext s))%nat.
Proof.
  intros Hok. rewrite (io_len _ _ _ Hok), <-(length_seq (length (i_bufs s)) 0). apply submseteq_length, NoDup_submseteq; [apply Hok|].
  intros b Hb. pose proof (io_pending _ _ _ Hok) as Hp. rewrite Forall_forall in Hp. destruct (Hp b Hb) as (x & Hx & _).
  apply elem_of_seq. apply lookup_lt_Some in Hx. lia.
Qed.

(** [iderw] puts the request at the end of the queue and sleeps. *)
Lemma iderw_ok me b x s Q ds : ide_ok s Q ds → b ∉ Q → i_bufs s !! b = Some x → pending x → spid (b_lock x) = me →
  ∃ s', iderw polls me b s = Err (Blocked "ide") s' ∧ ide_ok s' (Q ++ [b]) ds ∧ i_bufs s' = i_bufs s ∧ i_woken s' = i_woken s.
Proof.
  intros Hok Hb Hx Hpx Hme. pose proof (queue_short _ _ _ Hok) as Hshort. destruct Hok as [Hc Hnd Hlen Hd1 Hp Hctl]. pose proof Hpx as [Hl Hf Hdev _ _].
  assert (Hlt : (b < length (i_qnext s))%nat) by (rewrite Hlen; by eapply lookup_lt_Some).
  unfold iderw. erewrite bind_i_buf by exact Hx. rewrite Hl, Hme, Z.eqb_refl, Hf. cbn [andb negb].
  rewrite bind_gets, Hd1. cbn [negb]. rewrite andb_false_r.
  unfold set_qnext at 1. rewrite bind_modify. set (s1 := IdeSt _ (<[b:=None]> (i_qnext s)) _ _ _ _). rewrite bind_gets.
  apply (chain_insert _ _ _ b None Hb) in Hc.
  assert (Hp1 : Forall (λ b, ∃ x, i_bufs s !! b = Some x ∧ pending x) (Q ++ [b])) by (apply Forall_app; split; [done|]; apply Forall_singleton; by eauto).
  assert (Hnd1 : NoDup (Q ++ [b])) by (apply NoDup_app; split_and!; [done|by intros c Hc1 ->%list_elem_of_singleton|apply NoDup_singleton]).
  destruct Q as [|a Q] using rev_ind; [|clear IHQ].
  - cbn [chain] in Hc. cbn [s1 idequeue]. rewrite Hc. unfold set_queue. rewrite bind_modify, bind_gets. cbn [idequeue].
    rewrite bool_decide_eq_true_2 by done.
    match goal with |- context [bind (idestart polls (Some b)) _ ?s2] =>
      destruct (idestart_ok b x s2 ds Hx Hpx Hctl) as (d & Hr & Hs) end.
    rewrite (bind_ok _ _ _ _ _ Hr).
    unfold iderw_wait. erewrite bind_i_buf by exact Hx. rewrite Hf. eexists. split; [done|]. split; [|done].
    split; cbn [app with_ctl i_bufs i_qnext idequeue havedisk1 i_ctl s1]; try done.
    + split; [done|]. exists None. split; [by apply list_lookup_insert_eq|done].
    + by rewrite length_insert.
    + by exists x.
  - destruct (idequeue s) as [p|] eqn:Eq; [|by destruct Q; destruct Hc]. cbn [s1 idequeue].
    rewrite bind_assoc, bind_gets, bind_assoc. rewrite length_app in Hshort. cbn [length] in Hshort.
    assert (He : queue_end (length (i_qnext s1)) p s1 = Ok a s1).
    { apply (queue_end_ok s1 Q); [done|]. cbn [s1 i_qnext]. rewrite length_insert. lia. }
    rewrite (bind_ok _ _ _ _ _ He). unfold set_qnext. rewrite bind_modify, bind_gets. cbn [s1 i_bufs i_qnext idequeue havedisk1 i_ctl i_woken].
    assert (Hpb : p ≠ b). { intros ->. apply Hb. destruct Q; destruct Hc as [[= <-] _]; apply list_elem_of_here. }
    rewrite bool_decide_eq_false_2 by congruence. rewrite bind_ret. unfold iderw_wait. erewrite bind_i_buf by exact Hx. rewrite Hf.
    eexists. split; [done|]. split; [|done].
    split; cbn [i_bufs i_qnext idequeue havedisk1 i_ctl]; try done.
    + rewrite <-app_assoc. apply chain_snoc; try done; [by apply list_lookup_insert_eq|].
      rewrite length_insert, Hlen. apply Forall_app in Hp as [_ (y & Hy & _)%Forall_singleton]. by eapply lookup_lt_Some.
    + by rewrite !length_insert.
    + destruct Q; exact Hctl.
Qed.

(** A read that the controller reports as failed is marked valid with the data
    that the buffer had before. *)
Lemma ideintr_read_error s b x r d : idequeue s = Some b → i_qnext s !! b = Some None → i_bufs s !! b = Some x → dirty x = false →
  poll polls (i_ctl s) = Some (r, d) → Z.land r (Z.lor IDE_DF IDE_ERR) ≠ 0 →
  ∃ s' y, ideintr polls s = Ok tt s' ∧ i_bufs s' !! b = Some y ∧ valid y = true ∧ b_data y = b_data x.
Proof.
  intros Hq Hn Hx Hd Hp He%Z.eqb_neq. unfold ideintr. rewrite bind_gets, Hq. erewrite bind_i_next by exact Hn. unfold set_queue. rewrite bind_modify.
  erewrite bind_i_buf by exact Hx. apply negb_false_iff in Hd. rewrite Hd, bind_assoc. unfold idewait. rewrite bind_assoc.
  assert (Hlt : (b < length (i_bufs s))%nat) by (by eapply lookup_lt_Some).
  match goal with |- context [bind (idewait_loop polls) _ ?s2] => rewrite (bind_ok _ _ _ _ _ (idewait_loop_poll polls s2 r d Hp)) end.
  rewrite He. cbn [andb negb]. rewrite bind_ret. cbn [Z.leb Z.compare]. rewrite bind_ret. unfold set_buf, wake. rewrite !bind_modify, bind_gets.
  cbn [with_ctl i_bufs i_qnext idequeue havedisk1 i_ctl i_woken]. rewrite (alter_buf _ b (i_bufs s) x Hx), alter_inserted by done.
  eexists _, _. split; [done|]. cbn [i_bufs]. split; [by apply list_lookup_insert_eq|]. split; [|done].
  unfold valid. cbn [b_flags set_flags]. rewrite <-Z.land_assoc. change (Z.land (Z.lnot B_DIRTY) B_VALID) with B_VALID.
  by rewrite valid_kept.
Qed.

(** [k] interrupts. *)
Fixpoint interrupts (k : nat) : M (ide_st D) unit :=
  match k with
  | O => ret tt
  | S k' => ideintr polls ;;; interrupts k'
  end.

Lemma iderw_wait_done s b disk x : i_bufs s !! b = Some (finish disk x) → iderw_wait b s = Ok tt s.
Proof. intros Hb. unfold iderw_wait. erewrite bind_i_buf by exact Hb. by rewrite finish_done. Qed.

Lemma interrupts_ok k : ∀ s Q ds, ide_ok s Q ds → (k ≤ length Q)%nat →
  ∃ s' disk, interrupts k s = Ok tt s' ∧
    sync_all (take k Q) (Bst (i_bufs s) (ds.2) FSSIZE) = Ok tt (Bst (i_bufs s') disk FSSIZE) ∧
    ide_ok s' (drop k Q) (ds.1, disk) ∧ i_woken s' = i_woken s ++ take k Q ∧
    Forall (λ b, iderw_wait b s' = Ok tt s') (take k Q) ∧
    ∀ c, c ∉ take k Q → i_bufs s' !! c = i_bufs s !! c.
Proof.
  induction k as [|k IH]; intros s Q ds Hok Hk; cbn [interrupts].
  { exists s, ds.2. rewrite take_0, drop_0, app_nil_r. split_and!; try done. by destruct ds. }
  destruct Q as [|b Q]; cbn [length] in Hk; [lia|]. cbn [take drop sync_all].
  pose proof (io_nodup _ _ _ Hok) as [Hb _]%NoDup_cons.
  pose proof (io_pending _ _ _ Hok) as [(x & Hx & Hpx) _]%Forall_cons.
  destruct (ideintr_ok b Q s ds x Hok Hx) as (s1 & Hr1 & Hok1 & Hbs1 & Hw1).
  destruct (IH s1 Q _ Hok1 ltac:(lia)) as (s' & disk & Hr & Hsync & Hok' & Hw & Hwait & Hsame). cbn [fst snd] in *.
  assert (Hbt : b ∉ take k Q) by (intros Hin; apply Hb; by eapply subseteq_take).
  assert (Hlt : (b < length (i_bufs s))%nat) by (by eapply lookup_lt_Some).
  exists s', disk. rewrite (bind_ok _ _ _ _ _ Hr1), (bind_ok _ _ _ _ _ (sync_finish _ _ _ _ Hx Hpx)).
  rewrite Hbs1 in Hsync. split_and!; try done.
  - by rewrite Hw, Hw1, <-app_assoc.
  - constructor; [|done]. apply (iderw_wait_done _ _ ds.2 x). rewrite Hsame by done. rewrite Hbs1. by apply list_lookup_insert_eq.
  - intros c [Hcb Hc]%not_elem_of_cons. rewrite Hsame by done. rewrite Hbs1. by apply list_lookup_insert_ne.
Qed.

(** C30. The queue of ide.c implements the memory disk.  A request goes to the end
    of the queue and its process sleeps.  The first [k] interrupts serve the
    first [k] requests of the queue in order: the buffers and the disk are those
    that the calls of memide.c's [iderw] in this order give, each of the [k]
    processes is woken and finds its request done, and the rest of the queue is
    as before, with the controller at work on its head. *)
Theorem ide_implements_memide s Q ds : ide_ok s Q ds →
  (∀ b x, b ∉ Q → i_bufs s !! b = Some x → pending x →
     ∃ s', iderw polls (spid (b_lock x)) b s = Err (Blocked "ide") s' ∧ ide_ok s' (Q ++ [b]) ds ∧
           i_bufs s' = i_bufs s ∧ i_woken s' = i_woken s) ∧
  (∀ k, (k ≤ length Q)%nat →
     ∃ s' disk, interrupts k s = Ok tt s' ∧
       sync_all (take k Q) (Bst (i_bufs s) (ds.2) FSSIZE) = Ok tt (Bst (i_bufs s') disk FSSIZE) ∧
       ide_ok s' (drop k Q) (ds.1, disk) ∧ i_woken s' = i_woken s ++ take k Q ∧
       Forall (λ b, iderw_wait b s' = Ok tt s') (take k Q)).
Proof.
  intros Hok. split.
  - intros b x Hb Hx Hpx. by apply (iderw_ok _ b x s Q ds).
  - intros k Hk. destruct (interrupts_ok k s Q ds Hok Hk) as (s' & disk & H1 & H2 & H3 & H4 & H5 & _). by exists s', disk.
Qed.

End driver.

(** ** A controller *)

(** A controller that is busy once after each command. *)
Record pio := Pio {
  p_busy : bool;
  p_r3 : Z;
  p_r4 : Z;
  p_r5 : Z;
  p_r6 : Z;
  p_hold : option (bool * Z);
  p_disks : disks
}.

Definition p_sector (d : pio) : Z := sector_of (p_r3 d) (p_r4 d) (p_r5 d) (p_r6 d).

#[export] Instance pio_ctl : ide_ctl pio := {|
  outb p v d :=
    let 'Pio z r3 r4 r5 r6 h ds := d in
    if p =? 0x1f3 then Pio z v r4 r5 r6 h ds
    else if p =? 0x1f4 then Pio z r3 v r5 r6 h ds
    else if p =? 0x1f5 then Pio z r3 r4 v r6 h ds
    else if p =? 0x1f6 then Pio z r3 r4 r5 v h ds
    else if p =? 0x1f7 then
      Pio true r3 r4 r5 r6 (if v =? IDE_CMD_READ then Some (drive_of r6, p_sector d) else None) ds
    else d;
  inb p d :=
    let 'Pio z r3 r4 r5 r6 h ds := d in
    (if z then 0xc0 else 0x50, Pio false r3 r4 r5 r6 h ds);
  outsl data d :=
    let 'Pio z r3 r4 r5 r6 h ds := d in
    Pio true r3 r4 r5 r6 h (write_sector (drive_of r6) (p_sector d) data ds);
  insl d :=
    let 'Pio z r3 r4 r5 r6 h ds := d in
    (match h with Some (v, k) => sector_data v k ds | None => [] end, Pio z r3 r4 r5 r6 None ds)
|}.

#[export] Instance pio_laws : ctl_laws (D := pio) 2.
Proof.
  refine {| ctl_ok d p ds := p_disks d = ds ∧ match p with PIdle => True | PRead v k => p_hold d = Some (v, k) end |}.
  - intros d p ds [Hds Hp]. destruct d as [[] r3 r4 r5 r6 h ds'];
      (eexists _, _; split; [done|]; split; [done|]; by split).
  - intros [z a3 a4 a5 a6 h ds'] ds r3 r4 r5 r6 [Hds _] _. by split.
  - intros [z a3 a4 a5 a6 h ds'] ds r3 r4 r5 r6 data [Hds _] _ _. cbn in Hds |- *. by subst.
  - intros [z a3 a4 a5 a6 h ds'] ds v k [Hds Hh]. cbn in Hds, Hh |- *. subst. eexists. by split.
Defined.

(** Two buffers of process 7: block 5 to be written, then block 5 to be read. *)
Definition demo_buf (flags : Z) (data : block) : buf := Buf flags 1 5 (Sleeplock true 7) 1 0 0 data.
Definition demo_ide : ide_st pio :=
  IdeSt [demo_buf B_DIRTY (replicate 512 9); demo_buf 0 zero_block] [None; None] None true
        (Pio false 0 0 0 0 None (∅, ∅)) [].

Lemma demo_pending flags data : (Z.land flags 6 =? 2) = false → length data = 512%nat → pending (demo_buf flags data).
Proof. intros Hf Hd. by split. Qed.

(** After the request to write, an interrupt leaves the data on the disk. *)
Lemma ide_implements_memide_witness :
  ide_ok demo_ide [] (∅, ∅) ∧
  ∃ s1 s2 disk, iderw 2 7 0 demo_ide = Err (Blocked "ide") s1 ∧ interrupts (polls := 2) 1 s1 = Ok tt s2 ∧
    sync_all [0%nat] (Bst (i_bufs demo_ide) ∅ FSSIZE) = Ok tt (Bst (i_bufs s2) disk FSSIZE) ∧ ide_ok s2 [] (∅, disk).
Proof.
  assert (Hok : ide_ok demo_ide [] (∅, ∅)).
  { split; [reflexivity|apply NoDup_nil_2|reflexivity|reflexivity|apply Forall_nil_2|]. split; [reflexivity|exact I]. }
  split; [exact Hok|].
  destruct (ide_implements_memide demo_ide [] (∅, ∅) Hok) as [Hreq _].
  destruct (Hreq 0%nat (demo_buf B_DIRTY (replicate 512 9)) (not_elem_of_nil _) eq_refl (demo_pending B_DIRTY (replicate 512 9) eq_refl (length_replicate 512 9)))
    as (s1 & Hr1 & Hok1 & Hbs1 & _).
  destruct (ide_implements_memide s1 [0%nat] (∅, ∅) Hok1) as [_ Hint].
  destruct (Hint 1%nat (le_n 1)) as (s2 & disk & Hr2 & Hs2 & Hok2 & _).
  exists s1, s2, disk. rewrite Hbs1 in Hs2. split; [exact Hr1|]. split; [exact Hr2|]. split; [exact Hs2|exact Hok2].
Defined.
