(* ===== verification/Log.v ===== *)
(** The write-ahead log: log.c

    The log runs on the block store that the buffer cache offers its clients
    ([Bio.content]): a block's content is the cached one if it is pinned dirty
    and the disk's otherwise; [bwrite] writes through to the disk.  Every disk
    write is also recorded, so that a crash is a prefix of the recorded writes
    on the disk before, with the cache lost.

    The [logical] disk is what a recovery would make of a disk.  Recovery, at
    every point of its own writes, leaves it unchanged; [commit] changes it at
    exactly one of its writes, the header's.  The reservation of log space by
    [begin_op] is shown to be enough when the log has [LOGSIZE] data blocks, and
    not to be when it has the size mkfs.c gives it. *)

From stdpp Require Import gmap list numbers strings.
From Stdlib Require Import ZArith Lia.
From S2P Require Import Prelude Memlayout Block.

(** ** The block store *)

Record store := Store {
  disk : gmap Z block;
  pinned : gmap Z block;
  dsize : Z;
  writes : list (Z * block)
}.

(** Block [k] of a disk. *)
Definition blk (d : gmap Z block) (k : Z) : block := default zero_block (d !! k).

(** Block [k] as the cache shows it. *)
Definition sview (s : store) (k : Z) : block := default (blk (disk s) k) (pinned s !! k).

Definition sread (k : Z) : M store block :=
  s <- get ;;
  if dsize s <=? u32 k then panic "iderw: block out of range" else ret (sview s (u32 k)).

Definition swrite (k : Z) (d : block) : M store unit :=
  modify (λ s, Store (<[u32 k := d]> (disk s)) (delete (u32 k) (pinned s)) (dsize s)
                     (writes s ++ [(u32 k, d)])).

(** A buffer marked [B_DIRTY] with contents [d]. *)
Definition pin (k : Z) (d : block) : M store unit :=
  modify (λ s, Store (disk s) (<[u32 k := d]> (pinned s)) (dsize s) (writes s)).

(** ** The log *)

(** struct log; [lh_n] and [lh_block] are the fields of struct logheader. *)
Record log_st := Log {
  lg_start : Z;
  lg_size : Z;
  outstanding : Z;
  committing : bool;
  lh_n : Z;
  lh_block : list Z
}.

Record lst := Lst {
  log : log_st;
  store_of : store
}.

Definition set_log (f : log_st → log_st) : M lst unit := modify (λ s, Lst (f (log s)) (store_of s)).
Definition on_store {A} (m : M store A) : M lst A :=
  zoom store_of (λ st s, Lst (log s) st) m.

Definition set_n (n : Z) (l : log_st) : log_st :=
  Log (lg_start l) (lg_size l) (outstanding l) (committing l) n (lh_block l).
Definition set_outstanding (n : Z) (l : log_st) : log_st :=
  Log (lg_start l) (lg_size l) n (committing l) (lh_n l) (lh_block l).
Definition set_committing (b : bool) (l : log_st) : log_st :=
  Log (lg_start l) (lg_size l) (outstanding l) b (lh_n l) (lh_block l).
Definition set_lh_block (i : nat) (v : Z) (l : log_st) : log_st :=
  Log (lg_start l) (lg_size l) (outstanding l) (committing l) (lh_n l) (<[i := v]> (lh_block l)).

(** [log.lh.block[i]] as a value. *)
Definition lh_get (i : nat) : M lst Z := o <- gets (λ s, lh_block (log s) !! i) ;; deref o.
(** A store to [log.lh.block[i]]. *)
Definition lh_put (i : nat) (v : Z) : M lst unit :=
  len <- gets (λ s, length (lh_block (log s))) ;;
  if bool_decide (i < len)%nat then set_log (set_lh_block i v) else fail Fault.

(** Copy committed blocks from the log to their home locations: [n] rounds from
    [tail] on. *)
Fixpoint install_loop (n tail : nat) : M lst unit :=
  match n with
  | O => ret tt
  | S n' =>
      start <- gets (λ s, lg_start (log s)) ;;
      lbuf <- on_store (sread (start + Z.of_nat tail + 1)) ;;
      b <- lh_get tail ;;
      dbuf <- on_store (sread b) ;;
      on_store (swrite b lbuf) ;;;
      install_loop n' (S tail)
  end.

Definition install_trans : M lst unit :=
  n <- gets (λ s, lh_n (log s)) ;;
  install_loop (Z.to_nat n) 0.

(** The fields of struct logheader in a block. *)
Definition hd_n (l : block) : Z := s32 (get32 l 0).
Definition hd_block (l : block) (i : nat) : Z := s32 (get32 l (4 + 4 * i)).

Fixpoint read_head_loop (hb : block) (n i : nat) : M lst unit :=
  match n with
  | O => ret tt
  | S n' => lh_put i (hd_block hb i) ;;; read_head_loop hb n' (S i)
  end.

Definition read_head : M lst unit :=
  start <- gets (λ s, lg_start (log s)) ;;
  hb <- on_store (sread start) ;;
  set_log (set_n (hd_n hb)) ;;;
  read_head_loop hb (Z.to_nat (hd_n hb)) 0.

Fixpoint write_head_loop (n i : nat) (hb : block) : M lst block :=
  match n with
  | O => ret hb
  | S n' => b <- lh_get i ;; write_head_loop n' (S i) (put32 hb (4 + 4 * i) b)
  end.

Definition write_head : M lst unit :=
  start <- gets (λ s, lg_start (log s)) ;;
  hb <- on_store (sread start) ;;
  n <- gets (λ s, lh_n (log s)) ;;
  hb' <- write_head_loop (Z.to_nat n) 0 (put32 hb 0 n) ;;
  on_store (swrite start hb').

Definition recover_from_log : M lst unit :=
  read_head ;;;
  install_trans ;;;
  set_log (set_n 0) ;;;
  write_head.

(** fs.h: struct superblock, and fs.c: [readsb]. *)
Record superblock := Superblock {
  sb_size : Z;
  sb_nblocks : Z;
  sb_ninodes : Z;
  sb_nlog : Z;
  sb_logstart : Z;
  sb_inodestart : Z;
  sb_bmapstart : Z
}.

Definition decode_sb (l : block) : superblock :=
  Superblock (get32 l 0) (get32 l 4) (get32 l 8) (get32 l 12) (get32 l 16) (get32 l 20) (get32 l 24).

Definition readsb : M store superblock :=
  bp <- sread 1 ;; ret (decode_sb bp).

Definition initlog : M lst unit :=
  sb <- on_store readsb ;;
  set_log (λ l, Log (s32 (sb_logstart sb)) (s32 (sb_nlog sb)) (outstanding l) (committing l)
                    (lh_n l) (lh_block l)) ;;;
  recover_from_log.

(** One round of the loop of [begin_op]; a process that has to wait sleeps on
    the log. *)
Definition begin_op : M lst unit :=
  l <- gets log ;;
  if committing l then fail (Blocked "log")
  else if LOGSIZE <? lh_n l + (outstanding l + 1) * MAXOPBLOCKS then fail (Blocked "log")
  else set_log (λ l, set_outstanding (outstanding l + 1) l).

(** Copy modified blocks from the cache to the log. *)
Fixpoint write_log_loop (n tail : nat) : M lst unit :=
  match n with
  | O => ret tt
  | S n' =>
      start <- gets (λ s, lg_start (log s)) ;;
      to <- on_store (sread (start + Z.of_nat tail + 1)) ;;
      b <- lh_get tail ;;
      from <- on_store (sread b) ;;
      on_store (swrite (start + Z.of_nat tail + 1) from) ;;;
      write_log_loop n' (S tail)
  end.

Definition write_log : M lst unit :=
  n <- gets (λ s, lh_n (log s)) ;;
  write_log_loop (Z.to_nat n) 0.

Definition commit : M lst unit :=
  n <- gets (λ s, lh_n (log s)) ;;
  if 0 <? n then
    write_log ;;;
    write_head ;;;
    install_trans ;;;
    set_log (set_n 0) ;;;
    write_head
  else ret tt.

Definition end_op : M lst unit :=
  set_log (λ l, set_outstanding (outstanding l - 1) l) ;;;
  l <- gets log ;;
  if committing l then panic "log.committing"
  else if outstanding l =? 0 then
    set_log (set_committing true) ;;;
    commit ;;;
    set_log (set_committing false)
  else ret tt.

(** The loop of [log_write]: the index of [b] among the first [n] entries, or
    [n]. *)
Fixpoint absorb (b : Z) (n i : nat) (l : list Z) : nat :=
  match n, l with
  | S n', x :: l' => if u32 x =? b then i else absorb b n' (S i) l'
  | _, _ => i
  end.

(** [log_write] of the buffer of block [b], whose data the caller has made [d]. *)
Definition log_write (b : Z) (d : block) : M lst unit :=
  l <- gets log ;;
  if (LOGSIZE <=? lh_n l) || (lg_size l - 1 <=? lh_n l) then panic "too big a transaction"
  else if outstanding l <? 1 then panic "log_write outside of trans"
  else
    let i := absorb b (Z.to_nat (lh_n l)) 0 (lh_block l) in
    lh_put i (s32 b) ;;;
    (if Z.of_nat i =? lh_n l then set_log (set_n (lh_n l + 1)) else ret tt) ;;;
    on_store (pin b d).

(** ** Disk writes *)

(** A disk after some writes. *)
Definition apply (ws : list (Z * block)) (d : gmap Z block) : gmap Z block :=
  foldl (λ d w, <[w.1 := w.2]> d) d ws.

Definition wr (st : store) (w : Z * block) : store :=
  Store (<[w.1 := w.2]> (disk st)) (delete w.1 (pinned st)) (dsize st) (writes st ++ [w]).
Definition wr_all (st : store) (ws : list (Z * block)) : store := foldl wr st ws.

Section writes.
Implicit Types (d : gmap Z block) (ws : list (Z * block)) (ks : list Z) (vs : list block) (st : store).

Lemma apply_app ws ws' d : apply (ws ++ ws') d = apply ws' (apply ws d).
Proof. apply foldl_app. Qed.

Lemma wr_all_disk ws : ∀ st, disk (wr_all st ws) = apply ws (disk st).
Proof. induction ws as [|w ws IH]; intros st; [done|]. apply (IH (wr st w)). Qed.

Lemma wr_all_dsize ws : ∀ st, dsize (wr_all st ws) = dsize st.
Proof. induction ws as [|w ws IH]; intros st; [done|]. apply (IH (wr st w)). Qed.

Lemma wr_all_writes ws : ∀ st, writes (wr_all st ws) = writes st ++ ws.
Proof.
  induction ws as [|w ws IH]; intros st; [by rewrite app_nil_r|]. simpl.
  etrans; [apply (IH (wr st w))|]. simpl. by rewrite <-app_assoc.
Qed.

Lemma wr_all_pinned_ne ws k : ∀ st, k ∉ ws.*1 → pinned (wr_all st ws) !! k = pinned st !! k.
Proof.
  induction ws as [|w ws IH]; intros st; [done|]. simpl. intros [? ?]%not_elem_of_cons.
  etrans; [by apply IH|]. simpl. by rewrite lookup_delete_ne.
Qed.

Lemma wr_all_pinned_None ws k : ∀ st, k ∈ ws.*1 ∨ pinned st !! k = None → pinned (wr_all st ws) !! k = None.
Proof.
  induction ws as [|w ws IH]; intros st; simpl; [set_solver|].
  intros H. apply IH. simpl. destruct (decide (w.1 = k)) as [<-|].
  - right. apply lookup_delete_eq.
  - rewrite lookup_delete_ne by done. set_solver.
Qed.

Lemma blk_insert d k v k' : blk (<[k := v]> d) k' = if decide (k = k') then v else blk d k'.
Proof. unfold blk. case_decide; [subst; by rewrite lookup_insert_eq|by rewrite lookup_insert_ne]. Qed.

Lemma blk_apply_out ws k : ∀ d, k ∉ ws.*1 → blk (apply ws d) k = blk d k.
Proof.
  induction ws as [|w ws IH]; intros d; [done|]. simpl. intros [? ?]%not_elem_of_cons.
  etrans; [by apply IH|]. rewrite blk_insert. by rewrite decide_False.
Qed.

Lemma blk_apply_in ws k v : ∀ d, NoDup ws.*1 → (k, v) ∈ ws → blk (apply ws d) k = v.
Proof.
  induction ws as [|w ws IH]; intros d; simpl; [set_solver|].
  intros [Hn Hnd]%NoDup_cons [<-|Hin]%elem_of_cons; [|by apply IH].
  etrans; [by apply blk_apply_out|]. rewrite blk_insert. by rewrite decide_True.
Qed.

Lemma sview_wr_all_out ws st k : k ∉ ws.*1 → sview (wr_all st ws) k = sview st k.
Proof. intros Hk. unfold sview. rewrite wr_all_disk, wr_all_pinned_ne, blk_apply_out by done. done. Qed.

Lemma fst_zip_incl ks vs k : k ∈ (zip ks vs).*1 → k ∈ ks.
Proof.
  revert vs. induction ks as [|x ks IH]; intros [|v vs]; simpl; [set_solver..|].
  intros [->|H%IH]%elem_of_cons; set_solver.
Qed.

Lemma NoDup_fst_zip ks vs : NoDup ks → NoDup (zip ks vs).*1.
Proof.
  revert vs. induction ks as [|x ks IH]; intros [|v vs]; simpl; try (intros; constructor).
  - apply NoDup_cons in H as [Hn _]. by intros ?%fst_zip_incl.
  - apply NoDup_cons in H as [_ H]. by apply IH.
Qed.

Lemma zip_lookup_in ks vs i k v : ks !! i = Some k → vs !! i = Some v → (k, v) ∈ zip ks vs.
Proof.
  intros Hk Hv. apply list_elem_of_lookup. exists i. rewrite lookup_zip_with, Hk. simpl. by rewrite Hv.
Qed.

Lemma take_zip p ks vs : take p (zip ks vs) = zip (take p ks) (take p vs).
Proof.
  revert ks vs. induction p as [|p IH]; intros [|k ks] [|v vs]; simpl; try done. by rewrite IH.
Qed.

End writes.

(** ** The header block *)

(** The blocks a header names. *)
Definition hd_list (l : block) : list Z := hd_block l <$> seq 0 (Z.to_nat (hd_n l)).

(** The header block as [write_head] leaves it. *)
Fixpoint enc_blocks (i : nat) (bs : list Z) (hb : block) : block :=
  match bs with
  | [] => hb
  | b :: bs' => enc_blocks (S i) bs' (put32 hb (4 + 4 * i) b)
  end.
Definition enc_head (bs : list Z) (hb : block) : block := enc_blocks 0 bs (put32 hb 0 (Z.of_nat (length bs))).

(** Block numbers that fit an [int]. *)
Definition int_block (b : Z) : Prop := 0 ≤ b < 2147483648.

Lemma length_enc_blocks bs : ∀ i hb, length (enc_blocks i bs hb) = length hb.
Proof.
  induction bs as [|b bs IH]; intros i hb; simpl; [done|]. by rewrite IH, length_put32.
Qed.

Lemma get32_enc_blocks_ne bs : ∀ i hb o, length hb = 512%nat → (i + length bs ≤ 30)%nat →
  (o + 4 ≤ 4 + 4 * i)%nat → get32 (enc_blocks i bs hb) o = get32 hb o.
Proof.
  induction bs as [|b bs IH]; intros i hb o Hl Hi Ho; simpl in *; [done|].
  rewrite IH by (rewrite ?length_put32; lia). apply get32_put32_ne; lia.
Qed.

Lemma hd_block_enc bs : ∀ i hb j b, length hb = 512%nat → (i + length bs ≤ 30)%nat →
  bs !! j = Some b → int_block b → hd_block (enc_blocks i bs hb) (i + j) = b.
Proof.
  unfold int_block.
  induction bs as [|c bs IH]; intros i hb [|j] b Hl Hi Hj Hb; simplify_eq/=.
  - unfold hd_block. rewrite get32_enc_blocks_ne by (rewrite ?length_put32; lia).
    replace (4 + 4 * (i + 0))%nat with (4 + 4 * i)%nat by lia.
    rewrite get32_put32_eq by lia. rewrite u32_small, s32_small; lia.
  - replace (i + S j)%nat with (S i + j)%nat by lia. apply IH; rewrite ?length_put32; try done. lia.
Qed.

(** The header read back. *)
Lemma hd_list_enc bs hb : length hb = 512%nat → (length bs ≤ 30)%nat → Forall int_block bs →
  hd_n (enc_head bs hb) = Z.of_nat (length bs) ∧ hd_list (enc_head bs hb) = bs ∧
  length (enc_head bs hb) = 512%nat.
Proof.
  intros Hl Hn Hbs.
  assert (Hn' : hd_n (enc_head bs hb) = Z.of_nat (length bs)).
  { unfold hd_n, enc_head. rewrite get32_enc_blocks_ne by (rewrite ?length_put32; lia).
    rewrite get32_put32_eq by lia. rewrite u32_small, s32_small; lia. }
  split_and!; [done| |unfold enc_head; by rewrite length_enc_blocks, length_put32].
  unfold hd_list. rewrite Hn', Nat2Z.id. apply list_eq. intros j.
  rewrite list_lookup_fmap. destruct (bs !! j) as [b|] eqn:Hj.
  - assert (j < length bs)%nat by (by eapply lookup_lt_Some).
    rewrite lookup_seq_lt by done. simpl. f_equal. unfold enc_head.
    apply (hd_block_enc bs 0); [by rewrite length_put32|lia|done|]. by eapply Forall_lookup_1.
  - apply lookup_ge_None in Hj. rewrite lookup_seq_ge by done. done.
Qed.

(** ** Running the loops *)

Section runs.
Context {A : Type}.
Implicit Types (l : log_st) (st : store) (bs : list Z).

Lemma bind_sread k st l (f : block → M lst A) : 0 ≤ k < dsize st → dsize st ≤ 2147483648 →
  bind (on_store (sread k)) f (Lst l st) = f (sview st k) (Lst l st).
Proof.
  intros Hk Hd. unfold bind, on_store, zoom, sread, bind, get. cbn.
  rewrite u32_small by lia. rewrite (proj2 (Z.leb_gt _ _)) by lia. done.
Qed.

Lemma bind_swrite k d st l (f : unit → M lst A) : 0 ≤ k < 2147483648 →
  bind (on_store (swrite k d)) f (Lst l st) = f tt (Lst l (wr st (k, d))).
Proof. intros Hk. unfold bind, on_store, zoom, swrite, modify. cbn. by rewrite u32_small by lia. Qed.

Lemma bind_lh_get i b st l (f : Z → M lst A) : lh_block l !! i = Some b →
  bind (lh_get i) f (Lst l st) = f b (Lst l st).
Proof. intros Hi. unfold bind, lh_get, bind, gets, deref. cbn. by rewrite Hi. Qed.

End runs.

(** The entries of [log.lh.block] from [tail] on are [bs]. *)
Definition entries (l : log_st) (tail : nat) (bs : list Z) : Prop :=
  ∀ i b, bs !! i = Some b → lh_block l !! (tail + i)%nat = Some b.

Lemma entries_cons l tail b bs : entries l tail (b :: bs) →
  lh_block l !! tail = Some b ∧ entries l (S tail) bs.
Proof.
  intros H. split.
  - rewrite <-(H 0%nat b) by done. f_equal. lia.
  - intros i c Hi. rewrite <-(H (S i) c) by done. f_equal. lia.
Qed.

(** The log blocks from [tail] on. *)
Definition logblocks (start : Z) (tail n : nat) : list Z :=
  (λ i, start + Z.of_nat i + 1) <$> seq tail n.

Lemma logblocks_elem start tail n k : k ∈ logblocks start tail n ↔
  ∃ i, (tail ≤ i < tail + n)%nat ∧ k = start + Z.of_nat i + 1.
Proof.
  unfold logblocks. rewrite list_elem_of_fmap. split.
  - intros (i & -> & Hi%elem_of_seq). eauto with lia.
  - intros (i & Hi & ->). exists i. split; [done|]. apply elem_of_seq. lia.
Qed.

Lemma logblocks_NoDup start tail n : NoDup (logblocks start tail n).
Proof.
  unfold logblocks. apply NoDup_fmap_2; [intros i j ?; lia|apply NoDup_seq].
Qed.

Lemma logblocks_lookup start tail n i : (i < n)%nat →
  logblocks start tail n !! i = Some (start + Z.of_nat (tail + i) + 1).
Proof. intros Hi. unfold logblocks. rewrite list_lookup_fmap, lookup_seq_lt by done. done. Qed.

(** Block numbers within the disk. *)
Definition on_disk (st : store) (b : Z) : Prop := 0 ≤ b < dsize st.

Section loops.
Variables (l : log_st).

Lemma write_log_loop_run bs : ∀ tail st, dsize st ≤ 2147483648 → entries l tail bs →
  Forall (on_disk st) bs → Forall (on_disk st) (logblocks (lg_start l) tail (length bs)) →
  (∀ b, b ∈ bs → b ∉ logblocks (lg_start l) tail (length bs)) →
  write_log_loop (length bs) tail (Lst l st) =
  Ok tt (Lst l (wr_all st (zip (logblocks (lg_start l) tail (length bs)) (sview st <$> bs)))).
Proof.
  induction bs as [|b bs IH]; intros tail st Hd He Hb Hl Hdis; [done|].
  apply entries_cons in He as [Hb0 He]. cbn [length logblocks seq fmap list_fmap] in *.
  apply Forall_cons in Hb as [Hb1 Hb], Hl as [Hl1 Hl]. cbn [write_log_loop]. unfold on_disk in *.
  rewrite bind_gets. rewrite bind_sread by done. erewrite bind_lh_get by done.
  rewrite bind_sread by done. cbn [log]. rewrite bind_swrite by lia.
  assert (Hv : sview (wr st (lg_start l + Z.of_nat tail + 1, sview st b)) <$> bs = sview st <$> bs).
  { apply list_fmap_ext. intros i c Hc%list_elem_of_lookup_2.
    apply (sview_wr_all_out [_] st). simpl. intros Hin. apply (Hdis c); set_solver. }
  rewrite IH; [by rewrite Hv|done..|]. intros c Hc Hin. apply (Hdis c); set_solver.
Qed.

Lemma install_loop_run bs : ∀ tail st, dsize st ≤ 2147483648 → entries l tail bs →
  Forall (on_disk st) bs → Forall (on_disk st) (logblocks (lg_start l) tail (length bs)) →
  (∀ b, b ∈ bs → b ∉ logblocks (lg_start l) tail (length bs)) →
  install_loop (length bs) tail (Lst l st) =
  Ok tt (Lst l (wr_all st (zip bs (sview st <$> logblocks (lg_start l) tail (length bs))))).
Proof.
  induction bs as [|b bs IH]; intros tail st Hd He Hb Hl Hdis; [done|].
  apply entries_cons in He as [Hb0 He]. cbn [length logblocks seq fmap list_fmap] in *.
  apply Forall_cons in Hb as [Hb1 Hb], Hl as [Hl1 Hl]. cbn [install_loop]. unfold on_disk in *.
  rewrite bind_gets. rewrite bind_sread by done. erewrite bind_lh_get by done.
  rewrite bind_sread by done. cbn [log]. rewrite bind_swrite by lia.
  assert (Hv : sview (wr st (b, sview st (lg_start l + Z.of_nat tail + 1))) <$>
                 logblocks (lg_start l) (S tail) (length bs) =
               sview st <$> logblocks (lg_start l) (S tail) (length bs)).
  { apply list_fmap_ext. intros i c Hc%list_elem_of_lookup_2.
    apply (sview_wr_all_out [_] st). simpl. intros ->%list_elem_of_singleton.
    apply (Hdis b); [by left|]. by right. }
  rewrite IH; [|done..|].
  - by rewrite Hv.
  - intros c Hc Hin. apply (Hdis c); [by right|by right].
Qed.

Lemma write_head_loop_run bs st : ∀ i hb, entries l i bs →
  write_head_loop (length bs) i hb (Lst l st) = Ok (enc_blocks i bs hb) (Lst l st).
Proof.
  induction bs as [|b bs IH]; intros i hb He; [done|]. apply entries_cons in He as [Hb He].
  cbn [length write_head_loop]. erewrite bind_lh_get by done. by apply IH.
Qed.

Lemma write_head_run bs st : dsize st ≤ 2147483648 → on_disk st (lg_start l) →
  entries l 0 bs → lh_n l = Z.of_nat (length bs) →
  write_head (Lst l st) =
  Ok tt (Lst l (wr st (lg_start l, enc_head bs (sview st (lg_start l))))).
Proof.
  unfold on_disk. intros Hd Hs He Hn. unfold write_head. rewrite bind_gets. cbn [log].
  rewrite bind_sread by done. rewrite bind_gets. cbn [log]. rewrite Hn, Nat2Z.id.
  erewrite bind_ok by (by apply write_head_loop_run).
  unfold on_store, zoom, swrite, modify. cbn. by rewrite u32_small by lia.
Qed.

End loops.

Lemma read_head_loop_run hb n : ∀ i l st, (i + n ≤ length (lh_block l))%nat →
  ∃ bs', read_head_loop hb n i (Lst l st) =
    Ok tt (Lst (Log (lg_start l) (lg_size l) (outstanding l) (committing l) (lh_n l) bs') st) ∧
    length bs' = length (lh_block l) ∧
    (∀ j, (i ≤ j < i + n)%nat → bs' !! j = Some (hd_block hb j)) ∧
    (∀ j, (j < i)%nat → bs' !! j = lh_block l !! j).
Proof.
  induction n as [|n IH]; intros i l st Hn.
  - exists (lh_block l). split_and!; try done; [by destruct l|lia].
  - destruct (IH (S i) (set_lh_block i (hd_block hb i) l) st) as (bs' & Hrun & Hlen & Hin & Hout).
    { simpl. rewrite length_insert. lia. }
    exists bs'. simpl in *. rewrite length_insert in Hlen. split_and!; try done.
    + unfold lh_put. rewrite bind_assoc, bind_gets. cbn [log].
      rewrite bool_decide_eq_true_2 by lia. unfold set_log. rewrite bind_modify. cbn [log store_of]. done.
    + intros j Hj. destruct (decide (j = i)) as [->|]; [|apply Hin; lia].
      rewrite Hout by lia. apply list_lookup_insert_eq. lia.
    + intros j Hj. rewrite Hout by lia. apply list_lookup_insert_ne. lia.
Qed.

(** ** The logical disk *)

Section logical.
Variables (start size dsz : Z).

(** The blocks outside the log. *)
Definition home (k : Z) : Prop := 0 ≤ k < dsz ∧ ¬ (start ≤ k < start + size).

Definition layout : Prop := 0 ≤ start ∧ 1 ≤ size ∧ start + size ≤ dsz ∧ dsz ≤ 2147483648.

(** Home locations of a transaction that fits the log. *)
Record tx_ok (bs : list Z) : Prop := {
  tx_nodup : NoDup bs;
  tx_home : Forall home bs;
  tx_logsize : Z.of_nat (length bs) ≤ LOGSIZE;
  tx_size : Z.of_nat (length bs) ≤ size - 1
}.

(** What a recovery makes of the disk [d]. *)
Definition logical (d : gmap Z block) (k : Z) : block :=
  match list_find (k =.) (hd_list (blk d start)) with
  | Some (i, _) => blk d (start + Z.of_nat i + 1)
  | None => blk d k
  end.

(** A disk whose log header is in order. *)
Record wf_disk (d : gmap Z block) : Prop := {
  wd_len : length (blk d start) = 512%nat;
  wd_n : 0 ≤ hd_n (blk d start);
  wd_tx : tx_ok (hd_list (blk d start))
}.

Hypothesis Hlay : layout.

Lemma logical_in d i k : NoDup (hd_list (blk d start)) → hd_list (blk d start) !! i = Some k →
  logical d k = blk d (start + Z.of_nat i + 1).
Proof.
  intros Hnd Hi. unfold logical. destruct (list_find _ _) as [[j x]|] eqn:E.
  - apply list_find_Some in E as (Hj & -> & _). by rewrite (NoDup_lookup _ _ _ _ Hnd Hi Hj).
  - apply list_find_None in E. rewrite Forall_lookup in E. by destruct (E i k Hi).
Qed.

Lemma logical_out d k : k ∉ hd_list (blk d start) → logical d k = blk d k.
Proof.
  intros Hk. unfold logical. destruct (list_find _ _) as [[j x]|] eqn:E; [|done].
  apply list_find_Some in E as (Hj & -> & _). destruct Hk. by eapply list_elem_of_lookup_2.
Qed.

Lemma home_not_log bs n : tx_ok bs → (n ≤ length bs)%nat → ∀ k, home k →
  k ≠ start ∧ k ∉ logblocks start 0 n.
Proof.
  intros [_ _ _ Hs] Hn k [_ Hk]. destruct Hlay as (? & ? & ? & ?). split; [lia|].
  intros (i & Hi & ->)%logblocks_elem. lia.
Qed.

Lemma tx_logblocks_on_disk bs st : tx_ok bs → dsize st = dsz →
  Forall (on_disk st) (logblocks start 0 (length bs)).
Proof.
  intros [_ _ _ Hs] Hd. destruct Hlay as (? & ? & ? & ?). apply Forall_forall.
  intros k (i & Hi & ->)%logblocks_elem. unfold on_disk. lia.
Qed.

Lemma tx_on_disk bs st : tx_ok bs → dsize st = dsz → Forall (on_disk st) bs.
Proof. intros [_ Hh _ _] Hd. eapply Forall_impl; [done|]. intros k [? _]. unfold on_disk. lia. Qed.

Lemma tx_int bs : tx_ok bs → Forall int_block bs.
Proof.
  intros [_ Hh _ _]. destruct Hlay as (? & ? & ? & ?).
  eapply Forall_impl; [done|]. intros k [? _]. unfold int_block. lia.
Qed.

Lemma tx_disjoint bs : tx_ok bs → ∀ b, b ∈ bs → b ∉ logblocks start 0 (length bs).
Proof.
  intros Htx b Hb. eapply (home_not_log bs); [done|lia|].
  destruct Htx as [_ Hh _ _]. rewrite Forall_forall in Hh. auto.
Qed.

Lemma tx_nil : tx_ok [].
Proof. destruct Hlay as (? & ? & ? & ?). split; simpl; [constructor..|unfold LOGSIZE, MAXOPBLOCKS; lia|lia]. Qed.

(** The writes of an installation of the blocks that the header of [d] names. *)
Definition install_writes (d : gmap Z block) (bs : list Z) : list (Z * block) :=
  zip bs (blk d <$> logblocks start 0 (length bs)).

Lemma length_install_writes d bs : length (install_writes d bs) = length bs.
Proof. unfold install_writes. rewrite length_zip, length_fmap. unfold logblocks. rewrite length_fmap, length_seq. lia. Qed.

(** Part of an installation changes neither the log nor the logical disk. *)
Lemma install_prefix d bs p : tx_ok bs → hd_list (blk d start) = bs →
  let d' := apply (take p (install_writes d bs)) d in
  (∀ k, ¬ home k → 0 ≤ k < dsz → blk d' k = blk d k) ∧ ∀ k, home k → logical d' k = logical d k.
Proof.
  intros Htx Hbs d'. pose proof (tx_nodup _ Htx) as Hnd. pose proof (tx_home _ Htx) as Hh.
  rewrite Forall_forall in Hh.
  assert (Hout : ∀ k, k ∉ bs → blk d' k = blk d k).
  { intros k Hk. apply blk_apply_out. unfold install_writes. rewrite take_zip.
    intros Hin%fst_zip_incl%elem_of_take. destruct Hin as (i & Hi & _).
    apply Hk. by eapply list_elem_of_lookup_2. }
  assert (Hlog : ∀ k, ¬ home k → 0 ≤ k < dsz → blk d' k = blk d k) by (intros k Hk _; apply Hout; auto).
  split; [done|]. intros k Hk. destruct Hlay as (? & ? & ? & ?).
  assert (Hst : blk d' start = blk d start) by (apply Hlog; [intros [_ []]|]; lia).
  destruct (decide (k ∈ bs)) as [[i Hi]%list_elem_of_lookup|Hn].
  - rewrite !(logical_in _ i) by (by rewrite ?Hst, Hbs). apply Hlog.
    + intros [_ []]. apply lookup_lt_Some in Hi. pose proof (tx_size _ Htx). lia.
    + apply lookup_lt_Some in Hi. pose proof (tx_size _ Htx). lia.
  - rewrite !logical_out by (by rewrite ?Hst, Hbs). by apply Hout.
Qed.

Lemma install_all d bs k : tx_ok bs → hd_list (blk d start) = bs →
  blk (apply (install_writes d bs) d) k = logical d k.
Proof.
  intros Htx Hbs. pose proof (tx_nodup _ Htx) as Hnd.
  destruct (decide (k ∈ bs)) as [[i Hi]%list_elem_of_lookup|Hn].
  - rewrite (logical_in _ i) by (by rewrite Hbs). apply blk_apply_in; [by apply NoDup_fst_zip|].
    eapply zip_lookup_in; [done|]. rewrite list_lookup_fmap, logblocks_lookup; [done|].
    by eapply lookup_lt_Some.
  - rewrite logical_out by (by rewrite Hbs). apply blk_apply_out. by intros ?%fst_zip_incl.
Qed.

(** Writing an empty header makes the installed blocks the logical ones. *)
Lemma logical_empty d : hd_n (blk d start) = 0 → ∀ k, logical d k = blk d k.
Proof. intros Hn k. apply logical_out. unfold hd_list. rewrite Hn. apply not_elem_of_nil. Qed.

Lemma hd_list_empty hb : hd_n hb = 0 → hd_list hb = [].
Proof. intros Hn. unfold hd_list. by rewrite Hn. Qed.

End logical.

(** ** Installing and clearing a transaction *)

(** The writes that end both a commit and a recovery. *)
Definition clear_writes (start : Z) (d : gmap Z block) (bs : list Z) : list (Z * block) :=
  install_writes start d bs ++ [(start, enc_head [] (blk d start))].

Section install_clear.
Variables (l : log_st) (dsz : Z).
#[local] Abbreviation start := (lg_start l).
#[local] Abbreviation size := (lg_size l).
Hypothesis Hlay : layout start size dsz.

Lemma not_home k : start ≤ k < start + size → ¬ home start size dsz k.
Proof. intros Hk [_ []]. done. Qed.

Lemma install_clear_run st bs : dsize st = dsz → tx_ok start size dsz bs → entries l 0 bs →
  lh_n l = Z.of_nat (length bs) → (∀ k, start ≤ k < start + size → pinned st !! k = None) →
  (install_trans ;;; set_log (set_n 0) ;;; write_head) (Lst l st) =
  Ok tt (Lst (set_n 0 l) (wr_all st (clear_writes start (disk st) bs))).
Proof.
  intros Hd Htx He Hn Hpin. pose proof Hlay as (? & ? & ? & ?).
  unfold install_trans. rewrite bind_assoc, bind_gets. cbn [log]. rewrite Hn, Nat2Z.id.
  erewrite bind_ok; [|apply install_loop_run; [lia|done|by eapply tx_on_disk|by eapply tx_logblocks_on_disk|by eapply tx_disjoint]].
 
  assert (Hv : sview st <$> logblocks start 0 (length bs) = blk (disk st) <$> logblocks start 0 (length bs)).
  { apply list_fmap_ext. intros i k Hk%list_elem_of_lookup_2. apply logblocks_elem in Hk as (j & Hj & ->).
    unfold sview. rewrite Hpin; [done|]. pose proof (tx_size _ _ _ _ Htx). lia. }
  rewrite Hv. fold (install_writes start (disk st) bs).
  unfold set_log. rewrite bind_modify. cbn [log store_of].
  set (st1 := wr_all st (install_writes start (disk st) bs)).
  rewrite (write_head_run (set_n 0 l) [] st1); [|..].
  - unfold clear_writes. cbn [lg_start set_n]. unfold wr_all. rewrite foldl_app. cbn [foldl].
    fold (wr_all st (install_writes start (disk st) bs)). fold st1.
    assert (sview st1 start = blk (disk st) start) as ->; [|done].
    unfold st1. rewrite sview_wr_all_out; [|].
    + unfold sview. by rewrite Hpin by lia.
    + intros Hin%fst_zip_incl. pose proof (tx_home _ _ _ _ Htx) as Hh. rewrite Forall_forall in Hh.
      by apply Hh, not_home in Hin; lia.
  - unfold st1. rewrite wr_all_dsize. lia.
  - unfold on_disk, st1. rewrite wr_all_dsize. cbn. lia.
  - by intros i b.
  - done.
Qed.

(** At every point of these writes the disk is in order and its logical
    contents are those before. *)
Lemma install_clear_prefix d bs p : wf_disk start size dsz d → hd_list (blk d start) = bs →
  let d' := apply (take p (clear_writes start d bs)) d in
  wf_disk start size dsz d' ∧ ∀ k, home start size dsz k → logical start d' k = logical start d k.
Proof.
  intros Hwf Hbs d'. pose proof Hwf as [Hlen Hn Htx]. rewrite Hbs in Htx.
  pose proof Hlay as (? & ? & ? & ?).
  assert (Hst : ¬ home start size dsz start) by (apply not_home; lia).
  destruct (decide (p ≤ length bs)%nat) as [Hp|Hp].
  - destruct (install_prefix start size dsz Hlay d bs p Htx Hbs) as [Hlog Hl].
    assert (E : d' = apply (take p (install_writes start d bs)) d).
    { unfold d', clear_writes. rewrite take_app_le; [done|]. rewrite length_install_writes. lia. }
    rewrite E. split; [|done]. split; rewrite Hlog by (done || lia); by rewrite ?Hbs.
  - assert (E : d' = <[start := enc_head [] (blk d start)]> (apply (install_writes start d bs) d)).
    { unfold d', clear_writes. rewrite take_ge; [|rewrite length_app, length_install_writes; simpl; lia].
      by rewrite apply_app. }
    destruct (hd_list_enc [] (blk d start) Hlen) as (Hn0 & Hl0 & Hlen0); [simpl; lia|done|].
    assert (Hs' : blk d' start = enc_head [] (blk d start)) by (rewrite E, blk_insert; by rewrite decide_True).
    split.
    + split; rewrite Hs'; [done|by rewrite Hn0|]. rewrite Hl0. by eapply tx_nil.
    + intros k Hk. rewrite logical_empty by (by rewrite Hs', Hn0).
      rewrite E, blk_insert, decide_False by congruence. by eapply install_all.
Qed.

Lemma install_clear_final d bs : wf_disk start size dsz d → hd_list (blk d start) = bs →
  let d' := apply (clear_writes start d bs) d in
  hd_n (blk d' start) = 0 ∧ ∀ k, home start size dsz k → blk d' k = logical start d k.
Proof.
  intros Hwf Hbs d'. pose proof (wd_len _ _ _ _ Hwf) as Hlen.
  destruct (hd_list_enc [] (blk d start) Hlen) as (Hn0 & Hl0 & Hlen0); [simpl; lia|done|].
  assert (Hn' : hd_n (blk d' start) = 0).
  { unfold d', clear_writes. rewrite apply_app. cbn [apply foldl fst snd]. by rewrite blk_insert, decide_True. }
  split; [done|]. intros k Hk.
  destruct (install_clear_prefix d bs (length (clear_writes start d bs)) Hwf Hbs) as [_ Hl].
  rewrite <-(Hl k Hk), firstn_all, logical_empty; done.
Qed.

End install_clear.

(** ** Recovery *)

(** The memory of a machine that boots with disk [d]. *)
Definition rebooted (l : log_st) (dsz : Z) (d : gmap Z block) : lst := Lst l (Store d ∅ dsz []).

(** A recovery of disk [d], which any number of crashes may cut short before
    one is completed. *)
Inductive recovers (l : log_st) (dsz : Z) : gmap Z block → gmap Z block → Prop :=
| recovers_done d s : recover_from_log (rebooted l dsz d) = Ok tt s → recovers l dsz d (disk (store_of s))
| recovers_crash d s p d' : recover_from_log (rebooted l dsz d) = Ok tt s →
    recovers l dsz (apply (take p (writes (store_of s))) d) d' → recovers l dsz d d'.

Section recovery.
Variables (l : log_st) (dsz : Z).
#[local] Abbreviation start := (lg_start l).
#[local] Abbreviation size := (lg_size l).
Hypothesis Hlay : layout start size dsz.
Hypothesis Hlen : length (lh_block l) = Z.to_nat LOGSIZE.

Lemma recover_run st : dsize st = dsz → wf_disk start size dsz (disk st) →
  (∀ k, pinned st !! k = None) →
  ∃ l', recover_from_log (Lst l st) =
    Ok tt (Lst l' (wr_all st (clear_writes start (disk st) (hd_list (blk (disk st) start))))) ∧
    lg_start l' = start ∧ lg_size l' = size ∧ lh_n l' = 0 ∧ length (lh_block l') = Z.to_nat LOGSIZE.
Proof.
  intros Hd Hwf Hpin. pose proof Hwf as [Hl0 Hn Htx]. pose proof Hlay as (? & ? & ? & ?).
  set (hb := blk (disk st) start) in *. set (bs := hd_list hb) in *.
  assert (Hlb : length bs = Z.to_nat (hd_n hb)) by (unfold bs, hd_list; by rewrite length_fmap, length_seq).
  assert (Hhb : sview st start = hb) by (unfold sview; by rewrite Hpin).
  destruct (read_head_loop_run hb (Z.to_nat (hd_n hb)) 0 (set_n (hd_n hb) l) st)
    as (arr & Hrun & Hla & Hin & _).
  { simpl. rewrite Hlen, <-Hlb. pose proof (tx_logsize _ _ _ _ Htx). lia. }
  set (l1 := Log start size (outstanding l) (committing l) (hd_n hb) arr) in *.
  exists (set_n 0 l1). split_and!; [|done|done|done|by etrans].
  unfold recover_from_log, read_head. rewrite bind_assoc, bind_gets. cbn [log].
  rewrite bind_assoc, bind_sread by lia. rewrite Hhb. unfold set_log at 1.
  rewrite bind_assoc, bind_modify. cbn [log store_of]. erewrite bind_ok by exact Hrun.
  cbn [lg_start lg_size outstanding committing lh_n set_n]. fold l1.
  apply (install_clear_run l1 dsz); try done.
  - intros i b Hi. unfold bs, hd_list in Hi. rewrite list_lookup_fmap in Hi.
    apply fmap_Some in Hi as (j & Hj & ->). apply lookup_seq in Hj as [-> Hj]. simpl. apply Hin. lia.
  - simpl. rewrite Hlb. lia.
Qed.

Lemma recover_prefix d p s : wf_disk start size dsz d → recover_from_log (rebooted l dsz d) = Ok tt s →
  let d' := apply (take p (writes (store_of s))) d in
  wf_disk start size dsz d' ∧ (∀ k, home start size dsz k → logical start d' k = logical start d k).
Proof.
  intros Hwf Hr. destruct (recover_run (Store d ∅ dsz []) eq_refl Hwf) as (l' & Hr' & _); [done|].
  unfold rebooted in Hr. rewrite Hr' in Hr. injection Hr as <-. cbn [store_of].
  rewrite wr_all_writes. cbn [writes app disk]. by apply install_clear_prefix.
Qed.

Lemma recover_final d s : wf_disk start size dsz d → recover_from_log (rebooted l dsz d) = Ok tt s →
  let d' := disk (store_of s) in
  lh_n (log s) = 0 ∧ hd_n (blk d' start) = 0 ∧ ∀ k, home start size dsz k → blk d' k = logical start d k.
Proof.
  intros Hwf Hr. destruct (recover_run (Store d ∅ dsz []) eq_refl Hwf) as (l' & Hr' & _ & _ & Hn & _); [done|].
  unfold rebooted in Hr. rewrite Hr' in Hr. injection Hr as <-. cbn [store_of log].
  rewrite wr_all_disk. cbn [disk]. split; [done|]. by apply install_clear_final.
Qed.

Lemma recovers_logical d d' : wf_disk start size dsz d → recovers l dsz d d' →
  hd_n (blk d' start) = 0 ∧ ∀ k, home start size dsz k → blk d' k = logical start d k.
Proof.
  intros Hwf Hr. induction Hr as [d s Hr|d s p d' Hr _ IH].
  - destruct (recover_final d s Hwf Hr) as (_ & ? & ?). done.
  - destruct (recover_prefix d p s Hwf Hr) as [Hwf' Hl]. destruct (IH Hwf') as [Hn Hb].
    split; [done|]. intros k Hk. rewrite Hb, Hl; done.
Qed.

End recovery.

(** ** Commit *)

(** A log with the blocks [bs] to commit: the log on disk is empty, the blocks
    are distinct home blocks that fit the log, and nothing else is pinned. *)
Record log_ready (dsz : Z) (l : log_st) (st : store) (bs : list Z) : Prop := {
  lr_dsize : dsize st = dsz;
  lr_lay : layout (lg_start l) (lg_size l) dsz;
  lr_len : length (lh_block l) = Z.to_nat LOGSIZE;
  lr_n : lh_n l = Z.of_nat (length bs);
  lr_entries : entries l 0 bs;
  lr_tx : tx_ok (lg_start l) (lg_size l) dsz bs;
  lr_pinned : ∀ k, is_Some (pinned st !! k) → k ∈ bs;
  lr_head : length (blk (disk st) (lg_start l)) = 512%nat;
  lr_empty : hd_n (blk (disk st) (lg_start l)) = 0
}.

Section commit.
Variables (dsz : Z) (l : log_st) (st : store) (bs : list Z).
#[local] Abbreviation start := (lg_start l).
#[local] Abbreviation size := (lg_size l).
Hypothesis Hr : log_ready dsz l st bs.

(** The writes of a commit up to the commit point. *)
Definition body_writes : list (Z * block) :=
  zip (logblocks start 0 (length bs)) (sview st <$> bs).
Definition log_writes : list (Z * block) :=
  body_writes ++ [(start, enc_head bs (blk (disk st) start))].
Definition commit_writes : list (Z * block) :=
  log_writes ++ clear_writes start (apply log_writes (disk st)) bs.

Lemma length_body_writes : length body_writes = length bs.
Proof.
  unfold body_writes. rewrite length_zip, length_fmap. unfold logblocks.
  rewrite length_fmap, length_seq. lia.
Qed.

Lemma unpinned k : k ∉ bs → pinned st !! k = None.
Proof. intros Hk. apply eq_None_not_Some. by intros ?%(lr_pinned _ _ _ _ Hr). Qed.

Lemma log_unpinned k : start ≤ k < start + size → pinned st !! k = None.
Proof.
  intros Hk. apply unpinned. intros Hin. pose proof (tx_home _ _ _ _ (lr_tx _ _ _ _ Hr)) as Hh.
  rewrite Forall_forall in Hh. destruct (Hh k Hin) as [_ []]. done.
Qed.

(** Before the commit point the home blocks are untouched and the header is
    empty. *)
Lemma body_prefix p : let d := apply (take p body_writes) (disk st) in
  ∀ k, k ∉ logblocks start 0 (length bs) → blk d k = blk (disk st) k.
Proof.
  intros d k Hk. apply blk_apply_out. unfold body_writes. rewrite take_zip.
  intros Hin%fst_zip_incl%elem_of_take. destruct Hin as (i & Hi & _). apply Hk.
  by eapply list_elem_of_lookup_2.
Qed.

Lemma start_not_log : start ∉ logblocks start 0 (length bs).
Proof. intros (i & Hi & ?)%logblocks_elem. lia. Qed.

Lemma before_commit p : let d := apply (take p body_writes) (disk st) in
  wf_disk start size dsz d ∧ ∀ k, home start size dsz k → logical start d k = blk (disk st) k.
Proof.
  intros d. pose proof (body_prefix p) as Hb. cbn zeta in Hb. fold d in Hb.
  pose proof (Hb _ start_not_log) as Hs. destruct Hr as [Hd Hlay _ _ _ Htx _ Hlen Hn]. split.
  - split; rewrite Hs; [done|by rewrite Hn|]. rewrite hd_list_empty by done. by eapply tx_nil.
  - intros k Hk. rewrite logical_empty by (by rewrite Hs). apply Hb.
    by eapply (home_not_log _ _ _ Hlay bs).
Qed.

(** The commit point. *)
Lemma at_commit : let d := apply log_writes (disk st) in
  wf_disk start size dsz d ∧ hd_list (blk d start) = bs ∧
  ∀ k, home start size dsz k → logical start d k = sview st k.
Proof.
  intros d. pose proof Hr as [Hd Hlay _ _ _ Htx _ Hlen Hn].
  destruct (hd_list_enc bs _ Hlen) as (Hn' & Hl' & Hlen').
  { pose proof (tx_logsize _ _ _ _ Htx). unfold LOGSIZE, MAXOPBLOCKS in *. lia. }
  { by eapply tx_int. }
  assert (Ed : d = <[start := enc_head bs (blk (disk st) start)]> (apply body_writes (disk st)))
    by (unfold d, log_writes; by rewrite apply_app).
  assert (Hs : blk d start = enc_head bs (blk (disk st) start)) by (rewrite Ed, blk_insert; by rewrite decide_True).
  assert (Hl : hd_list (blk d start) = bs) by (by rewrite Hs).
  pose proof (tx_nodup _ _ _ _ Htx) as Hnd.
  split_and!; [|done|].
  - split; rewrite Hs; [done|rewrite Hn'; lia|by rewrite Hl'].
  - intros k Hk. destruct (decide (k ∈ bs)) as [[i Hi]%list_elem_of_lookup|Hni].
    + rewrite (logical_in _ _ i) by (by rewrite Hl). rewrite Ed, blk_insert, decide_False by lia.
      apply blk_apply_in; [apply NoDup_fst_zip, logblocks_NoDup|].
      eapply zip_lookup_in; [|by rewrite list_lookup_fmap, Hi].
      rewrite logblocks_lookup by (by eapply lookup_lt_Some). done.
    + rewrite logical_out by (by rewrite Hl). destruct (home_not_log _ _ _ Hlay bs (length bs) Htx (le_n _) k Hk).
      rewrite Ed, blk_insert, decide_False by done.
      pose proof (body_prefix (length body_writes) k) as Hb. rewrite firstn_all in Hb.
      rewrite Hb by done. unfold sview. by rewrite unpinned.
Qed.

Lemma commit_run : bs ≠ [] → commit (Lst l st) = Ok tt (Lst (set_n 0 l) (wr_all st commit_writes)).
Proof.
  intros Hne. pose proof Hr as [Hd Hlay _ Hn He Htx _ Hlen _]. pose proof Hlay as (? & ? & ? & ?).
  unfold commit. rewrite bind_gets. cbn [log]. rewrite (proj2 (Z.ltb_lt _ _)).
  2:{ rewrite Hn. destruct bs; [done|]. simpl. lia. }
  unfold write_log. rewrite bind_assoc, bind_gets. cbn [log]. rewrite Hn, Nat2Z.id.
  erewrite bind_ok; [|apply write_log_loop_run; [lia|done|by eapply tx_on_disk|by eapply tx_logblocks_on_disk|by eapply tx_disjoint]].
  fold body_writes. erewrite bind_ok.
  2:{ apply (write_head_run l bs); [rewrite wr_all_dsize; lia|unfold on_disk; rewrite wr_all_dsize; lia|done..]. }
  assert (sview (wr_all st body_writes) start = blk (disk st) start) as ->.
  { rewrite sview_wr_all_out; [unfold sview; by rewrite log_unpinned by lia|].
    intros Hin%fst_zip_incl. by apply start_not_log. }
  assert (wr (wr_all st body_writes) (start, enc_head bs (blk (disk st) start)) = wr_all st log_writes) as ->
    by (unfold log_writes, wr_all; by rewrite foldl_app).
  rewrite (install_clear_run l dsz Hlay (wr_all st log_writes) bs); [|by rewrite wr_all_dsize|done..|].
  - unfold commit_writes. rewrite wr_all_disk. unfold wr_all. by rewrite foldl_app.
  - intros k Hk. apply wr_all_pinned_None. right. by apply log_unpinned.
Qed.

Lemma commit_prefix p : let d := apply (take p commit_writes) (disk st) in
  wf_disk start size dsz d ∧ ∀ k, home start size dsz k →
  logical start d k = if decide (p ≤ length bs)%nat then blk (disk st) k else sview st k.
Proof.
  intros d. pose proof (lr_lay _ _ _ _ Hr) as Hlay. pose proof length_body_writes as Hlb.
  destruct (decide (p ≤ length bs)%nat) as [Hp|Hp].
  - assert (d = apply (take p body_writes) (disk st)) as ->; [|apply before_commit].
    unfold d, commit_writes, log_writes. by rewrite <-app_assoc, take_app_le by lia.
  - destruct at_commit as (Hwf & Hl & Hc).
    assert (Hlw : length log_writes = S (length bs)) by (unfold log_writes; rewrite length_app; simpl; lia).
    assert (d = apply (take (p - length log_writes) (clear_writes start (apply log_writes (disk st)) bs))
      (apply log_writes (disk st))) as ->.
    { unfold d, commit_writes. rewrite take_app, take_ge, apply_app by lia. done. }
    destruct (install_clear_prefix l dsz Hlay _ bs (p - length log_writes) Hwf Hl) as [Hwf' Hl'].
    split; [done|]. intros k Hk. rewrite Hl', Hc; done.
Qed.

Lemma commit_final : let d := apply commit_writes (disk st) in
  hd_n (blk d start) = 0 ∧ length (blk d start) = 512%nat ∧ ∀ k, home start size dsz k → blk d k = sview st k.
Proof.
  intros d. pose proof (lr_lay _ _ _ _ Hr) as Hlay. destruct at_commit as (Hwf & Hl & Hc).
  assert (d = apply (clear_writes start (apply log_writes (disk st)) bs) (apply log_writes (disk st))) as E
    by (unfold d, commit_writes; by rewrite apply_app).
  destruct (install_clear_final l dsz Hlay _ bs Hwf Hl) as [Hn Hb]. rewrite <-E in Hn, Hb.
  split_and!; [done| |intros k Hk; rewrite Hb, Hc; done].
  destruct (commit_prefix (length commit_writes)) as [Hwf' _]. rewrite firstn_all in Hwf'. apply Hwf'.
Qed.

End commit.

(** ** Recording a block *)

Lemma entries_prefix bs : ∀ arr : list Z, (∀ i b, bs !! i = Some b → arr !! i = Some b) →
  ∃ rest, arr = bs ++ rest.
Proof.
  induction bs as [|b bs IH]; intros arr H; [by exists arr|].
  destruct arr as [|a arr]; [by specialize (H 0%nat b eq_refl)|].
  destruct (IH arr) as [rest ->]; [intros i c Hc; by apply (H (S i))|].
  specialize (H 0%nat b eq_refl). simplify_eq/=. by exists rest.
Qed.

Lemma absorb_spec b bs : ∀ i rest, Forall int_block bs →
  absorb b (length bs) i (bs ++ rest) =
  (i + match list_find (b =.) bs with Some (j, _) => j | None => length bs end)%nat.
Proof.
  induction bs as [|c bs IH]; intros i rest Hi; simpl; [lia|].
  apply Forall_cons in Hi as [Hc Hi]. unfold int_block in Hc. rewrite u32_small by lia.
  case_decide as E.
  - subst. rewrite Z.eqb_refl. lia.
  - rewrite (proj2 (Z.eqb_neq _ _)) by congruence. rewrite IH by done.
    destruct (list_find _ bs) as [[j x]|]; simpl; lia.
Qed.

(** The blocks of the transaction with [b] in it. *)
Definition tx_add (b : Z) (bs : list Z) : list Z := if decide (b ∈ bs) then bs else bs ++ [b].

Lemma tx_add_length b bs : (length bs ≤ length (tx_add b bs) ≤ S (length bs))%nat.
Proof. unfold tx_add. case_decide; [lia|]. rewrite length_app. simpl. lia. Qed.

Lemma log_write_run dsz l st bs b d : log_ready dsz l st bs → home (lg_start l) (lg_size l) dsz b →
  1 ≤ outstanding l → Z.of_nat (length bs) < LOGSIZE → Z.of_nat (length bs) < lg_size l - 1 →
  ∃ l', log_write b d (Lst l st) =
      Ok tt (Lst l' (Store (disk st) (<[b := d]> (pinned st)) (dsize st) (writes st))) ∧
    log_ready dsz l' (Store (disk st) (<[b := d]> (pinned st)) (dsize st) (writes st)) (tx_add b bs) ∧
    lg_start l' = lg_start l ∧ lg_size l' = lg_size l ∧
    outstanding l' = outstanding l ∧ committing l' = committing l.
Proof.
  intros [Hd Hlay Hlen Hn He Htx Hpin Hh Hemp] Hb Ho Hlt Hsz. pose proof Hlay as (? & ? & ? & ?).
  destruct (entries_prefix bs (lh_block l)) as [rest Hrest]; [intros i c Hc; by apply (He i)|].
  assert (Hbi : 0 ≤ b < 2147483648) by (destruct Hb; lia).
  assert (Hal : (length bs < length (lh_block l))%nat) by (rewrite Hlen; lia).
  unfold log_write. rewrite bind_gets. cbn [log].
  rewrite Hn, !(proj2 (Z.leb_gt _ _)) by lia. cbn [orb]. rewrite (proj2 (Z.ltb_ge _ _)) by lia.
  rewrite Nat2Z.id, Hrest, (absorb_spec b bs 0 rest) by (by eapply tx_int).
  rewrite s32_small by lia. cbn [Nat.add]. unfold tx_add.
  destruct (list_find (b =.) bs) as [[j x]|] eqn:Hf.
  - apply list_find_Some in Hf as (Hj & <- & _). rewrite decide_True by (by eapply list_elem_of_lookup_2).
    assert (Hjl : (j < length bs)%nat) by (by eapply lookup_lt_Some).
    unfold lh_put. rewrite bind_assoc, bind_gets. cbn [log].
    rewrite bool_decide_eq_true_2 by lia. unfold set_log at 1. rewrite bind_modify. cbn [log store_of].
    rewrite (proj2 (Z.eqb_neq _ _)) by lia. rewrite bind_ret.
    assert (Hsame : set_lh_block j b l = l).
    { unfold set_lh_block. rewrite list_insert_id; [by destruct l|]. apply (He j b Hj). }
    rewrite Hsame. exists l. split_and!; try done.
    + unfold on_store, zoom, pin, modify. cbn. by rewrite u32_small by lia.
    + split; try done. simpl. intros k [v Hk]. destruct (decide (k = b)) as [->|].
      * by eapply list_elem_of_lookup_2.
      * rewrite lookup_insert_ne in Hk by done. apply Hpin. by exists v.
  - apply list_find_None in Hf. rewrite Forall_forall in Hf.
    assert (Hnb : b ∉ bs) by (intros Hin; by apply (Hf b Hin)).
    rewrite decide_False by done.
    unfold lh_put. rewrite bind_assoc, bind_gets. cbn [log].
    rewrite bool_decide_eq_true_2 by lia. unfold set_log at 1. rewrite bind_modify. cbn [log store_of].
    rewrite Z.eqb_refl. unfold set_log. rewrite bind_modify. cbn [log store_of].
    eexists. split_and!; [unfold on_store, zoom, pin, modify; cbn; rewrite u32_small by lia; reflexivity| |done..].
    split; cbn; try done.
    + by rewrite length_insert.
    + rewrite length_app. simpl. lia.
    + intros i c Hc. cbn. apply lookup_snoc_Some in Hc as [[Hi Hc]|[-> <-]].
      * rewrite list_lookup_insert_ne by lia. by apply (He i c).
      * by apply list_lookup_insert_eq.
    + destruct Htx as [Hnd Hhome Hs1 Hs2]. split.
      * apply NoDup_app. split_and!; [done| |apply NoDup_singleton]. intros k Hk ->%list_elem_of_singleton. done.
      * apply Forall_app. split; [done|]. by constructor.
      * rewrite length_app. simpl. lia.
      * rewrite length_app. simpl. lia.
    + intros k [v Hk]. destruct (decide (k = b)) as [->|]; [set_solver|].
      rewrite lookup_insert_ne in Hk by done. apply elem_of_app. left. apply Hpin. by exists v.
Qed.

(** ** The end of an operation *)

Lemma log_ready_nil dsz l st bs W : log_ready dsz l st bs →
  (∀ k, pinned (wr_all st W) !! k = None) →
  hd_n (blk (apply W (disk st)) (lg_start l)) = 0 → length (blk (apply W (disk st)) (lg_start l)) = 512%nat →
  log_ready dsz (set_n 0 l) (wr_all st W) [].
Proof.
  intros [Hd Hlay Hlen Hn He Htx Hpin Hh Hemp] Hp Hn0 Hl0. split; cbn; try done.
  - by rewrite wr_all_dsize.
  - by eapply tx_nil.
  - intros k [v Hv]. by rewrite Hp in Hv.
  - by rewrite wr_all_disk.
  - by rewrite wr_all_disk.
Qed.

(** What a commit leaves. *)
Lemma commit_done dsz l st bs : log_ready dsz l st bs →
  ∃ W st', commit (Lst l st) = Ok tt (Lst (set_n 0 l) st') ∧ log_ready dsz (set_n 0 l) st' [] ∧
    writes st' = writes st ++ W ∧ disk st' = apply W (disk st) ∧
    (∀ k, home (lg_start l) (lg_size l) dsz k → sview st' k = sview st k ∧ blk (disk st') k = sview st k) ∧
    ∀ p, let d := apply (take p W) (disk st) in
      wf_disk (lg_start l) (lg_size l) dsz d ∧
      ∀ k, home (lg_start l) (lg_size l) dsz k →
        logical (lg_start l) d k = if decide (p ≤ length bs)%nat then blk (disk st) k else sview st k.
Proof.
  intros Hr. destruct (decide (bs = [])) as [->|Hne].
  - assert (Hu : ∀ k, pinned st !! k = None) by (intros k; apply (unpinned dsz l st [] Hr), not_elem_of_nil).
    assert (Hs : ∀ k, sview st k = blk (disk st) k) by (intros k; unfold sview; by rewrite Hu).
    pose proof Hr as [Hd Hlay Hlen Hn He Htx Hpin Hh Hemp]. exists [], st. split_and!; try done.
    + unfold commit. rewrite bind_gets. cbn [log]. rewrite Hn. cbn.
      destruct l. simpl in Hn. subst. done.
    + by rewrite app_nil_r.
    + intros p. rewrite take_nil. split; [split; [done|by cbn; rewrite Hemp|]|].
      * cbn. by rewrite hd_list_empty.
      * intros k Hk. cbn. rewrite logical_empty by done. rewrite Hs. by destruct (decide _).
  - exists (commit_writes l st bs), (wr_all st (commit_writes l st bs)).
    destruct (commit_final dsz l st bs Hr) as (Hn & Hlen & Hb).
    assert (Hp : ∀ k, pinned (wr_all st (commit_writes l st bs)) !! k = None).
    { intros k. apply wr_all_pinned_None. destruct (decide (k ∈ bs)) as [Hk|Hk]; [left|right; by eapply unpinned].
      unfold commit_writes, clear_writes, install_writes. rewrite !fmap_app, !elem_of_app. right. left.
      rewrite fst_zip; [done|]. rewrite length_fmap. unfold logblocks. by rewrite length_fmap, length_seq. }
    split_and!.
    + by apply (commit_run dsz).
    + by eapply log_ready_nil.
    + apply wr_all_writes.
    + apply wr_all_disk.
    + intros k Hk. unfold sview at 1. rewrite Hp, wr_all_disk. cbn. auto.
    + intros p. by apply commit_prefix.
Qed.

(** The end of the last outstanding operation, with a crash at any write. *)
Lemma end_op_safe dsz l st bs : log_ready dsz l st bs → outstanding l = 1 →
  committing l = false →
  ∃ W s', end_op (Lst l st) = Ok tt s' ∧ outstanding (log s') = 0 ∧ committing (log s') = false ∧
    (lg_start (log s') = lg_start l ∧ lg_size (log s') = lg_size l) ∧
    log_ready dsz (log s') (store_of s') [] ∧
    writes (store_of s') = writes st ++ W ∧ disk (store_of s') = apply W (disk st) ∧
    (∀ k, home (lg_start l) (lg_size l) dsz k → blk (disk (store_of s')) k = sview st k) ∧
    ∀ p l0, lg_start l0 = lg_start l → lg_size l0 = lg_size l →
      length (lh_block l0) = Z.to_nat LOGSIZE →
      let d := apply (take p W) (disk st) in
      wf_disk (lg_start l) (lg_size l) dsz d ∧
      (∃ s0, recover_from_log (rebooted l0 dsz d) = Ok tt s0) ∧
      ∀ d', recovers l0 dsz d d' → ∀ k, home (lg_start l) (lg_size l) dsz k →
        blk d' k = if decide (p ≤ length bs)%nat then blk (disk st) k else sview st k.
Proof.
  intros Hr Ho Hc. set (l1 := set_committing true (set_outstanding 0 l)).
  assert (Hr1 : log_ready dsz l1 st bs) by (by destruct Hr).
  destruct (commit_done dsz l1 st bs Hr1) as (W & st' & Hrun & Hr' & Hw & Hd & Hv & Hp).
  exists W, (Lst (set_committing false (set_n 0 l1)) st').
  split_and!; try done.
  - unfold end_op. unfold set_log at 1. rewrite bind_modify, bind_gets. cbn [log store_of].
    cbn [committing set_outstanding outstanding]. rewrite Hc, Ho. change (1 - 1 =? 0) with true. cbv iota. change (1 - 1) with 0.
    unfold set_log at 1. rewrite bind_modify. cbn [log store_of]. fold l1.
    erewrite bind_ok by exact Hrun. done.
  - by destruct Hr'.
  - intros k Hk. by apply Hv.
  - intros p l0 E1 E2 Hl0 d. destruct (Hp p) as [Hwf Hlog]. cbn zeta in Hwf, Hlog. fold d in Hwf, Hlog.
    cbn in Hwf, Hlog. rewrite <-E1, <-E2 in Hwf, Hlog.
    assert (Hlay : layout (lg_start l0) (lg_size l0) dsz) by (rewrite E1, E2; apply Hr).
    split_and!.
    + by rewrite <- E1, <- E2.
    + destruct (recover_run l0 dsz Hlay Hl0 (Store d ∅ dsz []) eq_refl Hwf) as (l' & Hrec & _); [done|].
      eexists. exact Hrec.
    + intros d' Hrec k Hk. destruct (recovers_logical l0 dsz Hlay Hl0 d d' Hwf Hrec) as [_ Hb].
      rewrite Hb, Hlog by (by rewrite E1, E2). done.
Qed.

(** C11. Crash safety of the log.  When the last outstanding operation ends,
    [end_op] commits: it returns, every home block on disk is the one the cache
    showed, nothing is pinned and the log is empty.  If the machine crashes
    after any number [p] of the commit's disk writes, a recovery of the disk
    returns, and after any number of further crashes during recoveries a
    completed one leaves every block outside the log as it was before the
    transaction when [p] is at most the number of blocks logged, and as the
    transaction made it otherwise: never a mixture. *)
Theorem end_op_crash_safe dsz l st bs : log_ready dsz l st bs → outstanding l = 1 →
  committing l = false →
  ∃ W s', end_op (Lst l st) = Ok tt s' ∧ outstanding (log s') = 0 ∧ committing (log s') = false ∧
    log_ready dsz (log s') (store_of s') [] ∧
    writes (store_of s') = writes st ++ W ∧ disk (store_of s') = apply W (disk st) ∧
    (∀ k, home (lg_start l) (lg_size l) dsz k → blk (disk (store_of s')) k = sview st k) ∧
    ∀ p l0, lg_start l0 = lg_start l → lg_size l0 = lg_size l →
      length (lh_block l0) = Z.to_nat LOGSIZE →
      let d := apply (take p W) (disk st) in
      wf_disk (lg_start l) (lg_size l) dsz d ∧
      (∃ s0, recover_from_log (rebooted l0 dsz d) = Ok tt s0) ∧
      ∀ d', recovers l0 dsz d d' → ∀ k, home (lg_start l) (lg_size l) dsz k →
        blk d' k = if decide (p ≤ length bs)%nat then blk (disk st) k else sview st k.
Proof.
  intros Hr Ho Hc. destruct (end_op_safe dsz l st bs Hr Ho Hc) as (W & s' & H1 & H2 & H3 & _ & H4). exists W, s'.
  exact (conj H1 (conj H2 (conj H3 H4))).
Qed.

(** C12. Recovery.  On a disk whose log header is in order, [recover_from_log]
    at boot returns with an empty log on disk and in memory, every block
    outside the log is the one the logical disk shows (the logged copy for the
    blocks the header names, its own otherwise), and at every point of its own
    writes the log is in order and the logical disk is unchanged: recovery can
    crash and be run again. *)
Theorem recover_correct dsz l d : layout (lg_start l) (lg_size l) dsz →
  length (lh_block l) = Z.to_nat LOGSIZE → wf_disk (lg_start l) (lg_size l) dsz d →
  ∃ s, recover_from_log (rebooted l dsz d) = Ok tt s ∧ lh_n (log s) = 0 ∧
    hd_n (blk (disk (store_of s)) (lg_start l)) = 0 ∧
    (∀ k, home (lg_start l) (lg_size l) dsz k → blk (disk (store_of s)) k = logical (lg_start l) d k) ∧
    ∀ p, wf_disk (lg_start l) (lg_size l) dsz (apply (take p (writes (store_of s))) d) ∧
      ∀ k, home (lg_start l) (lg_size l) dsz k →
        logical (lg_start l) (apply (take p (writes (store_of s))) d) k = logical (lg_start l) d k.
Proof.
  intros Hlay Hlen Hwf.
  destruct (recover_run l dsz Hlay Hlen (Store d ∅ dsz []) eq_refl Hwf) as (l' & Hr & _); [done|].
  eexists. split; [exact Hr|].
  destruct (recover_final l dsz Hlay Hlen d _ Hwf Hr) as (Hn & Hn0 & Hb).
  split_and!; [done..|]. intros p. by apply (recover_prefix l dsz Hlay Hlen d p _ Hwf Hr).
Qed.

(** ** Concurrent operations *)

(** The file system operations in progress, each with the number of
    [log_write]s it may still do, and what one of them does next. *)
Inductive event :=
| EBegin
| EWrite (i : nat) (b : Z) (d : block)
| EEnd (i : nat).

Definition exec (e : event) (x : lst * list nat) : option (lst * list nat) :=
  let (s, cs) := x in
  match e with
  | EBegin => match begin_op s with Ok _ s' => Some (s', cs ++ [Z.to_nat MAXOPBLOCKS]) | _ => None end
  | EWrite i b d =>
      match cs !! i with
      | Some (S c) => match log_write b d s with Ok _ s' => Some (s', <[i := c]> cs) | _ => None end
      | _ => None
      end
  | EEnd i =>
      match cs !! i with
      | Some _ => match end_op s with Ok _ s' => Some (s', delete i cs) | _ => None end
      | None => None
      end
  end.

(** The operations write home blocks only. *)
Definition event_ok (start size dsz : Z) (e : event) : Prop :=
  match e with EWrite _ b _ => home start size dsz b | _ => True end.

Definition ev_step (start size dsz : Z) (x y : lst * list nat) : Prop :=
  ∃ e, event_ok start size dsz e ∧ exec e x = Some y.

(** The log at boot, after recovery. *)
Definition empty_log (start size dsz : Z) (d : gmap Z block) : lst * list nat :=
  (Lst (Log start size 0 false 0 (replicate (Z.to_nat LOGSIZE) 0)) (Store d ∅ dsz []), []).

(** Each operation's credit is reserved in the log. *)
Definition reserved (start size dsz : Z) (x : lst * list nat) : Prop :=
  let (s, cs) := x in
  lg_start (log s) = start ∧ lg_size (log s) = size ∧ committing (log s) = false ∧
  outstanding (log s) = Z.of_nat (length cs) ∧ Forall (λ c, Z.of_nat c ≤ MAXOPBLOCKS) cs ∧
  ∃ bs, log_ready dsz (log s) (store_of s) bs ∧ (cs = [] → bs = []) ∧
    Z.of_nat (length bs) + Z.of_nat (sum_list cs) ≤ LOGSIZE.

Section reservation.
Variables (start size dsz : Z).

Lemma sum_list_insert (cs : list nat) i c c' : cs !! i = Some c →
  (sum_list (<[i := c']> cs) + c = sum_list cs + c')%nat.
Proof.
  revert i. induction cs as [|x cs IH]; intros [|i] H; simplify_eq/=; [lia|]. specialize (IH i H). lia.
Qed.

Lemma sum_list_delete (cs : list nat) i c : cs !! i = Some c →
  (sum_list (delete i cs) + c = sum_list cs)%nat.
Proof.
  revert i. induction cs as [|x cs IH]; intros [|i] H; simplify_eq/=; [lia|]. specialize (IH i H).
  unfold delete in *. simpl in *. lia.
Qed.

Lemma sum_list_max (cs : list nat) : Forall (λ c, Z.of_nat c ≤ MAXOPBLOCKS) cs →
  Z.of_nat (sum_list cs) ≤ Z.of_nat (length cs) * MAXOPBLOCKS.
Proof. induction 1; simpl; lia. Qed.

Lemma log_ready_begin dsz' l st bs n : log_ready dsz' l st bs → log_ready dsz' (set_outstanding n l) st bs.
Proof. by intros []. Qed.

Lemma begin_reserved s cs : reserved start size dsz (s, cs) →
  (∃ s', begin_op s = Ok tt s' ∧ reserved start size dsz (s', cs ++ [Z.to_nat MAXOPBLOCKS])) ∨
  (cs ≠ [] ∧ begin_op s = Err (Blocked "log") s).
Proof.
  destruct s as [l st]. intros (E1 & E2 & Hc & Ho & Hcs & bs & Hr & He & Hsum). cbn [log store_of] in *.
  assert (Hb : begin_op (Lst l st) =
    if LOGSIZE <? lh_n l + (outstanding l + 1) * MAXOPBLOCKS then Err (Blocked "log") (Lst l st)
    else Ok tt (Lst (set_outstanding (outstanding l + 1) l) st)).
  { unfold begin_op. rewrite bind_gets. cbn [log]. rewrite Hc. by destruct (_ <? _). }
  rewrite Hb. clear Hb. destruct (Z.ltb_spec LOGSIZE (lh_n l + (outstanding l + 1) * MAXOPBLOCKS)) as [Hlt|Hle].
  - right. split; [|done]. intros ->. rewrite (He eq_refl) in Hr. pose proof (lr_n _ _ _ _ Hr) as Hn.
    unfold LOGSIZE, MAXOPBLOCKS in *. simpl in *. lia.
  - left. eexists. split; [reflexivity|]. unfold reserved. cbn. split_and!; try done.
    + rewrite length_app. simpl. lia.
    + apply Forall_app. split; [done|]. constructor; [|done]. unfold MAXOPBLOCKS. lia.
    + exists bs. split_and!.
      * by apply log_ready_begin.
      * intros H. by apply app_nil in H as [_ ?].
      * rewrite sum_list_with_app. simpl. pose proof (sum_list_max cs Hcs).
        rewrite (lr_n _ _ _ _ Hr) in Hle. unfold LOGSIZE, MAXOPBLOCKS in *. lia.
Qed.

Lemma write_reserved s cs i c b d : LOGSIZE < size → reserved start size dsz (s, cs) →
  cs !! i = Some (S c) → home start size dsz b →
  ∃ s', log_write b d s = Ok tt s' ∧ reserved start size dsz (s', <[i := c]> cs).
Proof.
  destruct s as [l st]. intros Hsz (<- & <- & Hc & Ho & Hcs & bs & Hr & He & Hsum) Hi Hb. cbn [log store_of] in *.
  pose proof (sum_list_insert cs i (S c) c Hi) as Hsi.
  assert (Hil : (i < length cs)%nat) by (by eapply lookup_lt_Some).
  destruct (log_write_run dsz l st bs b d Hr Hb) as (l' & Hrun & Hr' & E1 & E2 & E3 & E4); [lia..|].
  eexists. split; [exact Hrun|]. unfold reserved. cbn. split_and!; try done.
  - by rewrite E4.
  - by rewrite E3, length_insert.
  - apply Forall_insert; [done|]. rewrite Forall_lookup in Hcs. specialize (Hcs i (S c) Hi). lia.
  - exists (tx_add b bs). split_and!; [done| |].
    + intros H%(f_equal length). rewrite length_insert in H. simpl in H. lia.
    + pose proof (tx_add_length b bs). lia.
Qed.

Lemma end_reserved s cs i c : reserved start size dsz (s, cs) → cs !! i = Some c →
  ∃ s', end_op s = Ok tt s' ∧ reserved start size dsz (s', delete i cs).
Proof.
  destruct s as [l st]. intros (<- & <- & Hc & Ho & Hcs & bs & Hr & He & Hsum) Hi. cbn [log store_of] in *.
  pose proof (sum_list_delete cs i c Hi) as Hsd.
  assert (Hil : (i < length cs)%nat) by (by eapply lookup_lt_Some).
  pose proof (length_delete cs i (mk_is_Some _ _ Hi)) as Hld.
  assert (Hcs' : Forall (λ c, Z.of_nat c ≤ MAXOPBLOCKS) (delete i cs)) by (by apply Forall_delete).
  assert (Hend : end_op (Lst l st) =
    let l0 := set_outstanding (outstanding l - 1) l in
    if outstanding l - 1 =? 0 then
      bind commit (λ _, set_log (set_committing false)) (Lst (set_committing true l0) st)
    else Ok tt (Lst l0 st)).
  { unfold end_op. unfold set_log at 1. rewrite bind_modify, bind_gets. cbn [log store_of].
    cbn [committing set_outstanding outstanding]. rewrite Hc. by destruct (_ =? _). }
  rewrite Hend. clear Hend. cbn zeta. destruct (Z.eqb_spec (outstanding l - 1) 0) as [E|E].
  - set (l1 := set_committing true (set_outstanding (outstanding l - 1) l)).
    assert (Hr1 : log_ready dsz l1 st bs) by (by destruct Hr).
    destruct (commit_done dsz l1 st bs Hr1) as (W & st' & Hrun & Hr' & _).
    eexists. split; [erewrite bind_ok by exact Hrun; reflexivity|].
    unfold reserved. cbn. split_and!; try done; [lia|].
    exists []. split_and!; [by destruct Hr'|done|]. simpl. lia.
  - eexists. split; [reflexivity|]. unfold reserved. cbn. split_and!; try done; [lia|].
    exists bs. split_and!; [by apply log_ready_begin| |lia].
    intros H. rewrite H in Hld. simpl in Hld. lia.
Qed.

Lemma step_reserved x y : LOGSIZE < size → reserved start size dsz x → ev_step start size dsz x y →
  reserved start size dsz y.
Proof.
  intros Hsz Hx ([|i b d|i] & Hok & He); destruct x as [s cs]; cbn [exec] in He.
  - destruct (begin_reserved s cs Hx) as [(s' & E & Hr)|[_ E]]; rewrite E in He; by simplify_eq.
  - destruct (cs !! i) as [[|c]|] eqn:Hi; try done.
    destruct (write_reserved s cs i c b d Hsz Hx Hi Hok) as (s' & E & Hr). rewrite E in He. by simplify_eq.
  - destruct (cs !! i) as [c|] eqn:Hi; [|done].
    destruct (end_reserved s cs i c Hx Hi) as (s' & E & Hr). rewrite E in He. by simplify_eq.
Qed.

Lemma empty_log_reserved d : layout start size dsz → length (blk d start) = 512%nat →
  hd_n (blk d start) = 0 → reserved start size dsz (empty_log start size dsz d).
Proof.
  intros Hlay Hlen Hn. unfold reserved, empty_log. cbn. split_and!; [done..|constructor|].
  exists []. split_and!; [|done|by unfold LOGSIZE, MAXOPBLOCKS; simpl; lia].
  split; cbn; try done; [by eapply tx_nil|]. intros k [v Hk]. by rewrite lookup_empty in Hk.
Qed.


End reservation.

(** ** The log that mkfs.c makes *)

Fixpoint run_events (es : list event) (x : lst * list nat) : option (lst * list nat) :=
  match es with
  | [] => Some x
  | e :: es' => match exec e x with Some y => run_events es' y | None => None end
  end.

Lemma run_events_rtc start size dsz es : ∀ x y, Forall (event_ok start size dsz) es →
  run_events es x = Some y → rtc (ev_step start size dsz) x y.
Proof.
  induction es as [|e es IH]; intros x y Hok; simpl; [intros [= <-]; apply rtc_refl|].
  apply Forall_cons in Hok as [He Hok]. destruct (exec e x) as [z|] eqn:Ez; [|done].
  intros H. apply rtc_l with z; [by exists e|by apply IH].
Qed.

(** Three operations that write ten distinct blocks each, but the last one. *)
Definition three_ops : list event :=
  replicate 3 EBegin ++ ((λ k, EWrite (k / 10) (100 + Z.of_nat k) zero_block) <$> seq 0 29).

(** The log of a file system made by mkfs.c is one block too small.
    mkfs.c sets [nlog = LOGSIZE] for the whole log area, header included, so
    [log_write] accepts only [LOGSIZE - 1] blocks, while [begin_op] admits
    operations for [LOGSIZE]: three concurrent operations within their budget
    reach a state from which the last [log_write] panics. *)
Theorem mkfs_log_panics :
  ∃ s cs, rtc (ev_step 2 30 FSSIZE) (empty_log 2 30 FSSIZE ∅) (s, cs) ∧ cs !! 2%nat = Some 1%nat ∧
    home 2 30 FSSIZE 129 ∧ log_write 129 zero_block s = Err (Panic "too big a transaction") s.
Proof.
  assert (Hok : Forall (event_ok 2 30 FSSIZE) three_ops).
  { unfold three_ops. apply Forall_app. split.
    - by apply Forall_replicate.
    - apply Forall_fmap, Forall_forall. intros k Hk%elem_of_seq. unfold compose, event_ok, home, FSSIZE. lia. }
  destruct (run_events three_ops (empty_log 2 30 FSSIZE ∅)) as [[s cs]|] eqn:E; [|by vm_compute in E].
  exists s, cs. split; [by eapply run_events_rtc|]. vm_compute in E. injection E as <- <-.
  split_and!; [done| |by vm_compute]. unfold home, FSSIZE. lia.
Qed.

(** *** A transaction of one block *)

Definition demo_log : log_st := Log 2 31 1 false 1 (40 :: replicate 29 0).
Definition demo_store : store := Store ∅ {[40 := put32 zero_block 0 7]} 1000 [].

Lemma demo_layout : layout 2 31 1000.
Proof. unfold layout. lia. Qed.

Lemma demo_log_ready : log_ready 1000 demo_log demo_store [40].
Proof.
  split; try done.
  - intros [|i] b Hb; simplify_eq/=; done.
  - split; simpl; [apply NoDup_singleton|constructor; [unfold home; lia|done]|by unfold LOGSIZE, MAXOPBLOCKS; lia|lia].
  - intros k [v Hk]. simpl in Hk. apply lookup_singleton_Some in Hk as [<- _]. by left.
Qed.

Lemma end_op_crash_safe_witness :
  ∃ W s', end_op (Lst demo_log demo_store) = Ok tt s' ∧ outstanding (log s') = 0 ∧
    committing (log s') = false ∧ log_ready 1000 (log s') (store_of s') [] ∧
    writes (store_of s') = writes demo_store ++ W ∧ disk (store_of s') = apply W (disk demo_store) ∧
    (∀ k, home 2 31 1000 k → blk (disk (store_of s')) k = sview demo_store k) ∧
    ∀ p l0, lg_start l0 = 2 → lg_size l0 = 31 → length (lh_block l0) = Z.to_nat LOGSIZE →
      let d := apply (take p W) (disk demo_store) in
      wf_disk 2 31 1000 d ∧
      (∃ s0, recover_from_log (rebooted l0 1000 d) = Ok tt s0) ∧
      ∀ d', recovers l0 1000 d d' → ∀ k, home 2 31 1000 k →
        blk d' k = if decide (p ≤ 1)%nat then blk (disk demo_store) k else sview demo_store k.
Proof. exact (end_op_crash_safe 1000 demo_log demo_store [40] demo_log_ready eq_refl eq_refl). Defined.

(** A disk with a committed transaction that has not been installed. *)
Definition demo_committed : gmap Z block :=
  <[2 := put32 (put32 zero_block 0 1) 4 40]> {[3 := put32 zero_block 0 7]}.

Lemma demo_committed_wf : wf_disk 2 31 1000 demo_committed.
Proof.
  assert (E : hd_list (blk demo_committed 2) = [40]) by (vm_compute; reflexivity).
  split; [by vm_compute|by vm_compute|]. rewrite E.
  split; simpl; [apply NoDup_singleton|constructor; [unfold home; lia|done]|by unfold LOGSIZE, MAXOPBLOCKS; lia|lia].
Qed.

Lemma recover_correct_witness :
  ∃ s, recover_from_log (rebooted demo_log 1000 demo_committed) = Ok tt s ∧ lh_n (log s) = 0 ∧
    hd_n (blk (disk (store_of s)) 2) = 0 ∧
    (∀ k, home 2 31 1000 k → blk (disk (store_of s)) k = logical 2 demo_committed k) ∧
    ∀ p, wf_disk 2 31 1000 (apply (take p (writes (store_of s))) demo_committed) ∧
      ∀ k, home 2 31 1000 k →
        logical 2 (apply (take p (writes (store_of s))) demo_committed) k = logical 2 demo_committed k.
Proof. exact (recover_correct 1000 demo_log demo_committed demo_layout eq_refl demo_committed_wf). Defined.

