(* ===== verification/LogBio.v ===== *)
(** The log on the buffer cache: log.c above bio.c and memide.c

    [Log] runs on a block store; here are the functions of log.c as they call
    [bread], [bwrite] and [brelse], on the buffers of [Bio].  [rep] relates the
    cache to the store: what is pinned is what sits dirty in a buffer, and the
    buffers that the running code holds are listed with their data.  The
    functions of this file refine those of [Log] as long as a buffer is left for
    the log's own blocks, so the crash safety of the log holds of the code on
    its cache; and with as many buffers as the log has blocks that is not always
    so. *)

From stdpp Require Import gmap list numbers strings.
From Stdlib Require Import ZArith Lia.
From S2P Require Import Prelude Memlayout Block Bio Log.

(** ** log.c *)

(** The log, the cache and, as a record of what reaches the disk, the writes of
    [bwrite] in order. *)
Record cst := Cst { c_log : log_st; c_cache : bst; c_writes : list (Z * block) }.

Definition on_cache {A} (m : M bst A) : M cst A := zoom c_cache (λ s c, Cst (c_log c) s (c_writes c)) m.
Definition on_clog (f : log_st → log_st) : M cst unit := modify (λ c, Cst (f (c_log c)) (c_cache c) (c_writes c)).

Section log.
Variable me : Z.

(** The calls of log.c; the device is [log.dev], disk 1. *)
Definition c_bread (k : Z) : M cst nat := on_cache (bread me 1 (u32 k)).
Definition c_bwrite (b : nat) : M cst unit :=
  x <- on_cache (buf_at b) ;;
  on_cache (bwrite me b) ;;;
  modify (λ c, Cst (c_log c) (c_cache c) (c_writes c ++ [(b_blockno x, b_data x)])).
Definition c_brelse (b : nat) : M cst unit := on_cache (brelse me b).
Definition c_data (b : nat) : M cst block := x <- on_cache (buf_at b) ;; ret (b_data x).
(** [memmove(b->data, d, BSIZE)]. *)
Definition c_move (b : nat) (d : block) : M cst unit := on_cache (upd_buf b (set_data d)).

Definition c_lh_get (i : nat) : M cst Z := o <- gets (λ c, lh_block (c_log c) !! i) ;; deref o.
Definition c_lh_put (i : nat) (v : Z) : M cst unit :=
  len <- gets (λ c, length (lh_block (c_log c))) ;;
  if bool_decide (i < len)%nat then on_clog (set_lh_block i v) else fail Fault.

Fixpoint c_install_loop (n tail : nat) : M cst unit :=
  match n with
  | O => ret tt
  | S n' =>
      start <- gets (λ c, lg_start (c_log c)) ;;
      lbuf <- c_bread (start + Z.of_nat tail + 1) ;;
      b <- c_lh_get tail ;;
      dbuf <- c_bread b ;;
      d <- c_data lbuf ;;
      c_move dbuf d ;;;
      c_bwrite dbuf ;;;
      c_brelse lbuf ;;;
      c_brelse dbuf ;;;
      c_install_loop n' (S tail)
  end.

Definition c_install_trans : M cst unit :=
  n <- gets (λ c, lh_n (c_log c)) ;;
  c_install_loop (Z.to_nat n) 0.

Fixpoint c_read_head_loop (buf : nat) (n i : nat) : M cst unit :=
  match n with
  | O => ret tt
  | S n' =>
      d <- c_data buf ;;
      c_lh_put i (hd_block d i) ;;;
      c_read_head_loop buf n' (S i)
  end.

Definition c_read_head : M cst unit :=
  start <- gets (λ c, lg_start (c_log c)) ;;
  buf <- c_bread start ;;
  d <- c_data buf ;;
  on_clog (set_n (hd_n d)) ;;;
  c_read_head_loop buf (Z.to_nat (hd_n d)) 0 ;;;
  c_brelse buf.

Fixpoint c_write_head_loop (buf : nat) (n i : nat) : M cst unit :=
  match n with
  | O => ret tt
  | S n' =>
      b <- c_lh_get i ;;
      d <- c_data buf ;;
      c_move buf (put32 d (4 + 4 * i) b) ;;;
      c_write_head_loop buf n' (S i)
  end.

Definition c_write_head : M cst unit :=
  start <- gets (λ c, lg_start (c_log c)) ;;
  buf <- c_bread start ;;
  n <- gets (λ c, lh_n (c_log c)) ;;
  d <- c_data buf ;;
  c_move buf (put32 d 0 n) ;;;
  c_write_head_loop buf (Z.to_nat n) 0 ;;;
  c_bwrite buf ;;;
  c_brelse buf.

Definition c_recover_from_log : M cst unit :=
  c_read_head ;;;
  c_install_trans ;;;
  on_clog (set_n 0) ;;;
  c_write_head.

(** fs.c: [readsb]. *)
Definition c_readsb : M cst superblock :=
  bp <- c_bread 1 ;;
  d <- c_data bp ;;
  c_brelse bp ;;;
  ret (decode_sb d).

Definition c_initlog : M cst unit :=
  sb <- c_readsb ;;
  on_clog (λ l, Log (s32 (sb_logstart sb)) (s32 (sb_nlog sb)) (outstanding l) (committing l)
                    (lh_n l) (lh_block l)) ;;;
  c_recover_from_log.

(** One round of the loop of [begin_op]. *)
Definition c_begin_op : M cst unit :=
  l <- gets c_log ;;
  if committing l then fail (Blocked "log")
  else if LOGSIZE <? lh_n l + (outstanding l + 1) * MAXOPBLOCKS then fail (Blocked "log")
  else on_clog (λ l, set_outstanding (outstanding l + 1) l).

Fixpoint c_write_log_loop (n tail : nat) : M cst unit :=
  match n with
  | O => ret tt
  | S n' =>
      start <- gets (λ c, lg_start (c_log c)) ;;
      to <- c_bread (start + Z.of_nat tail + 1) ;;
      b <- c_lh_get tail ;;
      from <- c_bread b ;;
      d <- c_data from ;;
      c_move to d ;;;
      c_bwrite to ;;;
      c_brelse from ;;;
      c_brelse to ;;;
      c_write_log_loop n' (S tail)
  end.

Definition c_write_log : M cst unit :=
  n <- gets (λ c, lh_n (c_log c)) ;;
  c_write_log_loop (Z.to_nat n) 0.

Definition c_commit : M cst unit :=
  n <- gets (λ c, lh_n (c_log c)) ;;
  if 0 <? n then
    c_write_log ;;;
    c_write_head ;;;
    c_install_trans ;;;
    on_clog (set_n 0) ;;;
    c_write_head
  else ret tt.

Definition c_end_op : M cst unit :=
  on_clog (λ l, set_outstanding (outstanding l - 1) l) ;;;
  l <- gets c_log ;;
  if committing l then panic "log.committing"
  else if outstanding l =? 0 then
    on_clog (set_committing true) ;;;
    c_commit ;;;
    on_clog (set_committing false)
  else ret tt.

(** [log_write] of buffer [b]. *)
Definition c_log_write (b : nat) : M cst unit :=
  l <- gets c_log ;;
  if (LOGSIZE <=? lh_n l) || (lg_size l - 1 <=? lh_n l) then panic "too big a transaction"
  else if outstanding l <? 1 then panic "log_write outside of trans"
  else
    x <- on_cache (buf_at b) ;;
    let i := absorb (b_blockno x) (Z.to_nat (lh_n l)) 0 (lh_block l) in
    c_lh_put i (s32 (b_blockno x)) ;;;
    (if Z.of_nat i =? lh_n l then on_clog (set_n (lh_n l + 1)) else ret tt) ;;;
    on_cache (upd_buf b (λ x, set_flags (Z.lor (b_flags x) B_DIRTY) x)).

(** The use that the comment at [log_write] gives: read a block, modify it, log
    it and give the buffer back. *)
Definition c_update (k : Z) (f : block → block) : M cst unit :=
  b <- c_bread k ;;
  d <- c_data b ;;
  c_move b (f d) ;;;
  c_log_write b ;;;
  c_brelse b.

End log.

(** ** The cache as a block store *)

(** [H] lists the buffers that the running code holds, with their blocks and
    data. *)
Record rep (me : Z) (H : gmap nat (Z * block)) (s : bst) (t : store) : Prop := {
  rp_ok : bcache_ok s;
  rp_disk : memdisk s = disk t;
  rp_size : disksize s = dsize t;
  rp_dev i x : (i < NBUF)%nat → bufs s !! i = Some x → valid x = true → b_dev x = 1;
  rp_free i x : (i < NBUF)%nat → bufs s !! i = Some x → H !! i = None →
    slocked (b_lock x) = false ∧ b_refcnt x = 0;
  rp_held i k d : H !! i = Some (k, d) → (i < NBUF)%nat ∧ ∃ x, bufs s !! i = Some x ∧
    b_lock x = Sleeplock true me ∧ b_refcnt x = 1 ∧ valid x = true ∧ holds_block 1 k x = true ∧ b_data x = d;
  rp_dirty i x : (i < NBUF)%nat → bufs s !! i = Some x → dirty x = true →
    b_dev x = 1 ∧ is_Some (pinned t !! b_blockno x) ∧
    (H !! i = None → pinned t !! b_blockno x = Some (b_data x));
  rp_pin k : is_Some (pinned t !! k) → ∃ i x, (i < NBUF)%nat ∧ bufs s !! i = Some x ∧
    holds_block 1 k x = true ∧ dirty x = true
}.

Section rep.
Variable me : Z.
Implicit Types (H : gmap nat (Z * block)) (s : bst) (t : store).

(** A block that the code holds is in one buffer only. *)
Lemma held_uniq H s t b k d i z : rep me H s t → H !! b = Some (k, d) → (i < NBUF)%nat →
  bufs s !! i = Some z → i ≠ b → holds_block 1 k z = false.
Proof.
  intros Hr Hb Hi Hz Hne. destruct (rp_held _ _ _ _ Hr b k d Hb) as (Hb' & x & Hx & _ & _ & _ & Hh & _).
  by eapply (holder_uniq s k b x i z (rp_ok _ _ _ _ Hr)).
Qed.

(** A buffer that holds a block is dirty when the block is pinned. *)
Lemma pinned_dirty H s t k i x : rep me H s t → (i < NBUF)%nat → bufs s !! i = Some x →
  holds_block 1 k x = true → dirty x = true ↔ is_Some (pinned t !! k).
Proof.
  intros Hr Hi Hx Hh. pose proof Hh as [Hd Hk]%holds_block_spec. split.
  - intros Hdx. destruct (rp_dirty _ _ _ _ Hr i x Hi Hx Hdx) as (_ & Hp & _). by rewrite Hk in Hp.
  - intros Hp. destruct (rp_pin _ _ _ _ Hr k Hp) as (j & y & Hj & Hy & Hhy & Hdy).
    destruct (decide (j = i)) as [->|Hne]; [congruence|].
    by rewrite (holder_uniq s k i x j y (rp_ok _ _ _ _ Hr)) in Hhy.
Qed.

Lemma NoDup_length_size {A} `{Countable A} (l : list A) (X : gset A) :
  NoDup l → (∀ x, x ∈ l → x ∈ X) → (length l ≤ size X)%nat.
Proof.
  intros Hl Hsub. rewrite <- (size_list_to_set (C := gset A) l Hl). apply subseteq_size.
  intros x Hx. apply Hsub. by apply elem_of_list_to_set in Hx.
Qed.

(** A buffer is left when fewer than [NBUF] are held or pinned. *)
Lemma room_recyclable H s t : rep me H s t → (size H + size (pinned t) < NBUF)%nat →
  ∃ i x, (i < NBUF)%nat ∧ bufs s !! i = Some x ∧ recyclable x = true.
Proof.
  intros Hr Hroom. pose proof (rp_ok _ _ _ _ Hr) as Hok. pose proof (bk_len _ Hok) as Hlen.
  assert (Hget : ∀ i, (i < NBUF)%nat → ∃ x, bufs s !! i = Some x) by (intros i Hi; apply lookup_lt_is_Some; lia).
  destruct (decide (Exists (λ i, (recyclable <$> bufs s !! i) = Some true) (seq 0 NBUF))) as [He|Hn].
  { apply Exists_exists in He as (i & Hi%elem_of_seq & Hrec). destruct (Hget i) as [x Hx]; [lia|].
    rewrite Hx in Hrec. injection Hrec as Hrec. exists i, x. split_and!; [lia|done..]. }
  exfalso. apply not_Exists_Forall in Hn; [|by intros ?; apply _]. rewrite Forall_forall in Hn.
  set (P := λ i, is_Some (H !! i)). set (bn := λ i, default 0 (b_blockno <$> bufs s !! i)).
  assert (Hd : ∀ i, (i < NBUF)%nat → ¬ P i → ∃ x, bufs s !! i = Some x ∧ dirty x = true).
  { intros i Hi Hp. destruct (Hget i Hi) as [x Hx]. exists x. split; [done|].
    assert (Hni : (recyclable <$> bufs s !! i) ≠ Some true) by (apply Hn, elem_of_seq; lia).
    rewrite Hx in Hni. apply eq_None_not_Some in Hp.
    destruct (rp_free _ _ _ _ Hr i x Hi Hx Hp) as [_ Hrc].
    apply not_false_is_true. intros Hdx. apply Hni. unfold recyclable. cbn. by rewrite Hrc, Hdx. }
  pose proof (Permutation_length (filter_app_complement P (seq 0 NBUF))) as Hsum.
  rewrite length_app, length_seq in Hsum.
  assert (H1 : (length (filter P (seq 0 NBUF)) ≤ size H)%nat).
  { rewrite <- size_dom. apply NoDup_length_size; [apply NoDup_filter, NoDup_seq|].
    intros i [Hi _]%list_elem_of_filter. by apply elem_of_dom. }
  assert (H2 : (length (filter (λ i, ¬ P i) (seq 0 NBUF)) ≤ size (pinned t))%nat).
  { rewrite <- size_dom, <- (length_fmap bn). apply NoDup_length_size.
    - apply NoDup_fmap_2_strong; [|apply NoDup_filter, NoDup_seq].
      intros i j [Hi Hi2%elem_of_seq]%list_elem_of_filter [Hj Hj2%elem_of_seq]%list_elem_of_filter.
      destruct (Hd i) as (x & Hx & Hdx); [lia|done|]. destruct (Hd j) as (y & Hy & Hdy); [lia|done|].
      unfold bn. rewrite Hx, Hy. cbn. intros E.
      destruct (rp_dirty _ _ _ _ Hr i x) as (E1 & _); [lia|done..|].
      destruct (rp_dirty _ _ _ _ Hr j y) as (E2 & _); [lia|done..|].
      apply (bk_uniq _ Hok i j x y); try done; lia.
    - intros k (i & -> & [Hi Hi2%elem_of_seq]%list_elem_of_filter)%list_elem_of_fmap.
      destruct (Hd i) as (x & Hx & Hdx); [lia|done|]. unfold bn. rewrite Hx. cbn. apply elem_of_dom.
      apply (rp_dirty _ _ _ _ Hr i x); [lia|done..]. }
  lia.
Qed.

(** One buffer, which the code then holds for block [k] with data [d], has
    changed. *)
Lemma rep_replace H s t s' t' b k d x z : rep me H s t → bcache_ok s' → bufs s' = <[b := z]> (bufs s) →
  memdisk s' = disk t' → disksize s' = dsize t' → (b < NBUF)%nat → bufs s !! b = Some x →
  b_lock z = Sleeplock true me → b_refcnt z = 1 → valid z = true → holds_block 1 k z = true → b_data z = d →
  (dirty z = true ↔ is_Some (pinned t' !! k)) → (holds_block 1 k x = true ∨ dirty x = false) →
  (∀ i y, (i < NBUF)%nat → i ≠ b → bufs s !! i = Some y → holds_block 1 k y = false) →
  (∀ k', k' ≠ k → pinned t' !! k' = pinned t !! k') → rep me (<[b := (k, d)]> H) s' t'.
Proof.
  intros Hr Hok Hbufs Hdisk Hsize Hb Hx Hzl Hzr Hzv Hzh Hzd Hzp Hxk Hno Hpin.
  assert (Hblt : (b < length (bufs s))%nat) by (by eapply lookup_lt_Some).
  assert (Hlk : ∀ i y, bufs s' !! i = Some y → (i = b ∧ y = z) ∨ (i ≠ b ∧ bufs s !! i = Some y)).
  { rewrite Hbufs. intros i y [(-> & -> & _)|(? & ?)]%list_lookup_insert_Some; auto. }
  pose proof Hzh as [Hz1 Hz2]%holds_block_spec.
  split; try done.
  - intros i y Hi [(-> & ->)|(Hib & Hy)]%Hlk; [done|]. by eapply (rp_dev _ _ _ _ Hr).
  - intros i y Hi [(-> & ->)|(Hib & Hy)]%Hlk Hn; [by rewrite lookup_insert_eq in Hn|].
    rewrite lookup_insert_ne in Hn by done. by eapply (rp_free _ _ _ _ Hr).
  - intros i k' d' Hi. destruct (decide (i = b)) as [->|Hne].
    + rewrite lookup_insert_eq in Hi. injection Hi as <- <-. split; [done|]. exists z.
      rewrite Hbufs, list_lookup_insert_eq by done. split_and!; done.
    + rewrite lookup_insert_ne in Hi by done. rewrite Hbufs, list_lookup_insert_ne by done. by apply (rp_held _ _ _ _ Hr).
  - intros i y Hi [(-> & ->)|(Hib & Hy)]%Hlk Hd.
    + rewrite Hz2, lookup_insert_eq. split_and!; [done|by apply Hzp|done].
    + destruct (rp_dirty _ _ _ _ Hr i y Hi Hy Hd) as (E1 & E2 & E3). rewrite lookup_insert_ne, Hpin; [done| |done].
      intros E. assert (holds_block 1 k y = true) by (by apply holds_block_spec). by rewrite (Hno i y) in *.
  - intros k' Hk'. rewrite Hbufs. destruct (decide (k' = k)) as [->|Hne].
    + exists b, z. rewrite list_lookup_insert_eq by done. split_and!; try done. by apply Hzp.
    + rewrite Hpin in Hk' by done. destruct (rp_pin _ _ _ _ Hr k' Hk') as (i & y & Hi & Hy & Hh & Hd).
      exists i, y. rewrite list_lookup_insert_ne; [done|]. intros <-. assert (y = x) as -> by congruence.
      destruct Hxk as [Hxk|?]; [|congruence]. apply holds_block_spec in Hxk, Hh. destruct Hxk, Hh. congruence.
Qed.

(** What the store shows is what the cache and the disk hold. *)
Lemma rep_sview H s t k b x : rep me H s t → (b < NBUF)%nat → bufs s !! b = Some x → H !! b = None →
  (∀ i y, (i < NBUF)%nat → i ≠ b → bufs s !! i = Some y → holds_block 1 k y = false) →
  (if holds_block 1 k x && valid x then b_data x else disk_block s k) = sview t k.
Proof.
  intros Hr Hb Hx HbH Hno. pose proof (rp_ok _ _ _ _ Hr) as Hok.
  assert (Hdisk : disk_block s k = blk (disk t) k) by (unfold disk_block, blk; by rewrite (rp_disk _ _ _ _ Hr)).
  unfold sview. destruct (pinned t !! k) as [d|] eqn:Hp; cbn.
  - destruct (rp_pin _ _ _ _ Hr k) as (i & y & Hi & Hy & Hh & Hd); [by rewrite Hp|].
    assert (i = b) as -> by (destruct (decide (i = b)); [done|]; by rewrite (Hno i y) in Hh).
    assert (y = x) as -> by congruence. rewrite Hh, (bk_dirty _ Hok b x Hb Hx Hd). cbn.
    destruct (rp_dirty _ _ _ _ Hr b x Hb Hx Hd) as (_ & _ & E). apply holds_block_spec in Hh as [_ Hk].
    specialize (E HbH). rewrite Hk in E. congruence.
  - destruct (holds_block 1 k x) eqn:Hh; [|done]. destruct (valid x) eqn:Hv; [|done]. cbn.
    pose proof Hh as [_ Hk]%holds_block_spec. rewrite <- Hdisk, <- Hk.
    destruct (rp_free _ _ _ _ Hr b x Hb Hx HbH) as [Hl _]. apply (bk_clean _ Hok b x); try done.
    apply not_true_is_false. intros Hd. apply (pinned_dirty H s t k b x) in Hd as [d Hd]; [congruence|done..].
Qed.

(** [bread] gives the block as the store shows it. *)
Lemma rep_bread H s t k : rep me H s t → 0 ≤ k < dsize t →
  (∀ i k' d, H !! i = Some (k', d) → k' ≠ k) →
  is_Some (pinned t !! k) ∨ (size H + size (pinned t) < NBUF)%nat →
  ∃ b s', bread me 1 k s = Ok b s' ∧ H !! b = None ∧ rep me (<[b := (k, sview t k)]> H) s' t.
Proof.
  intros Hr Hk Hnh Hroom. pose proof (rp_ok _ _ _ _ Hr) as Hok.
  assert (Hfree : ∀ i x, (i < NBUF)%nat → bufs s !! i = Some x → holds_block 1 k x = true → H !! i = None).
  { intros i x Hi Hx Hh. destruct (H !! i) as [[k' d]|] eqn:E; [|done].
    destruct (rp_held _ _ _ _ Hr i k' d E) as (_ & y & Hy & _ & _ & _ & Hhy & _).
    assert (y = x) as -> by congruence. apply holds_block_spec in Hh, Hhy. destruct (Hnh i k' d E). by destruct Hh, Hhy; congruence. }
  destruct (bread_run me s k Hok) as (b & x & z & Hrun & Hb & Hx & Hzn & Hzp & Hzh & Hzl & Hzr & Hzv & Hzd & Hor & Hno & Hrc & Hdz).
  { by rewrite (rp_size _ _ _ _ Hr). }
  { intros i x Hi Hx Hh. destruct (rp_free _ _ _ _ Hr i x Hi Hx (Hfree i x Hi Hx Hh)). split; [done|lia]. }
  { destruct Hroom as [Hp|Hroom].
    - destruct (rp_pin _ _ _ _ Hr k Hp) as (i & x & Hi & Hx & Hh & _). exists i, x. auto.
    - destruct (room_recyclable H s t Hr Hroom) as (i & x & Hi & Hx & Hrec). exists i, x. auto. }
  assert (Hblt : (b < length (bufs s))%nat) by (by eapply lookup_lt_Some).
  assert (HbH : H !! b = None).
  { destruct Hor as [Hh|Hrec]; [by eapply Hfree|]. destruct (H !! b) as [[k' d]|] eqn:E; [|done].
    destruct (rp_held _ _ _ _ Hr b k' d E) as (_ & y & Hy & _ & Hy1 & _). assert (y = x) as -> by congruence.
    unfold recyclable in Hrec. rewrite Hy1 in Hrec. done. }
  destruct (rp_free _ _ _ _ Hr b x Hb Hx HbH) as [Hlx Hrx].
  exists b. eexists. split; [exact Hrun|]. split; [done|].
  eapply (rep_replace H s t _ t b k _ x z); try done.
  - apply (bcache_ok_replace s b x z k); try done. by rewrite Hzl.
  - by apply Hr.
  - by apply Hr.
  - rewrite Hrc. destruct (holds_block 1 k x); lia.
  - rewrite Hzd. by eapply rep_sview.
  - rewrite Hdz. destruct (holds_block 1 k x) eqn:E; [by eapply pinned_dirty|].
    split; [done|]. intros Hp. destruct (rp_pin _ _ _ _ Hr k Hp) as (i & y & Hi & Hy & Hh & _).
    destruct (decide (i = b)) as [->|]; [congruence|]. by rewrite (Hno i y) in Hh.
  - destruct Hor as [?|Hrec]; [by left|right]. unfold recyclable in Hrec.
    apply andb_true_iff in Hrec as [_ ?%negb_true_iff]. done.
Qed.

(** The data of a buffer in hand. *)
Lemma rep_data H s t b k d : rep me H s t → H !! b = Some (k, d) →
  ∃ x, bufs s !! b = Some x ∧ b_data x = d ∧ b_blockno x = k.
Proof.
  intros Hr Hb. destruct (rp_held _ _ _ _ Hr b k d Hb) as (_ & x & Hx & _ & _ & _ & [_ Hk]%holds_block_spec & Hd).
  by exists x.
Qed.

(** Changing the data. *)
Lemma rep_move H s t b k d d' : rep me H s t → H !! b = Some (k, d) →
  rep me (<[b := (k, d')]> H) (set_bufs (alter (set_data d') b (bufs s)) s) t.
Proof.
  intros Hr Hb. destruct (rp_held _ _ _ _ Hr b k d Hb) as (Hb' & x & Hx & Hl & Hrc & Hv & Hh & Hd).
  rewrite (alter_buf _ _ _ _ Hx).
  eapply (rep_replace H s t _ t b k d' x (set_data d' x)); try done; [|apply Hr|apply Hr| |by left|].
  - apply (bcache_ok_replace s b x _ k); try done; [apply Hr|by cbn; rewrite Hl|by cbn; rewrite Hrc|].
    intros i y Hi Hne Hy. by eapply held_uniq.
  - by eapply (pinned_dirty H s t k b x).
  - intros i y Hi Hne Hy. by eapply held_uniq.
Qed.

(** Marking a buffer dirty pins it. *)
Lemma rep_pin_buf H s t b k d : rep me H s t → H !! b = Some (k, d) →
  rep me H (set_bufs (alter (λ x, set_flags (Z.lor (b_flags x) B_DIRTY) x) b (bufs s)) s)
    (Store (disk t) (<[k := d]> (pinned t)) (dsize t) (writes t)).
Proof.
  intros Hr Hb. destruct (rp_held _ _ _ _ Hr b k d Hb) as (Hb' & x & Hx & Hl & Hrc & Hv & Hh & Hd).
  rewrite (alter_buf _ _ _ _ Hx). rewrite <- (insert_id H b (k, d)) at 1 by done.
  assert (Hv' : valid (set_flags (Z.lor (b_flags x) B_DIRTY) x) = true).
  { rewrite valid_bit in *. cbn [b_flags set_flags]. by rewrite Z.lor_spec, Hv. }
  eapply (rep_replace H s t _ _ b k d x); try done; [|apply Hr|apply Hr| |by left| |].
  - apply (bcache_ok_replace s b x _ k); try done; [apply Hr|by cbn; rewrite Hl|by cbn; rewrite Hrc|].
    intros i y Hi Hne Hy. by eapply held_uniq.
  - rewrite dirty_bit. cbn [b_flags set_flags pinned]. rewrite Z.lor_spec, lookup_insert_eq. split; [done|].
    intros _. apply orb_true_r.
  - intros i y Hi Hne Hy. by eapply held_uniq.
  - intros k' Hk'. cbn [pinned]. by rewrite lookup_insert_ne.
Qed.

(** [bwrite] of a buffer in hand. *)
Lemma bwrite_run s b x : bufs s !! b = Some x → b_lock x = Sleeplock true me → valid x = true →
  b_dev x = 1 → b_blockno x < disksize s →
  ∃ z, bwrite me b s = Ok tt (Bst (<[b := z]> (bufs s)) (<[b_blockno x := b_data x]> (memdisk s)) (disksize s)) ∧
    (∃ f, z = set_flags f x) ∧ valid z = true ∧ dirty z = false.
Proof.
  intros Hx Hl Hv Hd Hk. assert (Hlt : (b < length (bufs s))%nat) by (by eapply lookup_lt_Some).
  unfold bwrite. erewrite bind_holdingsleep by exact Hx. rewrite Hl. cbn [slocked spid].
  rewrite Z.eqb_refl. cbn [andb negb]. erewrite bind_upd_buf' by exact Hx.
  set (x1 := set_flags (Z.lor (b_flags x) B_DIRTY) x).
  assert (Hd1 : dirty x1 = true) by (rewrite dirty_bit; cbn [x1 b_flags set_flags]; rewrite Z.lor_spec; apply orb_true_r).
  unfold iderw. erewrite bind_holdingsleep by (by apply list_lookup_insert_eq). cbn [x1 b_lock set_flags].
  rewrite Hl. cbn [slocked spid]. rewrite Z.eqb_refl. cbn [andb negb]. fold x1.
  erewrite bind_buf_at by (by apply list_lookup_insert_eq).
  rewrite valid_clean, <- valid_bit, <- dirty_bit, Hd1, andb_false_r.
  cbn [x1 b_dev set_flags b_blockno]. rewrite Hd. cbn [Z.eqb Pos.eqb negb]. rewrite bind_gets.
  cbn [disksize set_bufs]. rewrite (proj2 (Z.leb_gt _ _)) by done. fold x1.
  change (negb (Z.land (b_flags x1) B_DIRTY =? 0)) with (dirty x1). rewrite Hd1.
  rewrite bind_assoc. erewrite bind_upd_buf' by (by apply list_lookup_insert_eq). rewrite bind_modify.
  unfold upd_buf, modify. cbn [bufs set_bufs memdisk disksize].
  erewrite alter_buf by (apply list_lookup_insert_eq; by rewrite length_insert).
  rewrite !list_insert_insert_eq. eexists. split; [reflexivity|]. cbn [x1 b_flags set_flags].
  split_and!; [by eexists|apply valid_lor|]. rewrite dirty_bit. cbn [b_flags set_flags].
  rewrite Z.lor_spec, Z.land_spec, Z.lnot_spec by lia. change (Z.testbit B_DIRTY 2) with true.
  change (Z.testbit B_VALID 2) with false. by rewrite andb_false_r.
Qed.

Lemma rep_bwrite H s t b k d : rep me H s t → H !! b = Some (k, d) → 0 ≤ k < dsize t →
  ∃ s', bwrite me b s = Ok tt s' ∧ rep me H s' (wr t (k, d)).
Proof.
  intros Hr Hb Hk. pose proof (rp_ok _ _ _ _ Hr) as Hok.
  destruct (rp_held _ _ _ _ Hr b k d Hb) as (Hb' & x & Hx & Hl & Hrc & Hv & Hh & Hd).
  pose proof Hh as [Hdev Hbn]%holds_block_spec.
  destruct (bwrite_run s b x Hx Hl Hv Hdev) as (z & Hrun & [f ->] & Hzv & Hzd).
  { rewrite Hbn, (rp_size _ _ _ _ Hr). lia. }
  eexists. split; [exact Hrun|]. rewrite <- (insert_id H b (k, d)) at 1 by done. rewrite Hbn, Hd.
  assert (Hno : ∀ i y, (i < NBUF)%nat → i ≠ b → bufs s !! i = Some y → holds_block 1 k y = false).
  { intros i y Hi Hne Hy. by eapply held_uniq. }
  assert (Hok' : bcache_ok (set_bufs (<[b := set_flags f x]> (bufs s)) s)).
  { apply (bcache_ok_replace s b x _ k); try done; [by cbn; rewrite Hl|by cbn; rewrite Hrc]. }
  eapply (rep_replace H s t _ _ b k d x (set_flags f x)); try done; [| | | |by left|].
  - destruct Hok' as [O1 O2 O3 O4 O5 O6]. split; try done.
    intros i y Hi Hy Hyv Hyd Hyl. cbn [bufs] in Hy.
    apply list_lookup_insert_Some in Hy as Hy'. destruct Hy' as [(-> & <- & _)|[Hne Hy']].
    { cbn [b_lock set_flags] in Hyl. rewrite Hl in Hyl. done. }
    rewrite (O5 i y Hi Hy Hyv Hyd Hyl). unfold disk_block. cbn [memdisk set_bufs]. rewrite lookup_insert_ne; [done|].
    intros E. assert (holds_block 1 k y = true) as Hhy.
    { apply holds_block_spec. split; [by apply (rp_dev _ _ _ _ Hr i)|done]. }
    rewrite (Hno i y) in Hhy; done.
  - cbn [memdisk]. by rewrite (rp_disk _ _ _ _ Hr).
  - apply Hr.
  - rewrite Hzd. cbn [pinned wr fst]. rewrite lookup_delete_eq. split; [done|]. by intros [? ?].
  - intros k' Hk'. cbn [pinned wr fst]. by rewrite lookup_delete_ne.
Qed.

(** [brelse] of a buffer in hand that shows what the store shows. *)
Lemma rep_brelse H s t b k : rep me H s t → H !! b = Some (k, sview t k) →
  ∃ s', brelse me b s = Ok tt s' ∧ rep me (delete b H) s' t.
Proof.
  intros Hr Hb. pose proof (rp_ok _ _ _ _ Hr) as Hok. destruct (bk_ring _ Hok) as [l Hl].
  destruct (rp_held _ _ _ _ Hr b k _ Hb) as (Hb' & x & Hx & Hlk & Hrc & Hv & Hh & Hd).
  pose proof Hh as [Hdev Hbn]%holds_block_spec. pose proof Hl as (_ & _ & Hmem).
  destruct (list_elem_of_split l b) as (l1 & l2 & ->); [by apply Hmem|].
  assert (Hp : dirty x = true → pinned t !! k = Some (b_data x)).
  { intros Hdx. apply (pinned_dirty H s t k b x) in Hdx as [v Hv']; [|done..].
    rewrite Hv', Hd. unfold sview. by rewrite Hv'. }
  destruct (brelse_correct me s b x l1 l2) as (bs' & Hrun & Hok' & _ & Hpay & _); [done..|lia| |].
  { intros _ Hdx. rewrite Hd, Hbn. unfold sview, disk_block, blk. rewrite (rp_disk _ _ _ _ Hr).
    destruct (pinned t !! k) as [v|] eqn:E; [|done].
    assert (dirty x = true) by (apply (pinned_dirty H s t k b x); done || by rewrite E). congruence. }
  eexists. split; [exact Hrun|].
  assert (Hlk' : ∀ i y, bs' !! i = Some y → ∃ w, payload w = payload y ∧
    ((i = b ∧ w = released_buf x) ∨ (i ≠ b ∧ bufs s !! i = Some w))).
  { intros i y Hy. rewrite <- list_fmap_insert in Hpay. destruct (payload_lookup _ _ _ _ Hpay Hy) as (w & Hw & E).
    exists w. split; [done|]. apply list_lookup_insert_Some in Hw. naive_solver. }
  assert (Hget : ∀ i w, i ≠ b → bufs s !! i = Some w → ∃ y, bs' !! i = Some y ∧ payload y = payload w).
  { intros i w Hne Hw. apply (payload_lookup bs' (<[b := released_buf x]> (bufs s))); [by rewrite list_fmap_insert|].
    by rewrite list_lookup_insert_ne. }
  split; try done; [apply Hr|apply Hr|..]; cbn [bufs set_bufs].
  - intros i y Hi (w & Ew%payload_eq & Hw)%Hlk'. unfold valid. destruct Ew as (<- & <- & _).
    destruct Hw as [[-> ->]|[Hne Hw]]; [done|]. by apply (rp_dev _ _ _ _ Hr i).
  - intros i y Hi (w & Ew%payload_eq & Hw)%Hlk' Hn. destruct Ew as (_ & _ & _ & <- & <- & _).
    destruct Hw as [[-> ->]|[Hne Hw]].
    + split; [done|]. cbn [released_buf b_refcnt set_refcnt set_lock]. by rewrite Hrc.
    + apply (rp_free _ _ _ _ Hr i); [done..|]. by rewrite lookup_delete_ne in Hn.
  - intros i k' d' [Hne Hi]%lookup_delete_Some. destruct (rp_held _ _ _ _ Hr i k' d' Hi) as (Hi' & w & Hw & F).
    split; [done|]. destruct (Hget i w) as (y & Hy & Ey%payload_eq); [done..|]. exists y. split; [done|].
    unfold valid, holds_block in *. by destruct Ey as (-> & -> & -> & -> & -> & ->).
  - intros i y Hi (w & Ew%payload_eq & Hw)%Hlk'. unfold dirty. destruct Ew as (<- & <- & <- & _ & _ & <-).
    destruct Hw as [[-> ->]|[Hne Hw]]; intros Hdw.
    + cbn [released_buf b_dev b_blockno b_data set_refcnt set_lock] in *. rewrite Hbn, (Hp Hdw). done.
    + rewrite lookup_delete_ne by done. by apply (rp_dirty _ _ _ _ Hr i).
  - intros k' Hk'. destruct (rp_pin _ _ _ _ Hr k' Hk') as (i & w & Hi & Hw & F).
    assert (Hy : ∃ y, bs' !! i = Some y ∧ b_flags y = b_flags w ∧ b_dev y = b_dev w ∧ b_blockno y = b_blockno w).
    { destruct (decide (i = b)) as [->|Hne].
      - assert (w = x) as -> by congruence.
        destruct (payload_lookup bs' (<[b := released_buf x]> (bufs s)) b (released_buf x)) as (y & Hy & Ey%payload_eq).
        + by rewrite list_fmap_insert.
        + apply list_lookup_insert_eq. by eapply lookup_lt_Some.
        + exists y. destruct Ey as (? & ? & ? & _). done.
      - destruct (Hget i w Hne Hw) as (y & Hy & Ey%payload_eq). exists y. destruct Ey as (? & ? & ? & _). done. }
    destruct Hy as (y & Hy & E1 & E2 & E3). exists i, y. unfold holds_block, dirty in *. by rewrite E1, E2, E3.
Qed.

End rep.

(** ** Refinement *)

Section refinement.
Variable me : Z.
Implicit Types (H : gmap nat (Z * block)) (c : cst) (t : store) (l : log_st).

Record crel H c (a : lst) : Prop := {
  cr_log : c_log c = log a;
  cr_rep : rep me H (c_cache c) (store_of a);
  cr_writes : c_writes c = writes (store_of a)
}.

Lemma on_cache_run {A} (m : M bst A) c r s' : m (c_cache c) = Ok r s' →
  on_cache m c = Ok r (Cst (c_log c) s' (c_writes c)).
Proof. intros E. unfold on_cache, zoom. by rewrite E. Qed.

(** The calls, one by one. *)
Lemma c_bread_run H c l t k : crel H c (Lst l t) → 0 ≤ u32 k < dsize t →
  (∀ i k' d, H !! i = Some (k', d) → k' ≠ u32 k) →
  is_Some (pinned t !! u32 k) ∨ (size H + size (pinned t) < NBUF)%nat →
  ∃ b c', c_bread me k c = Ok b c' ∧ H !! b = None ∧ crel (<[b := (u32 k, sview t (u32 k))]> H) c' (Lst l t).
Proof.
  intros [E1 E2 E3] Hk Hn Hroom. destruct (rep_bread me H _ t _ E2 Hk Hn Hroom) as (b & s' & Hrun & Hb & Hr).
  exists b. eexists. split; [by apply on_cache_run|]. by split.
Qed.

Lemma c_buf_run H c l t b k d : crel H c (Lst l t) → H !! b = Some (k, d) →
  ∃ x, b_data x = d ∧ b_blockno x = k ∧ on_cache (buf_at b) c = Ok x c.
Proof.
  intros [_ E2 _] Hb. destruct (rep_data me H _ t b k d E2 Hb) as (x & Hx & Hd & Hbn). exists x. split_and!; [done..|].
  erewrite on_cache_run by (unfold buf_at, gets, deref, bind; by rewrite Hx). by destruct c.
Qed.

Lemma c_data_run {A} H c l t b k d (f : block → M cst A) : crel H c (Lst l t) → H !! b = Some (k, d) →
  bind (c_data b) f c = f d c.
Proof.
  intros Hr Hb. unfold c_data. rewrite bind_assoc.
  destruct (c_buf_run H c l t b k d Hr Hb) as (x & <- & _ & E). by rewrite (bind_ok _ _ _ _ _ E).
Qed.

Lemma c_move_run H c l t b k d d' : crel H c (Lst l t) → H !! b = Some (k, d) →
  ∃ c', c_move b d' c = Ok tt c' ∧ crel (<[b := (k, d')]> H) c' (Lst l t).
Proof.
  intros [E1 E2 E3] Hb. eexists. split; [by apply on_cache_run|]. split; [done| |done]. by eapply rep_move.
Qed.

Lemma c_bwrite_run H c l t b k d : crel H c (Lst l t) → H !! b = Some (k, d) → 0 ≤ k < dsize t →
  ∃ c', c_bwrite me b c = Ok tt c' ∧ crel H c' (Lst l (wr t (k, d))).
Proof.
  intros Hr0 Hb Hk. unfold c_bwrite. destruct (c_buf_run H c l t b k d Hr0 Hb) as (x & Hd & Hbn & E0).
  rewrite (bind_ok _ _ _ _ _ E0).
  destruct Hr0 as [E1 E2 E3]. destruct (rep_bwrite me H _ t b k d E2 Hb Hk) as (s' & Hrun & Hr).
  eexists. split.
  - erewrite bind_ok by (apply on_cache_run; exact Hrun). reflexivity.
  - split; [done|done|]. cbn. by rewrite E3, Hd, Hbn.
Qed.

Lemma c_brelse_run H c l t b k : crel H c (Lst l t) → H !! b = Some (k, sview t k) →
  ∃ c', c_brelse me b c = Ok tt c' ∧ crel (delete b H) c' (Lst l t).
Proof.
  intros [E1 E2 E3] Hb. destruct (rep_brelse me H _ t b k E2 Hb) as (s' & Hrun & Hr).
  eexists. split; [by apply on_cache_run|]. by split.
Qed.

Lemma sview_wr_eq t k d : sview (wr t (k, d)) k = d.
Proof. unfold sview, wr, blk. cbn. by rewrite lookup_delete_eq, lookup_insert_eq. Qed.
Lemma sview_wr_ne t k k' d : k ≠ k' → sview (wr t (k, d)) k' = sview t k'.
Proof. intros Hk. unfold sview, wr, blk. cbn. by rewrite lookup_delete_ne, lookup_insert_ne. Qed.

(** The body of the loops of [install_trans] and [write_log]: copy, write, give
    both buffers back. *)
Definition c_copy (src dst : nat) : M cst unit :=
  d <- c_data src ;;
  c_move dst d ;;;
  c_bwrite me dst ;;;
  c_brelse me src ;;;
  c_brelse me dst.

Lemma c_copy_run c l t src dst ks kd v : src ≠ dst → ks ≠ kd → 0 ≤ kd < dsize t →
  crel (<[dst := (kd, v)]> {[src := (ks, sview t ks)]}) c (Lst l t) →
  ∃ c', c_copy src dst c = Ok tt c' ∧ crel ∅ c' (Lst l (wr t (kd, sview t ks))).
Proof.
  intros Hne Hk Hkd Hr. unfold c_copy.
  erewrite c_data_run; [|exact Hr|by rewrite lookup_insert_ne, lookup_singleton_eq].
  destruct (c_move_run _ _ _ _ dst kd v (sview t ks) Hr) as (c1 & E1 & R1); [apply lookup_insert_eq|].
  erewrite bind_ok by exact E1. rewrite insert_insert_eq in R1.
  destruct (c_bwrite_run _ _ _ _ dst kd (sview t ks) R1) as (c2 & E2 & R2); [apply lookup_insert_eq|done|].
  erewrite bind_ok by exact E2.
  destruct (c_brelse_run _ _ _ _ src ks R2) as (c3 & E3 & R3).
  { rewrite lookup_insert_ne, lookup_singleton_eq by done. by rewrite sview_wr_ne. }
  erewrite bind_ok by exact E3.
  destruct (c_brelse_run _ _ _ _ dst kd R3) as (c4 & E4 & R4).
  { rewrite lookup_delete_ne, lookup_insert_eq by done. by rewrite sview_wr_eq. }
  exists c4. split; [done|]. rewrite delete_insert_ne, delete_singleton_eq, delete_insert_id in R4; done.
Qed.

Lemma c_copy_bind {A} src dst (K : M cst A) c :
  (d <- c_data src ;; c_move dst d ;;; c_bwrite me dst ;;; c_brelse me src ;;; c_brelse me dst ;;; K) c =
  bind (c_copy src dst) (λ _, K) c.
Proof.
  unfold c_copy, bind. destruct (c_data src c) as [d c1|]; [|done]. destruct (c_move dst d c1) as [? c2|]; [|done].
  destruct (c_bwrite me dst c2) as [? c3|]; [|done]. by destruct (c_brelse me src c3).
Qed.

(** The calls of [Log] that the ones here refine. *)
Lemma sread_inv k l t d a : on_store (sread k) (Lst l t) = Ok d a →
  a = Lst l t ∧ 0 ≤ u32 k < dsize t ∧ d = sview t (u32 k).
Proof.
  unfold on_store, zoom, sread, bind, get. cbn. destruct (Z.leb_spec (dsize t) (u32 k)); [done|].
  intros [= <- <-]. pose proof (u32_range k). split_and!; [done|lia..|done].
Qed.

Lemma lh_get_inv i l t b a : lh_get i (Lst l t) = Ok b a → a = Lst l t ∧ lh_block l !! i = Some b.
Proof. unfold lh_get, bind, gets, deref. cbn. destruct (lh_block l !! i); [|done]. by intros [= <- <-]. Qed.

Lemma c_lh_get_run {A} H c l t i b (f : Z → M cst A) : crel H c (Lst l t) → lh_block l !! i = Some b →
  bind (c_lh_get i) f c = f b c.
Proof. intros [E _ _] Hb. cbn in E. unfold c_lh_get, bind, gets, deref. by rewrite E, Hb. Qed.

Lemma c_start_run {A} H c l t (f : Z → M cst A) : crel H c (Lst l t) →
  bind (gets (λ c, lg_start (c_log c))) f c = f (lg_start l) c.
Proof. intros [E _ _]. by rewrite bind_gets, E. Qed.

Lemma c_n_run {A} H c l t (f : Z → M cst A) : crel H c (Lst l t) →
  bind (gets (λ c, lh_n (c_log c))) f c = f (lh_n l) c.
Proof. intros [E _ _]. by rewrite bind_gets, E. Qed.

Lemma on_clog_run H c l t g : crel H c (Lst l t) → ∃ c', on_clog g c = Ok tt c' ∧ crel H c' (Lst (g l) t).
Proof. intros [E1 E2 E3]. eexists. split; [reflexivity|]. split; [cbn; by rewrite E1|done|done]. Qed.

(** A log block is never the home of the block logged in it, and a buffer is
    left for it. *)
Definition sep l : Prop := ∀ i b, Z.of_nat i < lh_n l → lh_block l !! i = Some b →
  u32 (lg_start l + Z.of_nat i + 1) ≠ u32 b.
Definition roomy l t : Prop := (size (pinned t) < NBUF)%nat ∧
  ∀ i b, Z.of_nat i < lh_n l → lh_block l !! i = Some b →
    is_Some (pinned t !! u32 b) ∨ (S (size (pinned t)) < NBUF)%nat.

Lemma roomy_wr l t k d : roomy l t → roomy l (wr t (k, d)).
Proof.
  intros [R1 R2]. unfold roomy. cbn [pinned wr fst]. destruct (pinned t !! k) as [v|] eqn:E.
  - pose proof (map_size_delete_Some k (pinned t)) as Hs. rewrite E in Hs. specialize (Hs ltac:(by eexists)).
    pose proof (map_size_ne_0_lookup_2 (pinned t) k ltac:(by rewrite E)).
    rewrite Hs. split; [lia|]. intros i b Hi Hb. right. lia.
  - by rewrite delete_id.
Qed.

(** The two buffers of one round. *)
Lemma c_two_run c l t i b : crel ∅ c (Lst l t) → sep l → roomy l t →
  Z.of_nat i < lh_n l → lh_block l !! i = Some b →
  0 ≤ u32 (lg_start l + Z.of_nat i + 1) < dsize t → 0 ≤ u32 b < dsize t →
  ∃ b1 b2 c', b1 ≠ b2 ∧
    (∀ f : nat → nat → M cst unit,
       (b1 <- c_bread me (lg_start l + Z.of_nat i + 1) ;; b <- c_lh_get i ;; b2 <- c_bread me b ;; f b1 b2) c =
       f b1 b2 c') ∧
    crel (<[b2 := (u32 b, sview t (u32 b))]>
           {[b1 := (u32 (lg_start l + Z.of_nat i + 1), sview t (u32 (lg_start l + Z.of_nat i + 1)))]}) c' (Lst l t).
Proof.
  intros Hr Hsep [R1 R2] Hi Hb Hk1 Hk2.
  destruct (c_bread_run ∅ c l t _ Hr Hk1) as (b1 & c1 & E1 & _ & Hr1); [done|right; by rewrite map_size_empty|].
  destruct (c_bread_run _ c1 l t b Hr1 Hk2) as (b2 & c2 & E2 & Hn & Hr2).
  - intros j k' d [(<- & [= <- _])|[_ Hj]]%lookup_insert_Some; [by apply (Hsep i)|done].
  - destruct (R2 i b Hi Hb) as [?|?]; [by left|right]. by rewrite insert_empty, map_size_singleton.
  - exists b1, b2, c2. split_and!; [|intros f|exact Hr2].
    + intros ->. by rewrite lookup_insert_eq in Hn.
    + rewrite (bind_ok _ _ _ _ _ E1). erewrite c_lh_get_run; [|exact Hr1|exact Hb]. by rewrite (bind_ok _ _ _ _ _ E2).
Qed.

Lemma install_sim n : ∀ tail c l t a', crel ∅ c (Lst l t) → sep l → roomy l t →
  (∀ i, (i < tail + n)%nat → Z.of_nat i < lh_n l) → install_loop n tail (Lst l t) = Ok tt a' →
  ∃ c' t', c_install_loop me n tail c = Ok tt c' ∧ a' = Lst l t' ∧ crel ∅ c' a' ∧ roomy l t'.
Proof.
  induction n as [|n IH]; intros tail c l t a' Hr Hs Hroom Hn Ha.
  { injection Ha as <-. by exists c, t. }
  cbn [install_loop] in Ha. rewrite bind_gets in Ha. cbn [log] in Ha.
  apply bind_inv in Ha as (d1 & a1 & (-> & Hk1 & ->)%sread_inv & Ha).
  apply bind_inv in Ha as (b & a2 & (-> & Hb)%lh_get_inv & Ha).
  apply bind_inv in Ha as (d2 & a3 & (-> & Hk2 & ->)%sread_inv & Ha).
  apply bind_inv in Ha as ([] & a4 & [= <-] & Ha).
  cbn [c_install_loop]. erewrite c_start_run by exact Hr.
  destruct (c_two_run c l t tail b) as (b1 & b2 & c1 & Hne & E0 & Hr1); [done|done|done|apply Hn; lia|done|done|done|].
  rewrite E0, c_copy_bind.
  edestruct (c_copy_run c1 l t b1 b2) as (c2 & E & Hr2); [done|apply (Hs tail b); [apply Hn; lia|done]|done|exact Hr1|].
  rewrite (bind_ok _ _ _ _ _ E). eapply IH; [exact Hr2|done|by apply roomy_wr|intros i Hi; apply Hn; lia|exact Ha].
Qed.

Lemma write_log_sim n : ∀ tail c l t a', crel ∅ c (Lst l t) → sep l → roomy l t →
  (∀ i, (i < tail + n)%nat → Z.of_nat i < lh_n l) → write_log_loop n tail (Lst l t) = Ok tt a' →
  ∃ c' t', c_write_log_loop me n tail c = Ok tt c' ∧ a' = Lst l t' ∧ crel ∅ c' a' ∧ roomy l t'.
Proof.
  induction n as [|n IH]; intros tail c l t a' Hr Hs Hroom Hn Ha.
  { injection Ha as <-. by exists c, t. }
  cbn [write_log_loop] in Ha. rewrite bind_gets in Ha. cbn [log] in Ha.
  apply bind_inv in Ha as (d1 & a1 & (-> & Hk1 & ->)%sread_inv & Ha).
  apply bind_inv in Ha as (b & a2 & (-> & Hb)%lh_get_inv & Ha).
  apply bind_inv in Ha as (d2 & a3 & (-> & Hk2 & ->)%sread_inv & Ha).
  apply bind_inv in Ha as ([] & a4 & [= <-] & Ha).
  cbn [c_write_log_loop]. erewrite c_start_run by exact Hr.
  destruct (c_two_run c l t tail b) as (b1 & b2 & c1 & Hne & E0 & Hr1); [done|done|done|apply Hn; lia|done|done|done|].
  rewrite E0, c_copy_bind. rewrite <- insert_empty, insert_insert_ne, insert_empty in Hr1 by done.
  edestruct (c_copy_run c1 l t b2 b1) as (c2 & E & Hr2);
    [done|apply not_eq_sym, (Hs tail b); [apply Hn; lia|done]|done|exact Hr1|].
  rewrite (bind_ok _ _ _ _ _ E). eapply IH; [exact Hr2|done|by apply roomy_wr|intros i Hi; apply Hn; lia|exact Ha].
Qed.

(** [write_head] builds the header in the buffer. *)
Lemma write_head_loop_sim n : ∀ i c l t b k d d' a', crel {[b := (k, d)]} c (Lst l t) →
  write_head_loop n i d (Lst l t) = Ok d' a' →
  ∃ c', c_write_head_loop b n i c = Ok tt c' ∧ a' = Lst l t ∧ crel {[b := (k, d')]} c' (Lst l t).
Proof.
  induction n as [|n IH]; intros i c l t b k d d' a' Hr Ha.
  { injection Ha as <- <-. by exists c. }
  cbn [write_head_loop] in Ha. apply bind_inv in Ha as (v & a2 & (-> & Hv)%lh_get_inv & Ha).
  cbn [c_write_head_loop]. erewrite c_lh_get_run; [|exact Hr|exact Hv].
  erewrite c_data_run; [|exact Hr|apply lookup_singleton_eq].
  destruct (c_move_run _ _ _ _ b k d (put32 d (4 + 4 * i) v) Hr) as (c1 & E1 & R1); [apply lookup_singleton_eq|].
  rewrite (bind_ok _ _ _ _ _ E1). rewrite insert_singleton_eq in R1. by eapply IH.
Qed.

Lemma write_head_sim c l t a' : crel ∅ c (Lst l t) → (size (pinned t) < NBUF)%nat →
  write_head (Lst l t) = Ok tt a' →
  ∃ c' k d, c_write_head me c = Ok tt c' ∧ a' = Lst l (wr t (k, d)) ∧ crel ∅ c' a'.
Proof.
  intros Hr Hroom Ha. unfold write_head in Ha. rewrite bind_gets in Ha. cbn [log] in Ha.
  apply bind_inv in Ha as (d1 & a1 & (-> & Hk & ->)%sread_inv & Ha). rewrite bind_gets in Ha. cbn [log] in Ha.
  apply bind_inv in Ha as (hb & a2 & Hl & Ha). unfold c_write_head. erewrite c_start_run by exact Hr.
  destruct (c_bread_run ∅ c l t _ Hr Hk) as (b & c1 & E1 & _ & R1); [done|right; by rewrite map_size_empty|].
  rewrite (bind_ok _ _ _ _ _ E1), insert_empty in *. erewrite c_n_run by exact R1.
  erewrite c_data_run; [|exact R1|apply lookup_singleton_eq].
  destruct (c_move_run _ _ _ _ b _ _ (put32 (sview t (u32 (lg_start l))) 0 (lh_n l)) R1 (lookup_singleton_eq _ _)) as (c2 & E2 & R2).
  rewrite (bind_ok _ _ _ _ _ E2). rewrite insert_singleton_eq in R2.
  destruct (write_head_loop_sim _ _ _ _ _ _ _ _ _ _ R2 Hl) as (c3 & E3 & -> & R3). rewrite (bind_ok _ _ _ _ _ E3).
  destruct (c_bwrite_run _ _ _ _ b _ _ R3 (lookup_singleton_eq _ _) Hk) as (c4 & E4 & R4).
  rewrite (bind_ok _ _ _ _ _ E4).
  destruct (c_brelse_run _ _ _ _ b (u32 (lg_start l)) R4) as (c5 & E5 & R5).
  { rewrite sview_wr_eq. apply lookup_singleton_eq. }
  injection Ha as <-. exists c5, (u32 (lg_start l)), hb. split_and!; [done|done|].
  by rewrite delete_singleton_eq in R5.
Qed.

(** [read_head] fills [log.lh]. *)
Lemma read_head_loop_sim n : ∀ i c l t b k d a', crel {[b := (k, d)]} c (Lst l t) →
  read_head_loop d n i (Lst l t) = Ok tt a' →
  ∃ c' l', c_read_head_loop b n i c = Ok tt c' ∧ a' = Lst l' t ∧ crel {[b := (k, d)]} c' a'.
Proof.
  induction n as [|n IH]; intros i c l t b k d a' Hr Ha.
  { injection Ha as <-. by exists c, l. }
  cbn [read_head_loop] in Ha. apply bind_inv in Ha as ([] & a2 & Hp & Ha).
  unfold lh_put in Hp. rewrite bind_gets in Hp. cbn [log] in Hp.
  destruct (bool_decide (i < length (lh_block l))%nat) eqn:E; [|done]. injection Hp as <-.
  cbn [c_read_head_loop]. erewrite c_data_run; [|exact Hr|apply lookup_singleton_eq].
  destruct (on_clog_run _ _ _ _ (set_lh_block i (hd_block d i)) Hr) as (c1 & E1 & R1).
  assert (E2 : c_lh_put i (hd_block d i) c = Ok tt c1).
  { unfold c_lh_put. rewrite bind_gets, (cr_log _ _ _ Hr). cbn [log]. by rewrite E. }
  rewrite (bind_ok _ _ _ _ _ E2). by eapply IH.
Qed.

Lemma read_head_sim c l t a' : crel ∅ c (Lst l t) → (size (pinned t) < NBUF)%nat →
  read_head (Lst l t) = Ok tt a' →
  ∃ c' l', c_read_head me c = Ok tt c' ∧ a' = Lst l' t ∧ crel ∅ c' a'.
Proof.
  intros Hr Hroom Ha. unfold read_head in Ha. rewrite bind_gets in Ha. cbn [log] in Ha.
  apply bind_inv in Ha as (d1 & a1 & (-> & Hk & ->)%sread_inv & Ha).
  apply bind_inv in Ha as ([] & a2 & [= <-] & Ha). cbn [log store_of] in Ha.
  unfold c_read_head. erewrite c_start_run by exact Hr.
  destruct (c_bread_run ∅ c l t _ Hr Hk) as (b & c1 & E1 & _ & R1); [done|right; by rewrite map_size_empty|].
  rewrite (bind_ok _ _ _ _ _ E1), insert_empty in *. erewrite c_data_run; [|exact R1|apply lookup_singleton_eq].
  destruct (on_clog_run _ _ _ _ (set_n (hd_n (sview t (u32 (lg_start l))))) R1) as (c2 & E2 & R2).
  rewrite (bind_ok _ _ _ _ _ E2).
  destruct (read_head_loop_sim _ _ _ _ _ _ _ _ _ R2 Ha) as (c3 & l' & E3 & -> & R3). rewrite (bind_ok _ _ _ _ _ E3).
  destruct (c_brelse_run _ _ _ _ b _ R3 (lookup_singleton_eq _ _)) as (c4 & E4 & R4).
  exists c4, l'. split_and!; [done|done|]. by rewrite delete_singleton_eq in R4.
Qed.

(** The end of a commit and of a recovery. *)
Lemma install_clear_sim c l t a' : crel ∅ c (Lst l t) → sep l → roomy l t →
  (install_trans ;;; set_log (set_n 0) ;;; write_head) (Lst l t) = Ok tt a' →
  ∃ c', (c_install_trans me ;;; on_clog (set_n 0) ;;; c_write_head me) c = Ok tt c' ∧ crel ∅ c' a'.
Proof.
  intros Hr Hs Hroom Ha. apply bind_inv in Ha as ([] & a1 & Hi & Ha).
  unfold install_trans in Hi. rewrite bind_gets in Hi. cbn [log] in Hi.
  destruct (install_sim (Z.to_nat (lh_n l)) 0 c l t a1 Hr Hs Hroom ltac:(intros; lia) Hi) as (c1 & t1 & E1 & -> & R1 & Hroom1).
  apply bind_inv in Ha as ([] & a2 & [= <-] & Ha). cbn [log store_of] in Ha.
  destruct (on_clog_run _ _ _ _ (set_n 0) R1) as (c2 & E2 & R2).
  destruct (write_head_sim c2 _ t1 _ R2 (proj1 Hroom1) Ha) as (c3 & k & d & E3 & -> & R3).
  exists c3. split; [|done]. erewrite (bind_ok (c_install_trans me)) by (unfold c_install_trans; erewrite c_n_run by exact Hr; exact E1).
  by rewrite (bind_ok _ _ _ _ _ E2).
Qed.

Lemma commit_sim c l t a' : crel ∅ c (Lst l t) → sep l → roomy l t → commit (Lst l t) = Ok tt a' →
  ∃ c', c_commit me c = Ok tt c' ∧ crel ∅ c' a'.
Proof.
  intros Hr Hs Hroom Ha. unfold commit in Ha. rewrite bind_gets in Ha. cbn [log] in Ha.
  unfold c_commit. erewrite c_n_run by exact Hr. destruct (0 <? lh_n l).
  2: { injection Ha as <-. by exists c. }
  apply bind_inv in Ha as ([] & a1 & Hw & Ha). unfold write_log in Hw. rewrite bind_gets in Hw. cbn [log] in Hw.
  destruct (write_log_sim (Z.to_nat (lh_n l)) 0 c l t a1 Hr Hs Hroom ltac:(intros; lia) Hw) as (c1 & t1 & E1 & -> & R1 & Hroom1).
  erewrite (bind_ok (c_write_log me)) by (unfold c_write_log; erewrite c_n_run by exact Hr; exact E1).
  apply bind_inv in Ha as ([] & a2 & Hh & Ha).
  destruct (write_head_sim c1 _ t1 _ R1 (proj1 Hroom1) Hh) as (c2 & k & d & E2 & -> & R2).
  rewrite (bind_ok _ _ _ _ _ E2). eapply install_clear_sim; [exact R2|done|by apply roomy_wr|exact Ha].
Qed.

Lemma end_op_sim c l t a' : crel ∅ c (Lst l t) → sep l → roomy l t → end_op (Lst l t) = Ok tt a' →
  ∃ c', c_end_op me c = Ok tt c' ∧ crel ∅ c' a'.
Proof.
  intros Hr Hs Hroom Ha. unfold end_op in Ha. apply bind_inv in Ha as ([] & a1 & [= <-] & Ha).
  rewrite bind_gets in Ha. cbn [log store_of] in Ha.
  destruct (on_clog_run _ _ _ _ (λ l, set_outstanding (outstanding l - 1) l) Hr) as (c1 & E1 & R1).
  unfold c_end_op. rewrite (bind_ok _ _ _ _ _ E1), bind_gets, (cr_log _ _ _ R1). cbn [log].
  destruct (committing _); [done|]. destruct (outstanding _ =? 0); [|injection Ha as <-; by exists c1].
  apply bind_inv in Ha as ([] & a2 & [= <-] & Ha). cbn [log store_of] in Ha.
  destruct (on_clog_run _ _ _ _ (set_committing true) R1) as (c2 & E2 & R2). rewrite (bind_ok _ _ _ _ _ E2).
  apply bind_inv in Ha as ([] & [l3 t3] & Hc & Ha). injection Ha as <-. cbn [log store_of].
  destruct (commit_sim c2 _ t _ R2 Hs Hroom Hc) as (c3 & E3 & R3). rewrite (bind_ok _ _ _ _ _ E3).
  by apply on_clog_run.
Qed.

Lemma recover_sim c l t a' : crel ∅ c (Lst l t) → pinned t = ∅ →
  (∀ l', read_head (Lst l t) = Ok tt (Lst l' t) → sep l') → recover_from_log (Lst l t) = Ok tt a' →
  ∃ c', c_recover_from_log me c = Ok tt c' ∧ crel ∅ c' a'.
Proof.
  intros Hr Hp Hs Ha. apply bind_inv in Ha as ([] & a1 & Hh & Ha).
  assert (Hroom : (size (pinned t) < NBUF)%nat) by (rewrite Hp, map_size_empty; unfold NBUF; lia).
  destruct (read_head_sim c l t _ Hr Hroom Hh) as (c1 & l1 & E1 & -> & R1).
  unfold c_recover_from_log. rewrite (bind_ok _ _ _ _ _ E1).
  eapply install_clear_sim; [exact R1|by apply Hs| |exact Ha]. split; [done|]. intros i b _ _. right.
  rewrite Hp, map_size_empty. unfold NBUF. lia.
Qed.

(** [log_write] of a buffer in hand. *)
Lemma log_write_sim H c l t b k d a' : crel H c (Lst l t) → H !! b = Some (k, d) → 0 ≤ k < 4294967296 →
  log_write k d (Lst l t) = Ok tt a' →
  ∃ c', c_log_write b c = Ok tt c' ∧ sview (store_of a') k = d ∧ crel H c' a'.
Proof.
  intros Hr Hb Hk Ha. unfold log_write in Ha. rewrite bind_gets in Ha. cbn [log] in Ha.
  unfold c_log_write. rewrite bind_gets, (cr_log _ _ _ Hr). cbn [log].
  destruct (_ || _); [done|]. destruct (outstanding l <? 1); [done|].
  destruct (c_buf_run H c l t b k d Hr Hb) as (x & _ & Hbn & E0). rewrite (bind_ok _ _ _ _ _ E0), Hbn.
  set (i := absorb k (Z.to_nat (lh_n l)) 0 (lh_block l)) in *.
  apply bind_inv in Ha as ([] & a2 & Hp & Ha). unfold lh_put in Hp. rewrite bind_gets in Hp. cbn [log] in Hp.
  destruct (bool_decide (i < length (lh_block l))%nat) eqn:G; [|done]. injection Hp as <-.
  destruct (on_clog_run _ _ _ _ (set_lh_block i (s32 k)) Hr) as (c1 & E1 & R1).
  assert (E1' : c_lh_put i (s32 k) c = Ok tt c1).
  { unfold c_lh_put. rewrite bind_gets, (cr_log _ _ _ Hr). cbn [log]. by rewrite G. }
  rewrite (bind_ok _ _ _ _ _ E1'). clear E1 E1'.
  apply bind_inv in Ha as ([] & [l2 t2] & Hset & Ha). injection Ha as <-. cbn [log store_of] in *.
  assert (H2 : ∃ c2, (if Z.of_nat i =? lh_n l then on_clog (set_n (lh_n l + 1)) else ret tt) c1 = Ok tt c2 ∧
    t2 = t ∧ crel H c2 (Lst l2 t)).
  { destruct (Z.of_nat i =? lh_n l); injection Hset as <- <-; [|by exists c1].
    destruct (on_clog_run _ _ _ _ (set_n (lh_n l + 1)) R1) as (c2 & E2 & R2). by exists c2. }
  destruct H2 as (c2 & E2 & -> & R2). rewrite (bind_ok _ _ _ _ _ E2). rewrite (u32_small k) by lia.
  eexists. split; [by apply on_cache_run|]. split.
  - unfold sview. cbn [pinned]. by rewrite lookup_insert_eq.
  - split; [exact (cr_log _ _ _ R2)| |exact (cr_writes _ _ _ R2)]. by apply rep_pin_buf, Hb; apply R2.
Qed.

(** [initlog] finds the log through the superblock. *)
Lemma readsb_sim c l t sb a : crel ∅ c (Lst l t) → (size (pinned t) < NBUF)%nat →
  on_store readsb (Lst l t) = Ok sb a → ∃ c', c_readsb me c = Ok sb c' ∧ a = Lst l t ∧ crel ∅ c' (Lst l t).
Proof.
  intros Hr Hroom Ha.
  assert (Hk : 0 ≤ u32 1 < dsize t ∧ a = Lst l t ∧ sb = decode_sb (sview t (u32 1))).
  { unfold on_store, zoom, readsb, sread, bind, get in Ha. cbn in Ha. change (u32 1) with 1 in *.
    destruct (Z.leb_spec (dsize t) 1); [done|]. injection Ha as <- <-. split_and!; [lia..|done|done]. }
  destruct Hk as (Hk & -> & ->). unfold c_readsb.
  destruct (c_bread_run ∅ c l t 1 Hr Hk) as (b & c1 & E1 & _ & R1); [done|right; by rewrite map_size_empty|].
  rewrite (bind_ok _ _ _ _ _ E1). rewrite insert_empty in R1. erewrite c_data_run; [|exact R1|apply lookup_singleton_eq].
  destruct (c_brelse_run _ _ _ _ b _ R1 (lookup_singleton_eq _ _)) as (c2 & E2 & R2). rewrite delete_singleton_eq in R2.
  exists c2. by rewrite (bind_ok _ _ _ _ _ E2).
Qed.

Lemma initlog_sim c l t a' : crel ∅ c (Lst l t) → pinned t = ∅ →
  (∀ l1 l', on_store readsb (Lst l t) = Ok (decode_sb (sview t 1)) (Lst l t) →
     lg_start l1 = s32 (sb_logstart (decode_sb (sview t 1))) →
     read_head (Lst l1 t) = Ok tt (Lst l' t) → sep l') →
  initlog (Lst l t) = Ok tt a' → ∃ c', c_initlog me c = Ok tt c' ∧ crel ∅ c' a'.
Proof.
  intros Hr Hp Hs Ha. apply bind_inv in Ha as (sb & a1 & Hsb & Ha).
  assert (Hroom : (size (pinned t) < NBUF)%nat) by (rewrite Hp, map_size_empty; unfold NBUF; lia).
  destruct (readsb_sim c l t sb a1 Hr Hroom Hsb) as (c1 & E1 & -> & R1).
  assert (Hd : sb = decode_sb (sview t 1)).
  { unfold on_store, zoom, readsb, sread, bind, get in Hsb. cbn in Hsb. change (u32 1) with 1 in Hsb.
    destruct (dsize t <=? 1); [done|]. by injection Hsb as <-. }
  subst sb. apply bind_inv in Ha as ([] & a2 & [= <-] & Ha). cbn [log store_of] in Ha.
  unfold c_initlog. rewrite (bind_ok _ _ _ _ _ E1).
  destruct (on_clog_run _ _ _ _ (λ l, Log (s32 (sb_logstart (decode_sb (sview t 1)))) (s32 (sb_nlog (decode_sb (sview t 1))))
    (outstanding l) (committing l) (lh_n l) (lh_block l)) R1) as (c2 & E2 & R2).
  rewrite (bind_ok _ _ _ _ _ E2). eapply recover_sim; [exact R2|done| |exact Ha].
  intros l' Hh. eapply (Hs _ l' Hsb); [|exact Hh]. done.
Qed.

(** A block that is read, modified and logged. *)
Lemma update_sim c l t k f a' : crel ∅ c (Lst l t) → 0 ≤ k < 4294967296 →
  is_Some (pinned t !! k) ∨ (size (pinned t) < NBUF)%nat →
  (d <- on_store (sread k) ;; log_write k (f d)) (Lst l t) = Ok tt a' →
  ∃ c', c_update me k f c = Ok tt c' ∧ crel ∅ c' a'.
Proof.
  intros Hr Hk Hroom Ha. apply bind_inv in Ha as (d & a1 & (-> & Hkd & ->)%sread_inv & Ha).
  assert (Hu : u32 k = k) by (apply u32_small; lia). rewrite Hu in *. unfold c_update.
  destruct (c_bread_run ∅ c l t k Hr) as (b & c1 & E1 & _ & R1); [by rewrite Hu|done|by rewrite Hu, map_size_empty|].
  rewrite (bind_ok _ _ _ _ _ E1). rewrite insert_empty, Hu in R1.
  erewrite c_data_run; [|exact R1|apply lookup_singleton_eq].
  destruct (c_move_run _ _ _ _ b _ _ (f (sview t k)) R1 (lookup_singleton_eq _ _)) as (c2 & E2 & R2).
  rewrite (bind_ok _ _ _ _ _ E2). rewrite insert_singleton_eq in R2.
  destruct (log_write_sim _ _ _ _ b k _ _ R2 (lookup_singleton_eq _ _) Hk Ha) as (c3 & E3 & Hsv & R3).
  rewrite (bind_ok _ _ _ _ _ E3). destruct a' as [l' t']. cbn [store_of] in Hsv.
  destruct (c_brelse_run _ c3 l' t' b k R3) as (c4 & E4 & R4); [rewrite Hsv; apply lookup_singleton_eq|].
  exists c4. split; [done|]. by rewrite delete_singleton_eq in R4.
Qed.

(** *** The conditions, from the log's own invariant *)

Lemma tx_sep start sz dsz l bs : layout start sz dsz → tx_ok start sz dsz bs → lg_start l = start →
  lh_n l = Z.of_nat (length bs) → entries l 0 bs → sep l.
Proof.
  intros (? & ? & ? & ?) [_ Hh _ Hs] Es Hn He i b Hi Hb. rewrite Es, Hn in *.
  destruct (lookup_lt_is_Some_2 bs i) as [b' Hb']; [lia|]. pose proof (He i b' Hb') as E. cbn in E.
  assert (b' = b) as -> by congruence. pose proof (proj1 (Forall_lookup _ _) Hh i b Hb') as [Hr Ho].
  rewrite !u32_small by lia. lia.
Qed.

Lemma ready_roomy dsz l t bs : log_ready dsz l t bs → (length bs < NBUF)%nat → roomy l t.
Proof.
  intros [Hd Hlay Hlen Hn He Htx Hpin _ _] Hb.
  assert (Hsub : dom (pinned t) ⊆ (list_to_set bs : gset Z)).
  { intros k Hk%elem_of_dom. by apply elem_of_list_to_set, Hpin. }
  pose proof (subseteq_size _ _ Hsub) as Hsz. rewrite size_dom in Hsz.
  rewrite (size_list_to_set (C := gset Z) bs (tx_nodup _ _ _ _ Htx)) in Hsz.
  split; [lia|]. intros i b Hi Hb'. destruct (decide (S (size (pinned t)) < NBUF)%nat) as [|Hge]; [by right|left].
  assert (Heq : dom (pinned t) ≡ (list_to_set bs : gset Z)).
  { apply set_subseteq_size_equiv; [done|]. rewrite size_dom.
    rewrite (size_list_to_set (C := gset Z) bs (tx_nodup _ _ _ _ Htx)). lia. }
  rewrite Hn in Hi. destruct (lookup_lt_is_Some_2 bs i) as [b2 Hb2]; [lia|]. pose proof (He i b2 Hb2) as E. cbn in E.
  assert (b2 = b) as -> by congruence.
  destruct (proj1 (Forall_lookup _ _) (tx_home _ _ _ _ Htx) i b Hb2) as [Hr _]. destruct Hlay as (? & ? & ? & ?).
  rewrite u32_small by lia. apply elem_of_dom, Heq, elem_of_list_to_set. by eapply list_elem_of_lookup_2.
Qed.

#[local] Opaque boot_bufs.

(** The cache of a machine that boots with disk [d]. *)
Definition booted l dsz (d : gmap Z block) : cst := Cst l (Bst boot_bufs d dsz) [].

Lemma booted_crel l dsz d : crel ∅ (booted l dsz d) (rebooted l dsz d).
Proof.
  split; [reflexivity| |reflexivity]. pose proof boot_blank as Hb.
  split; cbn [bufs c_cache booted store_of rebooted].
  - apply boot_ok.
  - reflexivity.
  - reflexivity.
  - intros i x _ (Hf & _)%Hb Hv. unfold valid in Hv. by rewrite Hf in Hv.
  - intros i x _ (_ & _ & ? & ?)%Hb. done.
  - intros i k v Hi. by apply lookup_empty_Some in Hi.
  - intros i x _ (Hf & _)%Hb Hd. unfold dirty in Hd. by rewrite Hf in Hd.
  - intros k [v Hv]. done.
Qed.

(** Recovery on a cache just set up. *)
Lemma booted_recovers l dsz d a' : layout (lg_start l) (lg_size l) dsz → wf_disk (lg_start l) (lg_size l) dsz d →
  length (lh_block l) = Z.to_nat LOGSIZE → recover_from_log (rebooted l dsz d) = Ok tt a' →
  ∃ c', c_recover_from_log me (booted l dsz d) = Ok tt c' ∧ crel ∅ c' a'.
Proof.
  intros Hlay [_ Hn Htx] Hlen Ha. eapply recover_sim; [apply booted_crel|done| |exact Ha].
  intros l' Hh. unfold read_head in Hh. rewrite bind_gets in Hh. cbn [log] in Hh. pose proof Hlay as (? & ? & ? & ?).
  rewrite bind_sread in Hh by (cbn; lia). change (sview _ (lg_start l)) with (blk d (lg_start l)) in Hh.
  set (hb := blk d (lg_start l)) in *.
  assert (Hlb : length (hd_list hb) = Z.to_nat (hd_n hb)) by (unfold hd_list; by rewrite length_fmap, length_seq).
  unfold set_log in Hh. rewrite bind_modify in Hh. cbn [log store_of] in Hh.
  edestruct (read_head_loop_run hb (Z.to_nat (hd_n hb)) 0 (set_n (hd_n hb) l)) as (arr & Hrun & _ & Hin & _).
  { cbn. rewrite Hlen, <- Hlb. pose proof (tx_logsize _ _ _ _ Htx). lia. }
  rewrite Hrun in Hh. injection Hh as <-. eapply (tx_sep _ _ _ _ (hd_list hb)); [exact Hlay|exact Htx|done|cbn; lia|].
  intros i b Hi. unfold hd_list in Hi. rewrite list_lookup_fmap in Hi. apply fmap_Some in Hi as (j & Hj & ->).
  apply lookup_seq in Hj as [-> Hj]. cbn. apply Hin. lia.
Qed.


End refinement.

(** *** A transaction of one block *)

Definition fresh_log : log_st := Log 2 31 1 false 0 (replicate 30 0).
Definition seven (d : block) : block := put32 d 0 7.
Definition one_block : cst :=
  match c_update 1 40 seven (booted fresh_log 1000 ∅) with Ok _ c | Err _ c => c end.

Lemma one_block_crel : crel 1 ∅ one_block (Lst demo_log demo_store).
Proof.
  destruct (update_sim 1 (booted fresh_log 1000 ∅) fresh_log (Store ∅ ∅ 1000 []) 40 seven (Lst demo_log demo_store))
    as (c & E & R); [apply booted_crel|lia|right; vm_compute; lia|vm_compute; reflexivity|].
  unfold one_block. by rewrite E.
Qed.


(** ** A transaction as large as the cache *)

(** Three operations begin, log ten blocks each and end. *)
Fixpoint log_blocks (n : nat) (k : Z) : M cst unit :=
  match n with
  | O => ret tt
  | S n' => c_update 1 k seven ;;; log_blocks n' (k + 1)
  end.

Definition three_full_ops : M cst unit :=
  c_begin_op ;;;
  c_begin_op ;;;
  c_begin_op ;;;
  log_blocks 30 100 ;;;
  c_end_op 1 ;;;
  c_end_op 1 ;;;
  c_end_op 1.

(** With a log of [LOGSIZE] data blocks, which [log_write] lets three operations
    fill, every buffer of the cache is pinned when the last of them ends: the
    first [bread] of [write_log] finds none to recycle and the commit panics. *)
Theorem full_log_panics : ∃ c,
  three_full_ops (booted (Log 2 31 0 false 0 (replicate 30 0)) FSSIZE ∅) = Err (Panic "bget: no buffers") c.
Proof. eexists. vm_compute. reflexivity. Qed.
