(* ===== verification/Fs.v ===== *)
(** The file system: fs.c, fs.h, file.h

    Blocks are read and recorded through the log ([Log.sread], [Log.log_write]);
    a pointer to an in-memory inode is its index in [icache.inode].  The code
    runs in the process [me].  A read returns the bytes that the code copies to
    [dst] beside its result.  The device switch, which the console fills, is a
    pair of parameters. *)

From stdpp Require Import gmap list numbers strings.
From Stdlib Require Import ZArith Lia.
From S2P Require Import Prelude Memlayout Block Bio Log StringC.

(** ** On-disk format *)

Definition ROOTINO : Z := 1.
Definition NDIRECT : nat := 12.
Definition NINDIRECT : nat := 128.
Definition MAXFILE : Z := Z.of_nat NDIRECT + Z.of_nat NINDIRECT.
Definition IPB : Z := 8.
Definition BPB : Z := BSIZE * 8.
Definition DIRSIZ : nat := 14.

Definition T_DIR : Z := 1.
Definition T_FILE : Z := 2.
Definition T_DEV : Z := 3.

Definition IBLOCK (i : Z) (sb : superblock) : Z := i / IPB + sb_inodestart sb.
Definition BBLOCK (b : Z) (sb : superblock) : Z := b / BPB + sb_bmapstart sb.

Record dinode := Dinode {
  d_type : Z;
  d_major : Z;
  d_minor : Z;
  d_nlink : Z;
  d_size : Z;
  d_addrs : list Z
}.

Definition sizeof_dinode : nat := 64.

(** The array [addrs] at offset [o] of a block. *)
Fixpoint get_addrs (l : block) (o n : nat) : list Z :=
  match n with
  | O => []
  | S n' => get32 l o :: get_addrs l (o + 4) n'
  end.
Fixpoint put_addrs (l : block) (o : nat) (a : list Z) : block :=
  match a with
  | [] => l
  | x :: a' => put_addrs (put32 l o x) (o + 4) a'
  end.

(** The offset of inode [inum] in its block. *)
Definition dip_off (inum : Z) : nat := Z.to_nat (inum mod IPB) * sizeof_dinode.

Definition get_dinode (l : block) (o : nat) : dinode :=
  Dinode (s16 (get16 l o)) (s16 (get16 l (o + 2))) (s16 (get16 l (o + 4))) (s16 (get16 l (o + 6)))
         (get32 l (o + 8)) (get_addrs l (o + 12) (S NDIRECT)).

Definition put_dinode (l : block) (o : nat) (d : dinode) : block :=
  put_addrs
    (put32 (put16 (put16 (put16 (put16 l o (d_type d)) (o + 2) (d_major d)) (o + 4) (d_minor d))
              (o + 6) (d_nlink d)) (o + 8) (d_size d))
    (o + 12) (d_addrs d).

(** ** In-memory inodes *)

Record inode := Inode {
  i_dev : Z;
  i_inum : Z;
  i_ref : Z;
  i_lock : sleeplock;
  i_valid : bool;
  i_d : dinode
}.

Definition set_iref (r : Z) (x : inode) : inode :=
  Inode (i_dev x) (i_inum x) r (i_lock x) (i_valid x) (i_d x).
Definition set_ilock (l : sleeplock) (x : inode) : inode :=
  Inode (i_dev x) (i_inum x) (i_ref x) l (i_valid x) (i_d x).
Definition set_ivalid (v : bool) (x : inode) : inode :=
  Inode (i_dev x) (i_inum x) (i_ref x) (i_lock x) v (i_d x).
Definition set_idata (d : dinode) (x : inode) : inode :=
  Inode (i_dev x) (i_inum x) (i_ref x) (i_lock x) (i_valid x) d.

Definition set_dtype (t : Z) (d : dinode) : dinode :=
  Dinode t (d_major d) (d_minor d) (d_nlink d) (d_size d) (d_addrs d).
Definition set_dnlink (n : Z) (d : dinode) : dinode :=
  Dinode (d_type d) (d_major d) (d_minor d) n (d_size d) (d_addrs d).
Definition set_dsize (n : Z) (d : dinode) : dinode :=
  Dinode (d_type d) (d_major d) (d_minor d) (d_nlink d) n (d_addrs d).
Definition set_daddr (i : nat) (a : Z) (d : dinode) : dinode :=
  Dinode (d_type d) (d_major d) (d_minor d) (d_nlink d) (d_size d) (<[i := a]> (d_addrs d)).

Record fst_st := Fst {
  fs_log : lst;
  fs_sb : superblock;
  icache : list inode
}.

Definition zero_dinode : dinode := Dinode 0 0 0 0 0 (replicate (S NDIRECT) 0).
Definition zero_inode : inode := Inode 0 0 0 initsleeplock false zero_dinode.

Definition on_log {A} (m : M lst A) : M fst_st A :=
  zoom fs_log (λ l s, Fst l (fs_sb s) (icache s)) m.

(** [bread(dev, k)]; the only disk is disk 1. *)
Definition fread (dev k : Z) : M fst_st block :=
  if negb (dev =? 1) then panic "iderw: request not for disk 1" else on_log (on_store (sread k)).
(** [log_write] of the buffer of block [k] with data [d]. *)
Definition fwrite (k : Z) (d : block) : M fst_st unit := on_log (log_write (u32 k) d).

Definition inode_at (ip : nat) : M fst_st inode := o <- gets (λ s, icache s !! ip) ;; deref o.
Definition upd_inode (ip : nat) (f : inode → inode) : M fst_st unit :=
  modify (λ s, Fst (fs_log s) (fs_sb s) (alter f ip (icache s))).
Definition upd_dinode (ip : nat) (f : dinode → dinode) : M fst_st unit :=
  upd_inode ip (λ x, set_idata (f (i_d x)) x).
Definition on_ilock {A} (ip : nat) (m : M sleeplock A) : M fst_st A :=
  x <- inode_at ip ;;
  λ s, match m (i_lock x) with
       | Ok a l => Ok a (Fst (fs_log s) (fs_sb s) (alter (set_ilock l) ip (icache s)))
       | Err e l => Err e (Fst (fs_log s) (fs_sb s) (alter (set_ilock l) ip (icache s)))
       end.

(** ** Blocks *)

Definition bzero (dev bno : Z) : M fst_st unit :=
  bp <- fread dev bno ;;
  fwrite bno zero_block.

(** The test and the marking of bit [bi] of a bitmap block. *)
Definition bit_mask (bi : Z) : Z := Z.shiftl 1 (bi mod 8).
Definition bit_free (l : block) (bi : Z) : bool :=
  Z.land (get8 l (Z.to_nat (bi / 8))) (bit_mask bi) =? 0.
Definition bit_set (l : block) (bi : Z) : block :=
  put8 l (Z.to_nat (bi / 8)) (Z.lor (get8 l (Z.to_nat (bi / 8))) (bit_mask bi)).
Definition bit_clear (l : block) (bi : Z) : block :=
  put8 l (Z.to_nat (bi / 8)) (Z.land (get8 l (Z.to_nat (bi / 8))) (Z.lnot (bit_mask bi))).

(** The inner loop of [balloc]: the first free bit of a bitmap block. *)
Fixpoint balloc_scan (n : nat) (l : block) (b bi size : Z) : option Z :=
  match n with
  | O => None
  | S n' =>
      if b + bi <? size then
        if bit_free l bi then Some bi else balloc_scan n' l b (bi + 1) size
      else None
  end.

Fixpoint balloc_loop (fuel : nat) (dev b : Z) : M fst_st Z :=
  sb <- gets fs_sb ;;
  if b <? sb_size sb then
    match fuel with
    | O => fail NoFuel
    | S fuel' =>
        bp <- fread dev (BBLOCK b sb) ;;
        match balloc_scan (Z.to_nat BPB) bp b 0 (sb_size sb) with
        | Some bi =>
            fwrite (BBLOCK b sb) (bit_set bp bi) ;;;
            bzero dev (b + bi) ;;;
            ret (b + bi)
        | None => balloc_loop fuel' dev (b + BPB)
        end
    end
  else panic "balloc: out of blocks".

(** One round per bitmap block. *)
Definition balloc (dev : Z) : M fst_st Z :=
  sb <- gets fs_sb ;;
  balloc_loop (S (Z.to_nat (sb_size sb / BPB))) dev 0.

Definition bfree (dev b : Z) : M fst_st unit :=
  sb <- gets fs_sb ;;
  bp <- fread dev (BBLOCK b sb) ;;
  let bi := b mod BPB in
  if bit_free bp bi then panic "freeing free block"
  else fwrite (BBLOCK b sb) (bit_clear bp bi).

Section fs.
Variable me : Z.
(** [devsw[major].read] and [.write], absent where the table has a null pointer. *)
Variable dev_read : Z → option (nat → Z → M fst_st (Z * list Z)).
Variable dev_write : Z → option (nat → list Z → M fst_st Z).

(** ** Inodes *)

Definition iinit : M fst_st unit :=
  modify (λ s, Fst (fs_log s) (fs_sb s) (set_ilock initsleeplock <$> icache s)) ;;;
  sb <- on_log (on_store readsb) ;;
  modify (λ s, Fst (fs_log s) sb (icache s)).

(** The loop of [iget] from entry [i] on: the entry of the inode if it is
    cached, and the first free entry otherwise. *)
Fixpoint iget_scan (dev inum : Z) (l : list inode) (i : nat) (empty : option nat) : option nat * option nat :=
  match l with
  | [] => (None, empty)
  | x :: l' =>
      if (0 <? i_ref x) && (i_dev x =? dev) && (i_inum x =? inum) then (Some i, empty)
      else
        iget_scan dev inum l' (S i)
          (match empty with
           | Some e => Some e
           | None => if i_ref x =? 0 then Some i else None
           end)
  end.

Definition iget (dev inum : Z) : M fst_st nat :=
  c <- gets icache ;;
  match iget_scan dev inum c 0 None with
  | (Some i, _) => upd_inode i (λ x, set_iref (i_ref x + 1) x) ;;; ret i
  | (None, None) => panic "iget: no inodes"
  | (None, Some e) =>
      upd_inode e (λ x, Inode dev inum 1 (i_lock x) false (i_d x)) ;;; ret e
  end.

Fixpoint ialloc_loop (n : nat) (dev type inum : Z) : M fst_st nat :=
  sb <- gets fs_sb ;;
  if inum <? sb_ninodes sb then
    match n with
    | O => fail NoFuel
    | S n' =>
        bp <- fread dev (IBLOCK inum sb) ;;
        if d_type (get_dinode bp (dip_off inum)) =? 0 then
          fwrite (IBLOCK inum sb) (put_dinode bp (dip_off inum) (set_dtype type zero_dinode)) ;;;
          iget dev inum
        else ialloc_loop n' dev type (inum + 1)
    end
  else panic "ialloc: no inodes".

Definition ialloc (dev type : Z) : M fst_st nat :=
  sb <- gets fs_sb ;;
  ialloc_loop (Z.to_nat (sb_ninodes sb)) dev type 1.

Definition iupdate (ip : nat) : M fst_st unit :=
  x <- inode_at ip ;;
  sb <- gets fs_sb ;;
  bp <- fread (i_dev x) (IBLOCK (i_inum x) sb) ;;
  fwrite (IBLOCK (i_inum x) sb) (put_dinode bp (dip_off (i_inum x)) (i_d x)).

Definition idup (ip : nat) : M fst_st nat :=
  upd_inode ip (λ x, set_iref (i_ref x + 1) x) ;;; ret ip.

Definition ilock (ip : nat) : M fst_st unit :=
  x <- inode_at ip ;;
  if i_ref x <? 1 then panic "ilock"
  else
    on_ilock ip (acquiresleep me) ;;;
    x <- inode_at ip ;;
    if i_valid x then ret tt
    else
      sb <- gets fs_sb ;;
      bp <- fread (i_dev x) (IBLOCK (i_inum x) sb) ;;
      upd_dinode ip (λ _, get_dinode bp (dip_off (i_inum x))) ;;;
      upd_inode ip (set_ivalid true) ;;;
      x <- inode_at ip ;;
      if d_type (i_d x) =? 0 then panic "ilock: no type" else ret tt.

Definition iunlock (ip : nat) : M fst_st unit :=
  x <- inode_at ip ;;
  h <- on_ilock ip (holdingsleep me) ;;
  if negb h || (i_ref x <? 1) then panic "iunlock"
  else on_ilock ip releasesleep.

(** ** Inode content *)

Definition bmap (ip : nat) (bn : Z) : M fst_st Z :=
  x <- inode_at ip ;;
  if bn <? Z.of_nat NDIRECT then
    addr <- deref (d_addrs (i_d x) !! Z.to_nat bn) ;;
    if addr =? 0 then
      a <- balloc (i_dev x) ;;
      upd_dinode ip (set_daddr (Z.to_nat bn) a) ;;;
      ret a
    else ret addr
  else
    let bn := bn - Z.of_nat NDIRECT in
    if bn <? Z.of_nat NINDIRECT then
      addr <- deref (d_addrs (i_d x) !! NDIRECT) ;;
      addr <- (if addr =? 0 then
                 a <- balloc (i_dev x) ;;
                 upd_dinode ip (set_daddr NDIRECT a) ;;;
                 ret a
               else ret addr) ;;
      bp <- fread (i_dev x) addr ;;
      if get32 bp (4 * Z.to_nat bn) =? 0 then
        a <- balloc (i_dev x) ;;
        fwrite addr (put32 bp (4 * Z.to_nat bn) a) ;;;
        ret a
      else ret (get32 bp (4 * Z.to_nat bn))
    else panic "bmap: out of range".

(** The loop of [itrunc] over the direct blocks, [n] rounds from [i] on. *)
Fixpoint itrunc_direct (n i ip : nat) : M fst_st unit :=
  match n with
  | O => ret tt
  | S n' =>
      x <- inode_at ip ;;
      a <- deref (d_addrs (i_d x) !! i) ;;
      (if a =? 0 then ret tt
       else bfree (i_dev x) a ;;; upd_dinode ip (set_daddr i 0)) ;;;
      itrunc_direct n' (S i) ip
  end.

(** The loop over the entries of the indirect block. *)
Fixpoint itrunc_indirect (n j : nat) (dev : Z) (a : block) : M fst_st unit :=
  match n with
  | O => ret tt
  | S n' =>
      (if get32 a (4 * j) =? 0 then ret tt else bfree dev (get32 a (4 * j))) ;;;
      itrunc_indirect n' (S j) dev a
  end.

Definition itrunc (ip : nat) : M fst_st unit :=
  itrunc_direct NDIRECT 0 ip ;;;
  x <- inode_at ip ;;
  a <- deref (d_addrs (i_d x) !! NDIRECT) ;;
  (if a =? 0 then ret tt
   else
     bp <- fread (i_dev x) a ;;
     itrunc_indirect NINDIRECT 0 (i_dev x) bp ;;;
     bfree (i_dev x) a ;;;
     upd_dinode ip (set_daddr NDIRECT 0)) ;;;
  upd_dinode ip (set_dsize 0) ;;;
  iupdate ip.

Definition iput (ip : nat) : M fst_st unit :=
  on_ilock ip (acquiresleep me) ;;;
  x <- inode_at ip ;;
  (if i_valid x && (d_nlink (i_d x) =? 0) then
     if i_ref x =? 1 then
       itrunc ip ;;;
       upd_dinode ip (set_dtype 0) ;;;
       iupdate ip ;;;
       upd_inode ip (set_ivalid false)
     else ret tt
   else ret tt) ;;;
  on_ilock ip releasesleep ;;;
  upd_inode ip (λ x, set_iref (i_ref x - 1) x).

Definition iunlockput (ip : nat) : M fst_st unit := iunlock ip ;;; iput ip.

(** struct stat *)
Record stat := Stat {
  st_type : Z;
  st_dev : Z;
  st_ino : Z;
  st_nlink : Z;
  st_size : Z
}.

Definition stati (ip : nat) : M fst_st stat :=
  x <- inode_at ip ;;
  ret (Stat (d_type (i_d x)) (i_dev x) (i_inum x) (d_nlink (i_d x)) (d_size (i_d x))).

(** The copy loop of [readi]; [acc] holds the bytes copied so far. *)
Fixpoint readi_loop (fuel : nat) (ip : nat) (tot off n : Z) (acc : list Z) : M fst_st (list Z) :=
  if tot <? n then
    match fuel with
    | O => fail NoFuel
    | S fuel' =>
        x <- inode_at ip ;;
        a <- bmap ip (off / BSIZE) ;;
        bp <- fread (i_dev x) a ;;
        let m := Z.min (n - tot) (BSIZE - off mod BSIZE) in
        readi_loop fuel' ip (tot + m) (u32 (off + m)) n
          (acc ++ take (Z.to_nat m) (drop (Z.to_nat (off mod BSIZE)) bp))
    end
  else ret acc.

(** A loop over [n] bytes touches at most this many blocks. *)
Definition io_fuel (n : Z) : nat := Z.to_nat (n / BSIZE + 2).

Definition readi (ip : nat) (off n : Z) : M fst_st (Z * list Z) :=
  x <- inode_at ip ;;
  if d_type (i_d x) =? T_DEV then
    if (d_major (i_d x) <? 0) || (NDEV <=? d_major (i_d x)) then ret (-1, [])
    else
      match dev_read (d_major (i_d x)) with
      | None => ret (-1, [])
      | Some read => read ip n
      end
  else
    let size := d_size (i_d x) in
    if (size <? off) || (u32 (off + n) <? off) then ret (-1, [])
    else
      let n := if size <? u32 (off + n) then size - off else n in
      bs <- readi_loop (io_fuel n) ip 0 off n [] ;;
      ret (s32 n, bs).

(** The copy loop of [writei]; it returns the offset after the last byte. *)
Fixpoint writei_loop (fuel : nat) (ip : nat) (src : list Z) (tot off n : Z) : M fst_st Z :=
  if tot <? n then
    match fuel with
    | O => fail NoFuel
    | S fuel' =>
        x <- inode_at ip ;;
        a <- bmap ip (off / BSIZE) ;;
        bp <- fread (i_dev x) a ;;
        let m := Z.min (n - tot) (BSIZE - off mod BSIZE) in
        fwrite a (splice bp (Z.to_nat (off mod BSIZE)) (take (Z.to_nat m) src)) ;;;
        writei_loop fuel' ip (drop (Z.to_nat m) src) (tot + m) (u32 (off + m)) n
    end
  else ret off.

(** [writei] of the [n] bytes [src]. *)
Definition writei (ip : nat) (src : list Z) (off n : Z) : M fst_st Z :=
  x <- inode_at ip ;;
  if d_type (i_d x) =? T_DEV then
    if (d_major (i_d x) <? 0) || (NDEV <=? d_major (i_d x)) then ret (-1)
    else
      match dev_write (d_major (i_d x)) with
      | None => ret (-1)
      | Some write => write ip src
      end
  else
    let size := d_size (i_d x) in
    if (size <? off) || (u32 (off + n) <? off) then ret (-1)
    else if MAXFILE * BSIZE <? u32 (off + n) then ret (-1)
    else
      off' <- writei_loop (io_fuel n) ip src 0 off n ;;
      (if (0 <? n) && (size <? off') then
         upd_dinode ip (set_dsize off') ;;; iupdate ip
       else ret tt) ;;;
      ret (s32 n).

(** ** Directories *)

(** struct dirent in its 16 bytes. *)
Definition sizeof_dirent : Z := 16.
Definition de_inum (de : list Z) : Z := get16 de 0.
Definition de_name (de : list Z) : list Z := drop 2 de.

Definition namecmp (s t : list Z) : option Z := strncmp s t DIRSIZ.

Fixpoint dirlookup_loop (fuel : nat) (dp : nat) (name : list Z) (off : Z) : M fst_st (option (nat * Z)) :=
  x <- inode_at dp ;;
  if off <? d_size (i_d x) then
    match fuel with
    | O => fail NoFuel
    | S fuel' =>
        ' (r, de) <- readi dp off sizeof_dirent ;;
        if negb (r =? sizeof_dirent) then panic "dirlookup read"
        else if de_inum de =? 0 then dirlookup_loop fuel' dp name (off + sizeof_dirent)
        else
          c <- deref (namecmp name (de_name de)) ;;
          if c =? 0 then
            ip <- iget (i_dev x) (de_inum de) ;;
            ret (Some (ip, off))
          else dirlookup_loop fuel' dp name (off + sizeof_dirent)
    end
  else ret None.

(** One round per entry. *)
Definition dir_fuel (size : Z) : nat := S (Z.to_nat (size / sizeof_dirent)).

(** The inode of entry [name] and the offset the code stores in [*poff]. *)
Definition dirlookup (dp : nat) (name : list Z) : M fst_st (option (nat * Z)) :=
  x <- inode_at dp ;;
  if negb (d_type (i_d x) =? T_DIR) then panic "dirlookup not DIR"
  else dirlookup_loop (dir_fuel (d_size (i_d x))) dp name 0.

(** The loop of [dirlink]: the offset of a free entry, or of the end. *)
Fixpoint dirlink_loop (fuel : nat) (dp : nat) (off : Z) : M fst_st Z :=
  x <- inode_at dp ;;
  if off <? d_size (i_d x) then
    match fuel with
    | O => fail NoFuel
    | S fuel' =>
        ' (r, de) <- readi dp off sizeof_dirent ;;
        if negb (r =? sizeof_dirent) then panic "dirlink read"
        else if de_inum de =? 0 then ret off
        else dirlink_loop fuel' dp (off + sizeof_dirent)
    end
  else ret off.

(** The 16 bytes of a directory entry. *)
Definition dirent_bytes (inum : Z) (name : list Z) : list Z := put16 [0; 0] 0 inum ++ name.

Definition dirlink (dp : nat) (name : list Z) (inum : Z) : M fst_st Z :=
  o <- dirlookup dp name ;;
  match o with
  | Some (ip, _) => iput ip ;;; ret (-1)
  | None =>
      x <- inode_at dp ;;
      off <- dirlink_loop (dir_fuel (d_size (i_d x))) dp 0 ;;
      nm <- deref (strncpy name DIRSIZ) ;;
      r <- writei dp (dirent_bytes inum nm) off sizeof_dirent ;;
      if negb (r =? sizeof_dirent) then panic "dirlink" else ret 0
  end.

(** ** Paths *)

Fixpoint skip_slashes (path : list Z) : option (list Z) :=
  match path with
  | [] => None
  | c :: path' => if c =? 47 then skip_slashes path' else Some path
  end.

(** The bytes up to the next slash or NUL, and the rest. *)
Fixpoint path_elem (path : list Z) : option (list Z * list Z) :=
  match path with
  | [] => None
  | c :: path' =>
      if (c =? 47) || (c =? 0) then Some ([], path)
      else match path_elem path' with Some (e, r) => Some (c :: e, r) | None => None end
  end.

(** [skipelem(path, name)]: the returned pointer, null as [None], and the new
    contents of [name]; no result is a read outside the path. *)
Definition skipelem (path name : list Z) : option (option (list Z) * list Z) :=
  match skip_slashes path with
  | None => None
  | Some p =>
      if default 0 (head p) =? 0 then Some (None, name)
      else
        match path_elem p with
        | None => None
        | Some (e, r) =>
            let name' := if bool_decide (DIRSIZ ≤ length e)%nat then splice name 0 (take DIRSIZ e)
                         else splice name 0 (e ++ [0]) in
            match skip_slashes r with
            | None => None
            | Some r' => Some (Some r', name')
            end
        end
  end.

(** The loop of [namex]. *)
Fixpoint namex_loop (fuel : nat) (ip : nat) (path : list Z) (parent : bool) (name : list Z) :
    M fst_st (option nat * list Z) :=
  ' (o, name) <- deref (skipelem path name) ;;
  match o with
  | None =>
      if parent then iput ip ;;; ret (None, name)
      else ret (Some ip, name)
  | Some path =>
      match fuel with
      | O => fail NoFuel
      | S fuel' =>
          ilock ip ;;;
          x <- inode_at ip ;;
          if negb (d_type (i_d x) =? T_DIR) then iunlockput ip ;;; ret (None, name)
          else if parent && (default 0 (head path) =? 0) then iunlock ip ;;; ret (Some ip, name)
          else
            n <- dirlookup ip name ;;
            match n with
            | None => iunlockput ip ;;; ret (None, name)
            | Some (next, _) => iunlockput ip ;;; namex_loop fuel' next path parent name
            end
      end
  end.

(** Every round but the last consumes a byte of the path. *)
Definition namex (cwd : nat) (path : list Z) (parent : bool) (name : list Z) : M fst_st (option nat * list Z) :=
  c <- deref (head path) ;;
  ip <- (if c =? 47 then iget ROOTDEV ROOTINO else idup cwd) ;;
  namex_loop (length path) ip path parent name.

Definition namei (cwd : nat) (path : list Z) : M fst_st (option nat) :=
  ' (o, _) <- namex cwd path false (replicate DIRSIZ 0) ;; ret o.

Definition nameiparent (cwd : nat) (path name : list Z) : M fst_st (option nat * list Z) :=
  namex cwd path true name.

End fs.
