(* ===== verification/FsSpec.v ===== *)
(** The file system's blocks: allocation, on-disk inodes, the inode cache and
    path elements

    [fs_wf s] is the file system's standing contract with the log and the disk
    layout: the inode, bitmap and data regions lie outside the log, and the
    blocks before the data region are marked used.  [fs_in s F m] is [fs_wf]
    inside a transaction whose log has room for the blocks [F] and for [m] more;
    [fs_ok s m] has no block set aside.  [fv s k] is block [k] as the operation
    sees it. *)

From stdpp Require Import gmap list numbers strings.
From Stdlib Require Import ZArith Lia.
From S2P Require Import Prelude Memlayout Block Bio Log StringC Fs.

(** Block [k] as the running operation sees it. *)
Definition fv (s : fst_st) (k : Z) : block := sview (store_of (fs_log s)) k.

(** Room in the transaction for the blocks [F], recorded already or not, and for
    [m] others. *)
Definition room (s : fst_st) (F : gset Z) (m : nat) : Prop :=
  let l := log (fs_log s) in
  ∃ bs, log_ready (sb_size (fs_sb s)) l (store_of (fs_log s)) bs ∧ 1 ≤ outstanding l ∧
    Z.of_nat (size (list_to_set bs ∪ F) + m) ≤ LOGSIZE ∧ Z.of_nat (size (list_to_set bs ∪ F) + m) ≤ lg_size l - 1.

(** Block [b] is marked used. *)
Definition used (s : fst_st) (b : Z) : Prop :=
  bit_free (fv s (BBLOCK b (fs_sb s))) (b mod BPB) = false.

(** The first data block. *)
Definition datastart (sb : superblock) : Z := sb_bmapstart sb + sb_size sb / BPB + 1.

(** fs.h: boot block, superblock, log, inodes, bitmap, data. *)
Record sb_ok (sb : superblock) : Prop := {
  so_log : 2 ≤ sb_logstart sb;
  so_inodes : sb_logstart sb + sb_nlog sb ≤ sb_inodestart sb;
  so_nlog : 0 ≤ sb_nlog sb;
  so_ninodes : 0 ≤ sb_ninodes sb ≤ 65536;
  so_bmap : sb_inodestart sb + sb_ninodes sb / IPB + 1 ≤ sb_bmapstart sb;
  so_data : datastart sb ≤ sb_size sb;
  so_size : sb_size sb ≤ 1073741824
}.

Record fs_wf (s : fst_st) : Prop := {
  wf_dsize : dsize (store_of (fs_log s)) = sb_size (fs_sb s);
  wf_start : lg_start (log (fs_log s)) = sb_logstart (fs_sb s);
  wf_lsize : lg_size (log (fs_log s)) = sb_nlog (fs_sb s);
  wf_sb : sb_ok (fs_sb s);
  wf_len : ∀ k, sb_inodestart (fs_sb s) ≤ k < sb_size (fs_sb s) → length (fv s k) = 512%nat;
  wf_meta : ∀ b, 0 ≤ b < datastart (fs_sb s) → used s b
}.

Record fs_in (s : fst_st) (F : gset Z) (m : nat) : Prop := {
  fi_room : room s F m;
  fi_wf : fs_wf s
}.
Abbreviation fs_ok s m := (fs_in s ∅ m).

(** ** The room of a transaction *)

Lemma size_union_le (X Y : gset Z) : (size (X ∪ Y) ≤ size X + size Y)%nat.
Proof. rewrite size_union_alt. assert (size (Y ∖ X) ≤ size Y)%nat by (apply subseteq_size; set_solver). lia. Qed.

Section room.
Implicit Types (s : fst_st) (F : gset Z) (m : nat).

Lemma fs_in_weaken s F F' m m' : fs_in s F m → F' ⊆ F → (m' ≤ m)%nat → fs_in s F' m'.
Proof.
  intros [(bs & Hr & Ho & H1 & H2) Hwf] HF Hm. split; [|done]. exists bs.
  assert (size (list_to_set bs ∪ F') ≤ size (list_to_set bs ∪ F))%nat by (apply subseteq_size; set_solver).
  split_and!; [done|done|lia|lia].
Qed.

Lemma fs_ok_weaken s m m' : fs_ok s m → (m' ≤ m)%nat → fs_ok s m'.
Proof. intros Hok Hm. by eapply fs_in_weaken. Qed.

(** Any blocks can be set aside for as many of the others. *)
Lemma fs_reserve_all s F m G : fs_in s F (size G + m) → fs_in s (G ∪ F) m.
Proof.
  intros [(bs & Hr & Ho & H1 & H2) Hwf]. split; [|done]. exists bs.
  assert (size (list_to_set bs ∪ (G ∪ F)) ≤ size G + size (list_to_set bs ∪ F))%nat.
  { replace (list_to_set bs ∪ (G ∪ F)) with (G ∪ (list_to_set bs ∪ F)) by set_solver. apply size_union_le. }
  split_and!; [done|done|lia|lia].
Qed.

Lemma fs_reserve s F m b : fs_in s F (S m) → fs_in s ({[b]} ∪ F) m.
Proof. intros Hok. apply fs_reserve_all. by rewrite size_singleton. Qed.

(** At the start of a transaction. *)
Lemma room_empty s m : log_ready (sb_size (fs_sb s)) (log (fs_log s)) (store_of (fs_log s)) [] →
  1 ≤ outstanding (log (fs_log s)) → Z.of_nat m ≤ LOGSIZE → Z.of_nat m ≤ lg_size (log (fs_log s)) - 1 → room s ∅ m.
Proof. intros Hr Ho H1 H2. by exists []. Qed.

Lemma fs_in_icache s F m c : fs_in s F m → fs_in (Fst (fs_log s) (fs_sb s) c) F m.
Proof. intros [? []]. by split. Qed.

Lemma fs_wf_icache s c : fs_wf s → fs_wf (Fst (fs_log s) (fs_sb s) c).
Proof. by intros []. Qed.

End room.

(** ** Bits *)

Section bits.
Implicit Types (l : block) (bi : Z).

Lemma bit_free_spec l bi : 0 ≤ bi →
  bit_free l bi = negb (Z.testbit (get8 l (Z.to_nat (bi / 8))) (bi mod 8)).
Proof.
  intros Hb. unfold bit_free, bit_mask. rewrite Z.shiftl_1_l. apply land_pow2.
  apply Z.mod_pos_bound. lia.
Qed.

Lemma byte_bits b i : 0 ≤ b < 256 → 8 ≤ i → Z.testbit b i = false.
Proof.
  intros Hb Hi. destruct (decide (b = 0)) as [->|]; [apply Z.bits_0|].
  apply Z.bits_above_log2; [lia|]. assert (Z.log2 b < 8) by (apply Z.log2_lt_pow2; lia). lia.
Qed.

Lemma testbit_u8 x i : 0 ≤ i < 8 → Z.testbit (u8 x) i = Z.testbit x i.
Proof. intros Hi. unfold u8. change 256 with (2 ^ 8). apply Z.mod_pow2_bits_low. lia. Qed.

Lemma same_byte bi bi' : 0 ≤ bi → 0 ≤ bi' →
  Z.to_nat (bi / 8) = Z.to_nat (bi' / 8) → bi mod 8 = bi' mod 8 → bi = bi'.
Proof.
  intros. rewrite (Z.div_mod bi 8), (Z.div_mod bi' 8) by lia.
  pose proof (Z.div_pos bi 8). pose proof (Z.div_pos bi' 8). lia.
Qed.

Lemma bit_index bi : 0 ≤ bi < BPB → (Z.to_nat (bi / 8) < 512)%nat.
Proof. unfold BPB, BSIZE. intros. assert (bi / 8 < 512) by (apply Z.div_lt_upper_bound; lia). lia. Qed.

Lemma bit_free_put8 l bi bi' v : length l = 512%nat → 0 ≤ bi < BPB → 0 ≤ bi' < BPB →
  bit_free (put8 l (Z.to_nat (bi / 8)) v) bi' =
  if decide (Z.to_nat (bi / 8) = Z.to_nat (bi' / 8)) then negb (Z.testbit v (bi' mod 8)) else bit_free l bi'.
Proof.
  intros Hl Hb Hb'. rewrite !bit_free_spec by lia. rewrite get8_put8 by (rewrite Hl; by apply bit_index).
  destruct (decide _); [|done]. rewrite testbit_u8; [done|]. apply Z.mod_pos_bound. lia.
Qed.

Lemma bit_free_set l bi bi' : length l = 512%nat → 0 ≤ bi < BPB → 0 ≤ bi' < BPB →
  bit_free (bit_set l bi) bi' = if decide (bi = bi') then false else bit_free l bi'.
Proof.
  intros Hl Hb Hb'. unfold bit_set. rewrite bit_free_put8 by done.
  pose proof (Z.mod_pos_bound bi 8 ltac:(lia)). pose proof (Z.mod_pos_bound bi' 8 ltac:(lia)).
  destruct (decide (Z.to_nat (bi / 8) = Z.to_nat (bi' / 8))) as [E|E].
  - unfold bit_mask. rewrite Z.shiftl_1_l, Z.lor_spec, Z.pow2_bits_eqb by lia.
    rewrite bit_free_spec by lia. rewrite <-E.
    destruct (Z.eqb_spec (bi mod 8) (bi' mod 8)) as [Em|Em].
    + rewrite decide_True by (apply same_byte; lia || done). by rewrite orb_true_r.
    + rewrite decide_False by congruence. by rewrite orb_false_r.
  - rewrite decide_False by congruence. done.
Qed.

Lemma bit_free_clear l bi bi' : length l = 512%nat → 0 ≤ bi < BPB → 0 ≤ bi' < BPB →
  bit_free (bit_clear l bi) bi' = if decide (bi = bi') then true else bit_free l bi'.
Proof.
  intros Hl Hb Hb'. unfold bit_clear. rewrite bit_free_put8 by done.
  pose proof (Z.mod_pos_bound bi 8 ltac:(lia)). pose proof (Z.mod_pos_bound bi' 8 ltac:(lia)).
  destruct (decide (Z.to_nat (bi / 8) = Z.to_nat (bi' / 8))) as [E|E].
  - unfold bit_mask. rewrite Z.shiftl_1_l, Z.land_spec, Z.lnot_spec, Z.pow2_bits_eqb by lia.
    rewrite bit_free_spec by lia. rewrite <-E.
    destruct (Z.eqb_spec (bi mod 8) (bi' mod 8)) as [Em|Em].
    + rewrite decide_True by (apply same_byte; lia || done). by rewrite andb_false_r.
    + rewrite decide_False by congruence. by rewrite andb_true_r.
  - rewrite decide_False by congruence. done.
Qed.

Lemma length_bit_set l bi : length (bit_set l bi) = length l.
Proof. apply length_put8. Qed.

Lemma length_bit_clear l bi : length (bit_clear l bi) = length l.
Proof. apply length_put8. Qed.

End bits.

(** ** Reading and recording blocks *)

Section rw.
Implicit Types (s : fst_st) (m : nat).

Lemma bind_fread {A} s k (f : block → M fst_st A) : fs_wf s → 0 ≤ k < sb_size (fs_sb s) →
  bind (fread 1 k) f s = f (fv s k) s.
Proof.
  intros [Hd _ _ Hsb _ _] Hk. unfold fread. cbn [Z.eqb Pos.eqb negb].
  pose proof (so_size _ Hsb).
  unfold bind, on_log, zoom, on_store, zoom, sread, bind, get. rewrite u32_small by lia.
  rewrite (proj2 (Z.leb_gt _ _)) by lia. destruct s as [[l st] sb ic]. done.
Qed.

(** A state after block [b] has been recorded with contents [d]. *)
Definition recorded (s s' : fst_st) (b : Z) (d : block) : Prop :=
  fs_sb s' = fs_sb s ∧ icache s' = icache s ∧
  ∀ k, fv s' k = if decide (k = b) then d else fv s k.

Lemma home_outside s b : fs_wf s → 0 ≤ b < sb_size (fs_sb s) →
  ¬ (sb_logstart (fs_sb s) ≤ b < sb_inodestart (fs_sb s)) →
  home (lg_start (log (fs_log s))) (lg_size (log (fs_log s))) (sb_size (fs_sb s)) b.
Proof.
  intros [_ -> -> Hsb _ _] Hb Hn. pose proof (so_inodes _ Hsb). split; [done|]. lia.
Qed.

(** A block that is set aside is recorded at no cost, any other at the cost of
    one; the log checks for a free slot in either case. *)
Lemma tx_add_room b bs (F : gset Z) m : NoDup bs →
  (size (list_to_set (tx_add b bs) ∪ ({[b]} ∪ F)) + (if decide (b ∈ F) then S m else m) ≤
   size (list_to_set bs ∪ F) + S m)%nat.
Proof.
  intros Hnd. assert (list_to_set (tx_add b bs) ∪ ({[b]} ∪ F) = {[b]} ∪ (list_to_set bs ∪ F :> gset Z)) as ->.
  { unfold tx_add. case_decide; [|rewrite list_to_set_app_L]; set_solver. }
  destruct (decide (b ∈ F)).
  - by rewrite subseteq_union_1_L by set_solver.
  - pose proof (size_union_le {[b]} (list_to_set bs ∪ F)). rewrite size_singleton in *. lia.
Qed.

(** Recording a block that keeps the metadata region marked used. *)
Lemma fwrite_run s F m b d : fs_in s F (S m) → 0 ≤ b < sb_size (fs_sb s) →
  ¬ (sb_logstart (fs_sb s) ≤ b < sb_inodestart (fs_sb s)) → length d = 512%nat →
  (∀ b', 0 ≤ b' < datastart (fs_sb s) → BBLOCK b' (fs_sb s) = b → bit_free d (b' mod BPB) = false) →
  ∃ s', fwrite b d s = Ok tt s' ∧ recorded s s' b d ∧
    fs_in s' ({[b]} ∪ F) (if decide (b ∈ F) then S m else m).
Proof.
  intros Hok Hb Hn Hlen Hmeta. pose proof (home_outside s b (fi_wf _ _ _ Hok) Hb Hn) as Hhome.
  destruct Hok as [(bs & Hr & Ho & Hl1 & Hl2) [Hds Hst Hls Hsb Hl Hm]]. pose proof (so_size _ Hsb).
  pose proof (tx_nodup _ _ _ _ (lr_tx _ _ _ _ Hr)) as Hnd.
  pose proof (tx_add_room b bs F m Hnd) as Hroom.
  assert (Hbs : (length bs ≤ size (list_to_set bs ∪ F))%nat).
  { rewrite <-(size_list_to_set (C := gset Z) bs) by done. apply subseteq_size. set_solver. }
  destruct s as [[l st] sb ic]. cbn [log store_of fs_log fs_sb icache] in *.
  destruct (log_write_run (sb_size sb) l st bs b d Hr Hhome) as (l' & Hrun & Hr' & E1 & E2 & E3 & E4); [lia..|].
  set (st' := Store (disk st) (<[b := d]> (pinned st)) (dsize st) (writes st)) in *.
  exists (Fst (Lst l' st') sb ic).
  assert (Hfv : ∀ k, fv (Fst (Lst l' st') sb ic) k = if decide (k = b) then d else fv (Fst (Lst l st) sb ic) k).
  { intros k. unfold fv, sview. cbn. destruct (decide (k = b)) as [->|].
    - by rewrite lookup_insert_eq.
    - by rewrite lookup_insert_ne. }
  split_and!; [|done|].
  - unfold fwrite, on_log, zoom. rewrite u32_small by lia. cbn [fs_log]. rewrite Hrun. done.
  - split; [|split]; cbn [log store_of fs_log fs_sb icache]; try congruence; try done.
    + exists (tx_add b bs). cbn [log store_of fs_log fs_sb icache]. rewrite E3, E2. split_and!; try done; lia.
    + intros k Hk. rewrite Hfv. destruct (decide (k = b)); [done|]. by apply Hl.
    + intros b' Hb'. unfold used. rewrite Hfv. cbn [fs_sb]. destruct (decide (BBLOCK b' sb = b)) as [E|E].
      * by apply Hmeta.
      * by apply Hm.
Qed.

End rw.

(** ** Block allocation *)

Section alloc.
Implicit Types (s : fst_st) (m : nat) (b : Z).

Lemma BPB_eq : BPB = 4096.
Proof. done. Qed.

Lemma bblock_range sb b : sb_ok sb → 0 ≤ b < sb_size sb →
  sb_bmapstart sb ≤ BBLOCK b sb < datastart sb.
Proof.
  intros Hsb Hb. unfold BBLOCK, datastart. rewrite BPB_eq.
  pose proof (Z.div_pos b 4096). pose proof (Z.div_le_mono b (sb_size sb) 4096). lia.
Qed.

Lemma bmapstart_after_inodes sb : sb_ok sb → 2 ≤ sb_inodestart sb < sb_bmapstart sb.
Proof.
  intros [? ? ? [? ?] ? ? ?]. pose proof (Z.div_pos (sb_ninodes sb) IPB ltac:(lia) ltac:(done)). lia.
Qed.

Lemma datastart_pos sb : sb_ok sb → 0 ≤ sb_size sb / BPB ∧ sb_bmapstart sb < datastart sb.
Proof.
  intros Hsb. pose proof (so_data _ Hsb). pose proof (bmapstart_after_inodes _ Hsb).
  unfold datastart in *. rewrite BPB_eq in *.
  pose proof (Z.div_mod (sb_size sb) 4096 ltac:(lia)).
  pose proof (Z.mod_pos_bound (sb_size sb) 4096 ltac:(lia)). lia.
Qed.

Lemma bblock_outside sb b : sb_ok sb → 0 ≤ b < sb_size sb →
  0 ≤ BBLOCK b sb < sb_size sb ∧ ¬ (sb_logstart sb ≤ BBLOCK b sb < sb_inodestart sb).
Proof.
  intros Hsb Hb. pose proof (bblock_range sb b Hsb Hb). pose proof (bmapstart_after_inodes sb Hsb).
  pose proof (so_data _ Hsb). lia.
Qed.

(** Two blocks with the same bitmap block and bit are the same. *)
Lemma bblock_inj sb b b' : BBLOCK b sb = BBLOCK b' sb → b mod BPB = b' mod BPB → b = b'.
Proof.
  unfold BBLOCK. rewrite BPB_eq. intros. rewrite (Z.div_mod b 4096), (Z.div_mod b' 4096) by lia. lia.
Qed.

Lemma mod_BPB_range b : 0 ≤ b mod BPB < BPB.
Proof. apply Z.mod_pos_bound. done. Qed.

Lemma balloc_scan_Some n l b size : ∀ bi r, balloc_scan n l b bi size = Some r →
  bi ≤ r < bi + Z.of_nat n ∧ b + r < size ∧ bit_free l r = true ∧
  ∀ j, bi ≤ j < r → bit_free l j = false.
Proof.
  induction n as [|n IH]; intros bi r; simpl; [done|].
  destruct (Z.ltb_spec (b + bi) size); [|done]. destruct (bit_free l bi) eqn:E.
  - intros [= <-]. split_and!; try done; lia.
  - intros (? & ? & ? & Hj)%IH. split_and!; try done; [lia..|].
    intros j Hr. destruct (decide (j = bi)) as [->|]; [done|]. apply Hj. lia.
Qed.

Lemma balloc_scan_None n l b size : ∀ bi, balloc_scan n l b bi size = None →
  ∀ j, bi ≤ j < bi + Z.of_nat n → b + j < size → bit_free l j = false.
Proof.
  induction n as [|n IH]; intros bi; simpl; [lia|].
  destruct (Z.ltb_spec (b + bi) size); [|lia]. destruct (bit_free l bi) eqn:E; [done|].
  intros Hn j Hj Hs. destruct (decide (j = bi)) as [->|]; [done|]. apply (IH (bi + 1)); [done|lia|done].
Qed.

(** Block [b] was free and is now allocated and zeroed; nothing else changes but
    its bitmap block. *)
Record allocated (s s' : fst_st) (b : Z) : Prop := {
  al_range : datastart (fs_sb s) ≤ b < sb_size (fs_sb s);
  al_free : ¬ used s b;
  al_zero : fv s' b = zero_block;
  al_used : ∀ b', 0 ≤ b' < sb_size (fs_sb s) → (used s' b' ↔ used s b' ∨ b' = b);
  al_other : ∀ k, ¬ (sb_bmapstart (fs_sb s) ≤ k < datastart (fs_sb s)) → k ≠ b → fv s' k = fv s k;
  al_sb : fs_sb s' = fs_sb s;
  al_icache : icache s' = icache s
}.

Lemma div_mod_add q r : 0 ≤ r < BPB → (BPB * q + r) / BPB = q ∧ (BPB * q + r) mod BPB = r.
Proof.
  rewrite BPB_eq. intros Hr. split.
  - rewrite Z.mul_comm, Z.div_add_l by lia. rewrite Z.div_small; lia.
  - rewrite Z.mul_comm, Z.add_comm, Z.mod_add by lia. apply Z.mod_small. lia.
Qed.

Lemma mark_run s F m b : fs_in s F (S (S m)) → 0 ≤ b < sb_size (fs_sb s) → ¬ used s b →
  let sb := fs_sb s in
  ∃ s', (fwrite (BBLOCK b sb) (bit_set (fv s (BBLOCK b sb)) (b mod BPB)) ;;; bzero 1 b ;;; ret b) s = Ok b s' ∧
    allocated s s' b ∧ fs_in s' ({[b]} ∪ F) (if decide (BBLOCK b sb ∈ F) then S m else m).
Proof.
  intros Hok Hb Hfree sb. pose proof (wf_sb _ (fi_wf _ _ _ Hok)) as Hsb. fold sb in Hsb, Hb.
  destruct (bblock_outside sb b Hsb Hb) as [HB1 HB2]. pose proof (bblock_range sb b Hsb Hb) as HB3.
  assert (Hds : datastart sb ≤ b).
  { destruct (decide (datastart sb ≤ b)); [done|]. destruct Hfree. apply (wf_meta _ (fi_wf _ _ _ Hok)). fold sb. lia. }
  pose proof (bmapstart_after_inodes sb Hsb).
  pose proof (wf_len _ (fi_wf _ _ _ Hok) (BBLOCK b sb) ltac:(fold sb; lia)) as Hlen. pose proof (mod_BPB_range b) as Hmb.
  destruct (fwrite_run s F (S m) (BBLOCK b sb) (bit_set (fv s (BBLOCK b sb)) (b mod BPB)) Hok HB1 HB2)
    as (s1 & Hrun1 & (Esb1 & Eic1 & Hfv1) & Hok1); [by rewrite length_bit_set| |].
  { intros b' Hb' E. rewrite bit_free_set by (done || apply mod_BPB_range).
    destruct (decide _); [done|]. rewrite <-E. by apply (wf_meta _ (fi_wf _ _ _ Hok)). }
  fold sb in Esb1.
  apply (fs_in_weaken _ _ F _ (S (if decide (BBLOCK b sb ∈ F) then S m else m))) in Hok1; [|set_solver|by case_decide].
  destruct (fwrite_run s1 F _ b zero_block Hok1) as (s2 & Hrun2 & (Esb2 & Eic2 & Hfv2) & Hok2).
  { by rewrite Esb1. } { rewrite Esb1. lia. } { done. }
  { rewrite Esb1. intros b' Hb' E. pose proof (bblock_range sb b' Hsb). pose proof (so_data _ Hsb). lia. }
  exists s2. split_and!; [|split|eapply fs_in_weaken; [exact Hok2|done|by repeat case_decide; lia]].
  - erewrite bind_ok by exact Hrun1. unfold bzero. rewrite bind_assoc.
    erewrite bind_fread by (apply Hok1 || by rewrite Esb1). erewrite bind_ok by exact Hrun2. done.
  - fold sb. lia.
  - done.
  - rewrite Hfv2. by rewrite decide_True.
  - intros b' Hb'. unfold used. rewrite Esb2, Esb1. fold sb. rewrite Hfv2.
    pose proof (bblock_range sb b' Hsb Hb') as HB'.
    rewrite decide_False by lia. rewrite Hfv1.
    destruct (decide (BBLOCK b' sb = BBLOCK b sb)) as [E|E].
    + rewrite bit_free_set by (done || apply mod_BPB_range). rewrite <-E.
      destruct (decide (b mod BPB = b' mod BPB)) as [Em|Em].
      * assert (b' = b) by (by eapply bblock_inj). tauto.
      * split; [tauto|]. intros [?| ->]; [done|]. congruence.
    + split; [tauto|]. intros [?| ->]; [done|]. congruence.
  - intros k Hk Hkb. rewrite Hfv2, Hfv1. fold sb in Hk. by rewrite !decide_False by lia.
  - by rewrite Esb2, Esb1.
  - by rewrite Eic2, Eic1.
Qed.

(** The room [balloc] leaves: it records the new block and, if the bitmap was not
    set aside, a block of the bitmap. *)
Definition bitmap_in (sb : superblock) (F : gset Z) : Prop := ∀ b, 0 ≤ b < sb_size sb → BBLOCK b sb ∈ F.
Definition balloc_room s s' F m b : Prop :=
  fs_in s' ({[b]} ∪ F) m ∧ (bitmap_in (fs_sb s) F → fs_in s' ({[b]} ∪ F) (S m)).

(** The loop from the bitmap block [q] on, everything before being used. *)
Lemma balloc_loop_run s F m fuel : ∀ q, fs_in s F (S (S m)) → 0 ≤ q →
  sb_size (fs_sb s) / BPB + 1 - q ≤ Z.of_nat fuel →
  (∀ b, 0 ≤ b < BPB * q → b < sb_size (fs_sb s) → used s b) →
  (∃ b s', balloc_loop fuel 1 (BPB * q) s = Ok b s' ∧ allocated s s' b ∧ balloc_room s s' F m b ∧
     ∀ b', 0 ≤ b' < b → used s b') ∨
  (balloc_loop fuel 1 (BPB * q) s = Err (Panic "balloc: out of blocks") s ∧
   ∀ b, 0 ≤ b < sb_size (fs_sb s) → used s b).
Proof.
  induction fuel as [|fuel IH]; intros q Hok Hq Hfuel Hbefore; cbn [balloc_loop]; rewrite bind_gets.
  { right. assert (sb_size (fs_sb s) < BPB * q).
    { rewrite BPB_eq in *. pose proof (Z.div_mod (sb_size (fs_sb s)) 4096 ltac:(lia)).
      pose proof (Z.mod_pos_bound (sb_size (fs_sb s)) 4096 ltac:(lia)). lia. }
    rewrite (proj2 (Z.ltb_ge _ _)) by lia. split; [done|]. intros b Hb. apply Hbefore; lia. }
  destruct (Z.ltb_spec (BPB * q) (sb_size (fs_sb s))) as [Hlt|Hge].
  2:{ right. split; [done|]. intros b Hb. apply Hbefore; lia. }
  pose proof (wf_sb _ (fi_wf _ _ _ Hok)) as Hsb.
  assert (Hq0 : 0 ≤ BPB * q < sb_size (fs_sb s)) by (rewrite BPB_eq in *; lia).
  destruct (bblock_outside _ _ Hsb Hq0) as [HB1 HB2].
  rewrite bind_fread by (done || apply Hok).
  assert (HBq : ∀ r, 0 ≤ r < BPB → BBLOCK (BPB * q + r) (fs_sb s) = BBLOCK (BPB * q) (fs_sb s)).
  { intros r Hr. unfold BBLOCK. destruct (div_mod_add q r Hr) as [-> _].
    destruct (div_mod_add q 0) as [E _]; [by rewrite BPB_eq|]. rewrite Z.add_0_r in E. by rewrite E. }
  assert (Hused : ∀ r, 0 ≤ r < BPB → used s (BPB * q + r) ↔ bit_free (fv s (BBLOCK (BPB * q) (fs_sb s))) r = false).
  { intros r Hr. unfold used. rewrite HBq by done. by destruct (div_mod_add q r Hr) as [_ ->]. }
  destruct (balloc_scan _ _ _ _ _) as [bi|] eqn:Hscan.
  - apply balloc_scan_Some in Hscan as (Hbi & Hbs & Hf & Hall). rewrite Z2Nat.id in Hbi by done. left.
    assert (Hnu : ¬ used s (BPB * q + bi)) by (rewrite Hused by lia; by rewrite Hf).
    destruct (mark_run s F m (BPB * q + bi) Hok) as (s' & Hrun & Hal & Hok'); [lia|done|].
    cbn zeta in Hrun, Hok'. rewrite HBq in Hrun by lia. destruct (div_mod_add q bi) as [_ E]; [lia|]. rewrite E in Hrun.
    exists (BPB * q + bi), s'. split_and!; try done.
    { split; [eapply fs_in_weaken; [exact Hok'|done|by case_decide; lia]|]. intros HF.
      by rewrite decide_True in Hok' by (apply HF; lia). }
    intros b' Hb'.
    destruct (decide (b' < BPB * q)); [apply Hbefore; lia|].
    replace b' with (BPB * q + (b' - BPB * q)) by lia. apply Hused; [lia|]. apply Hall. lia.
  - pose proof (balloc_scan_None _ _ _ _ _ Hscan) as Hall. rewrite Z2Nat.id in Hall by done.
    replace (BPB * q + BPB) with (BPB * (q + 1)) by lia. apply IH; [done|lia|lia|].
    intros b Hb Hs. destruct (decide (b < BPB * q)); [apply Hbefore; lia|].
    replace b with (BPB * q + (b - BPB * q)) by lia. rewrite Z.mul_add_distr_l in Hb.
    apply Hused; [lia|]. apply Hall; lia.
Qed.

Lemma balloc_run s F m : fs_in s F (S (S m)) →
  (∃ b s', balloc 1 s = Ok b s' ∧ allocated s s' b ∧ balloc_room s s' F m b ∧ ∀ b', 0 ≤ b' < b → used s b') ∨
  (balloc 1 s = Err (Panic "balloc: out of blocks") s ∧ ∀ b, 0 ≤ b < sb_size (fs_sb s) → used s b).
Proof.
  intros Hok. unfold balloc. rewrite bind_gets. change 0 with (BPB * 0) at 2.
  assert (0 ≤ sb_size (fs_sb s) / BPB).
  { by apply datastart_pos, (wf_sb _ (fi_wf _ _ _ Hok)). }
  apply (balloc_loop_run s F m _ 0); [done|lia|lia|lia].
Qed.

End alloc.

Section free.
Implicit Types (s : fst_st) (m : nat) (b : Z).

(** Block [b] was used and is now free; only its bitmap block changes. *)
Record freed (s s' : fst_st) (b : Z) : Prop := {
  fr_used : ∀ b', 0 ≤ b' < sb_size (fs_sb s) → (used s' b' ↔ used s b' ∧ b' ≠ b);
  fr_other : ∀ k, ¬ (sb_bmapstart (fs_sb s) ≤ k < datastart (fs_sb s)) → fv s' k = fv s k;
  fr_sb : fs_sb s' = fs_sb s;
  fr_icache : icache s' = icache s
}.

Lemma bfree_run s F m b : fs_in s F (S m) → datastart (fs_sb s) ≤ b < sb_size (fs_sb s) → used s b →
  ∃ s', bfree 1 b s = Ok tt s' ∧ freed s s' b ∧
    fs_in s' F (if decide (BBLOCK b (fs_sb s) ∈ F) then S m else m).
Proof.
  intros Hok Hb Hu. pose proof (wf_sb _ (fi_wf _ _ _ Hok)) as Hsb.
  pose proof (bmapstart_after_inodes _ Hsb). pose proof (so_data _ Hsb).
  pose proof (datastart_pos _ Hsb). assert (Hb0 : 0 ≤ b < sb_size (fs_sb s)) by lia.
  destruct (bblock_outside _ b Hsb Hb0) as [HB1 HB2]. pose proof (bblock_range _ b Hsb Hb0) as HB3.
  pose proof (wf_len _ (fi_wf _ _ _ Hok) (BBLOCK b (fs_sb s)) ltac:(lia)) as Hlen. pose proof (mod_BPB_range b) as Hmb.
  set (B := BBLOCK b (fs_sb s)) in *.
  destruct (fwrite_run s F m B (bit_clear (fv s B) (b mod BPB)) Hok HB1 HB2)
    as (s1 & Hrun & (Esb & Eic & Hfv) & Hok1); [by rewrite length_bit_clear| |].
  { intros b' Hb' E. rewrite bit_free_clear by (done || apply mod_BPB_range).
    destruct (decide (b mod BPB = b' mod BPB)) as [Em|].
    - assert (b = b') by (eapply (bblock_inj (fs_sb s)); [by rewrite E|done]). lia.
    - rewrite <-E. by apply (wf_meta _ (fi_wf _ _ _ Hok)). }
  exists s1. split_and!; [|split|eapply fs_in_weaken; [exact Hok1|set_solver|done]].
  - unfold bfree. rewrite bind_gets. rewrite bind_fread by (done || apply Hok). fold B.
    unfold used in Hu. fold B in Hu. by rewrite Hu.
  - intros b' Hb'. unfold used. rewrite Esb, Hfv.
    destruct (decide (BBLOCK b' (fs_sb s) = B)) as [E|E].
    + rewrite bit_free_clear by (done || apply mod_BPB_range). rewrite <-E.
      destruct (decide (b mod BPB = b' mod BPB)) as [Em|Em].
      * assert (b = b') by (eapply (bblock_inj (fs_sb s)); [by rewrite E|done]).
        split; [done|]. intros [_ ?]. congruence.
      * split; [|tauto]. intros ?. split; [done|]. congruence.
    + split; [|tauto]. intros ?. split; [done|]. intros ->. done.
  - intros k Hk. rewrite Hfv. by rewrite decide_False by lia.
  - done.
  - done.
Qed.

Lemma bfree_panics s b : fs_wf s → 0 ≤ b < sb_size (fs_sb s) → ¬ used s b →
  bfree 1 b s = Err (Panic "freeing free block") s.
Proof.
  intros Hwf Hb Hu. destruct (bblock_outside _ b (wf_sb _ Hwf) Hb) as [HB1 _].
  unfold bfree. rewrite bind_gets, bind_fread by done.
  unfold used in Hu. apply not_false_is_true in Hu. by rewrite Hu.
Qed.

End free.

(** Block allocation.  Inside a transaction with room for two blocks,
    [balloc] returns the lowest free block of the disk, which lies in the data
    region, marked used in the bitmap and zeroed, no other block's mark or
    content being changed; if every block is used it panics.  A following
    [bfree] of that block succeeds and restores the bitmap, and a second
    [bfree] of it panics. *)
Theorem balloc_correct s m : fs_ok s (3 + m) →
  (∃ b s' s'', balloc 1 s = Ok b s' ∧ allocated s s' b ∧ (∀ b', 0 ≤ b' < b → used s b') ∧
     bfree 1 b s' = Ok tt s'' ∧ (∀ b', 0 ≤ b' < sb_size (fs_sb s) → (used s'' b' ↔ used s b')) ∧
     bfree 1 b s'' = Err (Panic "freeing free block") s'') ∨
  (balloc 1 s = Err (Panic "balloc: out of blocks") s ∧ ∀ b, 0 ≤ b < sb_size (fs_sb s) → used s b).
Proof.
  intros Hok. destruct (balloc_run s ∅ (S m) Hok) as [(b & s' & Hrun & Hal & [Hok' _] & Hlow)|?]; [left|by right].
  pose proof Hal as [Hr Hf Hz Hu Ho Esb _].
  pose proof (wf_sb _ (fi_wf _ _ _ Hok)) as Hsb. pose proof (bmapstart_after_inodes _ Hsb).
  pose proof (datastart_pos _ Hsb). assert (Hb0 : 0 ≤ b < sb_size (fs_sb s)) by lia.
  destruct (bfree_run s' _ m b Hok') as (s'' & Hrun' & [Hu' _ Esb' _] & Hok''); [by rewrite Esb|apply Hu; auto|].
  rewrite Esb in Hu'.
  assert (Hback : ∀ b', 0 ≤ b' < sb_size (fs_sb s) → (used s'' b' ↔ used s b')).
  { intros b' Hb'. rewrite Hu', Hu by done. split; [tauto|]. intros ?. split; [by left|]. by intros ->. }
  exists b, s', s''. split_and!; try done. apply bfree_panics; [apply Hok''|by rewrite Esb', Esb|].
  by rewrite Hback.
Qed.

(** ** On-disk inodes *)

(** The values the fields of struct dinode can hold. *)
Record dinode_ok (d : dinode) : Prop := {
  do_type : -32768 ≤ d_type d < 32768;
  do_major : -32768 ≤ d_major d < 32768;
  do_minor : -32768 ≤ d_minor d < 32768;
  do_nlink : -32768 ≤ d_nlink d < 32768;
  do_size : 0 ≤ d_size d < 4294967296;
  do_len : length (d_addrs d) = S NDIRECT;
  do_addrs : Forall (λ a, 0 ≤ a < 4294967296) (d_addrs d)
}.

Section codec.
Implicit Types (l : block) (o : nat) (d : dinode).

Lemma length_put_addrs a : ∀ l o, length (put_addrs l o a) = length l.
Proof. induction a as [|x a IH]; intros l o; simpl; [done|]. by rewrite IH, length_put32. Qed.

Lemma get8_put_addrs_ne a : ∀ l o j, (o + 4 * length a ≤ length l)%nat →
  (j < o ∨ o + 4 * length a ≤ j)%nat → get8 (put_addrs l o a) j = get8 l j.
Proof.
  induction a as [|x a IH]; intros l o j Hl Hj; simpl in *; [done|].
  rewrite IH by (rewrite ?length_put32; lia). apply get8_put32_ne; lia.
Qed.

Lemma get_addrs_ext l l' n : ∀ o, (∀ j, (o ≤ j < o + 4 * n)%nat → get8 l' j = get8 l j) →
  get_addrs l' o n = get_addrs l o n.
Proof.
  induction n as [|n IH]; intros o H; simpl; [done|]. f_equal.
  - unfold get32. rewrite !H by lia. done.
  - apply IH. intros j Hj. apply H. lia.
Qed.

Lemma get_put_addrs a : ∀ l o, (o + 4 * length a ≤ length l)%nat →
  Forall (λ x, 0 ≤ x < 4294967296) a → get_addrs (put_addrs l o a) o (length a) = a.
Proof.
  induction a as [|x a IH]; intros l o Hl Ha; simpl in *; [done|].
  apply Forall_cons in Ha as [Hx Ha]. f_equal.
  - unfold get32. rewrite !get8_put_addrs_ne by (rewrite ?length_put32; lia).
    fold (get32 (put32 l o x) o). rewrite get32_put32_eq by lia. by apply u32_small.
  - apply IH; [rewrite length_put32; lia|done].
Qed.

Lemma length_put_dinode l o d : length (put_dinode l o d) = length l.
Proof. unfold put_dinode. by rewrite length_put_addrs, length_put32, !length_put16. Qed.

Lemma get8_put_dinode_ne l o d j : length (d_addrs d) = S NDIRECT → (o + 64 ≤ length l)%nat →
  (j < o ∨ o + 64 ≤ j)%nat → get8 (put_dinode l o d) j = get8 l j.
Proof.
  intros Hd Hl Hj. unfold put_dinode.
  rewrite get8_put_addrs_ne by (rewrite ?length_put32, ?length_put16, ?Hd; unfold NDIRECT; lia).
  rewrite get8_put32_ne by (rewrite ?length_put16; lia).
  by rewrite !get8_put16_ne by (rewrite ?length_put16; lia).
Qed.

Lemma get_dinode_ext l l' o : (∀ j, (o ≤ j < o + 64)%nat → get8 l' j = get8 l j) →
  get_dinode l' o = get_dinode l o.
Proof.
  intros H. unfold get_dinode. f_equal; [..|apply get_addrs_ext; intros j Hj; apply H; unfold NDIRECT in *; lia];
    unfold get16, get32; rewrite !H by lia; done.
Qed.

Lemma get_dinode_ne l o o' d : length (d_addrs d) = S NDIRECT → (o + 64 ≤ length l)%nat →
  (o' + 64 ≤ o ∨ o + 64 ≤ o')%nat → get_dinode (put_dinode l o d) o' = get_dinode l o'.
Proof. intros Hd Hl Ho. apply get_dinode_ext. intros j Hj. apply get8_put_dinode_ne; [done|lia|lia]. Qed.

(** Fields before the addresses are not touched by writing the addresses. *)
Lemma get16_put_addrs_ne a l o j : (o + 4 * length a ≤ length l)%nat → (j + 2 ≤ o)%nat →
  get16 (put_addrs l o a) j = get16 l j.
Proof. intros. unfold get16. rewrite !get8_put_addrs_ne by lia. done. Qed.

Lemma s16_u16 x : -32768 ≤ x < 32768 → s16 (u16 x) = x.
Proof. zlia. Qed.

Lemma get_put_dinode l o d : dinode_ok d → (o + 64 ≤ length l)%nat → get_dinode (put_dinode l o d) o = d.
Proof.
  intros [H1 H2 H3 H4 H5 H6 H7] Hl. unfold get_dinode, put_dinode.
  set (l1 := put16 l o (d_type d)). set (l2 := put16 l1 (o + 2) (d_major d)).
  set (l3 := put16 l2 (o + 4) (d_minor d)). set (l4 := put16 l3 (o + 6) (d_nlink d)).
  set (l5 := put32 l4 (o + 8) (d_size d)).
  assert (L1 : length l1 = length l) by apply length_put16.
  assert (L2 : length l2 = length l) by (unfold l2; by rewrite length_put16).
  assert (L3 : length l3 = length l) by (unfold l3; by rewrite length_put16).
  assert (L4 : length l4 = length l) by (unfold l4; by rewrite length_put16).
  assert (L5 : length l5 = length l) by (unfold l5; by rewrite length_put32).
  assert (Ha : (o + 12 + 4 * length (d_addrs d) ≤ length l5)%nat) by (rewrite L5, H6; unfold NDIRECT; lia).
  rewrite !get16_put_addrs_ne by (done || lia).
  assert (E0 : get32 (put_addrs l5 (o + 12) (d_addrs d)) (o + 8) = get32 l5 (o + 8))
    by (unfold get32; rewrite !get8_put_addrs_ne by (done || lia); done).
  rewrite E0, <-H6, get_put_addrs by done.
  assert (E5 : get32 l5 (o + 8) = d_size d) by (unfold l5; rewrite get32_put32_eq by lia; by apply u32_small).
  assert (E4 : get16 l5 (o + 6) = u16 (d_nlink d))
    by (unfold l5; rewrite get16_put32_ne by lia; unfold l4; apply get16_put16_eq; lia).
  assert (E3 : get16 l5 (o + 4) = u16 (d_minor d)).
  { unfold l5. rewrite get16_put32_ne by lia. unfold l4. rewrite get16_put16_ne by lia.
    unfold l3. apply get16_put16_eq. lia. }
  assert (E2 : get16 l5 (o + 2) = u16 (d_major d)).
  { unfold l5. rewrite get16_put32_ne by lia. unfold l4. rewrite get16_put16_ne by lia.
    unfold l3. rewrite get16_put16_ne by lia. unfold l2. apply get16_put16_eq. lia. }
  assert (E1 : get16 l5 o = u16 (d_type d)).
  { unfold l5. rewrite get16_put32_ne by lia. unfold l4. rewrite get16_put16_ne by lia.
    unfold l3. rewrite get16_put16_ne by lia. unfold l2. rewrite get16_put16_ne by lia.
    unfold l1. apply get16_put16_eq. lia. }
  rewrite E1, E2, E3, E4, E5, !s16_u16 by done. by destruct d.
Qed.

End codec.

(** Inode [inum] as the disk holds it. *)
Definition dinode_of (s : fst_st) (inum : Z) : dinode :=
  get_dinode (fv s (IBLOCK inum (fs_sb s))) (dip_off inum).

Section inodes.
Implicit Types (s : fst_st) (m ip : nat) (inum : Z).

Lemma iblock_range sb inum : sb_ok sb → 0 ≤ inum < sb_ninodes sb →
  sb_inodestart sb ≤ IBLOCK inum sb < sb_bmapstart sb.
Proof.
  intros Hsb Hi. pose proof (so_bmap _ Hsb). unfold IBLOCK in *. change IPB with 8 in *.
  pose proof (Z.div_pos inum 8). pose proof (Z.div_le_mono inum (sb_ninodes sb) 8). lia.
Qed.

Lemma iblock_outside sb inum : sb_ok sb → 0 ≤ inum < sb_ninodes sb →
  0 ≤ IBLOCK inum sb < sb_size sb ∧ ¬ (sb_logstart sb ≤ IBLOCK inum sb < sb_inodestart sb).
Proof.
  intros Hsb Hi. pose proof (iblock_range sb inum Hsb Hi). pose proof (datastart_pos _ Hsb).
  pose proof (so_data _ Hsb). pose proof (bmapstart_after_inodes _ Hsb). lia.
Qed.

Lemma dip_off_range inum : (dip_off inum + 64 ≤ 512)%nat.
Proof.
  unfold dip_off, sizeof_dinode. change IPB with 8. pose proof (Z.mod_pos_bound inum 8 ltac:(lia)). lia.
Qed.

Lemma dip_off_ne sb i j : IBLOCK i sb = IBLOCK j sb → i ≠ j →
  (dip_off j + 64 ≤ dip_off i ∨ dip_off i + 64 ≤ dip_off j)%nat.
Proof.
  unfold IBLOCK, dip_off, sizeof_dinode. change IPB with 8. intros E Hne.
  pose proof (Z.div_mod i 8 ltac:(lia)). pose proof (Z.div_mod j 8 ltac:(lia)).
  pose proof (Z.mod_pos_bound i 8 ltac:(lia)). pose proof (Z.mod_pos_bound j 8 ltac:(lia)). lia.
Qed.

(** Inode [inum] on disk has become [d]; nothing else has. *)
Record inode_stored (s s' : fst_st) (inum : Z) (d : dinode) : Prop := {
  is_new : dinode_of s' inum = d;
  is_others : ∀ j, j ≠ inum → dinode_of s' j = dinode_of s j;
  is_blocks : ∀ k, k ≠ IBLOCK inum (fs_sb s) → fv s' k = fv s k;
  is_used : ∀ b, 0 ≤ b < sb_size (fs_sb s) → (used s' b ↔ used s b);
  is_sb : fs_sb s' = fs_sb s;
  is_icache : icache s' = icache s
}.

Lemma inode_recorded s s' inum d : fs_wf s → 0 ≤ inum < sb_ninodes (fs_sb s) → dinode_ok d →
  recorded s s' (IBLOCK inum (fs_sb s)) (put_dinode (fv s (IBLOCK inum (fs_sb s))) (dip_off inum) d) →
  inode_stored s s' inum d.
Proof.
  intros Hwf Hi Hd (Esb & Eic & Hfv). pose proof (wf_sb _ Hwf) as Hsb.
  destruct (iblock_outside _ _ Hsb Hi) as [HI1 HI2]. pose proof (iblock_range _ _ Hsb Hi) as HI3.
  set (I := IBLOCK inum (fs_sb s)) in *. pose proof (wf_len _ Hwf I ltac:(lia)) as Hlen.
  pose proof (dip_off_range inum) as Ho. pose proof (do_len _ Hd) as Hda. split; try done.
  - unfold dinode_of. rewrite Esb, Hfv. fold I. rewrite decide_True by done. apply get_put_dinode; [done|lia].
  - intros j Hj. unfold dinode_of. rewrite Esb, Hfv. destruct (decide _) as [E|]; [|done]. rewrite E.
    apply get_dinode_ne; [done|lia|]. by eapply dip_off_ne.
  - intros k Hk. rewrite Hfv. by rewrite decide_False.
  - intros b Hb. unfold used. rewrite Esb, Hfv. pose proof (bblock_range _ b Hsb Hb).
    by rewrite decide_False by lia.
Qed.

Lemma store_inode s F m inum d : fs_in s F (S m) → 0 ≤ inum < sb_ninodes (fs_sb s) → dinode_ok d →
  ∃ s', fwrite (IBLOCK inum (fs_sb s)) (put_dinode (fv s (IBLOCK inum (fs_sb s))) (dip_off inum) d) s = Ok tt s' ∧
    inode_stored s s' inum d ∧ fs_in s' F (if decide (IBLOCK inum (fs_sb s) ∈ F) then S m else m).
Proof.
  intros Hok Hi Hd. pose proof (wf_sb _ (fi_wf _ _ _ Hok)) as Hsb.
  destruct (iblock_outside _ _ Hsb Hi) as [HI1 HI2]. pose proof (iblock_range _ _ Hsb Hi) as HI3.
  destruct (fwrite_run s F m _ (put_dinode (fv s (IBLOCK inum (fs_sb s))) (dip_off inum) d) Hok HI1 HI2)
    as (s' & Hrun & Hrec & Hok'); [rewrite length_put_dinode; apply (wf_len _ (fi_wf _ _ _ Hok)); lia| |].
  { intros b' Hb' E. pose proof (bblock_range _ b' Hsb). pose proof (so_data _ Hsb). lia. }
  exists s'. split_and!; [done| |eapply fs_in_weaken; [exact Hok'|set_solver|done]].
  apply inode_recorded; [apply Hok|done..].
Qed.

Lemma bind_inode_at {A} ip x s (k : inode → M fst_st A) : icache s !! ip = Some x →
  bind (inode_at ip) k s = k x s.
Proof. intros Hx. unfold bind, inode_at, bind, gets, deref. by rewrite Hx. Qed.

Lemma bind_upd_inode {A} ip f x s (k : unit → M fst_st A) : icache s !! ip = Some x →
  bind (upd_inode ip f) k s = k tt (Fst (fs_log s) (fs_sb s) (<[ip := f x]> (icache s))).
Proof.
  intros Hx. unfold bind, upd_inode, modify. do 2 f_equal. apply list_eq. intros j.
  destruct (decide (ip = j)) as [<-|].
  - rewrite list_lookup_alter_eq, list_lookup_insert_eq by (by eapply lookup_lt_Some). by rewrite Hx.
  - by rewrite list_lookup_alter_ne, list_lookup_insert_ne.
Qed.

Lemma bind_on_ilock {A B} ip (mm : M sleeplock A) x a lk s (k : A → M fst_st B) :
  icache s !! ip = Some x → mm (i_lock x) = Ok a lk →
  bind (on_ilock ip mm) k s = k a (Fst (fs_log s) (fs_sb s) (<[ip := set_ilock lk x]> (icache s))).
Proof.
  intros Hx Hm. pose proof (bind_upd_inode ip (set_ilock lk) x s (λ _, k a) Hx) as E.
  unfold on_ilock. rewrite bind_assoc. erewrite bind_inode_at by done. rewrite <-E.
  unfold bind at 1. rewrite Hm. done.
Qed.

Lemma iupdate_run s F m ip x : fs_in s F (S m) → icache s !! ip = Some x → i_dev x = 1 →
  0 ≤ i_inum x < sb_ninodes (fs_sb s) → dinode_ok (i_d x) →
  ∃ s', iupdate ip s = Ok tt s' ∧ inode_stored s s' (i_inum x) (i_d x) ∧
    fs_in s' F (if decide (IBLOCK (i_inum x) (fs_sb s) ∈ F) then S m else m).
Proof.
  intros Hok Hx Hdev Hi Hd. destruct (store_inode s F m (i_inum x) (i_d x) Hok Hi Hd) as (s' & Hrun & Hst & Hok').
  exists s'. split_and!; [|done|done]. unfold iupdate. erewrite bind_inode_at by done. rewrite bind_gets, Hdev.
  rewrite bind_fread; [done|apply Hok|]. by apply iblock_outside, Hi; apply (wf_sb _ (fi_wf _ _ _ Hok)).
Qed.

(** The entry that [ilock] leaves. *)
Definition locked_inode (me : Z) (s : fst_st) (x : inode) : inode :=
  Inode (i_dev x) (i_inum x) (i_ref x) (Sleeplock true me) true
    (if i_valid x then i_d x else dinode_of s (i_inum x)).

Lemma ilock_run me s ip x : fs_wf s → icache s !! ip = Some x → i_dev x = 1 → 1 ≤ i_ref x →
  slocked (i_lock x) = false → 0 ≤ i_inum x < sb_ninodes (fs_sb s) →
  ilock me ip s =
  let s' := Fst (fs_log s) (fs_sb s) (<[ip := locked_inode me s x]> (icache s)) in
  if negb (i_valid x) && (d_type (dinode_of s (i_inum x)) =? 0)
  then Err (Panic "ilock: no type") s' else Ok tt s'.
Proof.
  intros Hok Hx Hdev Href Hlk Hi. assert (Hlt : (ip < length (icache s))%nat) by (by eapply lookup_lt_Some).
  unfold ilock. erewrite bind_inode_at by done. rewrite (proj2 (Z.ltb_ge _ _)) by lia.
  erewrite bind_on_ilock; [|done|unfold acquiresleep, bind, gets; by rewrite Hlk].
  erewrite bind_inode_at by (by apply list_lookup_insert_eq). cbn [i_valid set_ilock].
  set (x1 := set_ilock (Sleeplock true me) x). destruct (i_valid x) eqn:Ev.
  - cbn [negb andb]. unfold locked_inode. rewrite Ev. unfold x1, set_ilock, ret. rewrite Ev. done.
  - cbn [negb andb]. rewrite bind_gets. cbn [fs_sb].
    set (s1 := Fst (fs_log s) (fs_sb s) (<[ip := x1]> (icache s))).
    assert (Hok1 : fs_wf s1) by (by destruct Hok).
    change (i_dev x1) with (i_dev x). change (i_inum x1) with (i_inum x). rewrite Hdev.
    rewrite bind_fread; [|done|by apply iblock_outside, Hi; apply (wf_sb _ Hok)].
    unfold upd_dinode. erewrite bind_upd_inode by (by apply list_lookup_insert_eq).
    cbn [fs_log fs_sb icache s1]. rewrite list_insert_insert_eq.
    erewrite bind_upd_inode by (by apply list_lookup_insert_eq). cbn [fs_log fs_sb icache].
    rewrite list_insert_insert_eq. erewrite bind_inode_at by (by apply list_lookup_insert_eq).
    unfold locked_inode. rewrite Ev. cbn [i_d set_ivalid set_idata].
    change (fv s1) with (fv s). fold (dinode_of s (i_inum x)). by destruct (_ =? 0).
Qed.

(** Inodes survive the trip to the disk.  [iupdate] writes the in-memory
    inode to its slot and leaves every other inode and block as it was; a later
    [ilock] of a cache entry for the same inode that has not been read yet,
    with the disk unchanged in between, locks the entry and loads exactly the
    fields that were written, touching no other entry. *)
Theorem inode_write_back me s m ip x : fs_ok s (S m) → icache s !! ip = Some x → i_dev x = 1 →
  0 ≤ i_inum x < sb_ninodes (fs_sb s) → dinode_ok (i_d x) → d_type (i_d x) ≠ 0 →
  ∃ s', iupdate ip s = Ok tt s' ∧ inode_stored s s' (i_inum x) (i_d x) ∧ fs_ok s' m ∧
    ∀ s2 ip2 y, fs_wf s2 → fs_sb s2 = fs_sb s → (∀ k, fv s2 k = fv s' k) →
      icache s2 !! ip2 = Some y → i_dev y = 1 → i_inum y = i_inum x → i_valid y = false →
      1 ≤ i_ref y → slocked (i_lock y) = false →
      ilock me ip2 s2 = Ok tt (Fst (fs_log s2) (fs_sb s2)
        (<[ip2 := Inode 1 (i_inum x) (i_ref y) (Sleeplock true me) true (i_d x)]> (icache s2))).
Proof.
  intros Hok Hx Hdev Hi Hd Ht. destruct (iupdate_run s ∅ m ip x Hok Hx Hdev Hi Hd) as (s' & Hrun & Hst & Hok').
  exists s'. split_and!; try done. intros s2 ip2 y Hok2 Esb2 Hfv Hy Hdy Hiy Hvy Hry Hly.
  assert (E : dinode_of s2 (i_inum y) = i_d x).
  { rewrite Hiy, <-(is_new _ _ _ _ Hst). unfold dinode_of. by rewrite Esb2, (is_sb _ _ _ _ Hst), Hfv. }
  rewrite (ilock_run me s2 ip2 y) by (done || by rewrite Hiy, Esb2). cbn zeta.
  rewrite Hvy, E. cbn [negb andb]. rewrite (proj2 (Z.eqb_neq _ _)) by done.
  unfold locked_inode. by rewrite Hvy, E, Hdy, Hiy.
Qed.

End inodes.

(** ** The inode cache *)

(** Entry [x] is in use for inode [inum] of device [dev]. *)
Definition holds_inode (dev inum : Z) (x : inode) : bool :=
  (0 <? i_ref x) && (i_dev x =? dev) && (i_inum x =? inum).

(** Reference counts are not negative, and no inode has two entries. *)
Definition icache_ok (c : list inode) : Prop :=
  (∀ i x, c !! i = Some x → 0 ≤ i_ref x) ∧
  ∀ i j x y dev inum, c !! i = Some x → c !! j = Some y →
    holds_inode dev inum x = true → holds_inode dev inum y = true → i = j.

(** The references to inode [inum] of device [dev]. *)
Definition weight (dev inum : Z) (x : inode) : Z := if holds_inode dev inum x then i_ref x else 0.
Fixpoint irefs (c : list inode) (dev inum : Z) : Z :=
  match c with
  | [] => 0
  | x :: c' => weight dev inum x + irefs c' dev inum
  end.

Section icache.
Implicit Types (c : list inode) (dev inum : Z) (i : nat).

Lemma irefs_insert c dev inum : ∀ i x y, c !! i = Some x →
  irefs (<[i := y]> c) dev inum = irefs c dev inum - weight dev inum x + weight dev inum y.
Proof.
  induction c as [|z c IH]; intros [|i] x y Hx; simplify_eq/=; [lia|]. rewrite (IH i x y Hx). lia.
Qed.

Lemma holds_inode_spec dev inum x : holds_inode dev inum x = true ↔
  0 < i_ref x ∧ i_dev x = dev ∧ i_inum x = inum.
Proof. unfold holds_inode. rewrite !andb_true_iff, Z.ltb_lt, !Z.eqb_eq. tauto. Qed.

Lemma iget_scan_spec dev inum c : ∀ i e,
  match iget_scan dev inum c i e with
  | (Some k, _) => ∃ x, (i ≤ k)%nat ∧ c !! (k - i)%nat = Some x ∧ holds_inode dev inum x = true
  | (None, e') => (∀ j x, c !! j = Some x → holds_inode dev inum x = false) ∧
      match e with
      | Some _ => e' = e
      | None =>
          match e' with
          | Some k => ∃ x, (i ≤ k)%nat ∧ c !! (k - i)%nat = Some x ∧ i_ref x = 0
          | None => ∀ j x, c !! j = Some x → i_ref x ≠ 0
          end
      end
  end.
Proof.
  induction c as [|x c IH]; intros i e; simpl; [split; [done|by destruct e]|].
  fold (holds_inode dev inum x). destruct (holds_inode dev inum x) eqn:Eh.
  { exists x. rewrite Nat.sub_diag. done. }
  set (e1 := match e with Some e0 => Some e0 | None => if i_ref x =? 0 then Some i else None end).
  specialize (IH (S i) e1). destruct (iget_scan dev inum c (S i) e1) as [[k|] e'].
  { destruct IH as (y & Hk & Hy & Hh). exists y. split_and!; [lia| |done].
    replace (k - i)%nat with (S (k - S i)) by lia. done. }
  destruct IH as [Hno He]. split.
  { intros [|j] y Hy; simplify_eq/=; [done|by apply (Hno j)]. }
  unfold e1 in He. destruct e as [e0|]; [done|]. destruct (Z.eqb_spec (i_ref x) 0) as [Er|Er].
  - rewrite He. exists x. rewrite Nat.sub_diag. done.
  - destruct e' as [k|].
    + destruct He as (y & Hk & Hy & Hr). exists y. split_and!; [lia| |done].
      replace (k - i)%nat with (S (k - S i)) by lia. done.
    + intros [|j] y Hy; simplify_eq/=; [done|by apply (He j)].
Qed.

(** An entry that comes to hold an inode that no other entry holds. *)
Lemma icache_ok_insert c i x y dev inum : icache_ok c → c !! i = Some x → 0 < i_ref y →
  i_dev y = dev → i_inum y = inum →
  (∀ j z, j ≠ i → c !! j = Some z → holds_inode dev inum z = false) → icache_ok (<[i := y]> c).
Proof.
  intros [Hr Hu] Hx Hy Ed Ei Hno.
  assert (Hyh : ∀ d n, holds_inode d n y = true → d = dev ∧ n = inum).
  { intros d n (_ & <- & <-)%holds_inode_spec. done. }
  split.
  - intros j z [(<- & <- & _)|(? & Hz)]%list_lookup_insert_Some; [lia|by eapply Hr].
  - intros j k z w d n [(<- & <- & _)|(Hj & Hz)]%list_lookup_insert_Some
      [(<- & <- & _)|(Hk & Hw)]%list_lookup_insert_Some Hhz Hhw; [done|..].
    + apply Hyh in Hhz as [-> ->]. by rewrite (Hno k w) in Hhw.
    + apply Hyh in Hhw as [-> ->]. by rewrite (Hno j z) in Hhz.
    + by eapply Hu.
Qed.

(** The inode cache.  From a cache without duplicates, [iget] returns an
    entry for the inode, or panics when the inode has no entry and none is free.
    The entry is the one that already holds the inode, its contents, validity
    and lock unchanged, if there is one, and a fresh one marked not valid
    otherwise.  The cache still has no duplicates, no other entry changes, the
    inode has one reference more and every other inode as many as before. *)
Theorem iget_correct s dev inum : icache_ok (icache s) →
  (∃ i x c', iget dev inum s = Ok i (Fst (fs_log s) (fs_sb s) c') ∧ icache s !! i = Some x ∧
     icache_ok c' ∧ (∀ j, j ≠ i → c' !! j = icache s !! j) ∧
     c' !! i = Some (if holds_inode dev inum x then set_iref (i_ref x + 1) x
                     else Inode dev inum 1 (i_lock x) false (i_d x)) ∧
     (holds_inode dev inum x = true ∨
      i_ref x = 0 ∧ ∀ j y, icache s !! j = Some y → holds_inode dev inum y = false) ∧
     ∀ d n, irefs c' d n = irefs (icache s) d n + if decide (d = dev ∧ n = inum) then 1 else 0) ∨
  (iget dev inum s = Err (Panic "iget: no inodes") s ∧
   ∀ j y, icache s !! j = Some y → 0 < i_ref y ∧ holds_inode dev inum y = false).
Proof.
  intros Hok. pose proof Hok as [Hr Hu]. pose proof (iget_scan_spec dev inum (icache s) 0 None) as Hscan.
  unfold iget. destruct (iget_scan dev inum (icache s) 0 None) as [[k|] e] eqn:E.
  - left. destruct Hscan as (x & _ & Hx & Hh). rewrite Nat.sub_0_r in Hx.
    pose proof Hh as (Hp & Hd & Hn)%holds_inode_spec.
    exists k, x, (<[k := set_iref (i_ref x + 1) x]> (icache s)).
    rewrite bind_gets, E. erewrite bind_upd_inode by done. split_and!; try done.
    + eapply icache_ok_insert; try done; [simpl; lia|]. intros j z Hj Hz. apply not_true_is_false.
      intros Hhz. apply Hj. by eapply (Hu j k z x dev inum).
    + intros j Hj. by rewrite list_lookup_insert_ne.
    + rewrite Hh. apply list_lookup_insert_eq. by eapply lookup_lt_Some.
    + by left.
    + intros d n. rewrite (irefs_insert _ _ _ _ _ _ Hx). unfold weight, holds_inode. simpl.
      rewrite !(proj2 (Z.ltb_lt _ _)) by lia. rewrite Hd, Hn. simpl.
      destruct (Z.eqb_spec dev d), (Z.eqb_spec inum n), (decide (d = dev ∧ n = inum)); simpl; lia || naive_solver.
  - destruct Hscan as [Hno He]. destruct e as [k|].
    + left. destruct He as (x & _ & Hx & Hr0). rewrite Nat.sub_0_r in Hx.
      exists k, x, (<[k := Inode dev inum 1 (i_lock x) false (i_d x)]> (icache s)).
      rewrite bind_gets, E. erewrite bind_upd_inode by done. split_and!; try done.
      * eapply icache_ok_insert; try done. intros j z _. apply Hno.
      * intros j Hj. by rewrite list_lookup_insert_ne.
      * rewrite (Hno k x Hx). apply list_lookup_insert_eq. by eapply lookup_lt_Some.
      * by right.
      * intros d n. rewrite (irefs_insert _ _ _ _ _ _ Hx). unfold weight, holds_inode. simpl. rewrite Hr0. simpl.
        destruct (Z.eqb_spec dev d), (Z.eqb_spec inum n), (decide (d = dev ∧ n = inum)); simpl; lia || naive_solver.
    + right. split; [by rewrite bind_gets, E|]. intros j y Hy. split; [|by eapply Hno].
      pose proof (Hr j y Hy). pose proof (He j y Hy). lia.
Qed.

End icache.

(** ** A small file system *)

(** 100 blocks: a log of 31 at 2, two blocks of inodes at 33, the bitmap at 36
    with the first 37 blocks in use; an operation is in progress. *)
Definition demo_sb : superblock := Superblock 100 63 16 31 2 33 36.
Definition demo_bitmap : block := [255; 255; 255; 255; 31] ++ replicate 507 0.
Definition demo_inode : inode :=
  Inode 1 5 1 (Sleeplock true 7) true (Dinode T_FILE 0 0 1 0 (replicate (S NDIRECT) 0)).
Definition demo_fs : fst_st :=
  Fst (Lst (Log 2 31 1 false 0 (replicate (Z.to_nat LOGSIZE) 0)) (Store {[36 := demo_bitmap]} ∅ 100 []))
      demo_sb (demo_inode :: replicate 49 zero_inode).

Lemma demo_fs_used b : 0 ≤ b < 37 → used demo_fs b.
Proof.
  intros Hb. assert (Hall : forallb (λ b, negb (bit_free (fv demo_fs (BBLOCK b demo_sb)) (b mod BPB))) (seqZ 0 37) = true)
    by (vm_compute; reflexivity).
  rewrite forallb_forall in Hall. apply negb_true_iff. apply Hall. apply list_elem_of_In, elem_of_seqZ. lia.
Qed.

Lemma demo_fs_ok m : (m ≤ 30)%nat → fs_ok demo_fs m.
Proof.
  intros Hm. split; [|split; try done].
  - apply room_empty; [|done|unfold LOGSIZE, MAXOPBLOCKS; cbn; lia..].
    split; try done; cbn [fs_log fs_sb log store_of lg_start lg_size demo_fs demo_sb sb_size].
    + split; [constructor..|simpl; unfold LOGSIZE, MAXOPBLOCKS; lia|simpl; lia].
    + intros k [v Hv]. cbn in Hv. by rewrite lookup_empty in Hv.
  - intros k _. unfold fv, sview, blk. cbn [fs_log store_of demo_fs pinned disk]. rewrite lookup_empty. cbn [default].
    destruct (decide (k = 36)) as [->|]; [vm_compute; reflexivity|]. rewrite lookup_singleton_ne by done. done.
  - apply demo_fs_used.
Qed.

Lemma balloc_correct_witness :
  (∃ b s' s'', balloc 1 demo_fs = Ok b s' ∧ allocated demo_fs s' b ∧ (∀ b', 0 ≤ b' < b → used demo_fs b') ∧
     bfree 1 b s' = Ok tt s'' ∧ (∀ b', 0 ≤ b' < 100 → (used s'' b' ↔ used demo_fs b')) ∧
     bfree 1 b s'' = Err (Panic "freeing free block") s'') ∨
  (balloc 1 demo_fs = Err (Panic "balloc: out of blocks") demo_fs ∧ ∀ b, 0 ≤ b < 100 → used demo_fs b).
Proof. apply (balloc_correct demo_fs 0). apply demo_fs_ok. lia. Defined.

Lemma demo_dinode_ok : dinode_ok (i_d demo_inode).
Proof. split; cbn; unfold T_FILE; try lia; [done|]. repeat (constructor; [lia|]). constructor. Qed.

Lemma inode_write_back_witness :
  ∃ s', iupdate 0 demo_fs = Ok tt s' ∧ inode_stored demo_fs s' 5 (i_d demo_inode) ∧ fs_ok s' 1 ∧
    ∀ s2 ip2 y, fs_wf s2 → fs_sb s2 = demo_sb → (∀ k, fv s2 k = fv s' k) →
      icache s2 !! ip2 = Some y → i_dev y = 1 → i_inum y = 5 → i_valid y = false →
      1 ≤ i_ref y → slocked (i_lock y) = false →
      ilock 7 ip2 s2 = Ok tt (Fst (fs_log s2) (fs_sb s2)
        (<[ip2 := Inode 1 5 (i_ref y) (Sleeplock true 7) true (i_d demo_inode)]> (icache s2))).
Proof.
  apply (inode_write_back 7 demo_fs 1 0 demo_inode).
  - apply demo_fs_ok. lia.
  - reflexivity.
  - reflexivity.
  - cbn. lia.
  - apply demo_dinode_ok.
  - discriminate.
Defined.

Lemma iget_correct_witness :
  (∃ i x c', iget 1 5 demo_fs = Ok i (Fst (fs_log demo_fs) demo_sb c') ∧ icache demo_fs !! i = Some x ∧
     icache_ok c' ∧ (∀ j, j ≠ i → c' !! j = icache demo_fs !! j) ∧
     c' !! i = Some (if holds_inode 1 5 x then set_iref (i_ref x + 1) x
                     else Inode 1 5 1 (i_lock x) false (i_d x)) ∧
     (holds_inode 1 5 x = true ∨
      i_ref x = 0 ∧ ∀ j y, icache demo_fs !! j = Some y → holds_inode 1 5 y = false) ∧
     ∀ d n, irefs c' d n = irefs (icache demo_fs) d n + if decide (d = 1 ∧ n = 5) then 1 else 0) ∨
  (iget 1 5 demo_fs = Err (Panic "iget: no inodes") demo_fs ∧
   ∀ j y, icache demo_fs !! j = Some y → 0 < i_ref y ∧ holds_inode 1 5 y = false).
Proof.
  apply (iget_correct demo_fs 1 5). split.
  - intros [|i] x Hx; [by injection Hx as <-|]. apply lookup_replicate in Hx as [-> _]. done.
  - intros [|i] [|j] x y dev inum Hx Hy Hhx Hhy; [done|..].
    + apply lookup_replicate in Hy as [-> _]. discriminate Hhy.
    + apply lookup_replicate in Hx as [-> _]. discriminate Hhx.
    + apply lookup_replicate in Hy as [-> _]. discriminate Hhy.
Defined.
