(* ===== verification/FsPath.v ===== *)
(** Path names: [skipelem] of fs.c

    [components] splits a path at the slashes, the reference that [skipelem],
    which works on pointers into the string, is compared with. *)

From stdpp Require Import list numbers.
From Stdlib Require Import ZArith Lia.
From S2P Require Import Prelude Block StringC Fs.

(** The non-empty elements between the slashes of [l]; [cur] is the element
    being read. *)
Fixpoint split_on (l cur : list Z) : list (list Z) :=
  match l with
  | [] => if decide (cur = []) then [] else [cur]
  | c :: l' =>
      if c =? 47 then (if decide (cur = []) then split_on l' [] else cur :: split_on l' [])
      else split_on l' (cur ++ [c])
  end.

Definition components (path : list Z) : list (list Z) := split_on (cstr path) [].

Section path.
Implicit Types (p e r name : list Z).

Lemma skip_slashes_run p : 0 ∈ p → ∃ p', skip_slashes p = Some p' ∧ 0 ∈ p' ∧
  components p' = components p ∧ default 0 (head p') ≠ 47.
Proof.
  induction p as [|c p IH]; [by intros ?%elem_of_nil|]. intros H0. simpl.
  destruct (Z.eqb_spec c 47) as [->|Hc].
  - destruct IH as (p' & Hs & H0' & Hco & Hh); [apply elem_of_cons in H0 as [?|?]; [lia|done]|].
    exists p'. done.
  - exists (c :: p). done.
Qed.

Lemma path_elem_run p : 0 ∈ p → ∃ e r, path_elem p = Some (e, r) ∧ 0 ∈ r ∧ 47 ∉ e ∧ 0 ∉ e ∧
  cstr p = e ++ cstr r ∧ (default 0 (head r) = 0 ∨ default 0 (head r) = 47) ∧
  (default 0 (head p) ≠ 0 → default 0 (head p) ≠ 47 → e ≠ []).
Proof.
  induction p as [|c p IH]; [by intros ?%elem_of_nil|]. intros H0. simpl.
  destruct (Z.eqb_spec c 47) as [->|Hc]; simpl.
  { exists [], (47 :: p). split_and!; try done; try (by right); apply not_elem_of_nil. }
  destruct (Z.eqb_spec c 0) as [->|Hc0].
  { exists [], (0 :: p). split_and!; try done; try (by left); apply not_elem_of_nil. }
  destruct IH as (e & r & He & Hr & Hn & Hn0 & Hcs & Hh & _);
    [apply elem_of_cons in H0 as [?|?]; [congruence|done]|].
  exists (c :: e), r. rewrite He, Hcs. split_and!; try done; apply not_elem_of_cons; split; congruence || done.
Qed.

Lemma split_on_app e l : ∀ cur, 47 ∉ e → split_on (e ++ l) cur = split_on l (cur ++ e).
Proof.
  induction e as [|c e IH]; intros cur Hn; simpl; [by rewrite app_nil_r|].
  apply not_elem_of_cons in Hn as [Hc Hn]. rewrite (proj2 (Z.eqb_neq _ _)) by congruence.
  rewrite IH by done. by rewrite <-app_assoc.
Qed.

(** The string left in [name]. *)
Lemma name_store name e : length name = DIRSIZ → 0 ∉ e →
  let name' := if bool_decide (DIRSIZ ≤ length e)%nat then splice name 0 (take DIRSIZ e)
               else splice name 0 (e ++ [0]) in
  cstr name' = take DIRSIZ e ∧ length name' = DIRSIZ.
Proof.
  intros Hl Hn name'. unfold name'. case_bool_decide as Hd.
  - assert (Ht : length (take DIRSIZ e) = DIRSIZ) by (rewrite length_take; lia).
    unfold splice. rewrite take_0, Ht. cbn [app Nat.add]. rewrite drop_ge by lia. rewrite app_nil_r.
    split; [|done]. assert (H0 : 0 ∉ take DIRSIZ e) by (intros Hin%elem_of_take; destruct Hin as (i & Hi & _);
      apply Hn; by eapply list_elem_of_lookup_2).
    clear Ht. induction (take DIRSIZ e) as [|c t IH]; simpl; [done|].
    apply not_elem_of_cons in H0 as [Hc H0]. rewrite (proj2 (Z.eqb_neq _ _)) by congruence. by rewrite IH.
  - split.
    + rewrite take_ge by lia. unfold splice. rewrite take_0. cbn [app Nat.add].
      clear name' Hd. revert Hn. generalize (drop (length (e ++ [0])) name). intros t.
      induction e as [|c e IH]; intros Hn; simpl; [done|].
      apply not_elem_of_cons in Hn as [Hc Hn]. rewrite (proj2 (Z.eqb_neq _ _)) by congruence. by rewrite IH.
    + rewrite length_splice; [done|]. rewrite length_app. simpl. lia.
Qed.

(** Path elements.  On a NUL-terminated path, [skipelem] returns null and
    leaves [name] alone when the path has no element left; otherwise it leaves
    in [name] the first element, cut to [DIRSIZ] bytes, and returns a pointer to
    a path that has exactly the other elements, starts with no slash and is
    empty when there are none, which is how [namex] recognises the last one. *)
Theorem skipelem_correct path name : 0 ∈ path → length name = DIRSIZ →
  match components path with
  | [] => skipelem path name = Some (None, name)
  | e :: es => ∃ path' name', skipelem path name = Some (Some path', name') ∧
      cstr name' = take DIRSIZ e ∧ length name' = DIRSIZ ∧ 0 ∈ path' ∧ components path' = es ∧
      default 0 (head path') ≠ 47 ∧ (default 0 (head path') = 0 ↔ es = [])
  end.
Proof.
  intros H0 Hl. destruct (skip_slashes_run path H0) as (p & Hs & Hp0 & <- & Hh).
  unfold skipelem. rewrite Hs. destruct (Z.eqb_spec (default 0 (head p)) 0) as [Ez|Ez].
  { destruct p as [|c p]; [by apply elem_of_nil in Hp0|]. simpl in Ez. subst. done. }
  destruct (path_elem_run p Hp0) as (e & r & He & Hr0 & Hn47 & Hn0 & Hcs & Hrh & Hne). rewrite He.
  specialize (Hne Ez Hh). destruct (skip_slashes_run r Hr0) as (r' & Hsr & Hr0' & Hcr & Hhr). rewrite Hsr.
  assert (Hsplit : components p = e :: components r).
  { unfold components. rewrite Hcs, split_on_app by done. cbn [app].
    destruct r as [|c r]; [by apply elem_of_nil in Hr0|]. simpl in Hrh. destruct Hrh as [-> | ->]; simpl.
    - by rewrite decide_False.
    - rewrite decide_False by done. done. }
  rewrite Hsplit. destruct (name_store name e Hl Hn0) as [Hc Hln].
  eexists _, _. split; [reflexivity|]. split_and!; try done.
  rewrite <-Hcr. destruct r' as [|c r']; [by apply elem_of_nil in Hr0'|]. simpl in Hhr |- *. split; [by intros ->|].
  unfold components. simpl. destruct (Z.eqb_spec c 0) as [|Hc0]; [done|]. simpl.
  rewrite (proj2 (Z.eqb_neq _ _)) by done. simpl. intros Hnil. exfalso. revert Hnil.
  assert (Hgen : ∀ l cur, cur ≠ [] → split_on l cur ≠ []).
  { induction l as [|x l IH]; intros cur Hcur; simpl; [by rewrite decide_False|].
    destruct (x =? 47); [by rewrite decide_False|]. apply IH. by destruct cur. }
  by apply Hgen.
Qed.

End path.

(** The path //usr/a. *)
Definition demo_path : list Z := [47; 47; 117; 115; 114; 47; 97; 0].

Lemma skipelem_correct_witness : components demo_path = [[117; 115; 114]; [97]] ∧
  ∃ path' name', skipelem demo_path (replicate DIRSIZ 0) = Some (Some path', name') ∧
    cstr name' = take DIRSIZ [117; 115; 114] ∧ length name' = DIRSIZ ∧ 0 ∈ path' ∧
    components path' = [[97]] ∧ default 0 (head path') ≠ 47 ∧
    (default 0 (head path') = 0 ↔ [[97]] = @nil (list Z)).
Proof.
  split; [reflexivity|]. apply (skipelem_correct demo_path (replicate DIRSIZ 0)).
  - apply (bool_decide_unpack _). vm_compute. exact I.
  - reflexivity.
Defined.
