(* ===== verification/FsFile.v ===== *)
(** Inode content: [bmap], [readi] and [writei] of fs.c against an abstract file

    [faddr] is the block map of an inode, [fbyte] the byte at an offset of its
    file (0 in a hole).  [map_ok] says that the blocks of the map are data
    blocks in use, all distinct.  [bmap] is shown to fill a hole without
    changing any byte, [readi] to return the bytes of the file and [writei] to
    overwrite exactly the bytes it is given. *)

From stdpp Require Import gmap list numbers strings.
From Stdlib Require Import ZArith Lia.
From S2P Require Import Prelude Memlayout Block Bio Log StringC Fs FsSpec.

(** ** The block map *)

Definition iaddr (d : dinode) : Z := default 0 (d_addrs d !! NDIRECT).

Definition faddr (s : fst_st) (d : dinode) (bn : Z) : Z :=
  if bn <? Z.of_nat NDIRECT then default 0 (d_addrs d !! Z.to_nat bn)
  else if iaddr d =? 0 then 0
  else get32 (fv s (iaddr d)) (4 * Z.to_nat (bn - Z.of_nat NDIRECT)).

Definition fbyte (s : fst_st) (d : dinode) (o : Z) : Z :=
  if faddr s d (o / BSIZE) =? 0 then 0
  else default 0 (fv s (faddr s d (o / BSIZE)) !! Z.to_nat (o mod BSIZE)).

Definition data_block (s : fst_st) (b : Z) : Prop :=
  datastart (fs_sb s) ≤ b < sb_size (fs_sb s) ∧ used s b.

Record map_ok (s : fst_st) (d : dinode) : Prop := {
  mo_dinode : dinode_ok d;
  mo_ind : iaddr d ≠ 0 → data_block s (iaddr d);
  mo_blk : ∀ bn, 0 ≤ bn < MAXFILE → faddr s d bn ≠ 0 → data_block s (faddr s d bn) ∧ faddr s d bn ≠ iaddr d;
  mo_inj : ∀ bn bn', 0 ≤ bn < MAXFILE → 0 ≤ bn' < MAXFILE → faddr s d bn ≠ 0 →
    faddr s d bn = faddr s d bn' → bn = bn'
}.

(** The blocks of a file: those of the map and the indirect block. *)
Definition file_block (s : fst_st) (d : dinode) (k : Z) : Prop :=
  k = iaddr d ∨ ∃ bn, 0 ≤ bn < MAXFILE ∧ faddr s d bn = k.

(** The map of [d'] in [s'] is that of [d] in [s] with [bn] at the new block [a];
    the blocks that were in use have kept their contents, but the indirect one. *)
Record mapped (s s' : fst_st) (d d' : dinode) (bn a : Z) : Prop := {
  ma_new : faddr s' d' bn = a;
  ma_old : ∀ bn', 0 ≤ bn' < MAXFILE → bn' ≠ bn → faddr s' d' bn' = faddr s d bn';
  ma_bytes : ∀ o, 0 ≤ o < MAXFILE * BSIZE → fbyte s' d' o = fbyte s d o;
  ma_same : d_type d' = d_type d ∧ d_size d' = d_size d ∧ d_nlink d' = d_nlink d;
  ma_frame : ∀ k, data_block s k → k ≠ iaddr d → fv s' k = fv s k;
  ma_used : ∀ k, data_block s k → data_block s' k;
  ma_grow : ∀ k, data_block s k → file_block s' d' k → file_block s d k;
  ma_iaddr : iaddr d' = iaddr d ∨ ¬ data_block s (iaddr d');
  ma_meta : ∀ k, 0 ≤ k < sb_bmapstart (fs_sb s) → fv s' k = fv s k;
  ma_sb : fs_sb s' = fs_sb s
}.

Section map.
Implicit Types (s : fst_st) (d : dinode) (bn a : Z).

Lemma MAXFILE_eq : MAXFILE = 140.
Proof. done. Qed.

Lemma allocated_data s s' a b : fs_wf s → allocated s s' a → data_block s b →
  data_block s' b ∧ b ≠ a ∧ fv s' b = fv s b.
Proof.
  intros Hok [Hr Hf Hz Hu Ho Esb Eic] [Hb Hub]. pose proof (datastart_pos _ (wf_sb _ Hok)).
  pose proof (bmapstart_after_inodes _ (wf_sb _ Hok)).
  assert (b ≠ a) by (intros ->; done). split_and!; [|done|apply Ho; [lia|done]].
  split; [by rewrite Esb|]. apply Hu; [lia|by left].
Qed.

Lemma allocated_new s s' a : fs_wf s → allocated s s' a → data_block s' a.
Proof.
  intros Hok [Hr Hf Hz Hu Ho Esb Eic]. pose proof (datastart_pos _ (wf_sb _ Hok)).
  pose proof (bmapstart_after_inodes _ (wf_sb _ Hok)).
  split; [by rewrite Esb|]. apply Hu; [lia|by right].
Qed.

Lemma faddr_range s d bn : dinode_ok d → 0 ≤ faddr s d bn < 4294967296.
Proof.
  intros Hd. unfold faddr. destruct (_ <? _).
  - destruct (d_addrs d !! Z.to_nat bn) as [x|] eqn:E; simpl; [|lia].
    pose proof (do_addrs _ Hd) as Ha. rewrite Forall_lookup in Ha. by eapply Ha.
  - destruct (_ =? _); [lia|]. apply get32_range.
Qed.

(** Filling a hole with a zeroed block leaves the bytes of the file alone. *)
Lemma fbyte_fill s s' d d' bn a : 0 ≤ bn < MAXFILE → faddr s d bn = 0 → a ≠ 0 → faddr s' d' bn = a →
  (∀ bn', 0 ≤ bn' < MAXFILE → bn' ≠ bn → faddr s' d' bn' = faddr s d bn') →
  (∀ bn', 0 ≤ bn' < MAXFILE → faddr s d bn' ≠ 0 → fv s' (faddr s d bn') = fv s (faddr s d bn')) →
  fv s' a = zero_block → ∀ o, 0 ≤ o < MAXFILE * BSIZE → fbyte s' d' o = fbyte s d o.
Proof.
  intros Hbn H0 Ha Hnew Hold Hfr Hz o Ho. unfold fbyte.
  assert (Hb : 0 ≤ o / BSIZE < MAXFILE).
  { split; [apply Z.div_pos; [lia|done]|apply Z.div_lt_upper_bound; [done|lia]]. }
  destruct (decide (o / BSIZE = bn)) as [->|Hne].
  - rewrite H0, Hnew, Hz. cbn [Z.eqb]. rewrite (proj2 (Z.eqb_neq _ _)) by done.
    unfold zero_block. destruct (replicate 512 0 !! Z.to_nat (o mod BSIZE)) as [x|] eqn:E; [|done].
    by apply lookup_replicate in E as [-> _].
  - rewrite Hold by done. destruct (Z.eqb_spec (faddr s d (o / BSIZE)) 0); [done|]. by rewrite Hfr.
Qed.

Lemma set_daddr_ok i a d : dinode_ok d → 0 ≤ a < 4294967296 → dinode_ok (set_daddr i a d).
Proof.
  intros [? ? ? ? ? Hl Ha] Hr. split; try done; simpl; [by rewrite length_insert|].
  by apply Forall_insert.
Qed.

Lemma addr_lookup d i : dinode_ok d → (i ≤ NDIRECT)%nat → d_addrs d !! i = Some (default 0 (d_addrs d !! i)).
Proof.
  intros Hd Hi. destruct (lookup_lt_is_Some_2 (d_addrs d) i) as [x Hx]; [rewrite (do_len _ Hd); lia|].
  by rewrite Hx.
Qed.

Lemma iaddr_set_direct i a d : (i < NDIRECT)%nat → iaddr (set_daddr i a d) = iaddr d.
Proof. intros Hi. unfold iaddr. simpl. rewrite list_lookup_insert_ne by lia. done. Qed.

Lemma iaddr_set_ind a d : dinode_ok d → iaddr (set_daddr NDIRECT a d) = a.
Proof.
  intros Hd. unfold iaddr. simpl. rewrite list_lookup_insert_eq; [done|]. rewrite (do_len _ Hd). lia.
Qed.

Lemma get32_zero_block o : get32 zero_block o = 0.
Proof.
  assert (H : ∀ j, get8 zero_block j = 0).
  { intros j. unfold get8, zero_block. destruct (replicate 512 0 !! j) as [x|] eqn:E; [|done].
    by apply lookup_replicate in E as [-> _]. }
  unfold get32. rewrite !H. done.
Qed.

Lemma data_block_pos s b : fs_wf s → data_block s b → 0 < b.
Proof.
  intros Hok [Hb _]. pose proof (datastart_pos _ (wf_sb _ Hok)).
  pose proof (bmapstart_after_inodes _ (wf_sb _ Hok)). lia.
Qed.

Lemma mapped_refl s d bn : mapped s s d d bn (faddr s d bn).
Proof. split; try done. by left. Qed.

(** A hole filled with the newly allocated block [a]. *)
Lemma map_ok_extend s s' d d' bn a : map_ok s d → dinode_ok d' → 0 ≤ bn < MAXFILE → faddr s d bn = 0 →
  faddr s' d' bn = a → (∀ bn', 0 ≤ bn' < MAXFILE → bn' ≠ bn → faddr s' d' bn' = faddr s d bn') →
  data_block s' a → ¬ data_block s a → a ≠ 0 → (∀ k, data_block s k → data_block s' k) →
  iaddr d' = iaddr d → map_ok s' d'.
Proof.
  intros [_ Hi Hb Hinj] Hd' Hbn H0 Hnew Hold Ha Hna Ha0 Hk Eia.
  assert (Hai : a ≠ iaddr d).
  { intros E. destruct (decide (iaddr d = 0)); [congruence|]. apply Hna. rewrite E. by apply Hi. }
  split; [done|..].
  - rewrite Eia. auto.
  - intros bn' Hbn' Hne. rewrite Eia. destruct (decide (bn' = bn)) as [->|Hd]; [by rewrite Hnew|].
    rewrite Hold in * by done. destruct (Hb bn' Hbn' Hne). auto.
  - assert (Hnew_only : ∀ bn', 0 ≤ bn' < MAXFILE → bn' ≠ bn → faddr s' d' bn' ≠ a).
    { intros bn' Hbn' Hd E. rewrite Hold in E by done. apply Hna. rewrite <-E. apply Hb; [done|congruence]. }
    intros bn1 bn2 H1 H2 Hne E. destruct (decide (bn1 = bn)) as [->|Hd1], (decide (bn2 = bn)) as [->|Hd2]; [done|..].
    + rewrite Hnew in E. by destruct (Hnew_only bn2).
    + rewrite Hnew in E. by destruct (Hnew_only bn1).
    + rewrite !Hold in * by done. by apply Hinj.
Qed.

Lemma file_block_extend s s' d d' bn a k : 
  faddr s' d' bn = a → (∀ bn', 0 ≤ bn' < MAXFILE → bn' ≠ bn → faddr s' d' bn' = faddr s d bn') →
  ¬ data_block s a → iaddr d' = iaddr d → data_block s k → file_block s' d' k → file_block s d k.
Proof.
  intros Hnew Hold Hna Eia Hk [->|(bn' & Hb & E)]; [left; congruence|].
  destruct (decide (bn' = bn)) as [->|]; [congruence|]. right. exists bn'. split; [done|].
  by rewrite <-Hold.
Qed.

(** The direct slot [bn]. *)
Lemma alloc_direct s s' d bn a : fs_wf s → map_ok s d → 0 ≤ bn < Z.of_nat NDIRECT → faddr s d bn = 0 →
  allocated s s' a → let d' := set_daddr (Z.to_nat bn) a d in mapped s s' d d' bn a ∧ map_ok s' d' ∧ a ≠ 0.
Proof.
  intros Hok Hmap Hbn H0 Hal d'. pose proof Hmap as [Hd Hi Hb Hinj]. pose proof Hal as [Hr Hf Hz Hu Ho Esb Eic].
  pose proof (so_size _ (wf_sb _ Hok)).
  pose proof (allocated_new s s' a Hok Hal) as Hna.
  assert (Ha0 : 0 < a).
  { pose proof (datastart_pos _ (wf_sb _ Hok)). pose proof (bmapstart_after_inodes _ (wf_sb _ Hok)). lia. }
  assert (Hnd : ¬ data_block s a) by (by intros [_ ?]).
  assert (Hdb : ∀ k, data_block s k → data_block s' k ∧ k ≠ a ∧ fv s' k = fv s k) by (intros k; by apply allocated_data).
  assert (Eia : iaddr d' = iaddr d) by (apply iaddr_set_direct; lia).
  assert (Hd' : dinode_ok d') by (apply set_daddr_ok; [done|lia]).
  assert (Hlt : (Z.to_nat bn < length (d_addrs d))%nat) by (rewrite (do_len _ Hd); unfold NDIRECT in *; lia).
  assert (Hnew : faddr s' d' bn = a).
  { unfold faddr. rewrite (proj2 (Z.ltb_lt _ _)) by lia. simpl. by rewrite list_lookup_insert_eq. }
  assert (Hold : ∀ bn', 0 ≤ bn' < MAXFILE → bn' ≠ bn → faddr s' d' bn' = faddr s d bn').
  { intros bn' Hb' Hne. unfold faddr. rewrite Eia. destruct (bn' <? Z.of_nat NDIRECT).
    - simpl. rewrite list_lookup_insert_ne by lia. done.
    - destruct (Z.eqb_spec (iaddr d) 0) as [|Hne0]; [done|]. destruct (Hdb _ (Hi Hne0)) as (_ & _ & ->). done. }
  assert (Hbn' : 0 ≤ bn < MAXFILE) by (rewrite MAXFILE_eq; unfold NDIRECT in *; lia).
  split_and!; [split|by eapply map_ok_extend; try done; [lia|intros k Hk; by apply Hdb]|lia]; try done.
  - eapply (fbyte_fill s s' d d' bn a); try done; [lia|]. intros bn' Hb' Hne. apply Hdb, Hb; done.
  - intros k Hk _. by apply Hdb.
  - intros k Hk. by apply Hdb.
  - intros k. by eapply file_block_extend.
  - by left.
  - intros k Hk. pose proof (datastart_pos _ (wf_sb _ Hok)). apply Ho; lia.
Qed.

(** The indirect block. *)
Lemma alloc_indirect s s' d bn a : fs_wf s → map_ok s d → Z.of_nat NDIRECT ≤ bn < MAXFILE → iaddr d = 0 →
  allocated s s' a → let d' := set_daddr NDIRECT a d in mapped s s' d d' bn 0 ∧ map_ok s' d' ∧ iaddr d' = a ∧ a ≠ 0.
Proof.
  intros Hok Hmap Hbn H0 Hal d'. pose proof Hmap as [Hd Hi Hb Hinj]. pose proof Hal as [Hr Hf Hz Hu Ho Esb Eic].
  pose proof (so_size _ (wf_sb _ Hok)). pose proof (allocated_new s s' a Hok Hal) as Hna.
  pose proof (datastart_pos _ (wf_sb _ Hok)). pose proof (bmapstart_after_inodes _ (wf_sb _ Hok)).
  assert (Hnd : ¬ data_block s a) by (by intros [_ ?]).
  assert (Hdb : ∀ k, data_block s k → data_block s' k ∧ k ≠ a ∧ fv s' k = fv s k) by (intros k; by apply allocated_data).
  assert (Eia : iaddr d' = a) by (by apply iaddr_set_ind).
  assert (Hd' : dinode_ok d') by (apply set_daddr_ok; [done|lia]).
  assert (Hall : ∀ bn', 0 ≤ bn' < MAXFILE → faddr s' d' bn' = faddr s d bn').
  { intros bn' Hb'. unfold faddr. rewrite Eia, H0. cbn [Z.eqb]. destruct (Z.ltb_spec bn' (Z.of_nat NDIRECT)).
    - simpl. rewrite list_lookup_insert_ne; [done|]. unfold NDIRECT in *. lia.
    - rewrite (proj2 (Z.eqb_neq _ _)) by lia. by rewrite Hz, get32_zero_block. }
  assert (Hbn' : 0 ≤ bn < MAXFILE) by lia.
  assert (Hbn0 : faddr s d bn = 0) by (unfold faddr; rewrite (proj2 (Z.ltb_ge _ _)) by lia; by rewrite H0).
  split_and!; [split|split|done|lia]; try done.
  - by rewrite Hall.
  - intros bn' Hb' _. by apply Hall.
  - intros o Hoo. unfold fbyte.
    assert (Hob : 0 ≤ o / BSIZE < MAXFILE).
    { split; [apply Z.div_pos; [lia|done]|apply Z.div_lt_upper_bound; [done|lia]]. }
    rewrite Hall by done. destruct (Z.eqb_spec (faddr s d (o / BSIZE)) 0) as [|Hne]; [done|].
    destruct (Hb _ Hob Hne) as [Hdk _]. by destruct (Hdb _ Hdk) as (_ & _ & ->).
  - intros k Hk _. by apply Hdb.
  - intros k Hk. by apply Hdb.
  - intros k Hk [->|(bn' & Hb' & E)]; [rewrite Eia in Hk; done|]. right. exists bn'. by rewrite <-Hall.
  - right. by rewrite Eia.
  - intros k Hk. apply Ho; lia.
  - intros _. by rewrite Eia.
  - intros bn' Hb' Hne. rewrite Hall in * by done. destruct (Hb bn' Hb' Hne) as [Hdk _].
    destruct (Hdb _ Hdk) as (? & ? & _). by rewrite Eia.
  - intros bn1 bn2 Hb1 Hb2 Hne E. rewrite !Hall in * by done. by apply Hinj.
Qed.

(** An entry of the indirect block. *)
Lemma alloc_entry s s' s'' d bn a : fs_wf s → map_ok s d → Z.of_nat NDIRECT ≤ bn < MAXFILE → iaddr d ≠ 0 →
  faddr s d bn = 0 → allocated s s' a →
  recorded s' s'' (iaddr d) (put32 (fv s (iaddr d)) (4 * Z.to_nat (bn - Z.of_nat NDIRECT)) a) →
  mapped s s'' d d bn a ∧ map_ok s'' d ∧ a ≠ 0.
Proof.
  intros Hok Hmap Hbn Hia H0 Hal (Esb2 & Eic2 & Hfv2). pose proof Hmap as [Hd Hi Hb Hinj].
  pose proof Hal as [Hr Hf Hz Hu Ho Esb Eic].
  pose proof (so_size _ (wf_sb _ Hok)). pose proof (allocated_new s s' a Hok Hal) as Hna.
  pose proof (datastart_pos _ (wf_sb _ Hok)). pose proof (bmapstart_after_inodes _ (wf_sb _ Hok)).
  assert (Hnd : ¬ data_block s a) by (by intros [_ ?]). specialize (Hi Hia).
  pose proof Hi as [Hir _].
  assert (Hdb : ∀ k, data_block s k → data_block s' k ∧ k ≠ a ∧ fv s' k = fv s k) by (intros k; by apply allocated_data).
  assert (Hds : ∀ k, data_block s' k → data_block s'' k).
  { intros k [Hkr Hku]. split; [by rewrite Esb2|]. unfold used in *. rewrite Esb2, Hfv2.
    rewrite Esb in *. pose proof (bblock_range _ k (wf_sb _ Hok)). rewrite decide_False by lia. done. }
  assert (Hfr : ∀ k, data_block s k → k ≠ iaddr d → fv s'' k = fv s k).
  { intros k Hk Hne. rewrite Hfv2, decide_False by done. by apply Hdb. }
  set (o := (4 * Z.to_nat (bn - Z.of_nat NDIRECT))%nat) in *.
  assert (Hlen : length (fv s (iaddr d)) = 512%nat) by (apply (wf_len _ Hok); lia).
  assert (Ho' : (o + 3 < 512)%nat) by (unfold o, NDIRECT in *; rewrite MAXFILE_eq in *; lia).
  assert (Hnew : faddr s'' d bn = a).
  { unfold faddr. rewrite (proj2 (Z.ltb_ge _ _)) by lia. rewrite (proj2 (Z.eqb_neq _ _)) by done.
    rewrite Hfv2, decide_True by done. fold o. rewrite get32_put32_eq by lia. apply u32_small. lia. }
  assert (Hold : ∀ bn', 0 ≤ bn' < MAXFILE → bn' ≠ bn → faddr s'' d bn' = faddr s d bn').
  { intros bn' Hb' Hne. unfold faddr. destruct (Z.ltb_spec bn' (Z.of_nat NDIRECT)); [done|].
    rewrite (proj2 (Z.eqb_neq _ _)) by done. rewrite Hfv2, decide_True by done.
    apply get32_put32_ne; [lia|]. unfold o, NDIRECT in *. lia. }
  assert (Hbn' : 0 ≤ bn < MAXFILE) by lia.
  assert (Ha0 : a ≠ 0) by lia.
  assert (Hai : a ≠ iaddr d) by (intros ->; done).
  split_and!; [split|by eapply map_ok_extend; try done; [by apply Hds|intros k Hk; by apply Hds, Hdb]|done]; try done.
  - eapply (fbyte_fill s s'' d d bn a); try done.
    + intros bn' Hb' Hne. destruct (Hb bn' Hb' Hne). by apply Hfr.
    + rewrite Hfv2, decide_False by done. done.
  - intros k Hk. by apply Hds, Hdb.
  - intros k. by eapply file_block_extend.
  - by left.
  - intros k Hk. rewrite Hfv2, decide_False by lia. apply Ho; lia.
  - congruence.
Qed.


Lemma mapped_trans s s1 s2 d d1 d2 bn a a' : mapped s s1 d d1 bn a → mapped s1 s2 d1 d2 bn a' →
  mapped s s2 d d2 bn a'.
Proof.
  intros [N1 O1 B1 S1 F1 U1 G1 I1 M1 E1] [N2 O2 B2 S2 F2 U2 G2 I2 M2 E2]. split.
  - done.
  - intros bn' Hb Hne. by rewrite O2, O1.
  - intros o Ho. by rewrite B2, B1.
  - destruct S1 as (? & ? & ?), S2 as (? & ? & ?). split_and!; congruence.
  - intros k Hk Hne. rewrite F2; [by apply F1|by apply U1|].
    destruct I1 as [->|Hn]; [done|]. by intros ->.
  - auto.
  - intros k Hk Hf. apply G1; [done|]. apply G2; auto.
  - destruct I2 as [->|Hn]; [done|]. right. auto.
  - intros k Hk. rewrite M2, M1; [done|done|by rewrite E1].
  - congruence.
Qed.

Lemma mapped_icache s s1 d d' bn a c : mapped s s1 d d' bn a →
  mapped s (Fst (fs_log s1) (fs_sb s1) c) d d' bn a.
Proof. by intros []. Qed.

Lemma map_ok_icache s d c : map_ok s d → map_ok (Fst (fs_log s) (fs_sb s) c) d.
Proof. by intros []. Qed.

End map.

(** ** [bmap] *)

(** The disk is full. *)
Definition disk_full (s : fst_st) : Prop := ∀ b, 0 ≤ b < sb_size (fs_sb s) → used s b.

Section bmap.
Implicit Types (s : fst_st) (F : gset Z) (x : inode) (m ip : nat) (bn : Z).

Lemma bmap_present s ip x bn : fs_wf s → icache s !! ip = Some x → i_dev x = 1 →
  map_ok s (i_d x) → 0 ≤ bn < MAXFILE → faddr s (i_d x) bn ≠ 0 →
  bmap ip bn s = Ok (faddr s (i_d x) bn) s.
Proof.
  intros Hok Hx Hdev Hmap Hbn Hne. pose proof (mo_dinode _ _ Hmap) as Hd.
  unfold bmap. erewrite bind_inode_at by done. unfold faddr in *.
  destruct (Z.ltb_spec bn (Z.of_nat NDIRECT)) as [Hlt|Hge].
  - rewrite (addr_lookup (i_d x)) by (done || lia). cbn [deref]. rewrite bind_ret.
    by rewrite (proj2 (Z.eqb_neq _ _)).
  - rewrite (proj2 (Z.ltb_lt _ _)) by (unfold MAXFILE in *; lia).
    rewrite (addr_lookup (i_d x)) by done. fold (iaddr (i_d x)). cbn [deref default]. rewrite bind_ret.
    destruct (Z.eqb_spec (iaddr (i_d x)) 0) as [|Hia]; [done|]. rewrite bind_ret, Hdev.
    destruct (mo_ind _ _ Hmap Hia) as [Hr _].
    rewrite bind_fread; [|done|pose proof (datastart_pos _ (wf_sb _ Hok));
      pose proof (bmapstart_after_inodes _ (wf_sb _ Hok)); lia].
    by rewrite (proj2 (Z.eqb_neq _ _)).
Qed.

(** The blocks a transaction sets aside for a file: the bitmap and, once there is
    one, the indirect block; [ind d] is the slot of an indirect block to come. *)
Definition ind (d : dinode) : nat := if decide (iaddr d = 0) then 1 else 0.
Definition held s F (d : dinode) : Prop := bitmap_in (fs_sb s) F ∧ (iaddr d ≠ 0 → iaddr d ∈ F).

(** What a completed [bmap] leaves: the map with block [bn] present, and set aside. *)
Definition bmap_done s F m ip x bn (r : res fst_st Z) : Prop :=
  (∃ a s' d' F', r = Ok a s' ∧ icache s' = <[ip := set_idata d' x]> (icache s) ∧ a ≠ 0 ∧
     mapped s s' (i_d x) d' bn a ∧ map_ok s' d' ∧ (faddr s (i_d x) bn ≠ 0 → d' = i_d x) ∧
     F ⊆ F' ∧ held s' F' d' ∧ a ∈ F' ∧ fs_in s' F' (S (ind d' + m))) ∨
  (∃ s', r = Err (Panic "balloc: out of blocks") s' ∧ disk_full s').

Lemma bmap_direct_run s F m ip x bn : fs_in s F (S (S (ind (i_d x) + m))) → held s F (i_d x) →
  icache s !! ip = Some x → i_dev x = 1 →
  map_ok s (i_d x) → 0 ≤ bn < Z.of_nat NDIRECT → faddr s (i_d x) bn = 0 →
  bmap_done s F m ip x bn (bmap ip bn s).
Proof.
  intros Hok [HF1 HF2] Hx Hdev Hmap Hbn H0. pose proof (mo_dinode _ _ Hmap) as Hd. pose proof H0 as H0'.
  unfold faddr in H0'. rewrite (proj2 (Z.ltb_lt _ _)) in H0' by lia.
  unfold bmap. erewrite bind_inode_at by done. rewrite (proj2 (Z.ltb_lt _ _)) by lia.
  rewrite (addr_lookup (i_d x)) by (done || lia). rewrite H0'. cbn [deref]. rewrite bind_ret. cbn [Z.eqb].
  rewrite Hdev. destruct (balloc_run s F _ Hok) as [(a & s1 & Hrun & Hal & [_ Hok1] & _)|[Hrun Hfull]].
  - left. destruct (alloc_direct s s1 (i_d x) bn a) as (Hm & Hmap' & Ha); [apply Hok|done..|].
    eexists a, _, _, ({[a]} ∪ F). split; [erewrite bind_ok by exact Hrun; unfold upd_dinode;
      erewrite bind_upd_inode by (by rewrite (al_icache _ _ _ Hal)); reflexivity|].
    assert (Ei : iaddr (set_daddr (Z.to_nat bn) a (i_d x)) = iaddr (i_d x)) by (apply iaddr_set_direct; lia).
    cbn [icache]. rewrite (al_icache _ _ _ Hal). unfold ind. rewrite Ei.
    split_and!; [done|done|by apply mapped_icache|by apply map_ok_icache|done|set_solver| |set_solver
      |by apply fs_in_icache, Hok1].
    unfold held, bitmap_in. cbn [fs_sb]. rewrite (al_sb _ _ _ Hal), Ei.
    split; [intros b Hb; specialize (HF1 b Hb)|]; set_solver.
  - right. exists s. split; [by erewrite bind_err by exact Hrun|done].
Qed.

Lemma bmap_entry_run s F m ip x bn : fs_in s F (S (S m)) → held s F (i_d x) →
  icache s !! ip = Some x → i_dev x = 1 →
  map_ok s (i_d x) → Z.of_nat NDIRECT ≤ bn < MAXFILE → iaddr (i_d x) ≠ 0 → faddr s (i_d x) bn = 0 →
  let r := (bp <- fread 1 (iaddr (i_d x)) ;;
    if get32 bp (4 * Z.to_nat (bn - Z.of_nat NDIRECT)) =? 0 then
      a <- balloc 1 ;; fwrite (iaddr (i_d x)) (put32 bp (4 * Z.to_nat (bn - Z.of_nat NDIRECT)) a) ;;; ret a
    else ret (get32 bp (4 * Z.to_nat (bn - Z.of_nat NDIRECT)))) s in
  bmap_done s F m ip x bn r.
Proof.
  intros Hok [HF1 HF2] Hx Hdev Hmap Hbn Hia H0 r. pose proof (fi_wf _ _ _ Hok) as Hwf.
  pose proof (mo_dinode _ _ Hmap) as Hd.
  destruct (mo_ind _ _ Hmap Hia) as [Hr _]. pose proof (datastart_pos _ (wf_sb _ Hwf)).
  pose proof (bmapstart_after_inodes _ (wf_sb _ Hwf)).
  pose proof H0 as H0'. unfold faddr in H0'. rewrite (proj2 (Z.ltb_ge _ _)) in H0' by lia.
  rewrite (proj2 (Z.eqb_neq _ _)) in H0' by done.
  unfold r. rewrite bind_fread by (done || lia). rewrite H0'. cbn [Z.eqb].
  destruct (balloc_run s F m) as [(a & s1 & Hrun & Hal & [_ Hok1] & _)|[Hrun Hfull]]; [done| |].
  2:{ right. exists s. split; [by erewrite bind_err by exact Hrun|done]. }
  pose proof Hal as [Har Haf Haz Hau Hao Esb Eic]. specialize (Hok1 HF1).
  set (o := (4 * Z.to_nat (bn - Z.of_nat NDIRECT))%nat) in *.
  destruct (fwrite_run s1 _ m (iaddr (i_d x)) (put32 (fv s (iaddr (i_d x))) o a) Hok1)
    as (s2 & Hrun2 & Hrec & Hok2).
  { rewrite Esb. lia. } { rewrite Esb. lia. }
  { rewrite length_put32. apply (wf_len _ Hwf). lia. }
  { rewrite Esb. intros b' Hb' E. pose proof (bblock_range _ b' (wf_sb _ Hwf)). pose proof (so_data _ (wf_sb _ Hwf)). lia. }
  left. destruct (alloc_entry s s1 s2 (i_d x) bn a) as (Hm & Hmap' & Ha); try done.
  exists a, s2, (i_d x), ({[a]} ∪ F). split; [erewrite bind_ok by exact Hrun; erewrite bind_ok by exact Hrun2; done|].
  specialize (HF2 Hia). destruct Hrec as (Esb2 & Eic2 & _). rewrite decide_True in Hok2 by set_solver.
  unfold ind. rewrite decide_False by done.
  split_and!; [|done|done|done|done|set_solver| |set_solver|].
  - rewrite Eic2, Eic. symmetry. apply list_insert_id. rewrite Hx. f_equal. by destruct x.
  - unfold held, bitmap_in. rewrite Esb2, Esb. split; [|set_solver]. intros b Hb. specialize (HF1 b Hb). set_solver.
  - eapply fs_in_weaken; [exact Hok2|set_solver|lia].
Qed.

Lemma bmap_run s F m ip x bn : fs_in s F (S (S (ind (i_d x) + m))) → held s F (i_d x) →
  icache s !! ip = Some x → i_dev x = 1 →
  map_ok s (i_d x) → 0 ≤ bn < MAXFILE → bmap_done s F m ip x bn (bmap ip bn s).
Proof.
  intros Hok HF Hx Hdev Hmap Hbn. pose proof (fi_wf _ _ _ Hok) as Hwf.
  destruct (decide (faddr s (i_d x) bn = 0)) as [H0|Hne].
  2:{ left. exists (faddr s (i_d x) bn), s, (i_d x), ({[faddr s (i_d x) bn]} ∪ F).
      destruct HF as [HF1 HF2].
      split_and!; [by eapply bmap_present| |done|apply mapped_refl|done|done|set_solver| |set_solver|by apply fs_reserve].
      - symmetry. apply list_insert_id. rewrite Hx. f_equal. by destruct x.
      - split; [intros b Hb; specialize (HF1 b Hb)|]; set_solver. }
  destruct (decide (bn < Z.of_nat NDIRECT)) as [Hlt|Hge].
  { apply bmap_direct_run; try done. lia. }
  unfold bmap. erewrite bind_inode_at by done. rewrite (proj2 (Z.ltb_ge _ _)) by lia.
  rewrite (proj2 (Z.ltb_lt _ _)) by (unfold MAXFILE in *; lia).
  rewrite (addr_lookup (i_d x)) by (apply Hmap || done). fold (iaddr (i_d x)). cbn [deref default]. rewrite bind_ret, Hdev.
  unfold ind in Hok. destruct (Z.eqb_spec (iaddr (i_d x)) 0) as [Hia|Hia].
  2:{ rewrite bind_ret. rewrite decide_False in Hok by done. apply bmap_entry_run; try done. lia. }
  rewrite decide_True in Hok by done. destruct HF as [HF1 _].
  rewrite bind_assoc. destruct (balloc_run s F (S m) Hok) as [(a & s1 & Hrun & Hal & [_ Hok1] & _)|[Hrun Hfull]].
  2:{ right. exists s. split; [by erewrite bind_err by exact Hrun|done]. }
  destruct (alloc_indirect s s1 (i_d x) bn a) as (Hm & Hmap' & Eia & Ha); try done; [lia|].
  erewrite bind_ok by exact Hrun. unfold upd_dinode.
  rewrite bind_assoc. erewrite bind_upd_inode by (by rewrite (al_icache _ _ _ Hal)). rewrite bind_ret.
  set (d1 := set_daddr NDIRECT a (i_d x)) in *. set (x1 := set_idata d1 x).
  set (s1' := Fst (fs_log s1) (fs_sb s1) (<[ip := x1]> (icache s1))).
  assert (Hx1 : icache s1' !! ip = Some x1).
  { apply list_lookup_insert_eq. rewrite (al_icache _ _ _ Hal). by eapply lookup_lt_Some. }
  assert (Hf1 : faddr s1' (i_d x1) bn = 0) by exact (ma_new _ _ _ _ _ _ Hm).
  pose proof (bmap_entry_run s1' ({[a]} ∪ F) m ip x1 bn) as He. cbn [i_d x1 set_idata] in He. rewrite Eia in He.
  destruct He as [(a' & s2 & d2 & F2 & Hr2 & Eic2 & Ha' & Hm2 & Hmap2 & Hd2 & HF & HF2 & HFa & Hok2)|(s2 & Hr2 & Hfull)];
    try done; [by apply fs_in_icache, Hok1| |by apply map_ok_icache|lia|..].
  { unfold held, bitmap_in. cbn [fs_sb s1']. rewrite (al_sb _ _ _ Hal), Eia.
    split; [intros b Hb; specialize (HF1 b Hb)|]; set_solver. }
  - left. exists a', s2, d2, F2. split_and!; try done.
    + rewrite Eic2. cbn [icache s1']. rewrite list_insert_insert_eq, (al_icache _ _ _ Hal). done.
    + eapply mapped_trans; [|exact Hm2]. by apply mapped_icache.
    + set_solver.
  - right. by exists s2.
Qed.

End bmap.

(** ** Reading *)

(** [n] bytes of the file from [off] on, and the whole file. *)
Definition fbytes (s : fst_st) (d : dinode) (off : Z) (n : nat) : list Z :=
  (λ i, fbyte s d (off + Z.of_nat i)) <$> seq 0 n.
Definition fcontents (s : fst_st) (d : dinode) : list Z := fbytes s d 0 (Z.to_nat (d_size d)).

(** A file without holes. *)
Record file_ok (s : fst_st) (d : dinode) : Prop := {
  fo_map : map_ok s d;
  fo_size : d_size d ≤ MAXFILE * BSIZE;
  fo_full : ∀ bn, 0 ≤ bn → bn * BSIZE < d_size d → faddr s d bn ≠ 0
}.

(** The blocks that [rem] bytes from [off] on touch. *)
Definition needed (off rem : Z) : Z := if rem =? 0 then 0 else (off + rem - 1) / BSIZE - off / BSIZE + 1.

Section read.
Implicit Types (s : fst_st) (x : inode) (d : dinode) (m ip : nat) (off : Z).

Lemma length_fbytes s d off n : length (fbytes s d off n) = n.
Proof. unfold fbytes. by rewrite length_fmap, length_seq. Qed.

Lemma fbytes_lookup s d off n i : fbytes s d off n !! i = if decide (i < n)%nat then Some (fbyte s d (off + Z.of_nat i)) else None.
Proof.
  unfold fbytes. rewrite list_lookup_fmap. destruct (decide _).
  - by rewrite lookup_seq_lt.
  - by rewrite lookup_seq_ge by lia.
Qed.

Lemma fbytes_app s d off a b : fbytes s d off (a + b) = fbytes s d off a ++ fbytes s d (off + Z.of_nat a) b.
Proof.
  apply list_eq. intros i. rewrite lookup_app, !fbytes_lookup, length_fbytes.
  destruct (decide (i < a)%nat), (decide (i < a + b)%nat), (decide (i - a < b)%nat);
    try lia; try done; do 2 f_equal; lia.
Qed.

Lemma BSIZE_eq : BSIZE = 512.
Proof. done. Qed.

Lemma off_in_block off (j : Z) : 0 ≤ off → 0 ≤ j → off mod BSIZE + j < BSIZE →
  (off + j) / BSIZE = off / BSIZE ∧ (off + j) mod BSIZE = off mod BSIZE + j.
Proof. rewrite BSIZE_eq. intros. Z.div_mod_to_equations. lia. Qed.

(** The bytes of one block. *)
Lemma block_bytes s d off (n : nat) : 0 ≤ off → off mod BSIZE + Z.of_nat n ≤ BSIZE →
  faddr s d (off / BSIZE) ≠ 0 → length (fv s (faddr s d (off / BSIZE))) = 512%nat →
  take n (drop (Z.to_nat (off mod BSIZE)) (fv s (faddr s d (off / BSIZE)))) = fbytes s d off n.
Proof.
  intros Ho Hn Ha Hl. pose proof (Z.mod_pos_bound off BSIZE ltac:(done)).
  apply list_eq. intros i. rewrite fbytes_lookup. destruct (decide (i < n)%nat).
  - rewrite lookup_take_lt, lookup_drop by done. unfold fbyte.
    destruct (off_in_block off (Z.of_nat i)) as [-> ->]; [lia..|].
    rewrite (proj2 (Z.eqb_neq _ _)) by done.
    replace (Z.to_nat (off mod BSIZE + Z.of_nat i)) with (Z.to_nat (off mod BSIZE) + i)%nat by lia.
    destruct (lookup_lt_is_Some_2 (fv s (faddr s d (off / BSIZE))) (Z.to_nat (off mod BSIZE) + i)) as [v Hv];
      [rewrite Hl, BSIZE_eq in *; lia|]. by rewrite Hv.
  - rewrite lookup_take_ge by lia. done.
Qed.

Lemma needed_fuel off (n : Z) : 0 ≤ off → 0 ≤ n → needed off n ≤ Z.of_nat (io_fuel n).
Proof.
  intros. unfold needed, io_fuel. destruct (Z.eqb_spec n 0); [lia|]. rewrite BSIZE_eq.
  rewrite Z2Nat.id by (Z.div_mod_to_equations; lia). Z.div_mod_to_equations. lia.
Qed.

Lemma needed_step off rem : 0 ≤ off → 0 < rem →
  let m := Z.min rem (BSIZE - off mod BSIZE) in
  0 < m ≤ rem ∧ off mod BSIZE + m ≤ BSIZE ∧ needed (off + m) (rem - m) = needed off rem - 1.
Proof.
  intros Ho Hr. cbn zeta. unfold needed. rewrite BSIZE_eq. pose proof (Z.mod_pos_bound off 512 ltac:(lia)).
  destruct (Z.min_spec rem (512 - off mod 512)) as [[? ->]|[? ->]].
  - rewrite Z.sub_diag. cbn [Z.eqb]. rewrite (proj2 (Z.eqb_neq _ _)) by lia.
    split_and!; [lia..|]. Z.div_mod_to_equations. lia.
  - rewrite (proj2 (Z.eqb_neq rem 0)) by lia. destruct (Z.eqb_spec (rem - (512 - off mod 512)) 0).
    + split_and!; [lia..|]. Z.div_mod_to_equations. lia.
    + split_and!; [lia..|]. Z.div_mod_to_equations. lia.
Qed.

Lemma block_in_file off size : 0 ≤ off < size → off / BSIZE * BSIZE < size.
Proof. intros. rewrite BSIZE_eq. Z.div_mod_to_equations. lia. Qed.

Lemma data_block_range s b : fs_wf s → data_block s b → 0 ≤ b < sb_size (fs_sb s).
Proof. intros Hok Hb. pose proof (data_block_pos _ _ Hok Hb). destruct Hb as [? _]. lia. Qed.

Lemma data_block_len s b : fs_wf s → data_block s b → length (fv s b) = 512%nat.
Proof.
  intros Hok [Hb _]. pose proof (datastart_pos _ (wf_sb _ Hok)). pose proof (bmapstart_after_inodes _ (wf_sb _ Hok)).
  apply (wf_len _ Hok). lia.
Qed.

Lemma readi_loop_run s ip x off0 (n : Z) : fs_wf s → icache s !! ip = Some x → i_dev x = 1 →
  file_ok s (i_d x) → 0 ≤ off0 → off0 + n ≤ d_size (i_d x) → ∀ fuel tot, 0 ≤ tot ≤ n →
  needed (off0 + tot) (n - tot) ≤ Z.of_nat fuel →
  readi_loop fuel ip tot (off0 + tot) n (fbytes s (i_d x) off0 (Z.to_nat tot)) s =
  Ok (fbytes s (i_d x) off0 (Z.to_nat n)) s.
Proof.
  intros Hok Hx Hdev [Hmap Hsz Hfull] Ho Hn. rewrite MAXFILE_eq, BSIZE_eq in Hsz.
  induction fuel as [|fuel IH]; intros tot Ht Hfuel; cbn [readi_loop];
    (destruct (Z.ltb_spec tot n) as [Hlt|Hge]; [|replace tot with n by lia; done]).
  { exfalso. destruct (needed_step (off0 + tot) (n - tot)) as (_ & _ & E); [lia..|].
    unfold needed in *. rewrite (proj2 (Z.eqb_neq (n - tot) 0)) in * by lia. rewrite BSIZE_eq in *.
    revert Hfuel. clear E. intros. Z.div_mod_to_equations. lia. }
  destruct (needed_step (off0 + tot) (n - tot)) as (Hm & Hblk & Hneed); [lia..|].
  set (k := Z.min (n - tot) (BSIZE - (off0 + tot) mod BSIZE)) in *.
  assert (Hbn : 0 ≤ (off0 + tot) / BSIZE < MAXFILE).
  { rewrite MAXFILE_eq, BSIZE_eq. Z.div_mod_to_equations. lia. }
  assert (Ha : faddr s (i_d x) ((off0 + tot) / BSIZE) ≠ 0).
  { apply Hfull; [lia|]. apply block_in_file. lia. }
  destruct (mo_blk _ _ Hmap _ Hbn Ha) as [Hdb _]. pose proof (data_block_range _ _ Hok Hdb) as Hr.
  erewrite bind_inode_at by done. erewrite bind_ok by (by eapply bmap_present).
  rewrite Hdev, bind_fread by done.
  rewrite block_bytes; [|lia|lia|done|by apply data_block_len].
  rewrite u32_small by lia. replace (off0 + tot + k) with (off0 + (tot + k)) by lia.
  rewrite <-(IH (tot + k)); [|lia|].
  - f_equal. rewrite Z2Nat.inj_add, fbytes_app by lia. by rewrite Z2Nat.id by lia.
  - replace (off0 + (tot + k)) with (off0 + tot + k) by lia.
    replace (n - (tot + k)) with (n - tot - k) by lia. lia.
Qed.

End read.

Lemma readi_run dev_read s ip x off n : fs_wf s → icache s !! ip = Some x → i_dev x = 1 →
  file_ok s (i_d x) → d_type (i_d x) ≠ T_DEV → 0 ≤ off < 4294967296 → 0 ≤ n < 4294967296 →
  readi dev_read ip off n s =
  if decide (off ≤ d_size (i_d x) ∧ off + n < 4294967296)
  then let n' := Z.min n (d_size (i_d x) - off) in
       Ok (n', take (Z.to_nat n') (drop (Z.to_nat off) (fcontents s (i_d x)))) s
  else Ok (-1, []) s.
Proof.
  intros Hok Hx Hdev Hf Ht Ho Hn. pose proof (fo_size _ _ Hf) as Hsz. rewrite MAXFILE_eq, BSIZE_eq in Hsz.
  pose proof (do_size _ (mo_dinode _ _ (fo_map _ _ Hf))) as Hs0.
  unfold readi. erewrite bind_inode_at by done. rewrite (proj2 (Z.eqb_neq _ _)) by done. cbn zeta.
  destruct (Z.ltb_spec (d_size (i_d x)) off) as [Hgt|Hle]; cbn [orb].
  { rewrite decide_False by lia. done. }
  destruct (Z.ltb_spec (u32 (off + n)) off) as [Hov|Hno].
  { rewrite decide_False; [done|]. intros [_ ?]. rewrite u32_small in Hov by lia. lia. }
  assert (Hno' : off + n < 4294967296).
  { destruct (decide (off + n < 4294967296)); [done|]. exfalso. unfold u32 in Hno.
    rewrite <-(Z.mod_unique (off + n) 4294967296 1 (off + n - 4294967296)) in Hno; lia. }
  rewrite decide_True by lia. rewrite u32_small by lia.
  replace (if d_size (i_d x) <? off + n then d_size (i_d x) - off else n) with (Z.min n (d_size (i_d x) - off))
    by (destruct (Z.ltb_spec (d_size (i_d x)) (off + n)); lia).
  set (n' := Z.min n (d_size (i_d x) - off)).
  erewrite bind_ok.
  2:{ rewrite <-(Z.add_0_r off) at 1. change [] with (fbytes s (i_d x) off (Z.to_nat 0)).
      apply (readi_loop_run s ip x off n' Hok Hx Hdev Hf); [lia|lia|lia|].
      rewrite Z.add_0_r, Z.sub_0_r. apply needed_fuel; lia. }
  unfold ret. rewrite s32_small by lia. do 2 f_equal. unfold fcontents.
  replace (Z.to_nat (d_size (i_d x))) with (Z.to_nat off + (Z.to_nat n' + Z.to_nat (d_size (i_d x) - off - n')))%nat by lia.
  rewrite fbytes_app, drop_app_length' by (by rewrite length_fbytes).
  rewrite fbytes_app, take_app_length' by (by rewrite length_fbytes).
  by rewrite Z2Nat.id by lia.
Qed.

(** Reading a file.  [readi] of an inode that is not a device returns [-1]
    when the offset lies beyond the end of the file or [off + n] overflows;
    otherwise it returns the number of bytes between the offset and the end of
    the file, at most [n], and copies exactly those bytes of the file, leaving
    the file system unchanged, inside a transaction or outside. *)
Theorem readi_correct dev_read s ip x off n : fs_wf s → icache s !! ip = Some x → i_dev x = 1 →
  file_ok s (i_d x) → d_type (i_d x) ≠ T_DEV → 0 ≤ off < 4294967296 → 0 ≤ n < 4294967296 →
  readi dev_read ip off n s =
  if decide (off ≤ d_size (i_d x) ∧ off + n < 4294967296)
  then let n' := Z.min n (d_size (i_d x) - off) in
       Ok (n', take (Z.to_nat n') (drop (Z.to_nat off) (fcontents s (i_d x)))) s
  else Ok (-1, []) s.
Proof. apply readi_run. Qed.

(** ** Writing *)

(** The file of [d'] in [s'] is that of [d] in [s] with the bytes [bs] at [off];
    blocks in use that are not the file's, and the blocks before the bitmap,
    are unchanged. *)
Record wrote (s s' : fst_st) (d d' : dinode) (off : Z) (bs : list Z) : Prop := {
  wt_bytes : ∀ o, 0 ≤ o < MAXFILE * BSIZE →
    fbyte s' d' o = if decide (off ≤ o < off + Z.of_nat (length bs))
                    then default 0 (bs !! Z.to_nat (o - off)) else fbyte s d o;
  wt_same : d_type d' = d_type d ∧ d_size d' = d_size d ∧ d_nlink d' = d_nlink d;
  wt_present : ∀ bn, 0 ≤ bn < MAXFILE → faddr s d bn ≠ 0 → faddr s' d' bn ≠ 0;
  wt_filled : ∀ o, off ≤ o < off + Z.of_nat (length bs) → faddr s' d' (o / BSIZE) ≠ 0;
  wt_frame : ∀ k, data_block s k → ¬ file_block s d k → fv s' k = fv s k;
  wt_used : ∀ k, data_block s k → data_block s' k;
  wt_grow : ∀ k, data_block s k → file_block s' d' k → file_block s d k;
  wt_meta : ∀ k, 0 ≤ k < sb_bmapstart (fs_sb s) → fv s' k = fv s k;
  wt_sb : fs_sb s' = fs_sb s;
  wt_map : map_ok s' d'
}.

Section write.
Implicit Types (s : fst_st) (F : gset Z) (x : inode) (d : dinode) (m ip : nat) (off : Z) (bs : list Z).

Lemma wrote_refl s d off : map_ok s d → wrote s s d d off [].
Proof.
  intros Hm. split; try done.
  - intros o Ho. simpl. rewrite decide_False by lia. done.
  - simpl. lia.
Qed.

Lemma wrote_trans s s1 s2 d d1 d2 off b1 b2 : 0 ≤ off →
  off + Z.of_nat (length b1) + Z.of_nat (length b2) ≤ MAXFILE * BSIZE →
  wrote s s1 d d1 off b1 → wrote s1 s2 d1 d2 (off + Z.of_nat (length b1)) b2 → wrote s s2 d d2 off (b1 ++ b2).
Proof.
  rewrite MAXFILE_eq, BSIZE_eq.
  intros Ho Hlen [B1 S1 P1 L1 F1 U1 G1 M1 E1 _] [B2 S2 P2 L2 F2 U2 G2 M2 E2 Hm]. split.
  - intros o Hr. rewrite B2, length_app by done.
    destruct (decide (off + Z.of_nat (length b1) ≤ o < off + Z.of_nat (length b1) + Z.of_nat (length b2))).
    + rewrite decide_True by lia. rewrite lookup_app_r by lia. do 2 f_equal. lia.
    + rewrite B1 by done. destruct (decide (off ≤ o < off + Z.of_nat (length b1))).
      * rewrite decide_True by lia. by rewrite lookup_app_l by lia.
      * by rewrite decide_False by lia.
  - destruct S1 as (? & ? & ?), S2 as (? & ? & ?). split_and!; congruence.
  - intros bn Hb Hne. apply P2; [done|]. by apply P1.
  - intros o. rewrite length_app. intros Hr.
    destruct (decide (o < off + Z.of_nat (length b1))); [|apply L2; lia].
    apply P2; [|apply L1; lia]. rewrite MAXFILE_eq, BSIZE_eq. Z.div_mod_to_equations. lia.
  - intros k Hk Hn. rewrite <-F1 by done. apply F2; [auto|]. intros Hf. by apply Hn, G1.
  - auto.
  - intros k Hk Hf. apply G1; [done|]. apply G2; auto.
  - intros k Hk. rewrite M2, M1; [done|done|by rewrite E1].
  - congruence.
  - done.
Qed.

(** Recording a block of the file leaves its map as it is. *)
Lemma faddr_recorded s s' d b v bn : recorded s s' b v → b ≠ iaddr d → faddr s' d bn = faddr s d bn.
Proof. intros (_ & _ & Hfv) Hb. unfold faddr. rewrite Hfv, decide_False by done. done. Qed.

Lemma used_recorded s s' b v k : sb_ok (fs_sb s) → recorded s s' b v → datastart (fs_sb s) ≤ b →
  0 ≤ k < sb_size (fs_sb s) → (used s' k ↔ used s k).
Proof.
  intros Hsb (Esb & _ & Hfv) Hb Hk. unfold used. rewrite Esb, Hfv.
  pose proof (bblock_range _ k Hsb Hk). by rewrite decide_False by lia.
Qed.

Lemma data_recorded s s' b v k : fs_wf s → recorded s s' b v → datastart (fs_sb s) ≤ b →
  (data_block s' k ↔ data_block s k).
Proof.
  intros Hok Hrec Hb. pose proof Hrec as (Esb & _). unfold data_block. rewrite Esb.
  pose proof (datastart_pos _ (wf_sb _ Hok)). pose proof (bmapstart_after_inodes _ (wf_sb _ Hok)).
  split; intros [Hk Hu]; (split; [done|]); revert Hu; rewrite (used_recorded s s' b v); try done; try lia;
    apply (wf_sb _ Hok).
Qed.

Lemma map_ok_recorded s s' d bn v : fs_wf s → map_ok s d → 0 ≤ bn < MAXFILE → faddr s d bn ≠ 0 →
  recorded s s' (faddr s d bn) v → map_ok s' d.
Proof.
  intros Hok [Hd Hi Hb Hinj] Hbn Hne Hrec. destruct (Hb bn Hbn Hne) as [[Hr _] Hnia].
  assert (Hfa : ∀ bn', faddr s' d bn' = faddr s d bn') by (intros bn'; by eapply faddr_recorded).
  assert (Hdb : ∀ k, data_block s k → data_block s' k) by (intros k Hk; apply (data_recorded s s' _ v k Hok Hrec); [lia|done]).
  split; [done|auto|..].
  - intros bn' Hb' Hne'. rewrite Hfa in *. destruct (Hb bn' Hb' Hne'). auto.
  - intros bn1 bn2. rewrite !Hfa. apply Hinj.
Qed.

(** One round of the loop of [writei] after [bmap]. *)
Lemma wrote_block s s' s'' d d' off bs : fs_wf s' → fs_wf s →
  let a := faddr s' d' (off / BSIZE) in
  mapped s s' d d' (off / BSIZE) a → map_ok s' d' → a ≠ 0 → 0 ≤ off →
  off + Z.of_nat (length bs) ≤ MAXFILE * BSIZE → off mod BSIZE + Z.of_nat (length bs) ≤ BSIZE → bs ≠ [] →
  recorded s' s'' a (splice (fv s' a) (Z.to_nat (off mod BSIZE)) bs) → wrote s s'' d d' off bs.
Proof.
  intros Hok' Hok a Hma Hmap Ha Ho Hmax Hblk Hne Hrec.
  pose proof (Z.mod_pos_bound off BSIZE ltac:(done)) as Hmod.
  assert (Hl0 : (0 < length bs)%nat) by (destruct bs; simpl; [done|lia]).
  assert (Hbn : 0 ≤ off / BSIZE < MAXFILE).
  { rewrite MAXFILE_eq, BSIZE_eq in *. Z.div_mod_to_equations. lia. }
  destruct (mo_blk _ _ Hmap _ Hbn Ha) as [Hda Hai]. fold a in Hda, Hai.
  pose proof (data_block_range _ _ Hok' Hda) as Har. pose proof (data_block_len _ _ Hok' Hda) as Hlen.
  assert (Hfa : ∀ bn, faddr s'' d' bn = faddr s' d' bn) by (intros bn; by eapply faddr_recorded).
  pose proof Hrec as (Esb & Eic & Hfv). pose proof Hda as [Hdr _].
  assert (Hdb : ∀ k, data_block s' k → data_block s'' k) 
    by (intros k Hk; apply (data_recorded s' s'' _ _ k Hok' Hrec); [lia|done]).
  pose proof (ma_sb _ _ _ _ _ _ Hma) as Esb1.
  pose proof (datastart_pos _ (wf_sb _ Hok')). split.
  - intros o Hoo. rewrite <-(ma_bytes _ _ _ _ _ _ Hma) by done. unfold fbyte. rewrite Hfa.
    assert (Hob : 0 ≤ o / BSIZE < MAXFILE).
    { rewrite MAXFILE_eq, BSIZE_eq in *. Z.div_mod_to_equations. lia. }
    rewrite Hfv. destruct (decide (o / BSIZE = off / BSIZE)) as [Eb|Eb].
    + rewrite Eb. fold a. rewrite (proj2 (Z.eqb_neq _ _)), decide_True by done.
      pose proof (Z.mod_pos_bound o BSIZE ltac:(done)).
      assert (Hoff : o - off = o mod BSIZE - off mod BSIZE).
      { pose proof (Z.div_mod o BSIZE ltac:(done)). pose proof (Z.div_mod off BSIZE ltac:(done)). rewrite Eb in *. lia. }
      rewrite splice_lookup by (rewrite Hlen, BSIZE_eq in *; lia).
      destruct (decide (off ≤ o < off + Z.of_nat (length bs))).
      * rewrite decide_True by lia. do 2 f_equal. lia.
      * rewrite decide_False by lia. done.
    + rewrite (decide_False (P := off ≤ o < _)).
      2:{ intros Hin. apply Eb. replace o with (off + (o - off)) by lia. apply off_in_block; lia. }
      destruct (Z.eqb_spec (faddr s' d' (o / BSIZE)) 0) as [|Hne']; [done|]. rewrite decide_False; [done|].
      intros E. apply Eb. by eapply (mo_inj _ _ Hmap).
  - apply Hma.
  - intros bn Hb Hnb. rewrite Hfa. destruct (decide (bn = off / BSIZE)) as [->|]; [done|].
    by rewrite (ma_old _ _ _ _ _ _ Hma).
  - intros o Hoo. rewrite Hfa. replace o with (off + (o - off)) by lia.
    destruct (off_in_block off (o - off)) as [-> _]; [lia..|done].
  - intros k Hk Hn. rewrite Hfv, decide_False.
    + apply (ma_frame _ _ _ _ _ _ Hma); [done|]. intros ->. apply Hn. by left.
    + intros ->. apply Hn, (ma_grow _ _ _ _ _ _ Hma); [done|]. right. by exists (off / BSIZE).
  - intros k Hk. by apply Hdb, (ma_used _ _ _ _ _ _ Hma).
  - intros k Hk [->|(bn & Hb & E)]; apply (ma_grow _ _ _ _ _ _ Hma); try done; [by left|].
    right. exists bn. by rewrite <-Hfa.
  - intros k Hk. rewrite Hfv, decide_False by (rewrite Esb1 in *; lia). by apply (ma_meta _ _ _ _ _ _ Hma).
  - congruence.
  - by eapply (map_ok_recorded s').
Qed.

(** The bytes from [off] on lie in blocks the file has. *)
Definition present s d off (n : Z) : Prop := ∀ o, off ≤ o < off + n → faddr s d (o / BSIZE) ≠ 0.

(** What a round, or the whole loop, leaves for the bytes [bs] at [off]: the bytes
    written, no block recorded beyond the budget, and the inode as it was if no
    block had to be added. *)
Definition write_done s F m ip x off bs s' d' F' : Prop :=
  icache s' = <[ip := set_idata d' x]> (icache s) ∧ wrote s s' (i_d x) d' off bs ∧
  (present s (i_d x) off (Z.of_nat (length bs)) → d' = i_d x) ∧
  F ⊆ F' ∧ held s' F' d' ∧ fs_in s' F' (S (ind d' + m)).

(** One round of the loop. *)
Lemma write_step {A} s F m ip x off bs (k : M fst_st A) : fs_in s F (S (S (ind (i_d x) + m))) → held s F (i_d x) →
  icache s !! ip = Some x → i_dev x = 1 → map_ok s (i_d x) → 0 ≤ off →
  off + Z.of_nat (length bs) ≤ MAXFILE * BSIZE → off mod BSIZE + Z.of_nat (length bs) ≤ BSIZE → bs ≠ [] →
  let r := (a <- bmap ip (off / BSIZE) ;; bp <- fread 1 a ;;
            fwrite a (splice bp (Z.to_nat (off mod BSIZE)) bs) ;;; k) s in
  (∃ s' d' F', r = k s' ∧ write_done s F m ip x off bs s' d' F') ∨
  (∃ s', r = Err (Panic "balloc: out of blocks") s' ∧ disk_full s').
Proof.
  intros Hok HF Hx Hdev Hmap Ho Hmax Hblk Hne r.
  pose proof (Z.mod_pos_bound off BSIZE ltac:(done)) as Hmod.
  assert (Hl0 : (0 < length bs)%nat) by (destruct bs; simpl; [done|lia]).
  assert (Hbn : 0 ≤ off / BSIZE < MAXFILE).
  { rewrite MAXFILE_eq, BSIZE_eq in *. Z.div_mod_to_equations. lia. }
  destruct (bmap_run s F m ip x (off / BSIZE) Hok HF Hx Hdev Hmap Hbn)
    as [(a & s1 & d1 & F1 & Hr1 & Eic1 & Ha & Hma & Hmap1 & Hd1 & HF1 & HF1' & HFa & Hok1)|(s1 & Hr1 & Hfull)].
  2:{ right. exists s1. split; [unfold r; by erewrite bind_err by exact Hr1|done]. }
  pose proof (fi_wf _ _ _ Hok1) as Hwf. pose proof (wf_sb _ Hwf) as Hsb.
  pose proof (ma_new _ _ _ _ _ _ Hma) as Ea. rewrite <-Ea in *.
  set (a1 := faddr s1 d1 (off / BSIZE)) in *.
  destruct (mo_blk _ _ Hmap1 _ Hbn Ha) as [Hda _]. fold a1 in Hda.
  pose proof (data_block_range _ _ Hwf Hda) as Har. pose proof (data_block_len _ _ Hwf Hda) as Hlen.
  pose proof Hda as [Hdr _]. pose proof (datastart_pos _ Hsb). pose proof (bmapstart_after_inodes _ Hsb).
  destruct (fwrite_run s1 F1 _ a1 (splice (fv s1 a1) (Z.to_nat (off mod BSIZE)) bs) Hok1 Har)
    as (s2 & Hr2 & Hrec & Hok2).
  { lia. }
  { rewrite length_splice; [done|]. rewrite Hlen, BSIZE_eq in *. lia. }
  { intros b' Hb' E. pose proof (bblock_range _ b' Hsb). pose proof (so_data _ Hsb). lia. }
  rewrite decide_True in Hok2 by done. left. exists s2, d1, F1. unfold write_done. split_and!.
  - unfold r. erewrite bind_ok by exact Hr1. rewrite bind_fread by done. erewrite bind_ok by exact Hr2. done.
  - by destruct Hrec as (_ & -> & _).
  - eapply (wrote_block s s1); try done. apply Hok.
  - intros Hp. apply Hd1, Hp. lia.
  - done.
  - destruct Hrec as (Esb & _). unfold held, bitmap_in. by rewrite Esb.
  - eapply fs_in_weaken; [exact Hok2|set_solver|done].
Qed.

Lemma write_done_nil s F m ip x off : fs_in s F (S (ind (i_d x) + m)) → held s F (i_d x) →
  icache s !! ip = Some x → map_ok s (i_d x) → write_done s F m ip x off [] s (i_d x) F.
Proof.
  intros Hok HF Hx Hm. unfold write_done. split_and!; try done; [|by apply wrote_refl].
  symmetry. apply list_insert_id. rewrite Hx. f_equal. by destruct x.
Qed.

Lemma write_done_app s F m m' ip x off b1 b2 s1 d1 F1 s2 d2 F2 : 0 ≤ off → (ip < length (icache s))%nat →
  off + Z.of_nat (length b1) + Z.of_nat (length b2) ≤ MAXFILE * BSIZE →
  write_done s F m' ip x off b1 s1 d1 F1 →
  write_done s1 F1 m ip (set_idata d1 x) (off + Z.of_nat (length b1)) b2 s2 d2 F2 →
  write_done s F m ip x off (b1 ++ b2) s2 d2 F2.
Proof.
  intros Ho Hip Hmax (Eic1 & Hw1 & Hp1 & HF1 & _ & _) (Eic2 & Hw2 & Hp2 & HF2 & Hh & Hok).
  unfold write_done. split_and!; [|by eapply wrote_trans| |by etrans|done|done].
  - by rewrite Eic2, Eic1, list_insert_insert_eq.
  - rewrite length_app. intros Hp. assert (E1 : d1 = i_d x) by (apply Hp1; intros o Hoo; apply Hp; lia).
    rewrite <-E1. apply Hp2. intros o Hoo. cbn [i_d set_idata]. apply (wt_present _ _ _ _ _ _ Hw1).
    + rewrite MAXFILE_eq, BSIZE_eq in *. Z.div_mod_to_equations. lia.
    + apply Hp. lia.
Qed.

(** The loop, [c] blocks remaining to be written. *)
Lemma writei_loop_run n : ∀ fuel c s F m ip x src tot off, fs_in s F (S (c + ind (i_d x) + m)) →
  held s F (i_d x) → icache s !! ip = Some x →
  i_dev x = 1 → map_ok s (i_d x) → 0 ≤ off → 0 ≤ tot ≤ n → Z.of_nat (length src) = n - tot →
  off + (n - tot) ≤ MAXFILE * BSIZE → needed off (n - tot) ≤ Z.of_nat fuel → needed off (n - tot) ≤ Z.of_nat c →
  (∃ s' d' F', writei_loop fuel ip src tot off n s = Ok (off + (n - tot)) s' ∧
     write_done s F m ip x off src s' d' F') ∨
  (∃ s', writei_loop fuel ip src tot off n s = Err (Panic "balloc: out of blocks") s' ∧ disk_full s').
Proof.
  induction fuel as [|fuel IH]; intros c s F m ip x src tot off Hok HF Hx Hdev Hmap Ho Ht Hsrc Hmax Hfuel Hc;
    cbn [writei_loop];
    (destruct (Z.ltb_spec tot n) as [Hlt|Hge];
     [|left; exists s, (i_d x), F; assert (src = []) as -> by (destruct src; simpl in *; [done|lia]);
       split; [unfold ret; f_equal; lia|apply write_done_nil; [eapply fs_in_weaken; [exact Hok|done|lia]|done..]]]).
  { exfalso. destruct (needed_step off (n - tot)) as (_ & _ & E); [lia..|]. revert Hfuel. unfold needed.
    rewrite (proj2 (Z.eqb_neq (n - tot) 0)), BSIZE_eq by lia. clear E. intros. Z.div_mod_to_equations. lia. }
  destruct (needed_step off (n - tot)) as (Hk & Hblk & Hneed); [lia..|].
  set (k := Z.min (n - tot) (BSIZE - off mod BSIZE)) in *. rewrite MAXFILE_eq, BSIZE_eq in Hmax.
  assert (Hlt' : Z.of_nat (length (take (Z.to_nat k) src)) = k) by (rewrite length_take; lia).
  assert (Hld : Z.of_nat (length (drop (Z.to_nat k) src)) = n - (tot + k)) by (rewrite length_drop; lia).
  assert (Hn0 : 0 ≤ needed (off + k) (n - tot - k)).
  { unfold needed. case_match; [lia|]. rewrite BSIZE_eq. Z.div_mod_to_equations. lia. }
  destruct c as [|c]; [lia|].
  erewrite bind_inode_at by done. rewrite Hdev.
  destruct (write_step s F (c + m) ip x off (take (Z.to_nat k) src)
    (writei_loop fuel ip (drop (Z.to_nat k) src) (tot + k) (u32 (off + k)) n))
    as [(s1 & d1 & F1 & Hr1 & Hw1)|(s1 & Hr1 & Hfull)]; try done.
  { eapply fs_in_weaken; [done|done|lia]. } { rewrite MAXFILE_eq, BSIZE_eq. lia. } { lia. }
  { intros E. rewrite E in Hlt'. simpl in Hlt'. lia. }
  2:{ right. exists s1. split; [exact Hr1|done]. }
  cbn zeta in Hr1. rewrite Hr1, u32_small by lia. pose proof Hw1 as (Eic1 & Hwr & _ & _ & Hh1 & Hok1).
  assert (Hip : (ip < length (icache s))%nat) by (by eapply lookup_lt_Some).
  assert (Hx1 : icache s1 !! ip = Some (set_idata d1 x)) by (rewrite Eic1; by apply list_lookup_insert_eq).
  destruct (IH c s1 F1 m ip (set_idata d1 x) (drop (Z.to_nat k) src) (tot + k) (off + k))
    as [(s2 & d2 & F2 & Hr2 & Hw2)|(s2 & Hr2 & Hfull)]; try done; try lia.
  { eapply fs_in_weaken; [exact Hok1|done|cbn [i_d set_idata]; lia]. } { apply Hwr. }
  { rewrite MAXFILE_eq, BSIZE_eq. lia. }
  { replace (n - (tot + k)) with (n - tot - k) by lia. lia. }
  { replace (n - (tot + k)) with (n - tot - k) by lia. lia. }
  - left. exists s2, d2, F2. split; [rewrite Hr2; f_equal; lia|].
    rewrite <-(take_drop (Z.to_nat k) src). eapply write_done_app; [done|done| |exact Hw1|].
    + rewrite Hlt', Hld, MAXFILE_eq, BSIZE_eq. lia.
    + by rewrite Hlt'.
  - right. by exists s2.
Qed.

End write.

(** ** The size and the on-disk inode *)

Section store.
Implicit Types (s : fst_st) (d : dinode).

Lemma faddr_set_dsize s z d bn : faddr s (set_dsize z d) bn = faddr s d bn.
Proof. done. Qed.

Lemma inode_stored_data s s' inum d0 : fs_wf s → 0 ≤ inum < sb_ninodes (fs_sb s) →
  inode_stored s s' inum d0 →
  (∀ k, sb_bmapstart (fs_sb s) ≤ k → fv s' k = fv s k) ∧ (∀ k, data_block s k → data_block s' k).
Proof.
  intros Hok Hi [_ _ Hb Hu Esb _]. pose proof (iblock_range _ _ (wf_sb _ Hok) Hi). split.
  - intros k Hk. apply Hb. lia.
  - intros k Hk. pose proof (data_block_range _ _ Hok Hk). destruct Hk as [Hr Hu'].
    split; [by rewrite Esb|]. by apply Hu.
Qed.

(** Storing an inode changes neither the map of a file nor its bytes. *)
Lemma inode_stored_map s s' inum d0 d z : fs_wf s → 0 ≤ inum < sb_ninodes (fs_sb s) →
  inode_stored s s' inum d0 → map_ok s d → 0 ≤ z < 4294967296 →
  map_ok s' (set_dsize z d) ∧
  (∀ bn, faddr s' (set_dsize z d) bn = faddr s d bn) ∧
  (∀ o, 0 ≤ o < MAXFILE * BSIZE → fbyte s' (set_dsize z d) o = fbyte s d o).
Proof.
  intros Hok Hi Hst [Hd Hia Hb Hinj] Hz. destruct (inode_stored_data s s' inum d0 Hok Hi Hst) as [Hfv Hdb].
  pose proof (datastart_pos _ (wf_sb _ Hok)).
  assert (Hfa : ∀ bn, faddr s' (set_dsize z d) bn = faddr s d bn).
  { intros bn. unfold faddr. cbn [d_addrs set_dsize]. change (iaddr (set_dsize z d)) with (iaddr d).
    destruct (bn <? _); [done|]. destruct (Z.eqb_spec (iaddr d) 0) as [|Hne]; [done|].
    destruct (Hia Hne) as [? _]. rewrite Hfv by lia. done. }
  split_and!; [|done|].
  - split.
    + destruct Hd. by split.
    + change (iaddr (set_dsize z d)) with (iaddr d). auto.
    + intros bn Hbn. rewrite Hfa. intros Hne. destruct (Hb bn Hbn Hne). auto.
    + intros bn1 bn2. rewrite !Hfa. apply Hinj.
  - intros o Ho. unfold fbyte. rewrite Hfa. destruct (Z.eqb_spec (faddr s d (o / BSIZE)) 0) as [|Hne]; [done|].
    assert (Hob : 0 ≤ o / BSIZE < MAXFILE).
    { rewrite MAXFILE_eq, BSIZE_eq in *. Z.div_mod_to_equations. lia. }
    destruct (Hb _ Hob Hne) as [[? _] _]. by rewrite Hfv by lia.
Qed.

(** The contents after a write. *)
Lemma fcontents_wrote s s' d d' off bs : 0 ≤ off ≤ d_size d → 0 ≤ d_size d ≤ MAXFILE * BSIZE →
  off + Z.of_nat (length bs) ≤ MAXFILE * BSIZE → d_size d' = Z.max (d_size d) (off + Z.of_nat (length bs)) →
  (∀ o, 0 ≤ o < MAXFILE * BSIZE → fbyte s' d' o = if decide (off ≤ o < off + Z.of_nat (length bs))
     then default 0 (bs !! Z.to_nat (o - off)) else fbyte s d o) →
  fcontents s' d' = take (Z.to_nat off) (fcontents s d) ++ bs ++
                    drop (Z.to_nat (off + Z.of_nat (length bs))) (fcontents s d).
Proof.
  intros Ho Hs Hm Hs' Hb. unfold fcontents. apply list_eq. intros i.
  rewrite fbytes_lookup, Hs'. rewrite lookup_app, lookup_take, lookup_app, lookup_drop, !fbytes_lookup.
  rewrite length_take, length_fbytes.
  destruct (decide (i < Z.to_nat off)%nat) as [H1|H1].
  - rewrite !decide_True by lia. rewrite Hb by lia. by rewrite decide_False by lia.
  - rewrite Nat.min_l by lia. destruct (decide (i < Z.to_nat off + length bs)%nat) as [H2|H2].
    + rewrite decide_True by lia. destruct (lookup_lt_is_Some_2 bs (i - Z.to_nat off)) as [v Hv]; [lia|].
      rewrite Hv, Hb by lia. rewrite decide_True by lia.
      replace (Z.to_nat (0 + Z.of_nat i - off)) with (i - Z.to_nat off)%nat by lia. by rewrite Hv.
    + rewrite (lookup_ge_None_2 bs) by lia.
      replace (Z.to_nat (off + Z.of_nat (length bs)) + (i - Z.to_nat off - length bs))%nat with i by lia.
      destruct (decide (i < Z.to_nat (d_size d))%nat).
      * rewrite decide_True by lia. rewrite Hb by lia. by rewrite decide_False by lia.
      * by rewrite decide_False by lia.
Qed.

Lemma file_ok_wrote s s' d d' off n : 0 ≤ n → file_ok s d → map_ok s' d' → 0 ≤ off ≤ d_size d →
  off + n ≤ MAXFILE * BSIZE → d_size d' = Z.max (d_size d) (off + n) →
  (∀ bn, 0 ≤ bn < MAXFILE → faddr s d bn ≠ 0 → faddr s' d' bn ≠ 0) →
  (∀ o, off ≤ o < off + n → faddr s' d' (o / BSIZE) ≠ 0) → file_ok s' d'.
Proof.
  intros Hn [Hm Hsz Hfull] Hm' Ho Hmax Hs Hp Hf. split; [done|lia|]. intros bn Hb Hlt.
  destruct (decide (bn * BSIZE < d_size d)) as [Hin|Hout].
  - apply Hp; [|by apply Hfull]. rewrite MAXFILE_eq, BSIZE_eq in *. lia.
  - rewrite <-(Z.div_mul bn BSIZE) by done. apply Hf. lia.
Qed.

End store.

(** What a completed [writei] of [src] at [off] leaves. *)
Record file_written (s s' : fst_st) (ip : nat) (x : inode) (d' : dinode) (src : list Z) (off : Z) : Prop := {
  fw_icache : icache s' = <[ip := set_idata d' x]> (icache s);
  fw_sb : fs_sb s' = fs_sb s;
  fw_same : d_type d' = d_type (i_d x) ∧ d_nlink d' = d_nlink (i_d x);
  fw_size : d_size d' = Z.max (d_size (i_d x)) (off + Z.of_nat (length src));
  fw_ok : file_ok s' d';
  fw_contents : fcontents s' d' = take (Z.to_nat off) (fcontents s (i_d x)) ++ src ++
                                  drop (Z.to_nat (off + Z.of_nat (length src))) (fcontents s (i_d x));
  fw_frame : ∀ k, data_block s k → ¬ file_block s (i_d x) k → fv s' k = fv s k;
  fw_used : ∀ k, data_block s k → data_block s' k;
  fw_grow : ∀ k, data_block s k → file_block s' d' k → file_block s (i_d x) k;
  fw_inodes : ∀ j, 0 ≤ j < sb_ninodes (fs_sb s) → j ≠ i_inum x → dinode_of s' j = dinode_of s j;
  fw_stored : d_size (i_d x) < off + Z.of_nat (length src) ∨ dinode_of s (i_inum x) = i_d x →
    dinode_of s' (i_inum x) = d'
}.

Section finish.
Variables (s : fst_st) (F : gset Z) (m ip : nat) (x : inode) (src : list Z) (off : Z).
Hypothesis Hwf : fs_wf s.
Hypothesis Hx : icache s !! ip = Some x.
Hypothesis Hdev : i_dev x = 1.
Hypothesis Hi : 0 ≤ i_inum x < sb_ninodes (fs_sb s).
Hypothesis Hf : file_ok s (i_d x).
Hypothesis Ho : 0 ≤ off ≤ d_size (i_d x).
Hypothesis Hmax : off + Z.of_nat (length src) ≤ MAXFILE * BSIZE.
Variables (s1 : fst_st) (d1 : dinode) (F1 : gset Z).
Hypothesis Hdone : write_done s F m ip x off src s1 d1 F1.

Lemma done_wrote : wrote s s1 (i_d x) d1 off src.
Proof. apply Hdone. Qed.

Lemma size_bounds : 0 ≤ d_size (i_d x) ≤ MAXFILE * BSIZE.
Proof. pose proof (do_size _ (mo_dinode _ _ (fo_map _ _ Hf))). pose proof (fo_size _ _ Hf). lia. Qed.

Lemma dinode_of_meta j : 0 ≤ j < sb_ninodes (fs_sb s) → dinode_of s1 j = dinode_of s j.
Proof.
  intros Hj. unfold dinode_of. rewrite (wt_sb _ _ _ _ _ _ done_wrote). pose proof (iblock_range _ _ (wf_sb _ Hwf) Hj).
  destruct (iblock_outside _ _ (wf_sb _ Hwf) Hj). rewrite (wt_meta _ _ _ _ _ _ done_wrote); [done|lia].
Qed.

(** The write stayed within the file: no block was added. *)
Lemma finish_within : off + Z.of_nat (length src) ≤ d_size (i_d x) → file_written s s1 ip x d1 src off.
Proof.
  intros Hle. pose proof size_bounds as Hs. pose proof Hdone as (Eic & Hw & Hp & _).
  pose proof (wt_same _ _ _ _ _ _ Hw) as (Et & Esz & En).
  assert (Esz' : d_size d1 = Z.max (d_size (i_d x)) (off + Z.of_nat (length src))) by lia.
  split; try done.
  - apply Hw.
  - eapply (file_ok_wrote s s1 (i_d x) d1 off (Z.of_nat (length src))); try done; [lia|apply Hw..].
  - apply fcontents_wrote; try done. apply Hw.
  - apply Hw.
  - apply Hw.
  - apply Hw.
  - intros j Hj _. by apply dinode_of_meta.
  - intros [|Hd]; [lia|]. rewrite dinode_of_meta, Hd, Hp; [done| |done].
    intros o Hoo. apply (fo_full _ _ Hf); [apply Z.div_pos; [lia|done]|]. apply block_in_file. lia.
Qed.

(** The write extended the file: the size and the inode are updated. *)
Lemma finish_extend : d_size (i_d x) < off + Z.of_nat (length src) → IBLOCK (i_inum x) (fs_sb s) ∈ F →
  let z := off + Z.of_nat (length src) in
  ∃ s2, (upd_dinode ip (set_dsize z) ;;; iupdate ip) s1 = Ok tt s2 ∧
    file_written s s2 ip x (set_dsize z d1) src off ∧ fs_in s2 F1 (S m).
Proof.
  intros Hgt HI z. pose proof size_bounds as Hs. pose proof Hdone as (Eic1 & Hw & _ & HF & _ & Hok1).
  pose proof Hw as [B Sm P L Fr U G M E Hm].
  assert (Hz : 0 ≤ z < 4294967296) by (unfold z; rewrite MAXFILE_eq, BSIZE_eq in *; lia).
  assert (Hlt : (ip < length (icache s))%nat) by (by eapply lookup_lt_Some).
  set (x2 := set_idata (set_dsize z d1) x).
  set (s1' := Fst (fs_log s1) (fs_sb s1) (<[ip := x2]> (icache s1))).
  assert (Hx1 : icache s1 !! ip = Some (set_idata d1 x)) by (rewrite Eic1; by apply list_lookup_insert_eq).
  assert (Hx2 : icache s1' !! ip = Some x2).
  { apply list_lookup_insert_eq. rewrite Eic1, length_insert. done. }
  assert (Hd2 : dinode_ok (i_d x2)) by (destruct (mo_dinode _ _ Hm); by split).
  apply (fs_in_weaken _ _ F1 _ (S m)) in Hok1; [|done|lia].
  pose proof (fs_in_icache _ _ _ (<[ip := x2]> (icache s1)) Hok1) as Hok1'. fold s1' in Hok1'.
  destruct (iupdate_run s1' F1 m ip x2 Hok1' Hx2 Hdev) as (s2 & Hr & Hst & Hok2); [cbn; by rewrite E|done|].
  rewrite decide_True in Hok2 by (cbn; rewrite E; by apply HF).
  assert (Hi1 : 0 ≤ i_inum x < sb_ninodes (fs_sb s1')) by (cbn; by rewrite E).
  destruct (inode_stored_map s1' s2 (i_inum x) (i_d x2) d1 z (fi_wf _ _ _ Hok1') Hi1 Hst
    (map_ok_icache _ _ _ Hm) Hz) as (Hm2 & Hfa & Hfb).
  destruct (inode_stored_data s1' s2 (i_inum x) (i_d x2) (fi_wf _ _ _ Hok1') Hi1 Hst) as [Hfv Hdb].
  exists s2. split_and!; [|split|done].
  - unfold upd_dinode. erewrite bind_upd_inode by done. exact Hr.
  - rewrite (is_icache _ _ _ _ Hst). cbn [icache s1']. by rewrite Eic1, list_insert_insert_eq.
  - by rewrite (is_sb _ _ _ _ Hst).
  - destruct Sm as (? & _ & ?). done.
  - cbn. unfold z. lia.
  - eapply (file_ok_wrote s s2 (i_d x) _ off (Z.of_nat (length src))); try done; [lia|unfold z; cbn; lia|..].
    + intros bn Hb Hne. rewrite Hfa. by apply P.
    + intros o Hoo. rewrite Hfa. by apply L.
  - apply fcontents_wrote; try done; [unfold z; cbn; lia|]. intros o Hoo. rewrite Hfb by done. by apply B.
  - intros k Hk Hn. pose proof (datastart_pos _ (wf_sb _ Hwf)). pose proof Hk as [? _].
    rewrite Hfv; [by apply Fr|]. cbn. rewrite E. lia.
  - intros k Hk. by apply Hdb, U.
  - intros k Hk [->|(bn & Hb & Ek)]; apply G; try done; [by left|]. right. exists bn. by rewrite <-Ek, Hfa.
  - intros j Hj Hne. rewrite (is_others _ _ _ _ Hst) by done. by apply dinode_of_meta.
  - intros _. apply (is_new _ _ _ _ Hst).
Qed.

End finish.

(** The blocks of the bitmap. *)
Definition bitmap_blocks (sb : superblock) : gset Z :=
  list_to_set (seqZ (sb_bmapstart sb) (sb_size sb / BPB + 1)).

Lemma bitmap_blocks_in sb F : sb_ok sb → bitmap_blocks sb ⊆ F → bitmap_in sb F.
Proof.
  intros Hsb HF b Hb. apply HF, elem_of_list_to_set, elem_of_seqZ.
  pose proof (bblock_range sb b Hsb Hb). unfold datastart in *. lia.
Qed.

Lemma size_bitmap_blocks sb : sb_ok sb → Z.of_nat (size (bitmap_blocks sb)) = sb_size sb / BPB + 1.
Proof.
  intros Hsb. pose proof (datastart_pos _ Hsb). unfold bitmap_blocks.
  rewrite size_list_to_set by apply NoDup_seqZ. rewrite length_seqZ. lia.
Qed.

(** The blocks that [writei] of [n] bytes at [off] records at most: the data
    blocks, the bitmap, the indirect block and the inode. *)
Definition writei_blocks (sb : superblock) (off n : Z) : Z := sb_size sb / BPB + 1 + needed off n + 2.

Lemma needed_nonneg off n : 0 ≤ off → 0 ≤ n → 0 ≤ needed off n.
Proof. intros Ho Hn. unfold needed. case_match; [lia|]. rewrite BSIZE_eq. Z.div_mod_to_equations. lia. Qed.

(** Setting aside the bitmap, the inode and the indirect block. *)
Lemma writei_reserve s m x off n : fs_ok s (Z.to_nat (writei_blocks (fs_sb s) off n) + m) → 0 ≤ off → 0 ≤ n →
  ∃ F, held s F (i_d x) ∧ IBLOCK (i_inum x) (fs_sb s) ∈ F ∧
    fs_in s F (Z.to_nat (needed off n) + ind (i_d x) + m).
Proof.
  intros Hok Ho Hn. pose proof (wf_sb _ (fi_wf _ _ _ Hok)) as Hsb. pose proof (needed_nonneg off n Ho Hn).
  pose proof (size_bitmap_blocks _ Hsb) as Hsz. unfold writei_blocks in Hok.
  set (G := bitmap_blocks (fs_sb s)) in *. set (I := IBLOCK (i_inum x) (fs_sb s)).
  assert (Hok1 : fs_in s (G ∪ ∅) (S (S (Z.to_nat (needed off n) + m)))).
  { apply fs_reserve_all. eapply fs_in_weaken; [exact Hok|done|lia]. }
  apply (fs_reserve _ _ _ I) in Hok1. unfold ind. destruct (decide (iaddr (i_d x) = 0)) as [E|E].
  - exists ({[I]} ∪ (G ∪ ∅)). split_and!; [|set_solver|eapply fs_in_weaken; [exact Hok1|done|lia]].
    split; [|done]. apply bitmap_blocks_in; [done|]. fold G. set_solver.
  - apply (fs_reserve _ _ _ (iaddr (i_d x))) in Hok1. exists ({[iaddr (i_d x)]} ∪ ({[I]} ∪ (G ∪ ∅))).
    split_and!; [|set_solver|eapply fs_in_weaken; [exact Hok1|done|lia]].
    split; [|set_solver]. apply bitmap_blocks_in; [done|]. fold G. set_solver.
Qed.

Lemma writei_run dev_write s m ip x src off n : fs_ok s (Z.to_nat (writei_blocks (fs_sb s) off n) + S m) →
  icache s !! ip = Some x → i_dev x = 1 → 0 ≤ i_inum x < sb_ninodes (fs_sb s) → file_ok s (i_d x) →
  d_type (i_d x) ≠ T_DEV → 0 ≤ off < 2147483648 → 0 ≤ n < 2147483648 → Z.of_nat (length src) = n →
  if decide (off ≤ d_size (i_d x) ∧ off + n ≤ MAXFILE * BSIZE) then
    (∃ s' d', writei dev_write ip src off n s = Ok n s' ∧ file_written s s' ip x d' src off ∧ fs_ok s' (S m)) ∨
    (∃ s', writei dev_write ip src off n s = Err (Panic "balloc: out of blocks") s' ∧ disk_full s')
  else writei dev_write ip src off n s = Ok (-1) s.
Proof.
  intros Hok Hx Hdev Hi Hf Ht Ho Hn Hl. subst n. unfold writei. erewrite bind_inode_at by done.
  rewrite (proj2 (Z.eqb_neq _ _)) by done. cbn zeta. rewrite u32_small by lia.
  destruct (Z.ltb_spec (d_size (i_d x)) off); cbn [orb]; [by rewrite decide_False by lia|].
  rewrite (proj2 (Z.ltb_ge _ _)) by lia. set (n := Z.of_nat (length src)) in *.
  destruct (Z.ltb_spec (MAXFILE * BSIZE) (off + n)); [by rewrite decide_False by lia|].
  rewrite decide_True by lia. pose proof (fi_wf _ _ _ Hok) as Hwf.
  destruct (writei_reserve s (S m) x off n Hok) as (F & HF & HI & HokF); [lia..|].
  destruct (writei_loop_run n (io_fuel n) (Z.to_nat (needed off n)) s F m ip x src 0 off)
    as [(s1 & d1 & F1 & Hr1 & Hw)|(s1 & Hr1 & Hfull)]; try done; try lia.
  { eapply fs_in_weaken; [exact HokF|done|lia]. } { apply Hf. } { rewrite Z.sub_0_r. apply needed_fuel; lia. }
  { rewrite Z.sub_0_r. pose proof (needed_nonneg off n). lia. }
  2:{ right. exists s1. split; [|done]. by erewrite bind_err by exact Hr1. }
  left. rewrite Z.sub_0_r in Hr1. erewrite bind_ok by exact Hr1.
  destruct (Z.ltb_spec (d_size (i_d x)) (off + n)) as [Hgt|Hle].
  - rewrite (proj2 (Z.ltb_lt _ _)) by lia. cbn [andb].
    destruct (finish_extend s F m ip x src off Hwf Hx Hdev Hi Hf ltac:(lia) ltac:(lia) s1 d1 F1 Hw Hgt HI)
      as (s2 & Hr2 & Hfw & Hok2).
    exists s2. eexists. split_and!; [|exact Hfw|eapply fs_in_weaken; [exact Hok2|set_solver|done]].
    erewrite bind_ok by exact Hr2. unfold ret. by rewrite s32_small by lia.
  - rewrite andb_false_r. exists s1, d1. split_and!.
    + rewrite bind_ret. unfold ret. by rewrite s32_small by lia.
    + eapply (finish_within s F m); try done; lia.
    + destruct Hw as (_ & _ & _ & _ & _ & Hok1). eapply fs_in_weaken; [exact Hok1|set_solver|lia].
Qed.

(** C16. Writing a file.  [writei] of an inode that is not a device returns [-1]
    and changes nothing when the offset lies beyond the end of the file or the
    file would outgrow [MAXFILE] blocks.  Otherwise, in a transaction with room
    for the data blocks it touches, the bitmap, the indirect block and the inode,
    and a slot to spare, it returns [n] and the file's contents are the old ones
    with the [n] bytes at the offset replaced, the file growing as needed; no
    data block in use by anything else, and no other inode, changes, the inode on
    disk is the one in memory when the file grew or the two agreed before, and
    the transaction has grown by no more than those blocks.  The only other
    outcome is the panic of a full disk. *)
Theorem writei_correct dev_write s m ip x src off n : fs_ok s (Z.to_nat (writei_blocks (fs_sb s) off n) + S m) →
  icache s !! ip = Some x → i_dev x = 1 → 0 ≤ i_inum x < sb_ninodes (fs_sb s) → file_ok s (i_d x) →
  d_type (i_d x) ≠ T_DEV → 0 ≤ off < 2147483648 → 0 ≤ n < 2147483648 → Z.of_nat (length src) = n →
  if decide (off ≤ d_size (i_d x) ∧ off + n ≤ MAXFILE * BSIZE) then
    (∃ s' d', writei dev_write ip src off n s = Ok n s' ∧ file_written s s' ip x d' src off ∧ fs_ok s' (S m)) ∨
    (∃ s', writei dev_write ip src off n s = Err (Panic "balloc: out of blocks") s' ∧ disk_full s')
  else writei dev_write ip src off n s = Ok (-1) s.
Proof. apply writei_run. Qed.

(** ** A file of three bytes *)

Definition demo_file : dinode := Dinode T_FILE 0 0 1 3 (40 :: replicate NDIRECT 0).
Definition demo_file_inode : inode := Inode 1 5 1 (Sleeplock true 7) true demo_file.
(** [demo_fs] with the file's block 40 in use. *)
Definition demo_file_fs : fst_st :=
  Fst (Lst (Log 2 31 1 false 0 (replicate (Z.to_nat LOGSIZE) 0))
           (Store {[36 := [255; 255; 255; 255; 255; 1] ++ replicate 506 0;
                    40 := [104; 105; 10] ++ replicate 509 0]} ∅ 100 []))
      demo_sb (demo_file_inode :: replicate 49 zero_inode).

Lemma demo_file_used b : 0 ≤ b < 41 → used demo_file_fs b.
Proof.
  intros Hb. assert (Hall : forallb (λ b, negb (bit_free (fv demo_file_fs (BBLOCK b demo_sb)) (b mod BPB))) (seqZ 0 41) = true)
    by (vm_compute; reflexivity).
  rewrite forallb_forall in Hall. apply negb_true_iff. apply Hall. apply list_elem_of_In, elem_of_seqZ. lia.
Qed.

Lemma demo_file_fs_ok m : (m ≤ 30)%nat → fs_ok demo_file_fs m.
Proof.
  intros Hm. split; [|split; try done].
  - apply room_empty; [|done|unfold LOGSIZE, MAXOPBLOCKS; cbn; lia..].
    split; try done; cbn [fs_log fs_sb log store_of lg_start lg_size demo_file_fs demo_sb sb_size].
    + split; [constructor..|simpl; unfold LOGSIZE, MAXOPBLOCKS; lia|simpl; lia].
    + intros k [v Hv]. cbn in Hv. by rewrite lookup_empty in Hv.
  - intros k _. unfold fv, sview, blk. cbn [fs_log store_of demo_file_fs pinned disk]. rewrite lookup_empty. cbn [default].
    destruct (decide (k = 36)) as [->|]; [vm_compute; reflexivity|]. rewrite lookup_insert_ne by done.
    destruct (decide (k = 40)) as [->|]; [vm_compute; reflexivity|]. rewrite lookup_singleton_ne by done. done.
  - intros b Hb. apply demo_file_used. change (datastart (fs_sb demo_file_fs)) with 37 in Hb. lia.
Qed.

Lemma demo_file_addr bn : 0 ≤ bn < MAXFILE → faddr demo_file_fs demo_file bn = if decide (bn = 0) then 40 else 0.
Proof.
  rewrite MAXFILE_eq. intros Hb. unfold faddr. change (iaddr demo_file) with 0. change (Z.of_nat NDIRECT) with 12.
  destruct (Z.ltb_spec bn 12).
  - destruct (decide (bn = 0)) as [->|]; [done|]. destruct (Z.to_nat bn) as [|i] eqn:E; [lia|].
    change (d_addrs demo_file !! S i) with (replicate NDIRECT 0 !! i). rewrite lookup_replicate_2; [done|]. unfold NDIRECT. lia.
  - by rewrite decide_False by lia.
Qed.

Lemma demo_file_ok : file_ok demo_file_fs demo_file.
Proof.
  assert (Hd : dinode_ok demo_file).
  { split; cbn; unfold T_FILE; try lia; [done|]. repeat (constructor; [lia|]). constructor. }
  split.
  - split; [done|done|..].
    + intros bn Hb. rewrite demo_file_addr by done. destruct (decide (bn = 0)); [|done]. intros _. split; [|done].
      split; [done|]. apply demo_file_used. lia.
    + intros bn bn' Hb Hb'. rewrite !demo_file_addr by done.
      destruct (decide (bn = 0)), (decide (bn' = 0)); congruence.
  - done.
  - intros bn Hb Hlt. change (d_size demo_file) with 3 in Hlt. rewrite BSIZE_eq in Hlt.
    assert (bn = 0) as -> by lia. rewrite demo_file_addr by (rewrite MAXFILE_eq; lia). done.
Qed.

(** Reading four bytes from offset 1 of the file gives its last two. *)
Lemma readi_correct_witness :
  readi (λ _, None) 0 1 4 demo_file_fs = Ok (2, [105; 10]) demo_file_fs.
Proof.
  rewrite (readi_correct (λ _, None) demo_file_fs 0 demo_file_inode 1 4);
    [|apply (fi_wf _ ∅ 0), demo_file_fs_ok; lia|reflexivity|reflexivity|apply demo_file_ok|discriminate|lia|lia].
  vm_compute. reflexivity.
Defined.

Lemma writei_correct_witness :
  (∃ s' d', writei (λ _, None) 0 [111; 107] 2 2 demo_file_fs = Ok 2 s' ∧
     file_written demo_file_fs s' 0 demo_file_inode d' [111; 107] 2 ∧ fs_ok s' 6) ∨
  (∃ s', writei (λ _, None) 0 [111; 107] 2 2 demo_file_fs = Err (Panic "balloc: out of blocks") s' ∧
     disk_full s').
Proof.
  apply (writei_correct (λ _, None) demo_file_fs 5 0 demo_file_inode [111; 107] 2 2).
  - apply demo_file_fs_ok. apply (bool_decide_unpack _). vm_compute. exact I.
  - reflexivity.
  - reflexivity.
  - cbn. lia.
  - apply demo_file_ok.
  - discriminate.
  - lia.
  - lia.
  - reflexivity.
Defined.
