(* ===== verification/Pipe.v ===== *)
(** Pipes: pipe.c

    [pipewrite] and [piperead] run under the pipe's lock up to their return or
    their call of [sleep], which releases the lock; such a stretch is one
    definition, whose result says where a sleeping call goes on.  The channels
    passed to [wakeup] are recorded in the state.

    [queue] is the bounded queue that the circular buffer implements, across
    the wrap-around of its 32-bit counters.  A writer and a reader that share a
    pipe are a step relation; sleep and wakeup are shown never to leave both
    asleep, and the bytes to arrive in order. *)

From stdpp Require Import list numbers strings relations.
From Stdlib Require Import ZArith Lia.
From S2P Require Import Prelude.

Definition PIPESIZE : Z := 512.

Record pipe := Pipe {
  pi_data : list Z;
  nread : Z;
  nwrite : Z;
  readopen : bool;
  writeopen : bool
}.

(** The channels of a pipe: [&p->nread] and [&p->nwrite]. *)
Inductive pchan := ChNread | ChNwrite.

Record pipe_st := PipeSt {
  the_pipe : pipe;
  pwoken : list pchan
}.

Definition upd_pipe (f : pipe → pipe) : M pipe_st unit := modify (λ s, PipeSt (f (the_pipe s)) (pwoken s)).
Definition pwakeup (c : pchan) : M pipe_st unit := modify (λ s, PipeSt (the_pipe s) (pwoken s ++ [c])).

(** A pipe as [pipealloc] initialises it; the page's bytes are [data]. *)
Definition new_pipe (data : list Z) : pipe := Pipe data 0 0 true true.

(** [pipeclose] up to the test that frees the page; it returns the test. *)
Definition pipeclose (writable : bool) : M pipe_st bool :=
  (if writable then
     upd_pipe (λ p, Pipe (pi_data p) (nread p) (nwrite p) (readopen p) false) ;;;
     pwakeup ChNread
   else
     upd_pipe (λ p, Pipe (pi_data p) (nread p) (nwrite p) false (writeopen p)) ;;;
     pwakeup ChNwrite) ;;;
  p <- gets the_pipe ;;
  ret (negb (readopen p) && negb (writeopen p)).

(** A call that has returned, or that sleeps with [i] bytes done. *)
Inductive presult (A : Type) :=
| Done (a : A)
| Sleeping (i : nat).
Arguments Done {A} a.
Arguments Sleeping {A} i.

Definition pipe_full (p : pipe) : bool := nwrite p =? u32 (nread p + PIPESIZE).
Definition pipe_empty (p : pipe) : bool := nread p =? nwrite p.

(** [p->data[p->nwrite++ % PIPESIZE] = c] *)
Definition put_byte (c : Z) (p : pipe) : pipe :=
  Pipe (<[Z.to_nat (nwrite p mod PIPESIZE) := c]> (pi_data p)) (nread p) (u32 (nwrite p + 1))
       (readopen p) (writeopen p).
(** [p->data[p->nread++ % PIPESIZE]] *)
Definition get_byte (p : pipe) : Z := default 0 (pi_data p !! Z.to_nat (nread p mod PIPESIZE)).
Definition skip_byte (p : pipe) : pipe :=
  Pipe (pi_data p) (u32 (nread p + 1)) (nwrite p) (readopen p) (writeopen p).

(** The loop of [pipewrite] with the bytes [addr[i..n-1]] left. *)
Fixpoint pipewrite_loop (killed : bool) (bs : list Z) (i n : nat) : M pipe_st (presult Z) :=
  match bs with
  | [] => pwakeup ChNread ;;; ret (Done (Z.of_nat n))
  | c :: bs' =>
      p <- gets the_pipe ;;
      if pipe_full p then
        if negb (readopen p) || killed then ret (Done (-1))
        else pwakeup ChNread ;;; ret (Sleeping i)
      else upd_pipe (put_byte c) ;;; pipewrite_loop killed bs' (S i) n
  end.

(** [pipewrite] of the bytes [addr], from byte [i] on (0 when it is called). *)
Definition pipewrite (killed : bool) (addr : list Z) (i : nat) : M pipe_st (presult Z) :=
  pipewrite_loop killed (drop i addr) i (length addr).

(** The copy loop of [piperead]: at most [n] more bytes. *)
Fixpoint piperead_loop (n : nat) (acc : list Z) : M pipe_st (list Z) :=
  match n with
  | O => ret acc
  | S n' =>
      p <- gets the_pipe ;;
      if pipe_empty p then ret acc
      else upd_pipe skip_byte ;;; piperead_loop n' (acc ++ [get_byte p])
  end.

(** [piperead] of at most [n] bytes: the result and the bytes copied. *)
Definition piperead (killed : bool) (n : Z) : M pipe_st (presult (Z * list Z)) :=
  p <- gets the_pipe ;;
  if pipe_empty p && writeopen p then
    if killed : bool then ret (Done (-1, [])) else ret (Sleeping 0)
  else
    bs <- piperead_loop (Z.to_nat n) [] ;;
    pwakeup ChNwrite ;;;
    ret (Done (Z.of_nat (length bs), bs)).

(** ** The queue *)

(** The number of bytes in the buffer, and the bytes. *)
Definition qlen (p : pipe) : Z := u32 (nwrite p - nread p).
Definition queue (p : pipe) : list Z :=
  (λ i, default 0 (pi_data p !! Z.to_nat ((nread p + Z.of_nat i) mod PIPESIZE))) <$> seq 0 (Z.to_nat (qlen p)).

Record pipe_ok (p : pipe) : Prop := {
  pk_len : length (pi_data p) = 512%nat;
  pk_read : 0 ≤ nread p < 4294967296;
  pk_write : 0 ≤ nwrite p < 4294967296;
  pk_count : qlen p ≤ PIPESIZE
}.

Section queue.
Implicit Types (p : pipe).

Lemma length_queue p : length (queue p) = Z.to_nat (qlen p).
Proof. unfold queue. by rewrite length_fmap, length_seq. Qed.

Lemma queue_lookup p i : (i < Z.to_nat (qlen p))%nat →
  queue p !! i = Some (default 0 (pi_data p !! Z.to_nat ((nread p + Z.of_nat i) mod PIPESIZE))).
Proof. intros Hi. unfold queue. by rewrite list_lookup_fmap, lookup_seq_lt. Qed.

Lemma pipe_full_spec p : pipe_ok p → pipe_full p = bool_decide (qlen p = PIPESIZE).
Proof.
  intros [_ Hr Hw Hc]. unfold pipe_full, qlen, PIPESIZE in *.
  apply eq_true_iff_eq. rewrite Z.eqb_eq, bool_decide_eq_true. zlia.
Qed.

Lemma pipe_empty_spec p : pipe_ok p → pipe_empty p = bool_decide (queue p = []).
Proof.
  intros [_ Hr Hw Hc]. apply eq_true_iff_eq. unfold pipe_empty. rewrite Z.eqb_eq, bool_decide_eq_true.
  rewrite <-length_zero_iff_nil, length_queue. unfold qlen. zlia.
Qed.

Lemma slot_u32 a i : (u32 a + i) mod 512 = (a + i) mod 512.
Proof. zlia. Qed.

(** Distinct positions of the buffer. *)
Lemma slot_ne a i j : 0 ≤ i < 512 → 0 ≤ j ≤ 512 → i < j → j - i < 512 → (a + i) mod 512 ≠ (a + j) mod 512.
Proof. intros. Z.div_mod_to_equations. lia. Qed.

Lemma put_byte_ok p c : pipe_ok p → qlen p < PIPESIZE → pipe_ok (put_byte c p) ∧ queue (put_byte c p) = queue p ++ [c].
Proof.
  intros [Hl Hr Hw Hc] Hlt. unfold PIPESIZE in *.
  assert (Hq : qlen (put_byte c p) = qlen p + 1) by (unfold qlen in *; simpl; zlia).
  pose proof (u32_range (nwrite p - nread p)) as Hq0. fold (qlen p) in Hq0.
  assert (Hslot : nwrite p mod 512 = (nread p + qlen p) mod 512) by (unfold qlen; zlia).
  split.
  - split; simpl; [by rewrite length_insert|done|apply u32_range|unfold PIPESIZE; lia].
  - apply list_eq. intros i. destruct (decide (i < Z.to_nat (qlen p))%nat) as [Hi|Hi].
    + rewrite lookup_app_l by (rewrite length_queue; done).
      rewrite !queue_lookup by (rewrite ?Hq; lia). simpl. unfold PIPESIZE. rewrite list_lookup_insert_ne; [done|].
      rewrite Hslot. pose proof (slot_ne (nread p) (Z.of_nat i) (qlen p)) as Hne.
      pose proof (Z.mod_pos_bound (nread p + qlen p) 512). pose proof (Z.mod_pos_bound (nread p + Z.of_nat i) 512). lia.
    + rewrite lookup_app_r, length_queue by (rewrite length_queue; lia).
      destruct (decide (i = Z.to_nat (qlen p))) as [->|].
      * rewrite Nat.sub_diag. simpl. rewrite queue_lookup by (rewrite Hq; lia). simpl. unfold PIPESIZE.
        rewrite Z2Nat.id by lia. rewrite Hslot, list_lookup_insert_eq; [done|].
        pose proof (Z.mod_pos_bound (nread p + qlen p) 512). lia.
      * rewrite !lookup_ge_None_2; [done| |]; [simpl; lia|rewrite length_queue, Hq; lia].
Qed.

Lemma skip_byte_ok p : pipe_ok p → 0 < qlen p →
  pipe_ok (skip_byte p) ∧ queue p = get_byte p :: queue (skip_byte p).
Proof.
  intros [Hl Hr Hw Hc] Hlt. unfold PIPESIZE in *.
  assert (Hq : qlen (skip_byte p) = qlen p - 1) by (unfold qlen in *; simpl; zlia).
  split.
  - split; simpl; [done|apply u32_range|done|unfold PIPESIZE; lia].
  - apply list_eq. intros [|i].
    + rewrite queue_lookup by lia. simpl. unfold get_byte, PIPESIZE. by rewrite Z.add_0_r.
    + simpl. destruct (decide (S i < Z.to_nat (qlen p))%nat) as [Hi|Hi].
      * rewrite !queue_lookup by (rewrite ?Hq; lia). simpl. unfold PIPESIZE.
        rewrite slot_u32. do 5 f_equal. lia.
      * rewrite !lookup_ge_None_2; [done| |]; rewrite length_queue, ?Hq; lia.
Qed.

Lemma put_byte_open p c : readopen (put_byte c p) = readopen p ∧ writeopen (put_byte c p) = writeopen p.
Proof. done. Qed.

End queue.

(** ** The operations on the queue *)

Section runs.
Implicit Types (p : pipe) (bs acc : list Z) (wk : list pchan).

Lemma qlen_queue p : qlen p = Z.of_nat (length (queue p)).
Proof. rewrite length_queue. pose proof (u32_range (nwrite p - nread p)). unfold qlen in *. lia. Qed.

Lemma queue_bound p : pipe_ok p → (length (queue p) ≤ 512)%nat.
Proof. intros Hp. pose proof (pk_count _ Hp) as H. rewrite qlen_queue in H. unfold PIPESIZE in H. lia. Qed.

(** The room left in a pipe. *)
Definition proom (p : pipe) : nat := (512 - length (queue p))%nat.

Lemma full_room p : pipe_ok p → pipe_full p = bool_decide (proom p = 0%nat).
Proof.
  intros Hp. rewrite pipe_full_spec by done. apply bool_decide_ext. rewrite qlen_queue.
  pose proof (queue_bound p Hp). unfold proom, PIPESIZE. lia.
Qed.

Lemma pipewrite_loop_run killed bs : ∀ p wk i n, pipe_ok p →
  ∃ p', pipe_ok p' ∧ readopen p' = readopen p ∧ writeopen p' = writeopen p ∧
    queue p' = queue p ++ take (proom p) bs ∧
    pipewrite_loop killed bs i n (PipeSt p wk) =
    if decide (length bs ≤ proom p)%nat then Ok (Done (Z.of_nat n)) (PipeSt p' (wk ++ [ChNread]))
    else if negb (readopen p) || killed then Ok (Done (-1)) (PipeSt p' wk)
    else Ok (Sleeping (i + proom p)) (PipeSt p' (wk ++ [ChNread])).
Proof.
  induction bs as [|c bs IH]; intros p wk i n Hp; cbn [pipewrite_loop].
  { exists p. rewrite take_nil, app_nil_r. done. }
  rewrite bind_gets. cbn [the_pipe]. rewrite full_room by done.
  destruct (proom p) as [|r] eqn:Er.
  - rewrite bool_decide_eq_true_2 by done. exists p. rewrite take_0, app_nil_r.
    rewrite decide_False by (simpl; lia). split_and!; try done.
    destruct (negb (readopen p) || killed); [done|]. rewrite Nat.add_0_r. done.
  - rewrite bool_decide_eq_false_2 by done.
    destruct (put_byte_ok p c Hp) as [Hp' Hq].
    { rewrite qlen_queue. unfold proom, PIPESIZE in *. lia. }
    assert (Hr : proom (put_byte c p) = r) by (unfold proom in *; rewrite Hq, length_app; simpl; lia).
    destruct (IH (put_byte c p) wk (S i) n Hp') as (p' & Hok & H1 & H2 & H3 & Hrun).
    exists p'. rewrite Hr in *. split_and!; try done.
    + rewrite H3, Hq. simpl. by rewrite <-app_assoc.
    + unfold upd_pipe. rewrite bind_modify. cbn [the_pipe pwoken]. rewrite Hrun. cbn [readopen put_byte].
      destruct (decide (length bs ≤ r)%nat), (decide (length (c :: bs) ≤ S r)%nat); simpl in *; try lia; try done.
      by rewrite Nat.add_succ_r.
Qed.

Lemma piperead_loop_run n : ∀ p wk acc, pipe_ok p →
  ∃ p', pipe_ok p' ∧ readopen p' = readopen p ∧ writeopen p' = writeopen p ∧
    queue p' = drop n (queue p) ∧
    piperead_loop n acc (PipeSt p wk) = Ok (acc ++ take n (queue p)) (PipeSt p' wk).
Proof.
  induction n as [|n IH]; intros p wk acc Hp; cbn [piperead_loop].
  { exists p. rewrite take_0, app_nil_r. done. }
  rewrite bind_gets. cbn [the_pipe]. rewrite pipe_empty_spec by done. case_bool_decide as Eq.
  { exists p. rewrite Eq, app_nil_r. done. }
  destruct (skip_byte_ok p Hp) as [Hp' Hq].
  { rewrite qlen_queue. destruct (queue p); [done|]. simpl. lia. }
  destruct (IH (skip_byte p) wk (acc ++ [get_byte p]) Hp') as (p' & Hok & H1 & H2 & H3 & Hrun).
  exists p'. split_and!; try done.
  - rewrite H3, Hq. done.
  - unfold upd_pipe. rewrite bind_modify. cbn [the_pipe pwoken]. rewrite Hrun, Hq. simpl. by rewrite <-app_assoc.
Qed.

(** A stretch of [pipewrite]. *)
Lemma pipewrite_run p wk addr i : pipe_ok p → (i ≤ length addr)%nat →
  ∃ p', pipe_ok p' ∧ readopen p' = readopen p ∧ writeopen p' = writeopen p ∧
    queue p' = queue p ++ take (proom p) (drop i addr) ∧
    pipewrite false addr i (PipeSt p wk) =
    if decide (length addr ≤ i + proom p)%nat then Ok (Done (Z.of_nat (length addr))) (PipeSt p' (wk ++ [ChNread]))
    else if negb (readopen p) then Ok (Done (-1)) (PipeSt p' wk)
    else Ok (Sleeping (i + proom p)) (PipeSt p' (wk ++ [ChNread])).
Proof.
  intros Hp Hi. destruct (pipewrite_loop_run false (drop i addr) p wk i (length addr) Hp)
    as (p' & Hok & H1 & H2 & H3 & Hrun).
  exists p'. split_and!; try done. unfold pipewrite. rewrite Hrun, length_drop, orb_false_r.
  destruct (decide (length addr - i ≤ proom p)%nat), (decide (length addr ≤ i + proom p)%nat); lia || done.
Qed.

(** A stretch of [piperead]. *)
Lemma piperead_run p wk n : pipe_ok p →
  ∃ p', pipe_ok p' ∧ readopen p' = readopen p ∧ writeopen p' = writeopen p ∧
    queue p' = drop (Z.to_nat n) (queue p) ∧
    piperead false n (PipeSt p wk) =
    if decide (queue p = [] ∧ writeopen p = true) then Ok (Sleeping 0) (PipeSt p wk)
    else let bs := take (Z.to_nat n) (queue p) in
         Ok (Done (Z.of_nat (length bs), bs)) (PipeSt p' (wk ++ [ChNwrite])).
Proof.
  intros Hp. destruct (piperead_loop_run (Z.to_nat n) p wk [] Hp) as (p' & Hok & H1 & H2 & H3 & Hrun).
  exists p'. split_and!; try done. unfold piperead. rewrite bind_gets. cbn [the_pipe].
  rewrite pipe_empty_spec by done. destruct (decide (queue p = [] ∧ writeopen p = true)) as [[Eq Ew]|Hn].
  - by rewrite bool_decide_eq_true_2, Ew.
  - replace (bool_decide (queue p = []) && writeopen p) with false.
    + erewrite bind_ok by exact Hrun. done.
    + symmetry. apply not_true_is_false. rewrite andb_true_iff, bool_decide_eq_true. done.
Qed.

End runs.

(** ** A writer and a reader *)

(** The writer in a call of [pipewrite], asleep in it, returned from it, and
    after closing its end; the reader calls [piperead] until it returns 0. *)
Inductive wstate := WRun (i : nat) | WSleep (i : nat) | WDone | WClosed.
Inductive rstate := RRun | RSleep | REof.

Record psys := Psys {
  sys_pipe : pipe;
  sys_w : wstate;
  sys_r : rstate;
  sys_got : list Z
}.

(** [wakeup] on the channels of a stretch. *)
Definition wake_reader (wk : list pchan) (r : rstate) : rstate :=
  match r with RSleep => if existsb (λ c, match c with ChNread => true | _ => false end) wk then RRun else RSleep | _ => r end.
Definition wake_writer (wk : list pchan) (w : wstate) : wstate :=
  match w with WSleep i => if existsb (λ c, match c with ChNwrite => true | _ => false end) wk then WRun i else WSleep i | _ => w end.

Definition writer_step (addr : list Z) (x : psys) : option psys :=
  match sys_w x with
  | WRun i =>
      match pipewrite false addr i (PipeSt (sys_pipe x) []) with
      | Ok (Done _) s => Some (Psys (the_pipe s) WDone (wake_reader (pwoken s) (sys_r x)) (sys_got x))
      | Ok (Sleeping j) s => Some (Psys (the_pipe s) (WSleep j) (wake_reader (pwoken s) (sys_r x)) (sys_got x))
      | Err _ _ => None
      end
  | WDone =>
      match pipeclose true (PipeSt (sys_pipe x) []) with
      | Ok _ s => Some (Psys (the_pipe s) WClosed (wake_reader (pwoken s) (sys_r x)) (sys_got x))
      | Err _ _ => None
      end
  | _ => None
  end.

Definition reader_step (n : Z) (x : psys) : option psys :=
  match sys_r x with
  | RRun =>
      match piperead false n (PipeSt (sys_pipe x) []) with
      | Ok (Done (0, _)) s => Some (Psys (the_pipe s) (wake_writer (pwoken s) (sys_w x)) REof (sys_got x))
      | Ok (Done (_, bs)) s => Some (Psys (the_pipe s) (wake_writer (pwoken s) (sys_w x)) RRun (sys_got x ++ bs))
      | Ok (Sleeping _) s => Some (Psys (the_pipe s) (wake_writer (pwoken s) (sys_w x)) RSleep (sys_got x))
      | Err _ _ => None
      end
  | _ => None
  end.

Inductive pipe_step (addr : list Z) : psys → psys → Prop :=
| step_writer x y : writer_step addr x = Some y → pipe_step addr x y
| step_reader n x y : 1 ≤ n → reader_step n x = Some y → pipe_step addr x y.

Definition psys0 (data : list Z) : psys := Psys (new_pipe data) (WRun 0) RRun [].

(** Where the writer is: the bytes it has put into the pipe. *)
Definition wpos (addr : list Z) (w : wstate) : nat :=
  match w with WRun i | WSleep i => i | _ => length addr end.

Record psys_ok (addr : list Z) (x : psys) : Prop := {
  ps_ok : pipe_ok (sys_pipe x);
  ps_ropen : readopen (sys_pipe x) = true;
  ps_wopen : writeopen (sys_pipe x) = match sys_w x with WClosed => false | _ => true end;
  ps_pos : (wpos addr (sys_w x) ≤ length addr)%nat;
  ps_fifo : sys_got x ++ queue (sys_pipe x) = take (wpos addr (sys_w x)) addr;
  ps_wsleep : ∀ i, sys_w x = WSleep i → length (queue (sys_pipe x)) = 512%nat;
  ps_rsleep : sys_r x = RSleep → queue (sys_pipe x) = [] ∧ sys_w x ≠ WClosed;
  ps_eof : sys_r x = REof → sys_got x = addr ∧ sys_w x = WClosed
}.

(** What is left to do: it decreases with every step. *)
Definition pmeasure (addr : list Z) (x : psys) : nat :=
  3 * (length addr - length (sys_got x)) +
  match sys_w x with WRun _ => 6 | WSleep _ => 4 | WDone => 2 | WClosed => 0 end +
  match sys_r x with RRun => 1 | _ => 0 end.

Section system.
Implicit Types (x y : psys) (addr : list Z).

Lemma take_drop_app addr i k : take i addr ++ take k (drop i addr) = take (i + k) addr.
Proof. by rewrite take_take_drop. Qed.

Lemma writer_step_ok addr x y : psys_ok addr x → writer_step addr x = Some y →
  psys_ok addr y ∧ (pmeasure addr y < pmeasure addr x)%nat.
Proof.
  destruct x as [p w r got]. intros [Hp Hro Hwo Hpos Hq Hws Hrs He]; cbn in *. unfold writer_step; cbn [sys_r sys_pipe sys_w sys_got].
  destruct w as [i|i| |]; try done.
  - destruct (pipewrite_run p [] addr i Hp Hpos) as (p' & Hp' & Hro' & Hwo' & Hq' & Hrun). rewrite Hrun, Hro. cbn.
    assert (Hr : wake_reader [ChNread] r ≠ RSleep ∧ (r ≠ REof → wake_reader [ChNread] r ≠ REof) ∧
      (wake_reader [ChNread] r = REof → r = REof)) by (by destruct r).
    assert (Hre : r ≠ REof) by (intros ->; by destruct He).
    assert (Hfifo : got ++ queue p' = take (i + proom p) addr)
      by (rewrite Hq', app_assoc, Hq; apply take_drop_app).
    destruct (decide (length addr ≤ i + proom p)%nat) as [Hle|Hgt]; intros [= <-].
    + split; [split; cbn; try done; try congruence|].
      * rewrite Hfifo. by rewrite !take_ge by lia.
      * intros E. by destruct Hr as [? _].
      * intros E. by destruct Hr as (_ & ? & _); destruct (H Hre).
      * unfold pmeasure; cbn. destruct r; cbn; lia.
    + split; [split; cbn; try done; try congruence; try lia|].
      * intros _ _. rewrite Hq', length_app, length_take, length_drop.
        pose proof (queue_bound p Hp). unfold proom in *. lia.
      * intros E. by destruct Hr as [? _].
      * intros E. by destruct Hr as (_ & ? & _); destruct (H Hre).
      * unfold pmeasure; cbn. destruct r; cbn; lia.
  - intros [= <-]. split; [split; cbn; try done; try (by destruct Hp)|].
    + by destruct r.
    + intros E. assert (r = REof) as Er by (by destruct r). by destruct (He Er).
    + unfold pmeasure; cbn. destruct r; cbn; lia.
Qed.

Lemma reader_step_ok addr n x y : 1 ≤ n → psys_ok addr x → reader_step n x = Some y →
  psys_ok addr y ∧ (pmeasure addr y < pmeasure addr x)%nat.
Proof.
  destruct x as [p w r got]. intros Hn [Hp Hro Hwo Hpos Hq Hws Hrs He]; cbn in *. unfold reader_step; cbn [sys_r sys_pipe sys_w sys_got].
  destruct r; try done.
  destruct (piperead_run p [] n Hp) as (p' & Hp' & Hro' & Hwo' & Hq' & Hrun). rewrite Hrun.
  destruct (decide (queue p = [] ∧ writeopen p = true)) as [[Eq Ew]|Hne].
  - intros [= <-]. cbn. assert (Ewk : wake_writer [] w = w) by (by destruct w). rewrite Ewk.
    split; [split; cbn; try done|].
    + intros _. split; [done|]. intros ->. congruence.
    + unfold pmeasure; cbn. lia.
  - cbn [the_pipe pwoken app]. set (bs := take (Z.to_nat n) (queue p)).
    assert (Hpos' : wpos addr (wake_writer [ChNwrite] w) = wpos addr w) by (by destruct w).
    assert (Hcl : wake_writer [ChNwrite] w = WClosed ↔ w = WClosed) by (by destruct w).
    assert (Hns : ∀ i, wake_writer [ChNwrite] w ≠ WSleep i) by (by destruct w).
    assert (Hwo2 : writeopen p = match wake_writer [ChNwrite] w with WClosed => false | _ => true end) by (by destruct w).
    destruct (decide (queue p = [])) as [Eq|Eq].
    + assert (Hw : w = WClosed) by (destruct w; try done; by destruct Hne).
      unfold bs. rewrite Eq, take_nil. cbn. intros [= <-]. subst w. cbn in *.
      rewrite Eq, app_nil_r in Hq. split; [split; cbn; try done; try congruence|].
      * rewrite Hq', Eq, drop_nil, app_nil_r. done.
      * intros _. split; [|done]. by rewrite Hq, take_ge.
      * unfold pmeasure; cbn. lia.
    + assert (Hbs : (0 < length bs)%nat).
      { unfold bs. rewrite length_take. destruct (queue p); [done|]. cbn [length]. lia. }
      assert (Hgl : (length got + length bs ≤ length addr)%nat).
      { assert (length (got ++ queue p) ≤ length addr)%nat by (rewrite Hq, length_take; lia).
        rewrite length_app in *. unfold bs. rewrite length_take. lia. }
      destruct (Z.of_nat (length bs)) as [|l|l] eqn:El; [lia| |lia]. intros [= <-].
      split; [split; cbn; try done; try congruence; try (by rewrite Hpos')|].
      * rewrite Hpos', <-Hq, Hq', <-app_assoc. unfold bs. by rewrite take_drop.
      * unfold pmeasure; cbn. rewrite length_app. destruct w; cbn; lia.
Qed.

Lemma psys0_ok addr data : length data = 512%nat → psys_ok addr (psys0 data).
Proof. intros Hd. split; try done; cbn; lia. Qed.

(** A system in which nobody can run has delivered everything. *)
Lemma psys_progress addr x : psys_ok addr x → sys_r x ≠ REof → ∃ y, pipe_step addr x y.
Proof.
  destruct x as [p w r got]. intros [Hp Hro Hwo Hpos Hq Hws Hrs He] Hr; cbn in *.
  assert (Hread : r = RRun → ∃ y, pipe_step addr (Psys p w r got) y).
  { intros ->. destruct (piperead_run p [] 1 Hp) as (p' & _ & _ & _ & _ & Hrun).
    destruct (reader_step 1 (Psys p w RRun got)) as [y|] eqn:E; [by exists y; apply (step_reader addr 1)|].
    unfold reader_step in E. cbn [sys_r sys_pipe] in E. rewrite Hrun in E.
    destruct (decide _); [done|]. cbn zeta in E. by destruct (Z.of_nat _). }
  destruct r; [by apply Hread| |done]. destruct (Hrs eq_refl) as [Eq Hnc].
  destruct w as [i|i| |]; try done.
  - destruct (pipewrite_run p [] addr i Hp Hpos) as (p' & _ & _ & _ & _ & Hrun).
    destruct (writer_step addr (Psys p (WRun i) RSleep got)) as [y|] eqn:E; [by exists y; apply step_writer|].
    unfold writer_step in E. cbn [sys_w sys_pipe] in E. rewrite Hrun in E.
    destruct (decide _); [done|]. by destruct (negb _).
  - specialize (Hws i eq_refl). by rewrite Eq in Hws.
  - eexists. by apply step_writer.
Qed.

(** C24. A pipe delivers and terminates.  A writer that writes the bytes [addr] to
    a pipe and closes it, and a reader that reads pieces of any size until it
    gets 0, take at most [3 * length addr + 7] steps together, in every
    interleaving: sleeping and waking cannot go on for ever.  In every state
    reached the bytes read followed by those in the circular buffer are the
    first bytes of [addr], not both sides are asleep, and as long as the reader
    has not seen the end one of the two can run; when it has, it has read exactly
    [addr]. *)
Theorem pipe_delivers addr data k x : length data = 512%nat →
  nsteps (pipe_step addr) k (psys0 data) x →
  (k ≤ 3 * length addr + 7)%nat ∧
  (∃ rest, sys_got x ++ queue (sys_pipe x) ++ rest = addr) ∧
  (sys_r x ≠ REof → ∃ y, pipe_step addr x y) ∧
  (sys_r x = REof → sys_got x = addr).
Proof.
  intros Hd Hsteps.
  assert (Hgen : ∀ k x y, nsteps (pipe_step addr) k x y → psys_ok addr x →
    psys_ok addr y ∧ (k + pmeasure addr y ≤ pmeasure addr x)%nat).
  { induction 1 as [z|m z z' z'' Hs _ IH]; intros Hok; [split; [done|lia]|].
    assert (Hz : psys_ok addr z' ∧ (pmeasure addr z' < pmeasure addr z)%nat)
      by (destruct Hs; [by apply writer_step_ok|by eapply reader_step_ok]).
    destruct Hz as [Hok' Hlt]. destruct (IH Hok') as [? ?]. split; [done|lia]. }
  destruct (Hgen k _ x Hsteps (psys0_ok addr data Hd)) as [Hok Hm]. split_and!.
  - unfold pmeasure in Hm at 2. cbn in Hm. lia.
  - exists (drop (wpos addr (sys_w x)) addr). rewrite app_assoc, (ps_fifo _ _ Hok). apply take_drop.
  - by apply psys_progress.
  - intros E. by destruct (ps_eof _ _ Hok E).
Qed.

(** One step of a pipe with one byte. *)
Lemma pipe_delivers_witness : ∃ x, nsteps (pipe_step [42]) 1 (psys0 (replicate 512 0)) x ∧
  (1 ≤ 3 * 1 + 7)%nat ∧ (∃ rest, sys_got x ++ queue (sys_pipe x) ++ rest = [42]) ∧
  (sys_r x ≠ REof → ∃ y, pipe_step [42] x y) ∧ (sys_r x = REof → sys_got x = [42]).
Proof.
  eexists. assert (Hs : nsteps (pipe_step [42]) 1 (psys0 (replicate 512 0))
    (Psys (put_byte 42 (new_pipe (replicate 512 0))) WDone RRun [])).
  { eapply nsteps_l; [apply step_writer; reflexivity|apply nsteps_O]. }
  split; [exact Hs|]. apply (pipe_delivers [42] (replicate 512 0) 1 _); [reflexivity|exact Hs].
Defined.

End system.
