(* ===== verification/File.v ===== *)
(** Open files: file.c, and the allocation of a pipe

    A pointer to a struct file is its index in [ftable.file], a pointer to a
    pipe the address of its page.  The page allocator is reached through the
    interface [page_ops]; [killed] is the flag of the current process.  A call
    that has to wait in a pipe ends in [Blocked]. *)

From stdpp Require Import gmap list numbers strings.
From Stdlib Require Import ZArith Lia.
From S2P Require Import Prelude Memlayout Block Bio Log Fs Pipe.

(** What pipe.c calls in kalloc.c. *)
Class page_ops (E : Type) := PageOps {
  pg_kalloc : M E Z;
  pg_kfree : Z → M E unit
}.

Inductive ftype := FD_NONE | FD_PIPE | FD_INODE.
#[global] Instance ftype_eq_dec : EqDecision ftype.
Proof. solve_decision. Defined.

Record file := File {
  f_type : ftype;
  f_ref : Z;
  f_readable : bool;
  f_writable : bool;
  f_pipe : Z;
  f_ip : nat;
  f_off : Z
}.

Definition zero_file : file := File FD_NONE 0 false false 0 0 0.

Definition set_fref (r : Z) (f : file) : file :=
  File (f_type f) r (f_readable f) (f_writable f) (f_pipe f) (f_ip f) (f_off f).
Definition set_foff (o : Z) (f : file) : file :=
  File (f_type f) (f_ref f) (f_readable f) (f_writable f) (f_pipe f) (f_ip f) o.
Definition set_fpipe (readable writable : bool) (p : Z) (f : file) : file :=
  File FD_PIPE (f_ref f) readable writable p (f_ip f) (f_off f).
Definition set_finode (readable writable : bool) (ip : nat) (f : file) : file :=
  File FD_INODE (f_ref f) readable writable (f_pipe f) ip 0.

Record kfs (E : Type) := Kfs {
  kf_fs : fst_st;
  kf_table : list file;
  kf_pipes : gmap Z pipe;
  kf_woken : list (Z * pchan);
  kf_ext : E
}.
Arguments Kfs {E}.
Arguments kf_fs {E}.
Arguments kf_table {E}.
Arguments kf_pipes {E}.
Arguments kf_woken {E}.
Arguments kf_ext {E}.

Section file.
Context {E : Type} `{page_ops E}.
Variables (me : Z) (killed : bool).
Variable dev_read : Z → option (nat → Z → M fst_st (Z * list Z)).
Variable dev_write : Z → option (nat → list Z → M fst_st Z).

Definition on_fs {A} (m : M fst_st A) : M (kfs E) A :=
  zoom kf_fs (λ x s, Kfs x (kf_table s) (kf_pipes s) (kf_woken s) (kf_ext s)) m.
Definition on_page {A} (m : M E A) : M (kfs E) A :=
  zoom kf_ext (λ x s, Kfs (kf_fs s) (kf_table s) (kf_pipes s) (kf_woken s) x) m.
Definition set_ftable (t : list file) (s : kfs E) : kfs E :=
  Kfs (kf_fs s) t (kf_pipes s) (kf_woken s) (kf_ext s).
Definition file_at (f : nat) : M (kfs E) file := o <- gets (λ s, kf_table s !! f) ;; deref o.
Definition upd_file (f : nat) (g : file → file) : M (kfs E) unit :=
  modify (λ s, set_ftable (alter g f (kf_table s)) s).
Definition set_pipe (p : Z) (x : pipe) : M (kfs E) unit :=
  modify (λ s, Kfs (kf_fs s) (kf_table s) (<[p := x]> (kf_pipes s)) (kf_woken s) (kf_ext s)).
Definition drop_pipe (p : Z) : M (kfs E) unit :=
  modify (λ s, Kfs (kf_fs s) (kf_table s) (delete p (kf_pipes s)) (kf_woken s) (kf_ext s)).

(** An operation on the pipe at address [p]. *)
Definition on_pipe {A} (p : Z) (m : M pipe_st A) : M (kfs E) A :=
  o <- gets (λ s, kf_pipes s !! p) ;;
  x <- deref o ;;
  λ s, match m (PipeSt x []) with
       | Ok a y => Ok a (Kfs (kf_fs s) (kf_table s) (<[p := the_pipe y]> (kf_pipes s))
                             (kf_woken s ++ ((λ c, (p, c)) <$> pwoken y)) (kf_ext s))
       | Err e y => Err e s
       end.

(** The loop of [filealloc]: the first entry without references. *)
Fixpoint ffree (l : list file) (i : nat) : option nat :=
  match l with
  | [] => None
  | f :: l' => if f_ref f =? 0 then Some i else ffree l' (S i)
  end.

Definition filealloc : M (kfs E) (option nat) :=
  t <- gets kf_table ;;
  match ffree t 0 with
  | Some f => upd_file f (set_fref 1) ;;; ret (Some f)
  | None => ret None
  end.

Definition filedup (f : nat) : M (kfs E) nat :=
  x <- file_at f ;;
  if f_ref x <? 1 then panic "filedup"
  else upd_file f (set_fref (f_ref x + 1)) ;;; ret f.

(** [pipeclose] with the freeing of the page. *)
Definition close_pipe (p : Z) (writable : bool) : M (kfs E) unit :=
  b <- on_pipe p (pipeclose writable) ;;
  if b : bool then drop_pipe p ;;; on_page (pg_kfree p) else ret tt.

Definition fileclose (f : nat) : M (kfs E) unit :=
  x <- file_at f ;;
  if f_ref x <? 1 then panic "fileclose"
  else
    upd_file f (set_fref (f_ref x - 1)) ;;;
    if 0 <? f_ref x - 1 then ret tt
    else
      upd_file f (λ y, File FD_NONE 0 (f_readable y) (f_writable y) (f_pipe y) (f_ip y) (f_off y)) ;;;
      match f_type x with
      | FD_PIPE => close_pipe (f_pipe x) (f_writable x)
      | FD_INODE => on_fs (on_log begin_op) ;;; on_fs (iput me (f_ip x)) ;;; on_fs (on_log end_op)
      | FD_NONE => ret tt
      end.

(** The label [bad] of [pipealloc]. *)
Definition pipealloc_bad (f0 f1 : option nat) : M (kfs E) (option (nat * nat)) :=
  match f0 with Some f => fileclose f | None => ret tt end ;;;
  match f1 with Some f => fileclose f | None => ret tt end ;;;
  ret None.

(** [pipealloc]: the two files; [data] is what the new page holds. *)
Definition pipealloc (data : list Z) : M (kfs E) (option (nat * nat)) :=
  f0 <- filealloc ;;
  match f0 with
  | None => pipealloc_bad None None
  | Some r =>
      f1 <- filealloc ;;
      match f1 with
      | None => pipealloc_bad (Some r) None
      | Some w =>
          p <- on_page pg_kalloc ;;
          if p =? 0 then pipealloc_bad (Some r) (Some w)
          else
            set_pipe p (new_pipe data) ;;;
            upd_file r (set_fpipe true false p) ;;;
            upd_file w (set_fpipe false true p) ;;;
            ret (Some (r, w))
      end
  end.

Definition filestat (f : nat) : M (kfs E) (option stat) :=
  x <- file_at f ;;
  match f_type x with
  | FD_INODE =>
      on_fs (ilock me (f_ip x)) ;;;
      st <- on_fs (stati (f_ip x)) ;;
      on_fs (iunlock me (f_ip x)) ;;;
      ret (Some st)
  | _ => ret None
  end.

(** [fileread]: the result and the bytes stored at [addr]. *)
Definition fileread (f : nat) (n : Z) : M (kfs E) (Z * list Z) :=
  x <- file_at f ;;
  if negb (f_readable x) then ret (-1, [])
  else
    match f_type x with
    | FD_PIPE =>
        r <- on_pipe (f_pipe x) (piperead killed n) ;;
        match r with
        | Done v => ret v
        | Sleeping _ => fail (Blocked "piperead")
        end
    | FD_INODE =>
        on_fs (ilock me (f_ip x)) ;;;
        ' (r, bs) <- on_fs (readi dev_read (f_ip x) (f_off x) (u32 n)) ;;
        (if 0 <? r then upd_file f (λ y, set_foff (u32 (f_off y + r)) y) else ret tt) ;;;
        on_fs (iunlock me (f_ip x)) ;;;
        ret (r, bs)
    | FD_NONE => panic "fileread"
    end.

(** The bytes one transaction of [filewrite] may write. *)
Definition filewrite_max : Z := ((MAXOPBLOCKS - 1 - 1 - 2) / 2) * 512.

(** The loop of [filewrite]; it returns the number of bytes written. *)
Fixpoint filewrite_loop (fuel : nat) (f : nat) (addr : list Z) (i n : Z) : M (kfs E) Z :=
  if i <? n then
    match fuel with
    | O => fail NoFuel
    | S fuel' =>
        let n1 := if filewrite_max <? n - i then filewrite_max else n - i in
        on_fs (on_log begin_op) ;;;
        x <- file_at f ;;
        on_fs (ilock me (f_ip x)) ;;;
        r <- on_fs (writei dev_write (f_ip x) (take (Z.to_nat n1) (drop (Z.to_nat i) addr)) (f_off x) n1) ;;
        (if 0 <? r then upd_file f (λ y, set_foff (u32 (f_off y + r)) y) else ret tt) ;;;
        on_fs (iunlock me (f_ip x)) ;;;
        on_fs (on_log end_op) ;;;
        if r <? 0 then ret i
        else if negb (r =? n1) then panic "short filewrite"
        else filewrite_loop fuel' f addr (i + r) n
    end
  else ret i.

Definition filewrite (f : nat) (addr : list Z) (n : Z) : M (kfs E) Z :=
  x <- file_at f ;;
  if negb (f_writable x) then ret (-1)
  else
    match f_type x with
    | FD_PIPE =>
        r <- on_pipe (f_pipe x) (pipewrite killed (take (Z.to_nat n) addr) 0) ;;
        match r with
        | Done v => ret v
        | Sleeping _ => fail (Blocked "pipewrite")
        end
    | FD_INODE =>
        i <- filewrite_loop (S (Z.to_nat (n / filewrite_max))) f addr 0 n ;;
        ret (if i =? n then n else -1)
    | FD_NONE => panic "filewrite"
    end.

End file.
