(* ===== verification/Syscall.v ===== *)
(** System call arguments and the dispatch of system calls: syscall.c

    The kernel reads the arguments of a system call from the user's stack with
    the process's own page table loaded; [u_mem] is the memory it sees there.
    A function that stores through a pointer and returns 0 or -1 is an
    [option].  The fetched pointers are 32-bit unsigned values. *)

From stdpp Require Import gmap list numbers strings.
From Stdlib Require Import ZArith Lia.
From S2P Require Import Prelude Mem Memlayout.

(** The process in a system call: its memory, [sz], the user's [tf->esp],
    [ofile] and [cwd]. *)
Record uproc := UProc {
  u_mem : mem;
  u_sz : Z;
  u_esp : Z;
  u_ofile : list (option nat);
  u_cwd : nat
}.

Definition fetchint (u : uproc) (addr : Z) : option Z :=
  if (u_sz u <=? addr) || (u_sz u <? u32 (addr + 4)) then None
  else Some (s32 (ld32 (u_mem u) addr)).

(** The loop of [fetchstr]: [n] bytes are left below [ep], [len] were passed. *)
Fixpoint fetchstr_loop (m : mem) (s : Z) (n : nat) (len : Z) : option Z :=
  match n with
  | O => None
  | S n' => if ld8 m s =? 0 then Some len else fetchstr_loop m (s + 1) n' (len + 1)
  end.

(** [fetchstr]: the pointer [*pp] and the length that is returned. *)
Definition fetchstr (u : uproc) (addr : Z) : option (Z * Z) :=
  if u_sz u <=? addr then None
  else
    match fetchstr_loop (u_mem u) addr (Z.to_nat (u_sz u - addr)) 0 with
    | Some len => Some (addr, len)
    | None => None
    end.

Definition argint (u : uproc) (n : Z) : option Z := fetchint u (u32 (u_esp u + 4 + 4 * n)).

Definition argptr (u : uproc) (n size : Z) : option Z :=
  match argint u n with
  | None => None
  | Some i =>
      if (size <? 0) || (u_sz u <=? u32 i) || (u_sz u <? u32 (u32 i + size)) then None
      else Some (u32 i)
  end.

Definition argstr (u : uproc) (n : Z) : option (Z * Z) :=
  match argint u n with
  | None => None
  | Some addr => fetchstr u (u32 addr)
  end.

(** The entries of the table [syscalls]. *)
Inductive sysname :=
| Sys_fork | Sys_exit | Sys_wait | Sys_pipe | Sys_read | Sys_kill | Sys_exec | Sys_fstat
| Sys_chdir | Sys_dup | Sys_getpid | Sys_sbrk | Sys_sleep | Sys_uptime | Sys_open | Sys_write
| Sys_mknod | Sys_unlink | Sys_link | Sys_mkdir | Sys_close
| Sys_treebalanced | Sys_gettreeinfo | Sys_getprocinfo | Sys_gettreenodes.
#[global] Instance sysname_eq_dec : EqDecision sysname.
Proof. solve_decision. Defined.

(** The numbers of syscall.h. *)
Definition sysnum (f : sysname) : Z :=
  match f with
  | Sys_fork => 1 | Sys_exit => 2 | Sys_wait => 3 | Sys_pipe => 4 | Sys_read => 5
  | Sys_kill => 6 | Sys_exec => 7 | Sys_fstat => 8 | Sys_chdir => 9 | Sys_dup => 10
  | Sys_getpid => 11 | Sys_sbrk => 12 | Sys_sleep => 13 | Sys_uptime => 14 | Sys_open => 15
  | Sys_write => 16 | Sys_mknod => 17 | Sys_unlink => 18 | Sys_link => 19 | Sys_mkdir => 20
  | Sys_close => 21 | Sys_treebalanced => 22 | Sys_gettreeinfo => 23 | Sys_getprocinfo => 24
  | Sys_gettreenodes => 25
  end.

(** The initialisers of the table, in the order of the source. *)
Definition syscall_table : list sysname :=
  [Sys_fork; Sys_exit; Sys_wait; Sys_pipe; Sys_read; Sys_kill; Sys_exec; Sys_fstat; Sys_chdir;
   Sys_dup; Sys_getpid; Sys_sbrk; Sys_sleep; Sys_uptime; Sys_open; Sys_write; Sys_mknod;
   Sys_unlink; Sys_link; Sys_mkdir; Sys_close; Sys_gettreeinfo; Sys_getprocinfo;
   Sys_gettreenodes; Sys_treebalanced].

(** The array: entry 0 has no initialiser, and its size is one more than the
    greatest number. *)
Definition syscalls : list (option sysname) :=
  foldl (λ t f, <[Z.to_nat (sysnum f) := Some f]> t)
    (replicate (S (foldr Nat.max 0%nat ((λ f, Z.to_nat (sysnum f)) <$> syscall_table))) None)
    syscall_table.

(** [syscall]: the handler that [eax] selects runs and its result is the new
    [eax]; otherwise the new [eax] is -1. *)
Definition syscall {S : Type} (handler : sysname → M S Z) (eax : Z) : M S Z :=
  let num := s32 eax in
  if (0 <? num) && (num <? Z.of_nat (length syscalls)) then
    match syscalls !! Z.to_nat num with
    | Some (Some f) => r <- handler f ;; ret (u32 r)
    | _ => ret (u32 (-1))
    end
  else ret (u32 (-1)).

(** ** Properties *)

(** A process's memory ends below the kernel. *)
Record uproc_ok (u : uproc) : Prop := {
  uk_sz : 0 ≤ u_sz u ≤ KERNBASE;
  uk_esp : 0 ≤ u_esp u < 4294967296
}.

(** The string of length [len] at [p]. *)
Definition is_string (m : mem) (p len : Z) : Prop :=
  0 ≤ len ∧ (∀ i, 0 ≤ i < len → ld8 m (p + i) ≠ 0) ∧ ld8 m (p + len) = 0.

Section args.
Implicit Types (u : uproc) (m : mem).

Lemma fetchstr_loop_spec n : ∀ m s k len,
  fetchstr_loop m s n k = Some len ↔ is_string m s (len - k) ∧ len - k < Z.of_nat n.
Proof.
  unfold is_string. induction n as [|n IH]; intros m s k len; simpl; [split; [done|lia]|].
  destruct (Z.eqb_spec (ld8 m s) 0) as [E|E].
  - split.
    + intros [= ->]. rewrite Z.sub_diag, Z.add_0_r. split_and!; [lia|intros; lia|done|lia].
    + intros ((? & Hnz & _) & _). f_equal. destruct (decide (k = len)) as [|Hne]; [done|].
      exfalso. apply (Hnz 0); [lia|]. by rewrite Z.add_0_r.
  - rewrite IH. split.
    + intros ((? & Hnz & Hz) & ?). split_and!; [lia| |by replace (s + (len - k)) with (s + 1 + (len - (k + 1))) by lia|lia].
      intros i Hi. destruct (decide (i = 0)) as [->|]; [by rewrite Z.add_0_r|].
      replace (s + i) with (s + 1 + (i - 1)) by lia. apply Hnz. lia.
    + intros ((? & Hnz & Hz) & ?).
      assert (len - k ≠ 0) by (intros E0; rewrite E0, Z.add_0_r in Hz; done).
      split_and!; [lia| |by replace (s + 1 + (len - (k + 1))) with (s + (len - k)) by lia|lia].
      intros i Hi. replace (s + 1 + i) with (s + (i + 1)) by lia. apply Hnz. lia.
Qed.

Lemma fetchint_spec u addr v : uproc_ok u → 0 ≤ addr < 4294967296 →
  fetchint u addr = Some v ↔ addr + 4 ≤ u_sz u ∧ v = s32 (ld32 (u_mem u) addr).
Proof.
  intros [Hsz _] Ha. unfold fetchint, KERNBASE in *.
  destruct (Z.leb_spec (u_sz u) addr) as [|H]; simpl; [split; [done|lia]|].
  rewrite (u32_small (addr + 4)) by lia.
  destruct (Z.ltb_spec (u_sz u) (addr + 4)); [split; [done|lia]|].
  split; [by intros [= <-]|]. by intros [_ ->].
Qed.

Lemma fetchstr_spec u addr p len : 0 ≤ addr →
  fetchstr u addr = Some (p, len) ↔ p = addr ∧ is_string (u_mem u) addr len ∧ addr + len < u_sz u.
Proof.
  intros Ha. unfold fetchstr. destruct (Z.leb_spec (u_sz u) addr) as [|H].
  { split; [done|]. intros (_ & (? & _) & ?). lia. }
  pose proof (fetchstr_loop_spec (Z.to_nat (u_sz u - addr)) (u_mem u) addr 0) as Hl.
  destruct (fetchstr_loop _ _ _ _) as [l|]; setoid_rewrite Z.sub_0_r in Hl.
  - split.
    + intros [= <- <-]. destruct (proj1 (Hl l) eq_refl). split_and!; [done|done|lia].
    + intros (-> & Hs & Hb). assert (Some l = Some len) as [= ->]; [|done].
      apply Hl. split; [done|lia].
  - split; [done|]. intros (-> & Hs & Hb).
    assert (None = Some len) as [=]. apply Hl. split; [done|lia].
Qed.

Lemma argptr_spec u n size p : uproc_ok u → -2147483648 ≤ size < 2147483648 →
  argptr u n size = Some p ↔
  0 ≤ size ∧ p < u_sz u ∧ p + size ≤ u_sz u ∧ ∃ v, argint u n = Some v ∧ p = u32 v.
Proof.
  intros [Hsz _] Hsize. unfold argptr, KERNBASE in *. destruct (argint u n) as [v|]; [|naive_solver].
  pose proof (u32_range v).
  destruct (Z.ltb_spec size 0); simpl; [split; [done|lia]|].
  destruct (Z.leb_spec (u_sz u) (u32 v)); simpl; [split; [done|]; intros (_&?&_&?&[= <-]& ->); lia|].
  rewrite (u32_small (u32 v + size)) by lia.
  destruct (Z.ltb_spec (u_sz u) (u32 v + size)); [split; [done|]; intros (_&_&?&?&[= <-]& ->); lia|].
  split; [intros [= <-]; eauto 10 with lia|]. by intros (_&_&_&?&[= <-]& ->).
Qed.

End args.

(** C23. The kernel never follows a user pointer out of the process, and it
    accepts every argument that lies inside.  With [sz] at most KERNBASE the
    32-bit comparisons of the code decide the ranges exactly: [argint] succeeds
    iff the argument's slot ends at or below [sz] and gives the word there;
    [argptr] succeeds iff [p, p + size) lies in the process, p itself below
    [sz], whatever the signed [size] is; [argstr] succeeds iff the bytes at p
    form a string whose terminator is below [sz], and it returns the string's
    length. *)
Theorem user_arguments_in_bounds (u : uproc) (n : Z) : uproc_ok u →
  let slot := u32 (u_esp u + 4 + 4 * n) in
  (∀ v, argint u n = Some v ↔ slot + 4 ≤ u_sz u ∧ v = s32 (ld32 (u_mem u) slot)) ∧
  (∀ size p, -2147483648 ≤ size < 2147483648 →
     argptr u n size = Some p ↔
     slot + 4 ≤ u_sz u ∧ p = ld32 (u_mem u) slot ∧ 0 ≤ size ∧ p < u_sz u ∧ p + size ≤ u_sz u) ∧
  (∀ p len, argstr u n = Some (p, len) ↔
     slot + 4 ≤ u_sz u ∧ p = ld32 (u_mem u) slot ∧ is_string (u_mem u) p len ∧ p + len < u_sz u).
Proof.
  intros Hu slot. assert (Hslot : 0 ≤ slot < 4294967296) by apply u32_range.
  assert (Hv : u32 (s32 (ld32 (u_mem u) slot)) = ld32 (u_mem u) slot).
  { pose proof (ld32_range (u_mem u) slot). zlia. }
  assert (Hint : ∀ v, argint u n = Some v ↔ slot + 4 ≤ u_sz u ∧ v = s32 (ld32 (u_mem u) slot)).
  { intros v. by apply fetchint_spec. }
  split; [done|]. split.
  - intros size p Hsize. rewrite argptr_spec by done. setoid_rewrite Hint. split.
    + intros (?&?&?&v&[? ->]& ->). by rewrite Hv in *.
    + intros (?& -> &?&?&?). eauto 10 using eq_sym.
  - intros p len. unfold argstr. destruct (argint u n) as [v|].
    + destruct (proj1 (Hint v) eq_refl) as [? ->]. rewrite Hv, fetchstr_spec by apply ld32_range.
      naive_solver.
    + split; [done|]. intros (Hb & _).
      assert (None = Some (s32 (ld32 (u_mem u) slot))) as [=]. by apply Hint.
Qed.

(** A process of 8 KB whose first argument points to the string "ab". *)
Definition demo_uproc : uproc :=
  UProc (store_bytes (st32 ∅ 8184 8000) 8000 [97; 98; 0]) 8192 8180 (replicate 16 None) 0.

Lemma user_arguments_in_bounds_witness :
  uproc_ok demo_uproc ∧ argint demo_uproc 0 = Some 8000 ∧ argptr demo_uproc 0 193 = None ∧
  argstr demo_uproc 0 = Some (8000, 2).
Proof.
  assert (Hu : uproc_ok demo_uproc) by (split; vm_compute; split; congruence).
  destruct (user_arguments_in_bounds demo_uproc 0 Hu) as (H1 & H2 & H3).
  split_and!; [done|apply H1; split; vm_compute; congruence|vm_compute; reflexivity|].
  apply H3. split_and!; [vm_compute; congruence|vm_compute; reflexivity| |vm_compute; reflexivity].
  split_and!; [lia| |vm_compute; reflexivity].
  intros i Hi. assert (i = 0 ∨ i = 1) as [-> | ->] by lia; vm_compute; congruence.
Defined.

(** The dispatch of system calls: the number of every entry of the table
    selects that entry's handler, whose result is returned in [eax]; every
    other value of [eax], 0 and values that are negative as an [int] included,
    changes nothing and returns -1. *)
Theorem syscall_dispatch {S : Type} (handler : sysname → M S Z) (eax : Z) (s : S) :
  (∀ f, eax = sysnum f → syscall handler eax s = (r <- handler f ;; ret (u32 r)) s) ∧
  ((∀ f, s32 eax ≠ sysnum f) → syscall handler eax s = Ok (u32 (-1)) s).
Proof.
  split.
  - intros f ->. by destruct f.
  - intros Hnone. unfold syscall.
    destruct ((0 <? s32 eax) && (s32 eax <? Z.of_nat (length syscalls))) eqn:E; [|done].
    apply andb_true_iff in E as [E1 E2]. apply Z.ltb_lt in E1, E2.
    destruct (syscalls !! Z.to_nat (s32 eax)) as [[f|]|] eqn:El; [|done..].
    exfalso. apply (Hnone f).
    assert (Hall : Forall (λ i, ∀ g, syscalls !! i = Some (Some g) → Z.of_nat i = sysnum g) (seq 0 26)).
    { repeat constructor; intros g Hg; vm_compute in Hg; by simplify_eq. }
    rewrite Forall_forall in Hall. specialize (Hall (Z.to_nat (s32 eax))).
    rewrite <-(Hall ltac:(apply elem_of_seq; change (length syscalls) with 26%nat in E2; lia) f El). lia.
Qed.

Lemma syscall_dispatch_witness :
  syscall (S := nat) (λ f, if decide (f = Sys_getpid) then ret 7 else panic "other") 11 0%nat = Ok 7 0%nat ∧
  syscall (S := nat) (λ f, panic "handler") 26 0%nat = Ok 4294967295 0%nat.
Proof.
  split.
  - rewrite (proj1 (syscall_dispatch _ 11 0%nat) Sys_getpid) by done. done.
  - apply (proj2 (syscall_dispatch (λ f, panic "handler") 26 0%nat)). by intros [].
Defined.
