(* ===== verification/Sysfile.v ===== *)
(** File system calls: sysfile.c

    The state is the open-file layer (File.v) and the calling process
    ([Syscall.uproc]); every handler fetches its own arguments from the user
    stack.  A handler returns the value that goes into [eax]. *)

From stdpp Require Import gmap list numbers strings.
From Stdlib Require Import ZArith Lia.
From S2P Require Import Prelude Mem Memlayout StringC Block Bio Log Fs Pipe File Syscall.

(** fcntl.h *)
Definition O_RDONLY : Z := 0.
Definition O_WRONLY : Z := 1.
Definition O_RDWR : Z := 2.
Definition O_CREATE : Z := 512.

(** The names of a directory and of its parent. *)
Definition str_dot : list Z := [46; 0].
Definition str_dotdot : list Z := [46; 46; 0].

Record sysst (E : Type) := Sys { sy_k : kfs E; sy_u : uproc }.
Arguments Sys {E}.
Arguments sy_k {E}.
Arguments sy_u {E}.

Section sysfile.
Context {E : Type} `{page_ops E}.
Variables (me : Z) (killed : bool).
Variable dev_read : Z → option (nat → Z → M fst_st (Z * list Z)).
Variable dev_write : Z → option (nat → list Z → M fst_st Z).
Variable name0 : list Z.   (* what the uninitialised array [name] holds *)

Abbreviation st := (sysst E).

Definition on_k {A} (m : M (kfs E) A) : M st A := zoom sy_k (λ k s, Sys k (sy_u s)) m.
Definition on_f {A} (m : M fst_st A) : M st A := on_k (on_fs m).
Definition op_begin : M st unit := on_f (on_log begin_op).
Definition op_end : M st unit := on_f (on_log end_op).

Definition set_ofd (fd : nat) (f : option nat) : M st unit :=
  modify (λ s, let u := sy_u s in
    Sys (sy_k s) (UProc (u_mem u) (u_sz u) (u_esp u) (<[fd := f]> (u_ofile u)) (u_cwd u))).
Definition set_ucwd (ip : nat) : M st unit :=
  modify (λ s, let u := sy_u s in
    Sys (sy_k s) (UProc (u_mem u) (u_sz u) (u_esp u) (u_ofile u) ip)).
Definition set_umem (m : mem) : M st unit :=
  modify (λ s, let u := sy_u s in
    Sys (sy_k s) (UProc m (u_sz u) (u_esp u) (u_ofile u) (u_cwd u))).

(** The bytes of a fetched string, its terminator included. *)
Definition ustring (u : uproc) (p : Z * Z) : list Z := bytes_at (u_mem u) (p.1) (S (Z.to_nat (p.2))).

(** [argfd]: the descriptor and its file. *)
Definition argfd (u : uproc) (n : Z) : option (nat * nat) :=
  match argint u n with
  | None => None
  | Some fd =>
      if (fd <? 0) || (Z.of_nat NOFILE <=? fd) then None
      else
        match u_ofile u !! Z.to_nat fd with
        | Some (Some f) => Some (Z.to_nat fd, f)
        | _ => None
        end
  end.

(** The loop of [fdalloc]: the first free descriptor. *)
Fixpoint fdfree (l : list (option nat)) (fd : nat) : option nat :=
  match l with
  | [] => None
  | None :: _ => Some fd
  | Some _ :: l' => fdfree l' (S fd)
  end.

Definition fdalloc (f : nat) : M st Z :=
  u <- gets sy_u ;;
  match fdfree (u_ofile u) 0 with
  | Some fd => set_ofd fd (Some f) ;;; ret (Z.of_nat fd)
  | None => ret (-1)
  end.

Definition sys_dup : M st Z :=
  u <- gets sy_u ;;
  match argfd u 0 with
  | None => ret (-1)
  | Some (_, f) =>
      fd <- fdalloc f ;;
      if fd <? 0 then ret (-1) else on_k (filedup f) ;;; ret fd
  end.

(** The arguments of [sys_read] and [sys_write]: file, buffer and length. *)
Definition rw_args (u : uproc) : option (nat * Z * Z) :=
  match argfd u 0, argint u 2 with
  | Some (_, f), Some n =>
      match argptr u 1 n with
      | Some p => Some (f, p, n)
      | None => None
      end
  | _, _ => None
  end.

Definition sys_read : M st Z :=
  u <- gets sy_u ;;
  match rw_args u with
  | None => ret (-1)
  | Some (f, p, n) =>
      ' (r, bs) <- on_k (fileread me killed dev_read f n) ;;
      set_umem (store_bytes (u_mem u) p bs) ;;;
      ret r
  end.

Definition sys_write : M st Z :=
  u <- gets sy_u ;;
  match rw_args u with
  | None => ret (-1)
  | Some (f, p, n) => on_k (filewrite me killed dev_write f (bytes_at (u_mem u) p (Z.to_nat n)) n)
  end.

Definition sys_close : M st Z :=
  u <- gets sy_u ;;
  match argfd u 0 with
  | None => ret (-1)
  | Some (fd, f) => set_ofd fd None ;;; on_k (fileclose me f) ;;; ret 0
  end.

(** struct stat in the user's memory: 20 bytes, with two of padding after each
    of the shorts, which are left as they are. *)
Definition sizeof_stat : Z := 20.
Definition store16 (m : mem) (a v : Z) : mem := st8 (st8 m a v) (a + 1) (v / 256).
Definition store_stat (m : mem) (p : Z) (x : stat) : mem :=
  st32 (store16 (st32 (st32 (store16 m p (st_type x)) (p + 4) (st_dev x)) (p + 8) (st_ino x))
          (p + 12) (st_nlink x)) (p + 16) (st_size x).

Definition sys_fstat : M st Z :=
  u <- gets sy_u ;;
  match argfd u 0, argptr u 1 sizeof_stat with
  | Some (_, f), Some p =>
      r <- on_k (filestat me f) ;;
      match r with
      | Some x => set_umem (store_stat (u_mem u) p x) ;;; ret 0
      | None => ret (-1)
      end
  | _, _ => ret (-1)
  end.

(** [ip->nlink += d] on a short, and [iupdate]. *)
Definition add_nlink (d : Z) (ip : nat) : M st unit :=
  on_f (upd_dinode ip (λ x, set_dnlink (s16 (d_nlink x + d)) x)) ;;;
  on_f (iupdate ip).

(** The label [bad] of [sys_link]. *)
Definition link_bad (ip : nat) : M st Z :=
  on_f (ilock me ip) ;;;
  add_nlink (-1) ip ;;;
  on_f (iunlockput me ip) ;;;
  op_end ;;;
  ret (-1).

Definition sys_link : M st Z :=
  u <- gets sy_u ;;
  match argstr u 0, argstr u 1 with
  | Some old, Some new =>
      op_begin ;;;
      o <- on_f (namei me dev_read (u_cwd u) (ustring u old)) ;;
      match o with
      | None => op_end ;;; ret (-1)
      | Some ip =>
          on_f (ilock me ip) ;;;
          x <- on_f (inode_at ip) ;;
          if d_type (i_d x) =? T_DIR then on_f (iunlockput me ip) ;;; op_end ;;; ret (-1)
          else
            add_nlink 1 ip ;;;
            on_f (iunlock me ip) ;;;
            ' (o, name) <- on_f (nameiparent me dev_read (u_cwd u) (ustring u new) name0) ;;
            match o with
            | None => link_bad ip
            | Some dp =>
                on_f (ilock me dp) ;;;
                y <- on_f (inode_at dp) ;;
                x <- on_f (inode_at ip) ;;
                r <- (if negb (i_dev y =? i_dev x) then ret (-1)
                      else on_f (dirlink me dev_read dev_write dp name (i_inum x))) ;;
                if r <? 0 then on_f (iunlockput me dp) ;;; link_bad ip
                else
                  on_f (iunlockput me dp) ;;;
                  on_f (iput me ip) ;;;
                  op_end ;;;
                  ret 0
            end
      end
  | _, _ => ret (-1)
  end.

(** The loop of [isdirempty]. *)
Fixpoint isdirempty_loop (fuel : nat) (dp : nat) (off : Z) : M st bool :=
  x <- on_f (inode_at dp) ;;
  if off <? d_size (i_d x) then
    match fuel with
    | O => fail NoFuel
    | S fuel' =>
        ' (r, de) <- on_f (readi dev_read dp off sizeof_dirent) ;;
        if negb (r =? sizeof_dirent) then panic "isdirempty: readi"
        else if negb (de_inum de =? 0) then ret false
        else isdirempty_loop fuel' dp (off + sizeof_dirent)
    end
  else ret true.

Definition isdirempty (dp : nat) : M st bool :=
  x <- on_f (inode_at dp) ;;
  isdirempty_loop (dir_fuel (d_size (i_d x))) dp (2 * sizeof_dirent).

(** The label [bad] of [sys_unlink]. *)
Definition unlink_bad (dp : nat) : M st Z := on_f (iunlockput me dp) ;;; op_end ;;; ret (-1).

(** [sys_unlink] once the entry at [off] of [dp] is known to be [ip]. *)
Definition unlink_entry (dp ip : nat) (off : Z) : M st Z :=
  on_f (ilock me ip) ;;;
  x <- on_f (inode_at ip) ;;
  if d_nlink (i_d x) <? 1 then panic "unlink: nlink < 1"
  else
    b <- (if d_type (i_d x) =? T_DIR then isdirempty ip else ret true) ;;
    if negb b then on_f (iunlockput me ip) ;;; unlink_bad dp
    else
      r <- on_f (writei dev_write dp (replicate (Z.to_nat sizeof_dirent) 0) off sizeof_dirent) ;;
      if negb (r =? sizeof_dirent) then panic "unlink: writei"
      else
        (if d_type (i_d x) =? T_DIR then add_nlink (-1) dp else ret tt) ;;;
        on_f (iunlockput me dp) ;;;
        add_nlink (-1) ip ;;;
        on_f (iunlockput me ip) ;;;
        op_end ;;;
        ret 0.

Definition sys_unlink : M st Z :=
  u <- gets sy_u ;;
  match argstr u 0 with
  | None => ret (-1)
  | Some path =>
      op_begin ;;;
      ' (o, name) <- on_f (nameiparent me dev_read (u_cwd u) (ustring u path) name0) ;;
      match o with
      | None => op_end ;;; ret (-1)
      | Some dp =>
          on_f (ilock me dp) ;;;
          c1 <- deref (namecmp name str_dot) ;;
          c2 <- deref (namecmp name str_dotdot) ;;
          if (c1 =? 0) || (c2 =? 0) then unlink_bad dp
          else
            r <- on_f (dirlookup dev_read dp name) ;;
            match r with
            | None => unlink_bad dp
            | Some (ip, off) => unlink_entry dp ip off
            end
      end
  end.

(** [create] when the directory [dp], locked, has no entry [name]. *)
Definition create_new (dp : nat) (name : list Z) (type major minor : Z) : M st nat :=
  y <- on_f (inode_at dp) ;;
  ip <- on_f (ialloc (i_dev y) type) ;;
  on_f (ilock me ip) ;;;
  on_f (upd_dinode ip (λ d, Dinode (d_type d) major minor 1 (d_size d) (d_addrs d))) ;;;
  on_f (iupdate ip) ;;;
  x <- on_f (inode_at ip) ;;
  (if type =? T_DIR then
     add_nlink 1 dp ;;;
     r <- on_f (dirlink me dev_read dev_write ip str_dot (i_inum x)) ;;
     if r <? 0 then panic "create dots"
     else
       r <- on_f (dirlink me dev_read dev_write ip str_dotdot (i_inum y)) ;;
       if r <? 0 then panic "create dots" else ret tt
   else ret tt) ;;;
  r <- on_f (dirlink me dev_read dev_write dp name (i_inum x)) ;;
  if r <? 0 then panic "create: dirlink"
  else on_f (iunlockput me dp) ;;; ret ip.

Definition create (path : list Z) (type major minor : Z) : M st (option nat) :=
  u <- gets sy_u ;;
  ' (o, name) <- on_f (nameiparent me dev_read (u_cwd u) path name0) ;;
  match o with
  | None => ret None
  | Some dp =>
      on_f (ilock me dp) ;;;
      r <- on_f (dirlookup dev_read dp name) ;;
      match r with
      | Some (ip, _) =>
          on_f (iunlockput me dp) ;;;
          on_f (ilock me ip) ;;;
          x <- on_f (inode_at ip) ;;
          if (type =? T_FILE) && (d_type (i_d x) =? T_FILE) then ret (Some ip)
          else on_f (iunlockput me ip) ;;; ret None
      | None => ip <- create_new dp name type major minor ;; ret (Some ip)
      end
  end.

(** The first part of [sys_open]: the inode, locked. *)
Definition open_inode (u : uproc) (path : list Z) (omode : Z) : M st (option nat) :=
  if negb (Z.land omode O_CREATE =? 0) then create path T_FILE 0 0
  else
    o <- on_f (namei me dev_read (u_cwd u) path) ;;
    match o with
    | None => ret None
    | Some ip =>
        on_f (ilock me ip) ;;;
        x <- on_f (inode_at ip) ;;
        if (d_type (i_d x) =? T_DIR) && negb (omode =? O_RDONLY) then
          on_f (iunlockput me ip) ;;; ret None
        else ret (Some ip)
    end.

(** The label of [sys_open] for a full table. *)
Definition open_fail (f : option nat) (ip : nat) : M st Z :=
  match f with Some f => on_k (fileclose me f) | None => ret tt end ;;;
  on_f (iunlockput me ip) ;;;
  op_end ;;;
  ret (-1).

Definition sys_open : M st Z :=
  u <- gets sy_u ;;
  match argstr u 0, argint u 1 with
  | Some path, Some omode =>
      op_begin ;;;
      o <- open_inode u (ustring u path) omode ;;
      match o with
      | None => op_end ;;; ret (-1)
      | Some ip =>
          r <- on_k filealloc ;;
          match r with
          | None => open_fail None ip
          | Some f =>
              fd <- fdalloc f ;;
              if fd <? 0 then open_fail (Some f) ip
              else
                on_f (iunlock me ip) ;;;
                op_end ;;;
                on_k (upd_file f (set_finode (Z.land omode O_WRONLY =? 0)
                        (negb (Z.land omode O_WRONLY =? 0) || negb (Z.land omode O_RDWR =? 0)) ip)) ;;;
                ret fd
          end
      end
  | _, _ => ret (-1)
  end.

(** The end of [sys_mkdir] and [sys_mknod]. *)
Definition finish_create (o : option nat) : M st Z :=
  match o with
  | None => op_end ;;; ret (-1)
  | Some ip => on_f (iunlockput me ip) ;;; op_end ;;; ret 0
  end.

Definition sys_mkdir : M st Z :=
  op_begin ;;;
  u <- gets sy_u ;;
  o <- match argstr u 0 with
       | Some path => create (ustring u path) T_DIR 0 0
       | None => ret None
       end ;;
  finish_create o.

Definition sys_mknod : M st Z :=
  op_begin ;;;
  u <- gets sy_u ;;
  o <- match argstr u 0, argint u 1, argint u 2 with
       | Some path, Some major, Some minor => create (ustring u path) T_DEV (s16 major) (s16 minor)
       | _, _, _ => ret None
       end ;;
  finish_create o.

Definition sys_chdir : M st Z :=
  op_begin ;;;
  u <- gets sy_u ;;
  o <- match argstr u 0 with
       | Some path => on_f (namei me dev_read (u_cwd u) (ustring u path))
       | None => ret None
       end ;;
  match o with
  | None => op_end ;;; ret (-1)
  | Some ip =>
      on_f (ilock me ip) ;;;
      x <- on_f (inode_at ip) ;;
      if negb (d_type (i_d x) =? T_DIR) then on_f (iunlockput me ip) ;;; op_end ;;; ret (-1)
      else
        on_f (iunlock me ip) ;;;
        on_f (iput me (u_cwd u)) ;;;
        op_end ;;;
        set_ucwd ip ;;;
        ret 0
  end.

(** [sys_pipe]; [data] is what the page of the pipe holds. *)
Definition sys_pipe (data : list Z) : M st Z :=
  u <- gets sy_u ;;
  match argptr u 0 8 with
  | None => ret (-1)
  | Some fd =>
      r <- on_k (pipealloc me data) ;;
      match r with
      | None => ret (-1)
      | Some (rf, wf) =>
          fd0 <- fdalloc rf ;;
          fd1 <- (if fd0 <? 0 then ret (-1) else fdalloc wf) ;;
          if (fd0 <? 0) || (fd1 <? 0) then
            (if 0 <=? fd0 then set_ofd (Z.to_nat fd0) None else ret tt) ;;;
            on_k (fileclose me rf) ;;;
            on_k (fileclose me wf) ;;;
            ret (-1)
          else
            set_umem (st32 (st32 (u_mem u) fd fd0) (fd + 4) fd1) ;;;
            ret 0
      end
  end.

End sysfile.

(** The loop of [sys_exec] from entry [i] on, [n] entries of [argv] left: the
    pointers before the null pointer. *)
Fixpoint fetch_argv (u : uproc) (uargv i : Z) (n : nat) : option (list Z) :=
  match n with
  | O => None
  | S n' =>
      match fetchint u (u32 (uargv + 4 * i)) with
      | None => None
      | Some uarg =>
          if uarg =? 0 then Some []
          else
            match fetchstr u (u32 uarg) with
            | None => None
            | Some (p, _) =>
                match fetch_argv u uargv (i + 1) n' with
                | Some l => Some (p :: l)
                | None => None
                end
            end
      end
  end.

(** [sys_exec] up to the call of [exec]: the path and [argv]. *)
Definition sys_exec_args (u : uproc) : option (Z * Z * list Z) :=
  match argstr u 0, argint u 1 with
  | Some path, Some uargv =>
      match fetch_argv u (u32 uargv) 0 MAXARG with
      | Some argv => Some (path, argv)
      | None => None
      end
  | _, _ => None
  end.
