(* ===== verification/SysfileSpec.v ===== *)
(** File descriptors and the reference counts of open files

    The count of an entry of [ftable] is the number of descriptors that refer
    to it: those of the calling process and those of the others.  [refs] is all
    that the invariant sees of the file table. *)

From stdpp Require Import gmap list numbers strings.
From Stdlib Require Import ZArith Lia.
From S2P Require Import Prelude Mem Memlayout Block Bio Log Fs Pipe File Syscall Sysfile.

(** The descriptors of one process that refer to file [f]. *)
Definition fd_count (l : list (option nat)) (f : nat) : Z := Z.of_nat (length (filter (λ o, o = Some f) l)).

(** Counts [rs] that agree with the descriptors [fds] and [others]. *)
Record counted (others : nat → Z) (rs : list Z) (fds : list (option nat)) : Prop := {
  ct_others : ∀ f, 0 ≤ others f;
  ct_count : ∀ f r, rs !! f = Some r → r = others f + fd_count fds f;
  ct_range : ∀ fd f, fds !! fd = Some (Some f) → (f < length rs)%nat
}.

Section counted.
Implicit Types (l : list (option nat)) (f g : nat).

Lemma fd_count_nonneg l f : 0 ≤ fd_count l f.
Proof. unfold fd_count. lia. Qed.

Lemma fd_count_cons o l g : fd_count (o :: l) g = (if decide (o = Some g) then 1 else 0) + fd_count l g.
Proof. unfold fd_count. rewrite filter_cons. case_decide; simpl; lia. Qed.

Lemma fd_count_insert l : ∀ i o o' g, l !! i = Some o →
  fd_count (<[i := o']> l) g =
  fd_count l g - (if decide (o = Some g) then 1 else 0) + (if decide (o' = Some g) then 1 else 0).
Proof.
  induction l as [|x l IH]; intros [|i] o o' g Hi; simplify_eq/=; rewrite !fd_count_cons; [lia|].
  rewrite (IH _ _ _ _ Hi). lia.
Qed.

Lemma fd_count_lookup l fd f : l !! fd = Some (Some f) → 1 ≤ fd_count l f.
Proof.
  intros Hl. pose proof (fd_count_insert l fd _ None f Hl) as Hc.
  rewrite decide_True, decide_False in Hc by done. pose proof (fd_count_nonneg (<[fd:=None]> l) f). lia.
Qed.

(** A new descriptor for [f]. *)
Lemma counted_add others rs l f r fd : counted others rs l → rs !! f = Some r → l !! fd = Some None →
  counted others (<[f := r + 1]> rs) (<[fd := Some f]> l).
Proof.
  intros [Ho Hc Hr] Hf Hfd. split; [done| |].
  - intros g r'. rewrite (fd_count_insert _ _ _ _ _ Hfd), list_lookup_insert. case_decide as Hd.
    + destruct Hd as [<- _]. intros [= <-]. rewrite !decide_False, decide_True by done.
      rewrite (Hc _ _ Hf). lia.
    + intros Hg. rewrite decide_False by done. rewrite decide_False; [rewrite (Hc _ _ Hg); lia|].
      intros [= ->]. apply Hd. split; [done|]. by eapply lookup_lt_Some.
  - intros i g. rewrite list_lookup_insert, length_insert. case_decide as Hd; [|apply Hr].
    intros [= <-]. by eapply lookup_lt_Some.
Qed.

(** A descriptor of [f] that is closed. *)
Lemma counted_del others rs l f r fd : counted others rs l → rs !! f = Some r → l !! fd = Some (Some f) →
  counted others (<[f := r - 1]> rs) (<[fd := None]> l).
Proof.
  intros [Ho Hc Hr] Hf Hfd. split; [done| |].
  - intros g r'. rewrite (fd_count_insert _ _ _ _ _ Hfd), list_lookup_insert.
    rewrite (decide_False (P := None = Some g)) by done. case_decide as Hd.
    + destruct Hd as [<- _]. intros [= <-]. rewrite decide_True by done. rewrite (Hc _ _ Hf). lia.
    + intros Hg. rewrite decide_False; [rewrite (Hc _ _ Hg); lia|].
      intros [= ->]. apply Hd. split; [done|]. by eapply lookup_lt_Some.
  - intros i g. rewrite list_lookup_insert, length_insert. case_decide as Hd; [done|]. apply Hr.
Qed.

(** A descriptor refers to an entry that is in use. *)
Lemma counted_live others rs l fd f : counted others rs l → l !! fd = Some (Some f) →
  ∃ r, rs !! f = Some r ∧ 1 ≤ r.
Proof.
  intros [Ho Hc Hr] Hfd. destruct (lookup_lt_is_Some_2 rs f) as [r Hf]; [by eapply Hr|].
  exists r. split; [done|]. rewrite (Hc _ _ Hf). pose proof (fd_count_lookup _ _ _ Hfd).
  specialize (Ho f). lia.
Qed.

End counted.

Section refs.
Context {E : Type} `{!page_ops E}.
Variables (me : Z) (killed : bool).
Variable dev_read : Z → option (nat → Z → M fst_st (Z * list Z)).
Variable dev_write : Z → option (nat → list Z → M fst_st Z).
Variable name0 : list Z.
Implicit Types (k : kfs E) (s : sysst E) (f : nat).

Definition refs k : list Z := f_ref <$> kf_table k.

(** The invariant: [others] counts the descriptors of the other processes. *)
Definition refs_ok (others : nat → Z) s : Prop := counted others (refs (sy_k s)) (u_ofile (sy_u s)).

(** The handlers of the file system calls. *)
Definition file_handler (data : list Z) (n : sysname) : option (M (sysst E) Z) :=
  match n with
  | Sys_dup => Some sys_dup
  | Sys_read => Some (sys_read me killed dev_read)
  | Sys_write => Some (sys_write me killed dev_write)
  | Sys_close => Some (sys_close me)
  | Sys_fstat => Some (sys_fstat me)
  | Sys_link => Some (sys_link me dev_read dev_write name0)
  | Sys_unlink => Some (sys_unlink me dev_read dev_write name0)
  | Sys_open => Some (sys_open me dev_read dev_write name0)
  | Sys_mkdir => Some (sys_mkdir me dev_read dev_write name0)
  | Sys_mknod => Some (sys_mknod me dev_read dev_write name0)
  | Sys_chdir => Some (sys_chdir me dev_read)
  | Sys_pipe => Some (sys_pipe me data)
  | _ => None
  end.

(** ** Code that leaves the counts alone *)

Definition kkeeps {A} (m : M (kfs E) A) : Prop := ∀ k a k', m k = Ok a k' → refs k' = refs k.
Definition keeps {A} (m : M (sysst E) A) : Prop :=
  ∀ s a s', m s = Ok a s' → refs (sy_k s') = refs (sy_k s) ∧ u_ofile (sy_u s') = u_ofile (sy_u s).

Lemma kkeeps_bind {A B} (m : M (kfs E) A) (c : A → M (kfs E) B) :
  kkeeps m → (∀ a, kkeeps (c a)) → kkeeps (bind m c).
Proof.
  intros Hm Hc k b k'' Hr. apply bind_inv in Hr as (a & k' & H1 & H2).
  rewrite (Hc _ _ _ _ H2). eauto.
Qed.

Lemma keeps_bind {A B} (m : M (sysst E) A) (c : A → M (sysst E) B) :
  keeps m → (∀ a, keeps (c a)) → keeps (bind m c).
Proof.
  intros Hm Hc s b s'' Hr. apply bind_inv in Hr as (a & s' & H1 & H2).
  destruct (Hc _ _ _ _ H2) as [-> ->]. eauto.
Qed.

Lemma kkeeps_ret {A} (a : A) : kkeeps (ret a).
Proof. by intros k ? ? [= <- <-]. Qed.
Lemma keeps_ret {A} (a : A) : keeps (ret a).
Proof. by intros k ? ? [= <- <-]. Qed.
Lemma kkeeps_fail {A} e : kkeeps (A := A) (fail e).
Proof. by intros k ? ?. Qed.
Lemma keeps_fail {A} e : keeps (A := A) (fail e).
Proof. by intros k ? ?. Qed.
Lemma kkeeps_gets {A} (g : kfs E → A) : kkeeps (gets g).
Proof. by intros k ? ? [= <- <-]. Qed.
Lemma keeps_gets {A} (g : sysst E → A) : keeps (gets g).
Proof. by intros k ? ? [= <- <-]. Qed.
Lemma kkeeps_deref {A} (o : option A) : kkeeps (deref o).
Proof. destruct o; [apply kkeeps_ret|apply kkeeps_fail]. Qed.
Lemma keeps_deref {A} (o : option A) : keeps (deref o).
Proof. destruct o; [apply keeps_ret|apply keeps_fail]. Qed.

Lemma kkeeps_on_fs {A} (m : M fst_st A) : kkeeps (on_fs m).
Proof. intros k a k'. unfold on_fs, zoom. destruct (m _); [|done]. by intros [= _ <-]. Qed.
Lemma kkeeps_on_page {A} (m : M E A) : kkeeps (on_page m).
Proof. intros k a k'. unfold on_page, zoom. destruct (m _); [|done]. by intros [= _ <-]. Qed.
Lemma kkeeps_set_pipe p x : kkeeps (set_pipe p x).
Proof. by intros k ? ? [= _ <-]. Qed.
Lemma kkeeps_drop_pipe p : kkeeps (drop_pipe p).
Proof. by intros k ? ? [= _ <-]. Qed.
Lemma kkeeps_on_pipe {A} p (m : M pipe_st A) : kkeeps (on_pipe p m).
Proof.
  unfold on_pipe. apply kkeeps_bind; [apply kkeeps_gets|]. intros o.
  apply kkeeps_bind; [apply kkeeps_deref|]. intros x k a k'. destruct (m _); [|done]. by intros [= _ <-].
Qed.

Lemma kkeeps_upd_file f g : (∀ x, f_ref (g x) = f_ref x) → kkeeps (upd_file f g).
Proof.
  intros Hg k ? ? [= _ <-]. unfold refs. simpl. apply list_eq. intros i. rewrite !list_lookup_fmap.
  rewrite list_lookup_alter. case_decide as Hd; [|done]. subst i.
  destruct (kf_table k !! f); simpl; [by rewrite Hg|done].
Qed.

Lemma keeps_on_k {A} (m : M (kfs E) A) : kkeeps m → keeps (on_k m).
Proof.
  intros Hm s a s'. unfold on_k, zoom. destruct (m (sy_k s)) as [b k'|] eqn:Hk; [|done].
  intros [= _ <-]. simpl. eauto.
Qed.
Lemma keeps_on_f {A} (m : M fst_st A) : keeps (on_f m).
Proof. apply keeps_on_k, kkeeps_on_fs. Qed.
Lemma keeps_set_umem m : keeps (set_umem m).
Proof. by intros s ? ? [= _ <-]. Qed.
Lemma keeps_set_ucwd ip : keeps (set_ucwd ip).
Proof. by intros s ? ? [= _ <-]. Qed.

End refs.

Create HintDb keeps discriminated.
#[export] Hint Resolve kkeeps_bind keeps_bind kkeeps_ret keeps_ret kkeeps_fail keeps_fail kkeeps_gets
  keeps_gets kkeeps_deref keeps_deref kkeeps_on_fs kkeeps_on_page kkeeps_set_pipe kkeeps_drop_pipe
  kkeeps_on_pipe kkeeps_upd_file keeps_on_k keeps_on_f keeps_set_umem keeps_set_ucwd : keeps.

(** Prove that a piece of code keeps the counts, following its structure. *)
Ltac keeps_step :=
  match goal with
  | |- ∀ _, _ => intros
  | |- kkeeps (bind _ _) => apply kkeeps_bind
  | |- keeps (bind _ _) => apply keeps_bind
  | |- keeps (on_k _) => apply keeps_on_k
  | |- kkeeps (panic _) => apply kkeeps_fail
  | |- keeps (panic _) => apply keeps_fail
  | |- context [match ?x with _ => _ end] => destruct x
  | |- _ => solve [auto with keeps]
  end.
Ltac keeps := repeat keeps_step.

Section invariant.
Context {E : Type} `{!page_ops E}.
Variables (me : Z) (killed : bool).
Variable dev_read : Z → option (nat → Z → M fst_st (Z * list Z)).
Variable dev_write : Z → option (nat → list Z → M fst_st Z).
Variable name0 : list Z.
Implicit Types (k : kfs E) (s : sysst E) (f : nat).

Lemma kkeeps_fileread f n : kkeeps (fileread (E := E) me killed dev_read f n).
Proof. unfold fileread, file_at. keeps. Qed.

Lemma kkeeps_filewrite f addr n : kkeeps (filewrite (E := E) me killed dev_write f addr n).
Proof.
  assert (Hl : ∀ fuel i, kkeeps (filewrite_loop (E := E) me dev_write fuel f addr i n)).
  { intros fuel. induction fuel as [|fuel IH]; intros i; simpl; unfold file_at; keeps. }
  unfold filewrite, file_at. keeps.
Qed.

Lemma kkeeps_filestat f : kkeeps (filestat (E := E) me f).
Proof. unfold filestat, file_at. keeps. Qed.

Lemma keeps_create path type major minor :
  keeps (create (E := E) me dev_read dev_write name0 path type major minor).
Proof. unfold create, create_new, add_nlink. keeps. Qed.

Lemma keeps_isdirempty dp : keeps (isdirempty (E := E) dev_read dp).
Proof.
  assert (Hl : ∀ fuel off, keeps (isdirempty_loop (E := E) dev_read fuel dp off)).
  { intros fuel. induction fuel as [|fuel IH]; intros off; simpl; keeps. }
  unfold isdirempty. keeps.
Qed.

(** ** Code that changes the counts *)

Lemma refs_upd_file f g r k : refs k !! f = Some r → (∀ x, f_ref x = r → f_ref (g x) = f_ref (g zero_file)) →
  refs (set_ftable (alter g f (kf_table k)) k) = <[f := f_ref (g zero_file)]> (refs k).
Proof.
  intros Hr Hg. unfold refs in *. simpl. apply list_eq. intros i.
  rewrite list_lookup_fmap, list_lookup_alter, list_lookup_insert, list_lookup_fmap.
  rewrite list_lookup_fmap in Hr. destruct (kf_table k !! f) as [x|] eqn:Hx; [|done]. simplify_eq/=.
  assert (f < length (f_ref <$> kf_table k))%nat by (rewrite length_fmap; by eapply lookup_lt_Some).
  repeat case_decide; simplify_eq/=; try rewrite (Hg x); naive_solver.
Qed.

Lemma file_at_ok f k x k' : file_at f k = Ok x k' → k' = k ∧ kf_table k !! f = Some x ∧ refs k !! f = Some (f_ref x).
Proof.
  unfold file_at, bind, gets, deref, refs. rewrite list_lookup_fmap.
  destruct (kf_table k !! f); [|done]. by intros [= -> ->].
Qed.

Lemma ffree_ok l : ∀ i f, ffree l i = Some f → (i ≤ f)%nat ∧ (f_ref <$> l) !! (f - i)%nat = Some 0.
Proof.
  induction l as [|x l IH]; intros i f; simpl; [done|].
  destruct (Z.eqb_spec (f_ref x) 0) as [E0|].
  - intros [= ->]. rewrite Nat.sub_diag. simpl. split; [lia|by f_equal].
  - intros [? Hf]%IH. split; [lia|]. by replace (f - i)%nat with (S (f - S i)) by lia.
Qed.

Lemma filealloc_refs k o k' : filealloc k = Ok o k' →
  match o with
  | Some f => refs k !! f = Some 0 ∧ refs k' = <[f := 1]> (refs k)
  | None => k' = k
  end.
Proof.
  unfold filealloc. rewrite bind_gets. destruct (ffree (kf_table k) 0) as [f|] eqn:Hf; [|by intros [= <- <-]].
  intros [= <- <-]. apply ffree_ok in Hf as [_ Hf]. rewrite Nat.sub_0_r in Hf.
  split; [done|]. by rewrite (refs_upd_file f (set_fref 1) 0).
Qed.

Lemma filedup_refs f k a k' : filedup f k = Ok a k' →
  ∃ r, refs k !! f = Some r ∧ 1 ≤ r ∧ refs k' = <[f := r + 1]> (refs k).
Proof.
  unfold filedup. intros Hr. apply bind_inv in Hr as (x & k1 & Hx & Hr).
  apply file_at_ok in Hx as (-> & _ & Hx). destruct (Z.ltb_spec (f_ref x) 1); [done|].
  injection Hr as _ <-. exists (f_ref x). split_and!; [done|lia|].
  by rewrite (refs_upd_file f (set_fref (f_ref x + 1)) (f_ref x)).
Qed.

Lemma filedup_total f r k : refs k !! f = Some r → 1 ≤ r →
  ∃ k', filedup f k = Ok f k' ∧ refs k' = <[f := r + 1]> (refs k).
Proof.
  intros Hr Hp. pose proof Hr as Hf. unfold refs in Hf. rewrite list_lookup_fmap in Hf.
  destruct (kf_table k !! f) as [x|] eqn:Hx; [|done]. simplify_eq/=.
  unfold filedup, file_at. rewrite bind_assoc, bind_gets, Hx. simpl. rewrite bind_ret.
  destruct (Z.ltb_spec (f_ref x) 1); [lia|]. unfold upd_file. rewrite bind_modify. eexists. split; [done|].
  by rewrite (refs_upd_file f (set_fref (f_ref x + 1)) (f_ref x)).
Qed.

Lemma kkeeps_close_pipe p w : kkeeps (close_pipe (E := E) p w).
Proof. unfold close_pipe. keeps. Qed.

Lemma fileclose_refs f k a k' : fileclose me f k = Ok a k' →
  ∃ r, refs k !! f = Some r ∧ 1 ≤ r ∧ refs k' = <[f := r - 1]> (refs k).
Proof.
  unfold fileclose. intros Hr. apply bind_inv in Hr as (x & k1 & Hx & Hr).
  apply file_at_ok in Hx as (-> & _ & Hx). destruct (Z.ltb_spec (f_ref x) 1) as [|Hge]; [done|].
  unfold upd_file at 1 in Hr. rewrite bind_modify in Hr.
  set (k1 := set_ftable _ k) in Hr.
  assert (Hk1 : refs k1 = <[f := f_ref x - 1]> (refs k)).
  { unfold k1. by rewrite (refs_upd_file f (set_fref (f_ref x - 1)) (f_ref x)). }
  exists (f_ref x). split_and!; [done|lia|]. rewrite <-Hk1.
  destruct (Z.ltb_spec 0 (f_ref x - 1)); [by injection Hr as _ <-|].
  assert (Hlt : (f < length (refs k))%nat) by (by eapply lookup_lt_Some).
  unfold upd_file in Hr. rewrite bind_modify in Hr.
  match type of Hr with ?m ?k2 = _ =>
    assert (Hk : kkeeps m) by (pose proof kkeeps_close_pipe; keeps);
    assert (Hk2 : refs k2 = refs k1) end.
  { rewrite (refs_upd_file f _ 0); [|by rewrite Hk1, list_lookup_insert_eq; [f_equal; lia|]|done].
    simpl. rewrite Hk1, list_insert_insert_eq. f_equal. lia. }
  by rewrite (Hk _ _ _ Hr).
Qed.

Lemma on_k_inv {A} (m : M (kfs E) A) s a s' : on_k m s = Ok a s' →
  ∃ k', m (sy_k s) = Ok a k' ∧ s' = Sys k' (sy_u s).
Proof. unfold on_k, zoom. destruct (m (sy_k s)); [|done]. intros [= <- <-]. eauto. Qed.

Lemma fdfree_ok l : ∀ i fd, fdfree l i = Some fd → (i ≤ fd)%nat ∧ l !! (fd - i)%nat = Some None.
Proof.
  induction l as [|[f|] l IH]; intros i fd; simpl; [done| |].
  - intros [? Hf]%IH. split; [lia|]. by replace (fd - i)%nat with (S (fd - S i)) by lia.
  - intros [= ->]. by rewrite Nat.sub_diag.
Qed.

(** What [fdalloc] did: nothing, or a free descriptor was taken. *)
Definition fd_taken (f : nat) s (fd : Z) s' : Prop :=
  ∃ i, fd = Z.of_nat i ∧ u_ofile (sy_u s) !! i = Some None ∧ sy_k s' = sy_k s ∧
       u_ofile (sy_u s') = <[i := Some f]> (u_ofile (sy_u s)).

Lemma fdalloc_ok f s fd s' : fdalloc f s = Ok fd s' → fd = -1 ∧ s' = s ∨ fd_taken f s fd s'.
Proof.
  unfold fdalloc. rewrite bind_gets. destruct (fdfree _ 0) as [i|] eqn:Hi.
  - intros [= <- <-]. right. apply fdfree_ok in Hi as [_ Hi]. rewrite Nat.sub_0_r in Hi. by exists i.
  - intros [= <- <-]. by left.
Qed.

Lemma argfd_ok u n fd f : argfd u n = Some (fd, f) → u_ofile u !! fd = Some (Some f).
Proof.
  unfold argfd. destruct (argint u n) as [i|]; [|done]. destruct (_ || _); [done|].
  destruct (u_ofile u !! Z.to_nat i) as [[g|]|] eqn:Hg; [|done..]. by intros [= <- <-].
Qed.

Lemma refs_ok_keeps {A} (m : M (sysst E) A) others s a s' : keeps m → refs_ok others s →
  m s = Ok a s' → refs_ok others s'.
Proof. intros Hm Hs Hr. unfold refs_ok in *. by destruct (Hm _ _ _ Hr) as [-> ->]. Qed.

(** A file that [filealloc] gave and [fileclose] took back. *)
Lemma refs_undo (rs : list Z) f : rs !! f = Some 0 → <[f := 1 - 1]> (<[f := 1]> rs) = rs.
Proof. intros Hf. rewrite list_insert_insert_eq. by apply list_insert_id. Qed.

Lemma sys_dup_refs others s r s' : refs_ok others s → sys_dup s = Ok r s' → refs_ok others s'.
Proof.
  intros Hs. unfold sys_dup. rewrite bind_gets. destruct (argfd _ 0) as [[fd0 f]|]; [|by intros [= _ <-]].
  intros Hr. apply bind_inv in Hr as (fd & s1 & Ha & Hr).
  apply fdalloc_ok in Ha as [[-> ->]|(i & -> & Hi & Hk & Hl)]; [by injection Hr as _ <-|].
  destruct (Z.ltb_spec (Z.of_nat i) 0); [lia|].
  apply bind_inv in Hr as (? & s2 & Hd & [= _ <-]). apply on_k_inv in Hd as (k' & Hd & ->).
  apply filedup_refs in Hd as (n & Hn & _ & Hd). unfold refs_ok. simpl. rewrite Hd, Hk, Hl in *.
  by apply counted_add.
Qed.

Lemma sys_close_refs others s r s' : refs_ok others s → sys_close me s = Ok r s' → refs_ok others s'.
Proof.
  intros Hs. unfold sys_close. rewrite bind_gets. destruct (argfd _ 0) as [[fd f]|] eqn:Hfd; [|by intros [= _ <-]].
  apply argfd_ok in Hfd. unfold set_ofd. rewrite bind_modify. intros Hr.
  apply bind_inv in Hr as (? & s2 & Hd & [= _ <-]). apply on_k_inv in Hd as (k' & Hd & ->).
  apply fileclose_refs in Hd as (n & Hn & _ & Hd). unfold refs_ok. simpl in *. rewrite Hd.
  by apply counted_del.
Qed.

Lemma sys_open_refs others s r s' : refs_ok others s →
  sys_open me dev_read dev_write name0 s = Ok r s' → refs_ok others s'.
Proof.
  intros Hs. unfold sys_open. rewrite bind_gets.
  destruct (argstr _ 0) as [path|]; [|by intros [= _ <-]]. destruct (argint _ 1) as [omode|]; [|by intros [= _ <-]].
  set (u := sy_u s) at 1. clearbody u. intros Hr.
  apply bind_inv in Hr as (? & s1 & H1 & Hr). eapply refs_ok_keeps in Hs; [| |exact H1]; [|apply keeps_on_f].
  apply bind_inv in Hr as (o & s2 & H2 & Hr).
  eapply refs_ok_keeps in Hs; [| |exact H2]; [|pose proof keeps_create; unfold open_inode; keeps].
  clear H1 H2 s s1. destruct o as [ip|]; [|eapply refs_ok_keeps in Hs; [| |exact Hr]; [done|unfold op_end; keeps]].
  apply bind_inv in Hr as (o & s3 & H3 & Hr). apply on_k_inv in H3 as (k3 & H3 & ->).
  apply filealloc_refs in H3. destruct o as [f|].
  2:{ subst k3. eapply refs_ok_keeps in Hr; [done|unfold open_fail, op_end; keeps|by destruct s2]. }
  destruct H3 as [Hf H3].
  apply bind_inv in Hr as (fd & s4 & H4 & Hr).
  apply fdalloc_ok in H4 as [[-> ->]|(i & -> & Hi & Hk & Hl)]; simpl in *.
  - apply bind_inv in Hr as (? & s5 & H5 & Hr). apply on_k_inv in H5 as (k5 & H5 & ->).
    apply fileclose_refs in H5 as (n & Hn & _ & H5). simpl in *.
    eapply refs_ok_keeps in Hr; [done|unfold op_end; keeps|].
    unfold refs_ok in *. simpl. rewrite H3, list_lookup_insert_eq in Hn by (by eapply lookup_lt_Some).
    injection Hn as <-. by rewrite H5, H3, refs_undo.
  - destruct (Z.ltb_spec (Z.of_nat i) 0); [lia|].
    eapply refs_ok_keeps in Hr; [done|unfold op_end; keeps; done|].
    unfold refs_ok in *. rewrite Hk, Hl, H3. by apply (counted_add _ _ _ f 0).
Qed.

(** Both files of a new pipe closed again. *)
Lemma close_both k k1 rf wf k4 k5 a b : rf ≠ wf → refs k !! rf = Some 0 → refs k !! wf = Some 0 →
  refs k1 = <[wf := 1]> (<[rf := 1]> (refs k)) →
  fileclose me rf k1 = Ok a k4 → fileclose me wf k4 = Ok b k5 → refs k5 = refs k.
Proof.
  intros Hne Hrf Hwf Hk1 H4 H5.
  assert (Hl0 : (rf < length (refs k))%nat) by (by eapply lookup_lt_Some).
  assert (Hl1 : (wf < length (<[rf:=1%Z]> (refs k)))%nat) by (rewrite length_insert; by eapply lookup_lt_Some).
  apply fileclose_refs in H4 as (r & Hr0 & _ & H4). apply fileclose_refs in H5 as (r' & Hr1 & _ & H5).
  rewrite Hk1, list_lookup_insert_ne, list_lookup_insert_eq in Hr0 by done. injection Hr0 as <-.
  rewrite H4, list_lookup_insert_ne, Hk1, list_lookup_insert_eq in Hr1 by done. injection Hr1 as <-.
  rewrite H5, H4, Hk1, (list_insert_insert_ne _ rf wf) by done.
  rewrite (refs_undo _ rf) by done. by apply refs_undo.
Qed.

Lemma pipealloc_refs data k o k' : pipealloc me data k = Ok o k' →
  match o with
  | Some (r, w) => r ≠ w ∧ refs k !! r = Some 0 ∧ refs k !! w = Some 0 ∧
                   refs k' = <[w := 1]> (<[r := 1]> (refs k))
  | None => refs k' = refs k
  end.
Proof.
  unfold pipealloc. intros Hr. apply bind_inv in Hr as (f0 & k0 & H0 & Hr).
  apply filealloc_refs in H0. destruct f0 as [f0|]; [|subst; by injection Hr as <- <-].
  destruct H0 as [Hf0 H0]. assert (Hl0 : (f0 < length (refs k))%nat) by (by eapply lookup_lt_Some).
  apply bind_inv in Hr as (f1 & k1 & H1 & Hr). apply filealloc_refs in H1. destruct f1 as [f1|].
  2:{ subst k1. apply bind_inv in Hr as (? & k2 & H2 & [= <- <-]). apply fileclose_refs in H2 as (r & Hr & _ & H2).
      rewrite H0, list_lookup_insert_eq in Hr by done. injection Hr as <-. by rewrite H2, H0, refs_undo. }
  destruct H1 as [Hf1 H1]. rewrite H0, list_lookup_insert in Hf1.
  destruct (decide (f0 = f1 ∧ (f0 < length (refs k))%nat)) as [|Hne]; [done|].
  assert (Hne' : f0 ≠ f1) by naive_solver. rewrite H0 in H1.
  apply bind_inv in Hr as (p & k2 & H2 & Hr). pose proof (kkeeps_on_page _ _ _ _ H2) as Hk2.
  destruct (p =? 0).
  - apply bind_inv in Hr as (? & k3 & H3 & Hr). apply bind_inv in Hr as (? & k4 & H4 & [= <- <-]).
    rewrite <-Hk2 in H1. by apply (close_both _ _ _ _ _ _ _ _ Hne' Hf0 Hf1 H1 H3 H4).
  - assert (Hk : refs k' = refs k2).
    { match type of Hr with ?m _ = _ => assert (Hm : kkeeps m) by (keeps; done) end. by apply (Hm _ _ _ Hr). }
    apply bind_inv in Hr as (? & ? & _ & Hr). apply bind_inv in Hr as (? & ? & _ & Hr).
    apply bind_inv in Hr as (? & ? & _ & [= <- <-]). by rewrite Hk, Hk2, H1.
Qed.

Lemma sys_pipe_refs data others s r s' : refs_ok others s → sys_pipe me data s = Ok r s' → refs_ok others s'.
Proof.
  intros Hs. unfold sys_pipe. rewrite bind_gets. destruct (argptr _ 0 8) as [fd|]; [|by intros [= _ <-]].
  intros Hr. apply bind_inv in Hr as (o & s1 & H1 & Hr). apply on_k_inv in H1 as (k1 & H1 & ->).
  apply pipealloc_refs in H1. unfold refs_ok in *. destruct o as [[rf wf]|]; [|injection Hr as _ <-; simpl; by rewrite H1].
  destruct H1 as (Hne & Hrf & Hwf & Hk1).
  assert (Hrl : (rf < length (refs (sy_k s)))%nat) by (by eapply lookup_lt_Some).
  assert (Hwl : (wf < length (refs (sy_k s)))%nat) by (by eapply lookup_lt_Some).
  apply bind_inv in Hr as (fd0 & s2 & H2 & Hr).
  apply bind_inv in Hr as (fd1 & s3 & H3 & Hr).
  apply fdalloc_ok in H2 as [[-> ->]|(i & -> & Hi & Hk & Hl)]; simpl in *.
  - injection H3 as <- <-. rewrite bind_ret in Hr.
    apply bind_inv in Hr as (? & s4 & H4 & Hr). apply on_k_inv in H4 as (k4 & H4 & ->).
    apply bind_inv in Hr as (? & s5 & H5 & [= _ <-]). apply on_k_inv in H5 as (k5 & H5 & ->). simpl in *.
    by rewrite (close_both _ _ _ _ _ _ _ _ Hne Hrf Hwf Hk1 H4 H5).
  - destruct (Z.ltb_spec (Z.of_nat i) 0) as [|_]; [lia|].
    assert (Hadd : counted others (<[rf := 1]> (refs (sy_k s))) (u_ofile (sy_u s2))).
    { rewrite Hl. by apply (counted_add _ _ _ rf 0). }
    apply fdalloc_ok in H3 as [[-> ->]|(j & -> & Hj & Hk' & Hl')]; simpl in *.
    + destruct (Z.leb_spec 0 (Z.of_nat i)) as [_|]; [|lia]. unfold set_ofd in Hr. rewrite bind_modify, Nat2Z.id in Hr.
      apply bind_inv in Hr as (? & s4 & H4 & Hr). apply on_k_inv in H4 as (k4 & H4 & ->).
      apply bind_inv in Hr as (? & s5 & H5 & [= _ <-]). apply on_k_inv in H5 as (k5 & H5 & ->). simpl in *.
      rewrite Hk in H4. rewrite (close_both _ _ _ _ _ _ _ _ Hne Hrf Hwf Hk1 H4 H5), Hl.
      by rewrite list_insert_insert_eq, list_insert_id.
    + destruct (Z.ltb_spec (Z.of_nat j) 0) as [|_]; [lia|]. injection Hr as _ <-. simpl.
      rewrite Hk', Hk, Hl', Hk1. apply (counted_add _ _ _ wf 0); [done| |done].
      by rewrite list_lookup_insert_ne.
Qed.

(** The handlers that do not touch the descriptors. *)
Lemma keeps_handlers data n h : n ∉ [Sys_dup; Sys_close; Sys_open; Sys_pipe] →
  file_handler (E := E) me killed dev_read dev_write name0 data n = Some h → keeps h.
Proof.
  intros Hn. pose proof kkeeps_fileread. pose proof kkeeps_filewrite. pose proof kkeeps_filestat.
  pose proof keeps_create. pose proof keeps_isdirempty.
  destruct n; intros [= <-]; try (exfalso; apply Hn; by apply (bool_decide_unpack _));
    unfold sys_read, sys_write, sys_fstat, sys_link, sys_unlink, sys_mkdir, sys_mknod, sys_chdir,
      link_bad, unlink_entry, unlink_bad, finish_create, add_nlink, op_begin, op_end; keeps.
Qed.

(** [sys_dup] never panics. *)
Lemma sys_dup_total others s : refs_ok others s → ∃ r s', sys_dup s = Ok r s'.
Proof.
  intros Hs. unfold sys_dup. rewrite bind_gets. destruct (argfd _ 0) as [[fd f]|] eqn:Hf; [|eauto].
  apply argfd_ok in Hf. destruct (counted_live _ _ _ _ _ Hs Hf) as (r & Hr & Hp).
  destruct (fdalloc f s) as [i s1|] eqn:Ha.
  2:{ revert Ha. unfold fdalloc. rewrite bind_gets. by destruct (fdfree _ 0). }
  rewrite (bind_ok _ _ _ _ _ Ha). apply fdalloc_ok in Ha as [[-> ->]|(j & -> & _ & Hk & _)]; [by eexists _, _|].
  destruct (Z.ltb_spec (Z.of_nat j) 0); [lia|]. rewrite <-Hk in Hr.
  destruct (filedup_total _ _ _ Hr Hp) as (k' & Hd & _).
  unfold on_k, zoom, bind. rewrite Hd. by eexists _, _.
Qed.

End invariant.

(** C22. Reference counts of open files.  If the count of every entry of the
    file table is the number of descriptors that refer to it, those of the
    caller and those of the other processes, then it still is when any of the
    twelve file system calls returns, on its error paths too: a full descriptor
    table in [sys_open] and [sys_pipe], a full file table, no page for a pipe.
    [sys_dup] never runs into the panic of [filedup]; it always returns. *)
Theorem fd_reference_counts {E : Type} `{!page_ops E} (me : Z) (killed : bool) dev_read dev_write
    (name0 data : list Z) (others : nat → Z) (s : sysst E) (n : sysname) (h : M (sysst E) Z) :
  refs_ok others s →
  file_handler me killed dev_read dev_write name0 data n = Some h →
  (∀ r s', h s = Ok r s' → refs_ok others s') ∧
  (n = Sys_dup → ∃ r s', h s = Ok r s').
Proof.
  intros Hs Hh. split.
  - intros r s' Hr. destruct (decide (n ∈ [Sys_dup; Sys_close; Sys_open; Sys_pipe])) as [Hn|Hn].
    + set_unfold in Hn. destruct Hn as [-> |[-> |[-> |[-> |[]]]]]; injection Hh as <-;
        eauto using sys_dup_refs, sys_close_refs, sys_open_refs, sys_pipe_refs.
    + eapply refs_ok_keeps; [by eapply keeps_handlers|done..].
  - intros ->. injection Hh as <-. by eapply sys_dup_total.
Qed.

(** A page allocator that hands out the pages above an address. *)
#[local] Instance demo_pages : page_ops Z :=
  PageOps Z (p <- gets id ;; put (p + 4096) ;;; ret p) (λ _, ret tt).

(** A process with no open file calls [pipe] with the array at 4096. *)
Definition demo_fd_state : sysst Z :=
  Sys (Kfs (Fst (Lst (Log 0 0 0 false 0 []) (Store ∅ ∅ 0 [])) (Superblock 0 0 0 0 0 0 0) [])
           (replicate 4 zero_file) ∅ [] 4096)
      (UProc (st32 ∅ 8184 4096) 8192 8180 (replicate 16 None) 0).

Lemma fd_reference_counts_witness :
  refs_ok (λ _, 0) demo_fd_state ∧
  ∃ s', sys_pipe 7 [] demo_fd_state = Ok 0 s' ∧ refs (sy_k s') = [1; 1; 0; 0] ∧ refs_ok (λ _, 0) s'.
Proof.
  assert (H0 : refs_ok (λ _, 0) demo_fd_state).
  { split; [done| |].
    - intros f r Hf. do 4 (destruct f as [|f]; [by injection Hf as <-|]). done.
    - intros fd f Hf. apply (lookup_replicate_1 16 None) in Hf as [? _]. done. }
  split; [done|]. destruct (sys_pipe 7 [] demo_fd_state) as [r s'|] eqn:Hr; [|by vm_compute in Hr].
  exists s'. split_and!.
  - by vm_compute in Hr; injection Hr as <- <-.
  - by vm_compute in Hr; injection Hr as <- <-.
  - destruct (fd_reference_counts 7 false (λ _, None) (λ _, None) [] [] (λ _, 0) demo_fd_state Sys_pipe _
                H0 eq_refl) as [H1 _]. by apply (H1 r).
Defined.
