(* ===== verification/FsTx.v ===== *)
(** The file system over the log: operations as transactions

    fs.c promises that what runs between [begin_op] and [end_op] is atomic with
    respect to crashes.  [fs_idle s] is a file system between operations; from
    it [begin_op] leads to [fs_ok] with the room of one operation ([begin_run]),
    code that records blocks keeps the disk and the counters of the log
    ([quiet]), and [end_op] leads back to [fs_idle] with the same files on disk
    ([end_run]), a crash at any disk write leaving after recovery either the
    files of before or those of after.  [kept] transports a file between two
    states that agree on its blocks. *)

From stdpp Require Import gmap list numbers strings.
From Stdlib Require Import ZArith Lia.
From S2P Require Import Prelude Memlayout Block Bio Log StringC Fs FsSpec FsFile.

(** ** Files in two states *)

(** The blocks of the file of [d] are the same in [s'] and still in use. *)
Definition kept (s s' : fst_st) (d : dinode) : Prop :=
  ∀ k, data_block s k → file_block s d k → fv s' k = fv s k ∧ data_block s' k.

Section kept.
Variables (s s' : fst_st) (d : dinode).
Hypothesis Hk : kept s s' d.
Hypothesis Hm : map_ok s d.

Lemma kept_faddr bn : faddr s' d bn = faddr s d bn.
Proof.
  unfold faddr. case_match; [done|]. destruct (Z.eqb_spec (iaddr d) 0) as [|Hi]; [done|].
  destruct (Hk (iaddr d)) as [-> _]; [by apply (mo_ind _ _ Hm)|by left|done].
Qed.

Lemma kept_map : map_ok s' d.
Proof.
  pose proof Hm as [Hd Hi Hb Hinj]. split; [done|..].
  - intros Hne. apply Hk; [by apply Hi|by left].
  - intros bn Hbn. rewrite kept_faddr. intros Hne. destruct (Hb bn Hbn Hne) as [Hdb ?]. split; [|done].
    apply Hk; [done|]. right. by exists bn.
  - intros bn bn'. rewrite !kept_faddr. apply Hinj.
Qed.

Lemma kept_fbyte o : 0 ≤ o < MAXFILE * BSIZE → fbyte s' d o = fbyte s d o.
Proof.
  intros Ho. unfold fbyte. rewrite kept_faddr. destruct (Z.eqb_spec (faddr s d (o / BSIZE)) 0) as [|Hne]; [done|].
  assert (Hbn : 0 ≤ o / BSIZE < MAXFILE) by (rewrite MAXFILE_eq, BSIZE_eq in *; Z.div_mod_to_equations; lia).
  destruct (Hk (faddr s d (o / BSIZE))) as [-> _]; [by apply (mo_blk _ _ Hm)|right; by eexists|done].
Qed.

Lemma kept_file_block k : file_block s' d k ↔ file_block s d k.
Proof. unfold file_block. by setoid_rewrite kept_faddr. Qed.

End kept.

Lemma kept_file s s' d : kept s s' d → file_ok s d → file_ok s' d ∧ fcontents s' d = fcontents s d.
Proof.
  intros Hk [Hm Hsz Hfull]. split.
  - split; [by eapply kept_map|done|]. intros bn Hb Hlt. rewrite (kept_faddr s) by done. by apply Hfull.
  - apply list_fmap_ext. intros i z Hi. apply lookup_seq in Hi as [-> Hi].
    apply kept_fbyte; [done|done|]. lia.
Qed.

(** The states agree on every block from the inodes on. *)
Definition agree (s s' : fst_st) : Prop :=
  fs_sb s' = fs_sb s ∧ ∀ k, sb_inodestart (fs_sb s) ≤ k < sb_size (fs_sb s) → fv s' k = fv s k.

#[global] Instance agree_preorder : PreOrder agree.
Proof.
  split; [done|]. intros s1 s2 s3 [E1 H1] [E2 H2]. split; [by rewrite E2|].
  intros k Hk. rewrite H2, H1; [done|done|by rewrite E1].
Qed.

Section agree.
Variables s s' : fst_st.
Hypothesis Hag : agree s s'.
Hypothesis Hsb : sb_ok (fs_sb s).

Lemma agree_used b : 0 ≤ b < sb_size (fs_sb s) → (used s' b ↔ used s b).
Proof.
  destruct Hag as [E Hfv]. intros Hb. unfold used. rewrite E. pose proof (bblock_range _ _ Hsb Hb).
  pose proof (bmapstart_after_inodes _ Hsb). pose proof (so_data _ Hsb). by rewrite Hfv by lia.
Qed.

Lemma agree_data b : data_block s b → fv s' b = fv s b ∧ data_block s' b.
Proof.
  destruct Hag as [E Hfv]. intros [Hb Hu]. pose proof (datastart_pos _ Hsb).
  pose proof (bmapstart_after_inodes _ Hsb). split; [apply Hfv; lia|].
  split; [by rewrite E|]. apply agree_used; [lia|done].
Qed.

Lemma agree_kept d : kept s s' d.
Proof. intros k Hk _. by apply agree_data. Qed.

Lemma agree_dinode j : 0 ≤ j < sb_ninodes (fs_sb s) → dinode_of s' j = dinode_of s j.
Proof.
  destruct Hag as [E Hfv]. intros Hj. unfold dinode_of. rewrite E.
  pose proof (iblock_range _ _ Hsb Hj). destruct (iblock_outside _ _ Hsb Hj). by rewrite Hfv by lia.
Qed.

End agree.

Lemma agree_sym s s' : agree s s' → agree s' s.
Proof. intros [E H]. split; [done|]. intros k Hk. symmetry. apply H. by rewrite <-E. Qed.

(** ** Code that records blocks and writes none *)

(** What only [begin_op], [end_op] and recovery change: the operations in progress
    and the disk. *)
Definition outer (s : fst_st) : Z * bool * gmap Z block * list (Z * block) :=
  let l := fs_log s in
  (outstanding (log l), committing (log l), disk (store_of l), writes (store_of l)).

Definition quiet {A} (m : M fst_st A) : Prop := ∀ s a s', m s = Ok a s' → outer s' = outer s.

Section quiet.
Context {A B : Type}.

Lemma quiet_ret (a : A) : quiet (ret a).
Proof. intros s b s' [= _ <-]. done. Qed.

Lemma quiet_fail e : quiet (A := A) (fail e).
Proof. by intros s a s'. Qed.

Lemma quiet_panic msg : quiet (A := A) (panic msg).
Proof. by intros s a s'. Qed.

Lemma quiet_gets (f : fst_st → A) : quiet (gets f).
Proof. intros s a s' [= _ <-]. done. Qed.

Lemma quiet_bind (m : M fst_st A) (k : A → M fst_st B) : quiet m → (∀ a, quiet (k a)) → quiet (bind m k).
Proof. intros Hm Hk s b s' (a & s1 & H1 & H2)%bind_inv. by rewrite (Hk _ _ _ _ H2), (Hm _ _ _ H1). Qed.

Lemma quiet_if (b : bool) (m1 m2 : M fst_st A) : quiet m1 → quiet m2 → quiet (if b then m1 else m2).
Proof. by destruct b. Qed.

Lemma quiet_deref (o : option A) : quiet (deref o).
Proof. destruct o; [apply quiet_ret|apply quiet_fail]. Qed.

End quiet.

Create HintDb quiet.
#[export] Hint Resolve quiet_ret quiet_fail quiet_panic quiet_gets quiet_deref : quiet.
Ltac solve_quiet := repeat (intros; first [solve [auto 2 with quiet] | apply quiet_bind | apply quiet_if | case_match]).

Lemma quiet_fread dev k : quiet (fread dev k).
Proof.
  intros [[l st] sb ic] b s'. unfold fread. destruct (negb _); [done|].
  unfold on_log, zoom, on_store, zoom, sread, bind, get. cbn.
  destruct (_ <=? _); [done|]. intros [= _ <-]. done.
Qed.

Lemma quiet_fwrite k d : quiet (fwrite k d).
Proof.
  intros s [] s'. unfold fwrite, on_log, zoom. destruct (log_write _ _ _) as [[] l|] eqn:E; [|done].
  intros [= <-]. unfold log_write, lh_put, set_log, on_store, zoom, pin in E. run_inv.
  repeat (case_match; run_inv; try done).
Qed.

#[export] Hint Resolve quiet_fread quiet_fwrite : quiet.

Lemma quiet_upd_inode ip f : quiet (upd_inode ip f).
Proof. intros s a s' [= _ <-]. done. Qed.
#[export] Hint Resolve quiet_upd_inode : quiet.

Lemma quiet_inode_at ip : quiet (inode_at ip).
Proof. unfold inode_at. solve_quiet. Qed.
#[export] Hint Resolve quiet_inode_at : quiet.

Lemma quiet_balloc dev : quiet (balloc dev).
Proof.
  assert (Hl : ∀ fuel b, quiet (balloc_loop fuel dev b)).
  { induction fuel as [|fuel IH]; intros b; cbn [balloc_loop]; unfold bzero; solve_quiet. }
  unfold balloc. solve_quiet.
Qed.
#[export] Hint Resolve quiet_balloc : quiet.

Lemma quiet_bmap ip bn : quiet (bmap ip bn).
Proof. unfold bmap, upd_dinode. solve_quiet. Qed.
#[export] Hint Resolve quiet_bmap : quiet.

Lemma quiet_writei_loop ip n fuel : ∀ src tot off, quiet (writei_loop fuel ip src tot off n).
Proof. induction fuel as [|fuel IH]; intros src tot off; cbn [writei_loop]; solve_quiet. Qed.
#[export] Hint Resolve quiet_writei_loop : quiet.

Lemma writei_quiet dev_write s ip x src off n r s' : icache s !! ip = Some x → d_type (i_d x) ≠ T_DEV →
  writei dev_write ip src off n s = Ok r s' → outer s' = outer s.
Proof.
  intros Hx Ht. unfold writei. rewrite (bind_inode_at ip x) by done. rewrite (proj2 (Z.eqb_neq _ _)) by done.
  cbn zeta. match goal with |- ?m s = _ → _ => assert (Hq : quiet m); [|apply Hq] end.
  unfold iupdate, upd_dinode. solve_quiet.
Qed.

(** ** The start and the end of an operation *)

(** No operation is in progress, the log is empty and has room for one. *)
Record fs_idle (s : fst_st) : Prop := {
  id_wf : fs_wf s;
  id_log : log_ready (sb_size (fs_sb s)) (log (fs_log s)) (store_of (fs_log s)) [];
  id_ops : outstanding (log (fs_log s)) = 0;
  id_commit : committing (log (fs_log s)) = false;
  id_nlog : MAXOPBLOCKS < sb_nlog (fs_sb s)
}.

Definition begun (s : fst_st) : fst_st :=
  Fst (Lst (set_outstanding 1 (log (fs_log s))) (store_of (fs_log s))) (fs_sb s) (icache s).

Lemma begin_run s : fs_idle s →
  on_log begin_op s = Ok tt (begun s) ∧ fs_ok (begun s) (Z.to_nat MAXOPBLOCKS).
Proof.
  intros [Hwf Hlog Ho Hc Hn]. split.
  - unfold on_log, zoom, begin_op. rewrite bind_gets. rewrite Hc, Ho, (lr_n _ _ _ _ Hlog).
    cbn [length Z.of_nat]. change (LOGSIZE <? _) with false. cbv iota.
    unfold set_log, modify, begun. by rewrite Ho.
  - split; [|by destruct Hwf]. apply room_empty; [by destruct Hlog|done|..].
    + unfold LOGSIZE, MAXOPBLOCKS. lia.
    + cbn [begun fs_log log lg_size set_outstanding]. rewrite (wf_lsize _ Hwf). unfold MAXOPBLOCKS in *. lia.
Qed.

Lemma idle_disk s : fs_idle s → ∀ k, fv s k = blk (disk (store_of (fs_log s))) k.
Proof.
  intros [_ [_ _ _ _ _ _ Hp _ _] _ _ _] k. unfold fv, sview.
  destruct (pinned _ !! k) eqn:E; [|done]. destruct (not_elem_of_nil k). by apply Hp.
Qed.

(** A block from the inodes on is outside the log. *)
Lemma inode_home s k : fs_wf s → sb_inodestart (fs_sb s) ≤ k < sb_size (fs_sb s) →
  home (lg_start (log (fs_log s))) (lg_size (log (fs_log s))) (sb_size (fs_sb s)) k.
Proof.
  intros Hwf Hk. pose proof (so_log _ (wf_sb _ Hwf)). pose proof (so_inodes _ (wf_sb _ Hwf)).
  pose proof (so_nlog _ (wf_sb _ Hwf)). apply home_outside; [done|lia|lia].
Qed.

(** The file system that a kernel finds on disk [d]. *)
Definition disk_view (s : fst_st) (d : gmap Z block) : fst_st :=
  Fst (Lst (log (fs_log s)) (Store d ∅ (dsize (store_of (fs_log s))) [])) (fs_sb s) [].

(** After the disk writes [W] from [s] on, and a crash at any of them, recovery
    returns, and a completed one leaves files of which [P] holds. *)
Definition crash (s : fst_st) (W : list (Z * block)) (P : fst_st → Prop) : Prop :=
  ∀ p l, lg_start l = sb_logstart (fs_sb s) → lg_size l = sb_nlog (fs_sb s) →
    length (lh_block l) = Z.to_nat LOGSIZE →
    let d := apply (take p W) (disk (store_of (fs_log s))) in
    (∃ s0, recover_from_log (rebooted l (sb_size (fs_sb s)) d) = Ok tt s0) ∧
    ∀ d', recovers l (sb_size (fs_sb s)) d d' → P (disk_view s d').

Lemma end_run s0 s m : fs_idle s0 → fs_sb s = fs_sb s0 → fs_ok s m → outer s = outer (begun s0) →
  ∃ s' W, on_log end_op s = Ok tt s' ∧ fs_idle s' ∧ icache s' = icache s ∧ agree s s' ∧
    writes (store_of (fs_log s')) = writes (store_of (fs_log s0)) ++ W ∧
    disk (store_of (fs_log s')) = apply W (disk (store_of (fs_log s0))) ∧
    crash s0 W (λ v, agree s0 v ∨ agree s v).
Proof.
  intros Hid Esb [(bs & Hr & Hout & _ & _) Hwf] Eo. injection Eo as Eo Ec Ed Ew. cbn in Eo, Ec, Ed, Ew.
  rewrite (id_commit _ Hid) in Ec. pose proof (id_nlog _ Hid) as Hn.
  destruct (end_op_safe _ _ _ _ Hr Eo Ec) as (W & l' & Hrun & Ho' & Hc' & [Es El] & Hr' & Hw & Hd & Hv & Hcr).
  set (s' := Fst l' (fs_sb s) (icache s)).
  assert (Hag : agree s s').
  { split; [done|]. intros k Hk. unfold fv, s'. cbn [fs_log].
    assert (Hp : pinned (store_of l') !! k = None).
    { destruct (pinned _ !! k) eqn:E; [|done]. destruct (not_elem_of_nil k). by apply (lr_pinned _ _ _ _ Hr'). }
    unfold sview at 1. rewrite Hp. by apply Hv, inode_home. }
  exists s', W. split_and!; try done.
  - unfold on_log, zoom. replace (fs_log s) with (Lst (log (fs_log s)) (store_of (fs_log s))) by (by destruct (fs_log s)).
    by rewrite Hrun.
  - split; cbn [fs_log fs_sb s']; [|done|done|done|by rewrite Esb].
    destruct Hwf as [H1 H2 H3 H4 H5 H6]. split; cbn [fs_log fs_sb s']; [apply Hr'|congruence|congruence|done|..].
    + intros k Hk. destruct Hag as [_ ->]; [by apply H5|done].
    + intros b Hb. apply (agree_used s s' Hag H4); [|by apply H6]. pose proof (so_data _ H4). lia.
  - change (fs_log s') with l'. by rewrite Hw, Ew.
  - change (fs_log s') with l'. by rewrite Hd, Ed.
  - intros p l E1 E2 Hlen d. rewrite <-Esb in E1, E2. rewrite <-(wf_start _ Hwf) in E1. rewrite <-(wf_lsize _ Hwf) in E2.
    destruct (Hcr p l E1 E2 Hlen) as (_ & Hrec & Hall). cbn zeta in Hrec, Hall. rewrite Ed, Esb in Hrec, Hall.
    split; [exact Hrec|]. intros d' Hd'. specialize (Hall d' Hd').
    assert (Hview : ∀ k, fv (disk_view s0 d') k = blk d' k) by done.
    destruct (decide (p ≤ length bs)%nat); [left|right]; (split; [done|]); intros k Hk; rewrite Hview.
    + rewrite Hall, (idle_disk _ Hid); [done|]. rewrite <-Esb. apply inode_home; [done|]. by rewrite Esb.
    + rewrite Hall; [done|]. rewrite <-Esb. by apply inode_home.
Qed.

(** ** The lock of an inode *)

(** An entry of the inode cache nobody holds the lock of, for the inode [d]. *)
Record inode_rest (s : fst_st) (ip : nat) (x : inode) (d : dinode) : Prop := {
  ir_cached : icache s !! ip = Some x;
  ir_dev : i_dev x = 1;
  ir_ref : 1 ≤ i_ref x;
  ir_lock : slocked (i_lock x) = false;
  ir_inum : 0 ≤ i_inum x < sb_ninodes (fs_sb s);
  ir_disk : dinode_of s (i_inum x) = d;
  ir_mem : i_valid x = true → i_d x = d;
  ir_type : d_type d ≠ 0 ∧ d_type d ≠ T_DEV
}.

(** The entry with its contents read, its lock being [lk]. *)
Definition loaded (lk : sleeplock) (d : dinode) (x : inode) : inode :=
  Inode (i_dev x) (i_inum x) (i_ref x) lk true d.
Definition unlocked : sleeplock := Sleeplock false 0.

Definition put_inode (ip : nat) (x : inode) (s : fst_st) : fst_st :=
  Fst (fs_log s) (fs_sb s) (<[ip := x]> (icache s)).

Lemma ilock_rest me s ip x d : fs_wf s → inode_rest s ip x d →
  ilock me ip s = Ok tt (put_inode ip (loaded (Sleeplock true me) d x) s).
Proof.
  intros Hwf [Hx Hdev Href Hlk Hi Hd Hm [Ht _]]. rewrite (ilock_run me s ip x) by done. cbn zeta.
  rewrite Hd, (proj2 (Z.eqb_neq _ _)), andb_false_r by done. unfold put_inode, loaded, locked_inode.
  rewrite Hd. destruct (i_valid x); [|done]. by rewrite Hm.
Qed.

Lemma iunlock_run me s ip x : icache s !! ip = Some x → i_lock x = Sleeplock true me → 1 ≤ i_ref x →
  iunlock me ip s = Ok tt (put_inode ip (set_ilock unlocked x) s).
Proof.
  intros Hx Hl Hr. unfold iunlock. rewrite (bind_inode_at ip x) by done.
  rewrite (bind_on_ilock ip (holdingsleep me) x true (i_lock x)); [|done|].
  2:{ unfold holdingsleep, gets. by rewrite Hl, Z.eqb_refl. }
  cbn [negb orb]. rewrite (proj2 (Z.ltb_ge _ _)) by lia.
  assert (E : <[ip := set_ilock (i_lock x) x]> (icache s) = icache s).
  { apply list_insert_id. rewrite Hx. by destruct x. }
  rewrite E. unfold on_ilock. rewrite (bind_inode_at ip x) by done. cbn. unfold put_inode. do 2 f_equal.
  apply list_eq. intros j. destruct (decide (ip = j)) as [<-|].
  - rewrite list_lookup_alter_eq, list_lookup_insert_eq by (by eapply lookup_lt_Some). by rewrite Hx.
  - by rewrite list_lookup_alter_ne, list_lookup_insert_ne.
Qed.

(** ** A change of one file *)

(** The contents [c] with the bytes from [off] on replaced by [bs]. *)
Definition overwrite (c : list Z) (off : Z) (bs : list Z) : list Z :=
  take (Z.to_nat off) c ++ bs ++ drop (Z.to_nat (off + Z.of_nat (length bs))) c.

Lemma overwrite_nil c off : overwrite c off [] = c.
Proof. unfold overwrite. cbn [length app Z.of_nat]. by rewrite Z.add_0_r, take_drop. Qed.

Lemma length_overwrite c off bs : 0 ≤ off ≤ Z.of_nat (length c) →
  Z.of_nat (length (overwrite c off bs)) = Z.max (Z.of_nat (length c)) (off + Z.of_nat (length bs)).
Proof. intros Ho. unfold overwrite. rewrite !length_app, length_take, length_drop. lia. Qed.

Lemma overwrite_app c off b1 b2 : 0 ≤ off ≤ Z.of_nat (length c) →
  overwrite (overwrite c off b1) (off + Z.of_nat (length b1)) b2 = overwrite c off (b1 ++ b2).
Proof.
  intros Ho. unfold overwrite. rewrite length_app.
  set (t := take (Z.to_nat off) c). assert (Ht : length t = Z.to_nat off) by (unfold t; rewrite length_take; lia).
  replace (Z.to_nat (off + Z.of_nat (length b1))) with (length (t ++ b1)) at 1 by (rewrite length_app; lia).
  rewrite (assoc_L (++) t b1), take_app_length. rewrite <-!(assoc_L (++)). do 3 f_equal.
  rewrite (assoc_L (++)), drop_app_ge by (rewrite length_app; lia). rewrite drop_drop, length_app. f_equal. lia.
Qed.

(** Reading back what was written. *)
Lemma overwrite_read c off bs : 0 ≤ off ≤ Z.of_nat (length c) →
  take (length bs) (drop (Z.to_nat off) (overwrite c off bs)) = bs.
Proof.
  intros Ho. unfold overwrite. rewrite drop_app_length' by (rewrite length_take; lia). apply take_app_length.
Qed.

(** From [s] to [s'] the file of inode [inum] has changed from [d] to [d'] by the
    bytes [bs] at [off], and no other inode or file. *)
Record updated (s s' : fst_st) (inum : Z) (d d' : dinode) (bs : list Z) (off : Z) : Prop := {
  up_sb : fs_sb s' = fs_sb s;
  up_disk : dinode_of s' inum = d';
  up_ok : file_ok s' d';
  up_same : d_type d' = d_type d ∧ d_nlink d' = d_nlink d;
  up_size : d_size d' = Z.max (d_size d) (off + Z.of_nat (length bs));
  up_contents : fcontents s' d' = overwrite (fcontents s d) off bs;
  up_frame : ∀ k, data_block s k → ¬ file_block s d k → fv s' k = fv s k;
  up_used : ∀ k, data_block s k → data_block s' k;
  up_grow : ∀ k, data_block s k → file_block s' d' k → file_block s d k;
  up_inodes : ∀ j, 0 ≤ j < sb_ninodes (fs_sb s) → j ≠ inum → dinode_of s' j = dinode_of s j
}.

Lemma length_fcontents s d : length (fcontents s d) = Z.to_nat (d_size d).
Proof. apply length_fbytes. Qed.

Section updated.
Implicit Types (s : fst_st) (d : dinode) (off : Z) (bs : list Z).

Lemma updated_refl s inum d off : file_ok s d → dinode_of s inum = d → 0 ≤ off ≤ d_size d →
  updated s s inum d d [] off.
Proof. intros Hf Hd Ho. split; try done; [simpl; lia|by rewrite overwrite_nil]. Qed.

Lemma updated_trans s s1 s2 inum d d1 d2 b1 b2 off : 0 ≤ off ≤ d_size d →
  updated s s1 inum d d1 b1 off → updated s1 s2 inum d1 d2 b2 (off + Z.of_nat (length b1)) →
  updated s s2 inum d d2 (b1 ++ b2) off.
Proof.
  intros Ho [E1 D1 K1 S1 Z1 C1 F1 U1 G1 I1] [E2 D2 K2 S2 Z2 C2 F2 U2 G2 I2]. split.
  - congruence.
  - done.
  - done.
  - destruct S1, S2. split; congruence.
  - rewrite Z2, Z1, length_app. lia.
  - rewrite C2, C1, overwrite_app; [done|]. rewrite length_fcontents. lia.
  - intros k Hk Hn. rewrite <-F1 by done. apply F2; [auto|]. intros Hf. by apply Hn, G1.
  - auto.
  - auto.
  - intros j Hj Hne. rewrite I2, I1; [done|done|done|by rewrite E1|done].
Qed.

(** A commit changes nothing. *)
Lemma updated_agree s s1 s2 inum d d1 bs off : updated s s1 inum d d1 bs off → sb_ok (fs_sb s) →
  0 ≤ inum < sb_ninodes (fs_sb s) → agree s1 s2 → updated s s2 inum d d1 bs off.
Proof.
  intros [E1 D1 K1 S1 Z1 C1 F1 U1 G1 I1] Hsb Hi Hag. rewrite <-E1 in Hsb. pose proof Hag as [E2 _].
  destruct (kept_file s1 s2 d1 (agree_kept s1 s2 Hag Hsb d1) K1) as [K2 C2]. split; try done.
  - congruence.
  - rewrite (agree_dinode s1 s2 Hag Hsb); [done|by rewrite E1].
  - congruence.
  - intros k Hk Hn. destruct (agree_data s1 s2 Hag Hsb k) as [-> _]; auto.
  - intros k Hk. apply (agree_data s1 s2 Hag Hsb k); auto.
  - intros k Hk Hf. apply G1; [done|].
    by apply (kept_file_block s1 s2 d1 (agree_kept s1 s2 Hag Hsb d1) (fo_map _ _ K1)).
  - intros j Hj Hne. rewrite (agree_dinode s1 s2 Hag Hsb); [auto|by rewrite E1].
Qed.

(** A file with blocks of its own is untouched. *)
Lemma updated_other s s' inum d d' bs off j d2 : updated s s' inum d d' bs off →
  0 ≤ j < sb_ninodes (fs_sb s) → j ≠ inum → dinode_of s j = d2 → file_ok s d2 →
  (∀ k, data_block s k → file_block s d2 k → ¬ file_block s d k) →
  dinode_of s' j = d2 ∧ file_ok s' d2 ∧ fcontents s' d2 = fcontents s d2.
Proof.
  intros Hup Hj Hne Hd Hf Hdis. split; [by rewrite (up_inodes _ _ _ _ _ _ _ Hup)|].
  apply kept_file; [|done]. intros k Hk Hfb. split; [|by apply (up_used _ _ _ _ _ _ _ Hup)].
  apply (up_frame _ _ _ _ _ _ _ Hup); auto.
Qed.

End updated.
