(* ===== verification/FileIO.v ===== *)
(** Reading and writing open files: fileread and filewrite of file.c over the
    transactions of fs.c and log.c

    [filewrite] cuts a write into transactions of at most [filewrite_max] bytes.
    Each is shown to fit the room [begin_op] reserves, to replace exactly its
    bytes of the file, and to be atomic if the machine crashes; [fileread]
    returns the bytes of the file at the descriptor's offset. *)

From stdpp Require Import gmap list numbers strings.
From Stdlib Require Import ZArith Lia.
From S2P Require Import Prelude Memlayout Block Bio Log StringC Fs FsSpec FsFile FsTx Pipe File.

(** ** One transaction *)

(** The file of inode [inum] in [v] is whole and holds [c]. *)
Definition shows (v : fst_st) (inum : Z) (c : list Z) : Prop :=
  file_ok v (dinode_of v inum) ∧ fcontents v (dinode_of v inum) = c.

(** A number of bytes that ends a transaction of a write of [n] bytes. *)
Definition boundary (n w : nat) : Prop := (w ≤ n)%nat ∧ (Z.of_nat w mod filewrite_max = 0 ∨ w = n).

(** The file after a crash: the first bytes of [bs], up to the end of one of the
    transactions, have replaced those at [off]. *)
Definition torn (c : list Z) (off : Z) (bs : list Z) (inum : Z) (v : fst_st) : Prop :=
  ∃ w, boundary (length bs) w ∧ shows v inum (overwrite c off (take w bs)).

(** What complete transactions that write [bs] at [off] leave. *)
Record tx_done (s s' : fst_st) (ip : nat) (x : inode) (d d' : dinode) (bs : list Z) (off : Z)
    (W : list (Z * block)) : Prop := {
  td_idle : fs_idle s';
  td_icache : icache s' = <[ip := loaded unlocked d' x]> (icache s);
  td_up : updated s s' (i_inum x) d d' bs off;
  td_writes : writes (store_of (fs_log s')) = writes (store_of (fs_log s)) ++ W;
  td_disk : disk (store_of (fs_log s')) = apply W (disk (store_of (fs_log s)));
  td_crash : crash s W (torn (fcontents s d) off bs (i_inum x))
}.

Section tx.
Implicit Types (s : fst_st) (ip : nat) (x : inode) (d : dinode) (bs : list Z) (off : Z).
Variable me : Z.

Lemma agree_shows s v inum d c : agree s v → sb_ok (fs_sb s) → 0 ≤ inum < sb_ninodes (fs_sb s) →
  dinode_of s inum = d → file_ok s d → fcontents s d = c → shows v inum c.
Proof.
  intros Hag Hsb Hi Hd Hf Hc. unfold shows. rewrite (agree_dinode s v Hag Hsb), Hd by done.
  destruct (kept_file s v d (agree_kept s v Hag Hsb d) Hf) as [? ->]. done.
Qed.

Lemma tx_close s0 s ip x d d' bs off m : fs_idle s0 → inode_rest s0 ip x d → file_ok s0 d →
  fs_ok s m → outer s = outer (begun s0) →
  icache s = <[ip := loaded (Sleeplock true me) d' x]> (icache s0) → updated s0 s (i_inum x) d d' bs off →
  ∃ s1 s' W, iunlock me ip s = Ok tt s1 ∧ on_log end_op s1 = Ok tt s' ∧ tx_done s0 s' ip x d d' bs off W.
Proof.
  intros Hid Hx Hf Hok Ho Hic Hup. pose proof (ir_inum _ _ _ _ Hx) as Hi. pose proof (wf_sb _ (id_wf _ Hid)) as Hsb.
  assert (Hlt : (ip < length (icache s0))%nat) by (eapply lookup_lt_Some, (ir_cached _ _ _ _ Hx)).
  set (x' := loaded (Sleeplock true me) d' x). set (s1 := put_inode ip (set_ilock unlocked x') s).
  assert (Hrun : iunlock me ip s = Ok tt s1).
  { apply iunlock_run; [rewrite Hic; by apply list_lookup_insert_eq|done|apply (ir_ref _ _ _ _ Hx)]. }
  assert (Hok1 : fs_ok s1 m) by (by apply fs_in_icache).
  destruct (end_run s0 s1 m Hid (up_sb _ _ _ _ _ _ _ Hup) Hok1 Ho) as (s' & W & Hend & Hid' & Eic & Hag & Hw & Hd & Hcr).
  assert (Hag' : agree s s') by done. clear Hag.
  exists s1, s', W. split_and!; [done|done|]. split; try done.
  - rewrite Eic. cbn [icache s1 put_inode]. by rewrite Hic, list_insert_insert_eq.
  - by eapply updated_agree.
  - intros p l E1 E2 Hlen dd. destruct (Hcr p l E1 E2 Hlen) as [Hrec Hall]. split; [exact Hrec|].
    intros d2 Hd2. destruct (Hall d2 Hd2) as [Hv|Hv].
    + exists 0%nat. split; [split; [lia|by left]|]. cbn [take]. rewrite overwrite_nil.
      eapply agree_shows; [exact Hv|done|done|apply (ir_disk _ _ _ _ Hx)|done|done].
    + exists (length bs). split; [split; [lia|by right]|]. rewrite take_ge by done.
      eapply (agree_shows s); [exact Hv|by rewrite (up_sb _ _ _ _ _ _ _ Hup)|by rewrite (up_sb _ _ _ _ _ _ _ Hup)|by apply Hup..].
Qed.

Lemma tx_open s0 ip x d : fs_idle s0 → inode_rest s0 ip x d →
  let s1 := put_inode ip (loaded (Sleeplock true me) d x) (begun s0) in
  ilock me ip (begun s0) = Ok tt s1 ∧ fs_ok s1 (Z.to_nat MAXOPBLOCKS) ∧ outer s1 = outer (begun s0).
Proof.
  intros Hid Hx s1. destruct (begin_run s0 Hid) as [_ Hok]. split_and!; [|by apply fs_in_icache|done].
  apply ilock_rest; [apply Hok|]. by destruct Hx.
Qed.

Lemma updated_written s0 s ip x d d' bs off :
  file_written (put_inode ip (loaded (Sleeplock true me) d x) (begun s0)) s ip (loaded (Sleeplock true me) d x) d' bs off →
  dinode_of s0 (i_inum x) = d → updated s0 s (i_inum x) d d' bs off.
Proof. intros [E1 E2 E3 E4 E5 E6 E7 E8 E9 E10 E11] Hd. split; try done. apply E11. by right. Qed.

(** The room [begin_op] reserves is enough for the bytes of one transaction. *)
Lemma writei_fits sb off n : sb_size sb < 3 * BPB → 0 ≤ off → 0 < n ≤ filewrite_max →
  writei_blocks sb off n + 1 ≤ MAXOPBLOCKS.
Proof.
  change filewrite_max with 1536. rewrite BPB_eq. intros Hs Ho Hn. unfold writei_blocks, needed, MAXOPBLOCKS.
  rewrite (proj2 (Z.eqb_neq _ _)), BPB_eq, BSIZE_eq by lia. Z.div_mod_to_equations. lia.
Qed.

(** One transaction of [filewrite]. *)
Lemma tx_write dev_write s0 ip x d bs off : fs_idle s0 → inode_rest s0 ip x d → file_ok s0 d →
  sb_size (fs_sb s0) < 3 * BPB → 0 ≤ off ≤ d_size d → 0 < Z.of_nat (length bs) ≤ filewrite_max →
  let s1 := put_inode ip (loaded (Sleeplock true me) d x) (begun s0) in
  let r := writei dev_write ip bs off (Z.of_nat (length bs)) s1 in
  if decide (off + Z.of_nat (length bs) ≤ MAXFILE * BSIZE) then
    (∃ s2 s3 s' d' W, r = Ok (Z.of_nat (length bs)) s2 ∧ iunlock me ip s2 = Ok tt s3 ∧ on_log end_op s3 = Ok tt s' ∧
       tx_done s0 s' ip x d d' bs off W) ∨
    (∃ s2, r = Err (Panic "balloc: out of blocks") s2 ∧ disk_full s2)
  else ∃ s3 s' W, r = Ok (-1) s1 ∧ iunlock me ip s1 = Ok tt s3 ∧ on_log end_op s3 = Ok tt s' ∧
         tx_done s0 s' ip x d d [] off W.
Proof.
  intros Hid Hx Hf Hsb Ho Hn s1 r. destruct (tx_open s0 ip x d Hid Hx) as (_ & Hok1 & Ho1). fold s1 in Hok1, Ho1.
  assert (Hlt : (ip < length (icache s0))%nat) by (eapply lookup_lt_Some, (ir_cached _ _ _ _ Hx)).
  set (x1 := loaded (Sleeplock true me) d x) in *.
  assert (Hx1 : icache s1 !! ip = Some x1) by (by apply list_lookup_insert_eq).
  destruct (ir_type _ _ _ _ Hx) as [_ Hty]. pose proof (fo_size _ _ Hf) as Hsz. rewrite MAXFILE_eq, BSIZE_eq in Hsz.
  pose proof (writei_fits (fs_sb s0) off _ Hsb (proj1 Ho) Hn) as Hroom. change filewrite_max with 1536 in Hn.
  assert (Hnn : 0 ≤ writei_blocks (fs_sb s0) off (Z.of_nat (length bs))).
  { pose proof (datastart_pos _ (wf_sb _ (id_wf _ Hid))). pose proof (needed_nonneg off (Z.of_nat (length bs))).
    unfold writei_blocks. lia. }
  pose proof (wf_sb _ (id_wf _ Hid)) as Hsbok. assert (Hag : agree s0 s1) by done.
  assert (Hf1 : file_ok s1 d) by (apply (kept_file s0 s1 d (agree_kept s0 s1 Hag Hsbok d)), Hf).
  pose proof (writei_run dev_write s1 0 ip x1 bs off (Z.of_nat (length bs))) as Hw. fold r in Hw.
  specialize (Hw ltac:(eapply fs_ok_weaken; [exact Hok1|change (fs_sb s1) with (fs_sb s0); lia]) Hx1
    (ir_dev _ _ _ _ Hx) (ir_inum _ _ _ _ Hx) Hf1 Hty ltac:(lia) ltac:(lia) eq_refl).
  cbn [i_d x1 loaded] in Hw. destruct (decide (off + _ ≤ _)) as [Hfit|Hno].
  - rewrite decide_True in Hw by lia. destruct Hw as [(s2 & d' & Hr & Hfw & Hok2)|Hp]; [left|by right].
    pose proof (writei_quiet _ _ _ _ _ _ _ _ _ Hx1 Hty Hr) as Ho2.
    destruct (tx_close s0 s2 ip x d d' bs off 1 Hid Hx Hf Hok2) as (s3 & s' & W & H3 & H4 & Htx).
    { by rewrite Ho2. }
    { rewrite (fw_icache _ _ _ _ _ _ _ Hfw). cbn [icache s1 put_inode]. by rewrite list_insert_insert_eq. }
    { eapply updated_written; [exact Hfw|apply (ir_disk _ _ _ _ Hx)]. }
    by exists s2, s3, s', d', W.
  - rewrite decide_False in Hw by lia.
    destruct (tx_close s0 s1 ip x d d [] off _ Hid Hx Hf Hok1 Ho1) as (s3 & s' & W & H3 & H4 & Htx); [done| |].
    { apply (updated_agree s0 s0 s1); [|done|apply (ir_inum _ _ _ _ Hx)|done].
      apply updated_refl; [done|apply (ir_disk _ _ _ _ Hx)|done]. }
    by exists s3, s', W.
Qed.

End tx.

(** ** Transactions in sequence *)

Lemma crash_app s s1 W1 W2 (P Q : fst_st → Prop) : fs_sb s1 = fs_sb s →
  disk (store_of (fs_log s1)) = apply W1 (disk (store_of (fs_log s))) →
  crash s W1 P → crash s1 W2 (λ v, ∀ v', fs_sb v' = fs_sb v → fv v' = fv v → Q v') → (∀ v, P v → Q v) →
  crash s (W1 ++ W2) Q.
Proof.
  intros Esb Ed H1 H2 HPQ p l E1 E2 Hlen d. destruct (decide (p ≤ length W1)%nat).
  - destruct (H1 p l E1 E2 Hlen) as [Hrec Hall]. unfold d. rewrite take_app_le by done.
    split; [exact Hrec|]. intros d' Hd'. by apply HPQ, Hall.
  - destruct (H2 (p - length W1)%nat l) as [Hrec Hall]; [by rewrite Esb..|done|].
    cbn zeta in Hrec, Hall. rewrite Ed, Esb in Hrec, Hall. unfold d. rewrite take_app_ge, apply_app by lia.
    split; [exact Hrec|]. intros d' Hd'. by apply (Hall d' Hd').
Qed.

Lemma shows_ext v v' inum c : fs_sb v' = fs_sb v → fv v' = fv v → shows v inum c → shows v' inum c.
Proof.
  intros Esb Efv [Hf Hc]. assert (Ed : dinode_of v' inum = dinode_of v inum) by (unfold dinode_of; by rewrite Esb, Efv).
  unfold shows. rewrite Ed. set (d := dinode_of v inum) in *.
  assert (Hk : kept v v' d).
  { intros k Hk _. rewrite Efv. split; [done|]. unfold data_block, used. by rewrite Esb, Efv. }
  destruct (kept_file v v' d Hk Hf) as [? ->]. done.
Qed.

Lemma boundary_app n1 n2 w : Z.of_nat n1 mod filewrite_max = 0 → boundary n2 w → boundary (n1 + n2) (n1 + w).
Proof.
  intros H1 [Hle H2]. split; [lia|]. destruct H2 as [H2| ->]; [left|by right].
  rewrite Nat2Z.inj_add. change filewrite_max with 1536 in *. Z.div_mod_to_equations. lia.
Qed.

Lemma tx_done_trans s s1 s2 ip x d d1 d2 b1 b2 off W1 W2 : 0 ≤ off ≤ d_size d →
  Z.of_nat (length b1) mod filewrite_max = 0 → (ip < length (icache s))%nat →
  tx_done s s1 ip x d d1 b1 off W1 →
  tx_done s1 s2 ip (loaded unlocked d1 x) d1 d2 b2 (off + Z.of_nat (length b1)) W2 →
  tx_done s s2 ip x d d2 (b1 ++ b2) off (W1 ++ W2).
Proof.
  intros Ho Hb Hip [I1 C1 U1 W1' D1 R1] [I2 C2 U2 W2' D2 R2]. cbn [i_inum loaded] in *. split.
  - done.
  - by rewrite C2, C1, list_insert_insert_eq.
  - by eapply updated_trans.
  - by rewrite W2', W1', assoc_L by apply _.
  - by rewrite D2, D1, apply_app.
  - eapply crash_app; [apply (up_sb _ _ _ _ _ _ _ U1)|done|exact R1| |].
    + intros p l E1 E2 Hlen dd. destruct (R2 p l E1 E2 Hlen) as [Hrec Hall]. split; [exact Hrec|].
      intros d' Hd' v' Esb Efv. destruct (Hall d' Hd') as (w & Hw & Hs). exists (length b1 + w)%nat.
      rewrite length_app. split; [by apply boundary_app|].
      eapply shows_ext; [exact Esb|exact Efv|]. rewrite take_app_add', <-overwrite_app by (try done; rewrite length_fcontents; lia).
      by rewrite (up_contents _ _ _ _ _ _ _ U1) in Hs.
    + intros v (w & [Hle Hw] & Hs). exists w. split.
      * split; [rewrite length_app; lia|]. left. destruct Hw as [Hw| ->]; done.
      * by rewrite take_app_le by done.
Qed.

(** ** [filewrite] *)

(** The bytes a write of [n] bytes at [off] writes: all, or the whole
    transactions that stay within the largest file. *)
Definition write_count (off n : Z) : Z :=
  let left := MAXFILE * BSIZE - off in
  if decide (n ≤ left) then n else left / filewrite_max * filewrite_max.

Lemma write_count_step off n : 0 ≤ off → filewrite_max < n → off + filewrite_max ≤ MAXFILE * BSIZE →
  write_count off n = filewrite_max + write_count (off + filewrite_max) (n - filewrite_max).
Proof.
  unfold write_count. change filewrite_max with 1536. rewrite MAXFILE_eq, BSIZE_eq. intros Ho Hn Hm.
  destruct (decide _); [rewrite decide_True by lia; lia|]. rewrite decide_False by lia.
  Z.div_mod_to_equations. lia.
Qed.

Lemma write_count_none off n : 0 ≤ off → MAXFILE * BSIZE < off + Z.min filewrite_max n → off ≤ MAXFILE * BSIZE →
  write_count off n = 0.
Proof.
  unfold write_count. change filewrite_max with 1536. rewrite MAXFILE_eq, BSIZE_eq. intros Ho Hn Hm.
  rewrite decide_False by lia. rewrite Z.div_small by lia. done.
Qed.

Lemma write_count_bounds off n : 0 ≤ off ≤ MAXFILE * BSIZE → 0 ≤ n → 0 ≤ write_count off n ≤ n.
Proof.
  unfold write_count. change filewrite_max with 1536. rewrite MAXFILE_eq, BSIZE_eq. intros Ho Hn.
  destruct (decide _); [lia|]. Z.div_mod_to_equations. lia.
Qed.

Lemma write_count_all off n : 0 ≤ off ≤ MAXFILE * BSIZE → 0 < n →
  (write_count off n = n ↔ off + n ≤ MAXFILE * BSIZE).
Proof.
  unfold write_count. change filewrite_max with 1536. rewrite MAXFILE_eq, BSIZE_eq. intros Ho Hn.
  destruct (decide _); [lia|]. Z.div_mod_to_equations. lia.
Qed.

Section kfs.
Context {E : Type}.
Variables (me : Z) (killed : bool).
Variable dev_write : Z → option (nat → list Z → M fst_st Z).
Implicit Types (k : kfs E) (f : nat) (x : file) (i : inode) (d : dinode).

Definition set_kfs (s : fst_st) (t : list file) (k : kfs E) : kfs E :=
  Kfs s t (kf_pipes k) (kf_woken k) (kf_ext k).

Lemma bind_on_fs {A B} (m : M fst_st A) a s (g : A → M (kfs E) B) k : m (kf_fs k) = Ok a s →
  bind (on_fs m) g k = g a (set_kfs s (kf_table k) k).
Proof. intros Hm. unfold bind, on_fs, zoom. by rewrite Hm. Qed.

Lemma bind_set_kfs {A B} (m : M fst_st A) a s0 s t (g : A → M (kfs E) B) k : m s0 = Ok a s →
  bind (on_fs m) g (set_kfs s0 t k) = g a (set_kfs s t k).
Proof. apply (bind_on_fs m a s g (set_kfs s0 t k)). Qed.

Lemma bind_file_at {B} f x (g : file → M (kfs E) B) k : kf_table k !! f = Some x →
  bind (file_at f) g k = g x k.
Proof. intros Hx. unfold bind, file_at, bind, gets, deref. by rewrite Hx. Qed.

Lemma bind_upd_file {B} f h x (g : unit → M (kfs E) B) k : kf_table k !! f = Some x →
  bind (upd_file f h) g k = g tt (set_kfs (kf_fs k) (<[f := h x]> (kf_table k)) k).
Proof.
  intros Hx. unfold bind, upd_file, modify, set_ftable, set_kfs. do 2 f_equal. apply list_eq. intros j.
  destruct (decide (f = j)) as [<-|].
  - rewrite list_lookup_alter_eq, list_lookup_insert_eq by (by eapply lookup_lt_Some). by rewrite Hx.
  - by rewrite list_lookup_alter_ne, list_lookup_insert_ne.
Qed.

(** An open file that is not a device. *)
Record open_file (k : kfs E) (f : nat) (x : file) (i : inode) (d : dinode) : Prop := {
  of_file : kf_table k !! f = Some x;
  of_type : f_type x = FD_INODE;
  of_inode : inode_rest (kf_fs k) (f_ip x) i d;
  of_ok : file_ok (kf_fs k) d;
  of_off : 0 ≤ f_off x ≤ d_size d
}.

(** The file after transactions through it. *)
Lemma open_file_after k f x i d s' d' bs W : open_file k f x i d →
  tx_done (kf_fs k) s' (f_ip x) i d d' bs (f_off x) W →
  let o := f_off x + Z.of_nat (length bs) in
  open_file (set_kfs s' (<[f := set_foff o x]> (kf_table k)) k) f (set_foff o x) (loaded unlocked d' i) d'.
Proof.
  intros [Hf Ht Hi Hok Ho] [_ Hic Hup _ _ _] o. split; cbn [kf_table kf_fs set_kfs f_type f_ip f_off set_foff].
  - apply list_lookup_insert_eq. by eapply lookup_lt_Some.
  - done.
  - destruct Hi as [H1 H2 H3 H4 H5 H6 H7 H8]. pose proof Hup as [E1 E2 _ [E3 _] _ _ _ _ _ _].
    split; cbn [loaded i_dev i_ref i_lock i_inum i_valid i_d unlocked slocked]; try done.
    + rewrite Hic. apply list_lookup_insert_eq. by eapply lookup_lt_Some.
    + by rewrite E1.
    + by rewrite E3.
  - apply Hup.
  - rewrite (up_size _ _ _ _ _ _ _ Hup). unfold o. lia.
Qed.

(** One round of the loop. *)
Lemma filewrite_round fuel k f x i d addr j n : fs_idle (kf_fs k) → open_file k f x i d →
  sb_size (fs_sb (kf_fs k)) < 3 * BPB → 0 ≤ j < n → Z.of_nat (length addr) = n →
  let n1 := Z.min filewrite_max (n - j) in
  let bs := take (Z.to_nat n1) (drop (Z.to_nat j) addr) in
  let r := filewrite_loop me dev_write (S fuel) f addr j n k in
  if decide (f_off x + n1 ≤ MAXFILE * BSIZE) then
    (∃ s' d' W, r = filewrite_loop me dev_write fuel f addr (j + n1) n
                      (set_kfs s' (<[f := set_foff (f_off x + n1) x]> (kf_table k)) k) ∧
       tx_done (kf_fs k) s' (f_ip x) i d d' bs (f_off x) W) ∨
    (∃ k', r = Err (Panic "balloc: out of blocks") k')
  else ∃ s' W, r = Ok j (set_kfs s' (kf_table k) k) ∧ tx_done (kf_fs k) s' (f_ip x) i d d [] (f_off x) W.
Proof.
  intros Hid [Hf Hty Hi Hok Ho] Hsb Hj Hlen n1 bs r. unfold r. cbn [filewrite_loop].
  rewrite (proj2 (Z.ltb_lt _ _)) by lia.
  replace (if filewrite_max <? n - j then filewrite_max else n - j) with n1
    by (unfold n1; destruct (Z.ltb_spec filewrite_max (n - j)); lia).
  assert (Hlb : Z.of_nat (length bs) = n1).
  { unfold bs. rewrite length_take, length_drop. unfold n1. change filewrite_max with 1536. lia. }
  assert (Hn1 : 0 < n1 ≤ filewrite_max) by (unfold n1; change filewrite_max with 1536; lia).
  destruct (begin_run _ Hid) as [Hb _]. destruct (tx_open me _ _ _ _ Hid Hi) as (Hl & _ & _).
  rewrite (bind_on_fs _ _ _ _ _ Hb), (bind_file_at f x) by done. rewrite (bind_set_kfs _ _ _ _ _ _ _ Hl). fold bs.
  pose proof (tx_write me dev_write _ _ _ _ bs (f_off x) Hid Hi Hok Hsb Ho ltac:(lia)) as Hw. cbn zeta in Hw. rewrite Hlb in Hw.
  change filewrite_max with 1536 in Hn1. pose proof (fo_size _ _ Hok) as Hsz. rewrite MAXFILE_eq, BSIZE_eq in Hsz.
  destruct (decide (f_off x + n1 ≤ _)) as [Hfit|Hno].
  - destruct Hw as [(s2 & s3 & s' & d' & W & Hr & H3 & H4 & Htx)|(s2 & Hr & _)].
    2:{ right. eexists. eapply bind_err. unfold on_fs, zoom. cbn [kf_fs set_kfs]. by rewrite Hr. }
    left. exists s', d', W. split; [|done].
    rewrite (bind_set_kfs _ _ _ _ _ _ _ Hr), (proj2 (Z.ltb_lt 0 n1)) by lia.
    rewrite (bind_upd_file f _ x) by done. unfold set_kfs at 2. cbn [kf_table kf_fs kf_pipes kf_woken kf_ext].
    rewrite (bind_set_kfs _ _ _ _ _ _ _ H3), (bind_set_kfs _ _ _ _ _ _ _ H4).
    rewrite (proj2 (Z.ltb_ge n1 0)), Z.eqb_refl by lia. cbn [negb]. by rewrite u32_small by lia.
  - destruct Hw as (s3 & s' & W & Hr & H3 & H4 & Htx). exists s', W. split; [|done].
    rewrite (bind_set_kfs _ _ _ _ _ _ _ Hr). change (0 <? -1) with false. cbv iota. rewrite bind_ret.
    by rewrite (bind_set_kfs _ _ _ _ _ _ _ H3), (bind_set_kfs _ _ _ _ _ _ _ H4).
Qed.

(** What [filewrite] leaves after writing [bs]. *)
Definition wrote_file k f x i d bs k' : Prop :=
  ∃ s' d' W, k' = set_kfs s' (<[f := set_foff (f_off x + Z.of_nat (length bs)) x]> (kf_table k)) k ∧
    tx_done (kf_fs k) s' (f_ip x) i d d' bs (f_off x) W.

Lemma filewrite_loop_run f addr n fuel : ∀ k x i d j, fs_idle (kf_fs k) → open_file k f x i d →
  sb_size (fs_sb (kf_fs k)) < 3 * BPB → 0 ≤ j < n → Z.of_nat (length addr) = n →
  n - j ≤ Z.of_nat fuel * filewrite_max →
  let w := write_count (f_off x) (n - j) in
  (∃ k', filewrite_loop me dev_write fuel f addr j n k = Ok (j + w) k' ∧
     wrote_file k f x i d (take (Z.to_nat w) (drop (Z.to_nat j) addr)) k') ∨
  (∃ k', filewrite_loop me dev_write fuel f addr j n k = Err (Panic "balloc: out of blocks") k').
Proof.
  induction fuel as [|fuel IH]; intros k x i d j Hid Hopen Hsb Hj Hlen Hfuel w; [lia|].
  pose proof (filewrite_round fuel k f x i d addr j n Hid Hopen Hsb Hj Hlen) as Hr. cbn zeta in Hr.
  set (n1 := Z.min filewrite_max (n - j)) in *. set (bs := take (Z.to_nat n1) (drop (Z.to_nat j) addr)) in *.
  pose proof Hopen as [Hf Hty Hi Hok Ho]. pose proof (fo_size _ _ Hok) as Hsz.
  pose proof (eq_refl : filewrite_max = 1536) as Hmax.
  assert (Hlb : Z.of_nat (length bs) = n1) by (unfold bs; rewrite length_take, length_drop; lia).
  destruct (decide (f_off x + n1 ≤ MAXFILE * BSIZE)) as [Hfit|Hno].
  2:{ destruct Hr as (s' & W & Hr & Htx). left. exists (set_kfs s' (kf_table k) k).
      assert (w = 0) as -> by (apply write_count_none; lia). rewrite Z.add_0_r. split; [done|].
      exists s', d, W. split; [|done]. cbn [Z.to_nat take length]. rewrite Z.add_0_r. f_equal.
      symmetry. apply list_insert_id. rewrite Hf. by destruct x. }
  destruct Hr as [(s1 & d1 & W1 & Hr & Htx)|(k' & Hr)]; [|right; by exists k'].
  rewrite Hr. destruct (decide (n - j ≤ filewrite_max)) as [Hlast|Hmore].
  - left. assert (En : n1 = n - j) by lia. assert (Ew : w = n - j) by (unfold w, write_count; rewrite decide_True; lia).
    eexists. split; [|exists s1, d1, W1; split; [reflexivity|]]; rewrite Ew.
    + replace (j + n1) with n by lia.
      replace (j + (n - j)) with n by lia. destruct fuel; cbn [filewrite_loop]; rewrite Z.ltb_irrefl; unfold ret; do 2 f_equal.
      all: rewrite length_take, length_drop; do 3 f_equal; lia.
    + rewrite <-En. exact Htx.
  - pose proof (open_file_after _ _ _ _ _ _ _ _ _ Hopen Htx) as Ho1. cbn zeta in Ho1. rewrite Hlb in Ho1.
    set (k1 := set_kfs s1 (<[f := set_foff (f_off x + n1) x]> (kf_table k)) k) in *.
    assert (En : n1 = filewrite_max) by lia.
    destruct (IH k1 _ _ _ (j + n1) (td_idle _ _ _ _ _ _ _ _ _ Htx) Ho1) as [(k' & Hr' & Hw)|(k' & Hr')]; try lia.
    { cbn [k1 kf_fs set_kfs]. by rewrite (up_sb _ _ _ _ _ _ _ (td_up _ _ _ _ _ _ _ _ _ Htx)). }
    2:{ right. by exists k'. }
    left. exists k'. cbn [f_off set_foff] in Hr', Hw. replace (n - (j + n1)) with (n - j - n1) in * by lia.
    set (w' := write_count (f_off x + n1) (n - j - n1)) in *.
    assert (Ew : w = n1 + w') by (unfold w, w'; rewrite En; apply write_count_step; lia).
    split; [rewrite Hr'; f_equal; lia|]. destruct Hw as (s2 & d2 & W2 & -> & Htx2).
    pose proof (write_count_bounds (f_off x + n1) (n - j - n1) ltac:(lia) ltac:(lia)) as Hwb. fold w' in Hwb.
    assert (Ebs : take (Z.to_nat w) (drop (Z.to_nat j) addr) = bs ++ take (Z.to_nat w') (drop (Z.to_nat (j + n1)) addr)).
    { unfold bs. rewrite Ew, Z2Nat.inj_add, (Z2Nat.inj_add j), <-drop_drop by lia. by rewrite take_take_drop. }
    rewrite Ebs. exists s2, d2, (W1 ++ W2). split.
    + unfold k1, set_kfs. cbn [kf_table kf_pipes kf_woken kf_ext]. rewrite list_insert_insert_eq. do 2 f_equal.
      unfold set_foff. cbn [f_type f_ref f_readable f_writable f_pipe f_ip f_off]. f_equal. rewrite length_app. lia.
    + eapply tx_done_trans; [done|by rewrite Hlb, En| |exact Htx|by rewrite Hlb].
      by eapply lookup_lt_Some, (ir_cached _ _ _ _ Hi).
Qed.


Lemma filewrite_run k f x i d addr n : fs_idle (kf_fs k) → open_file k f x i d → f_writable x = true →
  sb_size (fs_sb (kf_fs k)) < 3 * BPB → 0 < n → Z.of_nat (length addr) = n →
  let w := write_count (f_off x) n in
  (∃ k', filewrite me killed dev_write f addr n k = Ok (if decide (w = n) then n else -1) k' ∧
     wrote_file k f x i d (take (Z.to_nat w) addr) k') ∨
  (∃ k', filewrite me killed dev_write f addr n k = Err (Panic "balloc: out of blocks") k').
Proof.
  intros Hid Hopen Hwr Hsb Hn Hlen w. unfold filewrite. rewrite (bind_file_at f x) by apply Hopen.
  rewrite Hwr, (of_type _ _ _ _ _ Hopen). cbn [negb].
  destruct (filewrite_loop_run f addr n (S (Z.to_nat (n / filewrite_max))) k x i d 0 Hid Hopen Hsb)
    as [(k' & Hr & Hw)|(k' & Hr)]; [lia|done|change filewrite_max with 1536; Z.div_mod_to_equations; lia|..].
  - rewrite Z.sub_0_r in Hr, Hw. fold w in Hr, Hw. left. exists k'. rewrite (bind_ok _ _ _ _ _ Hr). rewrite Z.add_0_l. split; [|exact Hw].
    unfold ret. f_equal. destruct (Z.eqb_spec w n); [by rewrite decide_True|by rewrite decide_False].
  - right. exists k'. by rewrite (bind_err _ _ _ _ _ Hr).
Qed.

End kfs.

(** ** [fileread] *)

Section read.
Context {E : Type}.
Variables (me : Z) (killed : bool).
Variable dev_read : Z → option (nat → Z → M fst_st (Z * list Z)).
Implicit Types (k : kfs E) (f : nat) (x : file) (i : inode) (d : dinode).

Lemma fileread_run k f x i d n : fs_wf (kf_fs k) → open_file k f x i d → f_readable x = true →
  0 ≤ n < 2147483648 →
  let m := Z.min n (d_size d - f_off x) in
  fileread me killed dev_read f n k =
  Ok (m, take (Z.to_nat m) (drop (Z.to_nat (f_off x)) (fcontents (kf_fs k) d)))
     (set_kfs (put_inode (f_ip x) (loaded unlocked d i) (kf_fs k)) (<[f := set_foff (f_off x + m) x]> (kf_table k)) k).
Proof.
  intros Hwf [Hf Hty Hi Hok Ho] Hrd Hn m. unfold fileread. rewrite (bind_file_at f x) by done.
  rewrite Hrd, Hty. cbn [negb]. pose proof (fo_size _ _ Hok) as Hsz. rewrite MAXFILE_eq, BSIZE_eq in Hsz.
  assert (Hlt : (f_ip x < length (icache (kf_fs k)))%nat) by (eapply lookup_lt_Some, (ir_cached _ _ _ _ Hi)).
  rewrite (bind_on_fs _ _ _ _ _ (ilock_rest me _ _ _ _ Hwf Hi)).
  set (x1 := loaded (Sleeplock true me) d i). set (s1 := put_inode (f_ip x) x1 (kf_fs k)).
  assert (Hx1 : icache s1 !! f_ip x = Some x1) by (by apply list_lookup_insert_eq).
  assert (Hag : agree (kf_fs k) s1) by done.
  destruct (kept_file _ _ _ (agree_kept _ _ Hag (wf_sb _ Hwf) d) Hok) as [Hok1 Hc].
  pose proof (readi_run dev_read s1 (f_ip x) x1 (f_off x) (u32 n) (fs_wf_icache _ _ Hwf) Hx1 (ir_dev _ _ _ _ Hi) Hok1
    (proj2 (ir_type _ _ _ _ Hi))) as Hr. rewrite u32_small in Hr by lia.
  specialize (Hr ltac:(lia) ltac:(lia)). cbn [i_d x1 loaded] in Hr. rewrite decide_True in Hr by lia.
  cbn zeta in Hr. fold m in Hr. rewrite Hc in Hr. rewrite u32_small by lia. rewrite (bind_set_kfs _ _ _ _ _ _ _ Hr).
  assert (Hun : iunlock me (f_ip x) s1 = Ok tt (put_inode (f_ip x) (loaded unlocked d i) (kf_fs k))).
  { rewrite (iunlock_run me s1 _ x1); [|done|done|apply (ir_ref _ _ _ _ Hi)]. unfold put_inode. cbn [icache s1 put_inode].
    by rewrite list_insert_insert_eq. }
  destruct (Z.ltb_spec 0 m) as [Hm|Hm].
  - rewrite (bind_upd_file f _ x) by done. unfold set_kfs at 2. cbn [kf_table kf_fs kf_pipes kf_woken kf_ext set_kfs].
    rewrite (bind_set_kfs _ _ _ _ _ _ _ Hun). rewrite u32_small by lia. done.
  - rewrite bind_ret, (bind_set_kfs _ _ _ _ _ _ _ Hun). assert (m = 0) as -> by lia. unfold ret. do 2 f_equal.
    symmetry. apply list_insert_id. rewrite Hf, Z.add_0_r. by destruct x.
Qed.

End read.

(** C5. Writing an open file.  With no operation in progress on a file system
    whose bitmap has at most three blocks, [filewrite] of [n] bytes through a
    writable descriptor returns [n] if the file stays within [MAXFILE] blocks.
    No transaction it cuts the write into outgrows the log.  The file's contents
    are then the old ones with the bytes at the descriptor's offset replaced,
    the offset has advanced by [n], and the inode is unlocked and equal on disk
    and in memory.  If the file would outgrow [MAXFILE] the whole transactions
    that still fit are written all the same, the offset advances over them and
    the result is [-1].  Every other file with blocks of its own, every other
    descriptor and cached inode is unchanged.  The only other outcome is the
    panic of a full disk. *)
Theorem filewrite_correct {E} me killed dev_write (k : kfs E) f x i d addr n :
  fs_idle (kf_fs k) → open_file k f x i d → f_writable x = true → sb_size (fs_sb (kf_fs k)) < 3 * BPB →
  0 < n → Z.of_nat (length addr) = n →
  let w := write_count (f_off x) n in
  (∃ s' d', let x' := set_foff (f_off x + w) x in let i' := loaded unlocked d' i in
     let k' := set_kfs s' (<[f := x']> (kf_table k)) k in
     filewrite me killed dev_write f addr n k = Ok (if decide (f_off x + n ≤ MAXFILE * BSIZE) then n else -1) k' ∧
     fs_idle s' ∧ open_file k' f x' i' d' ∧ icache s' = <[f_ip x := i']> (icache (kf_fs k)) ∧
     fcontents s' d' = overwrite (fcontents (kf_fs k) d) (f_off x) (take (Z.to_nat w) addr) ∧
     ∀ j d2, 0 ≤ j < sb_ninodes (fs_sb s') → j ≠ i_inum i → dinode_of (kf_fs k) j = d2 → file_ok (kf_fs k) d2 →
       (∀ b, data_block (kf_fs k) b → file_block (kf_fs k) d2 b → ¬ file_block (kf_fs k) d b) →
       dinode_of s' j = d2 ∧ file_ok s' d2 ∧ fcontents s' d2 = fcontents (kf_fs k) d2) ∨
  (∃ k', filewrite me killed dev_write f addr n k = Err (Panic "balloc: out of blocks") k').
Proof.
  intros Hid Hopen Hwr Hsb Hn Hlen w. pose proof (of_off _ _ _ _ _ Hopen) as Ho. pose proof (fo_size _ _ (of_ok _ _ _ _ _ Hopen)) as Hsz.
  pose proof (write_count_bounds (f_off x) n ltac:(lia) ltac:(lia)) as Hw. fold w in Hw.
  destruct (filewrite_run me killed dev_write k f x i d addr n Hid Hopen Hwr Hsb Hn Hlen)
    as [(k' & Hr & s' & d' & W & -> & Htx)|?]; [left|by right].
  pose proof (open_file_after _ _ _ _ _ _ _ _ _ Hopen Htx) as Ho'. fold w in Hr, Htx, Ho'. cbn zeta in Ho'.
  assert (Hlw : Z.of_nat (length (take (Z.to_nat w) addr)) = w) by (rewrite length_take; lia). rewrite Hlw in Hr, Ho'.
  pose proof (td_up _ _ _ _ _ _ _ _ _ Htx) as Hup.
  exists s', d'. cbn zeta. split_and!; [|apply Htx|exact Ho'|apply Htx|apply Hup|].
  - rewrite Hr. f_equal. pose proof (write_count_all (f_off x) n ltac:(lia) Hn) as Hall. fold w in Hall.
    destruct (decide (w = n)) as [E1|E1]; [rewrite decide_True by tauto|rewrite decide_False by tauto]; done.
  - intros j d2 Hj. rewrite (up_sb _ _ _ _ _ _ _ Hup) in Hj. by eapply updated_other.
Qed.


(** C17. What is written is read back.  After [filewrite] of [n] bytes that fit
    the file, [fileread] of [n] bytes through another descriptor of the same
    inode, standing where the write began, returns [n] and those bytes, leaves the
    disk as it was and stands [n] further; the only other outcome of the write is
    the panic of a full disk. *)
Theorem write_read_roundtrip {E} me killed dev_read dev_write (k : kfs E) f x g y i d addr n :
  fs_idle (kf_fs k) → open_file k f x i d → f_writable x = true → sb_size (fs_sb (kf_fs k)) < 3 * BPB →
  open_file k g y i d → f_readable y = true → g ≠ f → f_ip y = f_ip x → f_off y = f_off x →
  0 < n < 2147483648 → Z.of_nat (length addr) = n → f_off x + n ≤ MAXFILE * BSIZE →
  (∃ k' k'', filewrite me killed dev_write f addr n k = Ok n k' ∧
     fileread me killed dev_read g n k' = Ok (n, addr) k'' ∧
     fs_log (kf_fs k'') = fs_log (kf_fs k') ∧ kf_table k'' !! g = Some (set_foff (f_off y + n) y)) ∨
  (∃ k', filewrite me killed dev_write f addr n k = Err (Panic "balloc: out of blocks") k').
Proof.
  intros Hid Hopen Hwr Hsb Hg Hrd Hne Hip Hoff Hn Hlen Hfit.
  pose proof (of_off _ _ _ _ _ Hopen) as Ho. pose proof (fo_size _ _ (of_ok _ _ _ _ _ Hopen)) as Hsz.
  pose proof (proj2 (write_count_all (f_off x) n ltac:(lia) ltac:(lia)) Hfit) as Ew.
  destruct (filewrite_run me killed dev_write k f x i d addr n Hid Hopen Hwr Hsb ltac:(lia) Hlen)
    as [(k' & Hr & s' & d' & W & -> & Htx)|?]; [left|by right].
  rewrite Ew, decide_True in Hr by done. rewrite Ew in Htx. rewrite take_ge in Htx, Hr by lia.
  pose proof (open_file_after _ _ _ _ _ _ _ _ _ Hopen Htx) as Ho'. cbn zeta in Ho'.
  pose proof (td_up _ _ _ _ _ _ _ _ _ Htx) as Hup. pose proof (up_size _ _ _ _ _ _ _ Hup) as Hs'.
  set (k1 := set_kfs s' _ k) in *.
  assert (Hg1 : open_file k1 g y (loaded unlocked d' i) d').
  { destruct Ho' as [_ _ H3 H4 _], Hg as [G1 G2 _ _ _]. split; [|done|by rewrite Hip|done|lia].
    cbn [kf_table k1 set_kfs]. by rewrite list_lookup_insert_ne. }
  pose proof (fileread_run me killed dev_read k1 g y _ d' n (id_wf _ (td_idle _ _ _ _ _ _ _ _ _ Htx)) Hg1 Hrd) as Hread.
  cbn zeta in Hread. rewrite Z.min_l in Hread by lia.
  assert (Eb : take (Z.to_nat n) (drop (Z.to_nat (f_off y)) (fcontents (kf_fs k1) d')) = addr).
  { change (kf_fs k1) with s'. rewrite (up_contents _ _ _ _ _ _ _ Hup), Hoff.
    replace (Z.to_nat n) with (length addr) by lia. apply overwrite_read. rewrite length_fcontents. lia. }
  rewrite Eb in Hread. eexists k1, _. split_and!; [done|apply Hread; lia|done|].
  cbn [kf_table set_kfs k1]. apply list_lookup_insert_eq. rewrite length_insert. by eapply lookup_lt_Some, Hg.
Qed.

(** ** A file of three bytes, open twice *)

Definition demo_rest_inode : inode := Inode 1 5 2 unlocked true demo_file.
(** The file of [demo_file_fs] with its inode on disk and nothing in progress. *)
Definition demo_rest : fst_st :=
  Fst (Lst (Log 2 31 0 false 0 (replicate (Z.to_nat LOGSIZE) 0))
           (Store {[33 := put_dinode zero_block 320 demo_file;
                    36 := [255; 255; 255; 255; 255; 1] ++ replicate 506 0;
                    40 := [104; 105; 10] ++ replicate 509 0]} ∅ 100 []))
      demo_sb (demo_rest_inode :: replicate 49 zero_inode).
Definition demo_writer : file := File FD_INODE 1 false true 0 0 2.
Definition demo_reader : file := File FD_INODE 1 true false 0 0 2.
Definition demo_kfs : kfs unit := Kfs demo_rest [demo_writer; demo_reader] ∅ [] tt.

Lemma demo_rest_used b : 0 ≤ b < 41 → used demo_rest b.
Proof.
  intros Hb. assert (Hall : forallb (λ b, negb (bit_free (fv demo_rest (BBLOCK b demo_sb)) (b mod BPB))) (seqZ 0 41) = true)
    by (vm_compute; reflexivity).
  rewrite forallb_forall in Hall. apply negb_true_iff. apply Hall. apply list_elem_of_In, elem_of_seqZ. lia.
Qed.

Lemma demo_rest_idle : fs_idle demo_rest.
Proof.
  split; [split| | | |]; try done.
  - intros k _. unfold fv, sview, blk. cbn [fs_log store_of demo_rest pinned disk]. rewrite lookup_empty. cbn [default].
    destruct (decide (k = 33)) as [->|]; [vm_compute; reflexivity|]. rewrite lookup_insert_ne by done.
    destruct (decide (k = 36)) as [->|]; [vm_compute; reflexivity|]. rewrite lookup_insert_ne by done.
    destruct (decide (k = 40)) as [->|]; [vm_compute; reflexivity|]. rewrite lookup_singleton_ne by done. done.
  - intros b Hb. apply demo_rest_used. change (datastart (fs_sb demo_rest)) with 37 in Hb. lia.
  - split; try done; cbn [fs_log fs_sb log store_of lg_start lg_size demo_rest demo_sb sb_size].
    + split; [constructor..|simpl; unfold LOGSIZE, MAXOPBLOCKS; lia|simpl; lia].
    + intros k [v Hv]. cbn in Hv. by rewrite lookup_empty in Hv.
Qed.

Lemma demo_rest_file : file_ok demo_rest demo_file.
Proof.
  apply (kept_file demo_file_fs); [|apply demo_file_ok]. intros k [Hk Hu] Hf.
  change (sb_size (fs_sb demo_file_fs)) with 100 in Hk. change (datastart (fs_sb demo_file_fs)) with 37 in Hk.
  assert (k = 40) as ->.
  { destruct Hf as [->|(bn & Hb & <-)]; [change (iaddr demo_file) with 0 in Hk; lia|].
    rewrite demo_file_addr in * by done. destruct (decide _); [done|lia]. }
  split; [vm_compute; reflexivity|]. split; [done|]. apply demo_rest_used. lia.
Qed.

Lemma demo_open : open_file demo_kfs 0 demo_writer demo_rest_inode demo_file ∧
  open_file demo_kfs 1 demo_reader demo_rest_inode demo_file.
Proof.
  assert (Hd : dinode_of demo_rest 5 = demo_file) by (vm_compute; reflexivity).
  assert (Hi : inode_rest demo_rest 0 demo_rest_inode demo_file).
  { split; [reflexivity|reflexivity|cbn; lia|reflexivity|cbn; lia|exact Hd|reflexivity|split; discriminate]. }
  split; (split; [done|done|exact Hi|apply demo_rest_file|cbn; lia]).
Qed.

(** Two bytes written at offset 2 of the three. *)
Lemma filewrite_correct_witness :
  (∃ s' d', let x' := set_foff 4 demo_writer in let i' := loaded unlocked d' demo_rest_inode in
     let k' := set_kfs s' (<[0%nat := x']> (kf_table demo_kfs)) demo_kfs in
     filewrite 7 false (λ _, None) 0 [111; 107] 2 demo_kfs = Ok 2 k' ∧
     fs_idle s' ∧ open_file k' 0 x' i' d' ∧ icache s' = <[0%nat := i']> (icache demo_rest) ∧
     fcontents s' d' = [104; 105; 111; 107] ∧
     ∀ j d2, 0 ≤ j < sb_ninodes (fs_sb s') → j ≠ 5 → dinode_of demo_rest j = d2 → file_ok demo_rest d2 →
       (∀ b, data_block demo_rest b → file_block demo_rest d2 b → ¬ file_block demo_rest demo_file b) →
       dinode_of s' j = d2 ∧ file_ok s' d2 ∧ fcontents s' d2 = fcontents demo_rest d2) ∨
  (∃ k', filewrite 7 false (λ _, None) 0 [111; 107] 2 demo_kfs = Err (Panic "balloc: out of blocks") k').
Proof.
  assert (Ew : write_count 2 2 = 2) by (vm_compute; reflexivity).
  assert (Ec : overwrite (fcontents demo_rest demo_file) 2 [111; 107] = [104; 105; 111; 107]) by (vm_compute; reflexivity).
  assert (Es : sb_size (fs_sb (kf_fs demo_kfs)) < 3 * BPB) by reflexivity.
  pose proof (filewrite_correct 7 false (λ _, None) demo_kfs 0 demo_writer demo_rest_inode demo_file [111; 107] 2
    demo_rest_idle (proj1 demo_open) eq_refl Es eq_refl eq_refl) as Hw.
  cbn zeta in Hw. change (f_off demo_writer) with 2 in Hw. rewrite Ew in Hw. change (take (Z.to_nat 2) [111; 107]) with [111; 107] in Hw.
  change (kf_fs demo_kfs) with demo_rest in Hw. rewrite Ec in Hw. rewrite decide_True in Hw by (vm_compute; discriminate).
  exact Hw.
Defined.


Lemma write_read_roundtrip_witness :
  (∃ k' k'', filewrite 7 false (λ _, None) 0 [111; 107] 2 demo_kfs = Ok 2 k' ∧
     fileread 7 false (λ _, None) 1 2 k' = Ok (2, [111; 107]) k'' ∧
     fs_log (kf_fs k'') = fs_log (kf_fs k') ∧ kf_table k'' !! 1%nat = Some (set_foff 4 demo_reader)) ∨
  (∃ k', filewrite 7 false (λ _, None) 0 [111; 107] 2 demo_kfs = Err (Panic "balloc: out of blocks") k').
Proof.
  apply (write_read_roundtrip 7 false (λ _, None) (λ _, None) demo_kfs 0 demo_writer 1 demo_reader demo_rest_inode demo_file
    [111; 107] 2 demo_rest_idle (proj1 demo_open) eq_refl eq_refl (proj2 demo_open)); try reflexivity.
  - discriminate.
  - lia.
  - discriminate.
Defined.
