(* ===== verification/FsDir.v ===== *)
(** Directories: [dirlookup] and [dirlink] of fs.c against a list of entries

    A directory is a file of 16-byte entries.  [dir_find] is the first live entry
    with a name and [dir_slot] the first free one, read off the bytes of the file;
    [dirlookup] and [dirlink] are shown to compute them, and an entry that was
    linked to be found again, no other name changing its meaning. *)

From stdpp Require Import gmap list numbers strings.
From Stdlib Require Import ZArith Lia.
From S2P Require Import Prelude Memlayout Block Bio Log StringC Fs FsSpec FsFile FsTx.

(** ** Entries *)

(** The [i]th entry of a directory with the bytes [c], and its name. *)
Definition dent (c : list Z) (i : nat) : list Z := take 16 (drop (16 * i) c).
Definition dname (l : list Z) : list Z := cstr (take DIRSIZ l).
Definition dcount (c : list Z) : nat := length c / 16.

Definition live (c : list Z) (i : nat) : bool := negb (de_inum (dent c i) =? 0).
Definition entry_is (c name : list Z) (i : nat) : bool :=
  live c i && bool_decide (dname (de_name (dent c i)) = dname name).

(** The first of [i], ..., [i + n - 1] with the property. *)
Fixpoint first_from (P : nat → bool) (i n : nat) : option nat :=
  match n with
  | O => None
  | S n' => if P i then Some i else first_from P (S i) n'
  end.

Definition dir_find (c name : list Z) : option nat := first_from (entry_is c name) 0 (dcount c).
Definition dir_slot (c : list Z) : nat := default (dcount c) (first_from (λ i, negb (live c i)) 0 (dcount c)).

(** The inode a name stands for. *)
Definition dir_get (c name : list Z) : option Z := (λ i, de_inum (dent c i)) <$> dir_find c name.

Section first.
Implicit Types (P Q : nat → bool) (i n k : nat).

Lemma first_from_Some P n : ∀ i k, first_from P i n = Some k →
  (i ≤ k < i + n)%nat ∧ P k = true ∧ ∀ j, (i ≤ j < k)%nat → P j = false.
Proof.
  induction n as [|n IH]; intros i k; simpl; [done|]. destruct (P i) eqn:E.
  - intros [= <-]. split_and!; [lia|lia|done|lia].
  - intros (Hk & Hp & Hj)%IH. split_and!; [lia|lia|done|]. intros j Hr.
    destruct (decide (j = i)) as [->|]; [done|]. apply Hj. lia.
Qed.

Lemma first_from_None P n : ∀ i, first_from P i n = None → ∀ j, (i ≤ j < i + n)%nat → P j = false.
Proof.
  induction n as [|n IH]; intros i; simpl; [lia|]. destruct (P i) eqn:E; [done|].
  intros Hn j Hj. destruct (decide (j = i)) as [->|]; [done|]. apply (IH (S i)); [done|lia].
Qed.

Lemma first_from_intro P i n k : (i ≤ k < i + n)%nat → P k = true → (∀ j, (i ≤ j < k)%nat → P j = false) →
  first_from P i n = Some k.
Proof.
  intros Hk Hp Hj. destruct (first_from P i n) as [k'|] eqn:E.
  - apply first_from_Some in E as (Hk' & Hp' & Hj'). f_equal.
    destruct (decide (k < k')%nat) as [?|?]; [by rewrite Hj' in Hp by lia|].
    destruct (decide (k' < k)%nat) as [?|?]; [by rewrite Hj in Hp' by lia|lia].
  - by rewrite (first_from_None P n i E k) in Hp by lia.
Qed.

Lemma first_from_none P i n : (∀ j, (i ≤ j < i + n)%nat → P j = false) → first_from P i n = None.
Proof.
  intros Hj. destruct (first_from P i n) as [k|] eqn:E; [|done].
  apply first_from_Some in E as (Hk & Hp & _). by rewrite Hj in Hp by lia.
Qed.

End first.

(** A directory: whole entries of bytes. *)
Record dir_ok (s : fst_st) (d : dinode) : Prop := {
  dk_file : file_ok s d;
  dk_type : d_type d = T_DIR;
  dk_size : d_size d mod 16 = 0;
  dk_bytes : Forall (λ b, 0 ≤ b < 256) (fcontents s d)
}.

Lemma dir_size s x : dir_ok s (i_d x) → d_size (i_d x) = 16 * Z.of_nat (dcount (fcontents s (i_d x))).
Proof.
  intros Hdir.
  pose proof (dk_size _ _ Hdir). pose proof (do_size _ (mo_dinode _ _ (fo_map _ _ (dk_file _ _ Hdir)))).
  unfold dcount. rewrite length_fcontents, Nat2Z.inj_div, Z2Nat.id by lia. Z.div_mod_to_equations. lia.
Qed.

Section lookup.
Variable dev_read : Z → option (nat → Z → M fst_st (Z * list Z)).
Variables (s : fst_st) (dp : nat) (x : inode).
Hypothesis Hwf : fs_wf s.
Hypothesis Hx : icache s !! dp = Some x.
Hypothesis Hdev : i_dev x = 1.
Hypothesis Hdir : dir_ok s (i_d x).
#[local] Abbreviation c := (fcontents s (i_d x)).

(** Entry [i] as the code reads it. *)
Lemma read_dent i : (i < dcount c)%nat →
  readi dev_read dp (16 * Z.of_nat i) sizeof_dirent s = Ok (16, dent c i) s.
Proof.
  intros Hi. pose proof (dir_size _ _ Hdir) as Hsz. pose proof (fo_size _ _ (dk_file _ _ Hdir)) as Hmax. rewrite MAXFILE_eq, BSIZE_eq in Hmax.
  rewrite (readi_run dev_read s dp x); [|done|done|done|apply Hdir|by rewrite (dk_type _ _ Hdir)|lia|unfold sizeof_dirent; lia].
  unfold sizeof_dirent. rewrite decide_True by lia. cbn zeta. rewrite Z.min_l by lia. unfold dent. do 4 f_equal. lia.
Qed.

Lemma dent_length i : (i < dcount c)%nat → length (dent c i) = 16%nat.
Proof.
  intros Hi. unfold dent, dcount in *. rewrite length_take, length_drop.
  pose proof (Nat.mul_div_le (length c) 16 ltac:(lia)). lia.
Qed.

Lemma dent_bytes i : Forall (λ b, 0 ≤ b < 256) (dent c i).
Proof. apply Forall_take, Forall_drop, Hdir. Qed.

Lemma namecmp_run name i : readable name DIRSIZ → Forall (λ b, 0 ≤ b < 256) name → (i < dcount c)%nat →
  ∃ r, namecmp name (de_name (dent c i)) = Some r ∧ (r =? 0) = bool_decide (dname (de_name (dent c i)) = dname name).
Proof.
  intros Hr Hb Hi. destruct (strncmp_Some DIRSIZ name (de_name (dent c i))) as (r & Hc & Hr0); [done| |done| |].
  - right. unfold de_name. rewrite length_drop, dent_length by done. unfold DIRSIZ. lia.
  - apply Forall_drop, dent_bytes.
  - exists r. split; [done|]. unfold dname. destruct (Z.eqb_spec r 0) as [E|E].
    + by rewrite bool_decide_eq_true_2 by (symmetry; by apply Hr0).
    + rewrite bool_decide_eq_false_2; [done|]. intros E'. by apply E, Hr0.
Qed.

(** What [dirlookup] does with the entry it finds. *)
Definition found (o : option nat) : res fst_st (option (nat * Z)) :=
  match o with
  | Some i => (ip <- iget 1 (de_inum (dent c i)) ;; ret (Some (ip, 16 * Z.of_nat i))) s
  | None => Ok None s
  end.

Lemma dirlookup_loop_run name fuel : readable name DIRSIZ → Forall (λ b, 0 ≤ b < 256) name →
  ∀ i n, (i + n = dcount c)%nat → (n < fuel)%nat →
  dirlookup_loop dev_read fuel dp name (16 * Z.of_nat i) s = found (first_from (entry_is c name) i n).
Proof.
  intros Hr Hb. induction fuel as [|fuel IH]; intros i n Hn Hf; [lia|]. cbn [dirlookup_loop].
  rewrite (bind_inode_at dp x) by done. rewrite (dir_size s x Hdir). destruct n as [|n].
  { rewrite (proj2 (Z.ltb_ge _ _)) by lia. done. }
  rewrite (proj2 (Z.ltb_lt _ _)) by lia. rewrite (bind_ok _ _ _ _ _ (read_dent i ltac:(lia))).
  change (16 =? sizeof_dirent) with true. cbn [negb first_from]. unfold entry_is at 1, live.
  replace (16 * Z.of_nat i + sizeof_dirent) with (16 * Z.of_nat (S i)) by (unfold sizeof_dirent; lia).
  destruct (Z.eqb_spec (de_inum (dent c i)) 0) as [E|E]; cbn [negb andb]; [apply IH; lia|].
  destruct (namecmp_run name i Hr Hb ltac:(lia)) as (r & Hc & Hr0). rewrite Hc. cbn [deref]. rewrite bind_ret, Hr0.
  case_bool_decide; [by rewrite Hdev|apply IH; lia].
Qed.

Lemma dirlookup_run name : readable name DIRSIZ → Forall (λ b, 0 ≤ b < 256) name →
  dirlookup dev_read dp name s = found (dir_find c name).
Proof.
  intros Hr Hb. unfold dirlookup. rewrite (bind_inode_at dp x) by done. rewrite (dk_type _ _ Hdir). cbn [negb].
  change (T_DIR =? T_DIR) with true. cbn [negb].
  apply (dirlookup_loop_run name _ Hr Hb 0 (dcount c)); [done|]. unfold dir_fuel. rewrite (dir_size s x Hdir). unfold sizeof_dirent.
  rewrite Z.mul_comm, Z.div_mul by lia. lia.
Qed.

(** The slot [dirlink] writes. *)
Lemma dirlink_loop_run fuel : ∀ i n, (i + n = dcount c)%nat → (n < fuel)%nat →
  dirlink_loop dev_read fuel dp (16 * Z.of_nat i) s =
  Ok (16 * Z.of_nat (default (dcount c) (first_from (λ i, negb (live c i)) i n))) s.
Proof.
  induction fuel as [|fuel IH]; intros i n Hn Hf; [lia|]. cbn [dirlink_loop].
  rewrite (bind_inode_at dp x) by done. rewrite (dir_size s x Hdir). destruct n as [|n].
  { rewrite (proj2 (Z.ltb_ge _ _)) by lia. cbn [first_from default]. unfold ret. do 2 f_equal. lia. }
  rewrite (proj2 (Z.ltb_lt _ _)) by lia. rewrite (bind_ok _ _ _ _ _ (read_dent i ltac:(lia))).
  change (16 =? sizeof_dirent) with true. cbn [negb first_from]. unfold live at 1. rewrite negb_involutive.
  destruct (de_inum (dent c i) =? 0); [done|].
  replace (16 * Z.of_nat i + sizeof_dirent) with (16 * Z.of_nat (S i)) by (unfold sizeof_dirent; lia). apply IH; lia.
Qed.

Lemma dirlink_slot : dirlink_loop dev_read (dir_fuel (d_size (i_d x))) dp 0 s = Ok (16 * Z.of_nat (dir_slot c)) s.
Proof.
  apply (dirlink_loop_run _ 0 (dcount c)); [done|]. unfold dir_fuel. rewrite (dir_size s x Hdir). unfold sizeof_dirent.
  rewrite Z.mul_comm, Z.div_mul by lia. lia.
Qed.

End lookup.

(** ** Linking *)

Section link.
Implicit Types (c e name : list Z) (i sl : nat).

Lemma cstr_id l : 0 ∉ l → cstr l = l.
Proof.
  induction l as [|b l IH]; simpl; [done|]. intros [Hb Hl]%not_elem_of_cons.
  rewrite (proj2 (Z.eqb_neq _ _)) by congruence. by rewrite IH.
Qed.

(** The name [strncpy] stores. *)
Lemma stored_name name : readable name DIRSIZ →
  ∃ nm, strncpy name DIRSIZ = Some nm ∧ length nm = DIRSIZ ∧ dname nm = dname name.
Proof.
  intros Hr. destruct (strncpy_Some DIRSIZ name Hr) as (nm & Hc & Hl & E). exists nm. split_and!; [done|done|].
  unfold dname at 1. rewrite take_ge by lia. rewrite E. fold (dname name).
  pose proof (cstr_no_nul (take DIRSIZ name)) as H0. fold (dname name) in H0.
  destruct (DIRSIZ - length (dname name))%nat; [rewrite app_nil_r; by apply cstr_id|].
  by apply cstr_app_nul.
Qed.

Lemma strncpy_bytes name : ∀ n nm, Forall (λ b, 0 ≤ b < 256) name → strncpy name n = Some nm →
  Forall (λ b, 0 ≤ b < 256) nm.
Proof.
  induction name as [|b name IH]; intros [|n] nm Hb; simpl; try (by intros [= <-]).
  apply Forall_cons in Hb as [Hb0 Hb]. case_match.
  - intros [= <-]. constructor; [lia|]. apply Forall_replicate. lia.
  - intros (r & Hr & ->)%fmap_Some. constructor; [done|]. by eapply IH.
Qed.

Lemma dirent_inum inum nm : 0 ≤ inum < 65536 → de_inum (dirent_bytes inum nm) = inum.
Proof. intros Hi. unfold de_inum, dirent_bytes, get16, put16, put8, get8. simpl. zlia. Qed.

Lemma dirent_name inum nm : de_name (dirent_bytes inum nm) = nm.
Proof. done. Qed.

Lemma length_dirent inum nm : length nm = DIRSIZ → length (dirent_bytes inum nm) = 16%nat.
Proof. intros Hl. unfold dirent_bytes. rewrite length_app, length_put16, Hl. done. Qed.

Lemma dirent_bytes_ok inum nm : Forall (λ b, 0 ≤ b < 256) nm → Forall (λ b, 0 ≤ b < 256) (dirent_bytes inum nm).
Proof.
  intros Hn. unfold dirent_bytes, put16, put8. simpl. do 2 (constructor; [apply u8_range|]). done.
Qed.

Section slot.
Variables (c e : list Z) (sl : nat).
Hypothesis Hc : length c = (16 * dcount c)%nat.
Hypothesis He : length e = 16%nat.
Hypothesis Hsl : (sl ≤ dcount c)%nat.
#[local] Abbreviation c' := (overwrite c (16 * Z.of_nat sl) e).

Lemma overwrite_split : c' = take (16 * sl) c ++ e ++ drop (16 * S sl) c.
Proof. unfold overwrite. rewrite He. do 3 f_equal; lia. Qed.

Lemma dcount_overwrite : dcount c' = Nat.max (dcount c) (S sl).
Proof.
  unfold dcount at 1. rewrite overwrite_split, !length_app, length_take, length_drop, He.
  replace (Nat.min (16 * sl) (length c) + (16 + (length c - 16 * S sl)))%nat with (Nat.max (dcount c) (S sl) * 16)%nat by lia.
  by apply Nat.div_mul.
Qed.

Lemma dent_overwrite_eq : dent c' sl = e.
Proof.
  unfold dent. rewrite overwrite_split, drop_app_length' by (rewrite length_take; lia).
  by rewrite take_app_length'.
Qed.

Lemma dent_overwrite_ne i : i ≠ sl → (i < dcount c)%nat → dent c' i = dent c i.
Proof.
  intros Hne Hi. unfold dent. apply list_eq. intros j. rewrite !lookup_take, !lookup_drop.
  destruct (decide (j < 16)%nat); [|done]. rewrite overwrite_split.
  destruct (decide (i < sl)%nat).
  - rewrite lookup_app_l by (rewrite length_take; lia). rewrite lookup_take, decide_True by lia. done.
  - rewrite lookup_app_r by (rewrite length_take; lia). rewrite length_take, lookup_app_r by lia.
    rewrite lookup_drop. f_equal. lia.
Qed.

End slot.

(** The free slot of a directory. *)
Lemma dir_slot_spec c : (dir_slot c ≤ dcount c)%nat ∧ ((dir_slot c < dcount c)%nat → live c (dir_slot c) = false).
Proof.
  unfold dir_slot. destruct (first_from _ _ _) as [k|] eqn:E; simpl; [|lia].
  apply first_from_Some in E as (Hk & Hp & _). split; [lia|]. intros _. by apply negb_true_iff.
Qed.

(** An entry written to the free slot is found; every other name keeps its
    entry. *)
Lemma dir_link c nm name inum : length c = (16 * dcount c)%nat → 0 < inum < 65536 → length nm = DIRSIZ →
  dname nm = dname name → dir_find c name = None →
  let c' := overwrite c (16 * Z.of_nat (dir_slot c)) (dirent_bytes inum nm) in
  dir_get c' name = Some inum ∧ ∀ n', dname n' ≠ dname name → dir_get c' n' = dir_get c n'.
Proof.
  intros Hc Hi Hl Hnm Hno c'. destruct (dir_slot_spec c) as [Hs1 Hs2]. set (sl := dir_slot c) in *.
  pose proof (length_dirent inum nm Hl) as He.
  pose proof (dent_overwrite_eq c _ sl Hc He Hs1) as Heq. pose proof (dent_overwrite_ne c _ sl Hc He Hs1) as Hne.
  pose proof (dcount_overwrite c _ sl Hc He Hs1) as Hn. fold c' in Heq, Hne, Hn.
  assert (Hsl : ∀ n', entry_is c' n' sl = bool_decide (dname name = dname n')).
  { intros n'. unfold entry_is, live. rewrite Heq, dirent_inum, dirent_name, Hnm by lia.
    by rewrite (proj2 (Z.eqb_neq _ _)) by lia. }
  assert (Hother : ∀ n' j, (j < dcount c)%nat → j ≠ sl → entry_is c' n' j = entry_is c n' j).
  { intros n' j Hj Hjs. unfold entry_is, live. by rewrite Hne. }
  split.
  - unfold dir_get, dir_find. rewrite (first_from_intro _ 0 (dcount c') sl); [simpl|lia|by rewrite Hsl, bool_decide_eq_true_2|].
    + by rewrite Heq, dirent_inum by lia.
    + intros j Hj. rewrite Hother by lia. apply (first_from_None _ _ 0 Hno). lia.
  - intros n' Hd. unfold dir_get, dir_find. destruct (first_from (entry_is c n') 0 (dcount c)) as [k|] eqn:E.
    + apply first_from_Some in E as (Hk & Hp & Hj).
      assert (Hks : k ≠ sl).
      { intros ->. unfold entry_is in Hp. rewrite Hs2 in Hp by lia. done. }
      rewrite (first_from_intro _ 0 (dcount c') k); [simpl; by rewrite Hne by lia|lia|by rewrite Hother by lia|].
      intros j Hjk. destruct (decide (j = sl)) as [->|]; [by rewrite Hsl, bool_decide_eq_false_2|].
      rewrite Hother by lia. apply Hj. lia.
    + rewrite first_from_none; [done|]. intros j Hj. destruct (decide (j = sl)) as [->|Hjs];
        [by rewrite Hsl, bool_decide_eq_false_2|].
      rewrite Hother by lia. apply (first_from_None _ _ 0 E). lia.
Qed.

End link.

(** The blocks [dirlink] records at most. *)
Definition dirlink_blocks (sb : superblock) : Z := sb_size sb / BPB + 4.

Lemma dirlink_needed sb (i : nat) : writei_blocks sb (16 * Z.of_nat i) 16 = dirlink_blocks sb.
Proof.
  unfold writei_blocks, dirlink_blocks, needed. change (16 =? 0) with false. cbv iota. rewrite BSIZE_eq.
  Z.div_mod_to_equations. lia.
Qed.

Lemma dirlink_run me dev_read dev_write s m dp x name inum : fs_ok s (Z.to_nat (dirlink_blocks (fs_sb s)) + S m) →
  icache s !! dp = Some x → i_dev x = 1 → 0 ≤ i_inum x < sb_ninodes (fs_sb s) → dir_ok s (i_d x) →
  readable name DIRSIZ → Forall (λ b, 0 ≤ b < 256) name → 0 < inum < 65536 →
  let c := fcontents s (i_d x) in
  dir_find c name = None →
  if decide (16 * Z.of_nat (dir_slot c) + 16 ≤ MAXFILE * BSIZE) then
    (∃ s' d' e, dirlink me dev_read dev_write dp name inum s = Ok 0 s' ∧
       file_written s s' dp x d' e (16 * Z.of_nat (dir_slot c)) ∧ length e = 16%nat ∧ dir_ok s' d' ∧
       dir_get (fcontents s' d') name = Some inum ∧
       (∀ n', dname n' ≠ dname name → dir_get (fcontents s' d') n' = dir_get c n') ∧ fs_ok s' (S m)) ∨
    (∃ s', dirlink me dev_read dev_write dp name inum s = Err (Panic "balloc: out of blocks") s' ∧ disk_full s')
  else dirlink me dev_read dev_write dp name inum s = Err (Panic "dirlink") s.
Proof.
  intros Hok Hx Hdev Hin Hdir Hr Hb Hi c Hno. pose proof (fi_wf _ _ _ Hok) as Hwf.
  destruct (stored_name name Hr) as (nm & Hnm & Hl & Hdn). set (e := dirent_bytes inum nm).
  pose proof (length_dirent inum nm Hl) as He. fold e in He. set (off := 16 * Z.of_nat (dir_slot c)).
  pose proof (dir_size s x Hdir) as Hsz. fold c in Hsz. pose proof (fo_size _ _ (dk_file _ _ Hdir)) as Hmax.
  destruct (dir_slot_spec c) as [Hs1 _].
  assert (Hlen : length c = (16 * dcount c)%nat) by (unfold c at 1; rewrite length_fcontents, Hsz; lia).
  assert (Erun : dirlink me dev_read dev_write dp name inum s =
    (r <- writei dev_write dp e off sizeof_dirent ;; if negb (r =? sizeof_dirent) then panic "dirlink" else ret 0) s).
  { unfold dirlink. rewrite (bind_ok _ _ s None s).
    2:{ rewrite (dirlookup_run dev_read s dp x Hwf Hx Hdev Hdir name Hr Hb). fold c. by rewrite Hno. }
    rewrite (bind_inode_at dp x) by done.
    rewrite (bind_ok _ _ _ _ _ (dirlink_slot dev_read s dp x Hwf Hx Hdev Hdir)). rewrite Hnm. cbn [deref]. by rewrite bind_ret. }
  rewrite MAXFILE_eq, BSIZE_eq in *.
  pose proof (writei_run dev_write s m dp x e off 16) as Hw. rewrite (dirlink_needed _ (dir_slot c) : writei_blocks _ off 16 = _) in Hw.
  specialize (Hw Hok Hx Hdev Hin (dk_file _ _ Hdir) ltac:(by rewrite (dk_type _ _ Hdir)) ltac:(lia) ltac:(lia) ltac:(lia)).
  rewrite MAXFILE_eq, BSIZE_eq in Hw. destruct (decide (off + 16 ≤ _)) as [Hfit|Hfull].
  - rewrite decide_True in Hw by lia. destruct Hw as [(s' & d' & Hr' & Hfw & Hok')|(s' & Hr' & Hfull)].
    2:{ right. exists s'. split; [|done]. rewrite Erun. by apply bind_err. }
    left. exists s', d', e. rewrite Erun, (bind_ok _ _ _ _ _ Hr').
    pose proof (fw_contents _ _ _ _ _ _ _ Hfw) as Hc'. fold (overwrite (fcontents s (i_d x)) off e) in Hc'. fold c in Hc'.
    destruct (dir_link c nm name inum Hlen Hi Hl Hdn Hno) as [Hget Hoth]. fold e off in Hget, Hoth.
    rewrite Hc'. split_and!; try done. destruct (fw_same _ _ _ _ _ _ _ Hfw) as [Ht _].
    split; [apply Hfw|by rewrite Ht, (dk_type _ _ Hdir)| |].
    + rewrite (fw_size _ _ _ _ _ _ _ Hfw), Hsz, He. unfold off. Z.div_mod_to_equations. lia.
    + rewrite Hc'. unfold overwrite. apply Forall_app. split; [apply Forall_take, Hdir|]. apply Forall_app.
      split; [by apply dirent_bytes_ok, (strncpy_bytes name DIRSIZ)|apply Forall_drop, Hdir].
  - rewrite decide_False in Hw by lia. rewrite Erun. by rewrite (bind_ok _ _ _ _ _ Hw).
Qed.

(** [dirlookup] finds inode [inum] under a name. *)
Definition finds dev_read (s : fst_st) (dp : nat) (name : list Z) (o : option Z) : Prop :=
  match o with
  | Some inum => ∃ off, dirlookup dev_read dp name s = (ip <- iget 1 inum ;; ret (Some (ip, off))) s
  | None => dirlookup dev_read dp name s = Ok None s
  end.

Lemma dirlookup_finds dev_read s dp x name : fs_wf s → icache s !! dp = Some x → i_dev x = 1 → dir_ok s (i_d x) →
  readable name DIRSIZ → Forall (λ b, 0 ≤ b < 256) name →
  finds dev_read s dp name (dir_get (fcontents s (i_d x)) name).
Proof.
  intros Hwf Hx Hdev Hdir Hr Hb. unfold finds, dir_get.
  rewrite (dirlookup_run dev_read s dp x Hwf Hx Hdev Hdir name Hr Hb).
  destruct (dir_find _ name) as [i|]; simpl; [by eexists|done].
Qed.

(** C15. Directories.  In a transaction with room for its blocks, [dirlink] of a
    name that the directory does not have returns 0, unless the disk is full (a
    panic) or the directory has reached the largest size (a panic, with nothing
    changed).  It writes one entry of 16 bytes; afterwards [dirlookup] of the name
    gets the inode that was linked, and of any other name, compared over its first
    [DIRSIZ] bytes, what it got before; no other inode, and no block of another
    file, has changed. *)
Theorem dirlink_lookup me dev_read dev_write s m dp x name inum :
  fs_ok s (Z.to_nat (dirlink_blocks (fs_sb s)) + S m) →
  icache s !! dp = Some x → i_dev x = 1 → 0 ≤ i_inum x < sb_ninodes (fs_sb s) → dir_ok s (i_d x) →
  readable name DIRSIZ → Forall (λ b, 0 ≤ b < 256) name → 0 < inum < 65536 →
  let c := fcontents s (i_d x) in
  dir_get c name = None →
  if decide (16 * Z.of_nat (dir_slot c) + 16 ≤ MAXFILE * BSIZE) then
    (∃ s' d', dirlink me dev_read dev_write dp name inum s = Ok 0 s' ∧
       icache s' = <[dp := set_idata d' x]> (icache s) ∧ dir_ok s' d' ∧ fs_ok s' (S m) ∧
       finds dev_read s' dp name (Some inum) ∧
       (∀ n', readable n' DIRSIZ → Forall (λ b, 0 ≤ b < 256) n' → dname n' ≠ dname name →
          finds dev_read s dp n' (dir_get c n') ∧ finds dev_read s' dp n' (dir_get c n')) ∧
       (∀ j, 0 ≤ j < sb_ninodes (fs_sb s) → j ≠ i_inum x → dinode_of s' j = dinode_of s j) ∧
       (∀ k, data_block s k → ¬ file_block s (i_d x) k → fv s' k = fv s k)) ∨
    (∃ s', dirlink me dev_read dev_write dp name inum s = Err (Panic "balloc: out of blocks") s' ∧ disk_full s')
  else dirlink me dev_read dev_write dp name inum s = Err (Panic "dirlink") s.
Proof.
  intros Hok Hx Hdev Hin Hdir Hr Hb Hi c Hno.
  assert (Hno' : dir_find c name = None) by (unfold dir_get in Hno; by destruct (dir_find c name)).
  pose proof (dirlink_run me dev_read dev_write s m dp x name inum Hok Hx Hdev Hin Hdir Hr Hb Hi Hno') as Hl.
  fold c in Hl. destruct (decide _); [|done]. destruct Hl as [(s' & d' & e & Hrun & Hfw & _ & Hdir' & Hget & Hoth & Hok')|?]; [left|by right].
  pose proof (fw_icache _ _ _ _ _ _ _ Hfw) as Hic.
  assert (Hx' : icache s' !! dp = Some (set_idata d' x)).
  { rewrite Hic. apply list_lookup_insert_eq. by eapply lookup_lt_Some. }
  assert (Hf : ∀ n', readable n' DIRSIZ → Forall (λ b, 0 ≤ b < 256) n' → finds dev_read s' dp n' (dir_get (fcontents s' d') n')).
  { intros n' Hr' Hb'. by apply (dirlookup_finds dev_read s' dp (set_idata d' x)); [apply Hok'|..]. }
  exists s', d'. split_and!; try done; [by rewrite <-Hget; apply Hf| |apply Hfw|apply Hfw].
  intros n' Hr' Hb' Hne. split; [apply dirlookup_finds; try done; apply Hok|]. rewrite <-Hoth by done. by apply Hf.
Qed.

(** The inode of the entry found may be the directory itself, whose lock the
    caller holds: [dirlink] then waits for it in [iput]. *)
Lemma dirlink_self_blocks me dev_read dev_write s dp x name inum : fs_wf s → icache_ok (icache s) →
  icache s !! dp = Some x → i_dev x = 1 → 0 < i_ref x → slocked (i_lock x) = true → dir_ok s (i_d x) →
  readable name DIRSIZ → Forall (λ b, 0 ≤ b < 256) name →
  dir_get (fcontents s (i_d x)) name = Some (i_inum x) →
  ∃ s', dirlink me dev_read dev_write dp name inum s = Err (Blocked "sleep lock") s'.
Proof.
  intros Hwf Hic Hx Hdev Href Hlk Hdir Hr Hb Hget.
  pose proof (dirlookup_finds dev_read s dp x name Hwf Hx Hdev Hdir Hr Hb) as Hf. rewrite Hget in Hf.
  destruct Hf as [off Hrun].
  assert (Hh : holds_inode 1 (i_inum x) x = true) by (apply holds_inode_spec; by rewrite Hdev).
  destruct (iget_correct s 1 (i_inum x) Hic) as [(k & y & c' & Hig & Hy & _ & _ & Hk & Hor & _)|[_ Hno]].
  2:{ destruct (Hno dp x Hx) as [_ Hf]. by rewrite Hf in Hh. }
  assert (Hhy : holds_inode 1 (i_inum x) y = true) by (destruct Hor as [|[_ Hno]]; [done|by rewrite (Hno dp x Hx) in Hh]).
  assert (k = dp) as -> by (by eapply (proj2 Hic)). rewrite Hx in Hy. injection Hy as <-. rewrite Hh in Hk.
  rewrite (bind_ok _ _ _ _ _ Hig) in Hrun. unfold dirlink. rewrite (bind_ok _ _ _ _ _ Hrun).
  eexists. apply bind_err. unfold iput. apply bind_err. unfold on_ilock. rewrite (bind_inode_at dp (set_iref (i_ref x + 1) x)) by exact Hk.
  unfold acquiresleep, bind, gets. cbn [i_lock set_iref]. by rewrite Hlk.
Qed.

(** ** A directory with two entries *)

(** [.] is inode 5, the directory itself, and [..] inode 1. *)
Definition demo_dir_block : block :=
  dirent_bytes 5 (46 :: replicate 13 0) ++ dirent_bytes 1 (46 :: 46 :: replicate 12 0) ++ replicate 480 0.
Definition demo_dir : dinode := Dinode T_DIR 0 0 1 32 (40 :: replicate NDIRECT 0).
Definition demo_dir_inode : inode := Inode 1 5 1 (Sleeplock true 7) true demo_dir.
Definition demo_dir_fs : fst_st :=
  Fst (Lst (Log 2 31 1 false 0 (replicate (Z.to_nat LOGSIZE) 0))
           (Store {[36 := [255; 255; 255; 255; 255; 1] ++ replicate 506 0; 40 := demo_dir_block]} ∅ 100 []))
      demo_sb (demo_dir_inode :: replicate 49 zero_inode).

Lemma demo_dir_used b : 0 ≤ b < 41 → used demo_dir_fs b.
Proof.
  intros Hb. assert (Hall : forallb (λ b, negb (bit_free (fv demo_dir_fs (BBLOCK b demo_sb)) (b mod BPB))) (seqZ 0 41) = true)
    by (vm_compute; reflexivity).
  rewrite forallb_forall in Hall. apply negb_true_iff. apply Hall. apply list_elem_of_In, elem_of_seqZ. lia.
Qed.

Lemma demo_dir_fs_ok m : (m ≤ 30)%nat → fs_ok demo_dir_fs m.
Proof.
  intros Hm. split; [|split; try done].
  - apply room_empty; [|done|unfold LOGSIZE, MAXOPBLOCKS; cbn; lia..].
    split; try done; cbn [fs_log fs_sb log store_of lg_start lg_size demo_dir_fs demo_sb sb_size].
    + split; [constructor..|simpl; unfold LOGSIZE, MAXOPBLOCKS; lia|simpl; lia].
    + intros k [v Hv]. cbn in Hv. by rewrite lookup_empty in Hv.
  - intros k _. unfold fv, sview, blk. cbn [fs_log store_of demo_dir_fs pinned disk]. rewrite lookup_empty. cbn [default].
    destruct (decide (k = 36)) as [->|]; [vm_compute; reflexivity|]. rewrite lookup_insert_ne by done.
    destruct (decide (k = 40)) as [->|]; [vm_compute; reflexivity|]. rewrite lookup_singleton_ne by done. done.
  - intros b Hb. apply demo_dir_used. change (datastart (fs_sb demo_dir_fs)) with 37 in Hb. lia.
Qed.

(** A file of the one block 40. *)
Lemma one_block_addr s d bn : d_addrs d = 40 :: replicate NDIRECT 0 → 0 ≤ bn < MAXFILE →
  faddr s d bn = if decide (bn = 0) then 40 else 0.
Proof.
  rewrite MAXFILE_eq. intros Ha Hb. unfold faddr, iaddr. rewrite Ha. change (Z.of_nat NDIRECT) with 12.
  destruct (Z.ltb_spec bn 12).
  - destruct (decide (bn = 0)) as [->|]; [done|]. destruct (Z.to_nat bn) as [|i] eqn:E; [lia|].
    change ((40 :: replicate NDIRECT 0) !! S i) with (replicate NDIRECT 0 !! i). rewrite lookup_replicate_2; [done|]. unfold NDIRECT. lia.
  - by rewrite decide_False by lia.
Qed.

Lemma one_block_file s d : fs_sb s = demo_sb → used s 40 → dinode_ok d → d_addrs d = 40 :: replicate NDIRECT 0 →
  d_size d ≤ 512 → file_ok s d.
Proof.
  intros Hsb Hu Hd Ha Hs. assert (Hi : iaddr d = 0) by (unfold iaddr; by rewrite Ha).
  split.
  - split; [done|by rewrite Hi|..].
    + intros bn Hb. rewrite (one_block_addr s d) by done. destruct (decide (bn = 0)); [|done]. intros _.
      rewrite Hi. split; [|done]. split; [by rewrite Hsb|done].
    + intros bn bn' Hb Hb'. rewrite !(one_block_addr s d) by done.
      destruct (decide (bn = 0)), (decide (bn' = 0)); congruence.
  - rewrite MAXFILE_eq, BSIZE_eq. lia.
  - intros bn Hb Hlt. rewrite BSIZE_eq in Hlt. rewrite (one_block_addr s d) by (done || rewrite MAXFILE_eq; lia).
    by rewrite decide_True by lia.
Qed.

Lemma demo_dir_ok : dir_ok demo_dir_fs demo_dir.
Proof.
  split; [|done|done|].
  - apply one_block_file; [done|apply demo_dir_used; lia| |done|done].
    split; cbn; unfold T_DIR; try lia; [done|]. repeat (constructor; [lia|]). constructor.
  - assert (Hall : forallb (λ b, (0 <=? b) && (b <? 256)) (fcontents demo_dir_fs demo_dir) = true) by (vm_compute; reflexivity).
    rewrite forallb_forall in Hall. apply Forall_forall. intros b Hb. apply list_elem_of_In, Hall in Hb. lia.
Qed.

(** The entry [a] for inode 9. *)
Lemma dirlink_lookup_witness : let name := [97; 0] in
  (∃ s' d', dirlink 7 (λ _, None) (λ _, None) 0 name 9 demo_dir_fs = Ok 0 s' ∧
     icache s' = <[0%nat := set_idata d' demo_dir_inode]> (icache demo_dir_fs) ∧ dir_ok s' d' ∧ fs_ok s' 6 ∧
     finds (λ _, None) s' 0 name (Some 9) ∧
     (∀ n', readable n' DIRSIZ → Forall (λ b, 0 ≤ b < 256) n' → dname n' ≠ dname name →
        finds (λ _, None) demo_dir_fs 0 n' (dir_get (fcontents demo_dir_fs demo_dir) n') ∧
        finds (λ _, None) s' 0 n' (dir_get (fcontents demo_dir_fs demo_dir) n')) ∧
     (∀ j, 0 ≤ j < 16 → j ≠ 5 → dinode_of s' j = dinode_of demo_dir_fs j) ∧
     (∀ k, data_block demo_dir_fs k → ¬ file_block demo_dir_fs demo_dir k → fv s' k = fv demo_dir_fs k)) ∨
  (∃ s', dirlink 7 (λ _, None) (λ _, None) 0 name 9 demo_dir_fs = Err (Panic "balloc: out of blocks") s' ∧ disk_full s').
Proof.
  assert (Hg : dir_get (fcontents demo_dir_fs demo_dir) [97; 0] = None) by (vm_compute; reflexivity).
  assert (Hs : dir_slot (fcontents demo_dir_fs demo_dir) = 2%nat) by (vm_compute; reflexivity).
  pose proof (dirlink_lookup 7 (λ _, None) (λ _, None) demo_dir_fs 5 0 demo_dir_inode [97; 0] 9) as H.
  cbn zeta in H. change (i_d demo_dir_inode) with demo_dir in H. rewrite Hs in H. rewrite decide_True in H by (vm_compute; discriminate).
  apply H; clear H.
  - apply demo_dir_fs_ok. apply (bool_decide_unpack _). vm_compute. exact I.
  - reflexivity.
  - reflexivity.
  - cbn. lia.
  - apply demo_dir_ok.
  - left. apply (bool_decide_unpack _). vm_compute. exact I.
  - repeat constructor; lia.
  - lia.
  - exact Hg.
Defined.

(** Linking [.] waits for the lock the caller holds. *)
Lemma dirlink_dot_blocks : ∃ s', dirlink 7 (λ _, None) (λ _, None) 0 [46; 0] 9 demo_dir_fs = Err (Blocked "sleep lock") s'.
Proof.
  apply (dirlink_self_blocks 7 _ _ demo_dir_fs 0 demo_dir_inode); try done.
  - apply (demo_dir_fs_ok 0). lia.
  - split.
    + intros [|i] x Hx; [by injection Hx as <-|]. apply lookup_replicate in Hx as [-> _]. done.
    + intros [|i] [|j] x y dev inum Hx Hy Hhx Hhy; [done|..].
      * apply lookup_replicate in Hy as [-> _]. discriminate Hhy.
      * apply lookup_replicate in Hx as [-> _]. discriminate Hhx.
      * apply lookup_replicate in Hy as [-> _]. discriminate Hhy.
  - apply demo_dir_ok.
  - left. apply (bool_decide_unpack _). vm_compute. exact I.
  - repeat constructor; lia.
Qed.
