(* ===== verification/FsTrunc.v ===== *)
(** Freeing a file: [itrunc] of fs.c

    [file_blocks] lists the blocks of a file, the indirect block last.  [itrunc]
    is shown to return exactly these to the bitmap, each once, to leave an empty
    inode on disk, and to record no more than the bitmap and the block of the
    inode. *)

From stdpp Require Import gmap list numbers strings.
From Stdlib Require Import ZArith Lia.
From S2P Require Import Prelude Memlayout Block Bio Log StringC Fs FsSpec FsFile FsTx.

Definition nz (l : list Z) : list Z := filter (λ a, a ≠ 0) l.

Definition file_blocks (s : fst_st) (d : dinode) : list Z :=
  nz (faddr s d <$> seqZ 0 MAXFILE) ++ nz [iaddr d].

(** The blocks [L] were in use and are now free; only the bitmap has changed. *)
Record frees (s s' : fst_st) (L : list Z) : Prop := {
  fe_used : ∀ b, 0 ≤ b < sb_size (fs_sb s) → (used s' b ↔ used s b ∧ b ∉ L);
  fe_other : ∀ k, ¬ (sb_bmapstart (fs_sb s) ≤ k < datastart (fs_sb s)) → fv s' k = fv s k;
  fe_sb : fs_sb s' = fs_sb s
}.

Section frees.
Implicit Types (s : fst_st) (L : list Z).

Lemma frees_nil s c : frees s (Fst (fs_log s) (fs_sb s) c) [].
Proof. split; try done. intros b Hb. split; [|by intros []]. intros Hu. split; [done|apply not_elem_of_nil]. Qed.

Lemma frees_trans s s1 s2 L1 L2 : frees s s1 L1 → frees s1 s2 L2 → frees s s2 (L1 ++ L2).
Proof.
  intros [U1 O1 E1] [U2 O2 E2]. split.
  - intros b Hb. rewrite U2, U1, elem_of_app by (by rewrite ?E1). tauto.
  - intros k Hk. rewrite O2, O1; [done|done|by rewrite E1].
  - congruence.
Qed.

Lemma frees_icache s s' L c : frees s s' L → frees s (Fst (fs_log s') (fs_sb s') c) L.
Proof. by intros []. Qed.

Lemma frees_data s s' L b : frees s s' L → fs_wf s → data_block s b → b ∉ L → data_block s' b.
Proof.
  intros [U _ E] Hwf Hb Hn. pose proof (data_block_range _ _ Hwf Hb). destruct Hb as [Hr Hu].
  split; [by rewrite E|]. by apply U.
Qed.

(** [bfree] of a block of the data region, the bitmap being set aside. *)
Lemma bfree_frees s F m b : fs_in s F (S m) → bitmap_in (fs_sb s) F → data_block s b →
  ∃ s', bfree 1 b s = Ok tt s' ∧ frees s s' [b] ∧ icache s' = icache s ∧ fs_in s' F (S m).
Proof.
  intros Hok HF Hb. pose proof (data_block_range _ _ (fi_wf _ _ _ Hok) Hb) as Hr.
  destruct (bfree_run s F m b Hok (proj1 Hb) (proj2 Hb)) as (s' & Hrun & [U O E I] & Hok').
  rewrite decide_True in Hok' by (by apply HF). exists s'. split_and!; [done| |done|done]. split; [|done|done].
  intros b' Hb'. rewrite U by done. by rewrite list_elem_of_singleton.
Qed.

End frees.

Lemma nz_cons a l : nz (a :: l) = if decide (a = 0) then nz l else a :: nz l.
Proof. unfold nz. rewrite filter_cons. destruct (decide (a ≠ 0)), (decide (a = 0)); done. Qed.

Lemma elem_of_nz a l : a ∈ nz l ↔ a ≠ 0 ∧ a ∈ l.
Proof. unfold nz. by rewrite list_elem_of_filter. Qed.

Definition set_daddrs (l : list Z) (d : dinode) : dinode :=
  Dinode (d_type d) (d_major d) (d_minor d) (d_nlink d) (d_size d) l.

(** ** The loops *)

Section loops.
Implicit Types (s : fst_st) (F : gset Z) (x : inode) (m ip i j n : nat) (a : block).

Lemma itrunc_indirect_run a n : ∀ j s F m, fs_in s F (S m) → bitmap_in (fs_sb s) F →
  let L := nz ((λ k, get32 a (4 * k)) <$> seq j n) in
  NoDup L → Forall (data_block s) L →
  ∃ s', itrunc_indirect n j 1 a s = Ok tt s' ∧ frees s s' L ∧ icache s' = icache s ∧ fs_in s' F (S m).
Proof.
  induction n as [|n IH]; intros j s F m Hok HF L Hnd Hall; unfold L in *; cbn [itrunc_indirect seq fmap list_fmap] in *.
  { exists s. split_and!; [done| |done|done]. destruct s. apply frees_nil. }
  rewrite nz_cons in *. destruct (Z.eqb_spec (get32 a (4 * j)) 0) as [E|E].
  - rewrite decide_True in * by done. rewrite bind_ret. by apply IH.
  - rewrite decide_False in * by done. apply NoDup_cons in Hnd as [Hn Hnd]. apply Forall_cons in Hall as [Hb Hall].
    destruct (bfree_frees s F m _ Hok HF Hb) as (s1 & Hr1 & Hf1 & Hi1 & Hok1). rewrite (bind_ok _ _ _ _ _ Hr1).
    destruct (IH (S j) s1 F m Hok1) as (s2 & Hr2 & Hf2 & Hi2 & Hok2); [by rewrite (fe_sb _ _ _ Hf1)|done| |].
    { eapply Forall_impl; [|intros b Hb'; exact Hb']. apply Forall_forall. intros b Hb'.
      eapply frees_data; [exact Hf1|apply Hok|by eapply Forall_forall in Hall|].
      intros ->%list_elem_of_singleton. done. }
    exists s2. split_and!; [done| |congruence|done]. by apply (frees_trans s s1 s2 [_]).
Qed.

Lemma itrunc_direct_run n : ∀ i s F m ip x, (i + n = NDIRECT)%nat → fs_in s F (S m) → bitmap_in (fs_sb s) F →
  icache s !! ip = Some x → i_dev x = 1 → length (d_addrs (i_d x)) = S NDIRECT →
  let A := d_addrs (i_d x) in
  let L := nz (drop i (take NDIRECT A)) in
  NoDup L → Forall (data_block s) L →
  ∃ s', itrunc_direct n i ip s = Ok tt s' ∧ frees s s' L ∧ fs_in s' F (S m) ∧
    icache s' = <[ip := set_idata (set_daddrs (take i A ++ replicate n 0 ++ drop NDIRECT A) (i_d x)) x]> (icache s).
Proof.
  induction n as [|n IH]; intros i s F m ip x Hi Hok HF Hx Hdev Hlen A L Hnd Hall; unfold L in *; cbn [itrunc_direct] in *.
  { exists s. assert (i = NDIRECT) as -> by lia. rewrite drop_ge by (rewrite length_take; lia).
    split_and!; [done|destruct s; apply frees_nil|done|]. cbn [replicate app]. rewrite take_drop.
    symmetry. apply list_insert_id. rewrite Hx. f_equal. unfold A. by destruct x as [? ? ? ? ? []]. }
  assert (Hlt : (ip < length (icache s))%nat) by (by eapply lookup_lt_Some).
  destruct (lookup_lt_is_Some_2 A i) as [b Hb]; [unfold A; lia|].
  assert (Ed : drop i (take NDIRECT A) = b :: drop (S i) (take NDIRECT A)).
  { apply drop_S. rewrite lookup_take, decide_True by lia. done. }
  rewrite (bind_inode_at ip x) by done. fold A. rewrite Hb. cbn [deref]. rewrite bind_ret, Hdev.
  rewrite Ed, nz_cons in *.
  assert (Hend : ∀ l : list Z, length l = length A → take i l = take i A → l !! i = Some 0 → drop (S i) l = drop (S i) A →
    take (S i) l ++ replicate n 0 ++ drop NDIRECT l = take i A ++ replicate (S n) 0 ++ drop NDIRECT A).
  { intros l Hl Ht H0 Hd. rewrite (take_S_r l i 0 H0), Ht, <-app_assoc. cbn [app replicate]. do 3 f_equal.
    replace NDIRECT with (S i + n)%nat by lia. by rewrite <-!drop_drop, Hd. }
  destruct (Z.eqb_spec b 0) as [->|E].
  - rewrite decide_True in * by done. rewrite bind_ret.
    destruct (IH (S i) s F m ip x) as (s' & Hr & Hf & Hok' & Hic); try done; [lia|].
    exists s'. split_and!; try done. rewrite Hic. fold A. by rewrite Hend.
  - rewrite decide_False in * by done. apply NoDup_cons in Hnd as [Hn Hnd]. apply Forall_cons in Hall as [Hb' Hall].
    destruct (bfree_frees s F m b Hok HF Hb') as (s1 & Hr1 & Hf1 & Hi1 & Hok1).
    rewrite bind_assoc, (bind_ok _ _ _ _ _ Hr1). unfold upd_dinode.
    rewrite (bind_upd_inode ip _ x) by (by rewrite Hi1).
    set (A1 := <[i := 0]> A). set (x1 := set_idata (set_daddr i 0 (i_d x)) x).
    set (s1' := Fst (fs_log s1) (fs_sb s1) (<[ip := x1]> (icache s1))).
    assert (Hx1 : icache s1' !! ip = Some x1) by (apply list_lookup_insert_eq; by rewrite Hi1).
    assert (Ed1 : drop (S i) (take NDIRECT A1) = drop (S i) (take NDIRECT A)).
    { rewrite !skipn_firstn_comm. f_equal. unfold A1. by rewrite drop_insert_lt by lia. }
    destruct (IH (S i) s1' F m ip x1) as (s' & Hr & Hf & Hok' & Hic); try done; [lia|by apply fs_in_icache| | | | |].
    { cbn [fs_sb s1']. by rewrite (fe_sb _ _ _ Hf1). }
    { cbn. by rewrite length_insert. }
    { change (d_addrs (i_d x1)) with A1. by rewrite Ed1. }
    { change (d_addrs (i_d x1)) with A1. rewrite Ed1. apply Forall_forall. intros b2 Hb2.
      eapply (frees_data s); [by apply frees_icache|apply Hok|by eapply Forall_forall in Hall|].
      intros ->%list_elem_of_singleton. done. }
    exists s'. change (d_addrs (i_d x1)) with A1 in Hf, Hic. rewrite Ed1 in Hf. split_and!; try done.
    + eapply (frees_trans s s1' s' [b]); [by apply frees_icache|done].
    + rewrite Hic. cbn [icache s1']. rewrite Hi1, list_insert_insert_eq. f_equal. unfold x1, set_idata, set_daddrs, set_daddr.
      cbn. do 2 f_equal. apply Hend; unfold A1.
      * apply length_insert.
      * by rewrite take_insert_ge by lia.
      * apply list_lookup_insert_eq. unfold A. lia.
      * by rewrite drop_insert_lt by lia.
Qed.

End loops.

(** ** The blocks of a file *)

Section blocks.
Variables (s : fst_st) (d : dinode).
Hypothesis Hm : map_ok s d.

Lemma direct_addrs : faddr s d <$> seqZ 0 (Z.of_nat NDIRECT) = take NDIRECT (d_addrs d).
Proof.
  pose proof (do_len _ (mo_dinode _ _ Hm)) as Hl. apply list_eq. intros i. rewrite list_lookup_fmap, lookup_take.
  destruct (decide (i < NDIRECT)%nat) as [Hi|Hi].
  - rewrite lookup_seqZ_lt by lia. cbn [fmap option_fmap option_map]. unfold faddr. rewrite (proj2 (Z.ltb_lt _ _)) by lia.
    replace (Z.to_nat (0 + Z.of_nat i)) with i by lia. destruct (lookup_lt_is_Some_2 (d_addrs d) i) as [a Ha]; [lia|]. by rewrite Ha.
  - rewrite lookup_seqZ_ge by lia. done.
Qed.

Lemma indirect_addrs : nz (faddr s d <$> seqZ (Z.of_nat NDIRECT) (Z.of_nat NINDIRECT)) =
  if decide (iaddr d = 0) then [] else nz ((λ k, get32 (fv s (iaddr d)) (4 * k)) <$> seq 0 NINDIRECT).
Proof.
  destruct (decide (iaddr d = 0)) as [E|E].
  - destruct (nz _) as [|b l] eqn:Enz; [done|]. exfalso.
    assert (Hin : b ∈ nz (faddr s d <$> seqZ (Z.of_nat NDIRECT) (Z.of_nat NINDIRECT))) by (rewrite Enz; left).
    apply elem_of_nz in Hin as (Hb & (bn & -> & Hbn%elem_of_seqZ)%list_elem_of_fmap). apply Hb.
    unfold faddr. rewrite (proj2 (Z.ltb_ge _ _)) by lia. by rewrite E.
  - f_equal. apply list_eq. intros i. rewrite !list_lookup_fmap.
    destruct (decide (i < NINDIRECT)%nat) as [Hi|Hi].
    + rewrite lookup_seqZ_lt, lookup_seq_lt by lia. cbn [fmap option_fmap option_map]. unfold faddr. rewrite (proj2 (Z.ltb_ge _ _)) by lia.
      rewrite (proj2 (Z.eqb_neq _ _)) by done. do 2 f_equal. lia.
    + rewrite lookup_seqZ_ge, lookup_seq_ge by lia. done.
Qed.

Lemma file_blocks_parts : file_blocks s d = nz (take NDIRECT (d_addrs d)) ++
  (if decide (iaddr d = 0) then [] else nz ((λ k, get32 (fv s (iaddr d)) (4 * k)) <$> seq 0 NINDIRECT) ++ [iaddr d]).
Proof.
  unfold file_blocks. change MAXFILE with (Z.of_nat NDIRECT + Z.of_nat NINDIRECT).
  rewrite seqZ_app, fmap_app, direct_addrs by lia. unfold nz at 1. rewrite filter_app. fold (nz (take NDIRECT (d_addrs d))).
  rewrite <-app_assoc. f_equal. rewrite Z.add_0_l. fold (nz (faddr s d <$> seqZ (Z.of_nat NDIRECT) (Z.of_nat NINDIRECT))).
  rewrite indirect_addrs, nz_cons. destruct (decide (iaddr d = 0)); done.
Qed.

Lemma elem_of_file_blocks b : b ∈ file_blocks s d ↔ b ≠ 0 ∧ file_block s d b.
Proof.
  unfold file_blocks, file_block. rewrite elem_of_app, !elem_of_nz, list_elem_of_singleton, list_elem_of_fmap.
  setoid_rewrite elem_of_seqZ. rewrite Z.add_0_l. naive_solver.
Qed.

Lemma file_blocks_data : Forall (data_block s) (file_blocks s d).
Proof.
  apply Forall_forall. intros b [Hb [->|(bn & Hbn & E)]]%elem_of_file_blocks.
  - by apply (mo_ind _ _ Hm).
  - rewrite <-E in *. by apply (mo_blk _ _ Hm).
Qed.

Lemma NoDup_nz_fmap (f : Z → Z) l : NoDup l → (∀ i j, i ∈ l → j ∈ l → f i ≠ 0 → f i = f j → i = j) → NoDup (nz (f <$> l)).
Proof.
  induction l as [|i l IH]; [constructor|]. intros [Hi Hnd]%NoDup_cons Hinj. cbn [fmap list_fmap]. rewrite nz_cons.
  assert (IH' : NoDup (nz (f <$> l))) by (apply IH; [done|]; intros; apply Hinj; set_solver).
  destruct (decide (f i = 0)); [done|]. apply NoDup_cons. split; [|done].
  rewrite elem_of_nz, list_elem_of_fmap. intros (_ & j & E & Hj). apply Hi.
  assert (i = j) as -> by (apply Hinj; [set_solver|set_solver|done|done]). done.
Qed.

Lemma file_blocks_NoDup : NoDup (file_blocks s d).
Proof.
  apply NoDup_app. split_and!.
  - apply NoDup_nz_fmap; [apply NoDup_seqZ|]. intros i j Hi%elem_of_seqZ Hj%elem_of_seqZ.
    apply (mo_inj _ _ Hm); lia.
  - intros b. rewrite !elem_of_nz, list_elem_of_singleton, list_elem_of_fmap. intros (Hb & bn & E & Hbn%elem_of_seqZ) (_ & E').
    rewrite E in Hb. destruct (mo_blk _ _ Hm bn ltac:(lia) Hb) as [_ Hne]. congruence.
  - rewrite nz_cons. case_decide; [constructor|apply NoDup_singleton].
Qed.

End blocks.

(** ** [itrunc] *)

Definition emptied (d : dinode) : dinode := set_dsize 0 (set_daddrs (replicate (S NDIRECT) 0) d).

(** The blocks of the file [d] of inode [inum] are free, and its inode on disk is [d']. *)
Record freed (s s' : fst_st) (inum : Z) (d d' : dinode) : Prop := {
  fd_disk : dinode_of s' inum = d';
  fd_inodes : ∀ j, 0 ≤ j < sb_ninodes (fs_sb s) → j ≠ inum → dinode_of s' j = dinode_of s j;
  fd_used : ∀ b, 0 < b < sb_size (fs_sb s) → (used s' b ↔ used s b ∧ ¬ file_block s d b);
  fd_data : ∀ k, datastart (fs_sb s) ≤ k → fv s' k = fv s k;
  fd_sb : fs_sb s' = fs_sb s
}.

(** The blocks that [itrunc] records at most: the bitmap and the inode. *)
Definition itrunc_blocks (sb : superblock) : Z := sb_size sb / BPB + 2.

Lemma run_upd_inode ip f x s : icache s !! ip = Some x →
  upd_inode ip f s = Ok tt (Fst (fs_log s) (fs_sb s) (<[ip := f x]> (icache s))).
Proof.
  intros Hx. etrans; [|exact (bind_upd_inode ip f x s ret Hx)]. unfold bind, ret. by destruct (upd_inode _ _ _) as [[]|].
Qed.

(** The indirect block, with what it lists. *)
Lemma itrunc_tail_run s F m ip x a : fs_in s F (S m) → bitmap_in (fs_sb s) F → icache s !! ip = Some x → i_dev x = 1 →
  d_addrs (i_d x) !! NDIRECT = Some a →
  let L := if decide (a = 0) then [] else nz ((λ k, get32 (fv s a) (4 * k)) <$> seq 0 NINDIRECT) ++ [a] in
  NoDup L → Forall (data_block s) L →
  ∃ s', (if a =? 0 then ret tt
         else bp <- fread 1 a ;; itrunc_indirect NINDIRECT 0 1 bp ;;;
              bfree 1 a ;;; upd_dinode ip (set_daddr NDIRECT 0)) s = Ok tt s' ∧
    frees s s' L ∧ fs_in s' F (S m) ∧ icache s' = <[ip := set_idata (set_daddr NDIRECT 0 (i_d x)) x]> (icache s).
Proof.
  intros Hok HF Hx Hdev Ha L Hnd Hall. unfold L in *. clear L. destruct (Z.eqb_spec a 0) as [->|E].
  { exists s. split_and!; [done|destruct s; apply frees_nil|done|]. symmetry. apply list_insert_id. rewrite Hx. f_equal.
    unfold set_daddr. rewrite list_insert_id by done. by destruct x as [? ? ? ? ? []]. }
  rewrite decide_False in * by done. set (L := nz _) in *.
  apply NoDup_app in Hnd as (Hnd & Hdis & _). apply Forall_app in Hall as [Hall [Hda _]%Forall_cons].
  pose proof (fi_wf _ _ _ Hok) as Hwf. rewrite bind_fread by (try apply (data_block_range _ _ Hwf); done).
  destruct (itrunc_indirect_run (fv s a) NINDIRECT 0 s F m Hok HF Hnd Hall) as (s2 & Hr2 & Hf2 & Hic2 & Hok2).
  rewrite (bind_ok _ _ _ _ _ Hr2). fold L in Hf2.
  destruct (bfree_frees s2 F m a Hok2) as (s3 & Hr3 & Hf3 & Hic3 & Hok3); [by rewrite (fe_sb _ _ _ Hf2)| |].
  { eapply frees_data; [exact Hf2|done|done|]. intros Hin. apply (Hdis _ Hin). left. }
  rewrite (bind_ok _ _ _ _ _ Hr3). assert (Hx3 : icache s3 !! ip = Some x) by (by rewrite Hic3, Hic2).
  exists (Fst (fs_log s3) (fs_sb s3) (<[ip := set_idata (set_daddr NDIRECT 0 (i_d x)) x]> (icache s3))).
  split_and!; [by apply (run_upd_inode ip (λ x, set_idata (set_daddr NDIRECT 0 (i_d x)) x) x)|by apply frees_icache, (frees_trans _ s2)|by apply fs_in_icache|cbn [icache]; by rewrite Hic3, Hic2].
Qed.

(** All the blocks. *)
Lemma itrunc_frees s F m ip x : fs_in s F (S m) → bitmap_in (fs_sb s) F →
  icache s !! ip = Some x → i_dev x = 1 → map_ok s (i_d x) →
  ∃ s', itrunc ip s = (upd_dinode ip (set_dsize 0) ;;; iupdate ip) s' ∧
    frees s s' (file_blocks s (i_d x)) ∧ fs_in s' F (S m) ∧
    icache s' = <[ip := set_idata (set_daddrs (replicate (S NDIRECT) 0) (i_d x)) x]> (icache s).
Proof.
  intros Hok HF Hx Hdev Hm. pose proof (do_len _ (mo_dinode _ _ Hm)) as Hlen.
  set (d := i_d x) in *. set (A := d_addrs d) in *.
  assert (Hlt : (ip < length (icache s))%nat) by (by eapply lookup_lt_Some).
  pose proof (file_blocks_NoDup s d Hm) as Hnd. pose proof (file_blocks_data s d Hm) as Hall.
  rewrite (file_blocks_parts s d Hm) in *. fold A in Hnd, Hall |- *.
  apply NoDup_app in Hnd as (Hnd1 & Hdis & Hnd2). apply Forall_app in Hall as [Hall1 Hall2].
  unfold itrunc.
  destruct (itrunc_direct_run NDIRECT 0 s F m ip x) as (s1 & Hr1 & Hf1 & Hok1 & Hic1); try done.
  rewrite (bind_ok _ _ _ _ _ Hr1). fold d A in Hic1, Hf1. change (drop 0 (take NDIRECT A)) with (take NDIRECT A) in Hf1.
  change (take 0 A ++ replicate NDIRECT 0 ++ drop NDIRECT A) with (replicate NDIRECT 0 ++ drop NDIRECT A) in Hic1.
  assert (HA : drop NDIRECT A = [iaddr d]).
  { destruct (lookup_lt_is_Some_2 A NDIRECT) as [b Hb]; [lia|]. rewrite (drop_S _ b) by done.
    rewrite drop_ge by lia. unfold iaddr. fold A. by rewrite Hb. }
  rewrite HA in Hic1. set (x1 := set_idata _ x) in Hic1.
  assert (Hx1 : icache s1 !! ip = Some x1) by (rewrite Hic1; by apply list_lookup_insert_eq).
  assert (HA1 : d_addrs (i_d x1) !! NDIRECT = Some (iaddr d)) by done.
  rewrite (bind_inode_at ip x1) by done. rewrite HA1. cbn [deref]. rewrite bind_ret.
  change (i_dev x1) with (i_dev x). rewrite Hdev.
  pose proof (fi_wf _ _ _ Hok) as Hwf. set (L := if decide _ then _ else _) in Hdis, Hnd2, Hall2 |- *.
  assert (Eind : (if decide (iaddr d = 0) then []
    else nz ((λ k, get32 (fv s1 (iaddr d)) (4 * k)) <$> seq 0 NINDIRECT) ++ [iaddr d]) = L).
  { unfold L. destruct (decide (iaddr d = 0)) as [|E]; [done|]. destruct (mo_ind _ _ Hm E) as [? _].
    by rewrite (fe_other _ _ _ Hf1) by lia. }
  destruct (itrunc_tail_run s1 F m ip x1 (iaddr d)) as (s2 & Hr2 & Hf2 & Hok2 & Hic2);
    [done|by rewrite (fe_sb _ _ _ Hf1)|done|done|done|by rewrite Eind| |].
  { rewrite Eind. apply Forall_forall. intros b Hb. rewrite Forall_forall in Hall2.
    eapply frees_data; [exact Hf1|done|by apply Hall2|]. intros Hin. by apply (Hdis b). }
  rewrite Eind in Hf2. rewrite (bind_ok _ _ _ _ _ Hr2). exists s2.
  split_and!; [done|by eapply frees_trans|done|].
  by rewrite Hic2, Hic1, list_insert_insert_eq.
Qed.

Lemma freed_store s s1 s2 inum d d1 d2 : fs_wf s → 0 ≤ inum < sb_ninodes (fs_sb s) →
  freed s s1 inum d d1 → inode_stored s1 s2 inum d2 → freed s s2 inum d d2.
Proof.
  intros Hwf Hi [_ I U D E] [N O B U' E' _]. pose proof (iblock_range _ _ (wf_sb _ Hwf) Hi) as Hib.
  pose proof (datastart_pos _ (wf_sb _ Hwf)). split; [done| | | |congruence].
  - intros j Hj Hne. by rewrite O, I.
  - intros b Hb. rewrite U', U by (rewrite ?E; lia). done.
  - intros k Hk. rewrite B, D by (rewrite ?E; lia). done.
Qed.

Lemma freed_icache s s' inum d d' c : freed s s' inum d d' → freed s (Fst (fs_log s') (fs_sb s') c) inum d d'.
Proof. by intros []. Qed.

Lemma freed_from_icache s s' inum d d' c : freed (Fst (fs_log s) (fs_sb s) c) s' inum d d' → freed s s' inum d d'.
Proof. by intros []. Qed.

(** Freeing the blocks leaves every inode on disk. *)
Lemma frees_freed s s' inum d : fs_wf s → map_ok s d → 0 ≤ inum < sb_ninodes (fs_sb s) →
  frees s s' (file_blocks s d) → freed s s' inum d (dinode_of s inum).
Proof.
  intros Hwf Hm Hi [U O E]. pose proof (datastart_pos _ (wf_sb _ Hwf)).
  assert (Hino : ∀ j, 0 ≤ j < sb_ninodes (fs_sb s) → dinode_of s' j = dinode_of s j).
  { intros j Hj. pose proof (iblock_range _ _ (wf_sb _ Hwf) Hj). unfold dinode_of. rewrite E, O by lia. done. }
  split; [by apply Hino|auto| | |done].
  - intros b Hb. rewrite U, (elem_of_file_blocks s d) by lia. split; intros [? Hn]; (split; [done|]); intros ?; apply Hn; [|tauto].
    split; [lia|done].
  - intros k Hk. apply O. lia.
Qed.

(** Setting aside the bitmap and the inode. *)
Lemma itrunc_reserve s m inum : fs_ok s (Z.to_nat (itrunc_blocks (fs_sb s)) + m) →
  ∃ F, bitmap_in (fs_sb s) F ∧ IBLOCK inum (fs_sb s) ∈ F ∧ fs_in s F m.
Proof.
  intros Hok. pose proof (wf_sb _ (fi_wf _ _ _ Hok)) as Hsb. pose proof (size_bitmap_blocks _ Hsb) as Hsz.
  pose proof (datastart_pos _ Hsb). set (G := bitmap_blocks (fs_sb s)) in *. unfold itrunc_blocks in Hok.
  assert (Hok1 : fs_in s (G ∪ ∅) (S m)) by (apply fs_reserve_all; eapply fs_in_weaken; [exact Hok|done|lia]).
  apply (fs_reserve _ _ _ (IBLOCK inum (fs_sb s))) in Hok1. exists ({[IBLOCK inum (fs_sb s)]} ∪ (G ∪ ∅)). split_and!; [|set_solver|exact Hok1].
  apply bitmap_blocks_in; [done|]. fold G. set_solver.
Qed.

(** [iupdate] of an inode whose block is set aside. *)
Lemma iupdate_held s F m ip x : fs_in s F (S m) → IBLOCK (i_inum x) (fs_sb s) ∈ F → icache s !! ip = Some x →
  i_dev x = 1 → 0 ≤ i_inum x < sb_ninodes (fs_sb s) → dinode_ok (i_d x) →
  ∃ s', iupdate ip s = Ok tt s' ∧ inode_stored s s' (i_inum x) (i_d x) ∧ fs_in s' F (S m).
Proof.
  intros Hok HI Hx Hdev Hi Hd. destruct (iupdate_run s F m ip x Hok Hx Hdev Hi Hd) as (s' & ? & ? & Hok').
  rewrite decide_True in Hok' by done. eauto.
Qed.

Lemma emptied_ok d : dinode_ok d → dinode_ok (emptied d).
Proof. intros []. split; try done. cbn. repeat constructor; lia. Qed.

Lemma itrunc_run s F m ip x : fs_in s F (S m) → bitmap_in (fs_sb s) F →
  IBLOCK (i_inum x) (fs_sb s) ∈ F → icache s !! ip = Some x → i_dev x = 1 →
  0 ≤ i_inum x < sb_ninodes (fs_sb s) → map_ok s (i_d x) →
  ∃ s', itrunc ip s = Ok tt s' ∧ freed s s' (i_inum x) (i_d x) (emptied (i_d x)) ∧ fs_in s' F (S m) ∧
    icache s' = <[ip := set_idata (emptied (i_d x)) x]> (icache s).
Proof.
  intros Hok HF HI Hx Hdev Hi Hm. pose proof (fi_wf _ _ _ Hok) as Hwf.
  assert (Hlt : (ip < length (icache s))%nat) by (by eapply lookup_lt_Some).
  destruct (itrunc_frees s F m ip x Hok HF Hx Hdev Hm) as (s1 & -> & Hf1 & Hok1 & Hic1).
  pose proof (frees_freed _ _ (i_inum x) _ Hwf Hm Hi Hf1) as Hfd. pose proof (fe_sb _ _ _ Hf1) as Esb. set (x1 := set_idata _ x) in Hic1.
  assert (Hx1 : icache s1 !! ip = Some x1) by (rewrite Hic1; by apply list_lookup_insert_eq).
  unfold upd_dinode. rewrite (bind_upd_inode ip _ x1) by done.
  rewrite Hic1, list_insert_insert_eq. change (set_idata _ x1) with (set_idata (emptied (i_d x)) x). set (x2 := set_idata _ x).
  set (s2 := Fst _ _ _). assert (Hx2 : icache s2 !! ip = Some x2) by (by apply list_lookup_insert_eq).
  destruct (iupdate_held s2 F m ip x2) as (s3 & Hr3 & Hst & Hok3);
    [by apply fs_in_icache|by rewrite <-Esb in HI|done|done|by rewrite <-Esb in Hi|apply emptied_ok, Hm|].
  exists s3. split_and!; [done| |done|by rewrite (is_icache _ _ _ _ Hst)].
  eapply freed_store; [done|done|by apply freed_icache|exact Hst].
Qed.

(** ** [iput] *)

(** The entry that dropping a reference leaves: the last one to a file without
    a link frees the inode. *)
Definition dropped (x : inode) : inode :=
  if decide (i_valid x = true ∧ d_nlink (i_d x) = 0 ∧ i_ref x = 1)
  then Inode (i_dev x) (i_inum x) 0 (Sleeplock false 0) false (set_dtype 0 (emptied (i_d x)))
  else Inode (i_dev x) (i_inum x) (i_ref x - 1) (Sleeplock false 0) (i_valid x) (i_d x).

(** Freeing the inode. *)
Lemma iput_free_run s m ip x : fs_ok s (Z.to_nat (itrunc_blocks (fs_sb s)) + S m) →
  icache s !! ip = Some x → i_dev x = 1 → 0 ≤ i_inum x < sb_ninodes (fs_sb s) → map_ok s (i_d x) →
  let x' := Inode (i_dev x) (i_inum x) (i_ref x) (i_lock x) false (set_dtype 0 (emptied (i_d x))) in
  ∃ s', (itrunc ip ;;; upd_dinode ip (set_dtype 0) ;;; iupdate ip ;;; upd_inode ip (set_ivalid false)) s = Ok tt s' ∧
    freed s s' (i_inum x) (i_d x) (i_d x') ∧ fs_ok s' (S m) ∧ icache s' = <[ip := x']> (icache s).
Proof.
  intros Hok Hx Hdev Hi Hm x'. pose proof (fi_wf _ _ _ Hok) as Hwf.
  assert (Hlt : (ip < length (icache s))%nat) by (by eapply lookup_lt_Some).
  destruct (itrunc_reserve s (S m) (i_inum x) Hok) as (F & HF & HI & HokF).
  destruct (itrunc_run s F m ip x) as (s1 & Hr1 & Hfd & Hok1 & Hic1); [done..|].
  rewrite (bind_ok _ _ _ _ _ Hr1). pose proof (fd_sb _ _ _ _ _ Hfd) as Esb.
  set (x1 := set_idata _ x) in Hic1. assert (Hx1 : icache s1 !! ip = Some x1) by (rewrite Hic1; by apply list_lookup_insert_eq).
  unfold upd_dinode. rewrite (bind_upd_inode ip _ x1), Hic1, list_insert_insert_eq by done.
  set (x2 := set_idata _ x1). set (s2 := Fst _ _ _).
  assert (Hx2 : icache s2 !! ip = Some x2) by (by apply list_lookup_insert_eq).
  destruct (iupdate_held s2 F m ip x2) as (s3 & Hr3 & Hst & Hok3);
    [by apply fs_in_icache|by rewrite <-Esb in HI|done|done|by rewrite <-Esb in Hi| |].
  { destruct (emptied_ok _ (mo_dinode _ _ Hm)). by split. }
  rewrite (bind_ok _ _ _ _ _ Hr3). assert (Hx3 : icache s3 !! ip = Some x2) by (by rewrite (is_icache _ _ _ _ Hst)).
  eexists. split_and!; [by apply (run_upd_inode ip (set_ivalid false) x2)| | |].
  - apply freed_icache. eapply freed_store; [done|done|by apply freed_icache|exact Hst].
  - apply fs_in_icache. by eapply fs_in_weaken.
  - cbn [icache]. rewrite (is_icache _ _ _ _ Hst). cbn [icache s2]. by rewrite list_insert_insert_eq.
Qed.

Section iput.
Variables (me : Z) (s : fst_st) (ip : nat) (x : inode).
Hypothesis Hx : icache s !! ip = Some x.
Hypothesis Hlk : slocked (i_lock x) = false.
#[local] Abbreviation last := (i_valid x = true ∧ d_nlink (i_d x) = 0 ∧ i_ref x = 1).

Lemma iput_release s2 x2 : icache s2 = <[ip := x2]> (icache s) →
  (on_ilock ip releasesleep ;;; upd_inode ip (λ x, set_iref (i_ref x - 1) x)) s2 =
  Ok tt (Fst (fs_log s2) (fs_sb s2) (<[ip := set_iref (i_ref x2 - 1) (set_ilock unlocked x2)]> (icache s))).
Proof.
  assert (Hlt : (ip < length (icache s))%nat) by (by eapply lookup_lt_Some).
  intros E. assert (Hx2 : icache s2 !! ip = Some x2) by (rewrite E; by apply list_lookup_insert_eq).
  rewrite (bind_on_ilock ip releasesleep x2 tt (Sleeplock false 0)) by done. rewrite E, list_insert_insert_eq.
  rewrite (run_upd_inode ip _ (set_ilock (Sleeplock false 0) x2)) by (by apply list_lookup_insert_eq).
  cbn [fs_log fs_sb icache]. by rewrite list_insert_insert_eq.
Qed.

(** The body of [iput], past the lock. *)
Lemma iput_locked : let x1 := set_ilock (Sleeplock true me) x in
  iput me ip s =
  ((if decide last then
      itrunc ip ;;; upd_dinode ip (set_dtype 0) ;;; iupdate ip ;;; upd_inode ip (set_ivalid false)
    else ret tt) ;;;
   on_ilock ip releasesleep ;;; upd_inode ip (λ x, set_iref (i_ref x - 1) x))
  (Fst (fs_log s) (fs_sb s) (<[ip := x1]> (icache s))).
Proof.
  assert (Hlt : (ip < length (icache s))%nat) by (by eapply lookup_lt_Some). intros x1.
  unfold iput. erewrite bind_on_ilock; [|done|]; [|unfold acquiresleep, bind, gets, put; rewrite Hlk; done].
  rewrite (bind_inode_at ip x1) by (by apply list_lookup_insert_eq).
  change (i_valid x1) with (i_valid x). change (i_ref x1) with (i_ref x). change (i_d x1) with (i_d x).
  case_decide as Hd; [by destruct Hd as (-> & -> & ->)|]. destruct (i_valid x); [|done].
  destruct (Z.eqb_spec (d_nlink (i_d x)) 0); [|done]. destruct (Z.eqb_spec (i_ref x) 1); [|done]. naive_solver.
Qed.

(** A reference that is not the last one to a file without a link. *)
Lemma iput_keep : ¬ last →
  iput me ip s = Ok tt (put_inode ip (set_iref (i_ref x - 1) (set_ilock unlocked x)) s).
Proof.
  intros Hl. rewrite iput_locked. rewrite decide_False by done. rewrite bind_ret.
  by apply (iput_release (Fst _ _ _) (set_ilock (Sleeplock true me) x)).
Qed.

Lemma iput_run m : fs_ok s (Z.to_nat (itrunc_blocks (fs_sb s)) + S m) →
  i_dev x = 1 → 0 ≤ i_inum x < sb_ninodes (fs_sb s) → map_ok s (i_d x) →
  ∃ s', iput me ip s = Ok tt s' ∧ fs_ok s' (S m) ∧ icache s' = <[ip := dropped x]> (icache s) ∧
    (if decide last then freed s s' (i_inum x) (i_d x) (set_dtype 0 (emptied (i_d x)))
     else fs_log s' = fs_log s ∧ fs_sb s' = fs_sb s).
Proof.
  intros Hok Hdev Hi Hm. assert (Hlt : (ip < length (icache s))%nat) by (by eapply lookup_lt_Some).
  unfold dropped. case_decide as Hd.
  - rewrite iput_locked, decide_True by done. set (x1 := set_ilock _ x). set (s1 := Fst _ _ _).
    assert (Hx1 : icache s1 !! ip = Some x1) by (by apply list_lookup_insert_eq).
    destruct (iput_free_run s1 m ip x1) as (s2 & Hr2 & Hfd & Hok2 & Hic2);
      [by apply fs_in_icache|done..|by apply map_ok_icache|]. cbn [icache s1] in Hic2. rewrite list_insert_insert_eq in Hic2.
    rewrite (bind_ok _ _ _ _ _ Hr2), (iput_release _ _ Hic2). eexists.
    split_and!; [done|by apply fs_in_icache|cbn; by rewrite (proj2 (proj2 Hd))|].
    apply freed_icache. by eapply freed_from_icache.
  - rewrite iput_keep by done. eexists. split_and!; [done| |done|done|done].
    apply (fs_in_icache s). eapply fs_in_weaken; [exact Hok|done|lia].
Qed.

End iput.

(** C14. [iput] of an unlocked inode whose block map is sound: unless the inode is
    loaded, has no links and this is its last reference, only the reference
    count goes down.  Otherwise the inode is freed: its type on disk becomes 0
    with an empty map, exactly its blocks (the indirect block too) leave the
    bitmap, and every other inode and the contents of every data block stay.
    The transaction needs room for the bitmap and one more block, however long
    the file. *)
Theorem iput_correct me s m ip x : fs_ok s (Z.to_nat (itrunc_blocks (fs_sb s)) + S m) → icache s !! ip = Some x →
  i_dev x = 1 → 0 ≤ i_inum x < sb_ninodes (fs_sb s) → slocked (i_lock x) = false → map_ok s (i_d x) →
  ∃ s', iput me ip s = Ok tt s' ∧ fs_ok s' (S m) ∧ icache s' = <[ip := dropped x]> (icache s) ∧
    (if decide (i_valid x = true ∧ d_nlink (i_d x) = 0 ∧ i_ref x = 1)
     then freed s s' (i_inum x) (i_d x) (set_dtype 0 (emptied (i_d x)))
     else fs_log s' = fs_log s ∧ fs_sb s' = fs_sb s).
Proof. intros. by apply iput_run. Qed.

(** The file of three bytes at block 40, unlinked, with its last reference here. *)
Definition gone_inode : inode := Inode 1 5 1 (Sleeplock false 0) true (set_dnlink 0 demo_file).
Definition gone_fs : fst_st :=
  Fst (fs_log demo_file_fs) (fs_sb demo_file_fs) (gone_inode :: replicate 49 zero_inode).

Lemma iput_correct_witness : ∃ s', iput 7 0 gone_fs = Ok tt s' ∧ fs_ok s' 5 ∧
  icache s' = <[0%nat := dropped gone_inode]> (icache gone_fs) ∧
  freed gone_fs s' 5 (i_d gone_inode) (set_dtype 0 (emptied (i_d gone_inode))).
Proof.
  apply (iput_correct 7 gone_fs 4 0 gone_inode).
  - apply fs_in_icache, demo_file_fs_ok. apply (bool_decide_unpack _). vm_compute. exact I.
  - reflexivity.
  - reflexivity.
  - split; [discriminate|reflexivity].
  - reflexivity.
  - apply map_ok_icache. destruct (fo_map _ _ demo_file_ok) as [Hd Hi Hb Hj]. split; [|exact Hi|exact Hb|exact Hj].
    destruct Hd. split; try done.
Defined.
