(* ===== verification/FsName.v ===== *)
(** Path names: [namex] of fs.c against a walk over the directories on disk

    [resolve] follows the components of a path from one inode number to the next
    through the directories of the file system.  [namex], which goes through the
    inode cache, is shown to return a reference to the inode [resolve] reaches, or
    null where [resolve] fails, and to give back every reference it took on the
    way. *)

From stdpp Require Import gmap list numbers strings.
From Stdlib Require Import ZArith Lia.
From S2P Require Import Prelude Memlayout Block Bio Log StringC Fs FsSpec FsPath FsFile FsTx FsDir FsTrunc.

(** ** Directories on disk *)

(** An inode number with an allocated inode that some directory names. *)
Definition linked (s : fst_st) (n : Z) : Prop :=
  0 ≤ n < sb_ninodes (fs_sb s) ∧ d_type (dinode_of s n) ≠ 0 ∧ d_nlink (dinode_of s n) ≠ 0.

Definition dir_of (s : fst_st) (n : Z) : list Z := fcontents s (dinode_of s n).

(** The linked directories name linked inodes. *)
Definition tree_ok (s : fst_st) : Prop :=
  ∀ n, linked s n → d_type (dinode_of s n) = T_DIR →
    dir_ok s (dinode_of s n) ∧ ∀ e j, dir_get (dir_of s n) e = Some j → linked s j.

(** The inode that the path of components [es] from inode [n] leads to, or with
    [parent] the directory of its last component. *)
Fixpoint resolve (parent : bool) (s : fst_st) (n : Z) (es : list (list Z)) : option Z :=
  match es with
  | [] => if parent then None else Some n
  | e :: es' =>
      if d_type (dinode_of s n) =? T_DIR then
        if parent && bool_decide (es' = []) then Some n
        else j ← dir_get (dir_of s n) e; resolve parent s j es'
      else None
  end.

(** A name matters up to [DIRSIZ] bytes. *)
Lemma dir_get_ext c e e' : dname e = dname e' → dir_get c e = dir_get c e'.
Proof.
  intros E. unfold dir_get, dir_find. f_equal. assert (He : ∀ i, entry_is c e i = entry_is c e' i).
  { intros i. unfold entry_is. by rewrite E. }
  generalize 0%nat. induction (dcount c) as [|n IH]; intros i; simpl; [done|]. by rewrite He, IH.
Qed.

(** ** The inode cache between operations *)

(** Entries in use are for inodes of the disk, and what has been read of them is
    what is there. *)
Record cache_ok (s : fst_st) (c : list inode) : Prop := {
  cc_ok : icache_ok c;
  cc_use : ∀ i x, c !! i = Some x → 0 < i_ref x → i_dev x = 1 ∧ 0 ≤ i_inum x < sb_ninodes (fs_sb s);
  cc_clean : ∀ i x, c !! i = Some x → 0 < i_ref x → i_valid x = true → i_d x = dinode_of s (i_inum x)
}.

(** No inode is locked, but [h]. *)
Definition locked_only (h : option nat) (c : list inode) : Prop :=
  ∀ i x, c !! i = Some x → h ≠ Some i → slocked (i_lock x) = false.

Definition one (n k : Z) : Z := if decide (k = n) then 1 else 0.

Section cache.
Variable s : fst_st.
Implicit Types (c : list inode) (x y : inode) (i ip : nat) (h : option nat).

(** The state with the cache [c]. *)
Definition with_cache c : fst_st := Fst (fs_log s) (fs_sb s) c.

(** An entry in use that stays with its inode. *)
Lemma cache_set c i x y : cache_ok s c → c !! i = Some x → 0 < i_ref x → i_dev y = i_dev x → i_inum y = i_inum x →
  0 ≤ i_ref y → (i_valid y = true → i_d y = dinode_of s (i_inum x)) → cache_ok s (<[i := y]> c).
Proof.
  intros [[Hr Hu] Huse Hclean] Hx Hp Ed Ei Hy Hv. split.
  - split.
    + intros j z [(<- & <- & _)|(_ & Hz)]%list_lookup_insert_Some; [done|by eapply Hr].
    + assert (Hh : ∀ d n, holds_inode d n y = true → holds_inode d n x = true).
      { intros d n (_ & <- & <-)%holds_inode_spec. by apply holds_inode_spec. }
      intros j k z w d n [(<- & <- & _)|(_ & Hz)]%list_lookup_insert_Some
        [(<- & <- & _)|(_ & Hw)]%list_lookup_insert_Some Hhz Hhw; [done|by eapply Hu; eauto..].
  - intros j z [(<- & <- & _)|(_ & Hz)]%list_lookup_insert_Some Hz'; [|by eapply Huse].
    rewrite Ed, Ei. by eapply Huse.
  - intros j z [(<- & <- & _)|(_ & Hz)]%list_lookup_insert_Some Hz'; [by rewrite Ei|by eapply Hclean].
Qed.

Lemma irefs_set c i x y n : cache_ok s c → c !! i = Some x → 0 < i_ref x → i_dev y = i_dev x → i_inum y = i_inum x →
  0 ≤ i_ref y → irefs (<[i := y]> c) 1 n = irefs c 1 n + (i_ref y - i_ref x) * one (i_inum x) n.
Proof.
  intros Hc Hx Hp Ed Ei Hy. rewrite (irefs_insert _ _ _ _ _ _ Hx). destruct (cc_use _ _ Hc i x Hx Hp) as [Hd _].
  unfold weight, holds_inode, one. rewrite Ed, Ei, Hd. rewrite (proj2 (Z.ltb_lt _ _)) by done. cbn [andb Z.eqb Pos.eqb].
  destruct (Z.eqb_spec (i_inum x) n), (decide (n = i_inum x)); try lia; destruct (Z.ltb_spec 0 (i_ref y)); simpl; lia.
Qed.

Lemma locked_only_set h c i y : locked_only h c → (h ≠ Some i → slocked (i_lock y) = false) → locked_only h (<[i := y]> c).
Proof. intros Hl Hy j z [(<- & <- & _)|(_ & Hz)]%list_lookup_insert_Some Hj; [by apply Hy|by eapply Hl]. Qed.

(** Locking and releasing. *)
Lemma ilock_cache me c ip x : fs_wf s → cache_ok s c → locked_only None c → c !! ip = Some x → 0 < i_ref x →
  linked s (i_inum x) →
  let x1 := loaded (Sleeplock true me) (dinode_of s (i_inum x)) x in
  let c1 := <[ip := x1]> c in
  ilock me ip (with_cache c) = Ok tt (with_cache c1) ∧ cache_ok s c1 ∧ locked_only (Some ip) c1 ∧
  c1 !! ip = Some x1 ∧ ∀ n, irefs c1 1 n = irefs c 1 n.
Proof.
  intros Hwf Hc Hl Hx Hp (Hi & Ht & _) x1 c1. destruct (cc_use _ _ Hc ip x Hx Hp) as [Hd _]. split_and!.
  - rewrite (ilock_run me (with_cache c) ip x); [|by apply fs_wf_icache|done|done|lia|by eapply Hl|done].
    cbn zeta. change (dinode_of (with_cache c)) with (dinode_of s). rewrite (proj2 (Z.eqb_neq _ _)), andb_false_r by done.
    unfold c1, x1, locked_inode, loaded, with_cache. cbn [fs_log fs_sb icache]. change (dinode_of _) with (dinode_of s).
    destruct (i_valid x) eqn:Ev; [|done]. by rewrite (cc_clean _ _ Hc ip x).
  - by eapply cache_set; try done; simpl; lia.
  - intros j z [(<- & _ & _)|(_ & Hz)]%list_lookup_insert_Some Hj; [done|by eapply Hl].
  - apply list_lookup_insert_eq. by eapply lookup_lt_Some.
  - intros n. unfold c1. rewrite (irefs_set c ip x) by (done || simpl; lia). simpl. lia.
Qed.

Lemma iput_cache me c ip x : cache_ok s c → locked_only None c → c !! ip = Some x → 0 < i_ref x → linked s (i_inum x) →
  ∃ c1, iput me ip (with_cache c) = Ok tt (with_cache c1) ∧ cache_ok s c1 ∧ locked_only None c1 ∧
    (∀ j y, j ≠ ip → c !! j = Some y → c1 !! j = Some y) ∧
    c1 !! ip = Some (set_iref (i_ref x - 1) (set_ilock unlocked x)) ∧
    ∀ n, irefs c1 1 n = irefs c 1 n - one (i_inum x) n.
Proof.
  intros Hc Hl Hx Hp (_ & _ & Hn). exists (<[ip := set_iref (i_ref x - 1) (set_ilock unlocked x)]> c). split_and!.
  - apply (iput_keep me (with_cache c) ip x); [done|by eapply Hl|]. intros (Hv & Hn0 & _).
    rewrite (cc_clean _ _ Hc ip x) in Hn0 by done. done.
  - eapply cache_set; try done; [simpl; lia|]. intros Hv. by apply (cc_clean _ _ Hc ip x).
  - by apply locked_only_set.
  - intros j y Hj Hy. by rewrite list_lookup_insert_ne.
  - apply list_lookup_insert_eq. by eapply lookup_lt_Some.
  - intros n. rewrite (irefs_set c ip x) by (done || simpl; lia). simpl. lia.
Qed.

Lemma iunlock_cache me c ip x : cache_ok s c → locked_only (Some ip) c → c !! ip = Some x → 0 < i_ref x →
  i_lock x = Sleeplock true me →
  let x1 := set_ilock unlocked x in
  let c1 := <[ip := x1]> c in
  iunlock me ip (with_cache c) = Ok tt (with_cache c1) ∧ cache_ok s c1 ∧ locked_only None c1 ∧ c1 !! ip = Some x1 ∧
  ∀ n, irefs c1 1 n = irefs c 1 n.
Proof.
  intros Hc Hl Hx Hp Hme x1 c1. split_and!.
  - rewrite (iunlock_run me (with_cache c) ip x) by (done || lia). done.
  - eapply cache_set; try done; [simpl; lia|]. intros Hv. by apply (cc_clean _ _ Hc ip x).
  - intros j z [(<- & <- & _)|(Hj & Hz)]%list_lookup_insert_Some _; [done|]. eapply Hl; [done|congruence].
  - apply list_lookup_insert_eq. by eapply lookup_lt_Some.
  - intros n. unfold c1. rewrite (irefs_set c ip x) by (done || simpl; lia). simpl. lia.
Qed.

Lemma iunlockput_cache me c ip x : cache_ok s c → locked_only (Some ip) c → c !! ip = Some x → 0 < i_ref x →
  i_lock x = Sleeplock true me → linked s (i_inum x) →
  ∃ c1, iunlockput me ip (with_cache c) = Ok tt (with_cache c1) ∧ cache_ok s c1 ∧ locked_only None c1 ∧
    (∀ j y, j ≠ ip → c !! j = Some y → c1 !! j = Some y) ∧
    c1 !! ip = Some (set_iref (i_ref x - 1) (set_ilock unlocked x)) ∧
    ∀ n, irefs c1 1 n = irefs c 1 n - one (i_inum x) n.
Proof.
  intros Hc Hl Hx Hp Hme Hn. destruct (iunlock_cache me c ip x Hc Hl Hx Hp Hme) as (Hr1 & Hc1 & Hl1 & Hx1 & Hrefs1).
  destruct (iput_cache me _ ip _ Hc1 Hl1 Hx1 Hp Hn) as (c2 & Hr2 & Hc2 & Hl2 & Hne & Hx2 & Hrefs2).
  exists c2. unfold iunlockput. rewrite (bind_ok _ _ _ _ _ Hr1). split_and!; try done.
  - intros j y Hj Hy. apply Hne; [done|]. by rewrite list_lookup_insert_ne.
  - intros n. by rewrite Hrefs2, Hrefs1.
Qed.

Definition cache_full c : Prop := Forall (λ x, 0 < i_ref x) c.

Lemma iget_cache c h j : cache_ok s c → locked_only h c → 0 ≤ j < sb_ninodes (fs_sb s) →
  (∃ i y c1, iget 1 j (with_cache c) = Ok i (with_cache c1) ∧ cache_ok s c1 ∧ locked_only h c1 ∧
     c1 !! i = Some y ∧ 0 < i_ref y ∧ i_inum y = j ∧
     (∀ k x, c !! k = Some x → 0 < i_ref x → c1 !! k = Some (set_iref (i_ref x + if decide (k = i) then 1 else 0) x)) ∧
     ∀ n, irefs c1 1 n = irefs c 1 n + one j n) ∨
  (iget 1 j (with_cache c) = Err (Panic "iget: no inodes") (with_cache c) ∧ cache_full c).
Proof.
  intros Hc Hl Hj. destruct (iget_correct (with_cache c) 1 j) as [(i & x & c1 & Hr & Hx & Hok & Hne & Hi & Hcase & Hrefs)|[Hr Hall]];
    [by apply Hc| |]; cbn [icache with_cache] in *.
  2:{ right. split; [done|]. apply Forall_lookup. intros k x Hk. by apply (Hall k). }
  left. set (y := if holds_inode 1 j x then _ else _) in Hi.
  assert (Hy : 0 < i_ref y ∧ i_dev y = 1 ∧ i_inum y = j ∧ i_lock y = i_lock x ∧
               (i_valid y = true → i_d y = dinode_of s j)).
  { unfold y. destruct (holds_inode 1 j x) eqn:Eh; [|done]. pose proof Eh as (Hp & Hd & En)%holds_inode_spec. simpl.
    split_and!; try done; [lia|]. intros Hv. rewrite <-En. by apply (cc_clean _ _ Hc i). }
  destruct Hy as (Hyp & Hyd & Hyn & Hyl & Hyv).
  assert (Hat : ∀ k z, c1 !! k = Some z → k = i ∧ z = y ∨ k ≠ i ∧ c !! k = Some z).
  { intros k z Hz. destruct (decide (k = i)) as [->|Hk]; [left; split; congruence|right]. by rewrite <-Hne. }
  exists i, y, c1. split_and!; try done.
  - split; [done|..].
    + intros k z [[-> ->]|[_ Hz]]%Hat Hp; [by rewrite Hyn|by eapply cc_use].
    + intros k z [[-> ->]|[_ Hz]]%Hat Hp Hv; [rewrite Hyn; auto|by eapply cc_clean].
  - intros k z [[-> ->]|[_ Hz]]%Hat Hk; [rewrite Hyl; by eapply Hl|by eapply Hl].
  - intros k z Hz Hp. destruct (decide (k = i)) as [->|Hk].
    + assert (z = x) as -> by congruence. destruct Hcase as [Hh|[? _]]; [|lia].
      rewrite Hi. unfold y. by rewrite Hh.
    + rewrite Hne, Hz, Z.add_0_r by done. by destruct z.
  - intros n. rewrite Hrefs. unfold one. destruct (decide (1 = 1 ∧ n = j)), (decide (n = j)); naive_solver.
Qed.

End cache.

(** ** Paths *)

#[local] Abbreviation bytes := (Forall (λ b, 0 ≤ b < 256)).

Lemma skip_slashes_suffix p : ∀ p', skip_slashes p = Some p' → ∃ l, p = l ++ p'.
Proof.
  induction p as [|b p IH]; simpl; [done|]. intros p'. case_match.
  - intros [l ->]%IH. by exists (b :: l).
  - intros [= <-]. by exists [].
Qed.

Lemma path_elem_split p : ∀ e r, path_elem p = Some (e, r) → p = e ++ r.
Proof.
  induction p as [|b p IH]; simpl; [done|]. intros e r. case_match; [by intros [= <- <-]|].
  destruct (path_elem p) as [[e' r']|]; [|done]. intros [= <- <-]. simpl. f_equal. by apply IH.
Qed.

Lemma splice_bytes name l : bytes name → bytes l → bytes (splice name 0 l).
Proof. intros Hn Hl. unfold splice. rewrite take_0. cbn [app]. apply Forall_app. split; [done|by apply Forall_drop]. Qed.

Lemma skipelem_bytes path name path' name' : bytes path → bytes name → skipelem path name = Some (Some path', name') →
  bytes path' ∧ bytes name'.
Proof.
  intros Hp Hn. unfold skipelem. destruct (skip_slashes path) as [p|] eqn:E1; [|done].
  apply skip_slashes_suffix in E1 as [l ->]. apply Forall_app in Hp as [_ Hp].
  case_match; [done|]. destruct (path_elem p) as [[e r]|] eqn:E2; [|done]. apply path_elem_split in E2 as ->.
  apply Forall_app in Hp as [He Hr]. destruct (skip_slashes r) as [r'|] eqn:E3; [|done].
  apply skip_slashes_suffix in E3 as [l' ->]. apply Forall_app in Hr as [_ Hr]. intros [= <- <-]. split; [done|].
  case_bool_decide; apply splice_bytes; try done; [by apply Forall_take|]. apply Forall_app. split; [done|]. repeat constructor; lia.
Qed.

Lemma split_on_length l : ∀ cur, (length (split_on l cur) ≤ length l + if decide (cur = []) then 0 else 1)%nat.
Proof.
  induction l as [|b l IH]; intros cur; cbn [split_on length].
  - destruct (decide (cur = [])); simpl; lia.
  - case_match; [|specialize (IH (cur ++ [b])); destruct (decide (cur ++ [b] = [])), (decide (cur = [])); lia].
    specialize (IH []). rewrite decide_True in IH by done. destruct (decide (cur = [])); simpl; lia.
Qed.

Lemma components_length path : (length (components path) ≤ length path)%nat.
Proof.
  unfold components. pose proof (split_on_length (cstr path) []) as H. rewrite decide_True in H by done.
  assert (length (cstr path) ≤ length path)%nat; [|lia]. clear H. induction path as [|b p IH]; simpl; [lia|]. case_match; simpl; lia.
Qed.

(** The elements of a path have no NUL. *)
Lemma split_on_no_nul l : ∀ cur, 0 ∉ l → 0 ∉ cur → Forall (λ e, 0 ∉ e) (split_on l cur).
Proof.
  induction l as [|b l IH]; intros cur; cbn [split_on].
  - intros _ Hc. case_decide; repeat constructor. done.
  - intros [Hb Hl]%not_elem_of_cons Hc. case_match.
    + case_decide; [by apply IH; [|apply not_elem_of_nil]|]. constructor; [done|]. by apply IH; [|apply not_elem_of_nil].
    + apply IH; [done|]. rewrite elem_of_app, list_elem_of_singleton. naive_solver.
Qed.

Lemma components_no_nul path : Forall (λ e, 0 ∉ e) (components path).
Proof. apply split_on_no_nul; [apply cstr_no_nul|apply not_elem_of_nil]. Qed.

(** The name buffer stands for the element. *)
Lemma dname_elem name e : length name = DIRSIZ → cstr name = take DIRSIZ e → 0 ∉ e → dname name = dname e.
Proof.
  intros Hl E H0. unfold dname. rewrite take_ge by lia. rewrite E. symmetry. apply cstr_id.
  intros (i & Hi & _)%elem_of_take. apply H0. by eapply list_elem_of_lookup_2.
Qed.

(** ** The walk *)

Section namex.
Variables (me : Z) (dev_read : Z → option (nat → Z → M fst_st (Z * list Z))) (s : fst_st).
Hypothesis Hwf : fs_wf s.
Hypothesis Htree : tree_ok s.
Implicit Types (c : list inode) (x y : inode) (ip : nat) (n j k : Z) (es : list (list Z)).

(** What [namex] does from a reference to inode [n], which it gives back: it
    panics with the inode cache full, or finds what [resolve] finds. *)
Definition walked (parent : bool) c n es (r : res fst_st (option nat * list Z)) : Prop :=
  (∃ c1, r = Err (Panic "iget: no inodes") (with_cache s c1) ∧ cache_full c1) ∨
  ∃ o name c1, r = Ok (o, name) (with_cache s c1) ∧ cache_ok s c1 ∧ locked_only None c1 ∧
    match resolve parent s n es with
    | Some j => ∃ ip y, o = Some ip ∧ c1 !! ip = Some y ∧ 0 < i_ref y ∧ i_dev y = 1 ∧ i_inum y = j ∧ linked s j ∧
        (parent = true → cstr name = take DIRSIZ (default [] (last es))) ∧
        ∀ k, irefs c1 1 k = irefs c 1 k - one n k + one j k
    | None => o = None ∧ ∀ k, irefs c1 1 k = irefs c 1 k - one n k
    end.

(** [dirlookup] in a locked directory. *)
Lemma dirlookup_cache c ip x e name : cache_ok s c → locked_only (Some ip) c → c !! ip = Some x → 0 < i_ref x →
  i_d x = dinode_of s (i_inum x) → linked s (i_inum x) → d_type (i_d x) = T_DIR →
  length name = DIRSIZ → bytes name → dname name = dname e →
  match dir_get (dir_of s (i_inum x)) e with
  | None => dirlookup dev_read ip name (with_cache s c) = Ok None (with_cache s c)
  | Some j => linked s j ∧
      ((∃ i off c1 y, dirlookup dev_read ip name (with_cache s c) = Ok (Some (i, off)) (with_cache s c1) ∧
          cache_ok s c1 ∧ locked_only (Some ip) c1 ∧ c1 !! i = Some y ∧ 0 < i_ref y ∧ i_inum y = j ∧
          c1 !! ip = Some (set_iref (i_ref x + if decide (ip = i) then 1 else 0) x) ∧
          ∀ k, irefs c1 1 k = irefs c 1 k + one j k) ∨
       (dirlookup dev_read ip name (with_cache s c) = Err (Panic "iget: no inodes") (with_cache s c) ∧ cache_full c))
  end.
Proof.
  intros Hc Hl Hx Hp Ed Hn Ht Hlen Hb En. destruct (cc_use _ _ Hc ip x Hx Hp) as [Hdev _].
  rewrite Ed in Ht. destruct (Htree _ Hn Ht) as [[Hf _ Hsz Hby] Hent]. rewrite <-Ed in Hf, Hsz, Hby, Ht.
  assert (Hdir : dir_ok (with_cache s c) (i_d x)).
  { split; [|done|done|done]. destruct Hf as [Hm ? ?]. split; [by apply map_ok_icache|done|done]. }
  pose proof (dirlookup_run dev_read (with_cache s c) ip x) as Hrun.
  rewrite (Hrun (fs_wf_icache _ _ Hwf) Hx Hdev Hdir name (or_intror (eq_ind_r _ (le_n _) Hlen)) Hb). clear Hrun.
  specialize (Hent e). rewrite <-(dir_get_ext _ _ _ En) in Hent |- *. unfold dir_get, dir_of in Hent |- *. rewrite <-Ed in Hent |- *.
  change (fcontents (with_cache s c) (i_d x)) with (fcontents s (i_d x)).
  destruct (dir_find _ name) as [i|]; cbn [fmap option_fmap option_map found] in Hent |- *; [|done].
  set (j := de_inum _) in *. specialize (Hent j eq_refl). split; [done|].
  destruct (iget_cache s c (Some ip) j Hc Hl (proj1 Hent)) as [(i' & y & c1 & Hr & Hc1 & Hl1 & Hy & Hyp & Hyn & Hkeep & Hrefs)|[Hr Hfull]].
  - left. rewrite (bind_ok _ _ _ _ _ Hr). eexists i', _, c1, y. split_and!; try done. by apply Hkeep.
  - right. by rewrite (bind_err _ _ _ _ _ Hr).
Qed.

Lemma one_self n : one n n = 1.
Proof. unfold one. by rewrite decide_True. Qed.

(** No element left. *)
Lemma namex_end parent name c ip x : cache_ok s c → locked_only None c → c !! ip = Some x → 0 < i_ref x →
  linked s (i_inum x) →
  walked parent c (i_inum x) [] ((if parent then iput me ip ;;; ret (None, name) else ret (Some ip, name)) (with_cache s c)).
Proof.
  intros Hc Hl Hx Hp Hlink. right. destruct (cc_use _ _ Hc ip x Hx Hp) as [Hdev _]. destruct parent; cbn [resolve].
  - destruct (iput_cache s me c ip x Hc Hl Hx Hp Hlink) as (c1 & Hr & Hc1 & Hl1 & _ & _ & Hrefs).
    rewrite (bind_ok _ _ _ _ _ Hr). by exists None, name, c1.
  - exists (Some ip), name, c. split_and!; try done. exists ip, x. split_and!; try done. intros k. lia.
Qed.

(** A round that gives the directory back and ends. *)
Lemma namex_stop parent c c1 es ip x name : resolve parent s (i_inum x) es = None →
  cache_ok s c1 → locked_only (Some ip) c1 → c1 !! ip = Some x → 0 < i_ref x →
  i_lock x = Sleeplock true me → linked s (i_inum x) → (∀ k, irefs c1 1 k = irefs c 1 k) →
  walked parent c (i_inum x) es ((iunlockput me ip ;;; ret (None, name)) (with_cache s c1)).
Proof.
  intros Ew Hc Hl Hx Hp Hme Hlink Hrefs.
  destruct (iunlockput_cache s me c1 ip x Hc Hl Hx Hp Hme Hlink) as (c2 & Hr & Hc2 & Hl2 & _ & _ & Hrefs2).
  right. rewrite (bind_ok _ _ _ _ _ Hr), Ew. exists None, name, c2. split_and!; try done. intros k. by rewrite Hrefs2, Hrefs.
Qed.

(** A round that stays in the directory, for the last element of a parent's path. *)
Lemma namex_parent c c1 e ip x name : resolve true s (i_inum x) [e] = Some (i_inum x) → cstr name = take DIRSIZ e →
  cache_ok s c1 → locked_only (Some ip) c1 → c1 !! ip = Some x → 0 < i_ref x →
  i_lock x = Sleeplock true me → linked s (i_inum x) → (∀ k, irefs c1 1 k = irefs c 1 k) →
  walked true c (i_inum x) [e] ((iunlock me ip ;;; ret (Some ip, name)) (with_cache s c1)).
Proof.
  intros Ew En Hc Hl Hx Hp Hme Hlink Hrefs. destruct (cc_use _ _ Hc ip x Hx Hp) as [Hdev _].
  destruct (iunlock_cache s me c1 ip x Hc Hl Hx Hp Hme) as (Hr2 & Hc2 & Hl2 & Hx2 & Hrefs2).
  right. rewrite (bind_ok _ _ _ _ _ Hr2), Ew. eexists _, _, _. split_and!; [done|done|done|].
  exists ip, (set_ilock unlocked x). split_and!; try done. intros k. rewrite Hrefs2, Hrefs. lia.
Qed.

(** Giving back the directory once the next inode is held. *)
Lemma namex_next c ip i x y : cache_ok s c → locked_only (Some ip) c →
  c !! ip = Some (set_iref (i_ref x + if decide (ip = i) then 1 else 0) x) → 0 < i_ref x → i_lock x = Sleeplock true me →
  linked s (i_inum x) → c !! i = Some y → 0 < i_ref y →
  ∃ c1 y1, iunlockput me ip (with_cache s c) = Ok tt (with_cache s c1) ∧ cache_ok s c1 ∧ locked_only None c1 ∧
    c1 !! i = Some y1 ∧ 0 < i_ref y1 ∧ i_inum y1 = i_inum y ∧ ∀ k, irefs c1 1 k = irefs c 1 k - one (i_inum x) k.
Proof.
  intros Hc Hl Hx Hp Hme Hlink Hy Hyp. set (x1 := set_iref _ x) in Hx.
  destruct (iunlockput_cache s me c ip x1) as (c1 & Hr & Hc1 & Hl1 & Hne & Heq & Hrefs); try done; [simpl; case_decide; lia|].
  exists c1. destruct (decide (ip = i)) as [->|Hi].
  - eexists. split_and!; try done; [simpl; lia|]. rewrite Hx in Hy. by injection Hy as <-.
  - exists y. split_and!; try done. by apply Hne.
Qed.

Lemma walked_step parent c c1 n j e es r : resolve parent s n (e :: es) = resolve parent s j es → (parent = true → es ≠ []) →
  (∀ k, irefs c1 1 k = irefs c 1 k - one n k + one j k) → walked parent c1 j es r → walked parent c n (e :: es) r.
Proof.
  intros Ew Hes Hrefs [Hpanic|(o & name & c2 & -> & Hc2 & Hl2 & Hres)]; [by left|right].
  exists o, name, c2. rewrite Ew. split_and!; try done. destruct (resolve parent s j es) as [j'|].
  - destruct Hres as (ip & y & -> & Hy & Hp & Hd & Hn & Hlink & Hname & Hrefs2). exists ip, y. split_and!; try done.
    + intros ->. rewrite Hname by done. destruct es; [by destruct (Hes eq_refl)|done].
    + intros k. rewrite Hrefs2, Hrefs. lia.
  - destruct Hres as [-> Hrefs2]. split; [done|]. intros k. rewrite Hrefs2, Hrefs. lia.
Qed.

(** The loop, by the number of elements left. *)
Lemma namex_loop_run parent : ∀ fuel path name c ip x, (length (components path) ≤ fuel)%nat →
  0 ∈ path → bytes path → length name = DIRSIZ → bytes name →
  cache_ok s c → locked_only None c → c !! ip = Some x → 0 < i_ref x → linked s (i_inum x) →
  walked parent c (i_inum x) (components path) (namex_loop me dev_read fuel ip path parent name (with_cache s c)).
Proof.
  induction fuel as [|fuel IH]; intros path name c ip x Hfuel H0 Hpb Hlen Hnb Hc Hl Hx Hp Hlink;
    pose proof (skipelem_correct path name H0 Hlen) as Hskip; pose proof (components_no_nul path) as Hnul;
    destruct (components path) as [|e es]; cbn [namex_loop]; try (simpl in Hfuel; lia).
  { rewrite Hskip. by apply namex_end. }
  { rewrite Hskip. by apply namex_end. }
  destruct Hskip as (path' & name' & Hs & Hcn & Hln & H0' & <- & _ & Hlast).
  destruct (skipelem_bytes _ _ _ _ Hpb Hnb Hs) as [Hpb' Hnb']. apply Forall_cons in Hnul as [He _].
  rewrite Hs. cbn [deref]. rewrite bind_ret. set (n := i_inum x) in *.
  destruct (ilock_cache s me c ip x Hwf Hc Hl Hx Hp Hlink) as (Hr1 & Hc1 & Hl1 & Hx1 & Hrefs1). fold n in Hr1, Hc1, Hl1, Hx1, Hrefs1.
  set (x1 := loaded _ _ x) in *. set (c1 := <[ip := x1]> c) in *. rewrite (bind_ok _ _ _ _ _ Hr1), (bind_inode_at ip x1) by done.
  change (i_d x1) with (dinode_of s n).
  destruct (Z.eqb_spec (d_type (dinode_of s n)) T_DIR) as [Ht|Ht]; cbn [negb].
  2:{ apply (namex_stop parent c c1 _ ip x1); try done. cbn [resolve]. by rewrite (proj2 (Z.eqb_neq _ _)). }
  assert (Ew : ∀ b, resolve b s n (e :: components path') = if b && bool_decide (components path' = []) then Some n
    else j ← dir_get (dir_of s n) e; resolve b s j (components path')).
  { intros b. cbn [resolve]. by rewrite (proj2 (Z.eqb_eq _ _)). }
  replace (default 0 (head path') =? 0) with (bool_decide (components path' = [])).
  2:{ destruct (Z.eqb_spec (default 0 (head path')) 0) as [E|E]; [apply bool_decide_eq_true_2|apply bool_decide_eq_false_2]; tauto. }
  specialize (Ew parent). destruct (parent && bool_decide (components path' = [])) eqn:Epar.
  { apply andb_true_iff in Epar as [-> Enil%bool_decide_eq_true]. rewrite Enil in *. by apply (namex_parent c c1 e ip x1). }
  pose proof (dirlookup_cache c1 ip x1 e name' Hc1 Hl1 Hx1 Hp eq_refl Hlink Ht Hln Hnb' (dname_elem _ _ Hln Hcn He)) as Hlook.
  change (i_inum x1) with n in Hlook. destruct (dir_get (dir_of s n) e) as [j|]; cbn [mbind option_bind] in Ew.
  2:{ rewrite (bind_ok _ _ _ _ _ Hlook). by apply (namex_stop parent c c1 _ ip x1). }
  destruct Hlook as [Hj [(i & off & c2 & y & Hr2 & Hc2 & Hl2 & Hy & Hyp & Hyn & Hx2 & Hrefs2)|[Hr2 Hfull]]].
  2:{ rewrite (bind_err _ _ _ _ _ Hr2). left. by exists c1. }
  rewrite (bind_ok _ _ _ _ _ Hr2).
  destruct (namex_next c2 ip i x1 y) as (c3 & y1 & Hr3 & Hc3 & Hl3 & Hy1 & Hyp1 & Hyn1 & Hrefs3); try done.
  rewrite (bind_ok _ _ _ _ _ Hr3). apply (walked_step parent c c3 _ j); [done| | |].
  - intros ->. by apply bool_decide_eq_false in Epar.
  - intros k. rewrite Hrefs3, Hrefs2, Hrefs1. change (i_inum x1) with n. lia.
  - rewrite <-Hyn, <-Hyn1. apply IH; try done; [simpl in Hfuel; lia|]. by rewrite Hyn1, Hyn.
Qed.

End namex.

(** Where a path starts, [x] being the working directory. *)
Definition path_start (x : inode) (path : list Z) : Z := if default 0 (head path) =? 47 then ROOTINO else i_inum x.

(** The first reference. *)
Lemma namex_start s cwd x path : cache_ok s (icache s) → locked_only None (icache s) → icache s !! cwd = Some x →
  0 < i_ref x → linked s (path_start x path) →
  let r := (if default 0 (head path) =? 47 then iget ROOTDEV ROOTINO else idup cwd) s in
  (∃ ip y c, r = Ok ip (with_cache s c) ∧ cache_ok s c ∧ locked_only None c ∧ c !! ip = Some y ∧ 0 < i_ref y ∧
     i_inum y = path_start x path ∧ ∀ k, irefs c 1 k = irefs (icache s) 1 k + one (path_start x path) k) ∨
  (r = Err (Panic "iget: no inodes") (with_cache s (icache s)) ∧ cache_full (icache s)).
Proof.
  intros Hc Hl Hx Hp Hlink. unfold path_start in *. destruct (default 0 (head path) =? 47); cbn zeta.
  - assert (Es : with_cache s (icache s) = s) by (by destruct s). rewrite Es.
    destruct (iget_cache s (icache s) None ROOTINO Hc Hl (proj1 Hlink)) as [(i & y & c & Hr & H1 & H2 & H3 & H4 & H5 & _ & H6)|[Hr Hf]];
      rewrite Es in Hr; [left|by right]. by exists i, y, c.
  - left. unfold idup. rewrite (bind_upd_inode cwd _ x) by done. eexists cwd, _, _. split_and!; [done|..].
    + eapply cache_set; try done; [simpl; lia|]. by apply (cc_clean _ _ Hc cwd x).
    + apply locked_only_set; [done|]. intros _. by apply (Hl cwd x).
    + apply list_lookup_insert_eq. by eapply lookup_lt_Some.
    + simpl. lia.
    + done.
    + intros k. rewrite (irefs_set s _ cwd x) by (done || simpl; lia). simpl. lia.
Qed.

(** C3. Path lookup.  On a consistent file system with a clean inode cache,
    [namex] either panics because the inode cache is full, or finds exactly what
    the directories on disk say: it returns a referenced cache entry for the
    inode that [resolve] reaches over the components of the path from the root or
    the working directory (the directory of the last component, and its name,
    for [nameiparent]), and null where a component is missing or is looked up in
    something that is not a directory.  On every way out no inode stays locked,
    the disk and the log are untouched, and the reference counts are those of
    before, but for the one reference returned. *)
Theorem namex_correct me dev_read s cwd x path parent name : fs_wf s → tree_ok s →
  cache_ok s (icache s) → locked_only None (icache s) → icache s !! cwd = Some x → 0 < i_ref x →
  0 ∈ path → bytes path → length name = DIRSIZ → bytes name → linked s (path_start x path) →
  (∃ s', namex me dev_read cwd path parent name s = Err (Panic "iget: no inodes") s' ∧ cache_full (icache s')) ∨
  ∃ o name' s', namex me dev_read cwd path parent name s = Ok (o, name') s' ∧
    fs_log s' = fs_log s ∧ fs_sb s' = fs_sb s ∧ cache_ok s (icache s') ∧ locked_only None (icache s') ∧
    match resolve parent s (path_start x path) (components path) with
    | Some j => ∃ ip y, o = Some ip ∧ icache s' !! ip = Some y ∧ 0 < i_ref y ∧ i_dev y = 1 ∧ i_inum y = j ∧ linked s j ∧
        (parent = true → cstr name' = take DIRSIZ (default [] (last (components path)))) ∧
        ∀ k, irefs (icache s') 1 k = irefs (icache s) 1 k + one j k
    | None => o = None ∧ ∀ k, irefs (icache s') 1 k = irefs (icache s) 1 k
    end.
Proof.
  intros Hwf Htree Hc Hl Hx Hp H0 Hpb Hlen Hnb Hlink. unfold namex.
  assert (head path = Some (default 0 (head path))) as -> by (by destruct path; [apply elem_of_nil in H0|]).
  cbn [deref]. rewrite bind_ret.
  destruct (namex_start s cwd x path Hc Hl Hx Hp Hlink) as [(ip & y & c & Hr & Hc1 & Hl1 & Hy & Hyp & Hyn & Hrefs)|[Hr Hfull]].
  2:{ left. rewrite (bind_err _ _ _ _ _ Hr). by eexists. }
  rewrite (bind_ok _ _ _ _ _ Hr), <-Hyn. rewrite <-Hyn in Hlink, Hrefs.
  pose proof (namex_loop_run me dev_read s Hwf Htree parent (length path) path name c ip y (components_length path)) as Hrun.
  destruct Hrun as [(c1 & -> & Hfull)|(o & name' & c1 & -> & Hc2 & Hl2 & Hres)]; try done; [left; by eexists|right].
  exists o, name', (with_cache s c1). split_and!; try done. destruct (resolve _ _ _ _) as [j|].
  - destruct Hres as (ip1 & y1 & -> & Hres). exists ip1, y1. split_and!; try apply Hres; try done.
    intros k. cbn [icache with_cache]. destruct Hres as (_ & _ & _ & _ & _ & _ & ->). rewrite Hrefs. lia.
  - destruct Hres as [-> Hk]. split; [done|]. intros k. cbn [icache with_cache]. rewrite Hk, Hrefs. lia.
Qed.

(** ** A root directory with one file [a] *)

Definition dent_block (l : list (Z * list Z)) : block :=
  let bs := flat_map (λ '(n, nm), dirent_bytes n (nm ++ replicate (DIRSIZ - length nm) 0)) l in
  bs ++ replicate (512 - length bs) 0.
Definition root_dir : dinode := Dinode T_DIR 0 0 1 48 (40 :: replicate NDIRECT 0).
Definition root_file : dinode := Dinode T_FILE 0 0 1 0 (replicate (S NDIRECT) 0).
Definition root_fs : fst_st :=
  Fst (Lst (Log 2 31 0 false 0 (replicate (Z.to_nat LOGSIZE) 0))
           (Store {[33 := put_dinode (put_dinode (replicate 512 0) 64 root_dir) 128 root_file;
                    36 := [255; 255; 255; 255; 255; 1] ++ replicate 506 0;
                    40 := dent_block [(1, [46]); (1, [46; 46]); (2, [97])]]} ∅ 100 []))
      demo_sb (Inode 1 1 1 unlocked false zero_dinode :: replicate 49 zero_inode).

Lemma root_used b : 0 ≤ b < 41 → used root_fs b.
Proof.
  intros Hb. assert (Hall : forallb (λ b, negb (bit_free (fv root_fs (BBLOCK b demo_sb)) (b mod BPB))) (seqZ 0 41) = true)
    by (vm_compute; reflexivity).
  rewrite forallb_forall in Hall. apply negb_true_iff. apply Hall. apply list_elem_of_In, elem_of_seqZ. lia.
Qed.

Lemma root_fs_wf : fs_wf root_fs.
Proof.
  split; try done.
  - intros k _. unfold fv, sview, blk. cbn [fs_log store_of root_fs pinned disk]. rewrite lookup_empty. cbn [default].
    destruct (decide (k = 33)) as [->|]; [vm_compute; reflexivity|]. rewrite lookup_insert_ne by done.
    destruct (decide (k = 36)) as [->|]; [vm_compute; reflexivity|]. rewrite lookup_insert_ne by done.
    destruct (decide (k = 40)) as [->|]; [vm_compute; reflexivity|]. rewrite lookup_singleton_ne by done. done.
  - intros b Hb. apply root_used. change (datastart (fs_sb root_fs)) with 37 in Hb. lia.
Qed.

Lemma root_dinode : dinode_of root_fs 1 = root_dir.
Proof. vm_compute. reflexivity. Qed.

Lemma root_linked n : n ∈ [1; 2] → linked root_fs n.
Proof. intros [->|[->|[]%elem_of_nil]%elem_of_cons]%elem_of_cons; (split_and!; [done|done|vm_compute; discriminate..]). Qed.

Lemma root_tree : tree_ok root_fs.
Proof.
  intros n [Hn _] Ht. assert (n = 1) as ->.
  { assert (Hall : forallb (λ n, (n =? 1) || negb (d_type (dinode_of root_fs n) =? T_DIR)) (seqZ 0 16) = true) by (vm_compute; reflexivity).
    rewrite forallb_forall in Hall. specialize (Hall n). rewrite Ht, orb_false_r in Hall.
    apply Z.eqb_eq, Hall, list_elem_of_In, elem_of_seqZ. exact Hn. }
  unfold dir_of. rewrite root_dinode. split.
  - split; [|done|done|].
    + apply one_block_file; [done|apply root_used; lia| |done|done].
      split; cbn; unfold T_DIR; try lia; [done|]. repeat (constructor; [lia|]). constructor.
    + assert (Hall : forallb (λ b, (0 <=? b) && (b <? 256)) (fcontents root_fs root_dir) = true) by (vm_compute; reflexivity).
      rewrite forallb_forall in Hall. apply Forall_forall. intros b Hb. apply list_elem_of_In, Hall in Hb. lia.
  - intros e j (i & Hi & ->)%fmap_Some. apply first_from_Some in Hi as (Hi & _ & _).
    assert (Ed : dcount (fcontents root_fs root_dir) = 3%nat) by (vm_compute; reflexivity). rewrite Ed in Hi.
    apply root_linked, (bool_decide_unpack _). destruct i as [|[|[|i]]]; [vm_compute; exact I..|lia].
Qed.

Lemma root_cache : cache_ok root_fs (icache root_fs) ∧ locked_only None (icache root_fs).
Proof.
  split; [split; [split|..]|].
  - intros [|i] x Hx; [by injection Hx as <-|]. apply lookup_replicate in Hx as [-> _]. done.
  - intros [|i] [|j] x y dev inum Hx Hy Hhx Hhy; [done|..].
    + apply lookup_replicate in Hy as [-> _]. discriminate Hhy.
    + apply lookup_replicate in Hx as [-> _]. discriminate Hhx.
    + apply lookup_replicate in Hy as [-> _]. discriminate Hhy.
  - intros [|i] x Hx; [by injection Hx as <-|]. apply lookup_replicate in Hx as [-> _]. done.
  - intros [|i] x Hx; [by injection Hx as <-|]. apply lookup_replicate in Hx as [-> _]. done.
  - intros [|i] x Hx _; [by injection Hx as <-|]. apply lookup_replicate in Hx as [-> _]. done.
Qed.

(** [namei("/a")] is inode 2. *)
Lemma namex_correct_witness : let c := icache root_fs in let path := [47; 97; 0] in
  (∃ s', namex 7 (λ _, None) 0 path false (replicate DIRSIZ 0) root_fs = Err (Panic "iget: no inodes") s' ∧
     cache_full (icache s')) ∨
  ∃ o name' s', namex 7 (λ _, None) 0 path false (replicate DIRSIZ 0) root_fs = Ok (o, name') s' ∧
    fs_log s' = fs_log root_fs ∧ fs_sb s' = fs_sb root_fs ∧ cache_ok root_fs (icache s') ∧ locked_only None (icache s') ∧
    ∃ ip y, o = Some ip ∧ icache s' !! ip = Some y ∧ 0 < i_ref y ∧ i_dev y = 1 ∧ i_inum y = 2 ∧ linked root_fs 2 ∧
      (false = true → cstr name' = take DIRSIZ (default [] (last (components path)))) ∧
      ∀ k, irefs (icache s') 1 k = irefs c 1 k + one 2 k.
Proof.
  cbn zeta. assert (Ew : resolve false root_fs 1 (components [47; 97; 0]) = Some 2) by (vm_compute; reflexivity).
  pose proof (namex_correct 7 (λ _, None) root_fs 0 (Inode 1 1 1 unlocked false zero_dinode) [47; 97; 0] false (replicate DIRSIZ 0)) as H.
  change (path_start _ _) with 1 in H. rewrite Ew in H. apply H; clear H.
  - apply root_fs_wf.
  - apply root_tree.
  - apply root_cache.
  - apply root_cache.
  - reflexivity.
  - reflexivity.
  - apply (bool_decide_unpack _). vm_compute. exact I.
  - repeat constructor; lia.
  - reflexivity.
  - repeat constructor; lia.
  - apply root_linked. by left.
Defined.
