(* ===== verification/Sysproc.v ===== *)
(** Process system calls: sysproc.c

    [cur] is the calling process and [u] what the kernel sees of its memory.
    [copyout] of vm.c is reached through [user_ops], the clock through
    [has_ticks].  [sys_sleep] gives up the CPU in [sleep]; the loop from where it
    is resumed is [sys_sleep_resume]. *)

From stdpp Require Import gmap list numbers strings.
From Stdlib Require Import ZArith Lia.
From S2P Require Import Prelude Mem Memlayout StringC Cpu ProcData Rbtree Proc Syscall.

(** What sysproc.c calls in vm.c: [copyout(pgdir, va, p, len)] of the bytes at
    [p]. *)
Class user_ops (E : Type) := UserOps { uo_copyout : Z → Z → list Z → M E Z }.

(** The clock: [ticks] and [tickslock]. *)
Class has_ticks (E : Type) := HasTicks {
  tk_ticks : E → Z;
  tk_lock : E → spinlock;
  tk_set_ticks : Z → E → E;
  tk_set_lock : spinlock → E → E
}.

(** The little-endian bytes of an [n]-byte integer. *)
Fixpoint le_bytes (n : nat) (v : Z) : list Z :=
  match n with
  | O => []
  | S n' => u8 v :: le_bytes n' (v / 256)
  end.

(** The bytes of the structures that are copied to the user. *)
Definition proc_info_bytes (i : proc_info) : list Z :=
  le_bytes 4 (pi_pid i) ++ le_bytes 4 (pi_nice_value i) ++ le_bytes 4 (pi_weight i) ++
  le_bytes 8 (pi_vruntime i) ++ le_bytes 4 (pi_curr_runtime i).
Definition node_info_bytes (i : rb_node_info) : list Z :=
  le_bytes 4 (ni_pid i) ++ le_bytes 8 (ni_vruntime i) ++ le_bytes 4 (ni_color i) ++
  le_bytes 4 (ni_left_pid i) ++ le_bytes 4 (ni_right_pid i) ++ le_bytes 4 (ni_parent_pid i).

(** The size in bytes that [sys_gettreenodes] passes to [argptr]: a product of
    unsigned words that becomes an [int]. *)
Definition nodes_size (max_nodes : Z) : Z := s32 (u32 (u32 max_nodes * sizeof_rb_node_info)).

Section sysproc.
Context {E : Type} `{kernel_ops E} `{user_ops E} `{has_ticks E}.
Variables (me cur : nat) (u : uproc).
Variables forkret_addr trapret_addr : Z.
Variable ticks_chan : Z.             (* the address of [ticks] *)

Abbreviation st := (pst E).

Definition with_ticks {A} (m : M cpulock A) : M st A :=
  zoom (λ s, CpuLock (pcpu s) (tk_lock (ext s)))
       (λ c s, set_ext (tk_set_lock (the_lock c) (ext s)) (set_ptlock (CpuLock (the_cpu c) (ptlock s)) s)) m.
Definition acquire_ticks : M st unit := with_ticks (acquire me).
Definition release_ticks : M st unit := with_ticks (release me).
Definition get_ticks : M st Z := gets (λ s, tk_ticks (ext s)).
Definition ticks_sleep_lock : sleep_lock := LkOther release_ticks acquire_ticks.

Definition sys_fork : M st Z := fork me forkret_addr trapret_addr cur.

Definition sys_exit : M st Z := exit me cur ;;; ret 0.

Definition sys_wait : M st Z := wait me cur.

Definition sys_kill : M st Z :=
  match argint u 0 with
  | None => ret (-1)
  | Some pid => kill me pid
  end.

Definition sys_getpid : M st Z := p <- proc_at cur ;; ret (p_pid p).

Definition sys_sbrk : M st Z :=
  match argint u 0 with
  | None => ret (-1)
  | Some n =>
      p <- proc_at cur ;;
      r <- growproc cur n ;;
      if r <? 0 then ret (-1) else ret (s32 (p_sz p))
  end.

(** The loop of [sys_sleep]: its comparison is unsigned. *)
Definition sys_sleep_loop (ticks0 n : Z) : M st Z :=
  t <- get_ticks ;;
  if u32 (t - ticks0) <? u32 n then
    p <- proc_at cur ;;
    if negb (p_killed p =? 0) then release_ticks ;;; ret (-1)
    else sleep me (Some cur) (ChAddr ticks_chan) ticks_sleep_lock ;;; ret 0
  else release_ticks ;;; ret 0.

Definition sys_sleep : M st Z :=
  match argint u 0 with
  | None => ret (-1)
  | Some n =>
      acquire_ticks ;;;
      ticks0 <- get_ticks ;;
      sys_sleep_loop ticks0 n
  end.

(** ... and from where the process is resumed. *)
Definition sys_sleep_resume (ticks0 n : Z) : M st Z :=
  sleep_resume me cur ticks_sleep_lock ;;; sys_sleep_loop ticks0 n.

Definition sys_uptime : M st Z :=
  acquire_ticks ;;;
  xticks <- get_ticks ;;
  release_ticks ;;;
  ret (s32 xticks).

Definition sys_gettreeinfo : M st Z :=
  match argptr u 0 4, argptr u 1 4, argptr u 2 4 with
  | Some user_count, Some user_total_weight, Some user_period =>
      ' (count, total_weight, period) <- gettreeinfo ;;
      p <- proc_at cur ;;
      r <- lift (uo_copyout (p_pgdir p) user_count (le_bytes 4 count)) ;;
      if r <? 0 then ret (-1)
      else
        r <- lift (uo_copyout (p_pgdir p) user_total_weight (le_bytes 4 total_weight)) ;;
        if r <? 0 then ret (-1)
        else
          r <- lift (uo_copyout (p_pgdir p) user_period (le_bytes 4 period)) ;;
          if r <? 0 then ret (-1) else ret 0
  | _, _, _ => ret (-1)
  end.

(** [pinfo0] is what the uninitialised [pinfo] holds. *)
Definition sys_getprocinfo (pinfo0 : proc_info) : M st Z :=
  match argint u 0, argptr u 1 sizeof_proc_info with
  | Some pid, Some user_pinfo =>
      pinfo <- getprocinfo me pid pinfo0 ;;
      if pi_pid pinfo =? -1 then ret (-1)
      else
        p <- proc_at cur ;;
        r <- lift (uo_copyout (p_pgdir p) user_pinfo (proc_info_bytes pinfo)) ;;
        if r <? 0 then ret (-1) else ret 0
  | _, _ => ret (-1)
  end.

Definition sys_gettreenodes : M st Z :=
  match argint u 0 with
  | None => ret (-1)
  | Some max_nodes =>
      match argptr u 1 (nodes_size max_nodes) with
      | None => ret (-1)
      | Some buf =>
          nodes <- lift k_kalloc ;;
          if nodes =? 0 then ret (-1)
          else
            o <- gets (λ s, collect_rb_tree_nodes (S NPROC) (ptable s) (rb_root (rbTree s)) [] max_nodes) ;;
            out <- deref o ;;
            p <- proc_at cur ;;
            r <- lift (uo_copyout (p_pgdir p) buf (concat (node_info_bytes <$> out))) ;;
            if r <? 0 then lift (k_kfree nodes) ;;; ret (-1)
            else lift (k_kfree nodes) ;;; ret (Z.of_nat (length out))
      end
  end.

End sysproc.

(** 153391690 entries of 28 bytes have a size of 24 bytes: the product wraps,
    so a buffer of 24 bytes passes the check of [sys_gettreenodes]. *)
Lemma nodes_size_wraps : nodes_size 153391690 = 24.
Proof. done. Qed.
