(* ===== verification/Trap.v ===== *)
(** Traps, interrupts and the clock: trap.c

    [me] is the CPU and [cur] the process that runs on it.  [trap] runs to its
    return or to the switch to the scheduler in [yield] or [exit]; what is left
    after [yield] is [trap_end].  The device drivers are reached through
    [irq_ops], the handlers of the system calls are a parameter. *)

From stdpp Require Import gmap list numbers strings.
From Stdlib Require Import ZArith Lia.
From S2P Require Import Prelude Mem Memlayout StringC Cpu ProcData Rbtree Proc Syscall Sysproc.

(** traps.h *)
Definition T_SYSCALL : Z := 64.
Definition T_IRQ0 : Z := 32.
Definition IRQ_TIMER : Z := 0.
Definition IRQ_KBD : Z := 1.
Definition IRQ_COM1 : Z := 4.
Definition IRQ_IDE : Z := 14.
Definition IRQ_SPURIOUS : Z := 31.

(** struct gatedesc, without the fields that [SETGATE] sets to a constant. *)
Record gatedesc := Gatedesc {
  g_off_15_0 : Z;
  g_cs : Z;
  g_type : Z;
  g_dpl : Z;
  g_p : Z;
  g_off_31_16 : Z
}.

Definition STS_IG32 : Z := 0xE.
Definition STS_TG32 : Z := 0xF.

Definition SETGATE (istrap : bool) (sel off d : Z) : gatedesc :=
  Gatedesc (Z.land off 0xffff) sel (if istrap then STS_TG32 else STS_IG32) d 1 (Z.shiftr off 16).

(** The interrupt descriptor table that [tvinit] builds. *)
Definition tvinit_idt (vectors : list Z) : list gatedesc :=
  <[Z.to_nat T_SYSCALL := SETGATE true (Z.shiftl SEG_KCODE 3) (default 0 (vectors !! Z.to_nat T_SYSCALL)) DPL_USER]>
    ((λ off, SETGATE false (Z.shiftl SEG_KCODE 3) off 0) <$> take 256 vectors).

(** What trap.c calls in the drivers. *)
Class irq_ops (E : Type) := IrqOps {
  iq_ideintr : M E unit;
  iq_kbdintr : M E unit;
  iq_uartintr : M E unit;
  iq_lapiceoi : M E unit
}.

(** A trap frame with a new [eax]. *)
Definition set_eax (v : Z) (f : trapframe) : trapframe :=
  Trapframe (tf_edi f) (tf_esi f) (tf_ebp f) (tf_oesp f) (tf_ebx f) (tf_edx f) (tf_ecx f) v
    (tf_gs f) (tf_fs f) (tf_es f) (tf_ds f) (tf_trapno f) (tf_err f) (tf_eip f) (tf_cs f)
    (tf_eflags f) (tf_esp f) (tf_ss f).

Section trap.
Context {E : Type} `{kernel_ops E} `{has_ticks E} `{irq_ops E}.
Variables (me : nat) (cur : option nat).
Variable ticks_chan : Z.
Variable handler : sysname → M (pst E) Z.

Abbreviation st := (pst E).

(** [if(myproc()->killed) exit();] *)
Definition exit_if_killed (i : nat) : M st unit :=
  p <- proc_at i ;;
  if negb (p_killed p =? 0) then exit me i else ret tt.

(** The first branch of [trap]; [a] is the address of the frame. *)
Definition trap_syscall (a : Z) : M st unit :=
  i <- deref cur ;;
  exit_if_killed i ;;;
  upd i (set_tf a) ;;;
  tf <- frame_at a ;;
  eax <- syscall handler (tf_eax tf) ;;
  tf <- frame_at a ;;
  modify (set_frame a (set_eax eax tf)) ;;;
  exit_if_killed i.

(** The clock interrupt: CPU 0 counts. *)
Definition timer_tick : M st unit :=
  if bool_decide (me = 0%nat) then
    acquire_ticks me ;;;
    modify (λ s, set_ext (tk_set_ticks (u32 (tk_ticks (ext s) + 1)) (ext s)) s) ;;;
    wakeup me (ChAddr ticks_chan) ;;;
    release_ticks me
  else ret tt.

Definition from_user (tf : trapframe) : bool := Z.land (tf_cs tf) 3 =? DPL_USER.

(** The switch of [trap]. *)
Definition trap_switch (tf : trapframe) : M st unit :=
  let no := tf_trapno tf in
  if no =? T_IRQ0 + IRQ_TIMER then timer_tick ;;; lift iq_lapiceoi
  else if no =? T_IRQ0 + IRQ_IDE then lift iq_ideintr ;;; lift iq_lapiceoi
  else if no =? T_IRQ0 + IRQ_IDE + 1 then ret tt
  else if no =? T_IRQ0 + IRQ_KBD then lift iq_kbdintr ;;; lift iq_lapiceoi
  else if no =? T_IRQ0 + IRQ_COM1 then lift iq_uartintr ;;; lift iq_lapiceoi
  else if (no =? T_IRQ0 + 7) || (no =? T_IRQ0 + IRQ_SPURIOUS) then lift iq_lapiceoi
  else
    match cur with
    | Some i =>
        if Z.land (tf_cs tf) 3 =? 0 then panic "trap" else upd i (set_killed 1)
    | None => panic "trap"
    end.

(** [if(myproc() && myproc()->killed && (tf->cs&3) == DPL_USER) exit();] *)
Definition trap_end (tf : trapframe) : M st unit :=
  match cur with
  | Some i => if from_user tf then exit_if_killed i else ret tt
  | None => ret tt
  end.

Definition trap_yield (tf : trapframe) : M st unit :=
  match cur with
  | Some i =>
      p <- proc_at i ;;
      if bool_decide (p_state p = RUNNING) && (tf_trapno tf =? T_IRQ0 + IRQ_TIMER) then yield me i
      else ret tt
  | None => ret tt
  end.

Definition trap (a : Z) : M st unit :=
  tf <- frame_at a ;;
  if tf_trapno tf =? T_SYSCALL then trap_syscall a
  else
    trap_switch tf ;;;
    trap_end tf ;;;
    trap_yield tf ;;;
    trap_end tf.

(** Where a process that [trap] made yield goes on. *)
Definition trap_resume (tf : trapframe) : M st unit := yield_resume me ;;; trap_end tf.

End trap.
