(* ===== verification/Dev.v ===== *)
(** Device registers

    The hardware is not part of the sources.  A device is a state [D] with the
    port instructions of x86.h, [inb] and [outb], and the loads and stores of
    memory-mapped registers, as operations: a read may change the device.  The
    drivers are proved against these classes and, where a driver relies on what
    the device does, against a class of laws of its own. *)

From stdpp Require Import gmap list numbers.
From Stdlib Require Import ZArith Lia.
From S2P Require Import Prelude.

(** The ports. *)
Class port_io (D : Type) := {
  dev_in : Z → D → Z * D;
  dev_out : Z → Z → D → D
}.

(** Registers in memory: 32-bit loads and stores by address. *)
Class mmio (D : Type) := {
  dev_ld : Z → D → Z * D;
  dev_st : Z → Z → D → D
}.

Section access.
Context {D : Type}.

(** x86.h: [inb] and [outb]; the instructions move a byte. *)
Definition inb `{!port_io D} (port : Z) : M D Z :=
  λ d, let '(v, d') := dev_in port d in Ok (u8 v) d'.
Definition outb `{!port_io D} (port data : Z) : M D unit :=
  λ d, Ok tt (dev_out port (u8 data) d).

(** A load and a store through a [volatile uint *]. *)
Definition vld `{!mmio D} (a : Z) : M D Z :=
  λ d, let '(v, d') := dev_ld a d in Ok (u32 v) d'.
Definition vst `{!mmio D} (a v : Z) : M D unit :=
  λ d, Ok tt (dev_st a (u32 v) d).

End access.

(** ** Histories

    The most general device: what it answers is a function of all that
    happened before.  Its state is the history of the accesses, oldest first. *)

Inductive event : Type :=
| EvIn (port v : Z)
| EvOut (port v : Z)
| EvLd (a v : Z)
| EvSt (a v : Z).
Abbreviation history := (list event).

Class environment := {
  env_in : history → Z → Z;
  env_ld : history → Z → Z
}.

#[global] Instance history_ports `{!environment} : port_io history := {
  dev_in p h := (env_in h p, h ++ [EvIn p (u8 (env_in h p))]);
  dev_out p v h := h ++ [EvOut p v]
}.
#[global] Instance history_mmio `{!environment} : mmio history := {
  dev_ld a h := (env_ld h a, h ++ [EvLd a (u32 (env_ld h a))]);
  dev_st a v h := h ++ [EvSt a v]
}.

(** The stores of a history, in order, and the last one to an address. *)
Definition stores (h : history) : list (Z * Z) :=
  omap (λ e, match e with EvSt a v => Some (a, v) | _ => None end) h.
Definition last_store (h : history) (a : Z) : option Z :=
  foldl (λ o x, if x.1 =? a then Some x.2 else o) None (stores h).
Definition outs (h : history) : list (Z * Z) :=
  omap (λ e, match e with EvOut p v => Some (p, v) | _ => None end) h.

Lemma stores_app h h' : stores (h ++ h') = stores h ++ stores h'.
Proof. apply omap_app. Qed.

Lemma outs_app h h' : outs (h ++ h') = outs h ++ outs h'.
Proof. apply omap_app. Qed.

(** A machine where every read gives 0. *)
Definition quiet_env : environment := {| env_in _ _ := 0; env_ld _ _ := 0 |}.

(** ** Code that returns from every state *)

Definition returns {S A} (f : M S A) : Prop := ∀ s, ∃ a s', f s = Ok a s'.

Section returns.
Context {S : Type}.

Lemma returns_ret {A} (a : A) : returns (S := S) (ret a).
Proof. intros s. by eexists _, _. Qed.

Lemma returns_modify (f : S → S) : returns (modify f).
Proof. intros s. by eexists _, _. Qed.

Lemma returns_gets {A} (f : S → A) : returns (gets f).
Proof. intros s. by eexists _, _. Qed.

Lemma returns_bind {A B} (f : M S A) (k : A → M S B) : returns f → (∀ a, returns (k a)) → returns (bind f k).
Proof. intros Hf Hk s. destruct (Hf s) as (a & s' & E). rewrite (bind_ok _ _ _ _ _ E). apply Hk. Qed.

Lemma returns_if {A} (b : bool) (f g : M S A) : returns f → returns g → returns (if b then f else g).
Proof. by destruct b. Qed.

Lemma returns_zoom {T A} (g : S → T) h (f : M T A) : returns f → returns (zoom g h f).
Proof. intros Hf s. unfold zoom. destruct (Hf (g s)) as (a & t & ->). by eexists _, _. Qed.

Lemma returns_inb `{!port_io S} p : returns (S := S) (inb p).
Proof. intros s. unfold inb. destruct (dev_in p s). by eexists _, _. Qed.

Lemma returns_outb `{!port_io S} p v : returns (S := S) (outb p v).
Proof. intros s. by eexists _, _. Qed.

Lemma returns_vld `{!mmio S} a : returns (S := S) (vld a).
Proof. intros s. unfold vld. destruct (dev_ld a s). by eexists _, _. Qed.

Lemma returns_vst `{!mmio S} a v : returns (S := S) (vst a v).
Proof. intros s. by eexists _, _. Qed.

End returns.

Create HintDb returns.
#[export] Hint Resolve returns_ret returns_modify returns_gets
  returns_inb returns_outb returns_vld returns_vst : returns.

(** Code built from these. *)
Ltac solve_returns := repeat (intros; first [solve [auto 2 with returns] | apply returns_bind | apply returns_if | apply returns_zoom]).

(** ** Fields of a register *)

(** A field below bit [n] or-ed to one from bit [n] on. *)
Lemma lor_shiftl_low n a b : 0 ≤ n → 0 ≤ b < 2 ^ n → Z.lor (Z.shiftl a n) b = a * 2 ^ n + b.
Proof.
  intros Hn Hb.
  assert (Hd : Z.land (Z.shiftl a n) b = 0).
  { apply Z.bits_inj'. intros i Hi. rewrite Z.land_spec, Z.bits_0.
    destruct (Z.lt_ge_cases i n).
    - by rewrite Z.shiftl_spec_low.
    - rewrite <- (Z.mod_small b (2 ^ n)) by done. rewrite Z.mod_pow2_bits_high by lia.
      apply andb_false_r. }
  rewrite <- Z.lxor_lor, <- Z.add_nocarry_lxor, Z.shiftl_mul_pow2 by done. done.
Qed.

(** Two bytes as a 16-bit number, high byte first. *)
Lemma lor_bytes a b : 0 ≤ b < 256 → Z.lor (Z.shiftl a 8) b = b + 256 * a.
Proof. intros. rewrite lor_shiftl_low; lia. Qed.
