(* ===== verification/Segment.v ===== *)
(** Segments, gates and the task state: mmu.h, with seginit, switchkvm and
    switchuvm of vm.c, tvinit and idtinit of trap.c and the register loads of
    x86.h

    A descriptor is the record of its bit fields; [seg_base], [seg_limit] and
    [gate_offset] read it the way the processor does.  The theorem is the
    protection that the tables give: what a program at user privilege can
    enter. *)

From stdpp Require Import gmap list numbers strings.
From Stdlib Require Import ZArith Lia.
From S2P Require Import Prelude Memlayout Cpu ProcData Dev Trap.

(** ** mmu.h *)

Record segdesc := Segdesc {
  lim_15_0 : Z; base_15_0 : Z; base_23_16 : Z; sd_type : Z; sd_s : Z; sd_dpl : Z; sd_p : Z;
  lim_19_16 : Z; sd_avl : Z; sd_rsv1 : Z; sd_db : Z; sd_g : Z; base_31_24 : Z
}.
Definition zero_seg : segdesc := Segdesc 0 0 0 0 0 0 0 0 0 0 0 0 0.

Definition SEG (type base lim dpl : Z) : segdesc :=
  Segdesc (Z.land (Z.shiftr lim 12) 0xffff) (Z.land base 0xffff) (Z.land (Z.shiftr base 16) 0xff)
    type 1 dpl 1 (Z.shiftr lim 28) 0 0 1 1 (Z.shiftr base 24).
Definition SEG16 (type base lim dpl : Z) : segdesc :=
  Segdesc (Z.land lim 0xffff) (Z.land base 0xffff) (Z.land (Z.shiftr base 16) 0xff)
    type 1 dpl 1 (Z.shiftr lim 16) 0 0 1 0 (Z.shiftr base 24).

Definition NSEGS : nat := 6.
Definition STA_X : Z := 0x8.
Definition STA_W : Z := 0x2.
Definition STA_R : Z := 0x2.
Definition STS_T32A : Z := 0x9.

(** struct taskstate: the fields that the kernel sets, and its size. *)
Record taskstate := Taskstate { ts_esp0 : Z; ts_ss0 : Z; ts_iomb : Z }.
Definition sizeof_taskstate : Z := 104.
Definition sizeof_segdesc : Z := 8.
Definition sizeof_gatedesc : Z := 8.

(** ** A CPU's tables and registers *)

Record hwcpu := Hwcpu {
  gdt : list segdesc;       (* struct cpu: gdt *)
  ts : taskstate;           (* struct cpu: ts *)
  gdtr : Z * Z;             (* limit and base *)
  idtr : Z * Z;
  tr : Z;
  cr3 : Z
}.

(** x86.h: the pseudo-descriptor of three 16-bit words that [lgdt] and [lidt]
    load: limit, base. *)
Definition pseudo (p size : Z) : Z * Z :=
  (u16 (size - 1), u16 p + 65536 * u16 (Z.shiftr p 16)).
Definition lgdt (p size : Z) : M hwcpu unit :=
  modify (λ h, Hwcpu (gdt h) (ts h) (pseudo p size) (idtr h) (tr h) (cr3 h)).
Definition lidt (p size : Z) : M hwcpu unit :=
  modify (λ h, Hwcpu (gdt h) (ts h) (gdtr h) (pseudo p size) (tr h) (cr3 h)).
Definition ltr (sel : Z) : M hwcpu unit :=
  modify (λ h, Hwcpu (gdt h) (ts h) (gdtr h) (idtr h) (u16 sel) (cr3 h)).
Definition lcr3 (val : Z) : M hwcpu unit :=
  modify (λ h, Hwcpu (gdt h) (ts h) (gdtr h) (idtr h) (tr h) val).

Definition set_gdt (i : Z) (d : segdesc) : M hwcpu unit :=
  modify (λ h, Hwcpu (<[Z.to_nat i := d]> (gdt h)) (ts h) (gdtr h) (idtr h) (tr h) (cr3 h)).
Definition set_ts (f : taskstate → taskstate) : M hwcpu unit :=
  modify (λ h, Hwcpu (gdt h) (f (ts h)) (gdtr h) (idtr h) (tr h) (cr3 h)).

(** vm.c: [seginit]; [gdt_addr] is the address of [c->gdt]. *)
Definition seginit (gdt_addr : Z) : M hwcpu unit :=
  set_gdt SEG_KCODE (SEG (Z.lor STA_X STA_R) 0 0xffffffff 0) ;;;
  set_gdt SEG_KDATA (SEG STA_W 0 0xffffffff 0) ;;;
  set_gdt SEG_UCODE (SEG (Z.lor STA_X STA_R) 0 0xffffffff DPL_USER) ;;;
  set_gdt SEG_UDATA (SEG STA_W 0 0xffffffff DPL_USER) ;;;
  lgdt gdt_addr (sizeof_segdesc * Z.of_nat NSEGS).

(** vm.c: [switchkvm]. *)
Definition switchkvm (kpgdir : Z) : M hwcpu unit := lcr3 (V2P kpgdir).

(** [mycpu()->gdt[SEG_TSS].s = 0] *)
Definition clear_s (d : segdesc) : segdesc :=
  Segdesc (lim_15_0 d) (base_15_0 d) (base_23_16 d) (sd_type d) 0 (sd_dpl d) (sd_p d)
    (lim_19_16 d) (sd_avl d) (sd_rsv1 d) (sd_db d) (sd_g d) (base_31_24 d).

(** The part of [switchuvm] between [pushcli] and [popcli]; [ts_addr] is the
    address of [mycpu()->ts]. *)
Definition load_task (ts_addr kstack pgdir : Z) : M hwcpu unit :=
  set_gdt SEG_TSS (SEG16 STS_T32A ts_addr (sizeof_taskstate - 1) 0) ;;;
  d <- gets (λ h, gdt h !! Z.to_nat SEG_TSS) ;;
  d <- deref d ;;
  set_gdt SEG_TSS (clear_s d) ;;;
  set_ts (λ t, Taskstate (ts_esp0 t) (Z.shiftl SEG_KDATA 3) (ts_iomb t)) ;;;
  set_ts (λ t, Taskstate (u32 (kstack + KSTACKSIZE)) (ts_ss0 t) (ts_iomb t)) ;;;
  set_ts (λ t, Taskstate (ts_esp0 t) (ts_ss0 t) 0xFFFF) ;;;
  ltr (Z.shiftl SEG_TSS 3) ;;;
  lcr3 (V2P pgdir).

(** vm.c: [switchuvm]; [p] is the kernel stack and the page directory of the
    process. *)
Definition switchuvm (ts_addr : Z) (p : option (Z * Z)) : M (cpu * hwcpu) unit :=
  let on_cpu (m : M cpu unit) : M (cpu * hwcpu) unit := zoom fst (λ c s, (c, s.2)) m in
  let on_hw (m : M hwcpu unit) : M (cpu * hwcpu) unit := zoom snd (λ h s, (s.1, h)) m in
  match p with
  | None => panic "switchuvm: no process"
  | Some (kstack, pgdir) =>
      if kstack =? 0 then panic "switchuvm: no kstack"
      else if pgdir =? 0 then panic "switchuvm: no pgdir"
      else on_cpu pushcli ;;; on_hw (load_task ts_addr kstack pgdir) ;;; on_cpu popcli
  end.

(** trap.c: [idtinit]. *)
Definition idtinit (idt_addr : Z) : M hwcpu unit := lidt idt_addr (sizeof_gatedesc * 256).

(** ** What the processor reads *)

Definition seg_base (d : segdesc) : Z := base_15_0 d + 65536 * base_23_16 d + 16777216 * base_31_24 d.
(** The last byte of the segment. *)
Definition seg_limit (d : segdesc) : Z :=
  let l := lim_15_0 d + 65536 * lim_19_16 d in if sd_g d =? 0 then l else 4096 * l + 4095.
Definition gate_offset (g : gatedesc) : Z := g_off_15_0 g + 65536 * g_off_31_16 g.

(** A present code or data segment over the whole address space. *)
Definition flat (d : segdesc) (dpl : Z) : Prop :=
  seg_base d = 0 ∧ seg_limit d = 0xffffffff ∧ sd_dpl d = dpl ∧ sd_p d = 1 ∧ sd_s d = 1.

(** The instruction [int n] at privilege [cpl] gets through when the gate's
    privilege allows it; an interrupt gate turns interrupts off. *)
Definition int_allowed (idt : list gatedesc) (n : nat) (cpl : Z) : bool :=
  match idt !! n with Some g => (cpl <=? g_dpl g) && (g_p g =? 1) | None => false end.
Definition clears_if (idt : list gatedesc) (n : nat) : bool :=
  match idt !! n with Some g => g_type g =? STS_IG32 | None => false end.

(** The user-mode port instructions need a bit of the I/O map inside the task
    segment when IOPL is 0. *)
Definition io_map_inside (h : hwcpu) : bool :=
  match gdt h !! Z.to_nat SEG_TSS with Some d => ts_iomb (ts h) <=? seg_limit d | None => false end.

Section decode.

Lemma split16 a : 0 ≤ a < 4294967296 →
  Z.land a 0xffff + 65536 * Z.land (Z.shiftr a 16) 0xff + 16777216 * Z.shiftr a 24 = a.
Proof.
  intros Ha. change 0xffff with (Z.ones 16). change 0xff with (Z.ones 8).
  rewrite !Z.land_ones, !Z.shiftr_div_pow2 by lia.
  change (2 ^ 16) with 65536. change (2 ^ 24) with 16777216. change (2 ^ 8) with 256. zlia.
Qed.

Lemma SEG_decode type base lim dpl : 0 ≤ base < 4294967296 → 0 ≤ lim < 4294967296 →
  seg_base (SEG type base lim dpl) = base ∧ seg_limit (SEG type base lim dpl) = 4096 * (lim / 4096) + 4095.
Proof.
  intros Hb Hl. split; [by apply split16|]. unfold seg_limit. cbn [sd_g SEG lim_15_0 lim_19_16 Z.eqb].
  change (1 =? 0) with false. change 0xffff with (Z.ones 16).
  rewrite Z.land_ones, !Z.shiftr_div_pow2 by lia.
  change (2 ^ 12) with 4096. change (2 ^ 16) with 65536. change (2 ^ 28) with 268435456. zlia.
Qed.

Lemma SEG16_decode type base lim dpl : 0 ≤ base < 4294967296 → 0 ≤ lim < 1048576 →
  seg_base (SEG16 type base lim dpl) = base ∧ seg_limit (SEG16 type base lim dpl) = lim.
Proof.
  intros Hb Hl. split; [by apply split16|]. unfold seg_limit. cbn [sd_g SEG16 lim_15_0 lim_19_16 Z.eqb].
  change (0 =? 0) with true. change 0xffff with (Z.ones 16).
  rewrite Z.land_ones, !Z.shiftr_div_pow2 by lia. change (2 ^ 16) with 65536. zlia.
Qed.

Lemma SETGATE_offset istrap sel off d : 0 ≤ off < 4294967296 → gate_offset (SETGATE istrap sel off d) = off.
Proof.
  intros Ho. unfold gate_offset. cbn [SETGATE g_off_15_0 g_off_31_16]. change 0xffff with (Z.ones 16).
  rewrite Z.land_ones, Z.shiftr_div_pow2 by lia. change (2 ^ 16) with 65536. zlia.
Qed.

Lemma pseudo_decode p size : 0 ≤ p < 4294967296 → 0 < size ≤ 65536 → pseudo p size = (size - 1, p).
Proof.
  intros Hp Hs. unfold pseudo. rewrite Z.shiftr_div_pow2 by lia. change (2 ^ 16) with 65536.
  f_equal; zlia.
Qed.

(** The entries of the table that [tvinit] builds. *)
Lemma tvinit_lookup vectors n off : length vectors = 256%nat → vectors !! n = Some off →
  tvinit_idt vectors !! n = Some (SETGATE (bool_decide (n = 64%nat)) (Z.shiftl SEG_KCODE 3) off
                                    (if decide (n = 64%nat) then DPL_USER else 0)).
Proof.
  intros Hl Hn. unfold tvinit_idt. change (Z.to_nat T_SYSCALL) with 64%nat.
  rewrite take_ge by lia. destruct (decide (n = 64%nat)) as [->|Hne].
  - rewrite list_lookup_insert_eq by (rewrite length_fmap; lia). by rewrite Hn.
  - rewrite list_lookup_insert_ne, list_lookup_fmap, Hn, bool_decide_eq_false_2 by done. done.
Qed.

End decode.

(** The registers and tables after [seginit] and after [load_task]. *)
Lemma load_task_run ts_addr kstack pgdir h : length (gdt h) = NSEGS →
  load_task ts_addr kstack pgdir h =
  Ok tt (Hwcpu (<[5%nat := clear_s (SEG16 STS_T32A ts_addr 103 0)]> (gdt h))
               (Taskstate (u32 (kstack + KSTACKSIZE)) 16 0xFFFF) (gdtr h) (idtr h) 40 (V2P pgdir)).
Proof.
  intros Hl. unfold load_task, set_gdt. rewrite bind_modify, bind_gets. cbn [gdt].
  rewrite list_lookup_insert_eq by (rewrite Hl; unfold NSEGS, SEG_TSS; lia).
  unfold deref, set_ts, ltr, lcr3. rewrite bind_ret, !bind_modify. unfold modify.
  cbn [gdt ts gdtr idtr tr cr3 ts_esp0 ts_ss0 ts_iomb]. by rewrite list_insert_insert_eq.
Qed.

Lemma switchuvm_run ts_addr c h kstack pgdir : cpu_ok c → length (gdt h) = NSEGS → kstack ≠ 0 → pgdir ≠ 0 →
  ∃ c' h', switchuvm ts_addr (Some (kstack, pgdir)) (c, h) = Ok tt (c', h') ∧
    ncli c' = ncli c ∧ fl_if c' = fl_if c ∧ load_task ts_addr kstack pgdir h = Ok tt h'.
Proof.
  intros [Hn Hoff] Hl Hk Hp. unfold switchuvm.
  rewrite (proj2 (Z.eqb_neq _ _) Hk), (proj2 (Z.eqb_neq _ _) Hp).
  pose proof (load_task_run ts_addr kstack pgdir h Hl) as Hload.
  unfold zoom at 1. erewrite bind_ok by (cbn [fst]; rewrite pushcli_run by done; reflexivity).
  unfold zoom at 1. erewrite bind_ok by (cbn [fst snd]; rewrite Hload; reflexivity).
  unfold zoom. cbn [fst snd]. rewrite popcli_run by (done || (cbn [ncli]; lia)).
  eexists _, _. split; [reflexivity|]. cbn [ncli fl_if intena]. rewrite Hload. split; [lia|].
  split; [|done]. replace (ncli c + 1 - 1) with (ncli c) by lia.
  destruct (Z.eqb_spec (ncli c) 0); cbn [andb]; [done|]. symmetry. apply Hoff. lia.
Qed.

(** Whenever [switchuvm] returns, the CPU uses the process's page table and its
    kernel stack. *)
Lemma switchuvm_loads ts_addr kstack pgdir (s s' : cpu * hwcpu) :
  switchuvm ts_addr (Some (kstack, pgdir)) s = Ok tt s' →
  kstack ≠ 0 ∧ pgdir ≠ 0 ∧ cr3 (s'.2) = V2P pgdir ∧ ts_esp0 (ts (s'.2)) = u32 (kstack + KSTACKSIZE).
Proof.
  unfold switchuvm. destruct (Z.eqb_spec kstack 0); [done|]. destruct (Z.eqb_spec pgdir 0); [done|].
  intros Hr. apply bind_inv in Hr as ([] & s1 & _ & Hr). apply bind_inv in Hr as ([] & s2 & H2 & H3).
  unfold zoom in H2, H3. destruct (popcli _); [|done]. injection H3 as _ <-. cbn [snd].
  destruct (load_task _ _ _ _) as [[] h|] eqn:Hl; [|done]. injection H2 as <-. cbn [snd].
  unfold load_task, set_gdt in Hl. rewrite bind_modify, bind_gets in Hl.
  destruct (gdt _ !! _); [|done]. unfold deref, set_ts, ltr, lcr3 in Hl. rewrite bind_ret, !bind_modify in Hl.
  injection Hl as <-. done.
Qed.

(** The segments of [seginit], below the task segment. *)
Lemma kernel_segments (l : list segdesc) (x : segdesc) : length l = NSEGS →
  ∀ i dpl, (i, dpl) ∈ [(SEG_KCODE, 0); (SEG_KDATA, 0); (SEG_UCODE, 3); (SEG_UDATA, 3)] →
  ∃ d, (<[5%nat := x]> (<[4%nat := SEG STA_W 0 0xffffffff DPL_USER]>
       (<[3%nat := SEG (Z.lor STA_X STA_R) 0 0xffffffff DPL_USER]>
       (<[2%nat := SEG STA_W 0 0xffffffff 0]>
       (<[1%nat := SEG (Z.lor STA_X STA_R) 0 0xffffffff 0]> l))))) !! Z.to_nat i = Some d ∧ flat d dpl.
Proof.
  intros Hl i dpl Hin. do 7 (destruct l as [|? l]; try done).
  repeat (apply elem_of_cons in Hin as [[= -> ->]|Hin]; [by eexists|]). by apply elem_of_nil in Hin.
Qed.

(** C32. The protection that the kernel's tables give.  After [seginit] the four
    segments cover the whole address space, the kernel's at privilege 0 and the
    user's at 3, and the descriptor-table register points to the table.  After
    [tvinit] every vector leads to its entry in [vectors]; a user program can
    raise vector 64 and no other; every vector but 64 turns interrupts off.
    After [switchuvm] the processor will take traps of the process on its kernel
    stack, in its address space, and the I/O map lies outside the task segment,
    so that user code has no ports; the interrupt flag and the [pushcli] depth
    are as before. *)
Theorem protection_tables vectors gdt_addr ts_addr c h kstack pgdir :
  length vectors = 256%nat → Forall (λ v, 0 ≤ v < 4294967296) vectors →
  length (gdt h) = NSEGS → 0 ≤ gdt_addr < 4294967296 → 0 ≤ ts_addr < 4294967296 →
  cpu_ok c → kstack ≠ 0 → pgdir ≠ 0 →
  ∃ h1 h2 c', seginit gdt_addr h = Ok tt h1 ∧ switchuvm ts_addr (Some (kstack, pgdir)) (c, h1) = Ok tt (c', h2) ∧
    ncli c' = ncli c ∧ fl_if c' = fl_if c ∧ gdtr h2 = (47, gdt_addr) ∧
    (∀ i dpl, (i, dpl) ∈ [(SEG_KCODE, 0); (SEG_KDATA, 0); (SEG_UCODE, 3); (SEG_UDATA, 3)] →
       ∃ d, gdt h2 !! Z.to_nat i = Some d ∧ flat d dpl) ∧
    (∃ d, gdt h2 !! Z.to_nat SEG_TSS = Some d ∧ seg_base d = ts_addr ∧ seg_limit d = 103 ∧ sd_s d = 0) ∧
    io_map_inside h2 = false ∧
    ts_esp0 (ts h2) = u32 (kstack + 4096) ∧ ts_ss0 (ts h2) = 16 ∧ tr h2 = 40 ∧ cr3 h2 = V2P pgdir ∧
    (∀ n off, vectors !! n = Some off → ∃ g, tvinit_idt vectors !! n = Some g ∧ gate_offset g = off ∧ g_cs g = 8) ∧
    (∀ n, int_allowed (tvinit_idt vectors) n 3 = true ↔ n = 64%nat) ∧
    (∀ n, (n < 256)%nat → clears_if (tvinit_idt vectors) n = true ↔ n ≠ 64%nat).
Proof.
  intros Hlen Hv Hg Hga Hta Hc Hk Hp.
  eexists. unfold seginit, set_gdt, lgdt. rewrite !bind_modify. unfold modify. cbn [gdt ts gdtr idtr tr cr3].
  set (h1 := Hwcpu _ _ _ _ _ _).
  assert (Hl1 : length (gdt h1) = NSEGS) by (cbn [h1 gdt]; by rewrite !length_insert).
  destruct (switchuvm_run ts_addr c h1 kstack pgdir Hc Hl1 Hk Hp) as (c' & h2 & Hrun & Hn & Hi & Hload).
  exists h2, c'. rewrite load_task_run in Hload by done. injection Hload as <-.
  split; [reflexivity|]. split; [exact Hrun|]. split; [done|]. split; [done|]. cbn [gdt ts gdtr idtr tr cr3 ts_esp0 ts_ss0].
  split; [cbn [h1 gdtr]; unfold sizeof_segdesc, NSEGS; by rewrite pseudo_decode|].
  split. { apply kernel_segments. done. }
  split.
  { eexists. rewrite list_lookup_insert_eq by (rewrite ?length_insert, Hg; unfold NSEGS; lia). split; [done|].
    destruct (SEG16_decode STS_T32A ts_addr 103 0) as [H1 H2]; [done..|]. done. }
  split.
  { unfold io_map_inside. cbn [gdt ts ts_iomb]. rewrite list_lookup_insert_eq by (rewrite ?length_insert, Hg; unfold NSEGS; lia). done. }
  do 4 (split; [done|]). split_and!.
  - intros n off Hn'. eexists. split; [by apply tvinit_lookup|]. split; [|done].
    apply SETGATE_offset. rewrite Forall_lookup in Hv. by eapply Hv.
  - intros n. unfold int_allowed. destruct (vectors !! n) as [off|] eqn:Hn'.
    + rewrite (tvinit_lookup _ _ _ Hlen Hn'). cbn [SETGATE g_dpl g_p]. destruct (decide (n = 64%nat)); done.
    + split; [|intros ->]; [|apply lookup_ge_None in Hn'; lia].
      rewrite lookup_ge_None_2; [done|]. apply lookup_ge_None in Hn'.
      unfold tvinit_idt. rewrite length_insert, length_fmap, length_take. lia.
  - intros n Hn'. unfold clears_if. destruct (lookup_lt_is_Some_2 vectors n) as [off Hoff]; [lia|].
    rewrite (tvinit_lookup _ _ _ Hlen Hoff). cbn [SETGATE g_type]. case_bool_decide; cbn; split; congruence.
Qed.

Lemma protection_tables_witness :
  let h := Hwcpu (replicate 6 zero_seg) (Taskstate 0 0 0) (0, 0) (0, 0) 0 0 in
  ∃ h1 h2 c', seginit 0x80112000 h = Ok tt h1 ∧
    switchuvm 0x80112100 (Some (0x80400000, 0x80401000)) (Cpu 0 0 false true, h1) = Ok tt (c', h2) ∧
    cr3 h2 = 0x401000 ∧ ts_esp0 (ts h2) = 0x80401000 ∧
    int_allowed (tvinit_idt (seqZ 0x80105000 256)) 64 3 = true ∧
    int_allowed (tvinit_idt (seqZ 0x80105000 256)) 14 3 = false.
Proof.
  intros h.
  destruct (protection_tables (seqZ 0x80105000 256) 0x80112000 0x80112100 (Cpu 0 0 false true) h
              0x80400000 0x80401000)
    as (h1 & h2 & c' & H1 & H2 & _ & _ & _ & _ & _ & _ & H3 & _ & _ & H4 & _ & H5 & _).
  - exact (length_seqZ _ _).
  - apply Forall_forall. intros v Hv. apply elem_of_seqZ in Hv. lia.
  - done.
  - lia.
  - lia.
  - split; cbn; [lia|lia].
  - done.
  - done.
  - exists h1, h2, c'. do 2 (split; [done|]). rewrite H3, H4. do 2 (split; [reflexivity|]).
    split; [by apply H5|].
    destruct (int_allowed (tvinit_idt (seqZ 0x80105000 256)) 14 3) eqn:E; [|done].
    apply H5 in E. done.
Defined.
