(* ===== verification/Asm.v ===== *)
(** The assembly of the kernel: swtch.S, trapasm.S, vectors.pl and usys.S,
    and the machine they run on

    A machine is a register file, the control registers and a memory; an
    instruction is a function on machines and a stretch of straight-line code a
    list of them, in the order of the source.  [interrupt] and [iret] are the
    processor's own steps.  The C functions that the code calls are not run
    here: a theorem is about the stretches before and after a call, for every
    state that the call can return in. *)

From stdpp Require Import gmap list numbers.
From Stdlib Require Import ZArith Lia.
From S2P Require Import Prelude Mem Memlayout ProcData.

(** ** Registers *)

Inductive reg :=
  EAX | ECX | EDX | EBX | ESP | EBP | ESI | EDI | EIP | EFLAGS | CS | DS | ES | FS | GS | SS.

Definition reg_num (r : reg) : nat :=
  match r with
  | EAX => 0 | ECX => 1 | EDX => 2 | EBX => 3 | ESP => 4 | EBP => 5 | ESI => 6 | EDI => 7
  | EIP => 8 | EFLAGS => 9 | CS => 10 | DS => 11 | ES => 12 | FS => 13 | GS => 14 | SS => 15
  end.
Definition reg_eqb (a b : reg) : bool := Nat.eqb (reg_num a) (reg_num b).

Definition is_seg (r : reg) : bool :=
  match r with CS | DS | ES | FS | GS | SS => true | _ => false end.

Record mach := Mach {
  rg : reg → Z;
  cr0 : Z;
  cr3 : Z;
  cr4 : Z;
  gdtr : Z * Z;   (* limit and base *)
  mm : mem
}.

Abbreviation instr := (mach → mach).

Definition set_reg (r : reg) (v : Z) : instr := λ s,
  Mach (λ r', if reg_eqb r r' then v else rg s r') (cr0 s) (cr3 s) (cr4 s) (gdtr s) (mm s).
Definition set_mm (m : mem) : instr := λ s, Mach (rg s) (cr0 s) (cr3 s) (cr4 s) (gdtr s) m.

(** A stretch of code. *)
Fixpoint go (l : list instr) (s : mach) : mach :=
  match l with
  | [] => s
  | i :: l' => go l' (i s)
  end.

(** Registers hold values of their width. *)
Definition regs_ok (s : mach) : Prop :=
  ∀ r, 0 ≤ rg s r < if is_seg r then 65536 else 4294967296.

(** ** Instructions *)

Definition movl_i (v : Z) (d : reg) : instr := set_reg d v.
Definition movl (a d : reg) : instr := λ s, set_reg d (rg s a) s.
Definition movl_ld (off : Z) (b d : reg) : instr := λ s, set_reg d (ld32 (mm s) (u32 (rg s b + off))) s.
Definition movl_st (a b : reg) : instr := λ s, set_mm (st32 (mm s) (rg s b) (rg s a)) s.
(** [movw $v, %ax] *)
Definition movw_ax (v : Z) : instr := λ s, set_reg EAX (Z.lor (Z.land (rg s EAX) 0xffff0000) v) s.
(** [movw %ax, %seg] *)
Definition movw_seg (d : reg) : instr := λ s, set_reg d (u16 (rg s EAX)) s.
Definition addl_i (v : Z) (d : reg) : instr := λ s, set_reg d (u32 (rg s d + v)) s.

Definition push (v : Z) : instr := λ s,
  let e := u32 (rg s ESP - 4) in set_reg ESP e (set_mm (st32 (mm s) e v) s).
Definition pushl (r : reg) : instr := λ s, push (rg s r) s.
Definition popl (d : reg) : instr := λ s,
  let v := ld32 (mm s) (rg s ESP) in
  set_reg d (if is_seg d then u16 v else v) (set_reg ESP (u32 (rg s ESP + 4)) s).
Definition retl : instr := popl EIP.
(** [call f], the next instruction being at [next] *)
Definition call (f next : Z) : instr := λ s, set_reg EIP f (push next s).

Definition pushal : instr := λ s,
  let e := rg s ESP in go [pushl EAX; pushl ECX; pushl EDX; pushl EBX; push e; pushl EBP; pushl ESI; pushl EDI] s.
Definition popal : instr :=
  go [popl EDI; popl ESI; popl EBP; addl_i 4 ESP; popl EBX; popl EDX; popl ECX; popl EAX].

(** The return from an interrupt pops the stack of the outer ring when it goes
    there. *)
Definition iret : instr := λ s,
  let s' := go [popl EIP; popl CS; popl EFLAGS] s in
  if Z.land (rg s CS) 3 <? Z.land (rg s' CS) 3 then
    set_reg SS (u16 (ld32 (mm s') (u32 (rg s' ESP + 4)))) (set_reg ESP (ld32 (mm s') (rg s' ESP)) s')
  else s'.

(** The interrupts for which the processor pushes an error code. *)
Definition errcode (n : Z) : bool := (n =? 8) || (10 <=? n) && (n <=? 14) || (n =? 17).

(** Interrupt [n]: from user mode the stack is [esp0] in [ss0]; the flags TF, NT,
    RF and VM are cleared, and IF by an interrupt gate, which every gate but
    that of the system call is. *)
Definition interrupt (ss0 esp0 n err vec : Z) : instr := λ s,
  let s1 :=
    if Z.land (rg s CS) 3 =? 0 then s
    else let s1 := set_reg SS ss0 (set_reg ESP esp0 s) in go [push (rg s SS); push (rg s ESP)] s1 in
  let s2 := go [pushl EFLAGS; pushl CS; pushl EIP] s1 in
  let s3 := if errcode n then push err s2 else s2 in
  let fl := Z.ldiff (rg s EFLAGS) (if n =? 64 then 0x34100 else 0x34300) in
  set_reg EIP vec (set_reg CS (Z.shiftl SEG_KCODE 3) (set_reg EFLAGS fl s3)).

(** ** swtch.S *)

Definition swtch : list instr :=
  [ movl_ld 4 ESP EAX;
    movl_ld 8 ESP EDX;
    pushl EBP;
    pushl EBX;
    pushl ESI;
    pushl EDI;
    movl_st ESP EAX;
    movl EDX ESP;
    popl EDI;
    popl ESI;
    popl EBX;
    popl EBP;
    retl ].

(** ** vectors.pl and trapasm.S *)

(** The entry point of trap [i], up to the jump to [alltraps]. *)
Definition vector (i : Z) : list instr :=
  (if negb ((i =? 8) || ((10 <=? i) && (i <=? 14)) || (i =? 17)) then [push 0] else []) ++ [push i].

(** [alltraps] up to the call of [trap], whose return address is [next]. *)
Definition alltraps (trap next : Z) : list instr :=
  [ pushl DS;
    pushl ES;
    pushl FS;
    pushl GS;
    pushal;
    movw_ax (Z.shiftl SEG_KDATA 3);
    movw_seg DS;
    movw_seg ES;
    pushl ESP;
    call trap next ].

Definition trapret : list instr :=
  [ popal;
    popl GS;
    popl FS;
    popl ES;
    popl DS;
    addl_i 8 ESP;
    iret ].

(** [alltraps] after the call. *)
Definition alltraps_return : list instr := addl_i 4 ESP :: trapret.

(** ** usys.S *)

(** A system call stub: up to its [int], and after. *)
Definition stub (n : Z) : list instr := [movl_i n EAX].
Definition stub_return : list instr := [retl].

(** ** Symbolic execution *)

Lemma ld32_st32_at m a b v : a = b → 0 ≤ v < 4294967296 → ld32 (st32 m a v) b = v.
Proof. intros -> Hv. rewrite ld32_st32_eq. by apply u32_small. Qed.

(** Evaluate the registers, drop the wrap-around of addresses in range, and read
    through stores to other addresses. *)
Ltac asm_regs :=
  cbn [go app rg mm cr0 cr3 cr4 gdtr set_reg set_mm reg_eqb reg_num Nat.eqb is_seg movl_i movl movl_ld movl_st movw_ax movw_seg
       addl_i push pushl popl retl call pushal popal];
  repeat match goal with |- context [u32 ?x] => rewrite (u32_small x) by lia end.
Ltac asm_mem :=
  repeat first [rewrite ld32_st32_at by lia | rewrite ld32_st32_ne by lia].

(** ** The context switch *)

(** The [struct context] at [a]. *)
Definition context_at (m : mem) (a : Z) : context :=
  Context (ld32 m a) (ld32 m (a + 4)) (ld32 m (a + 8)) (ld32 m (a + 12)) (ld32 m (a + 16)).

(** Two stretches of memory that do not overlap. *)
Definition no_overlap (a n b k : Z) : Prop := a + n ≤ b ∨ b + k ≤ a.

(** A call of [swtch]: room on the stack, and no overlap of what it writes. *)
Record switchable (s : mach) : Prop := {
  sw_regs : regs_ok s;
  sw_stack : 16 ≤ rg s ESP ∧ rg s ESP + 12 ≤ 4294967295;
  sw_new : ld32 (mm s) (rg s ESP + 8) + 20 ≤ 4294967295;
  sw_old_stack : no_overlap (ld32 (mm s) (rg s ESP + 4)) 4 (rg s ESP - 16) 20;
  sw_old_new : no_overlap (ld32 (mm s) (rg s ESP + 4)) 4 (ld32 (mm s) (rg s ESP + 8)) 20;
  sw_new_stack : no_overlap (ld32 (mm s) (rg s ESP + 8)) 20 (rg s ESP - 16) 16
}.

(** The machine continues in the context [c], whose record ends at [a]. *)
Definition resumes (s : mach) (c : context) (a : Z) : Prop :=
  rg s EDI = c_edi c ∧ rg s ESI = c_esi c ∧ rg s EBX = c_ebx c ∧ rg s EBP = c_ebp c ∧ rg s EIP = c_eip c ∧ rg s ESP = a.

(** What a caller of [swtch] has: its registers and return address. *)
Definition caller (s : mach) : context :=
  Context (rg s EDI) (rg s ESI) (rg s EBX) (rg s EBP) (ld32 (mm s) (rg s ESP)).

Lemma swtch_run s : switchable s →
  let s' := go swtch s in
  let e := rg s ESP in let old := ld32 (mm s) (e + 4) in let new := ld32 (mm s) (e + 8) in
  context_at (mm s') (e - 16) = caller s ∧ ld32 (mm s') old = e - 16 ∧ resumes s' (context_at (mm s) new) (new + 20) ∧
  (∀ a, no_overlap a 4 (e - 16) 16 → no_overlap a 4 old 4 → ld32 (mm s') a = ld32 (mm s) a).
Proof.
  intros [Hok He Hnew Ho1 Ho2 Hn] s' e old new.
  pose proof (Hok EBP) as H1. pose proof (Hok EBX) as H2. pose proof (Hok ESI) as H3. pose proof (Hok EDI) as H4.
  pose proof (ld32_range (mm s) (e + 4)). pose proof (ld32_range (mm s) (e + 8)). simpl in H1, H2, H3, H4.
  subst s' e old new. unfold swtch, no_overlap, context_at, caller, resumes in *. asm_regs. cbn [c_edi c_esi c_ebx c_ebp c_eip].
  split_and!; try (asm_mem; (lia || f_equal; lia)); [f_equal|]; try (asm_mem; (done || f_equal; lia)).
  intros a Ha1 Ha2. by asm_mem.
Qed.

(** C19. Context switches return.  [swtch(&old, new)] continues in the context at
    [new], writes to its own stack and to [old] only, and leaves in [old] the
    address of a context that remembers its caller: a later call of [swtch], on
    any other stack, that is given that address and finds the record untouched
    returns to the first caller with its callee-saved registers and its stack
    pointer as after an ordinary return, whatever ran in between. *)
Theorem swtch_roundtrip s s2 : switchable s → switchable s2 →
  let s1 := go swtch s in
  let e := rg s ESP in let old := ld32 (mm s) (e + 4) in let new := ld32 (mm s) (e + 8) in
  ld32 (mm s2) (rg s2 ESP + 8) = ld32 (mm s1) old →
  context_at (mm s2) (ld32 (mm s1) old) = context_at (mm s1) (ld32 (mm s1) old) →
  resumes s1 (context_at (mm s) new) (new + 20) ∧
  (∀ a, no_overlap a 4 (e - 16) 16 → no_overlap a 4 old 4 → ld32 (mm s1) a = ld32 (mm s) a) ∧
  resumes (go swtch s2) (caller s) (e + 4).
Proof.
  intros Hs Hs2 s1 e old new Hnew Hkeep. destruct (swtch_run s Hs) as (Hctx & Hold & Hres & Hmem).
  destruct (swtch_run s2 Hs2) as (_ & _ & Hres2 & _). split_and!; [exact Hres|exact Hmem|].
  cbn zeta in Hres2. rewrite Hnew, Hkeep in Hres2. unfold s1, old, e in Hres2. rewrite Hold, Hctx in Hres2.
  unfold e. replace (rg s ESP + 4) with (rg s ESP - 16 + 20) by lia. exact Hres2.
Qed.

(** ** Traps *)

(** The [struct trapframe] at [a]. *)
Definition trapframe_at (m : mem) (a : Z) : trapframe :=
  Trapframe (ld32 m a) (ld32 m (a + 4)) (ld32 m (a + 8)) (ld32 m (a + 12))
    (ld32 m (a + 16)) (ld32 m (a + 20)) (ld32 m (a + 24)) (ld32 m (a + 28))
    (u16 (ld32 m (a + 32))) (u16 (ld32 m (a + 36))) (u16 (ld32 m (a + 40))) (u16 (ld32 m (a + 44))) (ld32 m (a + 48))
    (ld32 m (a + 52)) (ld32 m (a + 56)) (u16 (ld32 m (a + 60))) (ld32 m (a + 64))
    (ld32 m (a + 68)) (u16 (ld32 m (a + 72))).

(** The registers that a trap frame holds. *)
Definition frame_reg (f : trapframe) (r : reg) : Z :=
  match r with
  | EAX => tf_eax f | ECX => tf_ecx f | EDX => tf_edx f | EBX => tf_ebx f
  | ESP => tf_esp f | EBP => tf_ebp f | ESI => tf_esi f | EDI => tf_edi f
  | EIP => tf_eip f | EFLAGS => tf_eflags f | CS => tf_cs f
  | DS => tf_ds f | ES => tf_es f | FS => tf_fs f | GS => tf_gs f | SS => tf_ss f
  end.

Definition user_mode (cs : Z) : bool := negb (Z.land cs 3 =? 0).

Lemma go_app l1 l2 s : go (l1 ++ l2) s = go l2 (go l1 s).
Proof. revert s. induction l1 as [|i l1 IH]; intros s; simpl; [done|apply IH]. Qed.

(** The pops of [trapret], up to the stack of the outer ring. *)
Definition trapret_pops : list instr :=
  [popal; popl GS; popl FS; popl ES; popl DS; addl_i 8 ESP] ++ [popl EIP; popl CS; popl EFLAGS].

Lemma iret_pops s : let s' := go [popl EIP; popl CS; popl EFLAGS] s in
  iret s = if Z.land (rg s CS) 3 <? Z.land (rg s' CS) 3 then
    set_reg SS (u16 (ld32 (mm s') (u32 (rg s' ESP + 4)))) (set_reg ESP (ld32 (mm s') (rg s' ESP)) s') else s'.
Proof. reflexivity. Qed.

Lemma trapret_pops_run s a : rg s ESP = a → 0 ≤ a → a + 76 < 4294967296 →
  let f := trapframe_at (mm s) a in let s' := go trapret_pops s in
  mm s' = mm s ∧ ∀ r, rg s' r = match r with ESP => a + 68 | SS => rg s SS | _ => frame_reg f r end.
Proof.
  intros Ha H0 H1 f s'. subst s' f. unfold trapret_pops. split; [reflexivity|].
  intros r. destruct r; asm_regs; rewrite ?Ha; asm_regs; cbn [frame_reg trapframe_at tf_eax tf_ecx tf_edx tf_ebx tf_esp tf_ebp
    tf_esi tf_edi tf_eip tf_eflags tf_cs tf_ds tf_es tf_fs tf_gs tf_ss]; try done; try (do 2 f_equal; lia); try (f_equal; lia); lia.
Qed.

Lemma trapret_split : trapret = [popal; popl GS; popl FS; popl ES; popl DS; addl_i 8 ESP] ++ [iret].
Proof. reflexivity. Qed.

Lemma trapret_pops_cs s : rg (go [popal; popl GS; popl FS; popl ES; popl DS; addl_i 8 ESP] s) CS = rg s CS.
Proof. reflexivity. Qed.

(** The last pops. *)
Definition to_ring (s : mach) : mach :=
  if 0 <? Z.land (rg s CS) 3 then
    set_reg SS (u16 (ld32 (mm s) (u32 (rg s ESP + 4)))) (set_reg ESP (ld32 (mm s) (rg s ESP)) s)
  else s.

Lemma trapret_iret s : Z.land (rg s CS) 3 = 0 → go trapret s = to_ring (go trapret_pops s).
Proof.
  intros Hk. rewrite trapret_split. unfold trapret_pops. rewrite !go_app. pose proof (trapret_pops_cs s) as Hcs.
  revert Hcs. generalize (go [popal; popl GS; popl FS; popl ES; popl DS; addl_i 8 ESP] s). intros s0 Hcs.
  unfold to_ring. rewrite <-Hk, <-Hcs. apply iret_pops.
Qed.

Lemma to_ring_run s a f : (∀ r, r ≠ SS → rg s r = match r with ESP => a + 68 | _ => frame_reg f r end) →
  f = trapframe_at (mm s) a → 0 ≤ a → a + 76 < 4294967296 →
  mm (to_ring s) = mm s ∧ ∀ r, rg (to_ring s) r =
    if user_mode (tf_cs f) then frame_reg f r else match r with ESP => a + 68 | SS => rg s SS | _ => frame_reg f r end.
Proof.
  intros Hr Hf H0 H1. assert (Hu : (0 <? Z.land (rg s CS) 3) = user_mode (tf_cs f)).
  { rewrite Hr by done. unfold user_mode, frame_reg. assert (0 ≤ Z.land (tf_cs f) 3) by (apply Z.land_nonneg; lia).
    destruct (Z.eqb_spec (Z.land (tf_cs f) 3) 0) as [->|]; [done|]. apply Z.ltb_lt. lia. }
  unfold to_ring. rewrite Hu. destruct (user_mode (tf_cs f)).
  - split; [reflexivity|]. intros r. destruct r; cbn [rg set_reg reg_eqb reg_num Nat.eqb]; try (by apply Hr).
    + rewrite (Hr ESP) by done. by rewrite Hf.
    + rewrite (Hr ESP), u32_small by (done || lia). rewrite Hf. cbn [frame_reg trapframe_at tf_ss]. do 2 f_equal. lia.
  - split; [reflexivity|]. intros r. destruct r; try (by apply Hr). done.
Qed.

(** [trapret] with its frame at [a], from kernel mode: the registers of the
    frame, but for the stack when the frame is the kernel's. *)
Lemma trapret_run s a : rg s ESP = a → 0 ≤ a → a + 76 < 4294967296 → Z.land (rg s CS) 3 = 0 →
  let f := trapframe_at (mm s) a in
  mm (go trapret s) = mm s ∧
  ∀ r, rg (go trapret s) r = if user_mode (tf_cs f) then frame_reg f r
    else match r with ESP => a + 68 | SS => rg s SS | _ => frame_reg f r end.
Proof.
  intros Ha H0 H1 Hk f. destruct (trapret_pops_run s a Ha H0 H1) as [Hm Hr]. fold f in Hr. rewrite (trapret_iret s Hk).
  revert Hm Hr. generalize (go trapret_pops s). intros s1 Hm Hr.
  destruct (to_ring_run s1 a f) as [Hm2 Hr2]; [intros r Hne; rewrite Hr; by destruct r|by rewrite Hm|done|done|].
  split; [by rewrite Hm2|]. intros r. rewrite Hr2. by rewrite (Hr SS).
Qed.

(** Where the frame of a trap from [s] is. *)
Definition frame_addr (s : mach) (esp0 : Z) : Z :=
  if user_mode (rg s CS) then esp0 - 76 else rg s ESP - 68.

(** What the processor and the entry point leave of [s], from the field [trapno] on. *)
Lemma entry_run s ss0 esp0 n err vec : regs_ok s → 0 ≤ n < 256 → 0 ≤ err < 4294967296 →
  let tf := frame_addr s esp0 in
  0 ≤ tf + 48 → (if user_mode (rg s CS) then esp0 else rg s ESP) < 4294967296 →
  let s1 := go (interrupt ss0 esp0 n err vec :: vector n) s in let m := mm s1 in
  rg s1 ESP = tf + 48 ∧ ld32 m (tf + 48) = n ∧ ld32 m (tf + 52) = (if errcode n then err else 0) ∧
  ld32 m (tf + 56) = rg s EIP ∧ ld32 m (tf + 60) = rg s CS ∧ ld32 m (tf + 64) = rg s EFLAGS ∧
  (if user_mode (rg s CS) then ld32 m (tf + 68) = rg s ESP ∧ ld32 m (tf + 72) = rg s SS else True) ∧
  (∀ a, a + 4 ≤ tf + 48 ∨ (if user_mode (rg s CS) then esp0 else rg s ESP) ≤ a → ld32 m a = ld32 (mm s) a) ∧
  rg s1 CS = Z.shiftl SEG_KCODE 3 ∧ rg s1 SS = (if user_mode (rg s CS) then ss0 else rg s SS) ∧
  ∀ r, match r with ESP | EIP | CS | EFLAGS | SS => True | _ => rg s1 r = rg s r end.
Proof.
  intros Hok Hn Herr tf Htf He s1 m. subst s1 m tf. cbn [go]. unfold frame_addr, interrupt, vector, user_mode in *.
  assert (Hneg : negb ((n =? 8) || ((10 <=? n) && (n <=? 14)) || (n =? 17)) = negb (errcode n)) by done.
  pose proof (Hok EIP) as H1. pose proof (Hok CS) as H2. pose proof (Hok EFLAGS) as H3. pose proof (Hok ESP) as H4. pose proof (Hok SS) as H5.
  simpl in H1, H2, H3, H4, H5. rewrite Hneg. destruct (Z.land (rg s CS) 3 =? 0); cbn [negb] in *; destruct (errcode n); cbn [negb app];
    asm_regs; split_and!; try first [by intros []|done|lia|by asm_mem|intros; by asm_mem].
Qed.

(** The registers that a trap does not change before [alltraps] saves them. *)
Definition general (r : reg) : bool :=
  match r with ESP | EIP | CS | EFLAGS | SS => false | _ => true end.

Lemma alltraps_run s tf trap next : rg s ESP = tf + 48 → 8 ≤ tf → tf + 48 < 4294967296 → 0 ≤ next < 4294967296 →
  (∀ r, general r = true → 0 ≤ rg s r < if is_seg r then 65536 else 4294967296) →
  let s2 := go (alltraps trap next) s in let m := mm s2 in
  rg s2 ESP = tf - 8 ∧ rg s2 EIP = trap ∧ ld32 m (tf - 8) = next ∧ ld32 m (tf - 4) = tf ∧
  trapframe_at m tf =
    Trapframe (rg s EDI) (rg s ESI) (rg s EBP) (tf + 32) (rg s EBX) (rg s EDX) (rg s ECX) (rg s EAX)
      (rg s GS) (rg s FS) (rg s ES) (rg s DS) (ld32 (mm s) (tf + 48)) (ld32 (mm s) (tf + 52))
      (ld32 (mm s) (tf + 56)) (u16 (ld32 (mm s) (tf + 60))) (ld32 (mm s) (tf + 64)) (ld32 (mm s) (tf + 68)) (u16 (ld32 (mm s) (tf + 72))) ∧
  (∀ a, a + 4 ≤ tf - 8 ∨ tf + 48 ≤ a → ld32 m a = ld32 (mm s) a) ∧
  rg s2 CS = rg s CS ∧ rg s2 SS = rg s SS ∧ rg s2 DS = Z.shiftl SEG_KDATA 3 ∧ rg s2 ES = Z.shiftl SEG_KDATA 3.
Proof.
  intros He H0 H1 Hn Hr s2 m.
  pose proof (Hr EAX eq_refl) as R1. pose proof (Hr ECX eq_refl) as R2. pose proof (Hr EDX eq_refl) as R3. pose proof (Hr EBX eq_refl) as R4.
  pose proof (Hr EBP eq_refl) as R5. pose proof (Hr ESI eq_refl) as R6. pose proof (Hr EDI eq_refl) as R7. pose proof (Hr DS eq_refl) as R8.
  pose proof (Hr ES eq_refl) as R9. pose proof (Hr FS eq_refl) as R10. pose proof (Hr GS eq_refl) as R11.
  simpl in R1, R2, R3, R4, R5, R6, R7, R8, R9, R10, R11.
  assert (Hds : u16 (Z.lor (Z.land (rg s EAX) 0xffff0000) (Z.shiftl SEG_KDATA 3)) = Z.shiftl SEG_KDATA 3).
  { unfold u16. change 65536 with (2 ^ 16). rewrite <-Z.land_ones, Z.land_lor_distr_l, <-Z.land_assoc by lia.
    change (Z.land 0xffff0000 (Z.ones 16)) with 0. by rewrite Z.land_0_r. }
  subst s2 m. unfold alltraps. asm_regs. rewrite He. asm_regs. rewrite Hds. unfold trapframe_at.
  split_and!; [lia|done|by asm_mem|asm_mem; lia| |intros; by asm_mem|done..].
  f_equal; try (asm_mem; (done || lia)); asm_mem; try (unfold u16; rewrite Z.mod_small by lia; done).
Qed.

(** The frame of trap [n] from [s]; the last two words are the caller's own
    stack when the trap comes from the kernel. *)
Definition saved (s : mach) (esp0 n err : Z) : trapframe :=
  let tf := frame_addr s esp0 in
  Trapframe (rg s EDI) (rg s ESI) (rg s EBP) (tf + 32) (rg s EBX) (rg s EDX) (rg s ECX) (rg s EAX)
    (rg s GS) (rg s FS) (rg s ES) (rg s DS) n (if errcode n then err else 0) (rg s EIP) (rg s CS) (rg s EFLAGS)
    (if user_mode (rg s CS) then rg s ESP else ld32 (mm s) (rg s ESP))
    (if user_mode (rg s CS) then rg s SS else u16 (ld32 (mm s) (rg s ESP + 4))).

(** The stack that a trap from [s] uses, with room for the frame and the call. *)
Definition trap_room (s : mach) (esp0 : Z) : Prop :=
  8 ≤ frame_addr s esp0 ∧ frame_addr s esp0 + 76 < 4294967296.

Lemma trap_entry_run s ss0 esp0 n err vec trap next : regs_ok s → trap_room s esp0 → 0 ≤ n < 256 →
  0 ≤ err < 4294967296 → 0 ≤ next < 4294967296 →
  let tf := frame_addr s esp0 in
  let s2 := go (interrupt ss0 esp0 n err vec :: vector n ++ alltraps trap next) s in
  rg s2 EIP = trap ∧ rg s2 ESP = tf - 8 ∧ ld32 (mm s2) (tf - 8) = next ∧ ld32 (mm s2) (tf - 4) = tf ∧
  trapframe_at (mm s2) tf = saved s esp0 n err ∧
  (∀ a, a + 4 ≤ tf - 8 ∨ (if user_mode (rg s CS) then esp0 else rg s ESP) ≤ a → ld32 (mm s2) a = ld32 (mm s) a) ∧
  rg s2 CS = Z.shiftl SEG_KCODE 3 ∧ rg s2 SS = (if user_mode (rg s CS) then ss0 else rg s SS) ∧
  rg s2 DS = Z.shiftl SEG_KDATA 3 ∧ rg s2 ES = Z.shiftl SEG_KDATA 3.
Proof.
  intros Hok [Hr0 Hr1] Hn Herr Hnext tf s2.
  assert (Htop : (if user_mode (rg s CS) then esp0 else rg s ESP) < 4294967296).
  { unfold frame_addr in Hr1. destruct (user_mode _); [lia|]. apply (Hok ESP). }
  destruct (entry_run s ss0 esp0 n err vec Hok Hn Herr ltac:(lia) Htop) as (E1 & E2 & E3 & E4 & E5 & E6 & E7 & E8 & E9 & E10 & E11).
  fold tf in E1, E2, E3, E4, E5, E6, E7, E8. unfold s2. rewrite app_comm_cons, go_app.
  revert E1 E2 E3 E4 E5 E6 E7 E8 E9 E10 E11. generalize (go (interrupt ss0 esp0 n err vec :: vector n) s).
  intros s1 E1 E2 E3 E4 E5 E6 E7 E8 E9 E10 E11.
  destruct (alltraps_run s1 tf trap next E1 Hr0 ltac:(lia) Hnext) as (A1 & A2 & A3 & A4 & A5 & A6 & A7 & A8 & A9 & A10).
  { intros r Hr. specialize (E11 r). destruct r; try done; rewrite E11; apply Hok. }
  split_and!; try done.
  - rewrite A5. unfold saved. rewrite E2, E3, E4, E5, E6.
    assert (Hcs : u16 (rg s CS) = rg s CS) by (unfold u16; apply Z.mod_small, (Hok CS)). rewrite Hcs.
    rewrite !(E11 EDI), !(E11 ESI), !(E11 EBP), !(E11 EBX), !(E11 EDX), !(E11 ECX), !(E11 EAX), !(E11 GS), !(E11 FS), !(E11 ES), !(E11 DS).
    destruct (user_mode (rg s CS)) eqn:Em; f_equal.
    + apply E7.
    + rewrite (proj2 E7). unfold u16. apply Z.mod_small, (Hok SS).
    + rewrite E8; unfold tf, frame_addr; rewrite Em; [f_equal; lia|lia].
    + rewrite E8; unfold tf, frame_addr; rewrite Em; [do 2 f_equal; lia|lia].
  - intros a Ha. rewrite A6, E8; [done|..]; unfold tf, frame_addr in *; destruct (user_mode _); lia.
Qed.

Definition set_tf_eax (v : Z) (f : trapframe) : trapframe :=
  Trapframe (tf_edi f) (tf_esi f) (tf_ebp f) (tf_oesp f) (tf_ebx f) (tf_edx f) (tf_ecx f) v
    (tf_gs f) (tf_fs f) (tf_es f) (tf_ds f) (tf_trapno f) (tf_err f) (tf_eip f) (tf_cs f) (tf_eflags f) (tf_esp f) (tf_ss f).

(** [trap] has returned to [alltraps], the frame at [tf]. *)
Record trap_returned (s2 s3 : mach) (tf : Z) : Prop := {
  rt_esp : rg s3 ESP = tf - 4;
  rt_cs : rg s3 CS = rg s2 CS;
  rt_ss : rg s3 SS = rg s2 SS
}.

Lemma go_cons i l s : go (i :: l) s = go l (i s).
Proof. reflexivity. Qed.

Lemma alltraps_return_go s : go alltraps_return s = go trapret (addl_i 4 ESP s).
Proof. apply go_cons. Qed.

Lemma trap_return_run s s2 s3 esp0 f : trap_room s esp0 → rg s2 CS = Z.shiftl SEG_KCODE 3 →
  (user_mode (rg s CS) = false → rg s2 SS = rg s SS) →
  let tf := frame_addr s esp0 in
  trap_returned s2 s3 tf → trapframe_at (mm s3) tf = f → tf_cs f = rg s CS →
  mm (go alltraps_return s3) = mm s3 ∧
  ∀ r, rg (go alltraps_return s3) r =
    if user_mode (rg s CS) then frame_reg f r
    else match r with ESP => rg s ESP | SS => rg s SS | _ => frame_reg f r end.
Proof.
  intros [Hr0 Hr1] Hcs2 Hss2 tf [He Hcs Hss] Hf Hfcs. rewrite alltraps_return_go.
  set (s4 := addl_i 4 ESP s3). assert (He4 : rg s4 ESP = tf).
  { unfold s4. cbn [addl_i set_reg rg reg_eqb reg_num Nat.eqb]. fold tf in Hr0, Hr1. rewrite He, u32_small by lia. lia. }
  assert (Hcs4 : rg s4 CS = rg s3 CS) by reflexivity. assert (Hss4 : rg s4 SS = rg s3 SS) by reflexivity.
  assert (Hm4 : mm s4 = mm s3) by reflexivity. clearbody s4.
  destruct (trapret_run s4 tf He4) as [Hm Hr]; [unfold tf; lia|unfold tf; lia|by rewrite Hcs4, Hcs, Hcs2|].
  rewrite Hm4 in Hm, Hr. rewrite Hss4, Hf, Hfcs in Hr.
  split; [done|]. intros r. rewrite Hr. destruct (user_mode (rg s CS)) eqn:Em; [done|].
  destruct r; try done; [unfold tf, frame_addr; rewrite Em; lia|]. by rewrite Hss, Hss2.
Qed.

(** C18. Traps are transparent.  Interrupt [n] in user or kernel mode, through its
    entry point and [alltraps], calls [trap] on the kernel's stack with a pointer
    to a frame that holds every register of the interrupted code, the trap number
    in [trapno] and the error code, or 0, in [err], for every one of the 256
    vectors; it writes below the interrupted stack or below [esp0] only.  When
    [trap] returns, having changed at most [eax] of the frame, the interrupted
    code goes on with all its registers, but for that value of [eax]. *)
Theorem trap_roundtrip s ss0 esp0 n err vec trap next : regs_ok s → trap_room s esp0 → 0 ≤ n < 256 →
  0 ≤ err < 4294967296 → 0 ≤ next < 4294967296 →
  let tf := frame_addr s esp0 in
  let s2 := go (interrupt ss0 esp0 n err vec :: vector n ++ alltraps trap next) s in
  rg s2 EIP = trap ∧ rg s2 ESP = tf - 8 ∧ ld32 (mm s2) (tf - 8) = next ∧ ld32 (mm s2) (tf - 4) = tf ∧
  trapframe_at (mm s2) tf = saved s esp0 n err ∧
  (∀ a, a + 4 ≤ tf - 8 ∨ (if user_mode (rg s CS) then esp0 else rg s ESP) ≤ a → ld32 (mm s2) a = ld32 (mm s) a) ∧
  ∀ s3 v, trap_returned s2 s3 tf → trapframe_at (mm s3) tf = set_tf_eax v (trapframe_at (mm s2) tf) →
    mm (go alltraps_return s3) = mm s3 ∧
    ∀ r, rg (go alltraps_return s3) r = match r with EAX => v | _ => rg s r end.
Proof.
  intros Hok Hroom Hn Herr Hnext tf s2.
  destruct (trap_entry_run s ss0 esp0 n err vec trap next Hok Hroom Hn Herr Hnext)
    as (E1 & E2 & E3 & E4 & E5 & E6 & E7 & E8 & _). fold tf s2 in E1, E2, E3, E4, E5, E6, E7, E8. clearbody s2.
  split_and!; try done. intros s3 v Hret Hf. rewrite E5 in Hf.
  destruct (trap_return_run s s2 s3 esp0 (set_tf_eax v (saved s esp0 n err)) Hroom E7) as [Hm Hr]; [by intros Em; rewrite Em in E8|done|exact Hf|done|].
  split; [done|]. intros r. rewrite Hr. destruct (user_mode (rg s CS)) eqn:Em, r; cbn; try done; by rewrite Em.
Qed.

(** The registers of code interrupted in user mode are in its frame. *)
Lemma frame_reg_saved s esp0 n err r : user_mode (rg s CS) = true → frame_reg (saved s esp0 n err) r = rg s r.
Proof. intros Em. by destruct r; cbn; rewrite ?Em. Qed.

(** ** System call stubs *)

(** A stub called in user mode, its [ret] at [at_ret]: the kernel sees the number
    in [eax] and the stack of the caller, with the return address and above it
    the arguments; and the stub returns to the caller with the result of the
    kernel in [eax] and its other registers unchanged. *)
Lemma stub_roundtrip s ss0 esp0 num vec trap next at_ret : regs_ok s → user_mode (rg s CS) = true → trap_room s esp0 →
  0 ≤ num < 4294967296 → 0 ≤ at_ret < 4294967296 → 0 ≤ next < 4294967296 → rg s ESP + 4 < 4294967296 →
  let s1 := set_reg EIP at_ret (go (stub num) s) in
  let s2 := go (interrupt ss0 esp0 64 0 vec :: vector 64 ++ alltraps trap next) s1 in
  let f := trapframe_at (mm s2) (esp0 - 76) in
  tf_trapno f = 64 ∧ tf_eax f = num ∧ tf_esp f = rg s ESP ∧
  ∀ s3 v, trap_returned s2 s3 (esp0 - 76) → trapframe_at (mm s3) (esp0 - 76) = set_tf_eax v f →
    ld32 (mm s3) (rg s ESP) = ld32 (mm s) (rg s ESP) →
    ∀ r, rg (go stub_return (go alltraps_return s3)) r =
      match r with EAX => v | EIP => ld32 (mm s) (rg s ESP) | ESP => rg s ESP + 4 | _ => rg s r end.
Proof.
  intros Hok Em [Hr0 Hr1] Hnum Hat Hnext Hesp s1.
  assert (Hok1 : regs_ok s1) by (intros r; pose proof (Hok r); by destruct r).
  assert (Efa : frame_addr s1 esp0 = esp0 - 76).
  { unfold frame_addr. change (rg s1 CS) with (rg s CS). by rewrite Em. }
  assert (Hroom : trap_room s1 esp0).
  { unfold trap_room. rewrite Efa. unfold frame_addr in Hr0, Hr1. by rewrite Em in Hr0, Hr1. }
  destruct (trap_entry_run s1 ss0 esp0 64 0 vec trap next Hok1 Hroom ltac:(lia) ltac:(lia) Hnext)
    as (_ & _ & _ & _ & E5 & _ & E7 & E8 & _). rewrite Efa in E5.
  revert E5 E7 E8. generalize (go (interrupt ss0 esp0 64 0 vec :: vector 64 ++ alltraps trap next) s1).
  intros s2 E5 E7 E8 f. unfold f. rewrite E5. change (rg s1 CS) with (rg s CS) in E8. rewrite Em in E8.
  split_and!; [done|done|cbn; by rewrite Em|]. intros s3 v Hret Hf Hra r.
  destruct (trap_return_run s1 s2 s3 esp0 (set_tf_eax v (saved s1 esp0 64 0)) Hroom E7) as [Hm Hr];
    [by intros Em'; change (rg s1 CS) with (rg s CS) in Em'; congruence|by rewrite Efa|by rewrite Efa|done|].
  change (rg s1 CS) with (rg s CS) in Hr. rewrite Em in Hr.
  revert Hm Hr. generalize (go alltraps_return s3). intros s4 Hm Hr.
  assert (Hr4 : ∀ r, rg s4 r = match r with EAX => v | EIP => at_ret | _ => rg s r end).
  { intros r'. rewrite Hr. destruct r'; cbn; try done; by change (rg s1 CS) with (rg s CS); rewrite Em. }
  pose proof (Hok ESP) as He. cbn in He.
  unfold stub_return. destruct r; asm_regs; rewrite ?Hr4; try done.
  - rewrite u32_small by lia. done.
  - by rewrite Hm.
Qed.

(** ** The first run of a process *)

Lemma trapframe_at_ext m m' a : (∀ i, 0 ≤ i ≤ 72 → ld32 m' (a + i) = ld32 m (a + i)) → trapframe_at m' a = trapframe_at m a.
Proof.
  intros H. unfold trapframe_at. rewrite !H by lia. specialize (H 0 ltac:(lia)). rewrite Z.add_0_r in H. by rewrite H.
Qed.

(** The stack of a new process, its context at [a]: [forkret] is to return to
    [trapret], which finds the trap frame. *)
Record stack_at (m : mem) (a fk tr : Z) (f : trapframe) : Prop := {
  sa_context : context_at m a = Context 0 0 0 0 fk;
  sa_return : ld32 m (a + 20) = tr;
  sa_frame : trapframe_at m (a + 24) = f
}.

(** A switch to a new process goes to [forkret]; when that returns, the process
    runs in user mode with the registers of its trap frame. *)
Lemma first_run s a fk tr f : switchable s → ld32 (mm s) (rg s ESP + 8) = a → stack_at (mm s) a fk tr f →
  a + 100 < 4294967296 → no_overlap (rg s ESP - 16) 16 a 100 → no_overlap (ld32 (mm s) (rg s ESP + 4)) 4 a 100 →
  user_mode (tf_cs f) = true →
  let s1 := go swtch s in
  rg s1 EIP = fk ∧ rg s1 ESP = a + 20 ∧ ld32 (mm s1) (a + 20) = tr ∧
  ∀ s2, rg s2 ESP = a + 24 → Z.land (rg s2 CS) 3 = 0 → trapframe_at (mm s2) (a + 24) = trapframe_at (mm s1) (a + 24) →
    ∀ r, rg (go trapret s2) r = frame_reg f r.
Proof.
  intros Hs Ha [Hc Ht Hf] Hend Ho1 Ho2 Hu s1. destruct (swtch_run s Hs) as (_ & _ & Hres & Hmem).
  fold s1 in Hres, Hmem. rewrite Ha, Hc in Hres. destruct Hres as (_ & _ & _ & _ & He & Hsp). clearbody s1.
  pose proof (ld32_range (mm s) (rg s ESP + 8)) as Hr. rewrite Ha in Hr.
  assert (Hkeep : ∀ b, a ≤ b ≤ a + 96 → ld32 (mm s1) b = ld32 (mm s) b).
  { intros b Hb. apply Hmem; unfold no_overlap in *; lia. }
  split_and!; [done|done|rewrite Hkeep by lia; done|]. intros s2 Hsp2 Hcs2 Hf2 r.
  rewrite (trapframe_at_ext (mm s) (mm s1)), Hf in Hf2 by (intros i Hi; apply Hkeep; lia).
  destruct (trapret_run s2 (a + 24) Hsp2) as [_ Hregs]; [lia|lia|done|]. by rewrite Hregs, Hf2, Hu.
Qed.

(** ** Two threads and a user program *)

Definition demo_regs (e cs : Z) (r : reg) : Z :=
  match r with
  | EAX => 1 | ECX => 2 | EDX => 3 | EBX => 4 | ESP => e | EBP => 6 | ESI => 7 | EDI => 8
  | EIP => 100 | EFLAGS => 514 | CS => cs | DS => 35 | ES => 35 | FS => 0 | GS => 0 | SS => 35
  end.

(** Calls [swtch(2000, 3000)] from the stack at 1000, and [swtch(2004, 984)] from
    that at 5000. *)
Definition thread_mem : mem := st32 (st32 (st32 ∅ 1000 77) 1004 2000) 1008 3000.
Definition thread1 : mach := Mach (demo_regs 1000 8) 0 0 0 (0, 0) thread_mem.
Definition thread2 : mach :=
  Mach (demo_regs 5000 8) 0 0 0 (0, 0) (st32 (st32 (st32 (mm (go swtch thread1)) 5000 88) 5004 2004) 5008 984).

Lemma demo_regs_ok e cs c0 c3 c4 g m : 0 ≤ e < 4294967296 → 0 ≤ cs < 65536 → regs_ok (Mach (demo_regs e cs) c0 c3 c4 g m).
Proof. intros He Hcs r. destruct r; simpl; lia. Qed.

Lemma swtch_roundtrip_witness :
  resumes (go swtch thread1) (context_at (mm thread1) 3000) 3020 ∧ resumes (go swtch thread2) (caller thread1) 1004.
Proof.
  destruct (swtch_roundtrip thread1 thread2) as (H1 & _ & H3).
  - split; [apply demo_regs_ok; lia|vm_compute; split; discriminate|vm_compute; discriminate|unfold no_overlap; vm_compute..].
    + right; discriminate.
    + left; discriminate.
    + right; discriminate.
  - split; [apply demo_regs_ok; lia|vm_compute; split; discriminate|vm_compute; discriminate|unfold no_overlap; vm_compute..].
    + left; discriminate.
    + right; discriminate.
    + left; discriminate.
  - vm_compute. reflexivity.
  - vm_compute. reflexivity.
  - split; [exact H1|exact H3].
Defined.

(** A program interrupted by the clock. *)
Definition demo_user : mach := Mach (demo_regs 200 27) 0 0 0 (0, 0) ∅.

Lemma trap_roundtrip_witness :
  let s2 := go (interrupt 16 8192 32 0 300 :: vector 32 ++ alltraps 400 500) demo_user in
  rg s2 EIP = 400 ∧ rg s2 ESP = 8108 ∧ trapframe_at (mm s2) 8116 = saved demo_user 8192 32 0 ∧
  ∀ s3 v, trap_returned s2 s3 8116 → trapframe_at (mm s3) 8116 = set_tf_eax v (trapframe_at (mm s2) 8116) →
    ∀ r, rg (go alltraps_return s3) r = match r with EAX => v | _ => demo_regs 200 27 r end.
Proof.
  destruct (trap_roundtrip demo_user 16 8192 32 0 300 400 500) as (H1 & H2 & _ & _ & H5 & _ & H7).
  - apply demo_regs_ok; lia.
  - split; vm_compute; congruence.
  - lia.
  - lia.
  - lia.
  - split; [exact H1|]. split; [exact H2|]. split; [exact H5|]. intros s3 v Hr Hf r. by apply (H7 s3 v).
Defined.
