(* ===== verification/AsmProc.v ===== *)
(** System calls and [fork] down to the registers: usys.S, trapasm.S and swtch.S
    with syscall.c and proc.c

    A call of a stub is followed into [syscall] and back.  The child of [fork] is
    followed from the kernel stack that [allocproc] and [fork] build, through the
    switch of the scheduler and the return of [forkret], to user mode. *)

From stdpp Require Import gmap list numbers.
From Stdlib Require Import ZArith Lia.
From S2P Require Import Prelude Mem StringC Memlayout Cpu ProcData Rbtree Proc ProcSpec Syscall Asm.

(** ** The stubs *)

(** The invocations of [SYSCALL] in usys.S. *)
Definition usys_stubs : list sysname :=
  [Sys_fork; Sys_exit; Sys_wait; Sys_pipe; Sys_read; Sys_write; Sys_close; Sys_kill; Sys_exec; Sys_open;
   Sys_mknod; Sys_unlink; Sys_fstat; Sys_link; Sys_mkdir; Sys_chdir; Sys_dup; Sys_getpid; Sys_sbrk; Sys_sleep;
   Sys_uptime; Sys_gettreeinfo; Sys_getprocinfo; Sys_gettreenodes; Sys_treebalanced].

(** C20. A system call from C and back.  Every entry of the kernel's table has a
    stub; called in user mode, the stub enters the kernel with a frame for which
    [syscall] runs the handler of that name, and whose [esp] is the caller's
    stack pointer, above which the arguments are where [argint] looks for them.
    When the kernel has put the handler's result in [eax] of the frame and left
    the rest and the return address alone, the stub returns to its caller with
    the result in [eax] and every other register as the caller had it. *)
Theorem system_call_roundtrip {S : Type} (handler : sysname → M S Z) (g : sysname) s ss0 esp0 vec trap next at_ret :
  regs_ok s → user_mode (rg s CS) = true → trap_room s esp0 → 0 ≤ at_ret < 4294967296 → 0 ≤ next < 4294967296 →
  rg s ESP + 4 < 4294967296 →
  let s1 := set_reg EIP at_ret (go (stub (sysnum g)) s) in
  let s2 := go (interrupt ss0 esp0 64 0 vec :: vector 64 ++ alltraps trap next) s1 in
  let f := trapframe_at (mm s2) (esp0 - 76) in
  g ∈ usys_stubs ∧ tf_trapno f = 64 ∧ tf_esp f = rg s ESP ∧
  (∀ x, syscall handler (tf_eax f) x = (r <- handler g ;; ret (u32 r)) x) ∧
  ∀ s3 v, trap_returned s2 s3 (esp0 - 76) → trapframe_at (mm s3) (esp0 - 76) = set_tf_eax v f →
    ld32 (mm s3) (rg s ESP) = ld32 (mm s) (rg s ESP) →
    ∀ r, rg (go stub_return (go alltraps_return s3)) r =
      match r with EAX => v | EIP => ld32 (mm s) (rg s ESP) | ESP => rg s ESP + 4 | _ => rg s r end.
Proof.
  intros Hok Hu Hroom Hat Hnext Hesp s1 s2 f.
  destruct (stub_roundtrip s ss0 esp0 (sysnum g) vec trap next at_ret) as (H1 & H2 & H3 & H4); try done; [by destruct g|].
  fold s1 s2 f in H1, H2, H3, H4. clearbody f s2. split_and!; try done.
  - apply (bool_decide_unpack _). by destruct g.
  - intros x. by apply (proj1 (syscall_dispatch handler (tf_eax f) x)).
Qed.

(** The kernel stack of [q] in memory is what the process state [st] says. *)
Record in_memory {E} (st : pst E) (m : mem) (q : proc) : Prop := {
  im_context : ∀ c, contexts st !! p_context q = Some c → context_at m (p_context q) = c;
  im_word : ∀ v, stackw st !! u32 (p_tf q - 4) = Some v → ld32 m (u32 (p_tf q - 4)) = v;
  im_frame : ∀ f, frames st !! p_tf q = Some f → trapframe_at m (p_tf q) = f
}.

(** Nothing that [swtch] writes is in the page [ks]. *)
Definition outside_page (k : mach) (ks : Z) : Prop :=
  no_overlap (rg k ESP - 16) 16 ks KSTACKSIZE ∧ no_overlap (ld32 (mm k) (rg k ESP + 4)) 4 ks KSTACKSIZE.

Section fork.
Context {E : Type} `{!kernel_ops E}.
Context {R : E → E → Prop} {Hfs : fs_returns E R}.
Variables (me : nat).

Lemma new_stack_at fk tr (st : pst E) q m f : new_stack tr st q → contexts st !! p_context q = Some (Context 0 0 0 0 fk) →
  frames st !! p_tf q = Some f → in_memory st m q → 0 ≤ p_kstack q → p_kstack q + KSTACKSIZE < 4294967296 →
  p_context q = p_kstack q + KSTACKSIZE - 100 ∧ stack_at m (p_context q) fk tr f.
Proof.
  intros (Htf & Hc & Hw) Hctx Hf [I1 I2 I3] H0 H1. unfold KSTACKSIZE, sizeof_trapframe, sizeof_context in *.
  rewrite !u32_small in Htf by (rewrite ?u32_small; lia). rewrite Htf in *.
  rewrite !u32_small in Hc by (rewrite ?u32_small; lia).
  rewrite u32_small in Hw, I2 by lia. split; [lia|]. split; [by apply I1|..]; rewrite Hc.
  - replace (_ - 20 + 20) with (p_kstack q + 4096 - 76 - 4) by lia. by apply I2.
  - replace (_ - 20 + 24) with (p_kstack q + 4096 - 76) by lia. by apply I3.
Qed.

(** C4. [fork] returns twice.  When the table has a free slot and memory does
    not run out it returns the next pid in the parent, and the first free slot,
    and no other, becomes a runnable child with that pid, the same size, open
    files and current directory and the copied address space.  For the child it
    builds a stack on which the scheduler's [swtch] enters [forkret] and the
    return of [forkret] enters [trapret], which goes to user mode with every
    register the parent had at its system call, and 0 in [eax]. *)
Theorem fork_returns_twice fk tr s cur (c : proc) np q ks pg nm e1 e2 u esp0 :
  pt_ready s → ptable s !! cur = Some c → p_state c = RUNNING →
  find_index is_unused (ptable s) = Some np → ptable s !! np = Some q →
  p_ofile q = replicate NOFILE 0 → length (p_ofile c) = NOFILE →
  user_mode (rg u CS) = true → frames s !! p_tf c = Some (saved u esp0 64 0) →
  k_kalloc (ext s) = Ok ks e1 → 0 < ks → ks + KSTACKSIZE < 4294967296 →
  k_copyuvm (p_pgdir c) (p_sz c) e1 = Ok pg e2 → pg ≠ 0 →
  safestrcpy (p_name q) (p_name c) 16 = Some nm →
  ∃ s' n, fork me fk tr cur s = Ok (nextpid s) s' ∧ pt_ready s' ∧ nextpid s' = s32 (nextpid s + 1) ∧
    ptable s' = <[np := n]> (ptable s) ∧ p_state n = RUNNABLE ∧ p_pid n = nextpid s ∧ p_parent n = Some cur ∧
    p_sz n = p_sz c ∧ p_pgdir n = pg ∧ p_kstack n = ks ∧ p_ofile n = p_ofile c ∧ p_cwd n = p_cwd c ∧ p_name n = nm ∧
    ∀ k, switchable k → ld32 (mm k) (rg k ESP + 8) = p_context n → in_memory s' (mm k) n → outside_page k ks →
      let k1 := go swtch k in
      rg k1 EIP = fk ∧ ld32 (mm k1) (rg k1 ESP) = tr ∧
      ∀ k2, rg k2 ESP = rg k1 ESP + 4 → Z.land (rg k2 CS) 3 = 0 →
        trapframe_at (mm k2) (p_tf n) = trapframe_at (mm k1) (p_tf n) →
        ∀ r, rg (go trapret k2) r = match r with EAX => 0 | _ => rg u r end.
Proof.
  intros Hr Hc Hcs Hnp Hq Hqo Hco Hu Hf Hka Hks0 Hks Hcp Hpg Hnm.
  destruct (fork_run me fk tr s cur c np q (saved u esp0 64 0) ks pg nm e1 e2) as (s' & n & Hrun & Hr' & _ & Hnx & Hpt & Hrn & Hpid & Hpar & Hsz & Hpgd & Hkst &
    Hof & Hcwd & Hname & _ & Hfr & Hctx & Hst); try done; [lia|].
  exists s', n. split_and!; try done. intros k Hk Hnew Hin [Ho1 Ho2] k1.
  destruct (new_stack_at fk tr s' n (mm k) _ Hst Hctx Hfr Hin) as [Hpc Hstk]; [lia|lia|].
  assert (Htf : p_tf n = p_context n + 24).
  { destruct Hst as (Htf & _ & _). rewrite Htf, Hpc, Hkst. unfold sizeof_trapframe, KSTACKSIZE in *. rewrite !u32_small; rewrite ?u32_small; lia. }
  destruct (first_run k (p_context n) fk tr _ Hk Hnew Hstk) as (H1 & H2 & H3 & H4).
  - lia.
  - unfold no_overlap, KSTACKSIZE in *. rewrite Hpc, Hkst. unfold KSTACKSIZE. lia.
  - unfold no_overlap, KSTACKSIZE in *. rewrite Hpc, Hkst. unfold KSTACKSIZE. lia.
  - exact Hu.
  - fold k1 in H1, H2, H3, H4. clearbody k1. split_and!; [done|by rewrite H2|]. intros k2 Hsp2 Hcs2 Hfr2 r.
    rewrite (H4 k2); [|rewrite Hsp2, H2; lia|done|by rewrite <-Htf].
    pose proof (frame_reg_saved u esp0 64 0 r Hu) as Hsav. by destruct r.
Qed.

End fork.

Lemma system_call_roundtrip_witness :
  let s1 := set_reg EIP 110 (go (stub (sysnum Sys_getpid)) demo_user) in
  let s2 := go (interrupt 16 8192 64 0 300 :: vector 64 ++ alltraps 400 500) s1 in
  let f := trapframe_at (mm s2) 8116 in
  (∀ x, syscall (S := nat) (λ _, ret 7) (tf_eax f) x = Ok 7 x) ∧
  ∀ s3, trap_returned s2 s3 8116 → trapframe_at (mm s3) 8116 = set_tf_eax 7 f → ld32 (mm s3) 200 = 0 →
    ∀ r, rg (go stub_return (go alltraps_return s3)) r =
      match r with EAX => 7 | EIP => 0 | ESP => 204 | _ => demo_regs 200 27 r end.
Proof.
  destruct (system_call_roundtrip (S := nat) (λ _, ret 7) Sys_getpid demo_user 16 8192 300 400 500 110)
    as (_ & _ & _ & H4 & H5).
  - apply demo_regs_ok; lia.
  - reflexivity.
  - split; vm_compute; congruence.
  - lia.
  - lia.
  - reflexivity.
  - split; [exact H4|]. intros s3 Hr Hf Hra. by apply (H5 s3 7).
Defined.

#[local] Existing Instances bump_ops bump_fs_returns.

(** The process of [demo_state] that calls [fork] in the state [demo_user]. *)
Definition fork_state : pst Z := set_frame 128 (saved demo_user 8192 64 0) demo_state.

Lemma fork_returns_twice_witness : ∃ s' n, fork 0 7 9 1 fork_state = Ok 4 s' ∧ p_parent n = Some 1%nat ∧
  ∀ k, switchable k → ld32 (mm k) (rg k ESP + 8) = p_context n → in_memory s' (mm k) n → outside_page k 4096 →
    let k1 := go swtch k in
    rg k1 EIP = 7 ∧ ld32 (mm k1) (rg k1 ESP) = 9 ∧
    ∀ k2, rg k2 ESP = rg k1 ESP + 4 → Z.land (rg k2 CS) 3 = 0 →
      trapframe_at (mm k2) (p_tf n) = trapframe_at (mm k1) (p_tf n) →
      ∀ r, rg (go trapret k2) r = match r with EAX => 0 | _ => demo_regs 200 27 r end.
Proof.
  destruct (fork_returns_twice 0 7 9 fork_state 1 (demo_proc RUNNING 2 (Some 0%nat)) 3 zero_proc
      4096 8192 (replicate 16 0) 4096 4096 demo_user 8192) as (s' & n & H1 & _ & _ & _ & _ & _ & H4 & _ & _ & _ & _ & _ & _ & H5);
    [exact demo_ready|vm_compute; done..|].
  exists s', n. exact (conj H1 (conj H4 H5)).
Defined.
