(* ===== verification/AsmBoot.v ===== *)
(** The assembly that starts the machine: bootasm.S, entry.S, entryother.S and
    initcode.S, with asm.h and sign.pl

    The code is straight-line but for the two loops of bootasm.S that wait for
    the keyboard controller, which is a parameter.  Addresses of symbols are
    parameters too.  Each theorem says in which state the code enters C, or the
    system call. *)

From stdpp Require Import gmap list numbers strings.
From Stdlib Require Import ZArith Lia.
From S2P Require Import Prelude Mem StringC Memlayout ProcData Dev Asm.

(** ** Instructions *)

Definition CR0_PE : Z := 0x1.
Definition CR0_WP : Z := 0x10000.
Definition CR0_PG : Z := 0x80000000.
Definition CR4_PSE : Z := 0x10.

Definition cli_i : instr := λ s, set_reg EFLAGS (Z.ldiff (rg s EFLAGS) FL_IF) s.
Definition xorw_ax : instr := λ s, set_reg EAX (Z.land (rg s EAX) 0xffff0000) s.
Definition orl_i (v : Z) (d : reg) : instr := λ s, set_reg d (Z.lor (rg s d) v) s.
Definition from_cr0 (d : reg) : instr := λ s, set_reg d (cr0 s) s.
Definition from_cr4 (d : reg) : instr := λ s, set_reg d (cr4 s) s.
Definition to_cr0 (a : reg) : instr := λ s, Mach (rg s) (rg s a) (cr3 s) (cr4 s) (gdtr s) (mm s).
Definition to_cr3 (a : reg) : instr := λ s, Mach (rg s) (cr0 s) (rg s a) (cr4 s) (gdtr s) (mm s).
Definition to_cr4 (a : reg) : instr := λ s, Mach (rg s) (cr0 s) (cr3 s) (rg s a) (gdtr s) (mm s).
(** The descriptor is a 16-bit limit and a 32-bit base. *)
Definition lgdt_i (desc : Z) : instr := λ s,
  Mach (rg s) (cr0 s) (cr3 s) (cr4 s) (u16 (ld32 (mm s) desc), ld32 (mm s) (desc + 2)) (mm s).
Definition ljmp (sel addr : Z) : instr := λ s, set_reg EIP addr (set_reg CS sel s).
(** [movl (a), %d] *)
Definition movl_abs (a : Z) (d : reg) : instr := λ s, set_reg d (ld32 (mm s) a) s.
(** [call *(a)] *)
Definition call_abs (a next : Z) : instr := λ s, call (ld32 (mm s) a) next s.
Definition jmp_r (r : reg) : instr := λ s, set_reg EIP (rg s r) s.

(** ** entry.S *)

Section entry.
Variables (entrypgdir stack main : Z).

Definition entry_code : list instr :=
  [ from_cr4 EAX;
    orl_i CR4_PSE EAX;
    to_cr4 EAX;
    movl_i (V2P entrypgdir) EAX;
    to_cr3 EAX;
    from_cr0 EAX;
    orl_i (Z.lor CR0_PG CR0_WP) EAX;
    to_cr0 EAX;
    movl_i (stack + KSTACKSIZE) ESP;
    movl_i main EAX;
    jmp_r EAX ].

(** The kernel is entered with paging on, through [entrypgdir] with 4-MByte
    pages and write protection, on the boot stack. *)
Lemma entry_starts s : let s' := go entry_code s in
  rg s' EIP = main ∧ rg s' ESP = stack + KSTACKSIZE ∧ cr3 s' = V2P entrypgdir ∧
  cr4 s' = Z.lor (cr4 s) CR4_PSE ∧ cr0 s' = Z.lor (cr0 s) (Z.lor CR0_PG CR0_WP) ∧ mm s' = mm s.
Proof. by split_and!. Qed.

(** The multiboot header. *)
Definition magic : Z := 0x1badb002.
Definition flags : Z := 0.
Definition multiboot_header : list Z := [magic; flags; u32 (- magic - flags)].

Lemma multiboot_checksum : u32 (foldr Z.add 0 multiboot_header) = 0.
Proof. reflexivity. Qed.

End entry.

(** ** asm.h and the boot descriptors *)

Definition dot_word (v : Z) : list Z := [u8 v; u8 (Z.shiftr v 8)].
Definition SEG_NULLASM : list Z := dot_word 0 ++ dot_word 0 ++ [0; 0; 0; 0].
Definition SEG_ASM (type base lim : Z) : list Z :=
  dot_word (Z.land (Z.shiftr lim 12) 0xffff) ++ dot_word (Z.land base 0xffff) ++
  [ Z.land (Z.shiftr base 16) 0xff; Z.lor 0x90 type;
    Z.lor 0xC0 (Z.land (Z.shiftr lim 28) 0xf); Z.land (Z.shiftr base 24) 0xff ].
Definition ASTA_X : Z := 0x8.
Definition ASTA_W : Z := 0x2.
Definition ASTA_R : Z := 0x2.

Definition boot_gdt : list Z :=
  SEG_NULLASM ++ SEG_ASM (Z.lor ASTA_X ASTA_R) 0x0 0xffffffff ++ SEG_ASM ASTA_W 0x0 0xffffffff.
(** [gdtdesc] with the table at [gdt]: the limit is [gdtdesc - gdt - 1]. *)
Definition boot_gdtdesc (gdt : Z) : list Z := dot_word (Z.of_nat (length boot_gdt) - 1) ++ dot_word gdt ++ dot_word (Z.shiftr gdt 16).

(** Both segments are flat: base 0, 4 GBytes in pages, present, ring 0. *)
Lemma boot_gdt_bytes : boot_gdt =
  [0; 0; 0; 0; 0; 0; 0; 0;
   0xff; 0xff; 0; 0; 0; 0x9a; 0xcf; 0;
   0xff; 0xff; 0; 0; 0; 0x92; 0xcf; 0].
Proof. reflexivity. Qed.

(** ** The switch to protected mode, in both start files *)

Definition zero_segments : list instr :=
  [ cli_i;
    xorw_ax;
    movw_seg DS;
    movw_seg ES;
    movw_seg SS ].

Definition protected_mode (gdtdesc start32 : Z) : list instr :=
  [ lgdt_i gdtdesc;
    from_cr0 EAX;
    orl_i CR0_PE EAX;
    to_cr0 EAX;
    ljmp (Z.shiftl SEG_KCODE 3) start32 ].

Definition load_selectors : list instr :=
  [ movw_ax (Z.shiftl SEG_KDATA 3);
    movw_seg DS;
    movw_seg ES;
    movw_seg SS;
    movw_ax 0;
    movw_seg FS;
    movw_seg GS ].

(** The segment registers that C code runs with, interrupts off. *)
Record flat_segments (s : mach) : Prop := {
  fl_cs : rg s CS = Z.shiftl SEG_KCODE 3;
  fl_ds : rg s DS = Z.shiftl SEG_KDATA 3;
  fl_es : rg s ES = Z.shiftl SEG_KDATA 3;
  fl_ss : rg s SS = Z.shiftl SEG_KDATA 3;
  fl_fs : rg s FS = 0;
  fl_gs : rg s GS = 0;
  fl_off : Z.land (rg s EFLAGS) FL_IF = 0
}.

Lemma movw_ax_low x v : 0 ≤ v < 65536 → u16 (Z.lor (Z.land x 0xffff0000) v) = v.
Proof.
  intros Hv. unfold u16. change 65536 with (2 ^ 16). rewrite <-Z.land_ones, Z.land_lor_distr_l, <-Z.land_assoc by lia.
  change (Z.land 0xffff0000 (Z.ones 16)) with 0. rewrite Z.land_0_r, Z.lor_0_l, Z.land_ones by lia. by apply Z.mod_small.
Qed.

Lemma ldiff_land_same a b : Z.land (Z.ldiff a b) b = 0.
Proof. rewrite Z.ldiff_land, <-Z.land_assoc. by rewrite (Z.land_comm (Z.lnot b)), Z.land_lnot_diag, Z.land_0_r. Qed.

Lemma load_selectors_run s : rg s CS = Z.shiftl SEG_KCODE 3 → Z.land (rg s EFLAGS) FL_IF = 0 →
  let s' := go load_selectors s in
  flat_segments s' ∧ (∀ r, general r = false → r ≠ SS → rg s' r = rg s r) ∧
  cr0 s' = cr0 s ∧ cr3 s' = cr3 s ∧ cr4 s' = cr4 s ∧ gdtr s' = gdtr s ∧ mm s' = mm s.
Proof.
  intros Hcs Hif s'. subst s'. unfold load_selectors. split_and!; try done.
  - split; asm_regs; rewrite ?movw_ax_low by (vm_compute; done); done.
  - intros r Hg Hs. by destruct r.
Qed.

(** ** entryother.S *)

Section entryother.
Variables (start gdtdesc start32 next : Z).

Definition entryother_code : list instr :=
  zero_segments ++
  protected_mode gdtdesc start32 ++
  load_selectors ++
  [ from_cr4 EAX;
    orl_i CR4_PSE EAX;
    to_cr4 EAX;
    movl_abs (start - 12) EAX;
    to_cr3 EAX;
    from_cr0 EAX;
    orl_i (Z.lor CR0_PE (Z.lor CR0_PG CR0_WP)) EAX;
    to_cr0 EAX;
    movl_abs (start - 4) ESP;
    call_abs (start - 8) next ].

(** With the three words that [startothers] leaves below the code, the other
    CPU enters [mpenter] on its own stack, with the page directory of the boot
    and flat segments, interrupts off. *)
Lemma entryother_starts s stack mpenter pgdir : ld32 (mm s) (start - 4) = stack → ld32 (mm s) (start - 8) = mpenter →
  ld32 (mm s) (start - 12) = pgdir → 4 ≤ stack →
  let s' := go entryother_code s in
  rg s' EIP = mpenter ∧ rg s' ESP = stack - 4 ∧ flat_segments s' ∧ cr3 s' = pgdir ∧
  cr0 s' = Z.lor (Z.lor (cr0 s) CR0_PE) (Z.lor CR0_PE (Z.lor CR0_PG CR0_WP)) ∧ cr4 s' = Z.lor (cr4 s) CR4_PSE ∧
  gdtr s' = (u16 (ld32 (mm s) gdtdesc), ld32 (mm s) (gdtdesc + 2)).
Proof.
  intros H4 H8 H12 Hst s'. unfold s', entryother_code. clear s'. rewrite !go_app.
  assert (Hpre : let s1 := go (protected_mode gdtdesc start32) (go zero_segments s) in
    rg s1 CS = Z.shiftl SEG_KCODE 3 ∧ Z.land (rg s1 EFLAGS) FL_IF = 0 ∧ cr0 s1 = Z.lor (cr0 s) CR0_PE ∧
    cr4 s1 = cr4 s ∧ mm s1 = mm s ∧ gdtr s1 = (u16 (ld32 (mm s) gdtdesc), ld32 (mm s) (gdtdesc + 2))).
  { split_and!; try done. apply ldiff_land_same. }
  revert Hpre. generalize (go (protected_mode gdtdesc start32) (go zero_segments s)). intros s1 (P1 & P2 & P3 & P4 & P5 & P6).
  destruct (load_selectors_run s1 P1 P2) as (L1 & _ & L3 & L4 & L5 & L6 & L7).
  revert L1 L3 L4 L5 L6 L7. generalize (go load_selectors s1). intros s2 [F1 F2 F3 F4 F5 F6 F7] L3 L4 L5 L6 L7.
  assert (Hm : mm s2 = mm s) by congruence. pose proof (ld32_range (mm s) (start - 4)) as Hr. rewrite H4 in Hr.
  cbn [go]. unfold call_abs, movl_abs, from_cr0, from_cr4, to_cr0, to_cr3, to_cr4, orl_i. asm_regs. rewrite Hm, H4, H8, H12.
  rewrite !u32_small by lia. split_and!; try done; [by rewrite L3, P3|by rewrite L5, P4|by rewrite L6, P6].
Qed.

End entryother.

(** ** bootasm.S *)

Section bootasm.
Context {D : Type} `{!port_io D}.

(** Code beside the devices. *)
Definition asm_code (l : list instr) : M (mach * D) unit := λ sd, Ok tt (go l sd.1, sd.2).
Definition set_al (v : Z) : instr := λ s, set_reg EAX (Z.lor (Z.land (rg s EAX) 0xffffff00) v) s.
Definition inb_al (port : Z) : M (mach * D) unit := λ sd,
  let '(v, d) := dev_in port sd.2 in Ok tt (set_al (u8 v) sd.1, d).
Definition outb_al (port : Z) : M (mach * D) unit := λ sd,
  Ok tt (sd.1, dev_out port (u8 (rg sd.1 EAX)) sd.2).
(** [outw %ax, %dx] *)
Definition outw_ax_dx : M (mach * D) unit := λ sd,
  Ok tt (sd.1, dev_out (u16 (rg sd.1 EDX)) (u16 (rg sd.1 EAX)) sd.2).
Definition movw_dx : instr := λ s, set_reg EDX (Z.lor (Z.land (rg s EDX) 0xffff0000) (u16 (rg s EAX))) s.

(** [seta20.1] and [seta20.2] *)
Fixpoint seta20 (fuel : nat) : M (mach * D) unit :=
  match fuel with
  | O => fail NoFuel
  | S fuel' =>
      inb_al 0x64 ;;;
      al <- gets (λ sd, rg sd.1 EAX) ;;
      if Z.land al 0x2 =? 0 then ret tt else seta20 fuel'
  end.

Variables (start gdtdesc start32 bootmain next : Z).

Definition bootasm (fuel : nat) : M (mach * D) unit :=
  asm_code zero_segments ;;;
  seta20 fuel ;;;
  asm_code [set_al 0xd1] ;;;
  outb_al 0x64 ;;;
  seta20 fuel ;;;
  asm_code [set_al 0xdf] ;;;
  outb_al 0x60 ;;;
  asm_code (protected_mode gdtdesc start32) ;;;
  asm_code load_selectors ;;;
  asm_code [movl_i start ESP; call bootmain next].

(** After [bootmain], which does not return from a kernel that it loads. *)
Definition bootasm_return : M (mach * D) unit :=
  asm_code [movw_ax 0x8a00; movw_dx] ;;;
  outw_ax_dx ;;;
  asm_code [movw_ax 0x8ae0] ;;;
  outw_ax_dx.

(** The controller, polled from [d], is ready after some reads, and then in [d']. *)
Inductive ready : nat → D → D → Prop :=
  | ready_now n d d' v : dev_in 0x64 d = (v, d') → Z.land v 2 = 0 → ready (S n) d d'
  | ready_later n d d1 d' v : dev_in 0x64 d = (v, d1) → Z.land v 2 ≠ 0 → ready n d1 d' → ready (S n) d d'.

Lemma al_bit x v : Z.land (Z.lor (Z.land x 0xffffff00) (u8 v)) 0x2 = Z.land v 2.
Proof.
  rewrite Z.land_lor_distr_l, <-Z.land_assoc. change (Z.land 0xffffff00 0x2) with 0. rewrite Z.land_0_r, Z.lor_0_l.
  unfold u8. change 256 with (2 ^ 8). rewrite <-Z.land_ones, <-Z.land_assoc by lia. done.
Qed.

(** The loops end when the controller does not stay busy; they change [eax] only. *)
Lemma seta20_run n d d' : ready n d d' → ∀ s, ∃ s', seta20 n (s, d) = Ok tt (s', d') ∧
  (∀ r, r ≠ EAX → rg s' r = rg s r) ∧ cr0 s' = cr0 s ∧ cr3 s' = cr3 s ∧ cr4 s' = cr4 s ∧ gdtr s' = gdtr s ∧ mm s' = mm s.
Proof.
  induction 1 as [n d d' v Hin Hv|n d d1 d' v Hin Hv _ IH]; intros s; cbn [seta20];
    unfold bind, inb_al, gets; cbn [fst snd]; rewrite Hin; cbn [fst snd set_al set_reg rg reg_eqb reg_num Nat.eqb]; rewrite al_bit.
  - rewrite (proj2 (Z.eqb_eq _ _)) by done. eexists. split; [reflexivity|]. split_and!; try done. intros r Hr. by destruct r.
  - rewrite (proj2 (Z.eqb_neq _ _)) by done. destruct (IH (set_al (u8 v) s)) as (s' & Hrun & Hregs & Hrest). exists s'.
    split; [exact Hrun|]. split; [|exact Hrest]. intros r Hr. rewrite Hregs by done. by destruct r.
Qed.

Lemma bind_asm_code {A} l (k : unit → M (mach * D) A) s d : bind (asm_code l) k (s, d) = k tt (go l s, d).
Proof. reflexivity. Qed.

Lemma bind_outb_al {A} port (k : unit → M (mach * D) A) s d :
  bind (outb_al port) k (s, d) = k tt (s, dev_out port (u8 (rg s EAX)) d).
Proof. reflexivity. Qed.

Lemma al_set v s : 0 ≤ v < 256 → u8 (rg (go [set_al v] s) EAX) = v.
Proof.
  intros Hv. cbn [go set_al set_reg rg reg_eqb reg_num Nat.eqb]. unfold u8. change 256 with (2 ^ 8).
  rewrite <-Z.land_ones, Z.land_lor_distr_l, <-Z.land_assoc by lia. change (Z.land 0xffffff00 (Z.ones 8)) with 0.
  rewrite Z.land_0_r, Z.lor_0_l, Z.land_ones by lia. by apply Z.mod_small.
Qed.

(** The boot sector enters [bootmain] in protected mode with flat segments and
    the stack below itself, having enabled the A20 line through the controller,
    each command when it was ready. *)
Lemma bootasm_starts fuel s d d1 d2 : ready fuel d d1 → ready fuel (dev_out 0x64 0xd1 d1) d2 → 4 ≤ start < 4294967296 →
  ∃ s', bootasm fuel (s, d) = Ok tt (s', dev_out 0x60 0xdf d2) ∧
    rg s' EIP = bootmain ∧ rg s' ESP = start - 4 ∧ flat_segments s' ∧ cr0 s' = Z.lor (cr0 s) CR0_PE ∧
    gdtr s' = (u16 (ld32 (mm s) gdtdesc), ld32 (mm s) (gdtdesc + 2)).
Proof.
  intros H1 H2 Hst. unfold bootasm. rewrite bind_asm_code. set (s1 := go zero_segments s).
  destruct (seta20_run _ _ _ H1 s1) as (s2 & Hr2 & G2 & C2 & _ & _ & _ & M2).
  rewrite (bind_ok _ _ _ _ _ Hr2), bind_asm_code, bind_outb_al, al_set by lia.
  destruct (seta20_run _ _ _ H2 (set_al 0xd1 s2)) as (s3 & Hr3 & G3 & C3 & _ & _ & _ & M3).
  rewrite (bind_ok _ _ _ _ _ Hr3), bind_asm_code, bind_outb_al, al_set, !bind_asm_code by lia.
  assert (Hfl : rg s3 EFLAGS = Z.ldiff (rg s EFLAGS) FL_IF).
  { rewrite G3 by done. change (rg (set_al 0xd1 s2) EFLAGS) with (rg s2 EFLAGS). by rewrite G2. }
  assert (Hc0 : cr0 s3 = cr0 s) by (rewrite C3; change (cr0 (set_al 0xd1 s2)) with (cr0 s2); by rewrite C2).
  assert (Hmm : mm s3 = mm s) by (rewrite M3; change (mm (set_al 0xd1 s2)) with (mm s2); by rewrite M2).
  assert (Hpre : let s4 := go (protected_mode gdtdesc start32) (go [set_al 0xdf] s3) in
    rg s4 CS = Z.shiftl SEG_KCODE 3 ∧ rg s4 EFLAGS = rg s3 EFLAGS ∧ cr0 s4 = Z.lor (cr0 s3) CR0_PE ∧
    gdtr s4 = (u16 (ld32 (mm s3) gdtdesc), ld32 (mm s3) (gdtdesc + 2))) by done.
  revert Hpre. generalize (go (protected_mode gdtdesc start32) (go [set_al 0xdf] s3)). intros s4 (P1 & P2 & P3 & P4).
  destruct (load_selectors_run s4 P1) as (L1 & _ & L3 & _ & _ & L6 & _); [rewrite P2, Hfl; apply ldiff_land_same|].
  revert L1 L3 L6. generalize (go load_selectors s4). intros s5 [F1 F2 F3 F4 F5 F6 F7] L3 L6.
  unfold asm_code. cbn [fst snd]. eexists. split; [reflexivity|]. asm_regs. split_and!; try done.
  - by rewrite L3, P3, Hc0.
  - by rewrite L6, P4, Hmm.
Qed.

End bootasm.

(** ** initcode.S *)

Section initcode.
Variables (init argv : Z).

(** [start] up to its [int], and the loop of [exit]. *)
Definition initcode_start (SYS_exec : Z) : list instr :=
  [ push argv;
    push init;
    push 0;
    movl_i SYS_exec EAX ].
Definition initcode_exit (SYS_exit : Z) : list instr := [movl_i SYS_exit EAX].

(** "/init\0" with the NUL that [.string] adds, and the two words of [argv] *)
Definition initcode_string : list Z := [47; 105; 110; 105; 116; 0; 0].
Definition initcode_argv : list Z := [init; 0].

(** The first process asks for [exec(init, argv)]: the kernel finds the arguments
    above the place of a return address. *)
Lemma initcode_calls s n : 12 ≤ rg s ESP < 4294967296 → 0 ≤ init < 4294967296 → 0 ≤ argv < 4294967296 →
  let s' := go (initcode_start n) s in
  rg s' EAX = n ∧ ld32 (mm s') (rg s' ESP + 4) = init ∧ ld32 (mm s') (rg s' ESP + 8) = argv ∧ cstr initcode_string = [47; 105; 110; 105; 116].
Proof.
  intros He Hi Ha s'. subst s'. unfold initcode_start. asm_regs. split_and!; [done|by asm_mem|by asm_mem|done].
Qed.

End initcode.

(** ** sign.pl *)

(** The boot block that sign.pl writes for the 1000 bytes it reads at most. *)
Definition sign (file : list Z) : option (list Z) :=
  let buf := take 1000 file in
  let n := length buf in
  if bool_decide (510 < n)%nat then None
  else Some (buf ++ replicate (510 - n) 0 ++ [0x55; 0xAA]).

(** A boot block of up to 510 bytes becomes one sector that starts with it and
    ends in the signature the BIOS looks for; a longer one is refused. *)
Lemma sign_sector file : if decide (length file ≤ 510)%nat
  then ∃ b, sign file = Some b ∧ length b = 512%nat ∧ take (length file) b = file ∧ b !! 510%nat = Some 0x55 ∧ b !! 511%nat = Some 0xAA
  else sign file = None.
Proof.
  unfold sign. case_decide as Hl.
  - rewrite (take_ge file) by lia. rewrite bool_decide_eq_false_2 by lia. eexists. split; [reflexivity|].
    assert (Hlen : length (file ++ replicate (510 - length file) 0) = 510%nat) by (rewrite length_app, length_replicate; lia).
    rewrite app_assoc. split_and!.
    + by rewrite length_app, Hlen.
    + by rewrite <-app_assoc, take_app_length.
    + by rewrite lookup_app_r, Hlen by lia.
    + by rewrite lookup_app_r, Hlen by lia.
  - rewrite bool_decide_eq_true_2; [done|]. rewrite length_take. lia.
Qed.
