(* ===== verification/Exec.v ===== *)
(** Program execution: exec.c and the format of elf.h

    The state is the memory of vm.c beside the file system and the calling
    process.  The arguments are pointers of the caller; addresses below KERNBASE
    in the memory are the caller's image as its page table shows it, which
    [exec] only reads.  [ustack] is the address of the array on the kernel
    stack. *)

From stdpp Require Import gmap list numbers strings.
From Stdlib Require Import ZArith Lia.
From S2P Require Import Prelude Mem Memlayout StringC Cpu Kalloc Vm Block Bio Log Fs Syscall Sysfile Segment.

(** ** elf.h *)

Definition ELF_MAGIC : Z := 0x464C457F.
Definition ELF_PROG_LOAD : Z := 1.

(** struct elfhdr: the fields that [exec] uses. *)
Record elfhdr := Elfhdr { e_magic : Z; e_entry : Z; e_phoff : Z; e_phnum : Z }.
Definition sizeof_elfhdr : Z := 52.
Definition get_elfhdr (l : list Z) : elfhdr := Elfhdr (get32 l 0) (get32 l 24) (get32 l 28) (get16 l 44).

(** struct proghdr *)
Record proghdr := Proghdr {
  ph_type : Z;
  ph_off : Z;
  ph_vaddr : Z;
  ph_filesz : Z;
  ph_memsz : Z
}.
Definition sizeof_proghdr : Z := 32.
Definition get_proghdr (l : list Z) : proghdr :=
  Proghdr (get32 l 0) (get32 l 4) (get32 l 8) (get32 l 16) (get32 l 20).

(** ** The state *)

(** The process: the fields of struct proc and of its trap frame that [exec]
    writes, and its kernel stack. *)
Record eproc := EProc {
  ep_pgdir : Z;
  ep_sz : Z;
  ep_kstack : Z;
  ep_eip : Z;
  ep_esp : Z;
  ep_name : list Z
}.

(** The file system, the process and the CPU. *)
Record exrest := ExRest {
  ex_fs : fst_st;
  ex_proc : eproc;
  ex_cpu : cpu * hwcpu
}.

Section exec.
Variables kend kdata : Z.
Variable me : Z.
Variable cwd : nat.
Variable dev_read : Z → option (nat → Z → M fst_st (Z * list Z)).
Variables ustack ts_addr : Z.

Abbreviation st := (kst * exrest)%type.

Definition on_efs {A} (m : M fst_st A) : M st A :=
  zoom (λ s, ex_fs (s.2)) (λ f s, (s.1, ExRest f (ex_proc (s.2)) (ex_cpu (s.2)))) m.
Definition set_eproc (p : eproc) : M st unit :=
  modify (λ s, (s.1, ExRest (ex_fs (s.2)) p (ex_cpu (s.2)))).

Definition on_ecpu {A} (m : M (cpu * hwcpu) A) : M st A :=
  zoom (λ s, ex_cpu (s.2)) (λ c s, (s.1, ExRest (ex_fs (s.2)) (ex_proc (s.2)) c)) m.

(** [readi] with its destination in memory. *)
Definition readi_to (ip : nat) (dst off n : Z) : M st Z :=
  ' (r, bs) <- on_efs (readi dev_read ip off n) ;;
  on_vm (modify (λ k, set_memory (store_bytes (memory k) dst bs) k)) ;;;
  ret r.

(** The loop over the program headers, [n] of them left; no result is the jump
    to [bad]. *)
Fixpoint exec_load (n : nat) (ip : nat) (pgdir off sz : Z) : M st (option Z) :=
  match n with
  | O => ret (Some sz)
  | S n' =>
      ' (r, bs) <- on_efs (readi dev_read ip (u32 off) sizeof_proghdr) ;;
      let ph := get_proghdr bs in
      if negb (r =? sizeof_proghdr) then ret None
      else if negb (ph_type ph =? ELF_PROG_LOAD) then exec_load n' ip pgdir (off + sizeof_proghdr) sz
      else if ph_memsz ph <? ph_filesz ph then ret None
      else if u32 (ph_vaddr ph + ph_memsz ph) <? ph_vaddr ph then ret None
      else
        sz <- on_vm (allocuvm kend pgdir sz (u32 (ph_vaddr ph + ph_memsz ph))) ;;
        if sz =? 0 then ret None
        else if negb (ph_vaddr ph mod PGSIZE =? 0) then ret None
        else
          r <- loaduvm (readi_to ip) pgdir (ph_vaddr ph) (ph_off ph) (ph_filesz ph) ;;
          if r <? 0 then ret None else exec_load n' ip pgdir (off + sizeof_proghdr) sz
  end.

(** [strlen(argv[argc])] of a string that ends below the caller's [sz]. *)
Definition arg_len (p : Z) : M st Z :=
  o <- gets (λ s, fetchstr_loop (memory (s.1)) p (Z.to_nat (ep_sz (ex_proc (s.2)) - p)) 0) ;;
  deref o.

(** The loop that pushes the argument strings: the final [sp] and [argc]. *)
Fixpoint exec_args (argv : list Z) (argc pgdir sp : Z) : M st (option (Z * Z)) :=
  match argv with
  | [] => ret (Some (sp, argc))
  | a :: argv' =>
      if Z.of_nat MAXARG <=? argc then ret None
      else
        len <- arg_len a ;;
        let sp := Z.land (u32 (sp - (len + 1))) (Z.lnot 3) in
        r <- on_vm (copyout pgdir sp a (len + 1)) ;;
        if r <? 0 then ret None
        else
          on_vm (stw (ustack + 4 * (3 + argc)) sp) ;;;
          exec_args argv' (argc + 1) pgdir sp
  end.

(** The last element of the path. *)
Fixpoint path_last (s last : list Z) : list Z :=
  match s with
  | [] => last
  | c :: s' => if c =? 0 then last else if c =? 47 then path_last s' s' else path_last s' last
  end.

(** The label [bad]; [ip] is null once the file is closed. *)
Definition exec_bad (pgdir : Z) (ip : option nat) : M st Z :=
  (if pgdir =? 0 then ret tt else on_vm (freevm kend pgdir)) ;;;
  match ip with
  | Some ip => on_efs (iunlockput me ip) ;;; on_efs (on_log end_op)
  | None => ret tt
  end ;;;
  ret (-1).

(** [exec] once the program is loaded and its file closed. *)
Definition exec_stack (path : list Z) (argv : list Z) (elf : elfhdr) (pgdir sz : Z) : M st Z :=
  let sz := PGROUNDUP sz in
  sz <- on_vm (allocuvm kend pgdir sz (u32 (sz + 2 * PGSIZE))) ;;
  if sz =? 0 then exec_bad pgdir None
  else
    on_vm (clearpteu pgdir (u32 (sz - 2 * PGSIZE))) ;;;
    o <- exec_args argv 0 pgdir sz ;;
    match o with
    | None => exec_bad pgdir None
    | Some (sp, argc) =>
        on_vm (stw (ustack + 4 * (3 + argc)) 0) ;;;
        on_vm (stw ustack 0xffffffff) ;;;
        on_vm (stw (ustack + 4) argc) ;;;
        on_vm (stw (ustack + 8) (u32 (sp - (argc + 1) * 4))) ;;;
        let sp := u32 (sp - (3 + argc + 1) * 4) in
        r <- on_vm (copyout pgdir sp ustack ((3 + argc + 1) * 4)) ;;
        if r <? 0 then exec_bad pgdir None
        else
          p <- gets (λ s, ex_proc (s.2)) ;;
          name <- deref (safestrcpy (ep_name p) (path_last path path) 16) ;;
          let oldpgdir := ep_pgdir p in
          let p' := EProc pgdir sz (ep_kstack p) (e_entry elf) sp name in
          set_eproc p' ;;;
          on_ecpu (switchuvm ts_addr (Some (ep_kstack p', ep_pgdir p'))) ;;;
          on_vm (freevm kend oldpgdir) ;;;
          ret 0
    end.

Definition exec (path : list Z) (argv : list Z) : M st Z :=
  on_efs (on_log begin_op) ;;;
  o <- on_efs (namei me dev_read cwd path) ;;
  match o with
  | None => on_efs (on_log end_op) ;;; ret (-1)
  | Some ip =>
      on_efs (ilock me ip) ;;;
      ' (r, bs) <- on_efs (readi dev_read ip 0 sizeof_elfhdr) ;;
      let elf := get_elfhdr bs in
      if negb (r =? sizeof_elfhdr) then exec_bad 0 (Some ip)
      else if negb (e_magic elf =? ELF_MAGIC) then exec_bad 0 (Some ip)
      else
        pgdir <- on_vm (setupkvm kend kdata) ;;
        if pgdir =? 0 then exec_bad pgdir (Some ip)
        else
          o <- exec_load (Z.to_nat (e_phnum elf)) ip pgdir (s32 (e_phoff elf)) 0 ;;
          match o with
          | None => exec_bad pgdir (Some ip)
          | Some sz =>
              on_efs (iunlockput me ip) ;;;
              on_efs (on_log end_op) ;;;
              exec_stack path argv elf pgdir sz
          end
  end.

(** [sys_exec] of sysfile.c. *)
Definition sys_exec (u : uproc) : M st Z :=
  match sys_exec_args u with
  | None => ret (-1)
  | Some (path, argv) => exec (ustring u path) argv
  end.

End exec.

(** ** Failures leave the process alone *)

(** The process and the registers, which only the end of [exec] writes. *)
Definition image (s : kst * exrest) : eproc * (cpu * hwcpu) := (ex_proc (s.2), ex_cpu (s.2)).
Definition ekeeps {A} (m : M (kst * exrest) A) : Prop := ∀ s a s', m s = Ok a s' → image s' = image s.

Section image.
Context (kend kdata me : Z) (cwd : nat) (ustack ts_addr : Z).
Context (dev_read : Z → option (nat → Z → M fst_st (Z * list Z))).
Abbreviation st := (kst * exrest)%type.

Lemma ekeeps_bind {A B} (m : M st A) (c : A → M st B) : ekeeps m → (∀ a, ekeeps (c a)) → ekeeps (bind m c).
Proof.
  intros Hm Hc s b s'' Hr. apply bind_inv in Hr as (a & s' & H1 & H2). rewrite (Hc _ _ _ _ H2). eauto.
Qed.
Lemma ekeeps_ret {A} (a : A) : ekeeps (ret a).
Proof. by intros s ? ? [= _ <-]. Qed.
Lemma ekeeps_fail {A} e : ekeeps (A := A) (fail e).
Proof. by intros s ? ?. Qed.
Lemma ekeeps_gets {A} (f : st → A) : ekeeps (gets f).
Proof. by intros s ? ? [= _ <-]. Qed.
Lemma ekeeps_deref {A} (o : option A) : ekeeps (deref o).
Proof. destruct o; [apply ekeeps_ret|apply ekeeps_fail]. Qed.
Lemma ekeeps_on_vm {A} (m : M kst A) : ekeeps (on_vm m).
Proof. intros s a s'. unfold on_vm, zoom. destruct (m _); [|done]. by intros [= _ <-]. Qed.
Lemma ekeeps_on_efs {A} (m : M fst_st A) : ekeeps (on_efs m).
Proof. intros s a s'. unfold on_efs, zoom. destruct (m _); [|done]. by intros [= _ <-]. Qed.
End image.

Create HintDb ekeeps discriminated.
#[export] Hint Resolve ekeeps_ret ekeeps_fail ekeeps_gets ekeeps_deref ekeeps_on_vm ekeeps_on_efs : ekeeps.

Ltac ekeeps :=
  repeat match goal with
  | |- ∀ _, _ => intros
  | |- ekeeps (bind _ _) => apply ekeeps_bind
  | |- ekeeps (panic _) => apply ekeeps_fail
  | |- context [match ?x with _ => _ end] => destruct x
  | |- _ => solve [auto with ekeeps]
  end.

Section exec_image.
Context (kend kdata me : Z) (cwd : nat) (ustack ts_addr : Z).
Context (dev_read : Z → option (nat → Z → M fst_st (Z * list Z))).
Implicit Types (s : kst * exrest).

Lemma ekeeps_loaduvm ip pgdir addr offset sz : ekeeps (loaduvm (readi_to dev_read ip) pgdir addr offset sz).
Proof.
  assert (Hl : ∀ fuel i, ekeeps (loaduvm_loop (readi_to dev_read ip) fuel pgdir addr i offset sz)).
  { intros fuel. induction fuel as [|fuel IH]; intros i; cbn [loaduvm_loop]; unfold readi_to; ekeeps. }
  unfold loaduvm. ekeeps.
Qed.

Lemma ekeeps_exec_load ip pgdir n : ∀ off sz, ekeeps (exec_load kend dev_read n ip pgdir off sz).
Proof.
  pose proof ekeeps_loaduvm. induction n as [|n IH]; intros off sz; cbn [exec_load]; ekeeps.
Qed.

Lemma ekeeps_exec_args argv : ∀ argc pgdir sp, ekeeps (exec_args ustack argv argc pgdir sp).
Proof. induction argv as [|a argv IH]; intros; cbn [exec_args]; unfold arg_len; ekeeps. Qed.

Lemma exec_bad_ok pgdir ip s r s' : exec_bad kend me pgdir ip s = Ok r s' → r = -1 ∧ image s' = image s.
Proof.
  unfold exec_bad. intros Hr. split.
  - apply bind_inv in Hr as (? & ? & _ & Hr). by apply bind_inv in Hr as (? & ? & _ & [= <- _]).
  - revert s r s' Hr. change (ekeeps (exec_bad kend me pgdir ip)). unfold exec_bad. ekeeps.
Qed.

(** The outcomes of [exec] from [s]: failure with the old image, or the new
    image in place. *)
Definition exec_outcome s (r : Z) s' : Prop :=
  r = -1 ∧ image s' = image s ∨
  r = 0 ∧ (let p := ex_proc (s'.2) in
    ep_pgdir p ≠ 0 ∧ cr3 (ex_cpu (s'.2)).2 = V2P (ep_pgdir p) ∧ ep_kstack p = ep_kstack (ex_proc (s.2)) ∧
    ts_esp0 (ts (ex_cpu (s'.2)).2) = u32 (ep_kstack p + KSTACKSIZE)).

Lemma exec_outcome_from s s1 r s' : image s1 = image s → exec_outcome s1 r s' → exec_outcome s r s'.
Proof.
  intros Hi [[-> Hf]|[-> Hok]]; [left; by rewrite <-Hi|]. right. split; [done|].
  assert (ex_proc (s1.2) = ex_proc (s.2)) as <- by (unfold image in Hi; congruence). done.
Qed.

(** A step of [exec] that keeps the image. *)
Lemma exec_outcome_bind {A} (m : M (kst * exrest) A) (c : A → M (kst * exrest) Z) s r s' :
  ekeeps m → (∀ a s1, c a s1 = Ok r s' → exec_outcome s1 r s') → bind m c s = Ok r s' → exec_outcome s r s'.
Proof.
  intros Hm Hc Hr. apply bind_inv in Hr as (a & s1 & H1 & H2).
  apply (exec_outcome_from s s1); [by eapply Hm|by apply (Hc a)].
Qed.

Lemma exec_bad_outcome pgdir ip s r s' : exec_bad kend me pgdir ip s = Ok r s' → exec_outcome s r s'.
Proof. intros Hr. left. by apply exec_bad_ok in Hr. Qed.

Lemma exec_stack_outcome path argv elf pgdir sz s r s' :
  exec_stack kend me ustack ts_addr path argv elf pgdir sz s = Ok r s' → exec_outcome s r s'.
Proof.
  unfold exec_stack. apply exec_outcome_bind; [ekeeps|]. intros sz1 s1.
  destruct (sz1 =? 0); [apply exec_bad_outcome|].
  apply exec_outcome_bind; [ekeeps|]. intros _ s2.
  apply exec_outcome_bind; [apply ekeeps_exec_args|]. intros [[sp argc]|] s3; [|apply exec_bad_outcome].
  do 4 (apply exec_outcome_bind; [ekeeps|]; intros ? ?).
  apply exec_outcome_bind; [ekeeps|]. intros r1 s9. destruct (r1 <? 0); [apply exec_bad_outcome|].
  rewrite bind_gets. destruct (safestrcpy _ _ _) as [name|]; [|done]. cbn [deref]. rewrite bind_ret.
  unfold set_eproc. rewrite bind_modify. cbn [ep_kstack ep_pgdir]. intros Hr.
  apply bind_inv in Hr as ([] & s10 & H5 & Hr). unfold on_ecpu, zoom in H5. cbn [snd ex_cpu] in H5.
  destruct (switchuvm _ _ _) as [[] c|] eqn:Hsw; [|done]. injection H5 as <-.
  apply switchuvm_loads in Hsw as (_ & Hpg & Hcr3 & Hesp).
  apply bind_inv in Hr as (? & s11 & H6 & [= <- <-]). right. split; [done|].
  pose proof (ekeeps_on_vm _ _ _ _ H6) as Hi. unfold image in Hi. cbn [fst snd ex_proc ex_cpu] in Hi.
  injection Hi as -> ->. by split_and!.
Qed.

End exec_image.


(** A process runs the file of 3 bytes that is its current directory, by the
    empty path. *)
Definition demo_exec_inode : inode := Inode 1 5 1 initsleeplock true (Dinode T_FILE 0 0 1 3 (40 :: replicate NDIRECT 0)).
Definition demo_exec_fs : fst_st :=
  Fst (Lst (Log 2 31 0 false 0 (replicate 30 0)) (Store ∅ ∅ 100 []))
      (Superblock 100 63 16 31 2 33 36) [demo_exec_inode].
Definition demo_exec_state : kst * exrest :=
  (Kst ∅ false true 0, ExRest demo_exec_fs (EProc 0x80400000 8192 0x80401000 0 8180 [105; 0])
     (Cpu 0 0 false true, Hwcpu (replicate 6 zero_seg) (Taskstate 0x80402000 16 0xFFFF) (47, 0) (2047, 0) 40 0x400000)).
Definition demo_exec_args : uproc := UProc (st32 (st32 ∅ 8184 4096) 8188 4100) 8192 8180 [] 0.

