(* ===== verification/ProcMem.v ===== *)
(** Processes and their memory: proc.c above vm.c and kalloc.c

    [vm_ops] implements the interface [kernel_ops] of proc.c with the functions
    of [Kalloc] and [Vm] on one memory; only the file system remains a
    parameter, the class [fs_calls].

    [proc_mem] is the invariant that ties the process table to the ownership map
    of the page tables: every process in use has a kernel stack and an address
    space of its own, with exactly the pages below its size, and every page that
    the allocator has handed out is accounted for by a process or by the kernel
    itself.  The theorem is that [fork], [wait], [exit] and [growproc] keep it on
    every branch. *)

From stdpp Require Import gmap list numbers strings.
From Stdlib Require Import ZArith Lia.
From S2P Require Import Prelude Mem Memlayout StringC Kalloc Cpu ProcData Rbtree Proc ProcSpec Vm VmInv VmSpec VmProps Segment.

(** What proc.c calls in file.c, fs.c and log.c. *)
Class fs_calls (F : Type) := FsCalls {
  fs_filedup : Z → M F Z;
  fs_fileclose : Z → M F unit;
  fs_idup : Z → M F Z;
  fs_iput : Z → M F unit;
  fs_namei : list Z → M F Z;
  fs_begin_op : M F unit;
  fs_end_op : M F unit;
  fs_iinit : Z → M F unit;
  fs_initlog : Z → M F unit
}.

(** The calls return, [filedup] and [idup] with their argument. *)
Class fs_total (F : Type) `{!fs_calls F} : Prop := {
  total_filedup f (e : F) : ∃ e', fs_filedup f e = Ok f e';
  total_idup i (e : F) : ∃ e', fs_idup i e = Ok i e';
  total_fileclose f (e : F) : ∃ e', fs_fileclose f e = Ok tt e';
  total_iput i (e : F) : ∃ e', fs_iput i e = Ok tt e';
  total_begin_op (e : F) : ∃ e', fs_begin_op e = Ok tt e';
  total_end_op (e : F) : ∃ e', fs_end_op e = Ok tt e'
}.

(** The memory, the file system and the CPU's tables. *)
Record kenv (F : Type) := Kenv { ke_mem : kst; ke_fs : F; ke_hw : hwcpu }.
Arguments Kenv {F}.
Arguments ke_mem {F}.
Arguments ke_fs {F}.
Arguments ke_hw {F}.

Section vm_ops.
Context {F : Type} `{!fs_calls F}.
(** Linker symbols: the end of the kernel, its data, the first program with its
    size; and the address of the task state. *)
Variables kend kdata initcode initcode_size ts_addr : Z.

Definition on_kmem {A} (m : M kst A) : M (kenv F) A := zoom ke_mem (λ k e, Kenv k (ke_fs e) (ke_hw e)) m.
Definition on_kfs {A} (m : M F A) : M (kenv F) A := zoom ke_fs (λ f e, Kenv (ke_mem e) f (ke_hw e)) m.
Definition on_khw {A} (m : M hwcpu A) : M (kenv F) A := zoom ke_hw (λ h e, Kenv (ke_mem e) (ke_fs e) h) m.

(** [switchuvm] on the tables; its [pushcli] and [popcli] cancel on the CPU
    state, which belongs to [pst]. *)
Definition switch_task (p : proc) : M (kenv F) unit :=
  if p_kstack p =? 0 then panic "switchuvm: no kstack"
  else if p_pgdir p =? 0 then panic "switchuvm: no pgdir"
  else on_khw (load_task ts_addr (p_kstack p) (p_pgdir p)).

Definition vm_ops : kernel_ops (kenv F) := {|
  k_kalloc := on_kmem kalloc;
  k_kfree a := on_kmem (kfree kend a);
  k_setupkvm := on_kmem (setupkvm kend kdata);
  k_inituvm pg := on_kmem (inituvm pg initcode initcode_size);
  k_copyuvm pg sz := on_kmem (copyuvm kend kdata pg sz);
  k_freevm pg := on_kmem (freevm kend pg);
  k_allocuvm pg o n := on_kmem (allocuvm kend pg o n);
  k_deallocuvm pg o n := on_kmem (deallocuvm kend pg o n);
  k_switchuvm := switch_task;
  k_filedup f := on_kfs (fs_filedup f);
  k_fileclose f := on_kfs (fs_fileclose f);
  k_idup i := on_kfs (fs_idup i);
  k_iput i := on_kfs (fs_iput i);
  k_namei n := on_kfs (fs_namei n);
  k_begin_op := on_kfs fs_begin_op;
  k_end_op := on_kfs fs_end_op;
  k_iinit d := on_kfs (fs_iinit d);
  k_initlog d := on_kfs (fs_initlog d)
|}.

(** The file system touches neither the memory nor the tables. *)
Definition same_mem (e e' : kenv F) : Prop := ke_mem e' = ke_mem e ∧ ke_hw e' = ke_hw e.

Lemma on_kfs_run {A} (m : M F A) e a f' : m (ke_fs e) = Ok a f' →
  ∃ e', on_kfs m e = Ok a e' ∧ same_mem e e'.
Proof. intros H. unfold on_kfs, zoom. rewrite H. by eexists. Qed.

Lemma vm_fs_returns `{!fs_total F} : fs_returns (kenv F) (kernel_ops0 := vm_ops) same_mem.
Proof.
  split.
  - split; [done|]. intros e1 e2 e3 [? ?] [? ?]. split; congruence.
  - intros f e. destruct (total_filedup f (ke_fs e)) as [f' H]. by eapply on_kfs_run.
  - intros f e. destruct (total_idup f (ke_fs e)) as [f' H]. by eapply on_kfs_run.
  - intros f e. destruct (total_fileclose f (ke_fs e)) as [f' H]. by eapply on_kfs_run.
  - intros f e. destruct (total_iput f (ke_fs e)) as [f' H]. by eapply on_kfs_run.
  - intros e. destruct (total_begin_op (ke_fs e)) as [f' H]. by eapply on_kfs_run.
  - intros e. destruct (total_end_op (ke_fs e)) as [f' H]. by eapply on_kfs_run.
Qed.

Lemma on_kmem_run {A} (m : M kst A) e a k' : m (ke_mem e) = Ok a k' →
  on_kmem m e = Ok a (Kenv k' (ke_fs e) (ke_hw e)).
Proof. intros H. unfold on_kmem, zoom. by rewrite H. Qed.

End vm_ops.

(** ** The invariant *)

Definition live (p : proc) : Prop := p_state p ≠ UNUSED.
Definition npages (sz : Z) : Z := (sz + 4095) / 4096.

(** A process's stack and address space. *)
Record space_ok (own : gmap Z role) (m : mem) (p : proc) : Prop := {
  so_kstack : own !! p_kstack p = Some Loose;
  so_pgdir : own !! p_pgdir p = Some Dir;
  so_sz : 0 ≤ p_sz p < KERNBASE;
  so_present w : 0 ≤ w < npages (p_sz p) → present (pte_val m (p_pgdir p) w) = true;
  so_absent w : npages (p_sz p) ≤ w < USERPAGES → present (pte_val m (p_pgdir p) w) = false
}.

(** [K] are the pages that the kernel holds for itself: its own page directory
    and the stacks of the other CPUs. *)
Record proc_mem {Hpool : page_pool} (kend : Z) (K : gset Z) (own : gmap Z role) (l : list Z)
    (pt : list proc) (k : kst) : Prop := {
  pm_vm : vm_inv kend own l k;
  pm_kern a : a ∈ K → own !! a = Some Loose ∨ own !! a = Some Dir;
  pm_space i p : pt !! i = Some p → live p →
    space_ok own (memory k) p ∧ (p_kstack p ∉ K) ∧ (p_pgdir p ∉ K);
  pm_sep i j p q : i ≠ j → pt !! i = Some p → pt !! j = Some q → live p → live q →
    p_kstack p ≠ p_kstack q ∧ p_pgdir p ≠ p_pgdir q;
  pm_all a r : own !! a = Some r → r = Loose ∨ r = Dir →
    a ∈ K ∨ ∃ i p, pt !! i = Some p ∧ live p ∧ (a = p_kstack p ∨ a = p_pgdir p)
}.

Section invariant.
Context {Hpool : page_pool}.
Variable kend : Z.
Implicit Types (own : gmap Z role) (l : list Z) (k : kst) (pt : list proc) (K : gset Z).

(** The address space of a process that keeps its pages and entries. *)
Lemma space_ok_mono own own' m m' p q : space_ok own m p → same_space p q →
  own' !! p_kstack p = Some Loose → own' !! p_pgdir p = Some Dir →
  (∀ w, 0 ≤ w < USERPAGES → pte_val m' (p_pgdir p) w = pte_val m (p_pgdir p) w) →
  space_ok own' m' q.
Proof.
  intros [S1 S2 S3 S4 S5] (E1 & E2 & E3) H1 H2 Hp. unfold npages, KERNBASE, USERPAGES in *.
  split; unfold npages, KERNBASE, USERPAGES; rewrite ?E1, ?E2, ?E3; try done.
  - intros w Hw. rewrite Hp by zlia. by apply S4.
  - intros w Hw. rewrite Hp by zlia. by apply S5.
Qed.

(** Changes of the table that keep every stack and address space. *)
Lemma proc_mem_table K own l pt pt' k : proc_mem kend K own l pt k → length pt' = length pt →
  (∀ i p q, pt !! i = Some p → pt' !! i = Some q → (live q ↔ live p) ∧ (live p → same_space p q)) →
  proc_mem kend K own l pt' k.
Proof.
  intros [P1 P2 P3 P4 P5] Hlen Hs.
  assert (Hback : ∀ i q, pt' !! i = Some q → live q → ∃ p, pt !! i = Some p ∧ live p ∧ same_space p q).
  { intros i q Hq Hl. destruct (lookup_lt_is_Some_2 pt i) as [p Hp].
    { rewrite <- Hlen. by eapply lookup_lt_Some. }
    destruct (Hs i p q Hp Hq) as [H1 H2]. exists p. split_and!; [done|by apply H1|by apply H2, H1]. }
  split; try done.
  - intros i q Hq Hl. destruct (Hback i q Hq Hl) as (p & Hp & Hlp & Hsp).
    destruct (P3 i p Hp Hlp) as (Hok & HK1 & HK2). pose proof Hsp as (E1 & E2 & E3). rewrite E1, E2.
    split_and!; [|done..]. eapply space_ok_mono; [done..|apply Hok|apply Hok|done].
  - intros i j p q Hij Hp Hq Hlp Hlq. destruct (Hback i p Hp Hlp) as (p' & Hp' & Hlp' & (E1 & E2 & _)).
    destruct (Hback j q Hq Hlq) as (q' & Hq' & Hlq' & (E3 & E4 & _)). rewrite E1, E2, E3, E4. by eapply P4.
  - intros a r Ha Hr. destruct (P5 a r Ha Hr) as [?|(i & p & Hp & Hl & Hor)]; [by left|]. right.
    destruct (lookup_lt_is_Some_2 pt' i) as [q Hq].
    { rewrite Hlen. by eapply lookup_lt_Some. }
    destruct (Hs i p q Hp Hq) as [H1 H2]. destruct (H2 Hl) as (E1 & E2 & _).
    exists i, q. rewrite E1, E2. split_and!; [done|by apply H1|done].
Qed.

(** A free slot of the table may be rewritten as long as it stays free. *)
Lemma proc_mem_free K own l pt k i q : proc_mem kend K own l pt k →
  (∀ p, pt !! i = Some p → ¬ live p) → ¬ live q → proc_mem kend K own l (<[i := q]> pt) k.
Proof.
  intros Hpm Hfree Hq. apply (proc_mem_table K own l pt); [done|by rewrite length_insert|].
  intros j p q' Hp Hq'. destruct (decide (i = j)) as [<-|Hne].
  - rewrite list_lookup_insert_eq in Hq' by (by eapply lookup_lt_Some). injection Hq' as <-.
    pose proof (Hfree p Hp). by split; [split|].
  - rewrite list_lookup_insert_ne in Hq' by done. assert (q' = p) as -> by congruence. by split.
Qed.

(** Memory changes that only add pages to address spaces, while no slot
    changes. *)
Lemma proc_mem_grow K own own' l l' pt k k' : proc_mem kend K own l pt k → vm_inv kend own' l' k' →
  (∀ a r, own !! a = Some r → r = Loose ∨ r = Dir → own' !! a = Some r) →
  (∀ a r, own' !! a = Some r → r = Loose ∨ r = Dir → own !! a = Some r) →
  ptes_same own (memory k) (memory k') → proc_mem kend K own' l' pt k'.
Proof.
  intros [P1 P2 P3 P4 P5] Hvm Hkeep Hback Hpt. split; try done.
  - intros a [Ha|Ha]%P2; [left|right]; apply Hkeep; auto.
  - intros i p Hp Hl. destruct (P3 i p Hp Hl) as (Hok & HK1 & HK2). split_and!; [|done..].
    pose proof Hok as [S1 S2 _ _ _]. eapply space_ok_mono; [done|done|apply Hkeep; auto..|].
    intros w Hw. apply Hpt; [done|]. unfold USERPAGES in Hw. lia.
  - intros a r Ha Hr. apply (P5 a r); [by apply Hback|done].
Qed.

End invariant.

(** ** The operations *)

Section operations.
Context {Hpool : page_pool} {F : Type} `{!fs_calls F} `{!fs_total F}.
Variables kend kdata initcode initcode_size ts_addr : Z.
Hypothesis Hkend : KERNBASE < kend.
Hypothesis Hdata : kdata mod 4096 = 0 ∧ KERNLINK < kdata < KERNBASE + PHYSTOP.
Variables (me : nat) (fk tr : Z).

#[local] Instance the_ops : kernel_ops (kenv F) := vm_ops kend kdata initcode initcode_size ts_addr.
#[local] Instance the_fs_returns : fs_returns (kenv F) same_mem := vm_fs_returns kend kdata initcode initcode_size ts_addr.

Implicit Types (own : gmap Z role) (l : list Z) (s : pst (kenv F)) (K : gset Z).

Abbreviation mem_of s := (ke_mem (ext s)).
Abbreviation inv K own l s := (proc_mem kend K own l (ptable s) (mem_of s)).

(** A new process in a free slot, with a stack and an address space that were
    just allocated. *)
Lemma proc_mem_new K own own1 own2 l l2 pt k k2 i n :
  proc_mem kend K own l pt k → own1 = <[p_kstack n := Loose]> own → own !! p_kstack n = None →
  vm_inv kend own2 l2 k2 → own1 !! p_pgdir n = None → grows (p_pgdir n) own1 own2 →
  (∀ p, pt !! i = Some p → ¬ live p) → (i < length pt)%nat → live n →
  ptes_same own (memory k) (memory k2) → space_ok own2 (memory k2) n →
  proc_mem kend K own2 l2 (<[i := n]> pt) k2.
Proof.
  intros Hpm -> Hks Hvm Hpg [G1 G2] Hfree Hi Hn Hpt Hsp. pose proof Hpm as [P1 P2 P3 P4 P5].
  assert (Hown : ∀ a r, own !! a = Some r → own2 !! a = Some r).
  { intros a r Ha. apply G1. rewrite lookup_insert_ne; [done|]. intros <-. congruence. }
  assert (HKn : (p_kstack n ∉ K) ∧ (p_pgdir n ∉ K)).
  { apply lookup_insert_None in Hpg as [Hpg _]. split; intros [Hr|Hr]%P2; congruence. }
  assert (Hcases : ∀ j p, <[i := n]> pt !! j = Some p → live p →
    (j = i ∧ p = n) ∨ (j ≠ i ∧ pt !! j = Some p)).
  { intros j p Hp Hl. destruct (decide (j = i)) as [->|]; [left|right].
    - rewrite list_lookup_insert_eq in Hp by done. split; congruence.
    - rewrite list_lookup_insert_ne in Hp by done. done. }
  assert (Hne : ∀ j p, pt !! j = Some p → live p → p_kstack p ≠ p_kstack n ∧ p_pgdir p ≠ p_pgdir n).
  { intros j p Hp Hl. destruct (P3 j p Hp Hl) as [[S1 S2 _ _ _] _]. apply lookup_insert_None in Hpg as [Hpg _].
    split; intros E; [rewrite E in S1|rewrite E in S2]; congruence. }
  split; try done.
  - intros a [Ha|Ha]%P2; [left|right]; by apply Hown.
  - intros j p Hp Hl. destruct (Hcases j p Hp Hl) as [[-> ->]|[Hji Hp']]; [by split|].
    destruct (P3 j p Hp' Hl) as (Hok & HK1 & HK2). split_and!; [|done..].
    pose proof Hok as [S1 S2 _ _ _]. eapply space_ok_mono; [done|done|by apply Hown..|].
    intros w Hw. apply Hpt; [done|]. unfold USERPAGES in Hw. lia.
  - intros j j' p q Hjj Hp Hq Hlp Hlq.
    destruct (Hcases j p Hp Hlp) as [[-> ->]|[Hji Hp']], (Hcases j' q Hq Hlq) as [[-> ->]|[Hji' Hq']].
    + done.
    + destruct (Hne j' q Hq' Hlq). by split; apply not_eq_sym.
    + by apply (Hne j p).
    + by eapply (P4 j j').
  - intros a r Ha Hr. destruct (G2 a r Ha) as [[(<- & <-)|(_ & Ha')]%lookup_insert_Some|[_ Hd]].
    + right. exists i, n. rewrite list_lookup_insert_eq by done. split_and!; [done|done|by left].
    + destruct (P5 a r Ha' Hr) as [?|(j & p & Hp & Hl & Hor)]; [by left|]. right. exists j, p.
      rewrite list_lookup_insert_ne; [done|]. intros ->. by eapply Hfree.
    + right. exists i, n. rewrite list_lookup_insert_eq by done. split_and!; [done|done|]. right.
      unfold of_dir in Hd. destruct Hr as [->| ->]; rewrite orb_false_r, bool_decide_eq_true in Hd; done.
Qed.

(** The child's entries are the parent's pages. *)
Lemma copied_present pgdir d w own own' (k k' : kst) : copied_page pgdir d w own own' k k' →
  present (pte_val (memory k') d w) = true.
Proof. intros (p & _ & _ & -> & _). rewrite Z.lor_assoc. apply present_lor. Qed.

(** What [fork] leaves behind: no page is taken, and there was no slot or too
    few pages, or there is a child whose pages are new and hold what the parent's
    hold. *)
Definition fork_result own own' l s s' cur c (r : Z) : Prop :=
  (r = -1 ∧ own' = own ∧
   (find_index is_unused (ptable s) = None ∨ Z.of_nat (length l) ≤ 1027 + npages (p_sz c))) ∨
  (r = nextpid s ∧ ∃ np n, ptable s' = <[np := n]> (ptable s) ∧ p_parent n = Some cur ∧
     p_state n = RUNNABLE ∧ p_sz n = p_sz c ∧ data_same own (memory (mem_of s)) (memory (mem_of s')) ∧
     ∀ w, 0 ≤ w < npages (p_sz c) →
       copied_page (p_pgdir c) (p_pgdir n) w own own' (mem_of s) (mem_of s')).

(** [fork] on every branch. *)
Lemma fork_accounts K own l s cur c f : inv K own l s → pt_ready s →
  ptable s !! cur = Some c → p_state c = RUNNING → length (p_ofile c) = NOFILE → frames s !! p_tf c = Some f →
  (∀ i q, ptable s !! i = Some q → p_state q = UNUSED →
     p_ofile q = replicate NOFILE 0 ∧ ∃ nm, safestrcpy (p_name q) (p_name c) 16 = Some nm) →
  ∃ r s' own' l', fork me fk tr cur s = Ok r s' ∧ pt_ready s' ∧ inv K own' l' s' ∧
    ke_hw (ext s') = ke_hw (ext s) ∧ fork_result own own' l s s' cur c r.
Proof.
  intros Hpm Hr Hc Hcs Hco Hf Hslots. pose proof Hpm as [P1 P2 P3 P4 P5].
  assert (Hlive : live c) by (unfold live; congruence).
  destruct (P3 cur c Hc Hlive) as ([S1 S2 S3 S4 S5] & _).
  destruct (find_index is_unused (ptable s)) as [np|] eqn:Hnp.
  2: { destruct (allocproc_full me fk tr s Hr Hnp) as (s' & Hal & Hr' & Hpt & He).
       exists (-1), s', own, l. unfold fork. rewrite (bind_ok _ _ _ _ _ Hal), Hpt, He. split_and!; try done.
       left. split_and!; [done|done|by left]. }
  assert (Hnp0 : 0 ≤ npages (p_sz c)) by (unfold npages; Z.div_mod_to_equations; lia).
  pose proof (find_index_Some _ _ _ Hnp) as ((q & Hq & Hu) & _).
  unfold is_unused in Hu. rewrite bool_decide_eq_true in Hu.
  assert (Hfree : ∀ p, ptable s !! np = Some p → ¬ live p) by (intros p Hp Hl; apply Hl; congruence).
  destruct l as [|ks l1].
  { destruct (allocproc_nomem me fk tr s np q (ext s) Hr Hnp Hq) as (s' & q' & Hal & Hr' & He & Hpt & Hq').
    { cbn. erewrite on_kmem_run by (apply (kalloc_empty kend), (vi_kmem _ _ _ _ P1)). by destruct (ext s). }
    exists (-1), s', own, []. unfold fork. rewrite (bind_ok _ _ _ _ _ Hal), Hpt, He.
    split_and!; try done; [|left; split_and!; [done|done|right; simpl; lia]].
    apply proc_mem_free; [done|done|]. unfold live. congruence. }
  destruct (inv_kalloc kend own ks l1 (mem_of s) P1) as (k1 & Hka & Hm1 & Hvm1 & Hnone & Hok).
  assert (Hks0 : ks ≠ 0) by (apply (page_ok_pos kend) in Hok; unfold KERNBASE in Hok; lia).
  assert (Hpg1 : <[ks := Loose]> own !! p_pgdir c = Some Dir).
  { rewrite lookup_insert_ne; [done|]. intros ->. congruence. }
  destruct (copyuvm_run kend Hkend kdata Hdata (<[ks := Loose]> own) l1 k1 (p_pgdir c) (p_sz c) Hvm1 Hpg1)
    as (pg & k2 & own2 & l2 & Hcp & Hvm2 & Hdat & Hpts & Hcase); [lia| |].
  { intros w Hw. rewrite Hm1. by apply S4. }
  rewrite Hm1 in Hdat, Hpts.
  assert (Hsame : ptes_same own (memory (mem_of s)) (memory k2)).
  { intros d v Hd Hv. apply Hpts; [|done]. rewrite lookup_insert_ne; [done|]. intros ->. congruence. }
  assert (Hkal : k_kalloc (ext s) = Ok ks (Kenv k1 (ke_fs (ext s)) (ke_hw (ext s)))).
  { cbn. by apply on_kmem_run. }
  assert (Hcpy : k_copyuvm (p_pgdir c) (p_sz c) (Kenv k1 (ke_fs (ext s)) (ke_hw (ext s))) =
                 Ok pg (Kenv k2 (ke_fs (ext s)) (ke_hw (ext s)))).
  { cbn. by apply (on_kmem_run (copyuvm kend kdata (p_pgdir c) (p_sz c)) (Kenv k1 _ _)). }
  destruct Hcase as [(-> & -> & Hfew)|(Hpg0 & Hpgn & Hpgd & Hgr & Hpages & Hrest & _)].
  - (* the address space cannot be copied *)
    destruct (inv_kfree kend _ l2 k2 ks Hvm2 (lookup_insert_eq _ _ _)) as (k3 & Hkf & Hvm3 & _ & Hpv).
    rewrite delete_insert_id in Hvm3 by done.
    destruct (fork_nocopy me fk tr s cur c np q ks _ _ (Kenv k3 (ke_fs (ext s)) (ke_hw (ext s))) Hr Hc Hcs Hnp Hq Hkal Hks0 Hcpy)
      as (s' & q' & Hrun & Hr' & He & Hpt & Hq').
    { cbn. by apply (on_kmem_run (kfree kend ks) (Kenv k2 _ _)). }
    exists (-1), s', own, (ks :: l2). rewrite Hpt, He. cbn [ke_mem ke_hw].
    split_and!; try done; [|left; split_and!; [done|done|right; unfold npages; simpl length; lia]].
    apply proc_mem_free; [|done|unfold live; congruence].
    eapply proc_mem_grow; [exact Hpm|done|by auto|by auto|].
    intros d v Hd Hv. rewrite Hpv; [by apply Hsame| |done]. rewrite lookup_insert_ne; [done|]. intros ->. congruence.
  - destruct (Hslots np q Hq Hu) as [Hqo [nm Hnm]].
    destruct (fork_run me fk tr s cur c np q f ks pg nm _ _ Hr Hc Hcs Hnp Hq Hqo Hco Hf Hkal Hks0 Hcpy Hpg0 Hnm)
      as (s' & n & Hrun & Hr' & [He1 He2] & _ & Hpt & Hn1 & _ & Hn2 & Hn3 & Hn4 & Hn5 & _).
    cbn [ke_mem ke_hw] in He1, He2.
    exists (nextpid s), s', own2, l2. unfold fork_result. rewrite Hpt, He1, He2.
    split; [done|]. split; [done|]. split; [|split; [done|right]].
    + eapply (proc_mem_new K own _ own2 (ks :: l1) l2); [exact Hpm|reflexivity|..]; rewrite ?Hn4, ?Hn5; try done.
      * by eapply lookup_lt_Some.
      * unfold live. congruence.
      * split; rewrite ?Hn3, ?Hn4, ?Hn5; try done.
        -- apply Hgr, lookup_insert_eq.
        -- intros w Hw. by eapply copied_present, Hpages.
        -- intros w Hw. by rewrite Hrest.
    + split; [done|]. exists np, n. split_and!; try done.
      * eapply data_same_mono; [|exact Hdat]. intros a r Ha. rewrite lookup_insert_ne; [done|]. intros ->. congruence.
      * intros w Hw. rewrite Hn4. destruct (Hpages w Hw) as (p & Hp1 & Hp). rewrite Hm1 in Hp.
        exists p. by apply lookup_insert_None in Hp1 as [Hp1 _].
Qed.

(** The stack and the address space of a process in use go back to the
    allocator. *)
Lemma free_process K own l pt k i z : proc_mem kend K own l pt k → pt !! i = Some z → live z →
  ∃ k1 k2 l', kfree kend (p_kstack z) k = Ok tt k1 ∧ freevm kend (p_pgdir z) k1 = Ok tt k2 ∧
    ∀ q, ¬ live q →
      proc_mem kend K (strip (p_pgdir z) (delete (p_kstack z) own)) l' (<[i := q]> pt) k2.
Proof.
  intros Hpm Hz Hl. pose proof Hpm as [P1 P2 P3 P4 P5]. destruct (P3 i z Hz Hl) as ([S1 S2 _ _ _] & HK1 & HK2).
  destruct (inv_kfree kend own l k (p_kstack z) P1 S1) as (k1 & Hkf & Hvm1 & _ & Hpv1).
  assert (Hd : delete (p_kstack z) own !! p_pgdir z = Some Dir).
  { rewrite lookup_delete_ne; [done|]. congruence. }
  destruct (freevm_run kend Hkend _ _ k1 (p_pgdir z) Hvm1 Hd) as (k2 & l' & Hfv & Hvm2 & _ & Hpv2 & _).
  exists k1, k2, l'. do 2 (split; [done|]). intros q Hq.
  assert (Hkeep : ∀ a r, own !! a = Some r → a ≠ p_kstack z → a ≠ p_pgdir z → r = Loose ∨ r = Dir →
    strip (p_pgdir z) (delete (p_kstack z) own) !! a = Some r).
  { intros a r Ha H1 H2 Hr. apply strip_Some. rewrite lookup_delete_ne by done. split; [done|].
    unfold of_dir. rewrite bool_decide_eq_false_2 by done. by destruct Hr as [->| ->]. }
  assert (Hcases : ∀ j p, <[i := q]> pt !! j = Some p → live p → j ≠ i ∧ pt !! j = Some p).
  { intros j p Hp Hlp. destruct (decide (j = i)) as [->|].
    - rewrite list_lookup_insert_eq in Hp by (by eapply lookup_lt_Some). injection Hp as <-. done.
    - rewrite list_lookup_insert_ne in Hp by done. done. }
  split; try done.
  - intros a Ha. destruct (P2 a Ha) as [Hr|Hr]; [left|right]; apply Hkeep; auto; congruence.
  - intros j p Hp Hlp. destruct (Hcases j p Hp Hlp) as [Hji Hp'].
    destruct (P3 j p Hp' Hlp) as (Hok & HK1' & HK2'). destruct (P4 j i p z Hji Hp' Hz Hlp Hl) as [N1 N2].
    split_and!; [|done..]. pose proof Hok as [T1 T2 _ _ _].
    eapply space_ok_mono; [done|done|apply Hkeep; auto; congruence..|].
    intros w Hw. unfold USERPAGES in Hw. rewrite Hpv2, Hpv1; [done|done|lia| |done|lia].
    rewrite lookup_delete_ne; [done|]. congruence.
  - intros j j' p p' Hjj Hp Hp' Hlp Hlp'. destruct (Hcases j p Hp Hlp), (Hcases j' p' Hp' Hlp'). by eapply (P4 j j').
  - intros a r [[Ha1 Ha]%lookup_delete_Some Hof]%strip_Some Hr.
    destruct (P5 a r Ha Hr) as [?|(j & p & Hp & Hlp & Hor)]; [by left|]. right. exists j, p.
    rewrite list_lookup_insert_ne; [done|]. intros <-. assert (p = z) as -> by congruence.
    destruct Hor as [->| ->]; [done|]. unfold of_dir in Hof. by rewrite bool_decide_eq_true_2 in Hof.
Qed.

(** The address space of one process changes, and nothing else. *)
Lemma proc_mem_resize K own own' l l' pt k k' i c n : proc_mem kend K own l pt k →
  pt !! i = Some c → live c → live n → p_kstack n = p_kstack c → p_pgdir n = p_pgdir c →
  vm_inv kend own' l' k' →
  (∀ a r, r = Loose ∨ r = Dir → own' !! a = Some r ↔ own !! a = Some r) →
  (∀ d v, own !! d = Some Dir → d ≠ p_pgdir c → 0 ≤ v < USERPAGES →
     pte_val (memory k') d v = pte_val (memory k) d v) →
  space_ok own' (memory k') n → proc_mem kend K own' l' (<[i := n]> pt) k'.
Proof.
  intros [P1 P2 P3 P4 P5] Hc Hl Hn E1 E2 Hvm Hroles Hpt Hsp.
  destruct (P3 i c Hc Hl) as (Hok & HK1 & HK2).
  assert (Hi : (i < length pt)%nat) by (by eapply lookup_lt_Some).
  assert (Hcases : ∀ j p, <[i := n]> pt !! j = Some p → live p →
    (j = i ∧ p = n) ∨ (j ≠ i ∧ pt !! j = Some p)).
  { intros j p Hp Hlp. destruct (decide (j = i)) as [->|]; [left|right].
    - rewrite list_lookup_insert_eq in Hp by done. split; congruence.
    - rewrite list_lookup_insert_ne in Hp by done. done. }
  split; try done.
  - intros a [Ha|Ha]%P2; [left|right]; apply Hroles; auto.
  - intros j p Hp Hlp. destruct (Hcases j p Hp Hlp) as [[-> ->]|[Hji Hp']]; [by rewrite E1, E2|].
    destruct (P3 j p Hp' Hlp) as (Hok' & HK1' & HK2'). destruct (P4 j i p c Hji Hp' Hc Hlp Hl) as [N1 N2].
    split_and!; [|done..]. pose proof Hok' as [T1 T2 _ _ _].
    eapply space_ok_mono; [done|done|apply Hroles; auto..|]. intros w Hw. by apply Hpt.
  - intros j j' p q Hjj Hp Hq Hlp Hlq.
    destruct (Hcases j p Hp Hlp) as [[-> ->]|[Hji Hp']], (Hcases j' q Hq Hlq) as [[-> ->]|[Hji' Hq']];
      rewrite ?E1, ?E2; [done|by eapply (P4 i j')|by eapply (P4 j i)|by eapply (P4 j j')].
  - intros a r Ha Hr. apply Hroles in Ha; [|done]. destruct (P5 a r Ha Hr) as [?|(j & p & Hp & Hlp & Hor)]; [by left|].
    right. destruct (decide (j = i)) as [->|Hne].
    + exists i, n. rewrite list_lookup_insert_eq, E1, E2 by done. assert (p = c) as -> by congruence. done.
    + exists j, p. by rewrite list_lookup_insert_ne by done.
Qed.

(** What [wait] leaves behind when it returns: nothing has changed, or a zombie
    child's slot is free and exactly its stack and its address space are gone. *)
Definition wait_result own own' s s' cur (r : Z) : Prop :=
  (r = -1 ∧ own' = own ∧ ptable s' = ptable s) ∨
  ∃ i z, ptable s !! i = Some z ∧ p_parent z = Some cur ∧ p_state z = ZOMBIE ∧ r = p_pid z ∧
    own' = strip (p_pgdir z) (delete (p_kstack z) own) ∧ ptable s' = <[i := reap z]> (ptable s).

(** [wait] on every branch. *)
Lemma wait_accounts K own l s cur p : inv K own l s → pt_ready s → ncli (pcpu s) = 0 →
  ptable s !! cur = Some p → live p →
  (∃ r s' own' l', wait me cur s = Ok r s' ∧ inv K own' l' s' ∧ wait_result own own' s s' cur r) ∨
  (∃ s', wait me cur s = Err Swtch s' ∧ inv K own l s').
Proof.
  intros Hpm Hr Hn Hp Hl.
  assert (Hz : ∀ i z, ptable s !! i = Some z → zombie_child cur z = true → live z).
  { intros i z _ Hzc. unfold zombie_child in Hzc. apply andb_true_iff in Hzc as [_ Hz].
    rewrite bool_decide_eq_true in Hz. unfold live. congruence. }
  destruct (wait_run me s cur p Hr Hn Hp) as [(i & z & s' & Hi & Hpar & Hst & _ & Hrun & _ & Hpt & e1 & He1 & He2)|[_ [H|H]]].
  - intros i z Hi Hzc. destruct (free_process K own l _ _ i z Hpm Hi (Hz i z Hi Hzc)) as (k1 & k2 & l' & H1 & H2 & _).
    eexists _, _. split; cbn; [by apply on_kmem_run|].
    by apply (on_kmem_run (freevm kend (p_pgdir z)) (Kenv k1 _ _)).
  - left. assert (Hlz : live z) by (unfold live; congruence).
    destruct (free_process K own l _ _ i z Hpm Hi Hlz) as (k1 & k2 & l' & H1 & H2 & Hinv).
    cbn in He1. rewrite (on_kmem_run _ _ _ _ H1) in He1. injection He1 as <-.
    cbn in He2. rewrite (on_kmem_run (freevm kend (p_pgdir z)) (Kenv k1 _ _) _ _ H2) in He2. injection He2 as He2.
    eexists _, s', _, l'. split; [exact Hrun|]. rewrite Hpt, <- He2. split; [apply Hinv; intros Hx; by apply Hx|].
    right. exists i, z. by split_and!.
  - left. destruct H as (_ & s' & Hrun & _ & Hpt & He). exists (-1), s', own, l. rewrite Hpt, He.
    split_and!; [done|done|]. left. done.
  - right. destruct H as (_ & _ & s' & Hrun & _ & He & Hpt). exists s'. split; [done|]. rewrite Hpt, He.
    apply (proc_mem_table kend K own l (ptable s)); [done|by rewrite length_insert|].
    intros j q q' Hq Hq'. destruct (decide (j = cur)) as [->|Hne].
    + rewrite list_lookup_insert_eq in Hq' by (by eapply lookup_lt_Some). injection Hq' as <-.
      assert (q = p) as -> by congruence. split; [|done]. split; [done|]. intros _. done.
    + rewrite list_lookup_insert_ne in Hq' by done. assert (q' = q) as -> by congruence. by split.
Qed.

(** [exit] up to the switch: the zombie keeps its stack and its address space
    until [wait]. *)
Lemma exit_accounts K own l s cur init p : inv K own l s → pt_ready s → ncli (pcpu s) = 0 →
  initproc s = Some init → init ≠ cur → ptable s !! cur = Some p → length (p_ofile p) = NOFILE →
  p_state p = RUNNING → ∃ s', exit me cur s = Err Swtch s' ∧ inv K own l s'.
Proof.
  intros Hpm Hr Hn Hip Hic Hp Ho Hst.
  destruct (exit_run me s cur init p Hr Hn Hip Hic Hp Ho Hst)
    as (s' & p' & Hrun & _ & [He _] & Hlen & Hp' & Hz & _ & _ & _ & Hsp & Hothers).
  exists s'. split; [done|]. rewrite He. apply (proc_mem_table kend K own l (ptable s)); [done|done|].
  intros i q q' Hq Hq'. unfold live. destruct (decide (i = cur)) as [->|Hne].
  - assert (q = p) as -> by congruence. assert (q' = p') as -> by congruence. split; [|done].
    rewrite Hz, Hst. by split.
  - destruct (Hothers i q Hne Hq) as (q2 & Hq2 & _ & Hsp2 & _ & Hst2).
    assert (q2 = q') as -> by congruence. split; [|done]. rewrite Hst2. case_decide as Hd; [|done].
    destruct Hd as [Hs _]. rewrite Hs. by split.
Qed.

(** [allocuvm] and [deallocuvm] on the address space of a process. *)
Lemma proc_mem_alloc K own own' l l' pt k k' i c n : proc_mem kend K own l pt k → pt !! i = Some c → live c →
  vm_inv kend own' l' k' → 0 ≤ p_sz c ≤ n → n < KERNBASE →
  alloc_done (p_pgdir c) (npages (p_sz c)) (npages n) own own' k k' →
  proc_mem kend K own' l' (<[i := set_sz n c]> pt) k'.
Proof.
  intros Hpm Hc Hl Hvm Hn Hn2 [[G1 G2] Hz Hp _]. destruct (pm_space _ _ _ _ _ _ Hpm i c Hc Hl) as ([S1 S2 S3 S4 S5] & _).
  unfold npages, KERNBASE, USERPAGES in *.
  eapply proc_mem_resize; [exact Hpm|done..| | |].
  - intros a r Hr. split; [|apply G1]. intros Ha. destruct (G2 a r Ha) as [?|[Hno Hd]]; [done|].
    unfold of_dir in Hd. destruct Hr as [->| ->]; rewrite orb_false_r, bool_decide_eq_true in Hd; congruence.
  - intros d v Hd Hne Hv. unfold USERPAGES in Hv. apply Hp; [done|lia|]. by intros [? _].
  - split; cbn [p_kstack p_pgdir p_sz set_sz]; unfold npages, USERPAGES, KERNBASE; [by apply G1..|lia| |].
    + intros w Hw. destruct (decide (w < (p_sz c + 4095) / 4096)).
      * rewrite Hp; [apply S4; lia|done|zlia|lia].
      * destruct (Hz w) as (q & _ & _ & -> & _); [lia|]. unfold user_pte. rewrite ?Z.lor_assoc. apply present_lor.
    + intros w Hw. rewrite Hp; [apply S5; zlia|done|zlia|lia].
Qed.

Lemma proc_mem_unalloc K own own' l l' pt k k' i c n : proc_mem kend K own l pt k → pt !! i = Some c → live c →
  vm_inv kend own' l' k' → alloc_failed (p_pgdir c) (npages (p_sz c)) n own own' k k' →
  proc_mem kend K own' l' pt k'.
Proof.
  intros Hpm Hc Hl Hvm [[M1 M2] Hp Ha _]. destruct (pm_space _ _ _ _ _ _ Hpm i c Hc Hl) as ([S1 S2 S3 S4 S5] & _).
  unfold npages, KERNBASE, USERPAGES in *. rewrite <- (list_insert_id pt i c) by done.
  assert (Hroles : ∀ a r, r = Loose ∨ r = Dir → own' !! a = Some r ↔ own !! a = Some r).
  { intros a r Hr. split.
    - intros H. destruct (M2 a r H) as [[? _]%drop_range_Some|[_ [j ->]]]; [done|]. by destruct Hr.
    - intros H. apply M1, drop_range_Some. split; [done|]. by destruct Hr as [->| ->]. }
  eapply proc_mem_resize; [exact Hpm|done..| |].
  - intros d v Hd Hne Hv. unfold USERPAGES in Hv. apply Hp; [done|lia|]. by intros [? _].
  - split; unfold npages, USERPAGES, KERNBASE; [apply Hroles; auto..|lia| |].
    + intros w Hw. rewrite Hp; [apply S4; lia|done|zlia|lia].
    + intros w Hw. destruct (decide (w < n)); [apply Ha; lia|]. rewrite Hp; [apply S5; lia|done|zlia|lia].
Qed.

Lemma proc_mem_dealloc K own l l' pt k k' i c n : proc_mem kend K own l pt k → pt !! i = Some c → live c →
  0 ≤ n < p_sz c → released kend (p_pgdir c) (npages n) (npages (p_sz c)) own l l' k k' →
  proc_mem kend K (drop_range (p_pgdir c) (npages n) (npages (p_sz c)) own) l' (<[i := set_sz n c]> pt) k'.
Proof.
  intros Hpm Hc Hl Hn [R1 R2 _ _]. destruct (pm_space _ _ _ _ _ _ Hpm i c Hc Hl) as ([S1 S2 S3 S4 S5] & _).
  assert (Hroles : ∀ a r, r = Loose ∨ r = Dir →
    drop_range (p_pgdir c) (npages n) (npages (p_sz c)) own !! a = Some r ↔ own !! a = Some r).
  { intros a r Hr. rewrite drop_range_Some. destruct Hr as [->| ->]; naive_solver. }
  unfold npages, KERNBASE, USERPAGES in *.
  eapply proc_mem_resize; [exact Hpm|done..| |].
  - intros d v Hd Hne Hv. unfold USERPAGES in Hv. rewrite R2, decide_False; [done|naive_solver|done|lia].
  - split; cbn [p_kstack p_pgdir p_sz set_sz]; unfold npages, USERPAGES, KERNBASE; [apply Hroles; auto..|lia| |].
    + intros w Hw. rewrite R2, decide_False; [apply S4; zlia|lia|done|zlia].
    + intros w Hw. rewrite R2; [|done|zlia]. case_decide as Hd; [done|].
      destruct (decide (w < (p_sz c + 4095) / 4096)); [|apply S5; lia].
      apply not_true_is_false. intros Hpr. apply Hd. split_and!; [done|lia|lia|done].
Qed.

(** Pages in use before and after keep their contents. *)
Definition kept own own' (m m' : mem) : Prop :=
  ∀ a r b, own !! a = Some r → own' !! a = Some r → is_data r → in_page a b → ld8 m' b = ld8 m b.

(** The end of [growproc]: the new size and the task state. *)
Lemma grow_finish (s : pst (kenv F)) cur c n : ptable s !! cur = Some c → p_kstack c ≠ 0 → p_pgdir c ≠ 0 →
  length (gdt (ke_hw (ext s))) = NSEGS →
  ∃ s', (upd cur (set_sz n) ;;; (q <- proc_at cur ;; lift (k_switchuvm q) ;;; ret 0)) s = Ok 0 s' ∧
    ptable s' = <[cur := set_sz n c]> (ptable s) ∧ mem_of s' = mem_of s.
Proof.
  intros Hc Hk Hp Hg. rewrite bind_upd. rewrite (alter_lookup_insert _ _ _ _ Hc).
  erewrite bind_proc_at by (cbn; apply list_lookup_insert_eq; by eapply lookup_lt_Some).
  erewrite bind_lift.
  2: { cbn [k_switchuvm the_ops vm_ops ext set_ptable]. unfold switch_task.
       cbn [p_kstack p_pgdir set_sz]. rewrite (proj2 (Z.eqb_neq _ _) Hk), (proj2 (Z.eqb_neq _ _) Hp).
       unfold on_khw, zoom. rewrite load_task_run by done. reflexivity. }
  by eexists.
Qed.

(** The size that [growproc] aims at: a negative one wraps around and leaves
    the process as it is. *)
Definition grown (sz n : Z) : Z := if 0 <=? sz + n then sz + n else sz.

(** What [growproc] leaves behind. *)
Definition grow_result K own l s cur c n (r : Z) s' own' l' : Prop :=
  inv K own' l' s' ∧ kept own own' (memory (mem_of s)) (memory (mem_of s')) ∧
  ((r = -1 ∧ ptable s' = ptable s ∧
    (KERNBASE ≤ p_sz c + n ∨ Z.of_nat (length l) ≤ 1025 + (npages (p_sz c + n) - npages (p_sz c)) ∨
     (p_sz c = 0 ∧ n < 0))) ∨
   (r = 0 ∧ ptable s' = <[cur := set_sz (grown (p_sz c) n) c]> (ptable s) ∧
    (0 < n → zero_pages (p_pgdir c) (npages (p_sz c)) (npages (p_sz c + n)) own own' (mem_of s')))).

Lemma grow_unchanged K own l s cur c n r s' : inv K own l s → ptable s !! cur = Some c →
  ptable s' = ptable s → mem_of s' = mem_of s → (r = -1 ∧ (KERNBASE ≤ p_sz c + n ∨ (p_sz c = 0 ∧ n < 0))) ∨ (r = 0 ∧ n ≤ 0 ∧ grown (p_sz c) n = p_sz c) →
  grow_result K own l s cur c n r s' own l.
Proof.
  intros Hpm Hc Hpt Hm Hr. unfold grow_result. rewrite Hpt, Hm. split; [done|]. split; [by intros a q b|].
  destruct Hr as [[-> Hr]|(-> & Hn & ->)]; [left; split_and!; [done|done|destruct Hr; auto]|right]. split_and!; [done| |lia].
  rewrite list_insert_id; [done|]. by destruct c.
Qed.

Lemma live_space K own l s i c : inv K own l s → ptable s !! i = Some c → live c →
  space_ok own (memory (mem_of s)) c ∧ p_kstack c ≠ 0 ∧ p_pgdir c ≠ 0.
Proof.
  intros [P1 _ P3 _ _] Hc Hl. destruct (P3 i c Hc Hl) as (Hok & _). split; [done|]. destruct Hok as [S1 S2 _ _ _].
  split; intros E; rewrite E in *;
    [apply (vi_page _ _ _ _ P1) in S1 as [S1 _]; revert S1|apply (vi_page _ _ _ _ P1) in S2 as [S2 _]; revert S2];
    intros [? ?]%page_ok_pos; done.
Qed.

Section growproc.
Variables (K : gset Z) (own : gmap Z role) (l : list Z) (s : pst (kenv F)) (cur : nat) (c : proc) (n : Z).
Hypotheses (Hpm : inv K own l s) (Hc : ptable s !! cur = Some c) (Hl : live c).
Hypothesis Hg : length (gdt (ke_hw (ext s))) = NSEGS.

Lemma growproc_up : 0 < n < 2 ^ 31 →
  ∃ r s' own' l', growproc cur n s = Ok r s' ∧ grow_result K own l s cur c n r s' own' l'.
Proof.
  intros Hn. pose proof Hpm as [P1 _ _ _ _].
  destruct (live_space _ _ _ _ _ _ Hpm Hc Hl) as ([S1 S2 S3 S4 S5] & Hk & Hp). unfold KERNBASE in S3.
  unfold growproc. erewrite bind_proc_at by done. cbv zeta. rewrite (proj2 (Z.ltb_lt 0 n)) by lia.
  rewrite (u32_small (p_sz c + n)) by lia.
  destruct (decide (p_sz c + n < KERNBASE)) as [Hb|Hb].
  2: { erewrite bind_lift.
       2: { cbn. apply on_kmem_run. unfold allocuvm. by rewrite (proj2 (Z.leb_le _ _)) by lia. }
       cbn [Z.eqb]. eexists (-1), _, own, l. split; [reflexivity|]. apply grow_unchanged; auto.
       left. split; [done|left; lia]. }
  destruct (allocuvm_run kend Hkend own l (mem_of s) (p_pgdir c) (p_sz c) (p_sz c + n) P1 S2)
    as (r & k' & own' & l' & Hrun & Hvm & Hcase); [lia|done| |].
  { intros w Hw. apply S5. unfold npages, USERPAGES, KERNBASE in *. zlia. }
  erewrite bind_lift by (cbn; by apply on_kmem_run). destruct Hcase as [[-> Hd]|(-> & Hf & Hfew)].
  - rewrite (proj2 (Z.eqb_neq _ _)) by lia.
    destruct (grow_finish (set_ext (Kenv k' (ke_fs (ext s)) (ke_hw (ext s))) s) cur c (p_sz c + n))
      as (s' & Hfin & Hpt & Hm); [done..|].
    exists 0, s', own', l'. split; [done|]. unfold grow_result. rewrite Hpt, Hm. cbn [ext set_ext ke_mem ptable].
    split; [|split; [|right; split_and!]].
    + by eapply proc_mem_alloc; [exact Hpm|done..|lia| |].
    + intros a q b Ha _. by apply (ad_data _ _ _ _ _ _ _ Hd).
    + done.
    + unfold grown. by rewrite (proj2 (Z.leb_le _ _)) by lia.
    + intros _. apply Hd.
  - cbn [Z.eqb]. eexists (-1), _, own', l'. split; [reflexivity|]. split; [|split; [|left; split_and!; [done|done|by auto]]].
    + by eapply proc_mem_unalloc; [exact Hpm|..].
    + intros a q b _ Ha Hq. apply (af_data _ _ _ _ _ _ _ Hf a q b); [|done].
      destruct (proj2 (af_own _ _ _ _ _ _ _ Hf) a q Ha) as [?|[_ [j ->]]]; [done|].
      destruct Hq as [?|(? & ? & ?)]; done.
Qed.

Lemma growproc_down : - 2 ^ 31 ≤ n < 0 → p_sz c + n ≠ 0 →
  ∃ r s' own' l', growproc cur n s = Ok r s' ∧ grow_result K own l s cur c n r s' own' l'.
Proof.
  intros Hn Hne. pose proof Hpm as [P1 _ _ _ _].
  destruct (live_space _ _ _ _ _ _ Hpm Hc Hl) as ([S1 S2 S3 S4 S5] & Hk & Hp). unfold KERNBASE in S3.
  unfold growproc. erewrite bind_proc_at by done. cbv zeta.
  rewrite (proj2 (Z.ltb_ge 0 n)), (proj2 (Z.ltb_lt n 0)) by lia.
  destruct (decide (0 ≤ p_sz c + n)) as [Hb|Hb].
  - rewrite (u32_small (p_sz c + n)) by lia.
    destruct (dealloc_run kend Hkend own l (mem_of s) (p_pgdir c) (p_sz c) (p_sz c + n) P1 S2)
      as (k' & l' & Hrun & Hrel); [lia|unfold KERNBASE; lia|].
    erewrite bind_lift by (cbn; by apply on_kmem_run). rewrite (proj2 (Z.eqb_neq _ _)) by lia.
    destruct (grow_finish (set_ext (Kenv k' (ke_fs (ext s)) (ke_hw (ext s))) s) cur c (p_sz c + n))
      as (s' & Hfin & Hpt & Hm); [done..|].
    eexists 0, s', _, l'. split; [done|]. unfold grow_result. rewrite Hpt, Hm. cbn [ext set_ext ke_mem ptable].
    split; [|split; [|right; split_and!; [done| |lia]]].
    + eapply proc_mem_dealloc; [exact Hpm|done..|lia|done].
    + intros a q b _. apply (rel_data _ _ _ _ _ _ _ _ _ Hrel).
    + unfold grown. by rewrite (proj2 (Z.leb_le _ _)) by lia.
  - assert (Hw : p_sz c ≤ u32 (p_sz c + n)).
    { unfold u32. rewrite <- (Z_mod_plus_full _ 1), Z.mod_small; lia. }
    erewrite bind_lift.
    2: { cbn. apply on_kmem_run. unfold deallocuvm. by rewrite (proj2 (Z.leb_le _ _) Hw). }
    assert (Hgr : grown (p_sz c) n = p_sz c) by (unfold grown; by rewrite (proj2 (Z.leb_gt _ _)) by lia).
    destruct (Z.eqb_spec (p_sz c) 0).
    + eexists (-1), _, own, l. split; [reflexivity|]. apply grow_unchanged; auto. left. split; [done|right; lia].
    + destruct (grow_finish (set_ext (Kenv (mem_of s) (ke_fs (ext s)) (ke_hw (ext s))) s) cur c (p_sz c))
        as (s' & Hfin & Hpt & Hm); [done..|].
      exists 0, s', own, l. split; [done|]. apply grow_unchanged; auto; [|right; split_and!; lia || done].
      rewrite Hpt. apply list_insert_id. cbn. rewrite Hc. by destruct c.
Qed.

(** [growproc] on every branch; shrinking to the empty address space is the
    case in which the size in the table is left behind. *)
Lemma growproc_accounts : - 2 ^ 31 ≤ n < 2 ^ 31 → n = 0 ∨ p_sz c + n ≠ 0 →
  ∃ r s' own' l', growproc cur n s = Ok r s' ∧ grow_result K own l s cur c n r s' own' l'.
Proof.
  intros Hn Hne. destruct (Z.lt_trichotomy n 0) as [?|[->|?]]; [apply growproc_down; lia| |apply growproc_up; lia].
  destruct (live_space _ _ _ _ _ _ Hpm Hc Hl) as ([_ _ S3 _ _] & Hk & Hp).
  unfold growproc. erewrite bind_proc_at by done. cbn [Z.ltb Z.compare].
  destruct (grow_finish s cur c (p_sz c)) as (s' & Hfin & Hpt & Hm); [done..|].
  exists 0, s', own, l. split; [done|]. apply grow_unchanged; auto.
  - rewrite Hpt. apply list_insert_id. rewrite Hc. by destruct c.
  - right. split_and!; [done..|]. unfold grown. rewrite Z.add_0_r. by destruct (0 <=? p_sz c).
Qed.

End growproc.


End operations.

(** ** A machine with one process *)

#[local] Existing Instance demo_pool.
#[local] Instance demo_fs_calls : fs_calls unit := {|
  fs_filedup f := ret f; fs_fileclose _ := ret tt; fs_idup i := ret i; fs_iput _ := ret tt;
  fs_namei _ := ret 1; fs_begin_op := ret tt; fs_end_op := ret tt; fs_iinit _ := ret tt;
  fs_initlog _ := ret tt
|}.
#[local] Instance demo_fs_total : fs_total unit.
Proof. split; by intros; eexists. Qed.

(** The address space of [VmProps] and one page for the stack. *)
Definition one_proc : proc :=
  set_tf 128 (set_sz 100 (set_kstack 0x80403000 (set_pgdir demo_d (set_pid 1 (set_state RUNNING zero_proc))))).
Definition one_kst : kst := Kst demo_mem false true 0x80404000.
Definition one_own : gmap Z role := <[0x80403000 := Loose]> demo_own.
Definition one_free : list Z := [0x80404000; 0x80405000].
Definition one_hw : hwcpu := Hwcpu (replicate NSEGS (SEG16 0 0 0 0)) (Taskstate 0 0 0) (0, 0) (0, 0) 0 0.
Definition one_state : pst (kenv unit) :=
  Pst [one_proc; zero_proc] initlock (Cpu 0 0 false true) (Some 0%nat) 2 {[ 128 := demo_frame ]} ∅ ∅
      (Rbtree 0 0 0 None None) true (Kenv one_kst tt one_hw).

Lemma one_vm_inv : vm_inv demo_kend one_own one_free one_kst.
Proof.
  destruct (inv_kalloc demo_kend demo_own 0x80403000 one_free demo_kst demo_inv) as (k1 & Hk & _ & Hvm & _).
  assert (k1 = one_kst) as -> by (vm_compute in Hk; by injection Hk as <-). exact Hvm.
Qed.

Lemma one_inv : proc_mem demo_kend ∅ one_own one_free [one_proc; zero_proc] one_kst.
Proof.
  assert (Hcases : ∀ i p, [one_proc; zero_proc] !! i = Some p → live p → i = 0%nat ∧ p = one_proc).
  { intros [|[|]] p [= <-] Hl; [done|]. by destruct Hl. }
  split.
  - apply one_vm_inv.
  - set_solver.
  - intros i p Hp Hl. destruct (Hcases i p Hp Hl) as [-> ->]. split; [|set_solver].
    split; [by vm_compute..|split; by vm_compute| |].
    + intros w Hw. change (npages (p_sz one_proc)) with 1 in Hw. assert (w = 0) as -> by lia. by vm_compute.
    + intros w Hw. change (npages (p_sz one_proc)) with 1 in Hw. unfold USERPAGES in Hw.
      change (memory one_kst) with demo_mem. change (p_pgdir one_proc) with demo_d. unfold pte_val.
      rewrite demo_word by (zlia || by vm_compute || auto).
      destruct (decide (w / 1024 = 0)) as [E|]; [|done]. cbn [decide decide_rel Z.eq_dec].
      rewrite decide_True by done. change (present 0x401007) with true. cbv iota.
      change (page_of 0x401007) with demo_t. rewrite demo_word by (zlia || by vm_compute || auto).
      rewrite decide_False by zlia. done.
  - intros i j p q Hij Hp Hq Hlp Hlq. destruct (Hcases i p Hp Hlp), (Hcases j q Hq Hlq). congruence.
  - intros a r Ha Hr. right. exists 0%nat, one_proc. split_and!; [done|done|].
    unfold one_own in Ha. apply lookup_insert_Some in Ha as [(<- & _)|[_ Ha]]; [by left|].
    apply demo_own_cases in Ha as [[-> _]|[[_ ->]|[_ ->]]]; [by right|by destruct Hr..].
Qed.

#[local] Instance one_ops : kernel_ops (kenv unit) := vm_ops demo_kend demo_kdata 0 0 0.

