(* ===== verification/BootMem.v ===== *)
(** Memory at boot: kinit1 and kinit2 of kalloc.c, inituvm of vm.c

    At boot the pool of pages that the allocator manages grows: [freerange] adds
    the pages of a range to it.  The lemmas here run that code, the stores of
    main.c below the kernel's end and [inituvm] from states in order, with the
    pool as an argument.  [userinit] of proc.c then adds the first process to the
    invariant [proc_mem]. *)

From stdpp Require Import gmap list numbers strings.
From Stdlib Require Import ZArith Lia.
From S2P Require Import Prelude Mem Memlayout StringC Kalloc Cpu ProcData Rbtree Proc ProcSpec.
From S2P Require Import Vm VmInv VmSpec VmProps Segment ProcMem.

Section boot_memory.
Variable kend : Z.
Hypothesis Hkend : KERNBASE < kend.
Implicit Types (own : gmap Z role) (l : list Z) (s : kst) (P : gset Z).

Abbreviation vm_inv_of P := (vm_inv (Hpool := P) kend).

(** A page that nobody knew of. *)
Lemma inv_adopt P own l s p : vm_inv_of P own l s → page_ok kend p → p ∉ P →
  vm_inv_of ({[p]} ∪ P) (<[p := Loose]> own) l s.
Proof.
  intros Hinv Hok Hp. pose proof Hinv as [I1 I2 I3 I4 I5 I6 I7].
  assert (Hnone : own !! p = None).
  { destruct (own !! p) as [r|] eqn:E; [|done]. destruct Hp. apply I7. right. by rewrite E. }
  assert (Hnl : p ∉ l) by (intros Hin; apply Hp, I7; by left).
  assert (Hkeep : ∀ q r, own !! q = Some r → <[p := Loose]> own !! q = Some r).
  { intros q r Hq. rewrite lookup_insert_ne; [done|]. intros ->. congruence. }
  split.
  - done.
  - intros q r [(<- & <-)|(_ & Hq)]%lookup_insert_Some; [done|by eapply I2].
  - intros d i [(_ & [=])|(_ & Hd)]%lookup_insert_Some Hi Hpr. by apply Hkeep, I3.
  - intros t d i [(_ & [=])|(_ & Ht)]%lookup_insert_Some. destruct (I4 _ _ _ Ht) as (? & ? & ? & ?).
    split_and!; try done; try lia. by apply Hkeep.
  - intros t d i j [(_ & [=])|(_ & Ht)]%lookup_insert_Some Hi Hj Hpr. apply Hkeep. by eapply I5.
  - intros q d v [(_ & [=])|(_ & Hq)]%lookup_insert_Some. destruct (I6 _ _ _ Hq) as (Hv & t & Ht & ?).
    split; [done|]. exists t. split; [by apply Hkeep|done].
  - intros q. unfold pool. rewrite elem_of_union, elem_of_singleton. rewrite lookup_insert.
    case_decide as E; [subst q|]; [by split; auto|]. specialize (I7 q). unfold pool in I7. rewrite I7. naive_solver.
Qed.

(** [kfree] of such a page. *)
Lemma inv_free_new P own l s p : vm_inv_of P own l s → page_ok kend p → p ∉ P →
  ∃ s', kfree kend p s = Ok tt s' ∧ vm_inv_of ({[p]} ∪ P) own (p :: l) s' ∧
    (∀ b, ¬ in_page p b → ld8 (memory s') b = ld8 (memory s) b) ∧ ptes_same own (memory s) (memory s').
Proof.
  intros Hinv Hok Hp. pose proof (inv_adopt P own l s p Hinv Hok Hp) as Hinv'.
  assert (Hnone : own !! p = None).
  { destruct (own !! p) as [r|] eqn:E; [|done]. destruct Hp. apply (vi_pool _ _ _ _ Hinv). right. by rewrite E. }
  destruct (inv_kfree (Hpool := {[p]} ∪ P) kend _ l s p Hinv' (lookup_insert_eq _ _ _)) as (s' & Hrun & Hi & Hm & Hpv).
  rewrite delete_insert_id in Hi by done. exists s'. split_and!; [done..|].
  intros d v Hd Hv. apply Hpv; [|done]. rewrite lookup_insert_ne; [done|]. intros ->. congruence.
Qed.

(** [freerange] page by page. *)
Lemma free_pages vend n : ∀ fuel p P own l s, (n ≤ fuel)%nat → vm_inv_of P own l s →
  Forall (page_ok kend) (pages_from p n) → (∀ q, q ∈ pages_from p n → q ∉ P) →
  0 ≤ p + PGSIZE * Z.of_nat n → vend < p + PGSIZE * (Z.of_nat n + 1) →
  p + PGSIZE * Z.of_nat n ≤ vend ∨ n = O → p + PGSIZE * (Z.of_nat n + 1) < 4294967296 →
  ∃ s', freerange_loop kend fuel p vend s = Ok tt s' ∧
    vm_inv_of (list_to_set (pages_from p n) ∪ P) own (rev (pages_from p n) ++ l) s' ∧
    (∀ b, b < p → ld8 (memory s') b = ld8 (memory s) b) ∧ ptes_same own (memory s) (memory s').
Proof.
  unfold PGSIZE. induction n as [|n IH]; intros fuel p P own l s Hf Hinv Hok Hdisj H0 Hend Hle Hw.
  - exists s. split; [|split; [|done]].
    + destruct fuel; simpl; unfold PGSIZE; rewrite u32_small, (proj2 (Z.leb_gt _ _)) by lia; done.
    + cbn. by replace (∅ ∪ P) with P by set_solver.
  - destruct fuel as [|fuel]; [lia|]. cbn [pages_from] in Hok, Hdisj.
    apply Forall_cons_1 in Hok as [Hp Hok]. pose proof (page_ok_pos _ _ Hp) as [Hpr _]. unfold KERNBASE in Hpr.
    destruct (inv_free_new P own l s p Hinv Hp) as (s1 & Hk & Hinv1 & Hm1 & Hp1); [apply Hdisj; by left|].
    destruct (IH fuel (p + 4096) ({[p]} ∪ P) own (p :: l) s1) as (s2 & Hl & Hinv2 & Hm2 & Hp2); try lia; try done.
    { intros q Hq. apply not_elem_of_union. split; [|apply Hdisj; by right].
      apply pages_from_elem in Hq as (i & _ & ->). unfold PGSIZE. rewrite elem_of_singleton. lia. }
    exists s2. split_and!.
    + cbn [freerange_loop]. unfold PGSIZE. rewrite u32_small, (proj2 (Z.leb_le _ _)) by lia. by rewrite (bind_ok _ _ _ _ _ Hk).
    + cbn [pages_from rev list_to_set]. rewrite <- app_assoc. unfold PGSIZE.
      by replace ({[p]} ∪ list_to_set (pages_from (p + 4096) n) ∪ P)
        with (list_to_set (pages_from (p + 4096) n) ∪ ({[p]} ∪ P)) by set_solver.
    + intros b Hb. rewrite Hm2, Hm1; [done| |lia]. unfold in_page. lia.
    + intros d v Hd Hv. by rewrite Hp2, Hp1.
Qed.

(** The whole pages of a range. *)
Definition pages_in (vstart vend : Z) : list Z :=
  pages_from (PGROUNDUP vstart) (Z.to_nat ((vend - PGROUNDUP vstart) / PGSIZE)).

Lemma pages_in_elem vstart vend q : KERNBASE ≤ vstart ≤ vend → vend ≤ KERNBASE + PHYSTOP →
  q ∈ pages_in vstart vend ↔ q mod 4096 = 0 ∧ vstart ≤ q ∧ q + 4096 ≤ vend.
Proof.
  intros Hs He. unfold KERNBASE, PHYSTOP in *. unfold pages_in. rewrite pages_from_elem. unfold PGSIZE.
  assert (Hr : PGROUNDUP vstart = 4096 * ((vstart + 4095) / 4096)) by (apply PGROUNDUP_div; lia). rewrite Hr. split.
  - intros (i & Hi & ->). Z.div_mod_to_equations; lia.
  - intros (Hq & ? & ?). exists (Z.to_nat ((q - 4096 * ((vstart + 4095) / 4096)) / 4096)). Z.div_mod_to_equations; lia.
Qed.

Lemma pages_in_length vstart vend : KERNBASE ≤ vstart ≤ vend → vend ≤ KERNBASE + PHYSTOP →
  (vend - vstart) / 4096 - 1 ≤ Z.of_nat (length (pages_in vstart vend)).
Proof.
  intros Hs He. unfold KERNBASE, PHYSTOP in *. unfold pages_in, PGSIZE.
  assert (Hlen : ∀ n p, length (pages_from p n) = n) by (induction n as [|n IH]; intros p; simpl; congruence).
  rewrite Hlen, PGROUNDUP_div by lia. Z.div_mod_to_equations; lia.
Qed.

Lemma freerange_run P own l s vstart vend : vm_inv_of P own l s → kend ≤ vstart ≤ vend →
  vend ≤ KERNBASE + PHYSTOP → (∀ q, q ∈ P → q < vstart ∨ vend ≤ q) →
  ∃ s', freerange kend vstart vend s = Ok tt s' ∧
    vm_inv_of (list_to_set (pages_in vstart vend) ∪ P) own (rev (pages_in vstart vend) ++ l) s' ∧
    low_same kend (memory s) (memory s') ∧ ptes_same own (memory s) (memory s').
Proof.
  intros Hinv Hs He Hdisj. pose proof (λ q, pages_in_elem vstart vend q ltac:(lia) He) as Hin.
  unfold KERNBASE, PHYSTOP in *.
  assert (Hr : PGROUNDUP vstart = 4096 * ((vstart + 4095) / 4096)) by (apply PGROUNDUP_div; lia).
  set (n := Z.to_nat ((vend - PGROUNDUP vstart) / PGSIZE)).
  assert (Hn : Z.of_nat n = Z.max 0 ((vend - PGROUNDUP vstart) / 4096)) by (unfold n, PGSIZE; lia).
  destruct (free_pages vend n (Z.to_nat (vend / PGSIZE + 1)) (PGROUNDUP vstart) P own l s)
    as (s' & Hrun & Hinv' & Hm & Hp); unfold PGSIZE; try done.
  - Z.div_mod_to_equations; lia.
  - apply Forall_forall. intros q Hq%Hin. unfold page_ok, PGSIZE, KERNBASE, PHYSTOP. lia.
  - intros q Hq HP. apply Hin in Hq. apply Hdisj in HP. lia.
  - Z.div_mod_to_equations; lia.
  - Z.div_mod_to_equations; lia.
  - destruct (decide (n = 0%nat)); [by right|left]. Z.div_mod_to_equations; lia.
  - Z.div_mod_to_equations; lia.
  - exists s'. split_and!; [done|done| |done]. intros b Hb. apply Hm. Z.div_mod_to_equations; lia.
Qed.

(** [use_lock] is no matter of the invariant. *)
Lemma inv_use_lock P own l s b : vm_inv_of P own l s → vm_inv_of P own l (set_use_lock b s).
Proof. intros [I1 I2 I3 I4 I5 I6 I7]. by split. Qed.

(** Stores below the kernel's end. *)
Lemma inv_low P own l s m' : vm_inv_of P own l s → (∀ b, kend ≤ b → ld8 m' b = ld8 (memory s) b) →
  vm_inv_of P own l (set_memory m' s) ∧ ptes_same own (memory s) m'.
Proof.
  intros Hinv Hm. pose proof Hinv as [I1 I2 I3 I4 I5 I6 I7].
  assert (Hw : ∀ q r i, own !! q = Some r → 0 ≤ i < 1024 → word m' q i = word (memory s) q i).
  { intros q r i Hq Hi. destruct (I2 q r Hq) as [[_ [? _]] _]. apply ld32_ext. intros b Hb. apply Hm. lia. }
  split.
  - destruct s as [m lk ul fl]. cbn [memory set_memory] in *. split; try done.
    + destruct I1 as (Hch & Hnd & Hok & Hlk). split_and!; try done. cbn in *. eapply chain_ext; [|exact Hch].
      intros q a Hq Ha. symmetry. apply Hm. rewrite Forall_forall in Hok. destruct (Hok q Hq) as (_ & ? & _).
      unfold in_page in Ha. lia.
    + intros d i Hd Hi. cbn [memory set_memory]. rewrite (Hw d Dir) by done. by apply I3.
    + intros t d i Ht. destruct (I4 _ _ _ Ht) as (Hd & Hi & ? & ?). cbn [memory set_memory]. by rewrite (Hw d Dir) by done.
    + intros t d i j Ht Hi Hj. cbn [memory set_memory]. rewrite (Hw t (Tab d i) j) by done. by apply I5.
    + intros q d v Hq. destruct (I6 _ _ _ Hq) as (Hv & t & Ht & ?). split; [done|]. exists t. split; [done|].
      cbn [memory set_memory]. rewrite (Hw t _ _ Ht) by (apply Z.mod_pos_bound; lia). done.
  - intros d v Hd Hv. apply (pte_val_ext kend own l s Hinv); [done|done|..].
    + intros i Hi. by eapply Hw.
    + intros t i j Ht Hj. by eapply Hw.
Qed.

(** [inituvm]: the first page holds the code and zeros. *)
Lemma inituvm_run P own l s d init sz : vm_inv_of P own l s → own !! d = Some Dir → (2 ≤ length l)%nat →
  present (pte_val (memory s) d 0) = false → 0 ≤ sz < 4096 → 0 ≤ init → init + sz ≤ kend → kend < 4294967296 →
  ∃ s' own' l' p, inituvm d init sz s = Ok tt s' ∧ vm_inv_of P own' l' s' ∧ grows d own own' ∧
    own !! p = None ∧ own' !! p = Some (User d 0) ∧ low_same kend (memory s) (memory s') ∧
    (∀ d' v, own !! d' = Some Dir → 0 ≤ v < 1048576 →
       pte_val (memory s') d' v = if decide (d' = d ∧ v = 0) then user_pte p else pte_val (memory s) d' v) ∧
    ∀ b, 0 ≤ b < 4096 → ld8 (memory s') (p + b) = if decide (b < sz) then ld8 (memory s) (init + b) else 0.
Proof.
  intros Hinv Hd Hl Habs Hsz Hi He Hk32. destruct l as [|p [|p2 l]]; simpl in Hl; [lia|lia|].
  unfold inituvm. rewrite (proj2 (Z.leb_gt _ _)) by (unfold PGSIZE; lia).
  destruct (grow_round kend own p (p2 :: l) s d 0 (Z.lor PTE_W PTE_U) (memset (memory s) p 0 PGSIZE) Hinv Hd)
    as (s1 & Hk & Hm1 & Hp0 & Hnone & Hinv2 & _ & _ & Hcase); [unfold USERPAGES; lia|done|done|intros b Hb; by apply fill_other|].
  rewrite (bind_ok _ _ _ _ _ Hk), (proj2 (Z.eqb_neq _ _)) by done.
  unfold fill. rewrite bind_modify, Hm1. set (s2 := set_memory (memset (memory s) p 0 PGSIZE) s1) in *.
  destruct Hcase as [[_ [=]]|(s3 & own3 & l3 & Hrun & Hinv3 & Hgrow & Hp3 & Hmore3 & Hpv3 & Hdat3 & Hcont & Hlow3)].
  rewrite Z.mul_0_r in Hrun. rewrite (bind_ok _ _ _ _ _ Hrun). unfold move, modify.
  pose proof (own_page kend own3 l3 s3 Hinv3 p _ Hp3) as Hokp. pose proof (page_ok_pos _ _ Hokp) as [Hpr _]. unfold KERNBASE in *.
  set (m' := memmove (memory s3) p init sz).
  assert (Hout : ∀ b, ¬ in_page p b → ld8 m' b = ld8 (memory s3) b).
  { intros b Hb. unfold m'. rewrite ld8_memmove by lia. rewrite decide_False; [done|]. unfold in_page, PGSIZE in Hb. lia. }
  destruct (inv_scratch kend own3 l3 s3 Hinv3 p m') as [Hinv4 Hpv4]; [right; eauto|done|].
  exists (set_memory m' s3), own3, l3, p. split_and!; [done|done|done|done|done|..].
  - intros b Hb. cbn [memory set_memory]. rewrite Hout by (by apply low_page with kend). by apply Hlow3.
  - intros d' v Hd' Hv. cbn [memory set_memory]. rewrite Hpv4; [|by apply Hgrow|done]. rewrite Hpv3 by done.
    done.
  - intros b Hb. cbn [memory set_memory]. unfold m'. rewrite ld8_memmove by lia.
    case_decide as E1; case_decide as E2; try lia.
    + replace (init + (p + b - p)) with (init + b) by lia. apply Hlow3. lia.
    + rewrite Hcont by (unfold in_page, PGSIZE; lia). rewrite ld8_memset by (unfold PGSIZE; lia). 
      by rewrite decide_True by (unfold PGSIZE; lia).
Qed.

End boot_memory.

(** ** The first process *)

(** The trap frame that [userinit] builds: user segments, interrupts on, the
    stack at the end of the page, the program at 0. *)
Definition init_frame : trapframe :=
  let cs := Z.lor (Z.shiftl SEG_UCODE 3) DPL_USER in
  let ds := Z.lor (Z.shiftl SEG_UDATA 3) DPL_USER in
  Trapframe 0 0 0 0 0 0 0 0 0 0 ds ds 0 0 0 cs FL_IF PGSIZE ds.

Section userinit.
Context {E : Type} `{!kernel_ops E}.
Variables (me : nat) (fk tr : Z).
Implicit Types (s : pst E).

Lemma userinit_run s np q ks pg cwd nm e1 e2 e3 e4 : pt_ready s →
  find_index is_unused (ptable s) = Some np → ptable s !! np = Some q →
  k_kalloc (ext s) = Ok ks e1 → ks ≠ 0 → k_setupkvm e1 = Ok pg e2 → pg ≠ 0 →
  k_inituvm pg e2 = Ok tt e3 → safestrcpy (p_name q) str_initcode 16 = Some nm →
  k_namei str_slash e3 = Ok cwd e4 →
  ∃ s' n, userinit me fk tr s = Ok tt s' ∧ pt_ready s' ∧ ext s' = e4 ∧ initproc s' = Some np ∧
    ptable s' = <[np := n]> (ptable s) ∧ p_state n = RUNNABLE ∧ p_sz n = PGSIZE ∧ p_pgdir n = pg ∧
    p_kstack n = ks ∧ p_cwd n = cwd ∧ p_name n = nm ∧ p_pid n = nextpid s ∧
    frames s' !! p_tf n = Some init_frame.
Proof.
  intros Hr Hnp Hq Hka Hks Hset Hpg Hini Hnm Hnam.
  assert (Hlt : (np < length (ptable s))%nat) by (by eapply lookup_lt_Some).
  destruct (allocproc_run me fk tr s np q ks e1 Hr Hnp Hq Hka Hks) as (s1 & q1 & Hal & Hr1 & Hn1 & He1 & Hpt1 & Hfr1 &
    Hk1 & Hpid1 & Hof1 & Hnm1 & Hkl1 & Hcx1 & _).
  unfold userinit. rewrite (bind_ok _ _ _ _ _ Hal), bind_modify. unfold deref at 1. rewrite bind_ret.
  erewrite bind_lift by (cbn [ext set_initproc]; rewrite He1; exact Hset). rewrite bind_upd.
  cbn [ptable set_ext set_initproc]. rewrite Hpt1, (alter_lookup_insert _ _ _ q1) by (by apply list_lookup_insert_eq).
  rewrite list_insert_insert_eq, (proj2 (Z.eqb_neq _ _) Hpg).
  erewrite bind_lift by exact Hini. rewrite bind_upd. cbn [ptable set_ext set_ptable].
  rewrite (alter_lookup_insert (set_sz _) _ _ (set_pgdir pg q1)) by (by apply list_lookup_insert_eq).
  rewrite list_insert_insert_eq. erewrite bind_proc_at by (by apply list_lookup_insert_eq). rewrite bind_modify.
  cbn [p_name set_sz set_pgdir]. rewrite Hnm1, Hnm. unfold deref. rewrite bind_ret, bind_upd.
  cbn [ptable set_ext set_ptable set_frame].
  erewrite alter_lookup_insert by (by apply list_lookup_insert_eq). rewrite list_insert_insert_eq.
  erewrite bind_lift by exact Hnam. rewrite bind_upd. cbn [ptable set_ext set_ptable set_frame].
  erewrite alter_lookup_insert by (by apply list_lookup_insert_eq). rewrite list_insert_insert_eq.
  rewrite bind_acquire by exact Hr1. rewrite bind_upd.
  cbn [ptable set_ext set_ptable set_frame lock_state set_ptlock].
  erewrite alter_lookup_insert by (by apply list_lookup_insert_eq). rewrite list_insert_insert_eq.
  destruct Hr1 as [Hl1 Hc1]. erewrite (release_pt_run me (pcpu s1)) by done.
  eexists _, _. split; [reflexivity|]. split; [by apply pt_ready_unlock|].
  split; [done|]. split; [done|]. split; [reflexivity|]. simpl. rewrite lookup_insert_eq. by split_and!.
Qed.

End userinit.

Section first_process.
Context {F : Type} `{!fs_calls F}.
Variables kend kdata initcode initcode_size ts_addr : Z.
Hypothesis Hkend : KERNBASE < kend < 4294967296.
Hypothesis Hdata : kdata mod 4096 = 0 ∧ KERNLINK < kdata < KERNBASE + PHYSTOP.
Hypothesis Hinit : 0 ≤ initcode_size < 4096 ∧ 0 ≤ initcode ∧ initcode + initcode_size ≤ kend.
Variables (me : nat) (fk tr : Z).

#[local] Instance boot_ops : kernel_ops (kenv F) := vm_ops kend kdata initcode initcode_size ts_addr.

Implicit Types (own : gmap Z role) (l : list Z) (s : pst (kenv F)) (K P : gset Z).

(** The first page of process [n]: the program, then zeros. *)
Definition init_page own (m : mem) (n : proc) : Prop :=
  ∃ p, own !! p = Some (User (p_pgdir n) 0) ∧ pte_val m (p_pgdir n) 0 = user_pte p ∧
    ∀ b, 0 ≤ b < 4096 → ld8 m (p + b) = if decide (b < initcode_size) then ld8 m (initcode + b) else 0.

Lemma userinit_accounts P K own l s np q cwd f' nm :
  proc_mem (Hpool := P) kend K own l (ptable s) (ke_mem (ext s)) → pt_ready s → (1000 ≤ length l)%nat →
  find_index is_unused (ptable s) = Some np → ptable s !! np = Some q →
  safestrcpy (p_name q) str_initcode 16 = Some nm → fs_namei str_slash (ke_fs (ext s)) = Ok cwd f' →
  ∃ s' n own' l', userinit me fk tr s = Ok tt s' ∧ pt_ready s' ∧
    proc_mem (Hpool := P) kend K own' l' (ptable s') (ke_mem (ext s')) ∧
    ptes_same own (memory (ke_mem (ext s))) (memory (ke_mem (ext s'))) ∧
    (∀ a, own !! a = Some Dir → own' !! a = Some Dir) ∧ ke_hw (ext s') = ke_hw (ext s) ∧ initproc s' = Some np ∧ ptable s' = <[np := n]> (ptable s) ∧
    p_state n = RUNNABLE ∧ p_sz n = PGSIZE ∧ p_pid n = nextpid s ∧ p_cwd n = cwd ∧ p_name n = nm ∧
    frames s' !! p_tf n = Some init_frame ∧ init_page own' (memory (ke_mem (ext s'))) n.
Proof.
  intros Hpm Hr Hlen Hnp Hq Hnm Hnam. pose proof Hpm as [P1 P2 P3 P4 P5].
  pose proof (find_index_Some _ _ _ Hnp) as ((q0 & Hq0 & Hu) & _).
  unfold is_unused in Hu. rewrite bool_decide_eq_true in Hu. assert (q0 = q) as -> by congruence.
  destruct l as [|ks l1]; [simpl in Hlen; lia|]. cbn [length] in Hlen.
  destruct (inv_kalloc (Hpool := P) kend own ks l1 _ P1) as (k1 & Hka & Hm1 & Hvm1 & Hnone & Hok).
  pose proof (page_ok_pos kend ks Hok) as [_ Hks0].
  destruct (setupkvm_run (Hpool := P) kend (proj1 Hkend) kdata Hdata _ l1 k1 Hvm1)
    as (pg & k2 & own2 & l2 & Hset & Hvm2 & _ & Hpts2 & [(_ & _ & ?)|(Hpg0 & Hpgn & [Hmt1 Hmt2] & Hl2 & Hlow2 & Hz & _)]); [lia|].
  rewrite Hm1 in *.
  assert (Hpgd : own2 !! pg = Some Dir) by (apply Hmt1, lookup_insert_eq).
  destruct (inituvm_run kend P own2 l2 k2 pg initcode initcode_size Hvm2 Hpgd)
    as (k3 & own3 & l3 & p & Hini & Hvm3 & [G1 G2] & Hpn & Hp3 & Hlow3 & Hpv3 & Hcont); [lia| |lia..|].
  { by rewrite Hz by (unfold USERPAGES; lia). }
  set (e n := Kenv n (ke_fs (ext s)) (ke_hw (ext s))).
  destruct (userinit_run me fk tr s np q ks pg cwd nm (e k1) (e k2) (e k3) (Kenv k3 f' (ke_hw (ext s))) Hr Hnp Hq)
    as (s' & n & Hrun & Hr' & He & Hip & Hpt & Hst & Hsz & Hnpg & Hnks & Hncwd & Hnnm & Hnpid & Hfr);
    [by apply on_kmem_run|done|by apply (on_kmem_run (setupkvm kend kdata) (e k1))|done|..].
  { by apply (on_kmem_run (inituvm pg initcode initcode_size) (e k2)). }
  { done. }
  { cbn. unfold on_kfs, zoom. cbn [ke_fs e ke_mem ke_hw]. by rewrite Hnam. }
  assert (Hup : ∀ a r, own !! a = Some r → <[ks := Loose]> own !! a = Some r).
  { intros a r Ha. rewrite lookup_insert_ne; [done|]. intros ->. congruence. }
  assert (Hsame : ptes_same own (memory (ke_mem (ext s))) (memory k3)).
  { intros d v Hd Hv. apply Hup in Hd. assert (d ≠ pg) by congruence.
    rewrite Hpv3; [|apply Hmt1; by rewrite lookup_insert_ne|done]. rewrite decide_False by naive_solver.
    by apply Hpts2. }
  exists s', n, own3, l3. rewrite He, Hpt. cbn [ke_mem ke_hw]. split_and!; try done.
  - eapply (proc_mem_new (Hpool := P) kend K own (<[ks := Loose]> own) own3 (ks :: l1) l3);
      [exact Hpm|by rewrite Hnks|by rewrite Hnks|done|by rewrite Hnpg|rewrite Hnpg|..].
    + eapply grows_trans; [by apply grows_new|done].
    + intros q' Hq' Hl. apply Hl. congruence.
    + by eapply lookup_lt_Some.
    + unfold live. congruence.
    + done.
    + split; rewrite ?Hnks, ?Hnpg, ?Hsz.
      * apply G1, Hmt1. rewrite lookup_insert_ne; [apply lookup_insert_eq|]. intros ->. by rewrite lookup_insert_eq in Hpgn.
      * by apply G1.
      * unfold PGSIZE, KERNBASE. lia.
      * intros w Hw. change (npages PGSIZE) with 1 in Hw. replace w with 0 by lia. rewrite Hpv3 by done.
        rewrite decide_True by done. unfold user_pte. rewrite Z.lor_assoc. apply present_lor.
      * intros w Hw. change (npages PGSIZE) with 1 in Hw. rewrite Hpv3 by (done || (unfold USERPAGES in Hw; lia)).
        rewrite decide_False by lia. rewrite Hz by lia. done.
  - intros a Ha. apply G1, Hmt1. apply Hup in Ha. rewrite lookup_insert_ne; [done|congruence].
  - exists p. rewrite Hnpg. split; [done|]. split; [by rewrite Hpv3, decide_True by (done || lia)|].
    intros b Hb. rewrite Hcont by done. case_decide; [|done]. symmetry. apply Hlow3. lia.
Qed.

End first_process.
