(* ===== verification/Ulib.v ===== *)
(** The user library: ulib.c and printf.c, above the system call interface

    [usys] is what a user program sees of the kernel (user.h, the stubs of
    usys.S): each call takes the values of its arguments, strings without their
    terminators, and returns the result beside what the kernel stored through
    pointers.  The string routines work on arrays of bytes; they have no result
    when they would read or write outside an array. *)

From stdpp Require Import gmap list numbers strings.
From Stdlib Require Import ZArith Lia.
From S2P Require Import Prelude Mem StringC Fs.

(** The system calls. *)
Class usys (S : Type) := Usys {
  us_fork : M S Z;
  us_wait : M S Z;
  us_pipe : M S (Z * (Z * Z));
  us_write : Z → list Z → M S Z;
  us_read : Z → Z → M S (Z * list Z);
  us_close : Z → M S Z;
  us_kill : Z → M S Z;
  us_exec : list Z → list (list Z) → M S Z;
  us_open : list Z → Z → M S Z;
  us_mknod : list Z → Z → Z → M S Z;
  us_unlink : list Z → M S Z;
  us_fstat : Z → M S (Z * stat);
  us_link : list Z → list Z → M S Z;
  us_mkdir : list Z → M S Z;
  us_chdir : list Z → M S Z;
  us_dup : Z → M S Z;
  us_sbrk : Z → M S Z;
  us_sleep : Z → M S Z
}.

(** The characters of a string literal. *)
Definition chars (s : string) : list Z := (λ a, Z.of_N (Ascii.N_of_ascii a)) <$> String.list_ascii_of_string s.
Arguments chars s%_string.

(** ** ulib.c *)

(** [strcpy]: the new contents of the array at [s]. *)
Fixpoint strcpy (s t : list Z) : option (list Z) :=
  match s, t with
  | _ :: s', c :: t' => if c =? 0 then Some (0 :: s') else (λ r, c :: r) <$> strcpy s' t'
  | _, _ => None
  end.

Fixpoint strcmp (p q : list Z) : option Z :=
  match p, q with
  | c :: p', d :: q' => if negb (c =? 0) && (c =? d) then strcmp p' q' else Some (c - d)
  | _, _ => None
  end.

Fixpoint strlen (s : list Z) : option Z :=
  match s with
  | [] => None
  | c :: s' => if c =? 0 then Some 0 else (λ n, n + 1) <$> strlen s'
  end.

Definition memset (m : mem) (dst c n : Z) : mem := stosb m dst c (Z.to_nat n).

(** [strchr]: the index of the byte, or null. *)
Fixpoint strchr (s : list Z) (c : Z) : option (option nat) :=
  match s with
  | [] => None
  | d :: s' =>
      if d =? 0 then Some None
      else if d =? c then Some (Some 0%nat)
      else match strchr s' c with Some r => Some (S <$> r) | None => None end
  end.

(** The loop of [atoi] on an [int]. *)
Fixpoint atoi_loop (s : list Z) (n : Z) : option Z :=
  match s with
  | [] => None
  | c :: s' => if (48 <=? c) && (c <=? 57) then atoi_loop s' (s32 (n * 10 + c - 48)) else Some n
  end.
Definition atoi (s : list Z) : option Z := atoi_loop s 0.

Definition memmove (m : mem) (vdst vsrc n : Z) : mem := copy_up m vdst vsrc (Z.to_nat n).

Section ulib.
Context {S : Type} `{usys S}.

Definition uexit {A} : M S A := fail Exited.

(** The loop of [gets] from [i] on; [acc] holds the bytes stored.  Every round
    but the last stores a byte. *)
Fixpoint gets_loop (fuel : nat) (max i : Z) (acc : list Z) : M S (list Z) :=
  if i + 1 <? max then
    match fuel with
    | O => fail NoFuel
    | Datatypes.S fuel' =>
        ' (cc, bs) <- us_read 0 1 ;;
        if cc <? 1 then ret acc
        else
          c <- deref (head bs) ;;
          if (c =? 10) || (c =? 13) then ret (acc ++ [c])
          else gets_loop fuel' max (i + 1) (acc ++ [c])
    end
  else ret acc.

(** [gets]: the string stored in [buf]. *)
Definition gets_buf (max : Z) : M S (list Z) := gets_loop (Z.to_nat max) max 0 [].

(** [stat] of ulib.c: the result and the structure. *)
Definition stat_path (n : list Z) : M S (Z * option stat) :=
  fd <- us_open n 0 ;;
  if fd <? 0 then ret (-1, None)
  else
    ' (r, x) <- us_fstat fd ;;
    us_close fd ;;;
    ret (r, if r <? 0 then None else Some x).

End ulib.

(** ** printf.c *)

(** The digits 0-9 and A-F. *)
Definition udigits : list Z := chars "0123456789ABCDEF".

(** The digit loop of [printint]: the bytes of [buf], least significant first. *)
Fixpoint digit_loop (fuel : nat) (digits : list Z) (x base : Z) : option (list Z) :=
  match fuel with
  | O => None
  | S fuel' =>
      d ← digits !! Z.to_nat (x mod base);
      if x / base =? 0 then Some [d] else (λ r, d :: r) <$> digit_loop fuel' digits (x / base) base
  end.

(** A 32-bit word has at most 32 digits. *)
Definition printint (digits : list Z) (xx base : Z) (sgn : bool) : option (list Z) :=
  let neg := sgn && (xx <? 0) in
  let x := if neg then u32 (- xx) else u32 xx in
  buf ← digit_loop 32 digits x base;
  let buf := if neg : bool then buf ++ [45] else buf in
  Some (reverse buf).

(** The words of the argument list: an integer or a string pointer. *)
Inductive parg := AInt (x : Z) | AStr (s : option (list Z)).

(** [printf]: the bytes it prints; [pct] is the state after a percent sign.  A
    missing argument or one of the wrong kind is undefined. *)
Fixpoint format (fmt : list Z) (ap : list parg) (pct : bool) : option (list Z) :=
  match fmt with
  | [] => Some []
  | c :: fmt' =>
      if negb pct then
        if c =? 37 then format fmt' ap true else (λ r, c :: r) <$> format fmt' ap false
      else if c =? 100 then
        match ap with
        | AInt x :: ap' => d ← printint udigits (s32 x) 10 true; app d <$> format fmt' ap' false
        | _ => None
        end
      else if (c =? 120) || (c =? 112) then
        match ap with
        | AInt x :: ap' => d ← printint udigits (s32 x) 16 false; app d <$> format fmt' ap' false
        | _ => None
        end
      else if c =? 115 then
        match ap with
        | AStr s :: ap' => app (default (chars "(null)") s) <$> format fmt' ap' false
        | _ => None
        end
      else if c =? 99 then
        match ap with
        | AInt x :: ap' => (λ r, u8 x :: r) <$> format fmt' ap' false
        | _ => None
        end
      else if c =? 37 then (λ r, c :: r) <$> format fmt' ap false
      else (λ r, 37 :: c :: r) <$> format fmt' ap false
  end.

Section printf.
Context {S : Type} `{usys S}.

Definition putc (fd c : Z) : M S unit := us_write fd [c] ;;; ret tt.

Fixpoint putcs (fd : Z) (l : list Z) : M S unit :=
  match l with
  | [] => ret tt
  | c :: l' => putc fd c ;;; putcs fd l'
  end.

Definition printf (fd : Z) (fmt : list Z) (ap : list parg) : M S unit :=
  o <- deref (format fmt ap false) ;; putcs fd o.

End printf.

(** ** Numbers print and parse *)

Section numbers.

Lemma udigits_dec d : 0 ≤ d < 10 → udigits !! Z.to_nat d = Some (48 + d).
Proof.
  intros Hd.
  assert (Hall : forallb (λ i, bool_decide (udigits !! i = Some (48 + Z.of_nat i))) (seq 0 10) = true) by done.
  rewrite forallb_forall in Hall. specialize (Hall (Z.to_nat d)). rewrite bool_decide_eq_true in Hall.
  rewrite Hall by (apply in_seq; lia). f_equal. lia.
Qed.

(** The decimal numeral of [x], least significant digit first: digits, and no
    superfluous zero. *)
Definition numeral (x : Z) (ds : list Z) : Prop :=
  Forall (λ c, 48 ≤ c ≤ 57) ds ∧ ds ≠ [] ∧ (x = 0 → ds = [48]) ∧ (x ≠ 0 → last ds ≠ Some 48).

Lemma atoi_digit d s n : 0 ≤ d < 10 → 0 ≤ n * 10 + d < 2147483648 →
  atoi_loop (48 + d :: s) n = atoi_loop s (n * 10 + d).
Proof.
  intros Hd Hn. cbn [atoi_loop]. destruct (Z.leb_spec 48 (48 + d)); [|lia].
  destruct (Z.leb_spec (48 + d) 57); [|lia]. cbn [andb]. f_equal. rewrite s32_small by lia. lia.
Qed.

Lemma digit_loop_spec fuel : ∀ x, 0 ≤ x < 10 ^ Z.of_nat fuel → (0 < fuel)%nat →
  ∃ ds, digit_loop fuel udigits x 10 = Some ds ∧ numeral x ds ∧
    ∀ rest, x < 2147483648 → atoi_loop (reverse ds ++ rest) 0 = atoi_loop rest x.
Proof.
  induction fuel as [|fuel IH]; intros x Hx Hf; [lia|]. cbn [digit_loop].
  assert (Hm : 0 ≤ x mod 10 < 10) by (apply Z.mod_pos_bound; lia).
  rewrite udigits_dec by done. cbn [mbind option_bind]. rewrite Nat2Z.inj_succ, Z.pow_succ_r in Hx by lia.
  assert (Hd : x = x / 10 * 10 + x mod 10) by (rewrite Z.mul_comm; apply Z.div_mod; lia).
  destruct (Z.eqb_spec (x / 10) 0) as [E|E].
  - exists [48 + x mod 10]. split; [done|]. split.
    + split_and!; [repeat constructor; lia|done|intros ->; done|]. simpl. intros Hne [= E']. lia.
    + intros rest Hlt. rewrite reverse_singleton. cbn [app]. rewrite atoi_digit by lia. f_equal. lia.
  - assert (Hq : 0 ≤ x / 10 < 10 ^ Z.of_nat fuel) by (split; [apply Z.div_pos|]; lia).
    destruct (decide (fuel = 0%nat)) as [->|]; [simpl in *; lia|].
    destruct (IH (x / 10)) as (ds & Hds & (Hn1 & Hn2 & _ & Hn3) & Hat); [lia|lia|].
    rewrite Hds. cbn [fmap option_fmap option_map]. eexists. split; [done|]. split.
    + split_and!; [constructor; [lia|done]|done|lia|]. intros _. destruct ds as [|e ds]; [done|].
      rewrite last_cons_cons. by apply Hn3.
    + intros rest Hlt. rewrite reverse_cons, <-app_assoc, Hat by lia. cbn [app].
      rewrite atoi_digit by lia. f_equal. lia.
Qed.

End numbers.

(** Numbers print and parse back.  For every [int] n, [printf] of "%d"
    prints the canonical decimal numeral of n, behind a minus sign when n is
    negative, the least [int] included; and [atoi] of the digits gives the
    absolute value back whenever it is an [int]. *)
Theorem printf_atoi_roundtrip (n : Z) : -2147483648 ≤ n < 2147483648 →
  ∃ ds, format (chars "%d") [AInt (u32 n)] false = Some ((if decide (n < 0) then [45] else []) ++ reverse ds) ∧
    numeral (Z.abs n) ds ∧
    (n ≠ -2147483648 → atoi (reverse ds ++ [0]) = Some (Z.abs n)).
Proof.
  intros Hn. destruct (digit_loop_spec 32 (Z.abs n)) as (ds & Hds & Hnum & Hat); [simpl; lia|lia|].
  exists ds. split_and!; [|done|].
  - assert (Hs : s32 (u32 n) = n) by zlia. change (chars "%d") with [37; 100]. cbn [format negb Z.eqb Pos.eqb].
    rewrite Hs. unfold printint. cbn [andb].
    destruct (Z.ltb_spec n 0) as [Hneg|Hpos].
    + rewrite decide_True by done. rewrite u32_small by lia. replace (- n) with (Z.abs n) by lia.
      rewrite Hds. cbn [mbind option_bind fmap option_fmap option_map]. by rewrite reverse_app, app_nil_r.
    + rewrite decide_False by lia. rewrite u32_small by lia. replace n with (Z.abs n) by lia.
      rewrite Hds. cbn [mbind option_bind fmap option_fmap option_map]. by rewrite app_nil_r.
  - intros Hmin. unfold atoi. rewrite Hat by lia. done.
Qed.

Lemma printf_atoi_roundtrip_witness :
  -2147483648 ≤ -207 < 2147483648 ∧ atoi (chars "207" ++ [0]) = Some 207.
Proof.
  split; [lia|]. destruct (printf_atoi_roundtrip (-207)) as (ds & Hf & _ & Hat); [lia|].
  assert (Hd : format (chars "%d") [AInt (u32 (-207))] false = Some (45 :: chars "207")) by (vm_compute; reflexivity).
  assert (reverse ds = chars "207") as <- by (rewrite Hd in Hf; cbn [decide] in Hf; by injection Hf).
  apply Hat. lia.
Defined.
