(* ===== verification/Mkfs.v ===== *)
(** The file system image: mkfs.c

    The program runs on the host.  The image is the map of the sectors written
    so far; a read of a sector that was never written fails and ends the
    program ([Exited]), and so does an argument that cannot be opened.  The
    chunks that [read] returns of an input file are given.  The host is
    little-endian, so that [xshort] and [xint] store the bytes in its own order.

    [gst img fb] is what a kernel sees of the image [img] once the bitmap marks
    the first [fb] blocks.  Every write of mkfs is a step of this view that the
    lemmas on [bmap] and [writei] describe, so the image is shown to hold each
    file as the kernel reads it. *)

From stdpp Require Import gmap list numbers strings.
From Stdlib Require Import ZArith Lia.
From S2P Require Import Prelude Memlayout Block Bio Log StringC Fs FsSpec FsFile Ulib.

Definition NINODES : Z := 200.

Definition nbitmap : Z := FSSIZE / (BSIZE * 8) + 1.
Definition ninodeblocks : Z := NINODES / IPB + 1.
Definition nlog : Z := LOGSIZE.
Definition nmeta : Z := 2 + nlog + ninodeblocks + nbitmap.
Definition nblocks : Z := FSSIZE - nmeta.

(** Intel byte order. *)
Definition xshort (x : Z) : Z := u8 x + 256 * u8 (Z.shiftr x 8).
Definition xint (x : Z) : Z :=
  u8 x + 256 * u8 (Z.shiftr x 8) + 65536 * u8 (Z.shiftr x 16) + 16777216 * u8 (Z.shiftr x 24).

Definition mk_sb : superblock :=
  Superblock (xint FSSIZE) (xint nblocks) (xint NINODES) (xint nlog) (xint 2) (xint (2 + nlog)) (xint (2 + nlog + ninodeblocks)).

(** The image and the counters of inodes and blocks. *)
Record mkst := Mkst {
  img : gmap Z block;
  freeinode : Z;
  freeblock : Z
}.

Definition wsect (sec : Z) (buf : block) : M mkst unit :=
  modify (λ s, Mkst (<[sec := buf]> (img s)) (freeinode s) (freeblock s)).

Definition rsect (sec : Z) : M mkst block :=
  o <- gets (λ s, img s !! sec) ;;
  match o with Some buf => ret buf | None => fail Exited end.

Definition winode (inum : Z) (ip : dinode) : M mkst unit :=
  let bn := IBLOCK inum mk_sb in
  buf <- rsect bn ;;
  wsect bn (put_dinode buf (dip_off inum) ip).

Definition rinode (inum : Z) : M mkst dinode :=
  let bn := IBLOCK inum mk_sb in
  buf <- rsect bn ;;
  ret (get_dinode buf (dip_off inum)).

(** [ialloc] *)
Definition mk_ialloc (type : Z) : M mkst Z :=
  inum <- gets freeinode ;;
  modify (λ s, Mkst (img s) (u32 (inum + 1)) (freeblock s)) ;;;
  winode inum (Dinode (s16 (xshort type)) 0 0 (s16 (xshort 1)) (xint 0) (replicate (S NDIRECT) 0)) ;;;
  ret inum.

(** [balloc]: the loop over the blocks in use, and the write of the bitmap. *)
Fixpoint mark_used (n : nat) (i : Z) (buf : block) : block :=
  match n with
  | O => buf
  | S n' => mark_used n' (i + 1) (put8 buf (Z.to_nat (i / 8)) (Z.lor (get8 buf (Z.to_nat (i / 8))) (Z.shiftl 0x1 (i mod 8))))
  end.

Definition mk_balloc (used : Z) : M mkst unit :=
  if negb (used <? BSIZE * 8) then panic "assert"
  else wsect (sb_bmapstart mk_sb) (mark_used (Z.to_nat used) 0 zero_block).

(** [freeblock++] *)
Definition next_block : M mkst Z :=
  b <- gets freeblock ;;
  modify (λ s, Mkst (img s) (freeinode s) (u32 (b + 1))) ;;;
  ret b.

(** The block of [iappend] that entry [fbn] of the indirect block points to. *)
Definition append_entry (fbn : Z) (din : dinode) : M mkst (Z * dinode) :=
  let ind := xint (default 0 (d_addrs din !! NDIRECT)) in
  indirect <- rsect ind ;;
  let i := (4 * Z.to_nat (fbn - Z.of_nat NDIRECT))%nat in
  indirect <- (if get32 indirect i =? 0 then
                 b <- next_block ;;
                 let indirect := put32 indirect i (xint b) in
                 wsect ind indirect ;;;
                 ret indirect
               else ret indirect) ;;
  ret (xint (get32 indirect i), din).

(** The block of [iappend] for block [fbn] of the file: allocated if missing. *)
Definition append_block (fbn : Z) (din : dinode) : M mkst (Z * dinode) :=
  if fbn <? Z.of_nat NDIRECT then
    din <- (if xint (default 0 (d_addrs din !! Z.to_nat fbn)) =? 0 then
              b <- next_block ;; ret (set_daddr (Z.to_nat fbn) (xint b) din)
            else ret din) ;;
    ret (xint (default 0 (d_addrs din !! Z.to_nat fbn)), din)
  else
    din <- (if xint (default 0 (d_addrs din !! NDIRECT)) =? 0 then
              b <- next_block ;; ret (set_daddr NDIRECT (xint b) din)
            else ret din) ;;
    append_entry fbn din.

(** The loop of [iappend]: [p] is what is left to append at [off]. *)
Fixpoint iappend_loop (fuel : nat) (p : list Z) (off : Z) (din : dinode) : M mkst (Z * dinode) :=
  if bool_decide (0 < length p)%nat then
    match fuel with
    | O => fail NoFuel
    | S fuel' =>
        let fbn := off / BSIZE in
        if negb (fbn <? MAXFILE) then panic "assert"
        else
          '(x, din) <- append_block fbn din ;;
          let n1 := Z.min (Z.of_nat (length p)) ((fbn + 1) * BSIZE - off) in
          buf <- rsect x ;;
          wsect x (splice buf (Z.to_nat (off - fbn * BSIZE)) (take (Z.to_nat n1) p)) ;;;
          iappend_loop fuel' (drop (Z.to_nat n1) p) (off + n1) din
    end
  else ret (off, din).

(** A round appends at least one byte. *)
Definition iappend (inum : Z) (p : list Z) : M mkst unit :=
  din <- rinode inum ;;
  '(off, din) <- iappend_loop (length p) p (xint (d_size din)) din ;;
  winode inum (set_dsize (xint off) din).

(** A directory entry; the name is padded with zeros or cut at [DIRSIZ] bytes. *)
Definition mk_dirent (inum : Z) (name : list Z) : list Z :=
  put16 [0; 0] 0 (xshort inum) ++ take DIRSIZ (name ++ replicate DIRSIZ 0).

Fixpoint zero_sectors (n : nat) (i : Z) : M mkst unit :=
  match n with
  | O => ret tt
  | S n' => wsect i zero_block ;;; zero_sectors n' (i + 1)
  end.

Fixpoint append_chunks (inum : Z) (chunks : list (list Z)) : M mkst unit :=
  match chunks with
  | [] => ret tt
  | c :: chunks' => iappend inum c ;;; append_chunks inum chunks'
  end.

(** The name of an argument without a leading underscore. *)
Definition file_name (arg : list Z) : list Z :=
  match arg with
  | c :: rest => if c =? 95 then rest else arg
  | [] => []
  end.

(** The arguments after the image: the chunks of each file, if it opens. *)
Fixpoint add_files (rootino : Z) (args : list (list Z * option (list (list Z)))) : M mkst unit :=
  match args with
  | [] => ret tt
  | (arg, file) :: args' =>
      if existsb (Z.eqb 47) arg then panic "assert"
      else
        match file with
        | None => fail Exited
        | Some chunks =>
            inum <- mk_ialloc T_FILE ;;
            iappend rootino (mk_dirent inum (file_name arg)) ;;;
            append_chunks inum chunks ;;;
            add_files rootino args'
        end
  end.

Definition sb_block : block :=
  put_addrs zero_block 0 [sb_size mk_sb; sb_nblocks mk_sb; sb_ninodes mk_sb; sb_nlog mk_sb;
                          sb_logstart mk_sb; sb_inodestart mk_sb; sb_bmapstart mk_sb].

(** The end of [main]: the size of the root directory and the bitmap. *)
Definition mk_finish (rootino : Z) : M mkst unit :=
  din <- rinode rootino ;;
  let off := (xint (d_size din) / BSIZE + 1) * BSIZE in
  winode rootino (set_dsize (xint off) din) ;;;
  b <- gets freeblock ;;
  mk_balloc b.

(** [main], once the image is open. *)
Definition mkfs_main (args : list (list Z * option (list (list Z)))) : M mkst unit :=
  modify (λ s, Mkst (img s) (freeinode s) nmeta) ;;;
  zero_sectors (Z.to_nat FSSIZE) 0 ;;;
  wsect 1 sb_block ;;;
  rootino <- mk_ialloc T_DIR ;;
  if negb (rootino =? ROOTINO) then panic "assert"
  else
    iappend rootino (mk_dirent rootino (chars ".")) ;;;
    iappend rootino (mk_dirent rootino (chars "..")) ;;;
    add_files rootino args ;;;
    mk_finish rootino.

(** The image file just opened. *)
Definition mkst0 : mkst := Mkst ∅ 1 0.

(** ** What a kernel sees of the image *)

(** A kernel that has begun an operation on the image. *)
Definition kview (img : gmap Z block) : fst_st :=
  Fst (Lst (Log 2 30 1 false 0 (replicate (Z.to_nat LOGSIZE) 0)) (Store img ∅ FSSIZE [])) mk_sb [].

Definition bitmap (fb : Z) : block := mark_used (Z.to_nat fb) 0 zero_block.
Definition gst (img : gmap Z block) (fb : Z) : fst_st := kview (<[sb_bmapstart mk_sb := bitmap fb]> img).

(** All sectors are there; those from [fb] on and the log are blank. *)
Record mk_inv (img : gmap Z block) (fb : Z) : Prop := {
  mi_dom : ∀ k, 0 ≤ k < FSSIZE → ∃ b, img !! k = Some b ∧ length b = 512%nat;
  mi_out : ∀ k, ¬ 0 ≤ k < FSSIZE → img !! k = None;
  mi_fb : nmeta ≤ fb ≤ FSSIZE;
  mi_zero : ∀ k, fb ≤ k < FSSIZE → img !! k = Some zero_block;
  mi_log : img !! 2 = Some zero_block;
  mi_sb : img !! 1 = Some sb_block
}.

Section view.
Implicit Types (img : gmap Z block) (fb k : Z).

Lemma mk_sb_eq : mk_sb = Superblock 3000 2941 200 30 2 32 58.
Proof. done. Qed.

Lemma xint_small x : 0 ≤ x < 4294967296 → xint x = x.
Proof. intros Hx. unfold xint. rewrite !Z.shiftr_div_pow2 by lia. zlia. Qed.

Lemma length_mark_used n : ∀ i buf, length (mark_used n i buf) = length buf.
Proof. induction n as [|n IH]; intros i buf; cbn [mark_used]; [done|]. by rewrite IH, length_put8. Qed.

Lemma mark_used_free n : ∀ i buf b, length buf = 512%nat → 0 ≤ i → i + Z.of_nat n ≤ BPB → 0 ≤ b < BPB →
  bit_free (mark_used n i buf) b = if decide (i ≤ b < i + Z.of_nat n) then false else bit_free buf b.
Proof.
  induction n as [|n IH]; intros i buf b Hl Hi Hn Hb; cbn [mark_used].
  { by rewrite decide_False by lia. }
  change (put8 buf _ _) with (bit_set buf i). rewrite IH by (rewrite ?length_bit_set; lia). rewrite bit_free_set by (done || lia).
  destruct (decide (i = b)); [rewrite (decide_True (P := i ≤ b < _)) by lia; by destruct (decide _)|].
  destruct (decide (i + 1 ≤ b < i + 1 + Z.of_nat n)); [by rewrite decide_True by lia|by rewrite decide_False by lia].
Qed.

Lemma bitmap_free fb b : 0 ≤ fb ≤ FSSIZE → 0 ≤ b < FSSIZE → bit_free (bitmap fb) b = bool_decide (fb ≤ b).
Proof.
  intros Hf Hb. unfold bitmap, FSSIZE in *. rewrite mark_used_free by (rewrite ?BPB_eq; done || lia).
  destruct (decide (0 ≤ b < 0 + Z.of_nat (Z.to_nat fb))); [by rewrite bool_decide_eq_false_2 by lia|].
  rewrite bool_decide_eq_true_2 by lia. rewrite bit_free_spec by lia. unfold get8, zero_block.
  destruct (replicate 512 0 !! Z.to_nat (b / 8)) as [x|] eqn:E; [apply lookup_replicate in E as [-> _]|]; cbn; by rewrite Z.bits_0.
Qed.

Lemma fv_kview img k : fv (kview img) k = blk img k.
Proof. unfold fv, sview. cbn [kview fs_log store_of pinned disk]. by rewrite lookup_empty. Qed.

Lemma fv_gst img fb k : fv (gst img fb) k = if decide (k = 58) then bitmap fb else blk img k.
Proof.
  unfold gst. rewrite fv_kview, mk_sb_eq. cbn [sb_bmapstart]. unfold blk.
  destruct (decide (k = 58)) as [->|]; [by rewrite lookup_insert_eq|by rewrite lookup_insert_ne].
Qed.

Lemma used_gst img fb b : 0 ≤ fb ≤ FSSIZE → 0 ≤ b < FSSIZE → (used (gst img fb) b ↔ b < fb).
Proof.
  intros Hf Hb. unfold used. change (fs_sb (gst img fb)) with mk_sb. rewrite mk_sb_eq. unfold BBLOCK. rewrite BPB_eq. cbn [sb_bmapstart].
  unfold FSSIZE in Hb. replace (b / 4096 + 58) with 58 by (rewrite Z.div_small; lia). rewrite Z.mod_small by lia.
  rewrite fv_gst, decide_True by done. rewrite bitmap_free by (unfold FSSIZE in *; lia). rewrite bool_decide_eq_false. lia.
Qed.

Lemma data_gst img fb k : 0 ≤ fb ≤ FSSIZE → (data_block (gst img fb) k ↔ nmeta ≤ k < fb).
Proof.
  intros Hf. unfold data_block. change (fs_sb (gst img fb)) with mk_sb. change (datastart mk_sb) with nmeta.
  change (sb_size mk_sb) with FSSIZE. change nmeta with 59 in *. unfold FSSIZE in *. split.
  - intros [Hk Hu]. apply used_gst in Hu; unfold FSSIZE; lia.
  - intros Hk. split; [lia|]. apply used_gst; unfold FSSIZE; lia.
Qed.

Lemma mk_sb_ok : sb_ok mk_sb.
Proof. split; vm_compute; intuition congruence. Qed.

Lemma gst_ok img fb m : mk_inv img fb → (m ≤ 29)%nat → fs_ok (gst img fb) m.
Proof.
  intros [Hd Ho Hf Hz Hl Hs] Hm. split; [|split; try done].
  - apply room_empty; [|done|unfold LOGSIZE, MAXOPBLOCKS; cbn; lia..].
    assert (Hb2 : blk (<[sb_bmapstart mk_sb := bitmap fb]> img) 2 = zero_block) by (unfold blk; by rewrite lookup_insert_ne, Hl by done).
    split; try done; cbn [gst kview fs_log fs_sb log store_of lg_start lg_size pinned disk].
    + split; [constructor..|simpl; unfold LOGSIZE, MAXOPBLOCKS; lia|simpl; lia].
    + intros k [v Hv]. by rewrite lookup_empty in Hv.
    + by rewrite Hb2.
    + by rewrite Hb2.
  - intros k Hk. rewrite fv_gst. destruct (decide _); [unfold bitmap; by rewrite length_mark_used|].
    change (sb_inodestart (fs_sb (gst img fb))) with 32 in Hk. change (sb_size (fs_sb (gst img fb))) with FSSIZE in Hk.
    destruct (Hd k ltac:(lia)) as (b & Hb & Hlen). unfold blk. by rewrite Hb.
  - intros b Hb. change (datastart (fs_sb (gst img fb))) with nmeta in Hb. change nmeta with 59 in *.
    apply used_gst; unfold FSSIZE in *; lia.
Qed.

Lemma gst_wf img fb : mk_inv img fb → fs_wf (gst img fb).
Proof. intros Hi. apply (fi_wf _ ∅ 0), gst_ok; [done|lia]. Qed.

(** [freeblock++] allocates a block. *)
Lemma gst_alloc img fb : mk_inv img fb → fb < FSSIZE → allocated (gst img fb) (gst img (fb + 1)) fb ∧ mk_inv img (fb + 1).
Proof.
  intros [Hd Ho Hf Hz Hl Hs] Hlt. change nmeta with 59 in *. split; [|split; try done; [change nmeta with 59; lia|intros k Hk; apply Hz; lia]].
  split; try done.
  - change (datastart (fs_sb (gst img fb))) with 59. change (sb_size (fs_sb (gst img fb))) with FSSIZE. lia.
  - rewrite used_gst by lia. lia.
  - rewrite fv_gst, decide_False by lia. unfold blk. by rewrite Hz by lia.
  - intros b' Hb'. change (sb_size (fs_sb (gst img fb))) with FSSIZE in Hb'. rewrite !used_gst by lia. lia.
  - intros k Hk Hne. change (sb_bmapstart (fs_sb (gst img fb))) with 58 in Hk. change (datastart (fs_sb (gst img fb))) with 59 in Hk.
    rewrite !fv_gst. by rewrite !decide_False by lia.
Qed.

(** [wsect] of a block below [fb]. *)
Lemma gst_write img fb b v : mk_inv img fb → 2 < b < fb → b ≠ 58 → length v = 512%nat →
  recorded (gst img fb) (gst (<[b := v]> img) fb) b v ∧ mk_inv (<[b := v]> img) fb.
Proof.
  intros [Hd Ho Hf Hz Hl Hs] Hb Hne Hlen. split.
  - split_and!; [done|done|]. intros k. rewrite !fv_gst. unfold blk. destruct (decide (k = b)) as [->|].
    + by rewrite decide_False, lookup_insert_eq by done.
    + by rewrite lookup_insert_ne by done.
  - split; try done.
    + intros k Hk. destruct (decide (k = b)) as [->|]; [exists v; by rewrite lookup_insert_eq|rewrite lookup_insert_ne by done; auto].
    + intros k Hk. rewrite lookup_insert_ne by lia. auto.
    + intros k Hk. rewrite lookup_insert_ne by lia. auto.
    + by rewrite lookup_insert_ne by lia.
    + by rewrite lookup_insert_ne by lia.
Qed.

End view.

(** ** Appending to a file *)

Section append.
Implicit Types (im : gmap Z block) (fb fi : Z) (d : dinode).

(** The disk is too small: more than [FSSIZE] blocks were asked for. *)
Definition too_big (s : mkst) : Prop := FSSIZE < freeblock s.

(** The outcome of looking up block [fbn]. *)
Definition block_found im fb fi d fbn (r : res mkst (Z * dinode)) : Prop :=
  (∃ x d' im' fb', r = Ok (x, d') (Mkst im' fi fb') ∧ mk_inv im' fb' ∧
     mapped (gst im fb) (gst im' fb') d d' fbn x ∧ map_ok (gst im' fb') d' ∧ x ≠ 0) ∨
  (∃ x d' s', r = Ok (x, d') s' ∧ img s' !! x = None ∧ too_big s') ∨
  (∃ s', r = Err Exited s' ∧ too_big s').

Lemma next_block_run {A} im fi fb (k : Z → M mkst A) : 0 ≤ fb ≤ FSSIZE →
  bind next_block k (Mkst im fi fb) = k fb (Mkst im fi (fb + 1)).
Proof.
  intros Hf. unfold next_block. rewrite bind_assoc, bind_gets. cbn [freeblock]. rewrite bind_assoc, bind_modify, bind_ret.
  cbn [img freeinode]. by rewrite u32_small by (unfold FSSIZE in *; lia).
Qed.

Lemma rsect_run {A} im fi fb b v (k : block → M mkst A) : im !! b = Some v → bind (rsect b) k (Mkst im fi fb) = k v (Mkst im fi fb).
Proof. intros Hb. unfold rsect. rewrite bind_assoc, bind_gets. cbn [img]. by rewrite Hb. Qed.

Lemma inv_block im fb k : mk_inv im fb → 0 ≤ k < FSSIZE → k ≠ 58 → im !! k = Some (fv (gst im fb) k).
Proof. intros Hi Hk Hne. destruct (mi_dom _ _ Hi k Hk) as (b & Hb & _). rewrite fv_gst, decide_False by done. unfold blk. by rewrite Hb. Qed.

Lemma inv_bounds im fb : mk_inv im fb → 59 ≤ fb ≤ 3000.
Proof. intros Hi. exact (mi_fb _ _ Hi). Qed.

Lemma data_inv im fb k : mk_inv im fb → data_block (gst im fb) k → 59 ≤ k < fb.
Proof. intros Hi Hk. pose proof (inv_bounds _ _ Hi). by apply data_gst in Hk; [|unfold FSSIZE; lia]. Qed.

Lemma append_entry_run im fb fi d fbn : mk_inv im fb → map_ok (gst im fb) d → Z.of_nat NDIRECT ≤ fbn < MAXFILE → iaddr d ≠ 0 →
  block_found im fb fi d fbn (append_entry fbn d (Mkst im fi fb)).
Proof.
  intros Hi Hm Hbn Hia. pose proof Hm as [Hd Hind Hblk _]. pose proof (inv_bounds _ _ Hi) as Hf.
  pose proof (data_inv _ _ _ Hi (Hind Hia)) as Hir. pose proof (gst_wf _ _ Hi) as Hok.
  unfold append_entry. fold (iaddr d). rewrite xint_small by lia. cbn zeta. erewrite rsect_run by (apply inv_block; [done|unfold FSSIZE; lia|lia]).
  set (o := (4 * Z.to_nat (fbn - Z.of_nat NDIRECT))%nat). set (ind := fv (gst im fb) (iaddr d)).
  assert (Hfa : faddr (gst im fb) d fbn = get32 ind o).
  { unfold faddr. rewrite (proj2 (Z.ltb_ge _ _)), (proj2 (Z.eqb_neq _ _)) by (done || lia). done. }
  assert (Hlen : length ind = 512%nat) by (apply (wf_len _ Hok); change (sb_size (fs_sb (gst im fb))) with 3000; change (sb_inodestart (fs_sb (gst im fb))) with 32; lia).
  assert (Ho : (o + 3 < 512)%nat) by (unfold o, NDIRECT in *; rewrite MAXFILE_eq in *; lia).
  destruct (Z.eqb_spec (get32 ind o) 0) as [E|E].
  - rewrite bind_assoc, next_block_run by (unfold FSSIZE; lia). unfold wsect. rewrite bind_assoc, bind_modify, bind_ret. cbn [img freeinode freeblock].
    rewrite (xint_small fb) by lia. rewrite get32_put32_eq, (u32_small fb), (xint_small fb) by lia.
    destruct (decide (fb < FSSIZE)) as [Hlt|Hge].
    + left. destruct (gst_alloc _ _ Hi Hlt) as [Hal Hi1].
      destruct (gst_write im (fb + 1) (iaddr d) (put32 ind o fb) Hi1) as [Hrec Hi2]; [lia|lia|by rewrite length_put32|].
      destruct (alloc_entry (gst im fb) (gst im (fb + 1)) _ d fbn fb Hok Hm Hbn Hia ltac:(congruence) Hal Hrec) as (Hma & Hm' & Hx).
      by eexists fb, d, _, (fb + 1).
    + right; left. eexists fb, d, _. split; [done|]. cbn [img]. unfold too_big. cbn [freeblock]. unfold FSSIZE in *.
      split; [|lia]. rewrite lookup_insert_ne by lia. apply (mi_out _ _ Hi). unfold FSSIZE. lia.
  - rewrite bind_ret, xint_small by apply get32_range. left. exists (get32 ind o), d, im, fb. split_and!; try done.
    rewrite <-Hfa. apply mapped_refl.
Qed.

Lemma append_block_run im fb fi d fbn : mk_inv im fb → map_ok (gst im fb) d → 0 ≤ fbn < MAXFILE →
  block_found im fb fi d fbn (append_block fbn d (Mkst im fi fb)).
Proof.
  intros Hi Hm Hbn. pose proof Hm as [Hd Hind Hblk _]. pose proof (inv_bounds _ _ Hi) as Hf.
  pose proof (gst_wf _ _ Hi) as Hok. unfold append_block.
  assert (Hadr : ∀ i, 0 ≤ default 0 (d_addrs d !! i) < 4294967296).
  { intros i. destruct (d_addrs d !! i) as [a|] eqn:E; simpl; [|lia]. pose proof (do_addrs _ Hd) as Ha. rewrite Forall_lookup in Ha. by eapply Ha. }
  destruct (Z.ltb_spec fbn (Z.of_nat NDIRECT)) as [Hdir|Hdir].
  - rewrite xint_small by apply Hadr. assert (Hfa : faddr (gst im fb) d fbn = default 0 (d_addrs d !! Z.to_nat fbn)).
    { unfold faddr. by rewrite (proj2 (Z.ltb_lt _ _)) by lia. }
    destruct (Z.eqb_spec (default 0 (d_addrs d !! Z.to_nat fbn)) 0) as [E|E].
    + rewrite bind_assoc, next_block_run, bind_ret by (unfold FSSIZE; lia). rewrite (xint_small fb) by lia. cbn [set_daddr d_addrs].
      rewrite list_lookup_insert_eq by (rewrite (do_len _ Hd); unfold NDIRECT in *; lia). change (default 0 (Some fb)) with fb. rewrite (xint_small fb) by lia.
      destruct (decide (fb < FSSIZE)) as [Hlt|Hge].
      * left. destruct (gst_alloc _ _ Hi Hlt) as [Hal Hi1].
        destruct (alloc_direct _ _ d fbn fb Hok Hm ltac:(lia) ltac:(congruence) Hal) as (Hma & Hm' & Hx).
        by eexists fb, _, im, (fb + 1).
      * right; left. eexists fb, _, _. split; [done|]. cbn [img]. unfold too_big. cbn [freeblock]. unfold FSSIZE in *.
        split; [|lia]. apply (mi_out _ _ Hi). unfold FSSIZE. lia.
    + rewrite bind_ret, xint_small by apply Hadr. left. exists (default 0 (d_addrs d !! Z.to_nat fbn)), d, im, fb. split_and!; try done.
      rewrite <-Hfa. apply mapped_refl.
  - rewrite xint_small by apply Hadr. fold (iaddr d). destruct (Z.eqb_spec (iaddr d) 0) as [E|E]; [|rewrite bind_ret; apply append_entry_run; [done|done|lia|done]].
    rewrite bind_assoc, next_block_run, bind_ret by (unfold FSSIZE; lia). rewrite (xint_small fb) by lia.
    destruct (decide (fb < FSSIZE)) as [Hlt|Hge].
    + destruct (gst_alloc _ _ Hi Hlt) as [Hal Hi1].
      destruct (alloc_indirect _ _ d fbn fb Hok Hm ltac:(lia) E Hal) as (Hma & Hm1 & Eia & Ha0).
      destruct (append_entry_run im (fb + 1) fi _ fbn Hi1 Hm1 ltac:(lia) ltac:(by rewrite Eia)) as [(x & d' & im' & fb' & Hr & Hi' & Hma' & Hm' & Hx)|Hbad];
        [left|right; exact Hbad].
      exists x, d', im', fb'. split_and!; try done. by eapply mapped_trans.
    + right; right. eexists. unfold append_entry. fold (iaddr (set_daddr NDIRECT fb d)). rewrite iaddr_set_ind by done. rewrite xint_small by lia. unfold rsect.
      rewrite bind_assoc, bind_gets. cbn [img]. rewrite (mi_out _ _ Hi) by (unfold FSSIZE in *; lia). split; [done|].
      unfold too_big. cbn [freeblock]. lia.
Qed.

(** The outcome of appending [p] at [off]. *)
Definition appended im fb fi d off (p : list Z) (r : res mkst (Z * dinode)) : Prop :=
  (∃ d' im' fb', r = Ok (off + Z.of_nat (length p), d') (Mkst im' fi fb') ∧ mk_inv im' fb' ∧
     wrote (gst im fb) (gst im' fb') d d' off p) ∨
  (∃ s', r = Err Exited s' ∧ too_big s').

(** One round: the bytes that fit the block go to the file. *)
Lemma round_wrote im fb im' fb' d d' off x bs : mk_inv im fb → mk_inv im' fb' →
  mapped (gst im fb) (gst im' fb') d d' (off / BSIZE) x → map_ok (gst im' fb') d' → x ≠ 0 →
  0 ≤ off → off + Z.of_nat (length bs) ≤ MAXFILE * BSIZE → off mod BSIZE + Z.of_nat (length bs) ≤ BSIZE → bs ≠ [] →
  let v := splice (fv (gst im' fb') x) (Z.to_nat (off mod BSIZE)) bs in
  im' !! x = Some (fv (gst im' fb') x) ∧ mk_inv (<[x := v]> im') fb' ∧
  wrote (gst im fb) (gst (<[x := v]> im') fb') d d' off bs.
Proof.
  intros Hi Hi' Hma Hm' Hx Ho Hmax Hblk Hne v. pose proof (gst_wf _ _ Hi) as Hok. pose proof (gst_wf _ _ Hi') as Hok'.
  pose proof (ma_new _ _ _ _ _ _ Hma) as Hnew. pose proof (Z.mod_pos_bound off BSIZE ltac:(done)) as Hmod.
  assert (Hl0 : (0 < length bs)%nat) by (destruct bs; simpl; [done|lia]).
  assert (Hbn : 0 ≤ off / BSIZE < MAXFILE) by (rewrite MAXFILE_eq, BSIZE_eq in *; Z.div_mod_to_equations; lia).
  destruct (mo_blk _ _ Hm' _ Hbn ltac:(by rewrite Hnew)) as [Hda _]. rewrite Hnew in Hda.
  pose proof (data_inv _ _ _ Hi' Hda) as Hr. pose proof (inv_bounds _ _ Hi').
  assert (Hlen : length (fv (gst im' fb') x) = 512%nat) by (apply (wf_len _ Hok'); change (sb_size (fs_sb (gst im' fb'))) with 3000; change (sb_inodestart (fs_sb (gst im' fb'))) with 32; lia).
  destruct (gst_write im' fb' x v Hi') as [Hrec Hi2]; [lia|lia|unfold v; rewrite length_splice; [done|rewrite BSIZE_eq in *; lia]|].
  split; [apply inv_block; [done|unfold FSSIZE; lia|lia]|]. split; [done|].
  clear Hda Hr Hlen Hi2. subst x. by apply (wrote_block (gst im fb) (gst im' fb') _ d d' off bs).
Qed.

Lemma iappend_loop_run fuel : ∀ im fb fi d off p, mk_inv im fb → map_ok (gst im fb) d → 0 ≤ off →
  off + Z.of_nat (length p) ≤ MAXFILE * BSIZE → (length p ≤ fuel)%nat →
  appended im fb fi d off p (iappend_loop fuel p off d (Mkst im fi fb)).
Proof.
  induction fuel as [|fuel IH]; intros im fb fi d off p Hi Hm Ho Hmax Hf; cbn [iappend_loop];
    (destruct p as [|c p']; [rewrite bool_decide_eq_false_2 by (simpl; lia); left; exists d, im, fb;
      split; [by rewrite Z.add_0_r|]; split; [done|by apply wrote_refl]|]); [simpl in Hf; lia|].
  set (p := c :: p') in *. assert (Hl : (0 < length p)%nat) by (simpl; lia). rewrite bool_decide_eq_true_2 by done.
  assert (Hbn : 0 ≤ off / BSIZE < MAXFILE) by (rewrite MAXFILE_eq, BSIZE_eq in *; Z.div_mod_to_equations; lia).
  rewrite (proj2 (Z.ltb_lt _ _)) by lia. cbn [negb].
  set (n1 := Z.min (Z.of_nat (length p)) ((off / BSIZE + 1) * BSIZE - off)).
  assert (Hn1 : 0 < n1 ≤ Z.of_nat (length p) ∧ off mod BSIZE + n1 ≤ BSIZE).
  { unfold n1. rewrite BSIZE_eq in *. Z.div_mod_to_equations. lia. }
  destruct (append_block_run im fb fi d (off / BSIZE) Hi Hm Hbn) as [(x & d1 & im1 & fb1 & Hr & Hi1 & Hma & Hm1 & Hx)|[(x & d1 & s1 & Hr & Hno & Hbig)|(s1 & Hr & Hbig)]].
  2: { right. exists s1. split; [|done]. rewrite (bind_ok _ _ _ _ _ Hr). unfold rsect. rewrite bind_assoc, bind_gets. by rewrite Hno. }
  2: { right. exists s1. split; [|done]. by apply bind_err. }
  set (bs := take (Z.to_nat n1) p). assert (Hbs : length bs = Z.to_nat n1) by (unfold bs; rewrite length_take; lia).
  assert (Hbne : bs ≠ []) by (intros E; rewrite E in Hbs; simpl in Hbs; lia).
  destruct (round_wrote im fb im1 fb1 d d1 off x bs) as (Hrd & Hi2 & Hw); try done; [lia..|].
  rewrite (bind_ok _ _ _ _ _ Hr). erewrite rsect_run by exact Hrd. unfold wsect. rewrite bind_modify. cbn [img freeinode freeblock].
  replace (off - off / BSIZE * BSIZE) with (off mod BSIZE) by (rewrite BSIZE_eq; Z.div_mod_to_equations; lia). fold bs.
  set (im2 := <[x := _]> im1) in *.
  assert (Hp : p = bs ++ drop (Z.to_nat n1) p) by (symmetry; apply take_drop).
  assert (Hlp : Z.of_nat (length p) = n1 + Z.of_nat (length (drop (Z.to_nat n1) p))) by (rewrite length_drop; lia).
  destruct (IH im2 fb1 fi d1 (off + n1) (drop (Z.to_nat n1) p) Hi2 (wt_map _ _ _ _ _ _ Hw)) as [(d' & im' & fb' & Hr' & Hi' & Hw')|Hbad];
    [lia|lia|rewrite length_drop; lia| |right; exact Hbad].
  left. exists d', im', fb'. split; [rewrite Hr'; do 2 f_equal; lia|]. split; [done|].
  rewrite Hp. apply (wrote_trans _ (gst im2 fb1) _ _ d1); [done|rewrite Hbs; lia|done|]. by replace (off + Z.of_nat (length bs)) with (off + n1) by lia.
Qed.

End append.

(** ** The inodes of the image *)

(** Inode [j] holds the file [c]; the rest of its last block is zero. *)
Record holds (s : fst_st) (j ty : Z) (c : list Z) : Prop := {
  ho_type : d_type (dinode_of s j) = ty;
  ho_nlink : d_nlink (dinode_of s j) = 1;
  ho_size : d_size (dinode_of s j) = Z.of_nat (length c);
  ho_ok : file_ok s (dinode_of s j);
  ho_bytes : ∀ o, 0 ≤ o < MAXFILE * BSIZE → fbyte s (dinode_of s j) o = default 0 (c !! Z.to_nat o)
}.

(** Inode [1 + i] holds the file [i] of [L]; no two files share a block. *)
Record mk_ok (st : mkst) (L : list (Z * list Z)) : Prop := {
  mk_img : mk_inv (img st) (freeblock st);
  mk_next : freeinode st = 1 + Z.of_nat (length L);
  mk_few : 1 + Z.of_nat (length L) ≤ NINODES;
  mk_files : ∀ i ty c, L !! i = Some (ty, c) → holds (gst (img st) (freeblock st)) (1 + Z.of_nat i) ty c;
  mk_apart : ∀ i j k, (i < length L)%nat → (j < length L)%nat → i ≠ j → data_block (gst (img st) (freeblock st)) k →
    file_block (gst (img st) (freeblock st)) (dinode_of (gst (img st) (freeblock st)) (1 + Z.of_nat i)) k →
    ¬ file_block (gst (img st) (freeblock st)) (dinode_of (gst (img st) (freeblock st)) (1 + Z.of_nat j)) k
}.

Section inodes.
Implicit Types (s : fst_st) (d : dinode) (im : gmap Z block) (fb fi : Z).

(** A file whose blocks keep their contents is the same file. *)
Lemma file_frame s s' d : map_ok s d → (∀ k, data_block s k → file_block s d k → fv s' k = fv s k) →
  (∀ k, data_block s k → data_block s' k) →
  map_ok s' d ∧ (∀ bn, 0 ≤ bn < MAXFILE → faddr s' d bn = faddr s d bn) ∧
  (∀ o, 0 ≤ o < MAXFILE * BSIZE → fbyte s' d o = fbyte s d o).
Proof.
  intros [Hd Hia Hb Hinj] Hfv Hdb.
  assert (Hfa : ∀ bn, 0 ≤ bn < MAXFILE → faddr s' d bn = faddr s d bn).
  { intros bn Hbn. unfold faddr. destruct (bn <? _); [done|]. destruct (Z.eqb_spec (iaddr d) 0) as [|Hne]; [done|].
    rewrite Hfv; [done|by apply Hia|by left]. }
  split_and!; [split; [done|auto|..]|done|].
  - intros bn Hbn. rewrite Hfa by done. intros Hne. destruct (Hb bn Hbn Hne). auto.
  - intros b1 b2 H1 H2. rewrite !Hfa by done. by apply Hinj.
  - intros o Ho. unfold fbyte. assert (Hob : 0 ≤ o / BSIZE < MAXFILE) by (rewrite MAXFILE_eq, BSIZE_eq in *; Z.div_mod_to_equations; lia).
    rewrite Hfa by done. destruct (Z.eqb_spec (faddr s d (o / BSIZE)) 0) as [|Hne]; [done|].
    rewrite Hfv; [done|by apply Hb|]. right. by exists (o / BSIZE).
Qed.

Lemma holds_frame s s' j ty c : holds s j ty c → dinode_of s' j = dinode_of s j →
  (∀ k, data_block s k → file_block s (dinode_of s j) k → fv s' k = fv s k) →
  (∀ k, data_block s k → data_block s' k) →
  holds s' j ty c ∧ ∀ k, file_block s' (dinode_of s' j) k ↔ file_block s (dinode_of s j) k.
Proof.
  intros [Ht Hn Hs [Hm Hsz Hfull] Hby] Ed Hfv Hdb. destruct (file_frame s s' _ Hm Hfv Hdb) as (Hm' & Hfa & Hfb).
  assert (Hbn : ∀ bn, 0 ≤ bn → bn * BSIZE < d_size (dinode_of s j) → 0 ≤ bn < MAXFILE) by (rewrite MAXFILE_eq, BSIZE_eq in *; lia).
  split; [split; rewrite Ed; try done|].
  - split; [done|done|]. intros bn Hb Hlt. rewrite Hfa by auto. auto.
  - intros o Ho. rewrite Hfb by done. auto.
  - intros k. rewrite Ed. unfold file_block. split; (intros [->|(bn & Hb & E)]; [by left|right; exists bn; split; [done|]]).
    + by rewrite <-Hfa.
    + by rewrite Hfa.
Qed.

Lemma mk_inum (L : list (Z * list Z)) i : 1 + Z.of_nat (length L) ≤ NINODES → (i < length L)%nat → 0 ≤ 1 + Z.of_nat i < 200.
Proof. unfold NINODES. lia. Qed.

Lemma iblock_mk inum : 0 ≤ inum < 200 → 32 ≤ IBLOCK inum mk_sb < 58.
Proof. exact (iblock_range mk_sb inum mk_sb_ok). Qed.

(** [winode] *)
Lemma winode_run im fb fi inum d : mk_inv im fb → 0 ≤ inum < 200 → dinode_ok d →
  ∃ im', winode inum d (Mkst im fi fb) = Ok tt (Mkst im' fi fb) ∧ mk_inv im' fb ∧ inode_stored (gst im fb) (gst im' fb) inum d.
Proof.
  intros Hi Hn Hd. pose proof (gst_wf _ _ Hi) as Hok. pose proof (inv_bounds _ _ Hi) as Hf.
  pose proof (iblock_mk inum Hn) as HI.
  unfold winode. erewrite rsect_run by (apply inv_block; [exact Hi|unfold FSSIZE; lia|lia]).
  assert (Hlen : length (fv (gst im fb) (IBLOCK inum mk_sb)) = 512%nat) by (apply (wf_len _ Hok); change (sb_size (fs_sb (gst im fb))) with 3000; change (sb_inodestart (fs_sb (gst im fb))) with 32; lia).
  destruct (gst_write im fb (IBLOCK inum mk_sb) (put_dinode (fv (gst im fb) (IBLOCK inum mk_sb)) (dip_off inum) d) Hi) as [Hrec Hi'];
    [lia|lia|by rewrite length_put_dinode|].
  eexists. split; [done|]. split; [done|]. by apply (inode_recorded (gst im fb)).
Qed.

Lemma rinode_run {A} im fb fi inum (k : dinode → M mkst A) : mk_inv im fb → 0 ≤ inum < 200 →
  bind (rinode inum) k (Mkst im fi fb) = k (dinode_of (gst im fb) inum) (Mkst im fi fb).
Proof.
  intros Hi Hn. pose proof (iblock_mk inum Hn) as HI.
  unfold rinode. rewrite bind_assoc. by erewrite rsect_run by (apply inv_block; [exact Hi|unfold FSSIZE; lia|lia]).
Qed.

(** Blocks of data keep their contents when an inode is stored. *)
Lemma stored_data im im' fb inum d : mk_inv im fb → 0 ≤ inum < 200 → inode_stored (gst im fb) (gst im' fb) inum d →
  ∀ k, data_block (gst im fb) k → fv (gst im' fb) k = fv (gst im fb) k ∧ data_block (gst im' fb) k.
Proof.
  intros Hi Hn Hst k Hk. destruct (inode_stored_data _ _ _ _ (gst_wf _ _ Hi) Hn Hst) as [Hfv Hdb].
  split; [|by apply Hdb]. apply Hfv. pose proof (data_inv _ _ _ Hi Hk). change (sb_bmapstart (fs_sb (gst im fb))) with 58. lia.
Qed.

(** A new inode is an empty file. *)
Definition new_dinode (ty : Z) : dinode := Dinode ty 0 0 1 0 (replicate (S NDIRECT) 0).

Lemma new_faddr s ty bn : faddr s (new_dinode ty) bn = 0.
Proof.
  unfold faddr. change (iaddr (new_dinode ty)) with 0. cbn [Z.eqb]. destruct (bn <? _); [|done]. cbn [new_dinode d_addrs].
  destruct (replicate (S NDIRECT) 0 !! Z.to_nat bn) as [x|] eqn:E; [|done]. by apply lookup_replicate in E as [-> _].
Qed.

Lemma new_dinode_ok ty : 0 ≤ ty < 32768 → dinode_ok (new_dinode ty).
Proof. intros Ht. split; cbn; try lia; [done|]. repeat (constructor; [lia|]). constructor. Qed.

Lemma new_holds s j ty : 0 ≤ ty < 32768 → dinode_of s j = new_dinode ty → holds s j ty [].
Proof.
  intros Ht E. split; rewrite E; try done.
  - split; [split|rewrite MAXFILE_eq, BSIZE_eq; cbn; lia|cbn; rewrite BSIZE_eq; lia]; [by apply new_dinode_ok|done|..]; intros bn; rewrite new_faddr; done.
  - intros o Ho. unfold fbyte. by rewrite new_faddr.
Qed.

(** A step that changes inode [1 + i] only and leaves the blocks of the others. *)
Lemma mk_step im fb fi im' fb' fi' L L' i ty c : mk_ok (Mkst im fi fb) L → mk_inv im' fb' →
  L' !! i = Some (ty, c) → (∀ j, j ≠ i → L' !! j = L !! j) → fi' = 1 + Z.of_nat (length L') → fi' ≤ NINODES →
  holds (gst im' fb') (1 + Z.of_nat i) ty c →
  (∀ j, 0 ≤ j < 200 → j ≠ 1 + Z.of_nat i → dinode_of (gst im' fb') j = dinode_of (gst im fb) j) →
  (∀ k, data_block (gst im fb) k → data_block (gst im' fb') k) →
  (∀ j k, (j < length L)%nat → j ≠ i → data_block (gst im fb) k →
     file_block (gst im fb) (dinode_of (gst im fb) (1 + Z.of_nat j)) k →
     fv (gst im' fb') k = fv (gst im fb) k ∧ ¬ file_block (gst im' fb') (dinode_of (gst im' fb') (1 + Z.of_nat i)) k) →
  mk_ok (Mkst im' fi' fb') L'.
Proof.
  intros [Hi Hfi Hfew Hfiles Hap] Hi' HLi HLj Hfi' Hfew' Hnew Hdin Hdb Hfr. cbn [img freeblock freeinode] in *.
  assert (Hlt : ∀ j, (j < length L')%nat → j ≠ i → (j < length L)%nat).
  { intros j Hj Hne. apply lookup_lt_is_Some. rewrite <-HLj by done. by apply lookup_lt_is_Some. }
  assert (Hold : ∀ j, (j < length L')%nat → j ≠ i → ∃ t c', L !! j = Some (t, c') ∧
    holds (gst im' fb') (1 + Z.of_nat j) t c' ∧
    ∀ k, file_block (gst im' fb') (dinode_of (gst im' fb') (1 + Z.of_nat j)) k ↔ file_block (gst im fb) (dinode_of (gst im fb) (1 + Z.of_nat j)) k).
  { intros j Hj Hne. pose proof (Hlt j Hj Hne) as Hj'. destruct (lookup_lt_is_Some_2 L j Hj') as [[t c'] Ej]. exists t, c'. split; [done|].
    apply holds_frame; [by apply Hfiles|apply Hdin; [by eapply mk_inum|lia]| |done]. intros k Hk Hf. by apply (Hfr j). }
  split; cbn [img freeblock freeinode]; try done; [lia|..].
  - intros j t c' Ej. destruct (decide (j = i)) as [->|Hne]; [congruence|].
    destruct (Hold j) as (t2 & c2 & E2 & Hh & _); [by eapply lookup_lt_Some|done|]. rewrite HLj in Ej by done. congruence.
  - assert (Hback : ∀ j k, (j < length L')%nat → j ≠ i → file_block (gst im' fb') (dinode_of (gst im' fb') (1 + Z.of_nat j)) k →
      data_block (gst im' fb') k → data_block (gst im fb) k).
    { intros j k Hj Hne Hf Hk. destruct (Hold j Hj Hne) as (t & c' & Ej & _ & Hiff). apply Hiff in Hf.
      destruct (Hfiles j t c' Ej) as [_ _ _ [[_ Hia Hblk _] _ _] _]. pose proof (data_inv _ _ _ Hi' Hk).
      destruct Hf as [->|(bn & Hb & <-)]; [apply Hia; lia|apply Hblk; [done|lia]]. }
    intros j l k Hj Hl Hne Hk Hfj Hfl.
    destruct (decide (j = i)) as [->|Hji].
    + destruct (Hold l Hl ltac:(done)) as (t & c' & El & _ & Hiff). pose proof (Hback l k Hl ltac:(done) Hfl Hk) as Hk0. apply Hiff in Hfl.
      by destruct (Hfr l k (Hlt l Hl ltac:(done)) ltac:(done) Hk0 Hfl).
    + destruct (Hold j Hj Hji) as (t & c' & Ej & _ & Hiff). pose proof (Hback j k Hj Hji Hfj Hk) as Hk0. apply Hiff in Hfj.
      destruct (decide (l = i)) as [->|Hli]; [by destruct (Hfr j k (Hlt j Hj Hji) Hji Hk0 Hfj)|].
      destruct (Hold l Hl Hli) as (t2 & c2 & El & _ & Hiff2). apply Hiff2 in Hfl. by apply (Hap j l k (Hlt j Hj Hji) (Hlt l Hl Hli) Hne Hk0 Hfj).
Qed.

Lemma mk_ialloc_run st L ty : mk_ok st L → 2 + Z.of_nat (length L) ≤ NINODES → ty = T_DIR ∨ ty = T_FILE →
  ∃ st', mk_ialloc ty st = Ok (1 + Z.of_nat (length L)) st' ∧ mk_ok st' (L ++ [(ty, [])]).
Proof.
  intros Hok Hn Hty. destruct st as [im fi fb]. pose proof Hok as [Hi Hfi Hfew Hfiles Hap]. cbn [img freeblock freeinode] in *. unfold NINODES in *.
  set (L' := L ++ [(ty, [])]). set (inum := 1 + Z.of_nat (length L)) in *.
  destruct (winode_run im fb (inum + 1) inum (new_dinode ty)) as (im' & Hr & Hi' & Hst); [done|lia|apply new_dinode_ok; unfold T_DIR, T_FILE in *; lia|].
  exists (Mkst im' (inum + 1) fb). split.
  { unfold mk_ialloc. rewrite bind_gets. cbn [freeinode]. rewrite bind_modify. cbn [img freeblock]. rewrite Hfi, u32_small by lia.
    assert (Ed : Dinode (s16 (xshort ty)) 0 0 (s16 (xshort 1)) (xint 0) (replicate (S NDIRECT) 0) = new_dinode ty) by (by destruct Hty as [-> | ->]).
    rewrite Ed. by rewrite (bind_ok _ _ _ _ _ Hr). }
  apply (mk_step im fb fi im' fb (inum + 1) L L' (length L) ty []); try done.
  - unfold L'. by rewrite lookup_app_r, Nat.sub_diag by lia.
  - intros j Hj. unfold L'. destruct (decide (j < length L)%nat); [by apply lookup_app_l|].
    rewrite lookup_app_r, (lookup_ge_None_2 L) by lia. apply lookup_ge_None_2. simpl. lia.
  - unfold L'. rewrite length_app. simpl. lia.
  - unfold NINODES. lia.
  - apply new_holds; [unfold T_DIR, T_FILE in *; lia|apply Hst].
  - intros j Hj Hne. by apply Hst.
  - intros k Hk. by apply (stored_data im im' fb inum (new_dinode ty)); [|lia| |].
  - intros j k Hj Hne Hk Hf. split; [by apply (stored_data im im' fb inum (new_dinode ty)); [|lia| |]|].
    fold inum. rewrite (is_new _ _ _ _ Hst). pose proof (data_inv _ _ _ Hi Hk). intros [->|(bn & _ & E)].
    + change (iaddr (new_dinode ty)) with 0 in *. lia.
    + rewrite new_faddr in E. lia.
Qed.

(** The file after an append, once its inode is stored. *)
Lemma holds_append im fb im1 fb1 im2 inum ty c p d1 : mk_inv im1 fb1 → 0 ≤ inum < 200 →
  holds (gst im fb) inum ty c → Z.of_nat (length c) + Z.of_nat (length p) ≤ MAXFILE * BSIZE →
  wrote (gst im fb) (gst im1 fb1) (dinode_of (gst im fb) inum) d1 (Z.of_nat (length c)) p →
  inode_stored (gst im1 fb1) (gst im2 fb1) inum (set_dsize (Z.of_nat (length (c ++ p))) d1) →
  holds (gst im2 fb1) inum ty (c ++ p) ∧
  ∀ k, file_block (gst im2 fb1) (dinode_of (gst im2 fb1) inum) k → file_block (gst im1 fb1) d1 k.
Proof.
  intros Hi1 Hn [Ht Hnl Hs Hf Hby] Hmax Hw Hst. pose proof Hw as [Wb [Wt [_ Wn]] Wp Wf _ _ _ _ _ Wm].
  rewrite length_app, Nat2Z.inj_add in Hst. set (n := Z.of_nat (length c) + Z.of_nat (length p)) in *.
  destruct (inode_stored_map _ _ inum _ d1 n (gst_wf _ _ Hi1) Hn Hst Wm) as (Hm2 & Hfa & Hfb).
  { rewrite MAXFILE_eq, BSIZE_eq in Hmax. lia. }
  pose proof (is_new _ _ _ _ Hst) as E. split; [|intros k; rewrite E; intros [->|(bn & Hb & <-)]; [by left|right; exists bn; split; [done|by rewrite Hfa]]].
  split; rewrite E; cbn [set_dsize d_type d_nlink d_size].
  - congruence.
  - congruence.
  - rewrite length_app. lia.
  - eapply (file_ok_wrote (gst im fb) _ (dinode_of (gst im fb) inum) _ (Z.of_nat (length c)) (Z.of_nat (length p))); try done; [lia|lia|cbn [set_dsize d_size]; lia|..].
    + intros bn Hb Hne. rewrite Hfa. by apply Wp.
    + intros o Ho. rewrite Hfa. by apply Wf.
  - intros o Ho. rewrite Hfb, Wb by done. destruct (decide (Z.of_nat (length c) ≤ o < n)).
    + rewrite lookup_app_r by lia. by replace (Z.to_nat (o - Z.of_nat (length c))) with (Z.to_nat o - length c)%nat by lia.
    + rewrite Hby by done. destruct (decide (Z.to_nat o < length c)%nat); [by rewrite lookup_app_l|].
      rewrite !lookup_ge_None_2; [done|rewrite length_app; lia|lia].
Qed.

Lemma iappend_run st L i ty c p : mk_ok st L → L !! i = Some (ty, c) →
  Z.of_nat (length c) + Z.of_nat (length p) ≤ MAXFILE * BSIZE →
  (∃ st', iappend (1 + Z.of_nat i) p st = Ok tt st' ∧ mk_ok st' (<[i := (ty, c ++ p)]> L)) ∨
  (∃ st', iappend (1 + Z.of_nat i) p st = Err Exited st' ∧ too_big st').
Proof.
  intros Hok HLi Hmax. destruct st as [im fi fb]. pose proof Hok as [Hi Hfi Hfew Hfiles Hap]. cbn [img freeblock freeinode] in *.
  pose proof (lookup_lt_Some _ _ _ HLi) as Hlt. pose proof (mk_inum L i Hfew Hlt) as Hn. set (inum := 1 + Z.of_nat i) in *.
  pose proof (Hfiles i ty c HLi) as Hh. fold inum in Hh. set (d := dinode_of (gst im fb) inum) in *.
  pose proof Hh as [_ _ Hs [Hm _ _] _]. fold d in Hs, Hm. assert (Hsm : Z.of_nat (length c) + Z.of_nat (length p) < 4294967296) by (rewrite MAXFILE_eq, BSIZE_eq in Hmax; lia).
  unfold iappend. rewrite rinode_run by done. fold d. rewrite Hs, (xint_small (Z.of_nat (length c))) by lia.
  destruct (iappend_loop_run (length p) im fb fi d (Z.of_nat (length c)) p Hi Hm ltac:(lia) Hmax ltac:(lia)) as [(d1 & im1 & fb1 & Hr & Hi1 & Hw)|(s' & Hr & Hbig)].
  2: { right. exists s'. split; [|done]. by apply bind_err. }
  left. rewrite (bind_ok _ _ _ _ _ Hr), (xint_small (Z.of_nat (length c) + _)), <-Nat2Z.inj_add, <-length_app by lia.
  pose proof (wt_map _ _ _ _ _ _ Hw) as Hm1.
  destruct (winode_run im1 fb1 fi inum (set_dsize (Z.of_nat (length (c ++ p))) d1)) as (im2 & Hr2 & Hi2 & Hst); [done|done|
    destruct (mo_dinode _ _ Hm1); split; try done; cbn [set_dsize d_size]; rewrite length_app; lia|].
  exists (Mkst im2 fi fb1). split; [done|].
  destruct (holds_append im fb im1 fb1 im2 inum ty c p d1 Hi1 Hn Hh Hmax Hw Hst) as [Hh2 Hgrow].
  apply (mk_step im fb fi im2 fb1 fi L _ i ty (c ++ p)); try done.
  - by apply list_lookup_insert_eq.
  - intros j Hj. by apply list_lookup_insert_ne.
  - by rewrite length_insert.
  - by rewrite Hfi.
  - intros j Hj Hne. rewrite (is_others _ _ _ _ Hst) by done. pose proof (iblock_mk j Hj).
    unfold dinode_of. rewrite (wt_sb _ _ _ _ _ _ Hw), (wt_meta _ _ _ _ _ _ Hw); [done|].
    change (fs_sb (gst im fb)) with mk_sb. change (sb_bmapstart mk_sb) with 58. lia.
  - intros k Hk. apply (stored_data im1 im2 fb1 inum _ Hi1 Hn Hst), (wt_used _ _ _ _ _ _ Hw), Hk.
  - intros j k Hj Hne Hk Hf. assert (Hnf : ¬ file_block (gst im fb) d k) by (by apply (Hap j i)).
    destruct (stored_data im1 im2 fb1 inum _ Hi1 Hn Hst k (wt_used _ _ _ _ _ _ Hw k Hk)) as [-> _].
    split; [by apply Hw|]. intros Hf2%Hgrow. by apply Hnf, (wt_grow _ _ _ _ _ _ Hw).
Qed.

End inodes.

(** ** The whole image *)

Abbreviation marg := (list Z * option (list (list Z)))%type.

(** An argument that mkfs can copy. *)
Definition arg_ok (a : marg) : Prop :=
  existsb (Z.eqb 47) (a.1) = false ∧ ∃ chunks, a.2 = Some chunks ∧ Z.of_nat (length (concat chunks)) ≤ MAXFILE * BSIZE.
Definition arg_file (a : marg) : list Z := concat (default [] (a.2)).

(** The entries of the arguments, whose inodes are numbered from [inum] on. *)
Fixpoint dir_entries (inum : Z) (args : list marg) : list Z :=
  match args with
  | [] => []
  | a :: args' => mk_dirent inum (file_name (a.1)) ++ dir_entries (inum + 1) args'
  end.
Definition root_dir (args : list marg) : list Z :=
  mk_dirent ROOTINO (chars ".") ++ mk_dirent ROOTINO (chars "..") ++ dir_entries 2 args.

(** What a kernel finds in the image. *)
Record image_ok (st : mkst) (args : list marg) : Prop := {
  im_sb : decode_sb (fv (kview (img st)) 1) = mk_sb;
  im_fs : ∀ m, (m ≤ 29)%nat → fs_ok (kview (img st)) m;
  im_used : ∀ b, 0 ≤ b < FSSIZE → (used (kview (img st)) b ↔ b < freeblock st);
  im_files : ∀ i a, args !! i = Some a → let d := dinode_of (kview (img st)) (2 + Z.of_nat i) in
    d_type d = T_FILE ∧ d_nlink d = 1 ∧ file_ok (kview (img st)) d ∧ fcontents (kview (img st)) d = arg_file a;
  im_root : let d := dinode_of (kview (img st)) ROOTINO in let n := Z.of_nat (length (root_dir args)) in
    d_type d = T_DIR ∧ d_nlink d = 1 ∧ d_size d = (n / BSIZE + 1) * BSIZE ∧ map_ok (kview (img st)) d ∧
    fcontents (kview (img st)) d = root_dir args ++ replicate (Z.to_nat (d_size d - n)) 0 ∧
    (n mod BSIZE ≠ 0 → file_ok (kview (img st)) d);
  im_apart : ∀ i j k, (i ≤ length args)%nat → (j ≤ length args)%nat → i ≠ j → data_block (kview (img st)) k →
    file_block (kview (img st)) (dinode_of (kview (img st)) (1 + Z.of_nat i)) k →
    ¬ file_block (kview (img st)) (dinode_of (kview (img st)) (1 + Z.of_nat j)) k
}.

Section image.
Implicit Types (st : mkst) (L : list (Z * list Z)) (args : list marg) (im : gmap Z block) (fi fb : Z).

Lemma length_mk_dirent inum name : length (mk_dirent inum name) = 16%nat.
Proof. unfold mk_dirent. rewrite length_app, length_put16, length_take, length_app, length_replicate. unfold DIRSIZ. cbn [length]. lia. Qed.

Lemma length_dir_entries args : ∀ inum, length (dir_entries inum args) = (16 * length args)%nat.
Proof. induction args as [|a args IH]; intros inum; cbn [dir_entries length]; [done|]. rewrite length_app, length_mk_dirent, IH. lia. Qed.

(** Either the computation returns in a state with [Q], or the disk is too small. *)
Definition fits {A} (r : res mkst A) (Q : A → mkst → Prop) : Prop :=
  (∃ a st', r = Ok a st' ∧ Q a st') ∨ (∃ st', r = Err Exited st' ∧ too_big st').

Lemma fits_bind {A B} (m : M mkst A) (k : A → M mkst B) st (P : A → mkst → Prop) Q :
  fits (m st) P → (∀ a st', P a st' → fits (k a st') Q) → fits (bind m k st) Q.
Proof.
  intros [(a & st' & Hr & HP)|(st' & Hr & Hb)] Hk.
  - rewrite (bind_ok _ _ _ _ _ Hr). by apply Hk.
  - right. exists st'. split; [by apply bind_err|done].
Qed.

Lemma fits_iappend st L i ty c p : mk_ok st L → L !! i = Some (ty, c) → Z.of_nat (length c) + Z.of_nat (length p) ≤ MAXFILE * BSIZE →
  fits (iappend (1 + Z.of_nat i) p st) (λ _ st', mk_ok st' (<[i := (ty, c ++ p)]> L)).
Proof.
  intros Hok HL Hm. destruct (iappend_run st L i ty c p Hok HL Hm) as [(st' & Hr & H)|Hb]; [left; by exists tt, st'|by right].
Qed.

Lemma fits_mono {A} (r : res mkst A) (P Q : A → mkst → Prop) : fits r P → (∀ a st, P a st → Q a st) → fits r Q.
Proof. intros [(a & st & Hr & HP)|Hb] H; [left; exists a, st; auto|by right]. Qed.

Lemma fits_chunks i ty chunks : ∀ st L c, mk_ok st L → L !! i = Some (ty, c) →
  Z.of_nat (length c) + Z.of_nat (length (concat chunks)) ≤ MAXFILE * BSIZE →
  fits (append_chunks (1 + Z.of_nat i) chunks st) (λ _ st', mk_ok st' (<[i := (ty, c ++ concat chunks)]> L)).
Proof.
  induction chunks as [|p chunks IH]; intros st L c Hok HL Hm; cbn [append_chunks].
  { left. exists tt, st. split; [done|]. cbn [concat]. by rewrite app_nil_r, list_insert_id. }
  change (concat (p :: chunks)) with (p ++ concat chunks) in *. rewrite length_app in Hm.
  eapply fits_bind; [apply (fits_iappend st L i ty c p Hok HL); lia|].
  intros [] st' Hok'. rewrite app_assoc. rewrite <-(list_insert_insert_eq L i _ (ty, c ++ p)).
  apply IH; [done|apply list_lookup_insert_eq; by eapply lookup_lt_Some|rewrite length_app; lia].
Qed.

Lemma insert_last {A} (x y v : A) l : <[S (length l) := v]> (x :: l ++ [y]) = x :: l ++ [v].
Proof.
  change (x :: <[length l := v]> (l ++ [y]) = x :: l ++ [v]). f_equal. rewrite insert_app_r_alt by lia. by rewrite Nat.sub_diag.
Qed.

Lemma fits_files args : ∀ st rc fl, mk_ok st ((T_DIR, rc) :: fl) → Forall arg_ok args →
  2 + Z.of_nat (length fl) + Z.of_nat (length args) ≤ NINODES →
  Z.of_nat (length rc) + 16 * Z.of_nat (length args) ≤ MAXFILE * BSIZE →
  fits (add_files ROOTINO args st)
    (λ _ st', mk_ok st' ((T_DIR, rc ++ dir_entries (2 + Z.of_nat (length fl)) args) :: fl ++ ((λ a, (T_FILE, arg_file a)) <$> args))).
Proof.
  induction args as [|[arg file] args IH]; intros st rc fl Hok Hargs Hn Hm; cbn [add_files dir_entries fmap list_fmap].
  { left. exists tt, st. by rewrite !app_nil_r. }
  apply Forall_cons in Hargs as [(Hsl & chunks & Hf & Hlen) Hargs]. cbn [fst snd] in *. subst file. rewrite Hsl. cbn [length] in Hn, Hm.
  destruct (mk_ialloc_run st _ T_FILE Hok) as (st1 & Hr1 & Hok1); [cbn [length]; lia|by right|]. cbn [length app] in Hr1, Hok1.
  rewrite (bind_ok _ _ _ _ _ Hr1). replace (1 + Z.of_nat (S (length fl))) with (2 + Z.of_nat (length fl)) by lia. set (inum := 2 + Z.of_nat (length fl)).
  eapply fits_bind; [apply (fits_iappend st1 _ 0 T_DIR rc (mk_dirent inum (file_name arg)) Hok1 eq_refl); rewrite length_mk_dirent; lia|].
  intros [] st2 Hok2. cbn [insert list_insert] in Hok2. replace inum with (1 + Z.of_nat (S (length fl))) at 1 by lia.
  eapply fits_bind; [apply (fits_chunks (S (length fl)) T_FILE chunks st2 _ [] Hok2)|].
  { exact (list_lookup_middle fl [] (T_FILE, []) _ eq_refl). } { cbn [length]. lia. }
  intros [] st3 Hok3. rewrite insert_last in Hok3. cbn [app] in Hok3.
  eapply fits_mono; [apply (IH st3 _ _ Hok3 Hargs)|].
  { rewrite length_app. simpl. lia. } { rewrite length_app, length_mk_dirent. lia. }
  intros [] st4. rewrite <-!app_assoc. rewrite length_app. cbn [app length].
  by replace (2 + Z.of_nat (length fl + 1)) with (inum + 1) by lia.
Qed.

Lemma zero_sectors_run n : ∀ i im fi fb, ∃ im', zero_sectors n i (Mkst im fi fb) = Ok tt (Mkst im' fi fb) ∧
  ∀ k, im' !! k = if decide (i ≤ k < i + Z.of_nat n) then Some zero_block else im !! k.
Proof.
  induction n as [|n IH]; intros i im fi fb; cbn [zero_sectors].
  { exists im. split; [done|]. intros k. by rewrite decide_False by lia. }
  unfold wsect. rewrite bind_modify. cbn [img freeinode freeblock]. destruct (IH (i + 1) (<[i := zero_block]> im) fi fb) as (im' & Hr & Hk).
  exists im'. split; [done|]. intros k. rewrite Hk. destruct (decide (k = i)) as [->|].
  - rewrite decide_False, decide_True by lia. by rewrite lookup_insert_eq.
  - rewrite lookup_insert_ne by done. destruct (decide (i + 1 ≤ k < i + 1 + Z.of_nat n)); [by rewrite decide_True by lia|by rewrite decide_False by lia].
Qed.

(** The blank image with its superblock. *)
Lemma blank_image im : (∀ k, im !! k = if decide (0 ≤ k < 0 + Z.of_nat (Z.to_nat FSSIZE)) then Some zero_block else None) →
  mk_ok (Mkst (<[1 := sb_block]> im) 1 nmeta) [].
Proof.
  intros Hk. unfold FSSIZE in *. split; cbn [img freeinode freeblock length]; [|done|done|done|lia].
  split; unfold FSSIZE; change nmeta with 59.
  - intros k Hr. destruct (decide (k = 1)) as [->|]; [exists sb_block; by rewrite lookup_insert_eq|].
    exists zero_block. rewrite lookup_insert_ne, Hk, decide_True by lia. done.
  - intros k Hr. rewrite lookup_insert_ne, Hk, decide_False by lia. done.
  - lia.
  - intros k Hr. rewrite lookup_insert_ne, Hk, decide_True by lia. done.
  - rewrite lookup_insert_ne, Hk, decide_True by lia. done.
  - by rewrite lookup_insert_eq.
Qed.

Lemma holds_contents s j ty c : holds s j ty c → fcontents s (dinode_of s j) = c.
Proof.
  intros [_ _ Hs [_ Hsz _] Hby]. unfold fcontents. rewrite Hs in *. apply list_eq. intros i. rewrite fbytes_lookup, Nat2Z.id.
  destruct (decide (i < length c)%nat) as [Hi|Hi]; [|by rewrite lookup_ge_None_2 by lia].
  rewrite Hby by lia. destruct (lookup_lt_is_Some_2 c i Hi) as [v Hv]. replace (Z.to_nat (0 + Z.of_nat i)) with i by lia. by rewrite Hv.
Qed.

(** The fixed size of the root directory: its last block, or one more, is
    filled up with zeros. *)
Lemma root_fixed im im' fb c : mk_inv im fb → holds (gst im fb) ROOTINO T_DIR c →
  let n := Z.of_nat (length c) in let z := (n / BSIZE + 1) * BSIZE in z ≤ MAXFILE * BSIZE →
  inode_stored (gst im fb) (gst im' fb) ROOTINO (set_dsize z (dinode_of (gst im fb) ROOTINO)) →
  let d := dinode_of (gst im' fb) ROOTINO in
  d_type d = T_DIR ∧ d_nlink d = 1 ∧ d_size d = z ∧ map_ok (gst im' fb) d ∧
  fcontents (gst im' fb) d = c ++ replicate (Z.to_nat (z - n)) 0 ∧
  (n mod BSIZE ≠ 0 → file_ok (gst im' fb) d) ∧ ∀ k, file_block (gst im' fb) d k ↔ file_block (gst im fb) (dinode_of (gst im fb) ROOTINO) k.
Proof.
  intros Hi [Ht Hn Hs [Hm Hsz Hfull] Hby] n z Hz Hst d. assert (Hnz : 0 ≤ n < z) by (unfold n, z; rewrite BSIZE_eq; Z.div_mod_to_equations; lia).
  destruct (inode_stored_map _ _ ROOTINO _ (dinode_of (gst im fb) ROOTINO) z (gst_wf _ _ Hi) ltac:(done) Hst Hm) as (Hm' & Hfa & Hfb);
    [rewrite MAXFILE_eq, BSIZE_eq in Hz; lia|].
  assert (E : d = set_dsize z (dinode_of (gst im fb) ROOTINO)) by apply Hst. rewrite E. cbn [set_dsize d_type d_nlink d_size].
  split_and!; try done.
  - unfold fcontents. cbn [set_dsize d_size]. apply list_eq. intros i. rewrite fbytes_lookup, lookup_app.
    destruct (decide (i < Z.to_nat z)%nat) as [Hlt|Hge].
    + rewrite Hfb, Hby by lia. replace (Z.to_nat (0 + Z.of_nat i)) with i by lia. destruct (c !! i) as [v|] eqn:Ec; [done|].
      apply lookup_ge_None in Ec. rewrite lookup_replicate_2 by lia. done.
    + rewrite lookup_ge_None_2 by lia. rewrite lookup_ge_None_2; [done|]. rewrite length_replicate. lia.
  - intros Hmod. split; [done|done|]. cbn [set_dsize d_size]. intros bn Hb Hlt. rewrite Hfa. apply Hfull; [done|]. rewrite Hs. fold n. unfold z in Hlt.
    rewrite BSIZE_eq in *. Z.div_mod_to_equations. lia.
  - intros k. split; (intros [->|(bn & Hb & <-)]; [by left|right; exists bn; split; [done|by rewrite Hfa]]).
Qed.

Lemma mk_finish_run st args : (length args ≤ 198)%nat →
  mk_ok st ((T_DIR, root_dir args) :: ((λ a, (T_FILE, arg_file a)) <$> args)) →
  ∃ st', mk_finish ROOTINO st = Ok tt st' ∧ image_ok st' args.
Proof.
  intros Hlen Hok. destruct st as [im fi fb]. pose proof Hok as [Hi _ Hfew Hfiles Hap]. cbn [img freeblock freeinode] in *.
  set (L := (T_DIR, root_dir args) :: _) in *. pose proof (inv_bounds _ _ Hi) as Hf.
  assert (HL : length L = S (length args)) by (unfold L; cbn [length]; by rewrite length_fmap).
  pose proof (Hfiles 0%nat _ _ eq_refl) as Hroot. change (1 + Z.of_nat 0) with ROOTINO in Hroot.
  assert (Hn : Z.of_nat (length (root_dir args)) = 32 + 16 * Z.of_nat (length args)).
  { unfold root_dir. rewrite !length_app, !length_mk_dirent, length_dir_entries. lia. }
  set (n := Z.of_nat (length (root_dir args))) in *. set (z := (n / BSIZE + 1) * BSIZE).
  assert (Hz : 0 ≤ z ≤ MAXFILE * BSIZE) by (unfold z; rewrite MAXFILE_eq, BSIZE_eq; Z.div_mod_to_equations; lia).
  pose proof (ho_size _ _ _ _ Hroot) as Hs. fold n in Hs. pose proof (fo_map _ _ (ho_ok _ _ _ _ Hroot)) as Hm.
  destruct (winode_run im fb fi ROOTINO (set_dsize z (dinode_of (gst im fb) ROOTINO))) as (im' & Hr & Hi' & Hst); [done|done|
    destruct (mo_dinode _ _ Hm); split; try done; cbn [set_dsize d_size]; rewrite MAXFILE_eq, BSIZE_eq in Hz; lia|].
  exists (Mkst (<[58 := bitmap fb]> im') fi fb). split.
  { unfold mk_finish. rewrite rinode_run by done. rewrite Hs, (xint_small n) by lia. fold z.
    rewrite (xint_small z) by (rewrite MAXFILE_eq, BSIZE_eq in Hz; lia). rewrite (bind_ok _ _ _ _ _ Hr), bind_gets. cbn [freeblock].
    unfold mk_balloc. rewrite (proj2 (Z.ltb_lt _ _)) by (rewrite BSIZE_eq; lia). done. }
  assert (Hg : kview (<[58 := bitmap fb]> im') = gst im' fb) by done.
  destruct (root_fixed im im' fb (root_dir args) Hi Hroot) as (R1 & R2 & R3 & R4 & R5 & R6 & R7); [apply Hz|done|].
  assert (Hold : ∀ j ty c, L !! S j = Some (ty, c) → holds (gst im' fb) (1 + Z.of_nat (S j)) ty c ∧
    ∀ k, file_block (gst im' fb) (dinode_of (gst im' fb) (1 + Z.of_nat (S j))) k ↔ file_block (gst im fb) (dinode_of (gst im fb) (1 + Z.of_nat (S j))) k).
  { intros j ty c Hj. apply holds_frame; [by apply Hfiles|apply Hst; unfold ROOTINO; lia|..];
      intros k Hk; intros; by apply (stored_data im im' fb ROOTINO _ Hi ltac:(done) Hst). }
  assert (Hblk : ∀ j k, (j ≤ length args)%nat → file_block (gst im' fb) (dinode_of (gst im' fb) (1 + Z.of_nat j)) k ↔
    file_block (gst im fb) (dinode_of (gst im fb) (1 + Z.of_nat j)) k).
  { intros [|j] k Hj; [apply R7|]. destruct (lookup_lt_is_Some_2 L (S j)) as [[ty c] E]; [lia|]. by apply (Hold j ty c). }
  split; cbn [img freeblock]; rewrite ?Hg.
  - rewrite fv_gst. cbn [decide]. unfold blk. rewrite (mi_sb _ _ Hi'). by vm_compute.
  - intros m Hm'. by apply gst_ok.
  - intros b Hb. apply used_gst; [unfold FSSIZE; lia|done].
  - intros i a Ha. destruct (Hold i T_FILE (arg_file a)) as [Hh _]; [change (((λ a, (T_FILE, arg_file a)) <$> args) !! i = Some (T_FILE, arg_file a)); by rewrite list_lookup_fmap, Ha|].
    replace (2 + Z.of_nat i) with (1 + Z.of_nat (S i)) by lia. cbn zeta. split_and!; [apply Hh..|by eapply holds_contents].
  - cbn zeta. fold n. rewrite R3. by split_and!.
  - intros i j k Hi1 Hj1 Hne Hk. rewrite !Hblk by done. apply Hap; [lia|lia|done|]. apply data_gst in Hk; [|unfold FSSIZE; lia].
    apply data_gst; [unfold FSSIZE; lia|done].
Qed.

End image.


(** A text and a program. *)
Definition demo_args : list marg :=
  [(chars "README", Some [chars "hello"; chars " world"]); (chars "_cat", Some [replicate 512 7; [8]])].


(** With 30 arguments the entries of the root directory fill its block, and the
    fixed size includes a block that is not there. *)
Lemma mkfs_root_hole :
  match mkfs_main (replicate 30 ([120], Some [])) mkst0 with
  | Ok _ st => d_size (dinode_of (kview (img st)) ROOTINO) = 1024 ∧ faddr (kview (img st)) (dinode_of (kview (img st)) ROOTINO) 1 = 0
  | Err _ _ => False
  end.
Proof. vm_compute. by split. Qed.
