(* ===== verification/Grep.v ===== *)
(** grep: grep.c

    Patterns and lines are the bytes before the terminator; the end of the list
    is the NUL that the code tests for.  The matcher is shown to decide the
    language of the pattern: [parse] reads the pattern into items, [lang] is
    what they stand for. *)

From stdpp Require Import list numbers strings.
From Stdlib Require Import ZArith Lia.
From S2P Require Import Prelude Mem Ulib.

(** ** The matcher *)

(** [matchstar(c, re, text)]; [here] is [matchhere] of [re]. *)
Fixpoint matchstar (here : list Z → bool) (c : Z) (text : list Z) : bool :=
  if here text then true
  else
    match text with
    | [] => false
    | t :: text' => if (t =? c) || (c =? 46) then matchstar here c text' else false
    end.

Fixpoint matchhere (re text : list Z) {struct re} : bool :=
  match re with
  | [] => true
  | c :: re1 =>
      let one :=
        match text with
        | [] => false
        | t :: text' => if (c =? 46) || (c =? t) then matchhere re1 text' else false
        end in
      match re1 with
      | s :: re2 => if s =? 42 then matchstar (matchhere re2) c text else one
      | [] => if c =? 36 then bool_decide (text = []) else one
      end
  end.

(** The loop of [match]: every suffix of the text, the empty one too. *)
Fixpoint match_loop (re text : list Z) : bool :=
  if matchhere re text then true
  else
    match text with
    | [] => false
    | _ :: text' => match_loop re text'
    end.

Definition match_ (re text : list Z) : bool :=
  match re with
  | c :: re' => if c =? 94 then matchhere re' text else match_loop re text
  | [] => match_loop re text
  end.

(** ** The program *)

(** [strchr(p, '\n')] in the buffer: the line and what follows its newline. *)
Fixpoint split_line (p : list Z) : option (list Z * list Z) :=
  match p with
  | [] => None
  | c :: p' =>
      if c =? 0 then None
      else if c =? 10 then Some ([], p')
      else match split_line p' with Some (l, r) => Some (c :: l, r) | None => None end
  end.

Definition GREP_BUF : Z := 1024.

Section grep.
Context {S : Type} `{usys S}.

(** The inner loop: the lines in the buffer; what is left after the last
    newline.  Every round consumes a byte at least. *)
Fixpoint grep_lines (fuel : nat) (pattern p : list Z) : M S (list Z) :=
  match split_line p with
  | None => ret p
  | Some (l, r) =>
      match fuel with
      | O => fail NoFuel
      | Datatypes.S fuel' =>
          (if match_ pattern l then us_write 1 (l ++ [10]) ;;; ret tt else ret tt) ;;;
          grep_lines fuel' pattern r
      end
  end.

(** The outer loop; [buf] holds the [m] bytes kept from the round before.
    [fuel] bounds the number of reads. *)
Fixpoint grep (fuel : nat) (pattern : list Z) (fd : Z) (buf : list Z) : M S unit :=
  match fuel with
  | O => fail NoFuel
  | Datatypes.S fuel' =>
      ' (n, bs) <- us_read fd (GREP_BUF - Z.of_nat (length buf) - 1) ;;
      if 0 <? n then
        let buf := buf ++ bs in
        p <- grep_lines (length buf) pattern buf ;;
        grep fuel' pattern fd (if bool_decide (length p = length buf) then [] else p)
      else ret tt
  end.

(** The loop of [main] over the files. *)
Fixpoint grep_files (fuel : nat) (pattern : list Z) (files : list (list Z)) : M S unit :=
  match files with
  | [] => uexit
  | f :: files' =>
      fd <- us_open f 0 ;;
      if fd <? 0 then printf 1 (chars "grep: cannot open %s") [AStr (Some f)] ;;; putc 1 10 ;;; uexit
      else grep fuel pattern fd [] ;;; us_close fd ;;; grep_files fuel pattern files'
  end.

(** [main]; [argv] without the program's name. *)
Definition grep_main (fuel : nat) (argv : list (list Z)) : M S unit :=
  match argv with
  | [] => printf 2 (chars "usage: grep pattern [file ...]") [] ;;; putc 2 10 ;;; uexit
  | pattern :: [] => grep fuel pattern 0 [] ;;; uexit
  | pattern :: files => grep_files fuel pattern files
  end.

End grep.

(** ** The language of a pattern *)

(** One character or any number of characters that [c] stands for. *)
Inductive item := One (c : Z) | Star (c : Z).

(** The items of a pattern after [^], and whether a [$] ends it. *)
Fixpoint parse (re : list Z) : list item * bool :=
  match re with
  | [] => ([], false)
  | c :: re1 =>
      match re1 with
      | s :: re2 =>
          if s =? 42 then let (l, e) := parse re2 in (Star c :: l, e)
          else let (l, e) := parse re1 in (One c :: l, e)
      | [] => if c =? 36 then ([], true) else ([One c], false)
      end
  end.

(** [c] of a pattern stands for the character [t]. *)
Definition stands_for (c t : Z) : Prop := c = 46 ∨ c = t.

(** The strings that a list of items describes. *)
Inductive lang : list item → list Z → Prop :=
| lang_nil : lang [] []
| lang_one c t l s : stands_for c t → lang l s → lang (One c :: l) (t :: s)
| lang_star_done c l s : lang l s → lang (Star c :: l) s
| lang_star_more c t l s : stands_for c t → lang (Star c :: l) s → lang (Star c :: l) (t :: s).

(** [text] begins with a string of the language, and ends with it if [e]. *)
Definition prefix_match (p : list item * bool) (text : list Z) : Prop :=
  ∃ s rest, text = s ++ rest ∧ lang (p.1) s ∧ (p.2 = true → rest = []).

Section matcher.
Implicit Types (re text : list Z).

Lemma stands_for_spec c t : (c =? 46) || (c =? t) = true ↔ stands_for c t.
Proof. unfold stands_for. rewrite orb_true_iff, !Z.eqb_eq. done. Qed.

Lemma prefix_match_one c l e text :
  prefix_match (One c :: l, e) text ↔ ∃ t text', text = t :: text' ∧ stands_for c t ∧ prefix_match (l, e) text'.
Proof.
  unfold prefix_match. cbn [fst snd]. split.
  - intros (s & rest & -> & Hl & He). inversion Hl; subst. cbn. eauto 10.
  - intros (t & text' & -> & Hc & s & rest & -> & Hl & He). exists (t :: s), rest. eauto using lang.
Qed.

Lemma prefix_match_star c l e text :
  prefix_match (Star c :: l, e) text ↔
  prefix_match (l, e) text ∨ ∃ t text', text = t :: text' ∧ stands_for c t ∧ prefix_match (Star c :: l, e) text'.
Proof.
  unfold prefix_match. cbn [fst snd]. split.
  - intros (s & rest & -> & Hl & He). inversion Hl; subst; [left; eauto 10|right; cbn; eauto 10].
  - intros [(s & rest & -> & Hl & He)|(t & text' & -> & Hc & s & rest & -> & Hl & He)].
    + exists s, rest. eauto using lang.
    + exists (t :: s), rest. eauto using lang.
Qed.

Lemma matchstar_spec here c p : (∀ text, here text = true ↔ prefix_match p text) →
  ∀ text, matchstar here c text = true ↔ prefix_match (Star c :: p.1, p.2) text.
Proof.
  intros Hh text. induction text as [|t text IH]; rewrite prefix_match_star, <-surjective_pairing, <-Hh; cbn [matchstar].
  - destruct (here []); [naive_solver|]. naive_solver.
  - destruct (here (t :: text)); [naive_solver|].
    assert (Hc : (t =? c) || (c =? 46) = (c =? 46) || (c =? t)) by (rewrite orb_comm; f_equal; apply Z.eqb_sym).
    rewrite Hc. pose proof (stands_for_spec c t) as Hs. destruct ((c =? 46) || (c =? t)); [rewrite IH|]; naive_solver.
Qed.

(** [matchhere] decides whether the text begins with the pattern. *)
Lemma matchhere_spec : ∀ n re text, (length re ≤ n)%nat → matchhere re text = true ↔ prefix_match (parse re) text.
Proof.
  induction n as [|n IH]; intros re text Hn; (destruct re as [|c re1]; [|cbn [length] in Hn]); try lia.
  1,2: split; [intros _; exists [], text; split_and!; [done|constructor|done]|done].
  assert (Hone : match text with [] => false | t :: text' => if (c =? 46) || (c =? t) then matchhere re1 text' else false end
                 = true ↔ prefix_match (One c :: (parse re1).1, (parse re1).2) text).
  { rewrite prefix_match_one, <-surjective_pairing. destruct text as [|t text']; [naive_solver|].
    pose proof (stands_for_spec c t) as Hs. pose proof (IH re1 text') as Hi.
    destruct ((c =? 46) || (c =? t)); [rewrite Hi by lia|]; naive_solver. }
  cbn [matchhere parse]. destruct re1 as [|s re2].
  - destruct (c =? 36); [|exact Hone]. rewrite bool_decide_eq_true. unfold prefix_match. cbn [fst snd]. split.
    + intros ->. exists [], []. split_and!; [done|constructor|done].
    + intros (s & rest & -> & Hl & He). inversion Hl. by rewrite He.
  - destruct (s =? 42).
    + rewrite (matchstar_spec _ c (parse re2)) by (intros; apply IH; cbn [length] in Hn; lia).
      by destruct (parse re2).
    + by destruct (parse (s :: re2)).
Qed.

Lemma match_loop_spec re text : match_loop re text = true ↔ ∃ pre suf, text = pre ++ suf ∧ prefix_match (parse re) suf.
Proof.
  assert (Hh : ∀ t, matchhere re t = true ↔ prefix_match (parse re) t) by (intros; by apply (matchhere_spec (length re))).
  induction text as [|t text IH]; cbn [match_loop].
  - specialize (Hh []). destruct (matchhere re []) eqn:E; split; try done.
    + intros _. exists [], []. naive_solver.
    + intros (pre & suf & Heq & Hp). symmetry in Heq. apply app_nil in Heq as [-> ->]. naive_solver.
  - specialize (Hh (t :: text)). destruct (matchhere re (t :: text)) eqn:E.
    + split; [|done]. intros _. exists [], (t :: text). naive_solver.
    + rewrite IH. split.
      * intros (pre & suf & -> & Hp). by exists (t :: pre), suf.
      * intros ([|t' pre] & suf & Heq & Hp); cbn in Heq; [subst; naive_solver|].
        injection Heq as <- ->. eauto.
Qed.

End matcher.

(** C37. The regular expression matcher is exact.  [match] of a pattern and a
    line returns true iff the line contains a string that the pattern
    describes, where a character stands for itself, a dot for any character, a
    star for any number of the preceding character, a leading caret ties the
    string to the start of the line and a final dollar to its end. *)
Theorem match_correct (re text : list Z) :
  let anchored := bool_decide (head re = Some 94) in
  let p := parse (if anchored then tail re else re) in
  match_ re text = true ↔
  ∃ pre s rest, text = pre ++ s ++ rest ∧ lang (p.1) s ∧
    (anchored = true → pre = []) ∧ (p.2 = true → rest = []).
Proof.
  assert (Hloop : ∀ r, match_loop r text = true ↔
    ∃ pre s rest, text = pre ++ s ++ rest ∧ lang ((parse r).1) s ∧ ((parse r).2 = true → rest = [])).
  { intros r. rewrite match_loop_spec. unfold prefix_match. naive_solver. }
  destruct re as [|c re]; [rewrite bool_decide_eq_false_2 by done; cbn; rewrite Hloop; naive_solver|].
  cbn [match_ head]. destruct (Z.eqb_spec c 94) as [->|Hne].
  - rewrite bool_decide_eq_true_2 by done. cbn [tail]. rewrite (matchhere_spec (length re)) by done.
    unfold prefix_match. split.
    + intros (s & rest & -> & Hl & He). by exists [], s, rest.
    + intros (pre & s & rest & -> & Hl & Hp & He). rewrite (Hp eq_refl). by exists s, rest.
  - rewrite bool_decide_eq_false_2 by congruence. rewrite Hloop. naive_solver.
Qed.

(** A kernel whose reads return the given chunks, and which collects what is
    written. *)
#[local] Instance chunked_input : usys (list (list Z) * list Z) :=
  Usys _ (fail Fault) (fail Fault) (fail Fault)
    (λ fd bs s, Ok (Z.of_nat (length bs)) (s.1, s.2 ++ bs))
    (λ fd n s, match s.1 with [] => Ok (0, []) s | c :: cs => Ok (Z.of_nat (length c), c) (cs, s.2) end)
    (λ _, fail Fault) (λ _, fail Fault) (λ _ _, fail Fault) (λ _ _, fail Fault) (λ _ _ _, fail Fault)
    (λ _, fail Fault) (λ _, fail Fault) (λ _ _, fail Fault) (λ _, fail Fault) (λ _, fail Fault)
    (λ _, fail Fault) (λ _, fail Fault) (λ _, fail Fault).

(** A line that arrives whole is found, but a line that two reads deliver in
    parts loses its first part when the first read has no newline. *)
Lemma grep_loses_partial_line :
  grep 3 (chars "abc") 0 [] ([chars "abc" ++ [10]], []) = Ok tt ([], chars "abc" ++ [10]) ∧
  grep 3 (chars "abc") 0 [] ([chars "ab"; chars "c" ++ [10]], []) = Ok tt ([], []).
Proof. split; vm_compute; reflexivity. Qed.
