(* ===== verification/Uprogs.v ===== *)
(** Small user programs: cat.c, echo.c, wc.c, kill.c, ln.c, rm.c, mkdir.c, ls.c,
    init.c, zombie.c

    Each [main] takes its arguments without the program's name and ends in
    [exit()].  [fuel] bounds the number of reads of a file, of entries of a
    directory, or of children.

    [wc] is compared with counts that are defined on the whole text, however the
    kernel cuts it into reads; [cat] writes what it reads. *)

From stdpp Require Import gmap list numbers strings.
From Stdlib Require Import ZArith Lia.
From S2P Require Import Prelude StringC Fs Sysfile Ulib.

Section programs.
Context {S : Type} `{usys S}.

(** A message and its newline. *)
Definition say (fd : Z) (fmt : list Z) (ap : list parg) : M S unit := printf fd (fmt ++ [10]) ap.

(** ** cat.c *)

Fixpoint cat (fuel : nat) (fd : Z) : M S unit :=
  match fuel with
  | O => fail NoFuel
  | Datatypes.S fuel' =>
      ' (n, buf) <- us_read fd 512 ;;
      if 0 <? n then
        w <- us_write 1 buf ;;
        if negb (w =? n) then say 1 (chars "cat: write error") [] ;;; uexit
        else cat fuel' fd
      else if n <? 0 then say 1 (chars "cat: read error") [] ;;; uexit
      else ret tt
  end.

Fixpoint cat_files (fuel : nat) (argv : list (list Z)) : M S unit :=
  match argv with
  | [] => uexit
  | f :: argv' =>
      fd <- us_open f 0 ;;
      if fd <? 0 then say 1 (chars "cat: cannot open %s") [AStr (Some f)] ;;; uexit
      else cat fuel fd ;;; us_close fd ;;; cat_files fuel argv'
  end.

Definition cat_main (fuel : nat) (argv : list (list Z)) : M S unit :=
  match argv with
  | [] => cat fuel 0 ;;; uexit
  | _ => cat_files fuel argv
  end.

(** ** echo.c *)

Fixpoint echo_main (argv : list (list Z)) : M S unit :=
  match argv with
  | [] => uexit
  | a :: argv' =>
      printf 1 (chars "%s%s") [AStr (Some a); AStr (Some (match argv' with [] => [10] | _ => [32] end))] ;;;
      echo_main argv'
  end.

(** ** wc.c *)

(** The counters, as [int]s. *)
Record wc_st := Wc { wl : Z; ww : Z; wch : Z; inword : bool }.

(** The characters between words: space, return, tab, newline, vertical tab. *)
Definition wc_space : list Z := [32; 13; 9; 10; 11].

(** One round of the inner loop. *)
Definition wc_char (x : wc_st) (b : Z) : wc_st :=
  let c := s32 (wch x + 1) in
  let l := if b =? 10 then s32 (wl x + 1) else wl x in
  match strchr (wc_space ++ [0]) b with
  | Some (Some _) => Wc l (ww x) c false
  | _ => if negb (inword x) then Wc l (s32 (ww x + 1)) c true else Wc l (ww x) c (inword x)
  end.

Fixpoint wc_loop (fuel : nat) (fd : Z) (x : wc_st) : M S (Z * wc_st) :=
  match fuel with
  | O => fail NoFuel
  | Datatypes.S fuel' =>
      ' (n, buf) <- us_read fd 512 ;;
      if 0 <? n then wc_loop fuel' fd (foldl wc_char x buf) else ret (n, x)
  end.

Definition wc (fuel : nat) (fd : Z) (name : list Z) : M S unit :=
  ' (n, x) <- wc_loop fuel fd (Wc 0 0 0 false) ;;
  if n <? 0 then say 1 (chars "wc: read error") [] ;;; uexit
  else say 1 (chars "%d %d %d %s") [AInt (wl x); AInt (ww x); AInt (wch x); AStr (Some name)].

Fixpoint wc_files (fuel : nat) (argv : list (list Z)) : M S unit :=
  match argv with
  | [] => uexit
  | f :: argv' =>
      fd <- us_open f 0 ;;
      if fd <? 0 then say 1 (chars "wc: cannot open %s") [AStr (Some f)] ;;; uexit
      else wc fuel fd f ;;; us_close fd ;;; wc_files fuel argv'
  end.

Definition wc_main (fuel : nat) (argv : list (list Z)) : M S unit :=
  match argv with
  | [] => wc fuel 0 [] ;;; uexit
  | _ => wc_files fuel argv
  end.

(** ** kill.c, ln.c, rm.c, mkdir.c *)

Fixpoint kill_pids (argv : list (list Z)) : M S unit :=
  match argv with
  | [] => uexit
  | a :: argv' => pid <- deref (atoi (a ++ [0])) ;; us_kill pid ;;; kill_pids argv'
  end.

Definition kill_main (argv : list (list Z)) : M S unit :=
  match argv with
  | [] => say 2 (chars "usage: kill pid...") [] ;;; uexit
  | _ => kill_pids argv
  end.

Definition ln_main (argv : list (list Z)) : M S unit :=
  match argv with
  | [old; new] =>
      r <- us_link old new ;;
      (if r <? 0 then say 2 (chars "link %s %s: failed") [AStr (Some old); AStr (Some new)] else ret tt) ;;;
      uexit
  | _ => say 2 (chars "Usage: ln old new") [] ;;; uexit
  end.

Fixpoint rm_files (argv : list (list Z)) : M S unit :=
  match argv with
  | [] => uexit
  | f :: argv' =>
      r <- us_unlink f ;;
      if r <? 0 then say 2 (chars "rm: %s failed to delete") [AStr (Some f)] ;;; uexit else rm_files argv'
  end.

Definition rm_main (argv : list (list Z)) : M S unit :=
  match argv with
  | [] => say 2 (chars "Usage: rm files...") [] ;;; uexit
  | _ => rm_files argv
  end.

Fixpoint mkdir_files (argv : list (list Z)) : M S unit :=
  match argv with
  | [] => uexit
  | f :: argv' =>
      r <- us_mkdir f ;;
      if r <? 0 then say 2 (chars "mkdir: %s failed to create") [AStr (Some f)] ;;; uexit else mkdir_files argv'
  end.

Definition mkdir_main (argv : list (list Z)) : M S unit :=
  match argv with
  | [] => say 2 (chars "Usage: mkdir files...") [] ;;; uexit
  | _ => mkdir_files argv
  end.

(** ** ls.c *)

(** The scan of [fmtname] from index [i] down: the index after the last slash. *)
Fixpoint after_slash (i : nat) (path : list Z) : nat :=
  match path !! i with
  | Some 47 => Datatypes.S i
  | _ => match i with O => O | Datatypes.S i' => after_slash i' path end
  end.

Definition fmtname (path : list Z) : list Z :=
  let p := drop (after_slash (length path) path) path in
  if bool_decide (DIRSIZ ≤ length p)%nat then p else p ++ replicate (DIRSIZ - length p) 32.

Definition ls_line (name : list Z) (x : stat) : M S unit :=
  say 1 (chars "%s %d %d %d") [AStr (Some name); AInt (st_type x); AInt (st_ino x); AInt (st_size x)].

(** The loop over the entries of a directory; [p] is the path and its slash. *)
Fixpoint ls_entries (fuel : nat) (fd : Z) (p : list Z) : M S unit :=
  match fuel with
  | O => fail NoFuel
  | Datatypes.S fuel' =>
      ' (n, de) <- us_read fd sizeof_dirent ;;
      if negb (n =? sizeof_dirent) then ret tt
      else if de_inum de =? 0 then ls_entries fuel' fd p
      else
        let buf := p ++ cstr (de_name de) in
        ' (r, x) <- stat_path buf ;;
        match x with
        | Some x => if r <? 0 then say 1 (chars "ls: cannot stat %s") [AStr (Some buf)] else ls_line (fmtname buf) x
        | None => say 1 (chars "ls: cannot stat %s") [AStr (Some buf)]
        end ;;;
        ls_entries fuel' fd p
  end.

Definition ls (fuel : nat) (path : list Z) : M S unit :=
  fd <- us_open path 0 ;;
  if fd <? 0 then say 2 (chars "ls: cannot open %s") [AStr (Some path)]
  else
    ' (r, x) <- us_fstat fd ;;
    if r <? 0 then say 2 (chars "ls: cannot stat %s") [AStr (Some path)] ;;; us_close fd ;;; ret tt
    else
      (if st_type x =? T_FILE then ls_line (fmtname path) x
       else if st_type x =? T_DIR then
         if bool_decide (512 < length path + 1 + DIRSIZ + 1)%nat then say 1 (chars "ls: path too long") []
         else ls_entries fuel fd (path ++ [47])
       else ret tt) ;;;
      us_close fd ;;;
      ret tt.

Fixpoint ls_paths (fuel : nat) (argv : list (list Z)) : M S unit :=
  match argv with
  | [] => uexit
  | p :: argv' => ls fuel p ;;; ls_paths fuel argv'
  end.

Definition ls_main (fuel : nat) (argv : list (list Z)) : M S unit :=
  match argv with
  | [] => ls fuel (chars ".") ;;; uexit
  | _ => ls_paths fuel argv
  end.

(** ** init.c and zombie.c *)

Fixpoint init_wait (fuel : nat) (pid : Z) : M S unit :=
  match fuel with
  | O => fail NoFuel
  | Datatypes.S fuel' =>
      wpid <- us_wait ;;
      if (0 <=? wpid) && negb (wpid =? pid) then say 1 (chars "zombie!") [] ;;; init_wait fuel' pid else ret tt
  end.

(** The loop that restarts the shell. *)
Fixpoint init_loop (fuel : nat) : M S unit :=
  match fuel with
  | O => fail NoFuel
  | Datatypes.S fuel' =>
      say 1 (chars "init: starting sh") [] ;;;
      pid <- us_fork ;;
      if pid <? 0 then say 1 (chars "init: fork failed") [] ;;; uexit
      else if pid =? 0 then
        us_exec (chars "sh") [chars "sh"] ;;;
        say 1 (chars "init: exec sh failed") [] ;;;
        uexit
      else init_wait fuel pid ;;; init_loop fuel'
  end.

Definition init_main (fuel : nat) : M S unit :=
  r <- us_open (chars "console") O_RDWR ;;
  (if r <? 0 then us_mknod (chars "console") 1 1 ;;; us_open (chars "console") O_RDWR ;;; ret tt else ret tt) ;;;
  us_dup 0 ;;;
  us_dup 0 ;;;
  init_loop fuel.

Definition zombie_main : M S unit :=
  pid <- us_fork ;;
  (if 0 <? pid then us_sleep 5 ;;; ret tt else ret tt) ;;;
  uexit.

End programs.

(** ** Counting and copying *)

(** The text cut at the characters between words. *)
Fixpoint pieces (l : list Z) : list (list Z) :=
  match l with
  | [] => [[]]
  | c :: l' =>
      if bool_decide (c ∈ wc_space) then [] :: pieces l'
      else match pieces l' with w :: ws => (c :: w) :: ws | [] => [[c]] end
  end.

Definition nonempty (w : list Z) : Prop := w ≠ [].
#[global] Instance nonempty_dec w : Decision (nonempty w) := ltac:(unfold nonempty; apply _).

Definition n_lines (l : list Z) : Z := Z.of_nat (length (filter (λ c, c = 10) l)).
Definition n_words (l : list Z) : Z := Z.of_nat (length (filter nonempty (pieces l))).
(** The words that begin in [l] if it starts inside a word. *)
Definition more_words (l : list Z) : Z := Z.of_nat (length (filter nonempty (tail (pieces l)))).

(** What a program relies on to read [fd] and print: a read takes a part of what
    is left of the input, nothing only at its end; a write to the standard
    output is complete. *)
Class stream (S : Type) `{usys S} (fd : Z) := {
  inp : S → list Z;
  out : S → list Z;
  stream_read s : ∃ bs s', us_read fd 512 s = Ok (Z.of_nat (length bs), bs) s' ∧ inp s = bs ++ inp s' ∧
    (bs = [] → inp s = []) ∧ out s' = out s;
  stream_write buf s : ∃ s', us_write 1 buf s = Ok (Z.of_nat (length buf)) s' ∧ out s' = out s ++ buf ∧ inp s' = inp s
}.

Section counting.
Implicit Types (l : list Z) (x : wc_st).

Lemma pieces_cons l : ∃ w ws, pieces l = w :: ws.
Proof.
  destruct l as [|c l]; cbn [pieces]; [by eauto|]. destruct (bool_decide _); [by eauto|]. destruct (pieces l); by eauto.
Qed.

Lemma wc_char_spec x b : wc_char x b =
  Wc (if b =? 10 then s32 (wl x + 1) else wl x)
     (if bool_decide (b ∈ wc_space) || inword x then ww x else s32 (ww x + 1))
     (s32 (wch x + 1)) (negb (bool_decide (b ∈ wc_space))).
Proof.
  assert (Hs : match strchr (wc_space ++ [0]) b with Some (Some _) => true | _ => false end = bool_decide (b ∈ wc_space)).
  { destruct (decide (b ∈ wc_space)) as [Hb|Hb].
    - rewrite bool_decide_eq_true_2 by done. unfold wc_space in Hb. rewrite !elem_of_cons, elem_of_nil in Hb.
      by destruct Hb as [->|[->|[->|[->|[->|[]]]]]].
    - rewrite bool_decide_eq_false_2 by done. unfold wc_space in *. rewrite !not_elem_of_cons in Hb. destruct Hb as (? & ? & ? & ? & ? & _).
      cbn [app strchr]. by rewrite !(proj2 (Z.eqb_neq _ b)) by done. }
  unfold wc_char. rewrite <-Hs. destruct (strchr (wc_space ++ [0]) b) as [[i|]|]; [done|by destruct x as [? ? ? []]..].
Qed.

(** The format of [wc] is complete. *)
Lemma wc_format a b c name : format (chars "%d %d %d %s" ++ [10]) [AInt a; AInt b; AInt c; AStr (Some name)] false ≠ None.
Proof.
  assert (Hd : ∀ n, ∃ d, printint udigits (s32 n) 10 true = Some d).
  { intros n. unfold printint. set (v := if _ : bool then _ else _). destruct (digit_loop_spec 32 v) as (ds & -> & _); [|lia|by eauto].
    assert (0 ≤ v < 4294967296) by (unfold v; destruct (_ && _); apply u32_range). change (10 ^ Z.of_nat 32) with 100000000000000000000000000000000. lia. }
  destruct (Hd a) as [da Ha], (Hd b) as [db Hb], (Hd c) as [dc Hc].
  change (chars "%d %d %d %s" ++ [10]) with [37; 100; 32; 37; 100; 32; 37; 100; 32; 37; 115; 10]. cbn [format negb Z.eqb Pos.eqb].
  by rewrite Ha, Hb, Hc.
Qed.

Lemma s32_add a b : s32 (s32 a + b) = s32 (a + b).
Proof. zlia. Qed.

(** The counters after a text. *)
Lemma wc_fold l : ∀ x, wl x = s32 (wl x) → ww x = s32 (ww x) → wch x = s32 (wch x) →
  let y := foldl wc_char x l in
  wl y = s32 (wl x + n_lines l) ∧ ww y = s32 (ww x + if inword x then more_words l else n_words l) ∧
  wch y = s32 (wch x + Z.of_nat (length l)).
Proof.
  induction l as [|c l IH]; intros x H1 H2 H3; cbn [foldl].
  { cbn. rewrite !Z.add_0_r. destruct (inword x); rewrite ?Z.add_0_r; auto. }
  rewrite wc_char_spec. destruct (pieces_cons l) as (w & ws & Ep).
  assert (Hl : n_lines (c :: l) = (if c =? 10 then 1 else 0) + n_lines l).
  { unfold n_lines. rewrite filter_cons. destruct (Z.eqb_spec c 10); [rewrite decide_True by done; cbn [length]; lia|by rewrite decide_False]. }
  match goal with |- context [foldl wc_char ?x1 l] => destruct (IH x1) as (E1 & E2 & E3) end.
  { cbn [wl]. destruct (c =? 10); [zlia|done]. } { cbn [ww]. destruct (_ || _); [done|zlia]. } { cbn [wch]. zlia. }
  split_and!.
  - rewrite E1, Hl. cbn [wl]. destruct (c =? 10); [rewrite s32_add|]; f_equal; lia.
  - rewrite E2. cbn [ww inword]. unfold n_words, more_words. cbn [pieces]. rewrite Ep. cbn [tail].
    destruct (bool_decide (c ∈ wc_space)); cbn [negb orb tail]; rewrite ?filter_cons.
    + rewrite (decide_False (P := nonempty [])) by (by intros []). by destruct (inword x).
    + rewrite (decide_True (P := nonempty (c :: w))) by done. cbn [length]. destruct (inword x); [done|]. rewrite s32_add. f_equal. lia.
  - rewrite E3. cbn [wch length]. rewrite s32_add. f_equal. lia.
Qed.

End counting.

Section streams.
Context {S : Type} `{!usys S} {fd : Z} `{!stream S fd}.
Implicit Types (s : S).

Lemma putcs_out l : ∀ s, ∃ s', putcs 1 l s = Ok tt s' ∧ out s' = out s ++ l.
Proof.
  induction l as [|c l IH]; intros s; cbn [putcs]; [exists s; by rewrite app_nil_r|].
  destruct (stream_write [c] s) as (s1 & Hw & Ho & _). destruct (IH s1) as (s' & Hr & Ho').
  exists s'. unfold putc. rewrite bind_assoc, (bind_ok _ _ _ _ _ Hw), bind_ret. split; [done|]. by rewrite Ho', Ho, <-app_assoc.
Qed.

Lemma wc_loop_run fuel : ∀ s x, (length (inp s) < fuel)%nat →
  ∃ s', wc_loop fuel fd x s = Ok (0, foldl wc_char x (inp s)) s' ∧ out s' = out s.
Proof.
  induction fuel as [|fuel IH]; intros s x Hf; [lia|]. cbn [wc_loop].
  destruct (stream_read s) as (bs & s1 & Hr & Hi & He & Ho). rewrite (bind_ok _ _ _ _ _ Hr).
  destruct bs as [|b bs].
  - exists s1. rewrite He by done. done.
  - rewrite (proj2 (Z.ltb_lt _ _)) by (cbn [length]; lia). rewrite Hi, foldl_app. rewrite Hi, length_app in Hf. cbn [length] in Hf.
    destruct (IH s1 (foldl wc_char x (b :: bs)) ltac:(lia)) as (s' & Hr' & Ho'). exists s'. by rewrite Hr', Ho', Ho.
Qed.

(** [wc] prints the numbers of lines, words and characters of the input, modulo
    the range of [int], however it is cut into reads. *)
Theorem wc_counts fuel name s : (length (inp s) < fuel)%nat →
  ∃ s' line, wc fuel fd name s = Ok tt s' ∧ out s' = out s ++ line ∧
    format (chars "%d %d %d %s" ++ [10])
      [AInt (s32 (n_lines (inp s))); AInt (s32 (n_words (inp s))); AInt (s32 (Z.of_nat (length (inp s)))); AStr (Some name)] false = Some line.
Proof.
  intros Hf. destruct (wc_loop_run fuel s (Wc 0 0 0 false) Hf) as (s1 & Hr & Ho).
  destruct (wc_fold (inp s) (Wc 0 0 0 false) eq_refl eq_refl eq_refl) as (E1 & E2 & E3). cbn [wl ww wch inword] in E1, E2, E3. rewrite !Z.add_0_l in *.
  unfold wc. rewrite (bind_ok _ _ _ _ _ Hr). cbn [Z.ltb Z.compare]. unfold say, printf. rewrite E1, E2, E3.
  destruct (format _ _ _) as [line|] eqn:Ef.
  - destruct (putcs_out line s1) as (s' & Hp & Ho'). exists s', line. cbn [deref]. rewrite bind_ret, Hp. split_and!; [done|congruence|done].
  - exfalso. revert Ef. apply wc_format.
Qed.

(** [cat] writes its input to its output and returns. *)
Theorem cat_copies fuel : ∀ s, (length (inp s) < fuel)%nat → ∃ s', cat fuel fd s = Ok tt s' ∧ out s' = out s ++ inp s.
Proof.
  induction fuel as [|fuel IH]; intros s Hf; [lia|]. cbn [cat].
  destruct (stream_read s) as (bs & s1 & Hr & Hi & He & Ho). rewrite (bind_ok _ _ _ _ _ Hr).
  destruct bs as [|b bs].
  - exists s1. split; [done|]. by rewrite He, app_nil_r, Ho.
  - rewrite (proj2 (Z.ltb_lt _ _)) by (cbn [length]; lia). destruct (stream_write (b :: bs) s1) as (s2 & Hw & Ho2 & Hi2).
    rewrite (bind_ok _ _ _ _ _ Hw), Z.eqb_refl. cbn [negb]. rewrite Hi, length_app in Hf. cbn [length] in Hf.
    destruct (IH s2 ltac:(rewrite Hi2; lia)) as (s' & Hr' & Ho'). exists s'. split; [done|]. by rewrite Ho', Ho2, Hi2, Hi, Ho, <-app_assoc.
Qed.

End streams.

(** A kernel with one input and one output; a read gives one byte at a time. *)
#[local] Instance byte_input : usys (list Z * list Z) :=
  Usys _ (fail Fault) (fail Fault) (fail Fault)
    (λ _ bs s, Ok (Z.of_nat (length bs)) (s.1, s.2 ++ bs))
    (λ _ _ s, match s.1 with [] => Ok (0, []) s | c :: cs => Ok (1, [c]) (cs, s.2) end)
    (λ _, fail Fault) (λ _, fail Fault) (λ _ _, fail Fault) (λ _ _, fail Fault) (λ _ _ _, fail Fault)
    (λ _, fail Fault) (λ _, fail Fault) (λ _ _, fail Fault) (λ _, fail Fault) (λ _, fail Fault)
    (λ _, fail Fault) (λ _, fail Fault) (λ _, fail Fault).

#[local] Instance byte_stream : stream (list Z * list Z) 0.
Proof.
  refine {| inp := fst; out := snd |}.
  - intros [[|c cs] o]; [by exists [], ([], o)|by exists [c], (cs, o)].
  - intros buf [i o]. by exists (i, o ++ buf).
Defined.

Lemma wc_example :
  wc 10 0 [] (chars "ab c" ++ [10; 10], []) = Ok tt ([], chars "2 2 6 " ++ [10]).
Proof. vm_compute. reflexivity. Qed.
