(* ===== verification/Sh.v ===== *)
(** The shell: sh.c

    A line is the bytes before its terminator; a pointer into it is an index,
    and [*s] at the end reads the NUL.  The parser's state is the index [*ps];
    [panic] ends the shell's child.  A word is the pair of its start and end,
    which [nulterminate] turns into a string by storing NULs in the line.
    [parseexec] fills the node that the redirections already point to; here it
    collects both and builds the command at its end. *)

From stdpp Require Import list numbers strings sets.
From Stdlib Require Import ZArith Lia.
From S2P Require Import Prelude StringC Sysfile Ulib.

(** A word of the line: [q] and [eq]. *)
Definition word : Type := nat * nat.

Inductive cmd :=
| EXEC (argv : list word)
| REDIR (c : cmd) (file : word) (mode fd : Z)
| PIPE (left right : cmd)
| LIST (left right : cmd)
| BACK (c : cmd).

Definition MAXARGS : nat := 10.

(** ** Scanning *)

Definition whitespace : list Z := [32; 9; 13; 10; 11].
Definition symbols : list Z := chars "<|>&;()".

Definition char_at (s : list Z) (i : nat) : Z := default 0 (s !! i).
Definition is_space (c : Z) : bool := bool_decide (c ∈ whitespace).
Definition is_symbol (c : Z) : bool := bool_decide (c ∈ symbols).

Section scan.
Variable s : list Z.

Abbreviation es := (length s).

(** [while(s < es && strchr(whitespace, *s)) s++]; [n] is [es - s]. *)
Fixpoint skip_space (n i : nat) : nat :=
  match n with
  | O => i
  | S n' => if is_space (char_at s i) then skip_space n' (S i) else i
  end.

(** The loop over the characters of a word. *)
Fixpoint skip_word (n i : nat) : nat :=
  match n with
  | O => i
  | S n' =>
      if negb (is_space (char_at s i)) && negb (is_symbol (char_at s i)) then skip_word n' (S i) else i
  end.

(** [gettoken]: the token and the word; ['a'] is 97 and ['+'] is 43. *)
Definition gettoken : M nat (Z * word) :=
  ps <- get ;;
  let q := skip_space (es - ps) ps in
  let c := char_at s q in
  let '(tok, eq) :=
    if c =? 0 then (c, q)
    else if bool_decide (c ∈ chars "|();&<") then (c, S q)
    else if c =? 62 then if char_at s (S q) =? 62 then (43, S (S q)) else (c, S q)
    else (97, skip_word (es - q) q) in
  put (skip_space (es - eq) eq) ;;;
  ret (tok, (q, eq)).

Definition peek (toks : list Z) : M nat bool :=
  ps <- get ;;
  let i := skip_space (es - ps) ps in
  put i ;;;
  ret (negb (char_at s i =? 0) && bool_decide (char_at s i ∈ toks)).

(** ** Parsing *)

(** The arguments of a [redircmd]. *)
Definition redir : Type := word * Z * Z.
Definition redircmd (c : cmd) (r : redir) : cmd := REDIR c (r.1.1) (r.1.2) (r.2).

(** [parseredirs]: the redirections, in order; each wraps the command so far.
    [n] is the number of rounds. *)
Fixpoint parseredirs (n : nat) : M nat (list redir) :=
  b <- peek (chars "<>") ;;
  if b : bool then
    match n with
    | O => fail NoFuel
    | S n' =>
        ' (tok, _) <- gettoken ;;
        ' (t, w) <- gettoken ;;
        if negb (t =? 97) then panic "missing file for redirection"
        else
          let r := if tok =? 60 then (w, O_RDONLY, 0) else (w, Z.lor O_WRONLY O_CREATE, 1) in
          rs <- parseredirs n' ;;
          ret (r :: rs)
    end
  else ret [].

(** The loop of [parseexec]: the words and the redirections between them. *)
Fixpoint parseargs (n : nat) (argc : nat) : M nat (list word * list redir) :=
  b <- peek (chars "|)&;") ;;
  if b : bool then ret ([], [])
  else
    match n with
    | O => fail NoFuel
    | S n' =>
        ' (tok, w) <- gettoken ;;
        if tok =? 0 then ret ([], [])
        else if negb (tok =? 97) then panic "syntax"
        else if bool_decide (MAXARGS ≤ S argc)%nat then panic "too many args"
        else
          rs <- parseredirs es ;;
          ' (ws, rs') <- parseargs n' (S argc) ;;
          ret (w :: ws, rs ++ rs')
    end.

(** The loop of [parseline] over [&]. *)
Fixpoint parseback (n : nat) (c : cmd) : M nat cmd :=
  b <- peek (chars "&") ;;
  if b : bool then
    match n with
    | O => fail NoFuel
    | S n' => gettoken ;;; parseback n' (BACK c)
    end
  else ret c.

Fixpoint parseline (fuel : nat) : M nat cmd :=
  match fuel with
  | O => fail NoFuel
  | S fuel' =>
      c <- parsepipe fuel' ;;
      c <- parseback es c ;;
      b <- peek (chars ";") ;;
      if b : bool then gettoken ;;; r <- parseline fuel' ;; ret (LIST c r)
      else ret c
  end
with parsepipe (fuel : nat) : M nat cmd :=
  match fuel with
  | O => fail NoFuel
  | S fuel' =>
      c <- parseexec fuel' ;;
      b <- peek (chars "|") ;;
      if b : bool then gettoken ;;; r <- parsepipe fuel' ;; ret (PIPE c r)
      else ret c
  end
with parseexec (fuel : nat) : M nat cmd :=
  match fuel with
  | O => fail NoFuel
  | S fuel' =>
      b <- peek (chars "(") ;;
      if b : bool then parseblock fuel'
      else
        rs <- parseredirs es ;;
        ' (ws, rs') <- parseargs (S es) 0 ;;
        ret (foldl redircmd (EXEC ws) (rs ++ rs'))
  end
with parseblock (fuel : nat) : M nat cmd :=
  match fuel with
  | O => fail NoFuel
  | S fuel' =>
      b <- peek (chars "(") ;;
      if negb b then panic "parseblock"
      else
        gettoken ;;;
        c <- parseline fuel' ;;
        b <- peek (chars ")") ;;
        if negb b then panic "syntax - missing )"
        else gettoken ;;; rs <- parseredirs es ;; ret (foldl redircmd c rs)
  end.

(** Four calls at most between two characters consumed. *)
Definition parse_fuel : nat := 4 * S es.

(** [parsecmd] up to [nulterminate]. *)
Definition parse_line : M nat cmd :=
  c <- parseline parse_fuel ;;
  peek [] ;;;
  ps <- get ;;
  if negb (bool_decide (ps = es)) then panic "syntax" else ret c.

End scan.

(** [nulterminate]: the line with NULs behind the words; its last byte is the
    terminator of the line. *)
Fixpoint nulterminate (c : cmd) (line : list Z) : list Z :=
  match c with
  | EXEC argv => foldl (λ l (w : word), <[w.2 := 0]> l) line argv
  | REDIR c file _ _ => <[file.2 := 0]> (nulterminate c line)
  | PIPE l r | LIST l r => nulterminate r (nulterminate l line)
  | BACK c => nulterminate c line
  end.

(** [parsecmd]: the command and the line its words point into. *)
Definition parsecmd (s : list Z) : res nat (cmd * list Z) :=
  match parse_line s 0%nat with
  | Ok c ps => Ok (c, nulterminate c (s ++ [0])) ps
  | Err e ps => Err e ps
  end.

(** ** Running *)

(** The string at a pointer into the line. *)
Definition string_at (line : list Z) (q : nat) : list Z := cstr (drop q line).

Section run.
Context {S : Type} `{usys S}.

Definition shpanic {A} (msg : list Z) : M S A := printf 2 (chars "%s") [AStr (Some msg)] ;;; putc 2 10 ;;; uexit.

Definition fork1 : M S Z :=
  pid <- us_fork ;;
  if pid =? -1 then shpanic (chars "fork") else ret pid.

(** [runcmd]: in the process that it is called in, and in the child when [fork]
    returns 0. *)
Fixpoint runcmd (line : list Z) (c : cmd) : M S unit :=
  match c with
  | EXEC [] => uexit
  | EXEC ((w :: _) as argv) =>
      us_exec (string_at line (w.1)) ((λ v : word, string_at line (v.1)) <$> argv) ;;;
      printf 2 (chars "exec %s failed") [AStr (Some (string_at line (w.1)))] ;;; putc 2 10 ;;;
      uexit
  | REDIR c file mode fd =>
      us_close fd ;;;
      r <- us_open (string_at line (file.1)) mode ;;
      if r <? 0 then
        printf 2 (chars "open %s failed") [AStr (Some (string_at line (file.1)))] ;;; putc 2 10 ;;; uexit
      else runcmd line c ;;; uexit
  | LIST l r =>
      pid <- fork1 ;;
      (if pid =? 0 then runcmd line l else ret tt) ;;;
      us_wait ;;;
      runcmd line r ;;; uexit
  | PIPE l r =>
      ' (v, (p0, p1)) <- us_pipe ;;
      if v <? 0 then shpanic (chars "pipe")
      else
        pid <- fork1 ;;
        (if pid =? 0 then
           us_close 1 ;;; us_dup p1 ;;; us_close p0 ;;; us_close p1 ;;; runcmd line l
         else ret tt) ;;;
        pid <- fork1 ;;
        (if pid =? 0 then
           us_close 0 ;;; us_dup p0 ;;; us_close p0 ;;; us_close p1 ;;; runcmd line r
         else ret tt) ;;;
        us_close p0 ;;; us_close p1 ;;; us_wait ;;; us_wait ;;; uexit
  | BACK c =>
      pid <- fork1 ;;
      (if pid =? 0 then runcmd line c else ret tt) ;;;
      uexit
  end.

(** [getcmd]: the line, or none at the end of the input. *)
Definition getcmd (nbuf : Z) : M S (option (list Z)) :=
  printf 2 (chars "$ ") [] ;;;
  buf <- gets_buf nbuf ;;
  ret (if bool_decide (cstr buf = []) then None else Some (cstr buf)).

(** The first loop of [main]: descriptors up to 2 are open. *)
Fixpoint open_console (fuel : nat) : M S unit :=
  match fuel with
  | O => fail NoFuel
  | Datatypes.S fuel' =>
      fd <- us_open (chars "console") O_RDWR ;;
      if fd <? 0 then ret tt
      else if 3 <=? fd then us_close fd ;;; ret tt
      else open_console fuel'
  end.

(** The second loop; [fuel] bounds the number of commands. *)
Fixpoint sh_loop (fuel : nat) : M S unit :=
  match fuel with
  | O => fail NoFuel
  | Datatypes.S fuel' =>
      o <- getcmd 100 ;;
      match o with
      | None => uexit
      | Some buf =>
          if bool_decide (take 3 buf = chars "cd ") then
            let dir := drop 3 (take (length buf - 1) buf) in
            r <- us_chdir dir ;;
            (if r <? 0 then printf 2 (chars "cannot cd %s") [AStr (Some dir)] ;;; putc 2 10 else ret tt) ;;;
            sh_loop fuel'
          else
            pid <- fork1 ;;
            (if pid =? 0 then
               match parsecmd buf with
               | Ok (c, line) _ => runcmd line c
               | Err (Panic msg) _ => shpanic (chars msg)
               | Err e _ => fail e
               end
             else ret tt) ;;;
            us_wait ;;;
            sh_loop fuel'
      end
  end.

Definition sh_main (fuel : nat) : M S unit := open_console fuel ;;; sh_loop fuel.

End run.

(** ** The parser is total, and its words are strings *)

Definition is_word_char (c : Z) : Prop := is_space c = false ∧ is_symbol c = false.

(** A word of the line: a maximal run of characters that are neither space nor
    symbols. *)
Definition word_ok (s : list Z) (w : word) : Prop :=
  (w.1 < w.2 ≤ length s)%nat ∧
  (∀ i, (w.1 ≤ i < w.2)%nat → is_word_char (char_at s i)) ∧
  (w.2 = length s ∨ ¬ is_word_char (char_at s (w.2))).

Fixpoint words_of (c : cmd) : list word :=
  match c with
  | EXEC argv => argv
  | REDIR c file _ _ => file :: words_of c
  | PIPE l r | LIST l r => words_of l ++ words_of r
  | BACK c => words_of c
  end.

(** The parser returns with [Q], or panics. *)
Definition runs {A} (p : M nat A) (ps : nat) (Q : A → nat → Prop) : Prop :=
  match p ps with
  | Ok a ps' => Q a ps'
  | Err (Panic _) _ => True
  | Err _ _ => False
  end.

Section total.
Variable s : list Z.
Hypothesis Hnul : 0 ∉ s.

Abbreviation es := (length s).

Lemma runs_bind {A B} (p : M nat A) (k : A → M nat B) ps Q :
  runs p ps (λ a ps', runs (k a) ps' Q) → runs (bind p k) ps Q.
Proof. unfold runs, bind. destruct (p ps) as [|[]]; done. Qed.

Lemma runs_mono {A} (p : M nat A) ps (P Q : A → nat → Prop) :
  runs p ps P → (∀ a ps', P a ps' → Q a ps') → runs p ps Q.
Proof. unfold runs. destruct (p ps) as [|[]]; auto. Qed.

Lemma runs_ret {A} (a : A) ps (Q : A → nat → Prop) : Q a ps → runs (ret a) ps Q.
Proof. done. Qed.

Lemma char_at_nul i : (i < es)%nat → char_at s i ≠ 0.
Proof.
  intros Hi E. destruct (lookup_lt_is_Some_2 s i Hi) as [c Hc]. unfold char_at in E. rewrite Hc in E. cbn in E.
  subst c. apply Hnul. by eapply list_elem_of_lookup_2.
Qed.

Lemma char_at_end i : (es ≤ i)%nat → char_at s i = 0.
Proof. intros Hi. unfold char_at. by rewrite lookup_ge_None_2. Qed.

Lemma skip_space_spec n : ∀ i, (i + n = es)%nat →
  (i ≤ skip_space s n i ≤ es)%nat ∧
  ((skip_space s n i < es)%nat → is_space (char_at s (skip_space s n i)) = false).
Proof.
  induction n as [|n IH]; intros i Hi; cbn [skip_space]; [split; lia|].
  destruct (is_space (char_at s i)) eqn:E; [|split; [lia|done]].
  destruct (IH (S i)) as [? ?]; [lia|]. split; [lia|done].
Qed.

Lemma skip_word_spec n : ∀ i, (i + n = es)%nat →
  (i ≤ skip_word s n i ≤ es)%nat ∧
  (∀ j, (i ≤ j < skip_word s n i)%nat → is_word_char (char_at s j)) ∧
  (skip_word s n i = es ∨ ¬ is_word_char (char_at s (skip_word s n i))).
Proof.
  induction n as [|n IH]; intros i Hi; cbn [skip_word]; [split_and!; [lia|lia|intros; lia|left; lia]|].
  destruct (negb _ && negb _) eqn:E.
  - apply andb_true_iff in E as [E1%negb_true_iff E2%negb_true_iff].
    destruct (IH (S i)) as (? & Hw & ?); [lia|]. split_and!; [lia|lia| |done].
    intros j Hj. destruct (decide (j = i)) as [->|]; [done|apply Hw; lia].
  - split_and!; [lia|lia|intros; lia|]. right. intros [E1 E2]. by rewrite E1, E2 in E.
Qed.

(** [peek]: spaces are skipped, and the answer is about the next character. *)
Lemma peek_runs toks ps Q : (ps ≤ es)%nat →
  (∀ b ps', (ps ≤ ps' ≤ es)%nat → (b = true → (ps' < es)%nat ∧ char_at s ps' ∈ toks) →
            ((ps' < es)%nat → is_space (char_at s ps') = false) → Q b ps') →
  runs (peek s toks) ps Q.
Proof.
  intros Hps HQ. unfold runs, peek, get, put, bind, ret. cbn.
  destruct (skip_space_spec (es - ps) ps) as [Hb Hsp]; [lia|]. apply HQ; [lia| |done].
  intros [Hz%negb_true_iff Ht%bool_decide_eq_true]%andb_true_iff. split; [|done].
  apply Z.eqb_neq in Hz. destruct (decide (skip_space s (es - ps) ps < es)%nat); [done|].
  by rewrite char_at_end in Hz by lia.
Qed.

Lemma symbols_spec c : is_symbol c = bool_decide (c ∈ chars "|();&<") || (c =? 62).
Proof.
  unfold is_symbol, symbols. apply eq_true_iff_eq. rewrite orb_true_iff, !bool_decide_eq_true, Z.eqb_eq.
  change (chars "<|>&;()") with [60; 124; 62; 38; 59; 40; 41]. change (chars "|();&<") with [124; 40; 41; 59; 38; 60].
  set_solver.
Qed.

(** [gettoken]: it consumes the token, except at the end of the line; a word is
    a word. *)
Lemma gettoken_runs ps Q : (ps ≤ es)%nat →
  (∀ tok w ps', (ps ≤ ps' ≤ es)%nat → ((ps < es)%nat → (ps < ps')%nat) → (ps = es → tok = 0) →
     (tok = 97 → word_ok s w) → Q (tok, w) ps') →
  runs (gettoken s) ps Q.
Proof.
  intros Hps HQ. unfold runs, gettoken, get, put, bind, ret.
  destruct (skip_space_spec (es - ps) ps) as [Hq Hsp]; [lia|].
  set (q := skip_space s (es - ps) ps) in *. clearbody q.
  assert (Hend : ∀ eq, (q ≤ eq ≤ es)%nat → (q ≤ skip_space s (es - eq) eq ≤ es)%nat ∧ (eq ≤ skip_space s (es - eq) eq)%nat).
  { intros eq He. destruct (skip_space_spec (es - eq) eq); lia. }
  destruct (decide (q = es)) as [->|Hne].
  { rewrite char_at_end by lia. cbn [Z.eqb]. destruct (Hend es); [lia|]. apply HQ; [lia|lia|done|done]. }
  assert (Hlt : (q < es)%nat) by lia. pose proof (char_at_nul q Hlt) as Hnz.
  destruct (Z.eqb_spec (char_at s q) 0); [done|].
  pose proof (symbols_spec (char_at s q)) as Hsym.
  destruct (bool_decide_reflect (char_at s q ∈ chars "|();&<")) as [Hin|Hin].
  { destruct (Hend (S q)); [lia|]. apply HQ; [lia|lia|lia|].
    intros E. rewrite E in Hin. change (chars "|();&<") with [124; 40; 41; 59; 38; 60] in Hin. set_solver. }
  destruct (Z.eqb_spec (char_at s q) 62) as [E62|E62].
  { destruct (Z.eqb_spec (char_at s (S q)) 62) as [E2|E2].
    - assert (S q < es)%nat.
      { destruct (decide (S q < es)%nat); [done|]. rewrite char_at_end in E2 by lia. done. }
      destruct (Hend (S (S q))); [lia|]. apply HQ; [lia|lia|lia|done].
    - destruct (Hend (S q)); [lia|]. apply HQ; [lia|lia|lia|]. by rewrite E62. }
  cbn [orb] in Hsym. destruct (skip_word_spec (es - q) q) as (Hw & Hchars & Hstop); [lia|].
  assert (Hprog : (q < skip_word s (es - q) q)%nat).
  { destruct (decide (q < skip_word s (es - q) q)%nat) as [|Hn]; [done|]. exfalso.
    assert (Heq : skip_word s (es - q) q = q) by lia. rewrite Heq in Hstop. destruct Hstop as [|Hstop]; [lia|].
    apply Hstop. split; [by apply Hsp|done]. }
  destruct (Hend (skip_word s (es - q) q)); [lia|]. apply HQ; [lia|lia|lia|]. intros _.
  split; [cbn; lia|]. by split.
Qed.

Definition redirs_ok (rs : list redir) : Prop := Forall (λ r : redir, word_ok s (r.1.1)) rs.
Definition cmd_ok (c : cmd) : Prop := Forall (word_ok s) (words_of c).

Lemma parseredirs_runs n : ∀ ps, (ps ≤ es)%nat → (es - ps ≤ n)%nat →
  runs (parseredirs s n) ps (λ rs ps', (ps ≤ ps' ≤ es)%nat ∧ redirs_ok rs).
Proof.
  induction n as [|n IH]; intros ps Hps Hn; cbn [parseredirs]; apply runs_bind, peek_runs; try done;
    intros b ps1 H1 Hb _; (destruct b; [destruct (Hb eq_refl)|apply runs_ret; split; [lia|constructor]]); [lia|].
  apply runs_bind, gettoken_runs; [lia|]. intros tok w ps2 H2 Hp2 _ _.
  apply runs_bind, gettoken_runs; [lia|]. intros t w' ps3 H3 _ _ Hw.
  destruct (Z.eqb_spec t 97) as [E|]; [|done]. cbn [negb]. apply runs_bind.
  eapply runs_mono; [apply IH; lia|]. intros rs ps4 [H4 Hrs]. apply runs_ret. split; [lia|].
  constructor; [|done]. destruct (tok =? 60); by apply Hw.
Qed.

Lemma parseargs_runs n : ∀ argc ps, (ps ≤ es)%nat → (es - ps < n)%nat →
  runs (parseargs s n argc) ps (λ r ps', (ps ≤ ps' ≤ es)%nat ∧ Forall (word_ok s) (r.1) ∧ redirs_ok (r.2)).
Proof.
  induction n as [|n IH]; intros argc ps Hps Hn; [lia|]. cbn [parseargs]. apply runs_bind, peek_runs; [done|].
  intros b ps1 H1 Hb _. destruct b; [apply runs_ret; split; [lia|by repeat constructor]|].
  apply runs_bind, gettoken_runs; [lia|]. intros tok w ps2 H2 Hp2 He Hw.
  destruct (Z.eqb_spec tok 0); [apply runs_ret; split; [lia|by repeat constructor]|].
  destruct (Z.eqb_spec tok 97); [|done]. cbn [negb]. destruct (bool_decide _); [done|].
  assert (ps1 < es)%nat by (destruct (decide (ps1 = es)); [naive_solver|lia]).
  apply runs_bind. eapply runs_mono; [apply parseredirs_runs; lia|]. intros rs ps3 [H3 Hrs].
  apply runs_bind. eapply runs_mono; [apply IH; lia|]. intros [ws rs'] ps4 (H4 & Hws & Hrs').
  apply runs_ret. cbn [fst snd] in *. split; [lia|]. split; [constructor; auto|by apply Forall_app].
Qed.

Lemma parseback_runs n : ∀ c ps, cmd_ok c → (ps ≤ es)%nat → (es - ps ≤ n)%nat →
  runs (parseback s n c) ps (λ c' ps', (ps ≤ ps' ≤ es)%nat ∧ cmd_ok c').
Proof.
  induction n as [|n IH]; intros c ps Hc Hps Hn; cbn [parseback]; apply runs_bind, peek_runs; try done;
    intros b ps1 H1 Hb _; (destruct b; [destruct (Hb eq_refl)|apply runs_ret; split; [lia|done]]); [lia|].
  apply runs_bind, gettoken_runs; [lia|]. intros tok w ps2 H2 Hp2 _ _.
  eapply runs_mono; [apply IH; [done|lia|lia]|]. intros c' ps3 [H3 Hc']. split; [lia|done].
Qed.

Lemma redircmds_ok rs : ∀ c, cmd_ok c → redirs_ok rs → cmd_ok (foldl redircmd c rs).
Proof.
  induction rs as [|r rs IH]; intros c Hc Hrs; [done|]. inversion Hrs; subst. cbn. apply IH; [|done].
  by constructor.
Qed.

Lemma parse_runs fuel :
  (∀ ps, (ps ≤ es)%nat → (4 * (es - ps) + 4 ≤ fuel)%nat →
     runs (parseline s fuel) ps (λ c ps', (ps ≤ ps' ≤ es)%nat ∧ cmd_ok c)) ∧
  (∀ ps, (ps ≤ es)%nat → (4 * (es - ps) + 3 ≤ fuel)%nat →
     runs (parsepipe s fuel) ps (λ c ps', (ps ≤ ps' ≤ es)%nat ∧ cmd_ok c)) ∧
  (∀ ps, (ps ≤ es)%nat → (4 * (es - ps) + 2 ≤ fuel)%nat →
     runs (parseexec s fuel) ps (λ c ps', (ps ≤ ps' ≤ es)%nat ∧ cmd_ok c)) ∧
  (∀ ps, (ps ≤ es)%nat → (4 * (es - ps) + 1 ≤ fuel)%nat →
     runs (parseblock s fuel) ps (λ c ps', (ps ≤ ps' ≤ es)%nat ∧ cmd_ok c)).
Proof.
  induction fuel as [|fuel (IHl & IHp & IHe & IHb)]; [split_and!; intros; lia|]. split_and!; intros ps Hps Hf.
  - cbn [parseline]. apply runs_bind. eapply runs_mono; [apply IHp; lia|]. intros c ps1 [H1 Hc].
    apply runs_bind. eapply runs_mono; [apply parseback_runs; [done|lia|lia]|]. intros c2 ps2 [H2 Hc2].
    apply runs_bind, peek_runs; [lia|]. intros b ps3 H3 Hb _. destruct b; [|apply runs_ret; split; [lia|done]].
    destruct (Hb eq_refl). apply runs_bind, gettoken_runs; [lia|]. intros tok w ps4 H4 Hp4 _ _.
    apply runs_bind. eapply runs_mono; [apply IHl; lia|]. intros c3 ps5 [H5 Hc3]. apply runs_ret.
    split; [lia|by apply Forall_app].
  - cbn [parsepipe]. apply runs_bind. eapply runs_mono; [apply IHe; lia|]. intros c ps1 [H1 Hc].
    apply runs_bind, peek_runs; [lia|]. intros b ps3 H3 Hb _. destruct b; [|apply runs_ret; split; [lia|done]].
    destruct (Hb eq_refl). apply runs_bind, gettoken_runs; [lia|]. intros tok w ps4 H4 Hp4 _ _.
    apply runs_bind. eapply runs_mono; [apply IHp; lia|]. intros c3 ps5 [H5 Hc3]. apply runs_ret.
    split; [lia|by apply Forall_app].
  - cbn [parseexec]. apply runs_bind, peek_runs; [lia|]. intros b ps1 H1 Hb _. destruct b.
    { eapply runs_mono; [apply IHb; lia|]. intros c ps2 [H2 Hc]. split; [lia|done]. }
    apply runs_bind. eapply runs_mono; [apply parseredirs_runs; lia|]. intros rs ps2 [H2 Hrs].
    apply runs_bind. eapply runs_mono; [apply parseargs_runs; lia|]. intros [ws rs'] ps3 (H3 & Hws & Hrs').
    apply runs_ret. split; [lia|]. apply redircmds_ok; [done|by apply Forall_app].
  - cbn [parseblock]. apply runs_bind, peek_runs; [lia|]. intros b ps1 H1 Hb _. destruct b; [|done].
    destruct (Hb eq_refl). cbn [negb]. apply runs_bind, gettoken_runs; [lia|]. intros tok w ps2 H2 Hp2 _ _.
    apply runs_bind. eapply runs_mono; [apply IHl; lia|]. intros c ps3 [H3 Hc].
    apply runs_bind, peek_runs; [lia|]. intros b ps4 H4 Hb4 _. destruct b; [|done]. cbn [negb].
    apply runs_bind, gettoken_runs; [lia|]. intros tok' w' ps5 H5 _ _ _.
    apply runs_bind. eapply runs_mono; [apply parseredirs_runs; lia|]. intros rs ps6 [H6 Hrs].
    apply runs_ret. split; [lia|by apply redircmds_ok].
Qed.

Lemma parse_line_runs : runs (parse_line s) 0 (λ c _, cmd_ok c).
Proof.
  unfold parse_line, parse_fuel. apply runs_bind. eapply runs_mono; [apply parse_runs; lia|].
  intros c ps [Hps Hc]. apply runs_bind, peek_runs; [lia|]. intros _ ps' _ _ _.
  apply runs_bind. unfold runs at 1, get. destruct (bool_decide _); [|done]. by apply runs_ret.
Qed.

End total.

Section nulterminate.
Implicit Types (line s : list Z) (c : cmd).

Lemma length_nulterminate c : ∀ line, length (nulterminate c line) = length line.
Proof.
  induction c as [argv|c IH file mode fd|l IHl r IHr|l IHl r IHr|c IH]; intros line; cbn [nulterminate].
  - revert line. induction argv as [|w argv IH]; intros line; cbn; [done|]. by rewrite IH, length_insert.
  - by rewrite length_insert.
  - by rewrite IHr.
  - by rewrite IHr.
  - done.
Qed.

(** The ends of the words, and only they, become NULs. *)
Lemma nulterminate_lookup c : ∀ line i, (i < length line)%nat →
  nulterminate c line !! i = if decide (i ∈ (words_of c).*2) then Some 0 else line !! i.
Proof.
  assert (Hif : ∀ (P Q R : Prop) `{Decision P, Decision Q, Decision R} (x y : option Z), (R ↔ P ∨ Q) →
    (if decide P then x else if decide Q then x else y) = if decide R then x else y).
  { intros. repeat case_decide; try done; tauto. }
  induction c as [argv|c IH file mode fd|l IHl r IHr|l IHl r IHr|c IH]; intros line i Hi; cbn [nulterminate words_of].
  - revert line Hi. induction argv as [|w argv IH]; intros line Hi; [done|]. cbn [foldl].
    rewrite IH by (by rewrite length_insert). rewrite list_lookup_insert.
    rewrite (decide_ext (w.2 = i ∧ (w.2 < length line)%nat) (w.2 = i)) by naive_solver lia.
    apply Hif. set_solver.
  - rewrite list_lookup_insert, length_nulterminate, IH by done.
    rewrite (decide_ext (file.2 = i ∧ (file.2 < length line)%nat) (file.2 = i)) by naive_solver lia.
    apply Hif. set_solver.
  - rewrite IHr, IHl by (by rewrite ?length_nulterminate). apply Hif. set_solver.
  - rewrite IHr, IHl by (by rewrite ?length_nulterminate). apply Hif. set_solver.
  - by apply IH.
Qed.

Lemma cstr_word s n : ∀ line q,
  (∀ i, (q ≤ i < q + n)%nat → line !! i = s !! i ∧ char_at s i ≠ 0) → line !! (q + n)%nat = Some 0 →
  cstr (drop q line) = take n (drop q s).
Proof.
  induction n as [|n IH]; intros line q Hw Hz.
  - rewrite Nat.add_0_r in Hz. by rewrite (drop_S _ _ _ Hz).
  - destruct (Hw q) as [Hq Hnz]; [lia|]. unfold char_at in Hnz. destruct (s !! q) as [c|] eqn:Hc; [|done].
    rewrite (drop_S _ _ _ Hq), (drop_S _ _ _ Hc). cbn in Hnz |- *. destruct (Z.eqb_spec c 0); [done|].
    f_equal. apply IH; [intros i Hi; apply Hw; lia|]. by rewrite Nat.add_succ_comm.
Qed.

End nulterminate.

(** C35. The shell's parser is total and its words are what was typed.  On
    every line without a NUL, [parsecmd] returns a command or panics with a
    syntax error; it never runs on.  Every word of the command, argument or file
    of a redirection, is a maximal run of characters of the line that are
    neither space nor symbols, and after the NULs are stored the pointer to a
    word points to exactly that string: no NUL of one word cuts another. *)
Theorem parsecmd_correct (s : list Z) : 0 ∉ s →
  match parsecmd s with
  | Ok (c, line) _ =>
      ∀ w, w ∈ words_of c → word_ok s w ∧ string_at line (w.1) = take (w.2 - w.1) (drop (w.1) s)
  | Err (Panic _) _ => True
  | Err _ _ => False
  end.
Proof.
  intros Hnul. pose proof (parse_line_runs s Hnul) as Hp. unfold runs in Hp. unfold parsecmd.
  destruct (parse_line s 0%nat) as [c ps|e ps]; [|by destruct e].
  unfold cmd_ok in Hp. rewrite Forall_forall in Hp. intros w Hw. destruct (Hp w Hw) as (Hb & Hchars & Hend). split; [done|].
  unfold string_at. apply cstr_word.
  - intros i Hi. assert (Hlt : (i < length s)%nat) by lia.
    split; [|by apply char_at_nul]. rewrite nulterminate_lookup by (rewrite length_app; lia).
    rewrite decide_False; [by rewrite lookup_app_l|].
    intros (v & -> & Hv)%list_elem_of_fmap. destruct (Hp v Hv) as (_ & _ & [He|He]); [lia|].
    apply He, Hchars. lia.
  - replace (w.1 + (w.2 - w.1))%nat with (w.2) by lia.
    rewrite nulterminate_lookup by (rewrite length_app; cbn; lia). rewrite decide_True; [done|].
    apply list_elem_of_fmap. by exists w.
Qed.

Lemma parsecmd_correct_witness :
  0 ∉ chars "ls -l >out | wc" ∧
  ∃ c line ps, parsecmd (chars "ls -l >out | wc") = Ok (c, line) ps ∧
    string_at line 3 = chars "-l" ∧
    c = PIPE (REDIR (EXEC [(0, 2); (3, 5)]%nat) (7, 10)%nat 513 1) (EXEC [(13, 15)]%nat).
Proof.
  assert (Hn : 0 ∉ chars "ls -l >out | wc") by (apply (bool_decide_unpack _); vm_compute; exact I).
  split; [done|]. pose proof (parsecmd_correct _ Hn) as Hc.
  eexists _, _, _. split; [vm_compute; reflexivity|]. split; [|reflexivity].
  assert (Hw : (3, 5)%nat ∈ words_of (PIPE (REDIR (EXEC [(0, 2); (3, 5)]%nat) (7, 10)%nat 513 1) (EXEC [(13, 15)]%nat)))
    by (apply (bool_decide_unpack _); vm_compute; exact I).
  vm_compute in Hc. vm_compute in Hw. by apply (Hc _ Hw).
Defined.
