(* ===== verification/Umalloc.v ===== *)
(** The user memory allocator: umalloc.c

    The free blocks form a circular list in order of their addresses, threaded
    through their headers: 8 bytes, a pointer and a size in units of a header.
    [base], the address of the static header of size 0, is on the list too.
    [sbrk] is the system call; [brk] is the end of the process's memory. *)

From stdpp Require Import gmap list numbers strings.
From Stdlib Require Import ZArith Lia.
From S2P Require Import Prelude Mem.

Record umst := Umst {
  um : mem;
  freep : Z;
  brk : Z
}.

Definition sizeof_header : Z := 8.

(** [p->s.ptr] and [p->s.size]. *)
Definition hptr (m : mem) (p : Z) : Z := ld32 m p.
Definition hsize (m : mem) (p : Z) : Z := ld32 m (p + 4).

Definition set_um (m : mem) (s : umst) : umst := Umst m (freep s) (brk s).
Definition set_freep (p : Z) (s : umst) : umst := Umst (um s) p (brk s).

Definition get_ptr (p : Z) : M umst Z := gets (λ s, hptr (um s) p).
Definition get_size (p : Z) : M umst Z := gets (λ s, hsize (um s) p).
Definition put_ptr (p v : Z) : M umst unit := modify (λ s, set_um (st32 (um s) p v) s).
Definition put_size (p v : Z) : M umst unit := modify (λ s, set_um (st32 (um s) (p + 4) v) s).

Section umalloc.
Variable base : Z.
Variable sbrk : Z → M umst Z.

(** The loop of [free]: the block before [bp]. *)
Fixpoint free_find (fuel : nat) (bp p : Z) : M umst Z :=
  match fuel with
  | O => fail NoFuel
  | S fuel' =>
      n <- get_ptr p ;;
      if (p <? bp) && (bp <? n) then ret p
      else if (n <=? p) && ((p <? bp) || (bp <? n)) then ret p
      else free_find fuel' bp n
  end.

(** [free]; [fuel] bounds the rounds of its loop. *)
Definition free (fuel : nat) (ap : Z) : M umst unit :=
  let bp := u32 (ap - sizeof_header) in
  p <- gets freep ;;
  p <- free_find fuel bp p ;;
  n <- get_ptr p ;;
  sz <- get_size bp ;;
  (if u32 (bp + sizeof_header * sz) =? n then
     nsz <- get_size n ;;
     put_size bp (u32 (sz + nsz)) ;;;
     nn <- get_ptr n ;;
     put_ptr bp nn
   else put_ptr bp n) ;;;
  psz <- get_size p ;;
  (if u32 (p + sizeof_header * psz) =? bp then
     sz <- get_size bp ;;
     put_size p (u32 (psz + sz)) ;;;
     bn <- get_ptr bp ;;
     put_ptr p bn
   else put_ptr p bp) ;;;
  modify (set_freep p).

Definition morecore (fuel : nat) (nu : Z) : M umst Z :=
  let nu := if nu <? 4096 then 4096 else nu in
  p <- sbrk (s32 (nu * sizeof_header)) ;;
  if p =? 4294967295 then ret 0
  else
    put_size p nu ;;;
    free fuel (u32 (p + sizeof_header)) ;;;
    gets freep.

(** [malloc] once it has found the block [p] of size [sz]: it takes the block,
    or the end of it. *)
Definition malloc_take (nunits prevp p sz : Z) : M umst Z :=
  if sz =? nunits then
    n <- get_ptr p ;;
    put_ptr prevp n ;;;
    modify (set_freep prevp) ;;;
    ret (u32 (p + sizeof_header))
  else
    put_size p (sz - nunits) ;;;
    let p := u32 (p + sizeof_header * (sz - nunits)) in
    put_size p nunits ;;;
    modify (set_freep prevp) ;;;
    ret (u32 (p + sizeof_header)).

(** The loop of [malloc]. *)
Fixpoint malloc_loop (fuel : nat) (nunits prevp p : Z) : M umst Z :=
  match fuel with
  | O => fail NoFuel
  | S fuel' =>
      sz <- get_size p ;;
      if nunits <=? sz then malloc_take nunits prevp p sz
      else
        f <- gets freep ;;
        if p =? f then
          p <- morecore fuel nunits ;;
          if p =? 0 then ret 0
          else n <- get_ptr p ;; malloc_loop fuel' nunits p n
        else n <- get_ptr p ;; malloc_loop fuel' nunits p n
  end.

(** The number of units for [nbytes] bytes and a header. *)
Definition units (nbytes : Z) : Z := u32 (nbytes + sizeof_header - 1) / sizeof_header + 1.

Definition malloc (fuel : nat) (nbytes : Z) : M umst Z :=
  let nunits := units nbytes in
  f <- gets freep ;;
  (if f =? 0 then
     put_ptr base base ;;;
     modify (set_freep base) ;;;
     put_size base 0
   else ret tt) ;;;
  prevp <- gets freep ;;
  p <- get_ptr prevp ;;
  malloc_loop fuel nunits prevp p.

End umalloc.

(** The sum wraps for the largest requests: they get one unit, which is the
    header alone. *)
Lemma units_wraps : units 4294967295 = 1.
Proof. done. Qed.
