(* ===== verification/UmallocSpec.v ===== *)
(** The allocator keeps its blocks apart

    [heap s fl ul]: the free list holds the blocks [fl], in order of their
    addresses and never touching, and the blocks [ul] are in use; all blocks lie
    between [base] and the end of the memory and are disjoint. *)

From stdpp Require Import gmap list numbers strings.
From Stdlib Require Import ZArith Lia.
From S2P Require Import Prelude Mem Umalloc.

(** A block: address and size in units. *)
Abbreviation region := (Z * Z)%type.
Definition rend (r : region) : Z := r.1 + 8 * r.2.
Definition disj (r r' : region) : Prop := rend r ≤ r'.1 ∨ rend r' ≤ r.1.

(** From [x] the pointers lead through the blocks [l], whose sizes are in their
    headers, to [e]. *)
Fixpoint links (m : mem) (x : Z) (l : list region) (e : Z) : Prop :=
  match l with
  | [] => hptr m x = e
  | r :: l' => hptr m x = r.1 ∧ hsize m (r.1) = r.2 ∧ links m (r.1) l' e
  end.

(** The blocks [l] lie in order between [lo] and [top], with gaps. *)
Fixpoint chain (lo : Z) (l : list region) (top : Z) : Prop :=
  match l with
  | [] => lo ≤ top
  | r :: l' => lo < r.1 ∧ 1 ≤ r.2 ∧ chain (rend r) l' top
  end.

(** The address of the last block, [x] if there is none. *)
Fixpoint last_addr (x : Z) (l : list region) : Z :=
  match l with
  | [] => x
  | r :: l' => last_addr (r.1) l'
  end.

Section lists.
Implicit Types (m : mem) (l : list region) (r : region).

Lemma links_app m l1 : ∀ x r l2 e,
  links m x (l1 ++ r :: l2) e ↔ links m x l1 (r.1) ∧ hsize m (r.1) = r.2 ∧ links m (r.1) l2 e.
Proof. induction l1 as [|r1 l1 IH]; intros x r l2 e; cbn; [tauto|]. rewrite IH. tauto. Qed.

Lemma links_frame m m' l : ∀ x e,
  (∀ a, a ∈ x :: l.*1 → hptr m' a = hptr m a) → (∀ a, a ∈ l.*1 → hsize m' a = hsize m a) →
  links m x l e → links m' x l e.
Proof.
  induction l as [|r l IH]; intros x e Hp Hs; cbn.
  - by rewrite Hp by left.
  - intros (H1 & H2 & H3). rewrite Hp by left. rewrite Hs by left. split_and!; [done..|].
    apply IH; [|intros; apply Hs; by right|done]. intros a Ha. apply Hp. by right.
Qed.

Lemma chain_app l1 : ∀ lo r l2 top,
  chain lo (l1 ++ r :: l2) top ↔ chain lo l1 (r.1 - 1) ∧ 1 ≤ r.2 ∧ chain (rend r) l2 top.
Proof.
  induction l1 as [|r1 l1 IH]; intros lo r l2 top; cbn; [|rewrite IH; tauto].
  split; intros (? & ? & ?); split_and!; try done; lia.
Qed.

Lemma chain_weaken l : ∀ lo lo' top top', lo' ≤ lo → top ≤ top' → chain lo l top → chain lo' l top'.
Proof. induction l as [|r l IH]; intros lo lo' top top' Hl Ht; cbn; [lia|]. intros (? & ? & ?). split_and!; [lia|done|]. by eapply IH; [|apply Ht|]. Qed.

Lemma chain_le l : ∀ lo top, chain lo l top → lo ≤ top.
Proof. induction l as [|r l IH]; intros lo top; cbn; [done|]. intros (? & ? & H%IH). unfold rend in H. lia. Qed.

Lemma chain_in l : ∀ lo top r, chain lo l top → r ∈ l → lo < r.1 ∧ 1 ≤ r.2 ∧ rend r ≤ top.
Proof.
  induction l as [|r' l IH]; intros lo top r; cbn; [by intros _ ?%not_elem_of_nil|].
  intros (H1 & H2 & H3) [-> |Hr]%elem_of_cons; [split_and!; [done..|by eapply chain_le]|].
  destruct (IH _ _ _ H3 Hr) as (? & ? & ?). unfold rend in *. lia.
Qed.

Lemma chain_addr l lo top a : chain lo l top → a ∈ l.*1 → lo < a ∧ a + 8 ≤ top.
Proof. intros Hc (r & -> & Hr)%list_elem_of_fmap. apply (chain_in _ _ _ _ Hc) in Hr. unfold rend in Hr. lia. Qed.

Lemma last_addr_in l : ∀ x, last_addr x l ∈ x :: l.*1.
Proof. induction l as [|r l IH]; intros x; cbn; [by left|]. right. apply IH. Qed.

Lemma nodes_l a x l1 l2 : a ∈ x :: l1.*1 → a ∈ x :: (l1 ++ l2).*1.
Proof. rewrite fmap_app. set_solver. Qed.

Lemma nodes_mid x l1 r l2 : r.1 ∈ x :: (l1 ++ r :: l2).*1.
Proof. rewrite fmap_app. set_solver. Qed.

Lemma last_addr_app l1 : ∀ x r l2, last_addr x (l1 ++ r :: l2) = last_addr (r.1) l2.
Proof. induction l1 as [|r1 l1 IH]; intros x r l2; cbn; [done|]. apply IH. Qed.

Lemma last_addr_cases l x : l = [] ∧ last_addr x l = x ∨ ∃ l' r, l = l' ++ [r] ∧ last_addr x l = r.1.
Proof.
  destruct l as [|r l _] using rev_ind; [by left|]. right. exists l, r. split; [done|]. by rewrite last_addr_app.
Qed.

Lemma links_last m l : ∀ x e, links m x l e → hptr m (last_addr x l) = e.
Proof. induction l as [|r l IH]; intros x e; cbn; [done|]. intros (_ & _ & H). by apply IH. Qed.

(** Headers at different blocks do not overlap. *)
Lemma hptr_st32_ne m a b v : a + 8 ≤ b ∨ b + 8 ≤ a → hptr (st32 m a v) b = hptr m b ∧ hptr (st32 m (a + 4) v) b = hptr m b.
Proof. intros. unfold hptr. by rewrite !ld32_st32_ne by lia. Qed.
Lemma hsize_st32_ne m a b v : a + 8 ≤ b ∨ b + 8 ≤ a → hsize (st32 m a v) b = hsize m b ∧ hsize (st32 m (a + 4) v) b = hsize m b.
Proof. intros. unfold hsize. by rewrite !ld32_st32_ne by lia. Qed.
Lemma hsize_put_ptr m a v : hsize (st32 m a v) a = hsize m a.
Proof. unfold hsize. by rewrite ld32_st32_ne by lia. Qed.
Lemma hptr_put_size m a v : hptr (st32 m (a + 4) v) a = hptr m a.
Proof. unfold hptr. by rewrite ld32_st32_ne by lia. Qed.
Lemma hptr_put_ptr m a v : hptr (st32 m a v) a = u32 v.
Proof. unfold hptr. by rewrite ld32_st32_eq. Qed.
Lemma hsize_put_size m a v : hsize (st32 m (a + 4) v) a = u32 v.
Proof. unfold hsize. by rewrite ld32_st32_eq. Qed.

(** Memory that differs from [m] only in the header at [a]. *)
Definition header_only (a : Z) m m' : Prop := ∀ b, b < a ∨ a + 8 ≤ b → ld8 m' b = ld8 m b.

Lemma header_only_hptr a b m m' : header_only a m m' → a + 8 ≤ b ∨ b + 8 ≤ a → hptr m' b = hptr m b.
Proof. intros Hh Hb. unfold hptr. apply ld32_ext. intros c Hc. apply Hh. lia. Qed.
Lemma header_only_hsize a b m m' : header_only a m m' → a + 8 ≤ b ∨ b + 8 ≤ a → hsize m' b = hsize m b.
Proof. intros Hh Hb. unfold hsize. apply ld32_ext. intros c Hc. apply Hh. lia. Qed.
Lemma header_only_st32 a m v : header_only a m (st32 m a v) ∧ header_only a m (st32 m (a + 4) v).
Proof. split; intros b Hb; apply ld8_st32_ne; lia. Qed.
Lemma header_only_trans a m m' m'' : header_only a m m' → header_only a m' m'' → header_only a m m''.
Proof. intros H1 H2 b Hb. by rewrite H2, H1. Qed.

(** A change of the header at [a] leaves a list of blocks elsewhere alone. *)
Lemma links_elsewhere a m m' l x e lo top : header_only a m m' → a + 8 ≤ x ∨ x + 8 ≤ a →
  chain lo l top → a + 8 ≤ lo + 1 ∨ top ≤ a → links m x l e → links m' x l e.
Proof.
  intros Hh Hx Hc Ha. apply links_frame; intros b Hb.
  - apply elem_of_cons in Hb as [->|Hb]; [by apply (header_only_hptr a)|].
    apply (chain_addr _ _ _ _ Hc) in Hb. apply (header_only_hptr a); [done|lia].
  - apply (chain_addr _ _ _ _ Hc) in Hb. apply (header_only_hsize a); [done|lia].
Qed.

End lists.

(** Where a list of blocks begins, [e] if it is empty. *)
Definition head_addr (l : list region) (e : Z) : Z := match l with [] => e | r :: _ => r.1 end.

(** The blocks of [l] behind its beginning. *)
Definition tail_links (m : mem) (l : list region) (e : Z) : Prop :=
  match l with [] => True | r :: l' => hsize m (r.1) = r.2 ∧ links m (r.1) l' e end.

Lemma links_split m l1 l2 x e : links m x (l1 ++ l2) e ↔ links m x l1 (head_addr l2 e) ∧ tail_links m l2 e.
Proof. destruct l2 as [|r l2]; cbn; [rewrite app_nil_r; tauto|apply links_app]. Qed.

Section search.
Variable base : Z.
Implicit Types (s : umst) (l : list region).

(** [free_find] from a block below [bp]. *)
Lemma find_below bp l : ∀ fuel x lo e s, (length l < fuel)%nat → links (um s) x l e → chain lo l bp →
  x ≤ lo → x < bp → bp < e ∨ e ≤ last_addr x l → free_find fuel bp x s = Ok (last_addr x l) s.
Proof.
  induction l as [|r l IH]; intros [|fuel] x lo e s Hf Hl Hc Hx Hxb He; cbn [length] in Hf; try lia;
    cbn [free_find]; unfold get_ptr; rewrite bind_gets; cbn in Hl, Hc, He |- *.
  - rewrite Hl. destruct (Z.ltb_spec x bp); [|lia]. destruct (Z.ltb_spec bp e); [done|]. cbn.
    destruct (Z.leb_spec e x); [done|lia].
  - destruct Hl as (Hp & _ & Hl), Hc as (H1 & H2 & Hc). rewrite Hp.
    assert (Hr : r.1 < bp) by (apply chain_le in Hc; unfold rend in Hc; lia).
    destruct (Z.ltb_spec bp (r.1)); [lia|]. rewrite andb_false_r. destruct (Z.leb_spec (r.1) x); [lia|]. cbn [andb].
    apply (IH fuel (r.1) (rend r) e); [lia|done|done|unfold rend; lia|done|done].
Qed.

(** From a block above [bp] the search comes to [base]. *)
Lemma find_above bp top l : ∀ k x lo s, links (um s) x l base → chain lo l top → x ≤ lo → bp < x → base < bp →
  free_find (S (length l) + k) bp x s = free_find k bp base s.
Proof.
  induction l as [|r l IH]; intros k x lo s Hl Hc Hx Hb Hbase; cbn [length]; rewrite Nat.add_succ_l; cbn [free_find];
    unfold get_ptr; rewrite bind_gets; cbn in Hl, Hc.
  - rewrite Hl. destruct (Z.ltb_spec x bp); [lia|]. destruct (Z.ltb_spec bp base); [lia|]. cbn. by rewrite andb_false_r.
  - destruct Hl as (Hp & _ & Hl), Hc as (H1 & H2 & Hc). rewrite Hp. destruct (Z.ltb_spec x bp); [lia|].
    destruct (Z.leb_spec (r.1) x); [lia|]. cbn [andb]. apply (IH k (r.1) (rend r)); [done|done|unfold rend; lia|lia|done].
Qed.

Lemma free_find_ok s l1 l2 bp top fuel : links (um s) base (l1 ++ l2) base →
  chain (base + 7) l1 bp → chain bp l2 top → base < bp → freep s ∈ base :: (l1 ++ l2).*1 →
  (length (l1 ++ l2) + 2 ≤ fuel)%nat →
  free_find fuel bp (freep s) s = Ok (last_addr base l1) s.
Proof.
  intros Hl H1 H2 Hb Hin Hf. rewrite length_app in Hf. apply links_split in Hl as [Hl1 Hl2].
  assert (Hstop : bp < head_addr l2 base ∨ head_addr l2 base ≤ last_addr base l1).
  { destruct l2 as [|r l2]; cbn in H2 |- *; [|lia]. right.
    pose proof (last_addr_in l1 base) as [->|Hla]%elem_of_cons; [lia|]. apply (chain_addr _ _ _ _ H1) in Hla. lia. }
  assert (Hbase : ∀ k, (length l1 < k)%nat → free_find k bp base s = Ok (last_addr base l1) s).
  { intros k Hk. apply (find_below bp l1 k base (base + 7) (head_addr l2 base)); try done; lia. }
  rewrite fmap_app in Hin. set_unfold in Hin. destruct Hin as [->|[(r & Hr & Hrin)|(r & Hr & Hrin)]].
  - apply Hbase. lia.
  - rewrite Hr. apply list_elem_of_split in Hrin as (g1 & g2 & ->).
    apply links_app in Hl1 as (_ & _ & Hl1). apply chain_app in H1 as (_ & ? & H1). rewrite last_addr_app in Hstop |- *.
    rewrite length_app in Hf. cbn in Hf. pose proof (chain_le _ _ _ H1).
    apply (find_below bp g2 fuel (r.1) (rend r) (head_addr l2 base)); try done; unfold rend in *; lia.
  - rewrite Hr. apply list_elem_of_split in Hrin as (g1 & g2 & ->).
    assert (Hg2 : links (um s) (r.1) g2 base).
    { destruct g1 as [|g g1]; cbn in Hl2; [tauto|]. destruct Hl2 as [_ Hl2]. apply links_app in Hl2. tauto. }
    apply chain_app in H2 as (H2 & ? & H2'). apply chain_le in H2. rewrite length_app in Hf. cbn in Hf.
    replace fuel with (S (length g2) + (fuel - S (length g2)))%nat by lia.
    rewrite (find_above bp top g2 _ (r.1) (rend r)); [|done|done|unfold rend; lia|lia|done]. apply Hbase. lia.
Qed.

End search.

(** The bytes of the blocks [l]. *)
Definition covered (l : list region) (x : Z) : Prop := ∃ r, r ∈ l ∧ r.1 ≤ x < rend r.

Lemma covered_nil x : covered [] x ↔ False.
Proof. unfold covered. set_solver. Qed.
Lemma covered_cons r l x : covered (r :: l) x ↔ r.1 ≤ x < rend r ∨ covered l x.
Proof. unfold covered. set_solver. Qed.
Lemma covered_app l1 l2 x : covered (l1 ++ l2) x ↔ covered l1 x ∨ covered l2 x.
Proof. unfold covered. set_solver. Qed.

Create Rewrite HintDb covered.
#[export] Hint Rewrite covered_nil covered_cons covered_app : covered.

(** Blocks that a disjoint block [(bp, n)] divides. *)
Lemma chain_split bp n l : ∀ lo top, chain lo l top → Forall (disj (bp, n)) l → lo < bp → 1 ≤ n → bp + 8 * n ≤ top →
  ∃ l1 l2, l = l1 ++ l2 ∧ chain lo l1 bp ∧ chain (bp + 8 * n - 1) l2 top.
Proof.
  induction l as [|r l IH]; intros lo top Hc Hd Hlo Hn Ht; cbn in Hc.
  { exists [], []. cbn. split_and!; [done|lia..]. }
  destruct Hc as (H1 & H2 & Hc). inversion Hd as [|? ? Hr Hd']; subst. destruct Hr as [Hr|Hr]; unfold rend in *; cbn in Hr.
  - exists [], (r :: l). cbn. split_and!; [done|lia|lia|done|done].
  - destruct (decide (r.1 + 8 * r.2 = bp)) as [E|E].
    + exists [r], l. cbn. unfold rend. split_and!; [done|done|done|lia|].
      destruct l as [|r' l]; cbn in Hc |- *; [lia|]. destruct Hc as (? & ? & ?).
      inversion Hd' as [|? ? Hr' _]; subst. unfold disj, rend in Hr'. cbn in Hr'. split_and!; [lia|done|done].
    + destruct (IH _ _ Hc Hd') as (l1 & l2 & -> & Hc1 & Hc2); [lia|done|done|].
      exists (r :: l1), l2. cbn. unfold rend. split_and!; done.
Qed.

Section joins.
Variable base : Z.
Implicit Types (m : mem) (l t : list region).

(** The first half of [free]: the block and the one behind it. *)
Definition join_upper m (bp n e : Z) : mem :=
  if u32 (bp + 8 * n) =? e then
    let m' := st32 m (bp + 4) (u32 (n + hsize m e)) in st32 m' bp (hptr m' e)
  else st32 m bp e.

Lemma join_upper_ok m bp n l2 top : tail_links m l2 base → chain (bp + 8 * n - 1) l2 top →
  hsize m bp = n → 1 ≤ n → 0 < base → base + 8 ≤ bp → top ≤ 2147483648 → bp + 8 * n ≤ top →
  let m1 := join_upper m bp n (head_addr l2 base) in
  ∃ n1 t, header_only bp m m1 ∧ hsize m1 bp = n1 ∧ links m1 bp t base ∧ n ≤ n1 ∧ chain (bp + 8 * n1) t top ∧
    (∀ x, covered ((bp, n1) :: t) x ↔ bp ≤ x < bp + 8 * n ∨ covered l2 x) ∧ (length t ≤ length l2)%nat.
Proof.
  intros Hl Hc Hsz Hn Hb0 Hb Htop Hend. unfold join_upper. rewrite (u32_small (bp + 8 * n)) by lia.
  destruct l2 as [|r l2]; cbn [head_addr].
  - destruct (Z.eqb_spec (bp + 8 * n) base); [lia|]. exists n, []. cbn [links chain length].
    split_and!; [apply header_only_st32|by rewrite hsize_put_ptr|by rewrite hptr_put_ptr, u32_small by lia|lia|lia| |lia].
    intros x. autorewrite with covered. unfold rend. cbn [fst snd]. tauto.
  - cbn [tail_links chain] in Hl, Hc. destruct Hl as [Hr Hl], Hc as (H1 & H2 & Hc). pose proof (chain_le _ _ _ Hc) as Hle. unfold rend in Hle.
    destruct (Z.eqb_spec (bp + 8 * n) (r.1)) as [E|E]; cbn [length].
    + assert (Ha : bp + 8 ≤ r.1 ∨ r.1 + 8 ≤ bp) by lia. rewrite Hr.
      set (m' := st32 m (bp + 4) _).
      assert (Hho : header_only bp m (st32 m' bp (hptr m' (r.1)))).
      { eapply header_only_trans; [apply header_only_st32|apply header_only_st32]. }
      exists (n + r.2), l2. unfold rend in *. split_and!; [done| | |lia| | |lia].
      * rewrite hsize_put_ptr. unfold m'. by rewrite hsize_put_size, (u32_small (n + r.2)), u32_small by lia.
      * assert (Hn' : hptr (st32 m' bp (hptr m' (r.1))) bp = hptr m (r.1)).
        { rewrite hptr_put_ptr. unfold m'. rewrite (proj2 (hptr_st32_ne m bp (r.1) _ Ha)).
          apply u32_small. apply ld32_range. }
        destruct l2 as [|r2 l2]; cbn [links chain] in Hl, Hc |- *; [by rewrite Hn'|]. destruct Hl as (Hl1 & Hl2 & Hl3), Hc as (? & ? & Hc).
        unfold rend in *. rewrite Hn'. split_and!; [done| |].
        -- rewrite (header_only_hsize bp _ m); [done|done|lia].
        -- eapply (links_elsewhere bp m); [exact Hho| |exact Hc| |exact Hl3]; lia.
      * replace (bp + 8 * (n + r.2)) with (r.1 + 8 * r.2) by lia. done.
      * intros x. autorewrite with covered. unfold rend. cbn [fst snd]. split; [intros [?|?]; [|tauto]|intros [?|[?|?]]; [left; lia|left; lia|tauto]].
        destruct (decide (x < bp + 8 * n)); [left; lia|right; left; lia].
    + exists n, (r :: l2). cbn [links chain]. unfold rend. assert (Hho : header_only bp m (st32 m bp (r.1))) by apply header_only_st32.
      split_and!; [done|by rewrite hsize_put_ptr|by rewrite hptr_put_ptr, u32_small by lia| | |lia|lia|done|done| |done].
      * rewrite (header_only_hsize bp _ m); [done|done|lia].
      * unfold rend in *. eapply (links_elsewhere bp m); [exact Hho| |exact Hc| |exact Hl]; lia.
      * intros x. autorewrite with covered. unfold rend. cbn [fst snd]. tauto.
Qed.

(** The second half: the block before it, [p]. *)
Definition join_lower m (p bp : Z) : mem :=
  if u32 (p + 8 * hsize m p) =? bp then
    let m' := st32 m (p + 4) (u32 (hsize m p + hsize m bp)) in st32 m' p (hptr m' bp)
  else st32 m p bp.

Lemma join_lower_ok m bp n1 l1 e t top : links m base l1 e → hsize m base = 0 → chain (base + 7) l1 bp →
  hsize m bp = n1 → links m bp t base → chain (bp + 8 * n1) t top → 1 ≤ n1 →
  0 < base → base + 8 ≤ bp → top ≤ 2147483648 →
  let p := last_addr base l1 in
  let m2 := join_lower m p bp in
  ∃ fl, header_only p m m2 ∧ links m2 base fl base ∧ hsize m2 base = 0 ∧ chain (base + 7) fl top ∧ p ∈ base :: fl.*1 ∧
    (∀ x, covered fl x ↔ covered l1 x ∨ covered ((bp, n1) :: t) x) ∧ (length fl ≤ length l1 + S (length t))%nat.
Proof.
  intros Hl1 Hbs Hc1 Hsz Ht Hct Hn Hb0 Hb Htop p. pose proof (chain_le _ _ _ Hct) as Hle.
  unfold join_lower. destruct (last_addr_cases l1 base) as [[-> Hp]|(l' & r & -> & Hp)]; fold p in Hp; rewrite Hp; clear p Hp.
  - rewrite Hbs, Z.mul_0_r, Z.add_0_r, u32_small by lia. destruct (Z.eqb_spec base bp); [lia|].
    assert (Hho : header_only base m (st32 m base bp)) by apply header_only_st32.
    exists ((bp, n1) :: t). cbn [links chain fst snd]. unfold rend. cbn [fst snd]. split_and!; [done|by rewrite hptr_put_ptr, u32_small by lia| | |by rewrite hsize_put_ptr|lia|done|done|by left| |cbn; lia].
    + by rewrite (header_only_hsize base _ m) by (done || lia).
    + eapply (links_elsewhere base m); [exact Hho| |exact Hct| |exact Ht]; lia.
    + intros x. autorewrite with covered. tauto.
  - apply links_app in Hl1 as (Hl' & Hr & Hpr). apply chain_app in Hc1 as (Hc' & Hr1 & Hrb). cbn [links chain] in Hpr, Hrb.
    pose proof (chain_le _ _ _ Hc') as Hle'. unfold rend in *. rewrite Hr, u32_small by lia. rewrite length_app. cbn [length].
    destruct (Z.eqb_spec (r.1 + 8 * r.2) bp) as [E|E].
    + rewrite Hsz. set (m' := st32 m (r.1 + 4) _).
      assert (Hho : header_only (r.1) m (st32 m' (r.1) (hptr m' bp))).
      { eapply header_only_trans; apply header_only_st32. }
      assert (Hnext : hptr (st32 m' (r.1) (hptr m' bp)) (r.1) = hptr m bp).
      { rewrite hptr_put_ptr. unfold m'. rewrite (proj2 (hptr_st32_ne m (r.1) bp _ ltac:(lia))).
        apply u32_small, ld32_range. }
      exists (l' ++ (r.1, r.2 + n1) :: t). split_and!.
      * done.
      * apply links_app. cbn [links fst snd]. split_and!.
        -- eapply (links_elsewhere (r.1) m); [exact Hho| |exact Hc'| |exact Hl']; lia.
        -- rewrite hsize_put_ptr. unfold m'. by rewrite hsize_put_size, (u32_small (r.2 + n1)), u32_small by lia.
        -- destruct t as [|r2 t]; cbn [links chain] in Ht, Hct |- *; [by rewrite Hnext|]. destruct Ht as (Ht1 & Ht2 & Ht3), Hct as (? & ? & Hct).
           rewrite Hnext. unfold rend in *. split_and!; [done| |].
           ++ rewrite (header_only_hsize (r.1) _ m); [done|done|lia].
           ++ eapply (links_elsewhere (r.1) m); [exact Hho| |exact Hct| |exact Ht3]; lia.
      * rewrite (header_only_hsize (r.1) _ m); [done|done|lia].
      * apply chain_app. unfold rend. cbn [chain fst snd]. unfold rend. split_and!; [done|lia|]. replace (r.1 + 8 * (r.2 + n1)) with (bp + 8 * n1) by lia. done.
      * apply (nodes_mid base l' (r.1, r.2 + n1) t).
      * intros x. autorewrite with covered. unfold rend. cbn [fst snd].
        split; [intros [?|[?|?]]; [tauto| |tauto]|intros [[?|[?|[]]]|[?|?]]; [tauto|right; left; lia|right; left; lia|tauto]].
        destruct (decide (x < bp)); [left; right; left; lia|right; left; lia].
      * rewrite length_app. cbn. lia.
    + assert (Hho : header_only (r.1) m (st32 m (r.1) bp)) by apply header_only_st32.
      exists (l' ++ r :: (bp, n1) :: t). split_and!.
      * done.
      * apply links_app. cbn [links fst snd]. split_and!.
        -- eapply (links_elsewhere (r.1) m); [exact Hho| |exact Hc'| |exact Hl']; lia.
        -- by rewrite hsize_put_ptr.
        -- by rewrite hptr_put_ptr, u32_small by lia.
        -- rewrite (header_only_hsize (r.1) _ m); [done|done|lia].
        -- eapply (links_elsewhere (r.1) m); [exact Hho| |exact Hct| |exact Ht]; lia.
      * rewrite (header_only_hsize (r.1) _ m); [done|done|lia].
      * apply chain_app. unfold rend. cbn [chain fst snd]. unfold rend. split_and!; [done|lia|lia|done|done].
      * apply nodes_mid.
      * intros x. autorewrite with covered. tauto.
      * rewrite length_app. cbn. lia.
Qed.

End joins.

(** ** The heap *)

Definition in_region (r : region) (x : Z) : Prop := r.1 ≤ x < rend r.

(** Pairwise disjoint blocks. *)
Fixpoint apart (l : list region) : Prop :=
  match l with
  | [] => True
  | r :: l' => Forall (disj r) l' ∧ apart l'
  end.

Section heap.
Variable base : Z.
Implicit Types (s : umst) (fl ul l : list region) (r : region).

(** A block in use. *)
Definition used_ok s fl r : Prop :=
  base + 8 ≤ r.1 ∧ 1 ≤ r.2 ∧ rend r ≤ brk s ∧ hsize (um s) (r.1) = r.2 ∧ Forall (disj r) fl.

Record heap s fl ul : Prop := {
  hp_base : 0 < base;
  hp_brk : base + 8 ≤ brk s ≤ 2147483648;
  hp_links : links (um s) base fl base;
  hp_size : hsize (um s) base = 0;
  hp_chain : chain (base + 7) fl (brk s);
  hp_freep : freep s ∈ base :: fl.*1;
  hp_used : Forall (used_ok s fl) ul;
  hp_apart : apart ul
}.

(** The bytes of the blocks [ul] are as before. *)
Definition same_data m m' ul : Prop := ∀ r x, r ∈ ul → in_region r x → ld8 m' x = ld8 m x.

Lemma disj_sym r r' : disj r r' → disj r' r.
Proof. unfold disj. tauto. Qed.

Lemma disj_bytes r r' : 1 ≤ r.2 → 1 ≤ r'.2 → disj r r' ↔ ∀ x, in_region r x → ¬ in_region r' x.
Proof.
  intros H1 H2. unfold disj, in_region, rend. split; [lia|]. intros Hx.
  destruct (decide (r.1 ≤ r'.1)).
  - specialize (Hx (r'.1)). left. lia.
  - specialize (Hx (r.1)). right. lia.
Qed.

Lemma apart_perm l l' : l ≡ₚ l' → apart l → apart l'.
Proof.
  induction 1 as [|r l l' Hp IH|r r' l|l1 l2 l3 _ IH1 _ IH2]; cbn; [done| | |tauto].
  - intros [Hf Ha]. split; [by rewrite <-Hp|auto].
  - intros (Hr & Hr' & Ha). inversion Hr; subst. split_and!; [|done..]. constructor; [by apply disj_sym|done].
Qed.

Lemma heap_perm s fl ul ul' : ul ≡ₚ ul' → heap s fl ul → heap s fl ul'.
Proof.
  intros Hp [? ? ? ? ? ? Hu Ha]. split; try done; [by rewrite <-Hp|by eapply apart_perm].
Qed.

(** Blocks in use under a change of the free list that frees only [dead]. *)
Lemma used_ok_frees s s' fl fl' dead r : brk s' = brk s → chain (base + 7) fl' (brk s') →
  (∀ x, covered fl' x → covered fl x ∨ dead x) → (∀ x, in_region r x → ¬ dead x) →
  (∀ x, in_region r x → ld8 (um s') x = ld8 (um s) x) →
  used_ok s fl r → used_ok s' fl' r.
Proof.
  intros Hb Hc Hcov Hdead Hm (H1 & H2 & H3 & H4 & H5). unfold used_ok. rewrite Hb. split_and!; try done.
  - rewrite <-H4. unfold hsize. apply ld32_ext. intros x Hx. apply Hm. unfold in_region, rend. lia.
  - rewrite Forall_forall in H5 |- *. intros r' Hr'. destruct (chain_in _ _ _ _ Hc Hr') as (? & ? & ?).
    apply disj_bytes; [done..|]. intros x Hx Hx'.
    destruct (Hcov x) as [(r0 & Hr0 & Hx0)|Hd]; [by exists r'| |by eapply Hdead].
    specialize (H5 _ Hr0). unfold disj, in_region in *. lia.
Qed.

(** A header change inside a free block, or at [base], leaves the blocks in use
    alone. *)
Lemma used_away s fl ul r a m m' : heap s fl ul → r ∈ ul → a ∈ base :: fl.*1 → header_only a m m' →
  ∀ x, in_region r x → ld8 m' x = ld8 m x.
Proof.
  intros Hh Hr Ha Hho x Hx. apply Hho. destruct Hh as [? ? _ _ Hc _ Hu _]. rewrite Forall_forall in Hu.
  destruct (Hu _ Hr) as (H1 & H2 & H3 & _ & H5). unfold in_region, rend in *.
  apply elem_of_cons in Ha as [->|(r' & -> & Hr')%list_elem_of_fmap]; [lia|].
  rewrite Forall_forall in H5. specialize (H5 _ Hr'). destruct (chain_in _ _ _ _ Hc Hr'). unfold disj, rend in *. lia.
Qed.

(** [free] as its two joins. *)
Lemma free_run s fuel bp p : 0 ≤ bp → bp + 8 < 4294967296 → free_find fuel bp (freep s) s = Ok p s →
  free fuel (bp + 8) s =
  Ok tt (Umst (join_lower (join_upper (um s) bp (hsize (um s) bp) (hptr (um s) p)) p bp) p (brk s)).
Proof.
  intros Hb Hb' Hf. unfold free, sizeof_header. replace (bp + 8 - 8) with bp by lia. rewrite (u32_small bp) by lia.
  rewrite bind_gets, (bind_ok _ _ _ _ _ Hf). unfold get_ptr, get_size. rewrite !bind_gets.
  unfold join_upper, join_lower. destruct (u32 (bp + 8 * hsize (um s) bp) =? hptr (um s) p).
  - rewrite bind_assoc, bind_gets, bind_assoc. unfold put_size at 1. rewrite bind_modify, bind_assoc, bind_gets.
    unfold put_ptr at 1. rewrite bind_modify, bind_gets. cbn [um set_um].
    destruct (u32 (p + _) =? bp); done.
  - unfold put_ptr at 1. rewrite bind_modify, bind_gets. cbn [um set_um].
    destruct (u32 (p + _) =? bp); done.
Qed.

Lemma free_ok s fl ul bp n fuel : heap s fl ((bp, n) :: ul) → (length fl + 2 ≤ fuel)%nat →
  ∃ s' fl', free fuel (bp + 8) s = Ok tt s' ∧ heap s' fl' ul ∧ brk s' = brk s ∧
    (∀ x, covered fl' x ↔ covered fl x ∨ in_region (bp, n) x) ∧ same_data (um s) (um s') ul ∧
    (length fl' ≤ S (length fl))%nat.
Proof.
  intros Hh Hf. pose proof Hh as [Hb0 [Hb1 Hb2] Hl Hbs Hc Hfp Hu Ha].
  inversion Hu as [|? ? (Hu1 & Hu2 & Hu3 & Hu4 & Hu5) Hul]; subst. destruct Ha as [Hd Ha]. unfold rend in Hu3. cbn [fst snd] in *.
  destruct (chain_split bp n fl _ _ Hc Hu5) as (l1 & l2 & -> & Hc1 & Hc2); [lia|done|done|].
  set (p := last_addr base l1).
  assert (Hfind : free_find fuel bp (freep s) s = Ok p s).
  { apply (free_find_ok base s l1 l2 bp (brk s)); try done; [|lia].
    by apply (chain_weaken l2 (bp + 8 * n - 1) bp (brk s) (brk s)); [lia..|]. }
  apply links_split in Hl as [Hl1 Hl2]. pose proof (links_last _ _ _ _ Hl1) as Hpe. fold p in Hpe.
  destruct (join_upper_ok base (um s) bp n l2 (brk s)) as (n1 & t & Hho1 & Hs1 & Ht & Hn1 & Hct & Hcov1 & Hlen1); try done.
  set (m1 := join_upper (um s) bp n (head_addr l2 base)) in *.
  assert (Hl1' : links m1 base l1 (head_addr l2 base)) by (eapply (links_elsewhere bp (um s)); [exact Hho1| |exact Hc1| |exact Hl1]; lia).
  destruct (join_lower_ok base m1 bp n1 l1 (head_addr l2 base) t (brk s)) as (fl' & Hho2 & Hl' & Hbs' & Hc' & Hp' & Hcov2 & Hlen2);
    try done; [|lia|].
  { rewrite (header_only_hsize bp _ (um s)); [done|done|lia]. }
  fold p in Hho2, Hl', Hbs', Hp'. set (m2 := join_lower m1 p bp) in *.
  assert (Hcov : ∀ x, covered fl' x ↔ covered (l1 ++ l2) x ∨ in_region (bp, n) x).
  { intros x. rewrite Hcov2, Hcov1, covered_app. unfold in_region, rend. cbn [fst snd]. tauto. }
  assert (Hnd : ∀ r, r ∈ ul → ∀ x, in_region r x → ¬ in_region (bp, n) x).
  { intros r Hr x Hx Hx'. rewrite Forall_forall in Hd. specialize (Hd r Hr). unfold disj, in_region, rend in *. cbn [fst snd] in *. lia. }
  assert (Hpin : p ∈ base :: (l1 ++ l2).*1) by (apply nodes_l, last_addr_in).
  assert (Hdata : ∀ r, r ∈ ul → ∀ x, in_region r x → ld8 m2 x = ld8 (um s) x).
  { intros r Hr x Hx. rewrite (used_away s (l1 ++ l2) ((bp, n) :: ul) r p m1 m2 Hh (list_elem_of_further _ _ _ Hr) Hpin Hho2 x Hx).
    apply Hho1. specialize (Hnd r Hr x Hx). unfold in_region, rend in *. cbn [fst snd] in *. lia. }
  exists (Umst m2 p (brk s)), fl'. split_and!.
  - rewrite (free_run s fuel bp p) by (done || lia). by rewrite Hu4, Hpe.
  - split; try done. rewrite Forall_forall. intros r Hr. rewrite Forall_forall in Hul.
    apply (used_ok_frees s _ (l1 ++ l2) _ (in_region (bp, n))); try done; [|by apply Hnd|by apply Hdata|by apply Hul].
    intros x Hx. apply Hcov. done.
  - done.
  - exact Hcov.
  - intros r x Hr. by apply Hdata.
  - rewrite length_app. lia.
Qed.

(** ** [malloc] *)

Lemma links_set_last m l v : 0 ≤ v < 4294967296 → ∀ x e lo top, links m x l e → chain lo l top → x + 8 ≤ lo + 1 →
  links (st32 m (last_addr x l) v) x l v.
Proof.
  intros Hv. induction l as [|r l IH]; intros x e lo top Hl Hc Hx; cbn [links chain last_addr] in *.
  { by rewrite hptr_put_ptr, u32_small. }
  destruct Hl as (H1 & H2 & H3), Hc as (Hc1 & Hc2 & Hc3). unfold rend in Hc3.
  pose proof (last_addr_in l (r.1)) as Hin. assert (Hlast : last_addr (r.1) l = r.1 ∨ r.1 + 8 ≤ last_addr (r.1) l).
  { apply elem_of_cons in Hin as [->|Hin]; [by left|]. apply (chain_addr _ _ _ _ Hc3) in Hin. right. lia. }
  split_and!.
  - rewrite (proj1 (hptr_st32_ne m (last_addr (r.1) l) x v ltac:(lia))). done.
  - destruct Hlast as [->|Hlast]; [by rewrite hsize_put_ptr|].
    by rewrite (proj1 (hsize_st32_ne m (last_addr (r.1) l) (r.1) v ltac:(lia))).
  - apply (IH _ e (r.1 + 8 * r.2) top); [done|done|lia].
Qed.

(** The list behind the block that is taken. *)
Lemma links_next m r l e : links m (r.1) l e → hptr m (r.1) = head_addr l e ∧ tail_links m l e.
Proof. destruct l as [|r' l]; cbn; [done|]. by intros (-> & ? & ?). Qed.

Lemma tail_links_elsewhere a m m' l e lo top : header_only a m m' → chain lo l top → a + 8 ≤ lo + 1 ∨ top ≤ a →
  tail_links m l e → tail_links m' l e.
Proof.
  intros Hho Hc Ha. destruct l as [|r l]; cbn [tail_links]; [done|]. cbn [chain] in Hc. destruct Hc as (H1 & H2 & Hc).
  pose proof (chain_le _ _ _ Hc). unfold rend in *. intros [Hs Hl]. split.
  - rewrite (header_only_hsize a _ m); [done|done|lia].
  - eapply (links_elsewhere a m); [exact Hho| |exact Hc| |exact Hl]; lia.
Qed.

Lemma chain_join l1 : ∀ lo mid l2 top, chain lo l1 mid → chain mid l2 top → chain lo (l1 ++ l2) top.
Proof.
  induction l1 as [|r l1 IH]; intros lo mid l2 top; cbn [chain app].
  - intros Hlo Hc. apply (chain_weaken l2 mid lo top top); [done|lia|done].
  - intros (H1 & H2 & H3) Hc. split_and!; [done..|]. by eapply IH.
Qed.

(** Putting the size of [x] keeps the list behind it. *)
Lemma links_put_size m x v l e lo top : links m x l e → chain lo l top → x + 8 ≤ lo + 1 → links (st32 m (x + 4) v) x l e.
Proof.
  intros Hl Hc Hx. assert (Hho : header_only x m (st32 m (x + 4) v)) by apply header_only_st32.
  apply (links_frame m); [| |done]; intros a Ha.
  - apply elem_of_cons in Ha as [->|Ha]; [apply hptr_put_size|]. apply (chain_addr _ _ _ _ Hc) in Ha.
    apply (header_only_hptr x); [done|lia].
  - apply (chain_addr _ _ _ _ Hc) in Ha. apply (header_only_hsize x); [done|lia].
Qed.

(** The heap after a block inside the free block [r] is taken. *)
Lemma take_heap s fl ul r p nu m' prevp fl' : heap s fl ul → r ∈ fl → r.1 ≤ p → 1 ≤ nu → p + 8 * nu ≤ rend r →
  links m' base fl' base → hsize m' base = 0 → chain (base + 7) fl' (brk s) → prevp ∈ base :: fl'.*1 →
  hsize m' p = nu → (∀ x, covered fl' x → covered fl x ∧ ¬ in_region (p, nu) x) → same_data (um s) m' ul →
  heap (Umst m' prevp (brk s)) fl' ((p, nu) :: ul).
Proof.
  intros [Hb0 [Hb1 Hb2] _ _ Hc _ Hu Ha] Hr Hp Hnu Hend Hl Hs Hc' Hprev Hsz Hcov Hdata.
  destruct (chain_in _ _ _ _ Hc Hr) as (Hr1 & Hr2 & Hr3). rewrite Forall_forall in Hu.
  split; try done; cbn [um brk freep].
  - constructor; [|rewrite Forall_forall; intros r' Hr'].
    + unfold used_ok. cbn [um brk fst snd]. unfold rend in *. cbn [fst snd] in *. split_and!; [lia|done|lia|done|].
      rewrite Forall_forall. intros r' Hr'. destruct (chain_in _ _ _ _ Hc' Hr') as (? & ? & ?).
      apply disj_bytes; [done..|]. intros x Hx Hx'. destruct (Hcov x) as [_ Hn]; [by exists r'|done].
    + apply (used_ok_frees s _ fl _ (λ _, False)); try done; [|tauto|intros; by apply (Hdata r')|by apply Hu].
      intros x Hx. left. by apply Hcov.
  - cbn [apart]. split; [|done]. rewrite Forall_forall. intros r' Hr'. destruct (Hu _ Hr') as (? & ? & ? & _ & Hd).
    rewrite Forall_forall in Hd. specialize (Hd _ Hr). unfold disj, rend in *. cbn [fst snd] in *. lia.
Qed.

Lemma take_ok s g1 r g2 ul nu : heap s (g1 ++ r :: g2) ul → 1 ≤ nu ≤ r.2 →
  ∃ p s' fl', malloc_take nu (last_addr base g1) (r.1) (r.2) s = Ok (p + 8) s' ∧ heap s' fl' ((p, nu) :: ul) ∧
    same_data (um s) (um s') ul.
Proof.
  intros Hh Hnu. pose proof Hh as [Hb0 [Hb1 Hb2] Hl Hbs Hc Hfp Hu Ha].
  apply links_app in Hl as (Hl1 & Hrs & Hl2). apply chain_app in Hc as (Hc1 & Hr1 & Hc2).
  pose proof (chain_le _ _ _ Hc1) as Hle1. pose proof (chain_le _ _ _ Hc2) as Hle2. unfold rend in Hc2, Hle2.
  pose proof Hl2 as Hl2'. apply links_next in Hl2 as [Hnext Hl2].
  set (prevp := last_addr base g1).
  assert (Hprev : prevp ∈ base :: g1.*1) by apply last_addr_in.
  assert (Hpr : base ≤ prevp ∧ prevp + 8 ≤ r.1).
  { apply elem_of_cons in Hprev as [->|Hin]; [lia|]. apply (chain_addr _ _ _ _ Hc1) in Hin. lia. }
  assert (Hrin : r ∈ g1 ++ r :: g2) by (apply elem_of_app; right; left).
  assert (Hprevin : prevp ∈ base :: (g1 ++ r :: g2).*1) by (by apply nodes_l).
  assert (Hout : ∀ x, covered g1 x ∨ covered g2 x → ¬ in_region r x).
  { intros x [(r' & Hr' & Hx)|(r' & Hr' & Hx)] Hx'; unfold in_region, rend in *.
    - apply (chain_in _ _ _ _ Hc1) in Hr'. unfold rend in Hr'. lia.
    - apply (chain_in _ _ _ _ Hc2) in Hr'. unfold rend in Hr'. lia. }
  unfold malloc_take, sizeof_header. destruct (Z.eqb_spec (r.2) nu) as [E|E].
  - set (m' := st32 (um s) prevp (hptr (um s) (r.1))).
    assert (Hho : header_only prevp (um s) m') by apply header_only_st32.
    exists (r.1), (Umst m' prevp (brk s)), (g1 ++ g2). split_and!.
    + unfold get_ptr, put_ptr. rewrite bind_gets, !bind_modify. cbn [um set_um set_freep freep brk].
      unfold ret. by rewrite u32_small by lia.
    + apply (take_heap s (g1 ++ r :: g2) ul r _ _ _ _ _ Hh Hrin); [lia|lia|unfold rend; lia|..].
      * apply links_split. split.
        -- unfold m'. rewrite Hnext. rewrite <-Hnext at 1. rewrite <-Hnext.
           apply (links_set_last _ _ _ (ld32_range _ _) _ (r.1) (base + 7) (r.1 - 1)); [done|done|lia].
        -- apply (tail_links_elsewhere prevp (um s) _ _ _ _ _ Hho Hc2); [lia|done].
      * destruct (decide (prevp = base)) as [Hpb|Hpb]; [unfold m'; rewrite Hpb; by rewrite hsize_put_ptr|].
        apply elem_of_cons in Hprev as [?|Hin]; [done|]. apply (chain_addr _ _ _ _ Hc1) in Hin.
        rewrite (header_only_hsize prevp _ (um s)); [done|done|lia].
      * apply (chain_join _ _ (r.1 - 1)); [done|]. apply (chain_weaken g2 (r.1 + 8 * r.2) _ (brk s)); [lia|lia|done].
      * by apply nodes_l.
      * rewrite (header_only_hsize prevp _ (um s)); [by rewrite Hrs|done|lia].
      * intros x Hx. apply covered_app in Hx. autorewrite with covered. split; [tauto|].
        rewrite <-E, <-surjective_pairing. by apply Hout.
      * intros r' x Hr' Hx. by apply (used_away s (g1 ++ r :: g2) ul r' prevp (um s) m').
    + intros r' x Hr' Hx. by apply (used_away s (g1 ++ r :: g2) ul r' prevp (um s) m').
  - set (p := r.1 + 8 * (r.2 - nu)).
    set (m1 := st32 (um s) (r.1 + 4) (r.2 - nu)). set (m' := st32 m1 (p + 4) nu).
    assert (Hho1 : header_only (r.1) (um s) m1) by apply header_only_st32.
    assert (Hho : header_only p m1 m') by apply header_only_st32.
    assert (Hdata : same_data (um s) m' ul).
    { intros r' x Hr' Hx. rewrite Hho.
      - apply (used_away s (g1 ++ r :: g2) ul r' (r.1) (um s) m1); try done. apply nodes_mid.
      - rewrite Forall_forall in Hu. destruct (Hu _ Hr') as (_ & _ & _ & _ & Hd). rewrite Forall_forall in Hd.
        specialize (Hd _ Hrin). unfold disj, in_region, rend in *. lia. }
    exists p, (Umst m' prevp (brk s)), (g1 ++ (r.1, r.2 - nu) :: g2). split_and!; [| |done].
    + unfold put_size. rewrite !bind_modify. cbn [um set_um set_freep freep brk]. fold p.
      rewrite (u32_small p) by lia. unfold ret. by rewrite u32_small by lia.
    + apply (take_heap s (g1 ++ r :: g2) ul r _ _ _ _ _ Hh Hrin); [lia|lia|unfold rend; lia|..].
      * apply links_app. cbn [fst snd]. split_and!.
        -- eapply (links_elsewhere p m1); [exact Hho| |exact Hc1| |]; [lia|lia|].
           eapply (links_elsewhere (r.1) (um s)); [exact Hho1| |exact Hc1| |exact Hl1]; lia.
        -- rewrite (header_only_hsize p _ m1) by (done || lia). unfold m1. rewrite hsize_put_size, u32_small by lia. done.
        -- eapply (links_elsewhere p m1); [exact Hho| |exact Hc2| |]; [lia|lia|].
           by apply (links_put_size _ _ _ _ _ _ _ Hl2' Hc2); lia.
      * rewrite (header_only_hsize p _ m1) by (done || lia). rewrite (header_only_hsize (r.1) _ (um s)); [done|done|lia].
      * apply chain_app. cbn [fst snd]. split_and!; [done|lia|].
        apply (chain_weaken g2 (r.1 + 8 * r.2) _ (brk s)); [unfold rend; cbn [fst snd]; lia|lia|done].
      * by apply nodes_l.
      * unfold m'. by rewrite hsize_put_size, u32_small by lia.
      * intros x. autorewrite with covered. unfold in_region, rend. cbn [fst snd]. unfold p. intros Hx.
        split; [destruct Hx as [?|[?|?]]; [tauto|right; left; lia|tauto]|].
        intros Hp. destruct Hx as [Hx|[Hx|Hx]]; [|lia|]; apply (Hout x); try tauto; unfold in_region, rend; lia.
      * done.
Qed.

(** *** The search *)

Section malloc.
Variable sbrk : Z → M umst Z.

(** What the loop does at [freep]. *)
Definition malloc_more (fuel : nat) (nu : Z) : M umst Z :=
  p <- morecore sbrk (S fuel) nu ;;
  if p =? 0 then ret 0 else n <- get_ptr p ;; malloc_loop sbrk fuel nu p n.

(** One round of the loop at the block [p]. *)
Lemma malloc_round fuel nu prevp p s :
  malloc_loop sbrk (S fuel) nu prevp p s =
  if nu <=? hsize (um s) p then malloc_take nu prevp p (hsize (um s) p) s
  else if p =? freep s then malloc_more fuel nu s
  else malloc_loop sbrk fuel nu p (hptr (um s) p) s.
Proof.
  cbn [malloc_loop]. unfold get_size at 1. rewrite bind_gets. destruct (nu <=? _); [done|].
  rewrite bind_gets. by destruct (p =? freep s).
Qed.

(** The loop along blocks that do not include [freep]: it takes the first that
    is large enough, or comes to the end. *)
Lemma malloc_along nu l : ∀ fuel x e s, links (um s) x l e → freep s ∉ l.*1 →
  (∃ g1 r g2, l = g1 ++ r :: g2 ∧ nu ≤ r.2 ∧
     malloc_loop sbrk (length l + fuel) nu x (head_addr l e) s = malloc_take nu (last_addr x g1) (r.1) (r.2) s) ∨
  (Forall (λ r : region, r.2 < nu) l ∧
     malloc_loop sbrk (length l + fuel) nu x (head_addr l e) s = malloc_loop sbrk fuel nu (last_addr x l) e s).
Proof.
  induction l as [|r l IH]; intros fuel x e s Hl Hf; [right; split; [constructor|done]|].
  cbn [links length head_addr last_addr] in *. destruct Hl as (H1 & H2 & H3). rewrite Nat.add_succ_l, malloc_round, H2.
  cbn [fmap list_fmap] in Hf. apply not_elem_of_cons in Hf as [Hfr Hf].
  destruct (Z.leb_spec nu (r.2)) as [Hfit|Hno]; [left; by exists [], r, l|].
  destruct (Z.eqb_spec (r.1) (freep s)); [done|]. destruct (links_next _ _ _ _ H3) as [-> _].
  destruct (IH fuel (r.1) e s H3 Hf) as [(g1 & r' & g2 & -> & Hr' & ->)|[Hall ->]].
  - left. exists (r :: g1), r', g2. done.
  - right. split; [by constructor|done].
Qed.

Lemma chain_nodup lo l top r g1 g2 : chain lo l top → l = g1 ++ r :: g2 → (r.1 ∉ g1.*1) ∧ (r.1 ∉ g2.*1).
Proof.
  intros Hc ->. apply chain_app in Hc as (H1 & H2 & H3). split; intros Hin.
  - apply (chain_addr _ _ _ _ H1) in Hin. lia.
  - apply (chain_addr _ _ _ _ H3) in Hin. unfold rend in Hin. lia.
Qed.

(** All around the list. *)
Lemma malloc_scan s fl ul nu k : heap s fl ul → 1 ≤ nu →
  (∃ g1 r g2, fl = g1 ++ r :: g2 ∧ nu ≤ r.2 ∧
     malloc_loop sbrk (S (length fl) + k) nu (freep s) (hptr (um s) (freep s)) s =
     malloc_take nu (last_addr base g1) (r.1) (r.2) s) ∨
  (Forall (λ r : region, r.2 < nu) fl ∧
     malloc_loop sbrk (S (length fl) + k) nu (freep s) (hptr (um s) (freep s)) s = malloc_more k nu s).
Proof.
  intros [Hb0 _ Hl Hbs Hc Hfp _ _] Hnu. apply elem_of_cons in Hfp as [Hfb|(f & Hff & Hfin)%list_elem_of_fmap].
  - assert (Hnf : freep s ∉ fl.*1).
    { rewrite Hfb. intros Hin. apply (chain_addr _ _ _ _ Hc) in Hin. lia. }
    rewrite Hfb. assert (Hh : hptr (um s) base = head_addr fl base) by (destruct fl; cbn in Hl |- *; tauto).
    replace (S (length fl) + k)%nat with (length fl + S k)%nat by lia. rewrite Hh.
    destruct (malloc_along nu fl (S k) base base s Hl Hnf) as [(g1 & r & g2 & -> & Hr & ->)|[Hall ->]].
    + left. by exists g1, r, g2.
    + right. split; [done|]. rewrite malloc_round, Hbs. destruct (Z.leb_spec nu 0); [lia|].
      by rewrite Hfb, Z.eqb_refl.
  - apply list_elem_of_split in Hfin as (A & B & ->). pose proof Hl as Hl0.
    apply links_app in Hl as (HlA & Hfs & HlB). destruct (chain_nodup _ _ _ f A B Hc eq_refl) as [HnA HnB].
    assert (Hfne : base ≠ f.1).
    { assert (Hin : f.1 ∈ (A ++ f :: B).*1) by (rewrite fmap_app; set_solver). apply (chain_addr _ _ _ _ Hc) in Hin. lia. }
    rewrite <-Hff in HnA, HnB. rewrite Hff. destruct (links_next _ _ _ _ HlB) as [-> _].
    rewrite length_app. cbn [length].
    replace (S (length A + S (length B)) + k)%nat with (length B + S (length A + S k))%nat by lia.
    destruct (malloc_along nu B (S (length A + S k)) (f.1) base s HlB HnB) as [(g1 & r & g2 & -> & Hr & ->)|[HallB ->]].
    { left. exists (A ++ f :: g1), r, g2. rewrite last_addr_app. by rewrite <-app_assoc. }
    rewrite malloc_round, Hbs. destruct (Z.leb_spec nu 0); [lia|]. destruct (Z.eqb_spec base (freep s)); [congruence|].
    assert (Hh : hptr (um s) base = head_addr A (f.1)) by (destruct A; cbn in HlA |- *; tauto). rewrite Hh.
    destruct (malloc_along nu A (S k) base (f.1) s HlA HnA) as [(g1 & r & g2 & -> & Hr & ->)|[HallA ->]].
    { left. exists g1, r, (g2 ++ f :: B). by rewrite <-app_assoc. }
    rewrite malloc_round, Hfs. destruct (Z.leb_spec nu (f.2)) as [Hfit|Hno]; [left; by exists A, f, B|].
    rewrite Hff, Z.eqb_refl. right. split; [|done]. apply Forall_app. split; [done|by constructor].
Qed.

(** *** More memory *)

(** [sbrk(n)] refuses and changes nothing, or it returns the old end of the
    memory, moves the end up by [n] and leaves what is below as it is. *)
Definition sbrk_grows : Prop := ∀ n s, 0 ≤ n →
  sbrk n s = Ok 4294967295 s ∨
  ∃ m', sbrk n s = Ok (brk s) (Umst m' (freep s) (brk s + n)) ∧ brk s + n ≤ 2147483648 ∧
        ∀ x, x < brk s → ld8 m' x = ld8 (um s) x.

(** The heap does not depend on the memory above its end. *)
Lemma heap_grow s fl ul m' top : heap s fl ul → brk s ≤ top ≤ 2147483648 → (∀ x, x < brk s → ld8 m' x = ld8 (um s) x) →
  heap (Umst m' (freep s) top) fl ul.
Proof.
  intros [Hb0 Hb Hl Hbs Hc Hfp Hu Ha] Htop Hm.
  assert (Hptr : ∀ a, a + 8 ≤ brk s → hptr m' a = hptr (um s) a ∧ hsize m' a = hsize (um s) a).
  { intros a Ha8. split; apply ld32_ext; intros; apply Hm; lia. }
  split; try done; cbn [um brk freep].
  - lia.
  - apply (links_frame (um s)); [| |done]; intros a Hin.
    + apply Hptr. apply elem_of_cons in Hin as [->|Hin]; [lia|]. by apply (chain_addr _ _ _ _ Hc).
    + apply Hptr. by apply (chain_addr _ _ _ _ Hc).
  - by rewrite (proj2 (Hptr base ltac:(lia))).
  - apply (chain_weaken fl (base + 7) _ (brk s)); [lia|lia|done].
  - eapply Forall_impl; [exact Hu|]. intros r (H1 & H2 & H3 & H4 & H5). unfold used_ok. cbn [um brk]. unfold rend in *.
    split_and!; [done..|lia| |done]. by rewrite (proj2 (Hptr (r.1) ltac:(lia))).
Qed.

(** A new block at the end of the memory. *)
Lemma heap_add_top s fl ul p n : heap s fl ul → base + 8 ≤ p → 1 ≤ n → p + 8 * n ≤ brk s → hsize (um s) p = n →
  chain (base + 7) fl p → Forall (λ r : region, rend r ≤ p) ul → heap s fl ((p, n) :: ul).
Proof.
  intros [Hb0 Hb Hl Hbs Hc Hfp Hu Ha] Hp Hn Hend Hs Hcp Hup. split; try done.
  - constructor; [|done]. unfold used_ok, rend. cbn [fst snd]. split_and!; try done. rewrite Forall_forall. intros r Hr.
    destruct (chain_in _ _ _ _ Hcp Hr) as (? & ? & ?). right. done.
  - cbn [apart]. split; [|done]. eapply Forall_impl; [exact Hup|]. intros r Hr. by right.
Qed.

Lemma chain_gap l : ∀ lo top r, chain lo l top → r ∈ l → ¬ covered l (rend r).
Proof.
  induction l as [|r' l IH]; intros lo top r Hc Hr (r0 & Hr0 & Hx); [by apply not_elem_of_nil in Hr|].
  cbn [chain] in Hc. destruct Hc as (H1 & H2 & Hc). apply elem_of_cons in Hr as [->|Hr], Hr0 as [->|Hr0].
  - lia.
  - apply (chain_in _ _ _ _ Hc) in Hr0. lia.
  - apply (chain_in _ _ _ _ Hc) in Hr. unfold rend in *. lia.
  - apply (IH _ _ r Hc Hr). by exists r0.
Qed.

(** A run of free bytes lies in one block. *)
Lemma chain_run lo l top p n : chain lo l top → 1 ≤ n → (∀ x, p ≤ x < p + 8 * n → covered l x) → ∃ r, r ∈ l ∧ n ≤ r.2.
Proof.
  intros Hc Hn Hcov. destruct (Hcov p) as (r & Hr & Hx); [lia|]. exists r. split; [done|].
  destruct (decide (rend r < p + 8 * n)) as [Hlt|]; [|unfold rend in *; lia]. exfalso.
  apply (chain_gap _ _ _ _ Hc Hr), Hcov. lia.
Qed.

Lemma morecore_ok s fl ul nu fuel : sbrk_grows → heap s fl ul → 1 ≤ nu → nu * 8 < 2147483648 → (length fl + 2 ≤ fuel)%nat →
  (morecore sbrk fuel nu s = Ok 0 s) ∨
  ∃ s' fl', morecore sbrk fuel nu s = Ok (freep s') s' ∧ heap s' fl' ul ∧ same_data (um s) (um s') ul ∧
    (length fl' ≤ S (length fl))%nat ∧ ∃ r, r ∈ fl' ∧ nu ≤ r.2.
Proof.
  intros Hsb Hh Hnu Hnu8 Hfuel. unfold morecore, sizeof_header.
  set (n := if nu <? 4096 then 4096 else nu).
  assert (Hn : nu ≤ n ∧ 1 ≤ n ∧ n * 8 < 2147483648) by (unfold n; destruct (Z.ltb_spec nu 4096); lia). clearbody n.
  rewrite s32_small by lia. pose proof Hh as [Hb0 [Hb1 Hb2] _ _ Hc _ Hu _].
  destruct (Hsb (n * 8) s) as [E|(m' & E & Htop & Hm')]; [lia|..]; rewrite (bind_ok _ _ _ _ _ E); [by left|].
  destruct (Z.eqb_spec (brk s) 4294967295); [lia|]. right. unfold put_size. rewrite bind_modify. cbn [um set_um freep brk].
  set (p := brk s) in *. set (m2 := st32 m' (p + 4) n).
  assert (Hm2 : ∀ x, x < p → ld8 m2 x = ld8 (um s) x).
  { intros x Hx. unfold m2. rewrite ld8_st32_ne by lia. by apply Hm'. }
  assert (Hh2 : heap (Umst m2 (freep s) (p + n * 8)) fl ((p, n) :: ul)).
  { apply heap_add_top; try done; cbn [um brk]; [|lia|lia| |].
    - by apply heap_grow; [|fold p; lia|].
    - unfold m2. by rewrite hsize_put_size, u32_small by lia.
    - eapply Forall_impl; [exact Hu|]. by intros r (_ & _ & ? & _). }
  destruct (free_ok _ _ _ _ _ fuel Hh2 Hfuel) as (s' & fl' & Hfree & Hh' & Hbrk & Hcov & Hdata & Hlen).
  rewrite (u32_small (p + 8)) by lia. rewrite (bind_ok _ _ _ _ _ Hfree).
  exists s', fl'. split_and!; [done|done| |done|].
  - intros r x Hr Hx. rewrite (Hdata r x Hr Hx). cbn [um]. apply Hm2. rewrite Forall_forall in Hu.
    destruct (Hu _ Hr) as (_ & _ & ? & _). unfold in_region in Hx. lia.
  - destruct (chain_run _ _ _ p n (hp_chain _ _ _ Hh')) as (r & Hr & Hr2); [lia| |exists r; split; [done|lia]].
    intros x Hx. apply Hcov. right. unfold in_region, rend. cbn [fst snd]. lia.
Qed.

(** *** [malloc] *)

(** The outcome of a request for [nu] units. *)
Definition malloc_result s fl ul nu (p : Z) s' : Prop :=
  (p = 0 ∧ heap s' fl ul ∨ ∃ fl', heap s' fl' ((p - 8, nu) :: ul)) ∧ same_data (um s) (um s') ul.

Lemma malloc_loop_ok s fl ul nu k : sbrk_grows → heap s fl ul → 1 ≤ nu → nu * 8 < 2147483648 →
  (length fl + 2 ≤ k)%nat →
  ∃ p s', malloc_loop sbrk (S (length fl) + k) nu (freep s) (hptr (um s) (freep s)) s = Ok p s' ∧
          malloc_result s fl ul nu p s'.
Proof.
  intros Hsb Hh Hnu Hnu8 Hk.
  assert (Htake : ∀ s1 fl1 r g1 g2, heap s1 fl1 ul → same_data (um s) (um s1) ul → fl1 = g1 ++ r :: g2 → nu ≤ r.2 →
    ∃ p s', malloc_take nu (last_addr base g1) (r.1) (r.2) s1 = Ok p s' ∧ malloc_result s fl ul nu p s').
  { intros s1 fl1 r g1 g2 Hh1 Hd1 -> Hr. destruct (take_ok s1 g1 r g2 ul nu Hh1) as (p & s' & fl' & -> & Hh' & Hd); [lia|].
    exists (p + 8), s'. split; [done|]. split.
    - right. exists fl'. by replace (p + 8 - 8) with p by lia.
    - intros r' x Hr' Hx. by rewrite (Hd r' x), (Hd1 r' x). }
  destruct (malloc_scan s fl ul nu k Hh Hnu) as [(g1 & r & g2 & Hfl & Hr & ->)|[_ ->]].
  { by eapply Htake. }
  unfold malloc_more. destruct (morecore_ok s fl ul nu (S k) Hsb Hh Hnu Hnu8) as [E|(s1 & fl1 & E & Hh1 & Hd1 & Hlen & r & Hr & Hrn)]; [lia|..];
    rewrite (bind_ok _ _ _ _ _ E).
  { exists 0, s. split; [done|]. split; [by left|done]. }
  assert (freep s1 ≠ 0).
  { pose proof Hh1 as [Hb0 _ _ _ Hc Hfp _ _]. apply elem_of_cons in Hfp as [->|Hin]; [lia|].
    apply (chain_addr _ _ _ _ Hc) in Hin. lia. }
  destruct (Z.eqb_spec (freep s1) 0); [done|]. unfold get_ptr. rewrite bind_gets.
  destruct (malloc_scan s1 fl1 ul nu (k - S (length fl1)) Hh1 Hnu) as [(g1 & r' & g2 & Hfl & Hr' & Hrun)|[Hall _]].
  - replace (S (length fl1) + (k - S (length fl1)))%nat with k in Hrun by lia. rewrite Hrun. by eapply Htake.
  - rewrite Forall_forall in Hall. specialize (Hall _ Hr). lia.
Qed.

End malloc.

End heap.

(** The program before its first [malloc]. *)
Definition unused_heap (base : Z) (s : umst) : Prop :=
  freep s = 0 ∧ 0 < base ∧ base + 8 ≤ brk s ≤ 2147483648.

Lemma first_malloc base sbrk fuel nbytes s : unused_heap base s →
  ∃ s1, heap base s1 [] [] ∧ freep s1 = base ∧
    malloc base sbrk fuel nbytes s = malloc_loop sbrk fuel (units nbytes) (freep s1) (hptr (um s1) (freep s1)) s1.
Proof.
  intros (Hf & Hb & Hbrk). set (m := st32 (st32 (um s) base base) (base + 4) 0).
  assert (Hp : hptr m base = base).
  { unfold m. rewrite hptr_put_size, hptr_put_ptr. apply u32_small. lia. }
  exists (Umst m base (brk s)). split_and!; [|done|].
  - split; try done; cbn; [unfold m; by rewrite hsize_put_size|lia|by left].
  - unfold malloc. rewrite bind_gets, Hf. by rewrite Z.eqb_refl.
Qed.


(** A process of 16 KB that can grow. *)
Definition demo_sbrk (n : Z) : M umst Z := λ s,
  if brk s + n <=? 2147483648 then Ok (brk s) (Umst (um s) (freep s) (brk s + n)) else Ok 4294967295 s.

