(* ===== verification/Console.v ===== *)
(** The console: console.c

    The screen is the array of CGA cells and the cursor position that the
    controller's registers hold; the serial port is the list of bytes sent to
    it.  Keyboard input goes through a ring of 128 bytes with 32-bit indices.
    [consoleread] runs under the lock up to its return or its call of [sleep].
    [panicked] is not part of the state: a panic ends the run, so that it is 0
    wherever [consputc] tests it.

    The ring implements a line editor: [typed] is its abstract state, a queue of
    committed bytes and the line being edited. *)

From stdpp Require Import gmap list numbers strings.
From Stdlib Require Import ZArith Lia.
From S2P Require Import Prelude Memlayout Block Bio Log Fs Ulib.

(** ** Output *)

Definition BACKSPACE : Z := 0x100.

(** The cells of the screen and the cursor position: column + 80 * row. *)
Record cga := Cga { crt : list Z; cga_pos : Z }.

Definition cell (c : Z) : Z := Z.lor (Z.land c 255) 0x0700.

(** The cells after the scroll: 23 rows move up, the rest up to row 24 is
    cleared from [pos] on. *)
Definition scroll (l : list Z) (pos : Z) : list Z :=
  let l := take (23 * 80) (drop 80 l) ++ drop (23 * 80) l in
  take (Z.to_nat pos) l ++ replicate (Z.to_nat (24 * 80 - pos)) 0 ++ drop (24 * 80) l.

Definition cgaputc (c : Z) : M cga unit :=
  s <- get ;;
  let pos := cga_pos s in
  let '(l, pos) :=
    if c =? 10 then (crt s, pos + (80 - pos mod 80))
    else if c =? BACKSPACE then (crt s, if 0 <? pos then pos - 1 else pos)
    else (<[Z.to_nat pos := cell c]> (crt s), pos + 1) in
  if (pos <? 0) || (25 * 80 <? pos) then panic "pos under/overflow"
  else
    let '(l, pos) := if 24 <=? pos / 80 then (scroll l (pos - 80), pos - 80) else (l, pos) in
    put (Cga (<[Z.to_nat pos := cell 32]> l) pos).

(** ** Input *)

Definition INPUT_BUF : Z := 128.

Record input_st := Input {
  in_buf : list Z;
  in_r : Z;
  in_w : Z;
  in_e : Z
}.

(** The console: the ring, the screen, the serial output, and whether [wakeup]
    was called on the ring. *)
Record cons_st := Cons {
  c_input : input_st;
  c_screen : cga;
  c_uart : list Z;
  c_woken : bool
}.

Definition upd_input (f : input_st → input_st) : M cons_st unit :=
  modify (λ s, Cons (f (c_input s)) (c_screen s) (c_uart s) (c_woken s)).
Definition uartputc (c : Z) : M cons_st unit :=
  modify (λ s, Cons (c_input s) (c_screen s) (c_uart s ++ [u8 c]) (c_woken s)).
Definition wake_readers : M cons_st unit :=
  modify (λ s, Cons (c_input s) (c_screen s) (c_uart s) true).

Definition consputc (c : Z) : M cons_st unit :=
  (if c =? BACKSPACE then uartputc 8 ;;; uartputc 32 ;;; uartputc 8 else uartputc c) ;;;
  zoom c_screen (λ x s, Cons (c_input s) x (c_uart s) (c_woken s)) (cgaputc c).

Fixpoint consputs (l : list Z) : M cons_st unit :=
  match l with
  | [] => ret tt
  | c :: l' => consputc c ;;; consputs l'
  end.

(** The digits of the kernel's [printint]. *)
Definition kdigits : list Z := chars "0123456789abcdef".

(** [cprintf]: the bytes it prints. *)
Fixpoint cformat (fmt : list Z) (argp : list parg) {struct fmt} : option (list Z) :=
  match fmt with
  | [] => Some []
  | c :: fmt1 =>
      if negb (c =? 37) then (λ r, c :: r) <$> cformat fmt1 argp
      else
        match fmt1 with
        | [] => Some []
        | c :: fmt2 =>
            if c =? 100 then
              match argp with
              | AInt x :: argp' => d ← printint kdigits (s32 x) 10 true; app d <$> cformat fmt2 argp'
              | _ => None
              end
            else if (c =? 120) || (c =? 112) then
              match argp with
              | AInt x :: argp' => d ← printint kdigits (s32 x) 16 false; app d <$> cformat fmt2 argp'
              | _ => None
              end
            else if c =? 115 then
              match argp with
              | AStr s :: argp' => app (default (chars "(null)") s) <$> cformat fmt2 argp'
              | _ => None
              end
            else if c =? 37 then (λ r, 37 :: r) <$> cformat fmt2 argp
            else (λ r, 37 :: c :: r) <$> cformat fmt2 argp
        end
  end.

Definition cprintf (fmt : list Z) (argp : list parg) : M cons_st unit :=
  o <- deref (cformat fmt argp) ;; consputs o.

(** [input.buf[i % INPUT_BUF]] *)
Definition slot (i : Z) : nat := Z.to_nat (i mod INPUT_BUF).
Definition in_at (x : input_st) (i : Z) : Z := default 0 (in_buf x !! slot i).
Definition set_e (e : Z) (x : input_st) : input_st := Input (in_buf x) (in_r x) (in_w x) e.
Definition set_w (w : Z) (x : input_st) : input_st := Input (in_buf x) (in_r x) w (in_e x).
Definition set_r (r : Z) (x : input_st) : input_st := Input (in_buf x) r (in_w x) (in_e x).

(** The characters with a meaning: ^D, ^H, ^P, ^U and delete. *)
Definition ctl_D : Z := 4.
Definition ctl_H : Z := 8.
Definition ctl_P : Z := 16.
Definition ctl_U : Z := 21.
Definition DEL : Z := 127.

(** The loop of ^U; the ring bounds its rounds. *)
Fixpoint kill_line (fuel : nat) : M cons_st unit :=
  x <- gets c_input ;;
  if negb (in_e x =? in_w x) && negb (in_at x (u32 (in_e x - 1)) =? 10) then
    match fuel with
    | O => fail NoFuel
    | S fuel' => upd_input (set_e (u32 (in_e x - 1))) ;;; consputc BACKSPACE ;;; kill_line fuel'
    end
  else ret tt.

(** [consoleintr] on one character; it returns whether ^P was typed. *)
Definition consoleintr_char (c : Z) : M cons_st bool :=
  x <- gets c_input ;;
  if c =? ctl_P then ret true
  else if c =? ctl_U then kill_line (Z.to_nat INPUT_BUF) ;;; ret false
  else if (c =? ctl_H) || (c =? DEL) then
    (if negb (in_e x =? in_w x) then upd_input (set_e (u32 (in_e x - 1))) ;;; consputc BACKSPACE else ret tt) ;;;
    ret false
  else
    (if negb (c =? 0) && (u32 (in_e x - in_r x) <? INPUT_BUF) then
       let c := if c =? 13 then 10 else c in
       upd_input (λ x, Input (<[slot (in_e x) := c]> (in_buf x)) (in_r x) (in_w x) (u32 (in_e x + 1))) ;;;
       consputc c ;;;
       x <- gets c_input ;;
       if (c =? 10) || (c =? ctl_D) || (in_e x =? u32 (in_r x + INPUT_BUF)) then
         upd_input (set_w (in_e x)) ;;; wake_readers
       else ret tt
     else ret tt) ;;;
    ret false.

(** [consoleintr] with the characters that [getc] returns before -1; whether
    [procdump] is called. *)
Fixpoint consoleintr (cs : list Z) : M cons_st bool :=
  match cs with
  | [] => ret false
  | c :: cs' =>
      d <- consoleintr_char c ;;
      d' <- consoleintr cs' ;;
      ret (d || d')
  end.

(** A read that has returned, was killed, or sleeps with [n] bytes to go. *)
Inductive cread :=
| CDone (bs : list Z)
| CKilled
| CSleep (n : nat) (bs : list Z).

(** The loop of [consoleread] with [n] bytes to go and [acc] read. *)
Fixpoint consoleread_loop (killed : bool) (target n : nat) (acc : list Z) : M cons_st cread :=
  match n with
  | O => ret (CDone acc)
  | S n' =>
      x <- gets c_input ;;
      if in_r x =? in_w x then ret (if killed then CKilled else CSleep n acc)
      else
        let c := in_at x (in_r x) in
        upd_input (set_r (u32 (in_r x + 1))) ;;;
        if c =? ctl_D then
          (if bool_decide (n < target)%nat then upd_input (set_r (in_r x)) else ret tt) ;;;
          ret (CDone acc)
        else if c =? 10 then ret (CDone (acc ++ [c]))
        else consoleread_loop killed target n' (acc ++ [c])
  end.

(** The device's functions, beside the file system: the inode is unlocked while
    they run. *)
Section device.
Variable me : Z.
Abbreviation st := (fst_st * cons_st)%type.

Definition dev_fs {A} (m : M fst_st A) : M st A := zoom fst (λ f s, (f, s.2)) m.
Definition dev_cons {A} (m : M cons_st A) : M st A := zoom snd (λ c s, (s.1, c)) m.

Definition consoleread (killed : bool) (ip : nat) (n : Z) : M st (Z * list Z) :=
  dev_fs (iunlock me ip) ;;;
  r <- dev_cons (consoleread_loop killed (Z.to_nat n) (Z.to_nat n) []) ;;
  match r with
  | CDone bs => dev_fs (ilock me ip) ;;; ret (Z.of_nat (length bs), bs)
  | CKilled => dev_fs (ilock me ip) ;;; ret (-1, [])
  | CSleep _ _ => fail (Blocked "consoleread")
  end.

Definition consolewrite (ip : nat) (buf : list Z) : M st Z :=
  dev_fs (iunlock me ip) ;;;
  dev_cons (consputs ((λ c, Z.land c 255) <$> buf)) ;;;
  dev_fs (ilock me ip) ;;;
  ret (Z.of_nat (length buf)).

End device.

(** ** The screen *)

(** The cursor is above the last row, and the cells are there. *)
Definition cga_ok (s : cga) : Prop := 0 ≤ cga_pos s < 24 * 80 ∧ (25 * 80 ≤ length (crt s))%nat.

Lemma length_scroll l pos : (25 * 80 ≤ length l)%nat → 0 ≤ pos ≤ 24 * 80 → length (scroll l pos) = length l.
Proof.
  intros Hl Hp. unfold scroll. rewrite !length_app, length_replicate, !length_take, !length_drop, !length_app, !length_take, !length_drop. lia.
Qed.

(** Every character, a newline on the last row included, leaves the cursor on
    the screen. *)
Lemma cgaputc_ok c s : cga_ok s → ∃ s', cgaputc c s = Ok tt s' ∧ cga_ok s'.
Proof.
  intros [Hp Hl]. unfold cgaputc, get, bind.
  set (lp := if c =? 10 then _ else _).
  assert (Hlp : 0 ≤ lp.2 ≤ 24 * 80 ∧ length (lp.1) = length (crt s)).
  { unfold lp. destruct (c =? 10); cbn [fst snd]; [split; [zlia|done]|].
    destruct (c =? BACKSPACE); cbn [fst snd]; [destruct (Z.ltb_spec 0 (cga_pos s)); split; (lia || done)|].
    rewrite length_insert. split; [lia|done]. }
  destruct lp as [l pos]. cbn [fst snd] in Hlp. destruct Hlp as [Hpos Hlen].
  destruct (Z.ltb_spec pos 0); [lia|]. destruct (Z.ltb_spec (25 * 80) pos); [lia|]. cbn [orb].
  destruct (Z.leb_spec 24 (pos / 80)); eexists; (split; [done|]); split; cbn [cga_pos crt].
  - zlia.
  - rewrite length_insert, length_scroll; [lia|lia|zlia].
  - zlia.
  - rewrite length_insert. lia.
Qed.

Lemma consputc_ok c s : cga_ok (c_screen s) →
  ∃ s', consputc c s = Ok tt s' ∧ cga_ok (c_screen s') ∧ c_input s' = c_input s ∧ c_woken s' = c_woken s.
Proof.
  intros Hs. destruct (cgaputc_ok c (c_screen s) Hs) as (g & Hg & Hok).
  unfold consputc, uartputc, zoom, bind, modify. destruct (c =? BACKSPACE); cbn [c_screen c_input c_uart c_woken]; rewrite Hg; eexists; (split; [done|]); done.
Qed.

(** ** The ring *)

(** The bytes in the ring, and the committed ones and the line among them. *)
Definition ring_len (x : input_st) : Z := u32 (in_e x - in_r x).
Definition ring (x : input_st) : list Z := (λ k, in_at x (in_r x + Z.of_nat k)) <$> seq 0 (Z.to_nat (ring_len x)).
Definition committed_len (x : input_st) : nat := Z.to_nat (u32 (in_w x - in_r x)).

Record typed := Typed { committed : list Z; editing : list Z }.
Definition typed_of (x : input_st) : typed := Typed (take (committed_len x) (ring x)) (drop (committed_len x) (ring x)).

Record input_ok (x : input_st) : Prop := {
  ik_buf : length (in_buf x) = 128%nat;
  ik_r : 0 ≤ in_r x < 4294967296;
  ik_w : 0 ≤ in_w x < 4294967296;
  ik_e : 0 ≤ in_e x < 4294967296;
  ik_order : u32 (in_w x - in_r x) ≤ ring_len x ≤ INPUT_BUF;
  ik_line : 10 ∉ editing (typed_of x)
}.

(** The line editor: what a character does. *)
Definition type_char (c : Z) (t : typed) : typed :=
  let full := bool_decide (128 ≤ length (committed t ++ editing t))%nat in
  if c =? ctl_P then t
  else if c =? ctl_U then Typed (committed t) []
  else if (c =? ctl_H) || (c =? DEL) then Typed (committed t) (take (length (editing t) - 1) (editing t))
  else if (c =? 0) || full then t
  else
    let c := if c =? 13 then 10 else c in
    let line := editing t ++ [c] in
    if (c =? 10) || (c =? ctl_D) || bool_decide (length (committed t ++ line) = 128%nat)
    then Typed (committed t ++ line) []
    else Typed (committed t) line.

(** What a read of [n] bytes takes from the committed ones. *)
Fixpoint read_line (killed : bool) (target n : nat) (acc : list Z) (q : list Z) : cread * list Z :=
  match n with
  | O => (CDone acc, q)
  | S n' =>
      match q with
      | [] => (if killed then CKilled else CSleep n acc, [])
      | c :: q' =>
          if c =? ctl_D then (CDone acc, if bool_decide (n < target)%nat then q else q')
          else if c =? 10 then (CDone (acc ++ [c]), q')
          else read_line killed target n' (acc ++ [c]) q'
      end
  end.

Section ring_lemmas.
Implicit Types (x : input_st).

Lemma ring_slot_u32 i k : slot (u32 i + k) = slot (i + k).
Proof. unfold slot, INPUT_BUF. f_equal. zlia. Qed.

Lemma in_at_u32 x i k : in_at x (u32 i + k) = in_at x (i + k).
Proof. unfold in_at. by rewrite ring_slot_u32. Qed.

Lemma length_ring x : length (ring x) = Z.to_nat (ring_len x).
Proof. unfold ring. by rewrite length_fmap, length_seq. Qed.

Lemma ring_lookup x k : (k < Z.to_nat (ring_len x))%nat → ring x !! k = Some (in_at x (in_r x + Z.of_nat k)).
Proof. intros Hk. unfold ring. by rewrite list_lookup_fmap, lookup_seq_lt. Qed.

(** A longer or shorter ring over the same bytes. *)
Lemma ring_take x x' : in_buf x' = in_buf x → in_r x' = in_r x → ring_len x' ≤ ring_len x →
  ring x' = take (Z.to_nat (ring_len x')) (ring x).
Proof.
  intros Hb Hr Hl. apply list_eq. intros k. destruct (decide (k < Z.to_nat (ring_len x'))%nat) as [Hk|Hk].
  - rewrite ring_lookup, lookup_take_lt, ring_lookup by lia. unfold in_at. by rewrite Hb, Hr.
  - rewrite !lookup_ge_None_2; [done|rewrite length_take; lia|rewrite length_ring; lia].
Qed.

Lemma ring_push x c : length (in_buf x) = 128%nat → 0 ≤ ring_len x < INPUT_BUF → 0 ≤ in_r x < 4294967296 →
  let x' := Input (<[slot (in_e x) := c]> (in_buf x)) (in_r x) (in_w x) (u32 (in_e x + 1)) in
  ring_len x' = ring_len x + 1 ∧ ring x' = ring x ++ [c].
Proof.
  intros Hb Hl Hr x'. assert (Hlen : ring_len x' = ring_len x + 1).
  { unfold ring_len, x', INPUT_BUF in *. cbn [in_e in_r]. zlia. }
  split; [done|]. assert (He : slot (in_e x) = slot (in_r x + ring_len x)).
  { unfold slot, ring_len, INPUT_BUF. f_equal. zlia. }
  apply list_eq. intros k. destruct (decide (k < Z.to_nat (ring_len x))%nat) as [Hk|Hk].
  - rewrite lookup_app_l by (rewrite length_ring; lia). rewrite !ring_lookup by lia. unfold in_at, x'. cbn [in_buf in_r].
    rewrite list_lookup_insert_ne; [done|]. rewrite He. unfold slot, INPUT_BUF in *. zlia.
  - rewrite lookup_app_r by (rewrite length_ring; lia). rewrite length_ring.
    destruct (decide (k = Z.to_nat (ring_len x))) as [->|Hne].
    + rewrite Nat.sub_diag, ring_lookup by lia. cbn [lookup]. unfold in_at, x'. cbn [in_buf in_r].
      rewrite Z2Nat.id by lia. rewrite He, list_lookup_insert_eq; [done|]. rewrite Hb. unfold slot, INPUT_BUF. zlia.
    + rewrite !lookup_ge_None_2; [done|cbn; lia|rewrite length_ring; lia].
Qed.

Lemma ring_pop x : 0 < ring_len x → 0 ≤ in_r x < 4294967296 → 0 ≤ in_e x < 4294967296 →
  let x' := set_r (u32 (in_r x + 1)) x in
  ring_len x' = ring_len x - 1 ∧ ring x = in_at x (in_r x) :: ring x'.
Proof.
  intros Hl Hr He x'. assert (Hlen : ring_len x' = ring_len x - 1).
  { unfold ring_len, x' in *. cbn [set_r in_e in_r]. zlia. }
  split; [done|]. apply list_eq. intros [|k].
  - rewrite ring_lookup by lia. by rewrite Z.add_0_r.
  - change ((in_at x (in_r x) :: ring x') !! S k) with (ring x' !! k).
    destruct (decide (S k < Z.to_nat (ring_len x))%nat) as [Hk|Hk].
    + rewrite !ring_lookup by lia. f_equal. unfold x', set_r, in_at. cbn [in_buf in_r]. rewrite ring_slot_u32. do 3 f_equal. lia.
    + rewrite !lookup_ge_None_2; [done|rewrite length_ring; lia|rewrite length_ring; lia].
Qed.

End ring_lemmas.

Definition console_ok (s : cons_st) : Prop := input_ok (c_input s) ∧ cga_ok (c_screen s).

Section editor.
Implicit Types (x : input_st) (s : cons_st).

Lemma length_editing x : input_ok x → length (editing (typed_of x)) = (Z.to_nat (ring_len x) - committed_len x)%nat.
Proof. intros _. cbn. by rewrite length_drop, length_ring. Qed.

Lemma length_committed x : input_ok x → length (committed (typed_of x)) = committed_len x.
Proof. intros [_ _ _ _ Ho _]. cbn. rewrite length_take, length_ring. unfold committed_len, ring_len in *. zlia. Qed.

Lemma typed_all x : committed (typed_of x) ++ editing (typed_of x) = ring x.
Proof. cbn. apply take_drop. Qed.

Lemma no_line x : input_ok x → (in_e x =? in_w x) = bool_decide (editing (typed_of x) = []).
Proof.
  intros Hx. apply eq_true_iff_eq. rewrite Z.eqb_eq, bool_decide_eq_true, <-length_zero_iff_nil, length_editing by done.
  destruct Hx as [_ Hr Hw He Ho _]. unfold committed_len, ring_len in *. zlia.
Qed.

Lemma in_last x : input_ok x → editing (typed_of x) ≠ [] → in_at x (u32 (in_e x - 1)) ∈ editing (typed_of x).
Proof.
  intros Hx Hne. pose proof Hx as [_ Hr Hw He Ho _]. rewrite <-length_zero_iff_nil, length_editing in Hne by done.
  apply (list_elem_of_lookup_2 _ (Z.to_nat (ring_len x) - 1 - committed_len x)%nat). cbn. rewrite lookup_drop, ring_lookup by lia.
  f_equal. unfold in_at, slot. do 2 f_equal. unfold committed_len, ring_len, INPUT_BUF in *. zlia.
Qed.

(** One byte less on the line. *)
Lemma backspace_ok x : input_ok x → editing (typed_of x) ≠ [] →
  let x' := set_e (u32 (in_e x - 1)) x in
  input_ok x' ∧ typed_of x' = Typed (committed (typed_of x)) (take (length (editing (typed_of x)) - 1) (editing (typed_of x))).
Proof.
  intros Hx Hne x'. pose proof Hne as Hlen. rewrite <-length_zero_iff_nil, length_editing in Hlen by done.
  pose proof Hx as [Hb Hr Hw He Ho Hline].
  assert (Hl : ring_len x' = ring_len x - 1).
  { unfold committed_len, ring_len, x' in *. cbn [set_e in_e in_r]. zlia. }
  assert (Hc : committed_len x' = committed_len x) by done.
  assert (Ht : typed_of x' = Typed (committed (typed_of x)) (take (length (editing (typed_of x)) - 1) (editing (typed_of x)))).
  { rewrite length_editing by done. unfold typed_of. cbn [committed editing]. rewrite Hc, (ring_take x x') by (done || lia).
    f_equal; [rewrite take_take; f_equal; lia|]. rewrite take_drop_commute. f_equal. f_equal. lia. }
  split; [|done]. split; try done.
  - cbn [x' set_e in_e]. apply u32_range.
  - rewrite Hl. change (in_w x') with (in_w x). change (in_r x') with (in_r x).
    unfold committed_len in Hlen. pose proof (u32_range (in_w x - in_r x)). lia.
  - rewrite Ht. cbn [editing]. intros (i & Hi & _)%elem_of_take. apply Hline. by eapply list_elem_of_lookup_2.
Qed.

(** Storing a new ring in the console and printing a character. *)
Lemma upd_consputc x f c s : c_input s = x → cga_ok (c_screen s) →
  ∃ s', (upd_input f ;;; consputc c) s = Ok tt s' ∧ c_input s' = f x ∧ cga_ok (c_screen s').
Proof.
  intros Hx Hg. unfold upd_input. rewrite bind_modify.
  destruct (consputc_ok c (Cons (f (c_input s)) (c_screen s) (c_uart s) (c_woken s)) Hg) as (s' & Hr & Hg' & Hi & _).
  exists s'. split_and!; [done|by rewrite Hi, <-Hx|done].
Qed.

Lemma kill_line_ok fuel : ∀ s, console_ok s → (length (editing (typed_of (c_input s))) ≤ fuel)%nat →
  ∃ s', kill_line fuel s = Ok tt s' ∧ console_ok s' ∧
        typed_of (c_input s') = Typed (committed (typed_of (c_input s))) [].
Proof.
  induction fuel as [|fuel IH]; intros s [Hx Hg] Hf; cbn [kill_line]; rewrite bind_gets, (no_line _ Hx).
  - destruct (editing (typed_of (c_input s))) as [|] eqn:E; [|cbn in Hf; lia].
    exists s. rewrite bool_decide_eq_true_2 by done. cbn [negb andb]. split_and!; [done|done|]. rewrite <-E. by destruct (typed_of (c_input s)).
  - destruct (decide (editing (typed_of (c_input s)) = [])) as [E|E].
    { rewrite bool_decide_eq_true_2 by done. cbn [negb andb]. exists s. split_and!; [done|done|].
      rewrite <-E. by destruct (typed_of (c_input s)). }
    rewrite bool_decide_eq_false_2 by done. pose proof (in_last _ Hx E) as Hin.
    destruct (Z.eqb_spec (in_at (c_input s) (u32 (in_e (c_input s) - 1))) 10) as [E10|_].
    { rewrite E10 in Hin. by destruct (ik_line _ Hx). }
    cbn [negb andb]. rewrite <-bind_assoc.
    destruct (upd_consputc (c_input s) (set_e (u32 (in_e (c_input s) - 1))) BACKSPACE s eq_refl Hg) as (s1 & Hr & Hi & Hg1).
    rewrite (bind_ok _ _ _ _ _ Hr). destruct (backspace_ok _ Hx E) as [Hx1 Ht1]. rewrite <-Hi in Hx1, Ht1.
    destruct (IH s1) as (s' & Hr' & Hok' & Ht'); [done| |].
    { rewrite Ht1. cbn [editing]. rewrite length_take. lia. }
    exists s'. split_and!; [done|done|]. by rewrite Ht', Ht1.
Qed.

(** A character at the end of the line. *)
Lemma push_ok x c : input_ok x → ring_len x < INPUT_BUF →
  let x' := Input (<[slot (in_e x) := c]> (in_buf x)) (in_r x) (in_w x) (u32 (in_e x + 1)) in
  typed_of x' = Typed (committed (typed_of x)) (editing (typed_of x) ++ [c]) ∧ ring_len x' = ring_len x + 1 ∧
  (c ≠ 10 → input_ok x') ∧ input_ok (set_w (in_e x') x') ∧
  typed_of (set_w (in_e x') x') = Typed (committed (typed_of x) ++ editing (typed_of x) ++ [c]) [].
Proof.
  intros Hx Hlt x'. pose proof Hx as [Hb Hr Hw He Ho Hline]. pose proof (u32_range (in_e x - in_r x)) as Hrl. fold (ring_len x) in Hrl.
  destruct (ring_push x c Hb) as [Hl' Hq]; [lia|done|]. fold x' in Hl', Hq.
  assert (Hc : (committed_len x ≤ length (ring x))%nat) by (rewrite length_ring; unfold committed_len; lia).
  assert (Ht : typed_of x' = Typed (committed (typed_of x)) (editing (typed_of x) ++ [c])).
  { unfold typed_of. cbn [committed editing]. rewrite Hq. change (committed_len x') with (committed_len x).
    by rewrite take_app_le, drop_app_le by done. }
  assert (Hw' : ring_len (set_w (in_e x') x') = ring_len x').
  { done. }
  assert (Htw : typed_of (set_w (in_e x') x') = Typed (committed (typed_of x) ++ editing (typed_of x) ++ [c]) []).
  { rewrite app_assoc, typed_all. unfold typed_of. change (ring (set_w (in_e x') x')) with (ring x').
    change (committed_len (set_w (in_e x') x')) with (Z.to_nat (ring_len x')). rewrite <-length_ring.
    by rewrite take_ge, drop_ge, Hq by done. }
  split_and!; [done|done| | |done].
  - intros Hne. split; try done; cbn [x' in_buf in_r in_w in_e]; [by rewrite length_insert|apply u32_range| |].
    + change (u32 (in_w x - in_r x) ≤ ring_len x' ≤ INPUT_BUF). lia.
    + change (10 ∉ editing (typed_of x')). rewrite Ht. cbn [editing].
      rewrite elem_of_app, list_elem_of_singleton. naive_solver.
  - split; try done; cbn [x' set_w in_buf in_r in_w in_e]; [by rewrite length_insert|apply u32_range|apply u32_range| |].
    + change (ring_len x' ≤ ring_len x' ≤ INPUT_BUF). lia.
    + change (10 ∉ editing (typed_of (set_w (in_e x') x'))). rewrite Htw. apply not_elem_of_nil.
Qed.

(** The line editor. *)
Lemma consoleintr_char_ok c s : console_ok s →
  ∃ s', consoleintr_char c s = Ok (c =? ctl_P) s' ∧ console_ok s' ∧
        typed_of (c_input s') = type_char c (typed_of (c_input s)).
Proof.
  intros [Hx Hg]. unfold consoleintr_char, type_char. rewrite bind_gets.
  set (x := c_input s) in *. assert (Hs : c_input s = x) by done. clearbody x.
  destruct (Z.eqb_spec c ctl_P); [exists s; rewrite Hs; by split_and!; [|split; [rewrite Hs|]|]|].
  destruct (Z.eqb_spec c ctl_U).
  { destruct (kill_line_ok (Z.to_nat INPUT_BUF) s) as (s' & Hr & Hok & Ht); [split; [by rewrite Hs|done]| |].
    - rewrite Hs, length_editing by done. destruct Hx as [_ _ _ _ Ho _]. lia.
    - rewrite (bind_ok _ _ _ _ _ Hr). exists s'. rewrite Hs in Ht. split; [done|]. by split. }
  destruct ((c =? ctl_H) || (c =? DEL)).
  { rewrite (no_line _ Hx). destruct (decide (editing (typed_of x) = [])) as [E|E].
    - rewrite bool_decide_eq_true_2 by done. cbn [negb]. exists s. rewrite Hs, E, take_nil.
      split_and!; [done|split; [by rewrite Hs|done]|]. rewrite <-E. by destruct (typed_of x).
    - rewrite bool_decide_eq_false_2 by done. cbn [negb].
      destruct (upd_consputc x (set_e (u32 (in_e x - 1))) BACKSPACE s Hs Hg) as (s1 & Hr & Hi & Hg1).
      rewrite (bind_ok _ _ _ _ _ Hr). destruct (backspace_ok _ Hx E) as [Hx1 Ht1]. exists s1.
      rewrite Hi. split_and!; [done|split; [by rewrite Hi|done]|done]. }
  pose proof Hx as [Hb _ _ _ Ho _]. pose proof (u32_range (in_e x - in_r x)) as Hrl. fold (ring_len x) in Hrl.
  rewrite typed_all, length_ring. fold (ring_len x).
  destruct (Z.eqb_spec c 0); cbn [negb andb orb].
  { exists s. rewrite Hs. split_and!; [done|split; [by rewrite Hs|done]|done]. }
  destruct (Z.ltb_spec (ring_len x) INPUT_BUF) as [Hlt|Hge].
  2:{ rewrite bool_decide_eq_true_2 by (unfold INPUT_BUF in *; lia). exists s. rewrite Hs.
      split_and!; [done|split; [by rewrite Hs|done]|done]. }
  rewrite bool_decide_eq_false_2 by (unfold INPUT_BUF in *; lia). set (d := if c =? 13 then 10 else c). clearbody d.
  set (f := λ x, Input (<[slot (in_e x) := d]> (in_buf x)) (in_r x) (in_w x) (u32 (in_e x + 1))).
  destruct (upd_consputc x f d s Hs Hg) as (s1 & Hr & Hi & Hg1).
  destruct (push_ok x d Hx Hlt) as (Ht & Hl & Hok & Hokw & Htw). fold (f x) in Ht, Hl, Hok, Hokw, Htw. rewrite <-Hi in Ht, Hl, Hok, Hokw, Htw.
  assert (Hfull : (in_e (c_input s1) =? u32 (in_r (c_input s1) + INPUT_BUF)) =
                  bool_decide (length (committed (typed_of x) ++ editing (typed_of x) ++ [d]) = 128%nat)).
  { apply eq_true_iff_eq. rewrite Z.eqb_eq, bool_decide_eq_true, app_assoc, typed_all, length_app, length_ring. cbn [length].
    assert (0 ≤ in_e (c_input s1) < 4294967296) by (rewrite Hi; apply u32_range).
    unfold ring_len, INPUT_BUF in *. zlia. }
  set (K := x <- gets c_input ;;
            if (d =? 10) || (d =? ctl_D) || (in_e x =? u32 (in_r x + INPUT_BUF)) then
              upd_input (set_w (in_e x)) ;;; wake_readers
            else ret tt).
  assert (HK : (upd_input f ;;; consputc d ;;; K) s = K s1) by (rewrite <-bind_assoc; by rewrite (bind_ok _ _ _ _ _ Hr)).
  unfold K in HK at 2. rewrite bind_gets, Hfull in HK.
  destruct ((d =? 10) || (d =? ctl_D) || bool_decide _) eqn:Ecommit.
  - eexists. split; [by erewrite bind_ok by exact HK|]. cbn [c_input c_screen]. split_and!; [split; [exact Hokw|done]|].
    cbn [c_input]. by rewrite Htw.
  - exists s1. split; [by rewrite (bind_ok _ _ _ _ _ HK)|]. split; [split; [|done]|by rewrite Ht].
    apply Hok. apply orb_false_iff in Ecommit as [Ecommit _]. apply orb_false_iff in Ecommit as [E10%Z.eqb_neq _]. done.
Qed.

Lemma nothing_committed x : input_ok x → (in_r x =? in_w x) = bool_decide (committed (typed_of x) = []).
Proof.
  intros Hx. apply eq_true_iff_eq. rewrite Z.eqb_eq, bool_decide_eq_true, <-length_zero_iff_nil, length_committed by done.
  destruct Hx as [_ Hr Hw _ _ _]. unfold committed_len. zlia.
Qed.

Lemma pop_ok x c q : input_ok x → committed (typed_of x) = c :: q →
  let x' := set_r (u32 (in_r x + 1)) x in
  in_at x (in_r x) = c ∧ input_ok x' ∧ typed_of x' = Typed q (editing (typed_of x)).
Proof.
  intros Hx Hc x'. pose proof Hx as [Hb Hr Hw He Ho Hline]. pose proof (length_committed x Hx) as Hlen. rewrite Hc in Hlen. cbn [length] in Hlen.
  assert (Hpos : 0 < ring_len x) by (unfold committed_len in Hlen; lia).
  destruct (ring_pop x Hpos Hr He) as [Hl' Hq]. fold x' in Hl', Hq.
  assert (Hcl : committed_len x = S (committed_len x')).
  { unfold committed_len, x' in *. cbn [set_r in_w in_r]. zlia. }
  unfold typed_of in Hc. cbn [committed] in Hc. rewrite Hcl, Hq in Hc. cbn [take] in Hc. injection Hc as Hc Hq'.
  assert (Ht : typed_of x' = Typed q (editing (typed_of x))).
  { unfold typed_of at 1. cbn [typed_of editing]. rewrite Hq', Hcl, Hq. done. }
  split_and!; [done| |done]. split; try done; [apply u32_range| |by rewrite Ht].
  rewrite Hl'. unfold committed_len, x' in *. cbn [set_r in_w in_r] in *. pose proof (u32_range (in_w x - u32 (in_r x + 1))). zlia.
Qed.

Lemma consoleread_loop_ok killed target n : ∀ acc s, console_ok s →
  ∃ s', consoleread_loop killed target n acc s =
        Ok ((read_line killed target n acc (committed (typed_of (c_input s)))).1) s' ∧ console_ok s' ∧
        typed_of (c_input s') = Typed ((read_line killed target n acc (committed (typed_of (c_input s)))).2) (editing (typed_of (c_input s))).
Proof.
  induction n as [|n IH]; intros acc s [Hx Hg]; cbn [consoleread_loop read_line].
  { exists s. by destruct (typed_of (c_input s)). }
  rewrite bind_gets, (nothing_committed _ Hx).
  destruct (committed (typed_of (c_input s))) as [|c q] eqn:Ec.
  { rewrite bool_decide_eq_true_2 by done. exists s. cbn [fst snd]. rewrite <-Ec. by destruct (typed_of (c_input s)). }
  rewrite bool_decide_eq_false_2 by done. destruct (pop_ok _ _ _ Hx Ec) as (-> & Hx' & Ht'). unfold upd_input. rewrite bind_modify.
  set (s1 := Cons (set_r (u32 (in_r (c_input s) + 1)) (c_input s)) (c_screen s) (c_uart s) (c_woken s)).
  assert (Hs1 : console_ok s1) by (by split).
  destruct (c =? ctl_D).
  { cbn [fst snd]. destruct (bool_decide (S n < target)%nat).
    - eexists. split; [done|]. cbn [c_input]. assert (Heq : set_r (in_r (c_input s)) (set_r (u32 (in_r (c_input s) + 1)) (c_input s)) = c_input s).
      { by destruct (c_input s). }
      cbn [s1 c_input]. rewrite Heq. split; [by split; cbn [c_input]; rewrite ?Heq|]. rewrite <-Ec. by destruct (typed_of (c_input s)).
    - exists s1. split; [done|]. by split. }
  destruct (c =? 10); cbn [fst snd]; [exists s1; split; [done|]; by split|].
  destruct (IH (acc ++ [c]) s1 Hs1) as (s' & Hr & Hok & Ht). cbn [s1 c_input] in Hr, Ht. rewrite Ht' in Hr, Ht.
  cbn [committed editing] in Hr, Ht. by exists s'.
Qed.

Lemma consoleintr_ok cs : ∀ s, console_ok s →
  ∃ d s', consoleintr cs s = Ok d s' ∧ console_ok s' ∧
          typed_of (c_input s') = foldl (λ t c, type_char c t) (typed_of (c_input s)) cs.
Proof.
  induction cs as [|c cs IH]; intros s Hs; cbn [consoleintr foldl]; [by exists false, s|].
  destruct (consoleintr_char_ok c s Hs) as (s1 & Hr1 & Hs1 & Ht1). destruct (IH s1 Hs1) as (d & s' & Hr & Hs' & Ht).
  rewrite (bind_ok _ _ _ _ _ Hr1), (bind_ok _ _ _ _ _ Hr). eexists _, s'. split; [done|]. split; [done|]. by rewrite Ht, Ht1.
Qed.

End editor.

(** C38. The console's ring is a line editor.  Whatever is typed, the interrupt
    handler returns, keeps the cursor on the screen and does to the ring what
    the editor does to its committed bytes and its line: a character goes to the
    end of the line unless 128 bytes wait, backspace and ^U erase on the line
    only, a newline, ^D or a full ring commits.  A read takes committed bytes
    only, in order, up to a newline or ^D, and leaves a ^D that ends a read with
    data for the next one.  The 32-bit indices of the ring may wrap around. *)
Theorem console_line_editor (s : cons_st) : console_ok s →
  (∀ cs, ∃ d s', consoleintr cs s = Ok d s' ∧ console_ok s' ∧
     typed_of (c_input s') = foldl (λ t c, type_char c t) (typed_of (c_input s)) cs) ∧
  (∀ killed n, ∃ s', let r := read_line killed n n [] (committed (typed_of (c_input s))) in
     consoleread_loop killed n n [] s = Ok (r.1) s' ∧ console_ok s' ∧
     typed_of (c_input s') = Typed (r.2) (editing (typed_of (c_input s)))).
Proof.
  intros Hs. split; [intros cs; by apply consoleintr_ok|]. intros killed n. by apply consoleread_loop_ok.
Qed.

(** The console at boot, with the indices about to wrap. *)
Definition demo_console : cons_st :=
  Cons (Input (replicate 128 0) 4294967295 4294967295 4294967295) (Cga (replicate 2000 0) 0) [] false.

Lemma demo_console_ok : console_ok demo_console.
Proof.
  split.
  - split; [reflexivity| | | |vm_compute; split; congruence|vm_compute; apply not_elem_of_nil]; cbn; lia.
  - split; cbn [demo_console c_screen cga_pos crt]; [|rewrite length_replicate]; lia.
Qed.

(** "lx", delete, "s", return: the line "ls". *)
Lemma console_line_editor_witness :
  console_ok demo_console ∧
  ∃ d s', consoleintr [108; 120; 127; 115; 13] demo_console = Ok d s' ∧
    typed_of (c_input s') = Typed [108; 115; 10] [].
Proof.
  split; [exact demo_console_ok|].
  destruct (console_line_editor demo_console demo_console_ok) as [Hi _].
  destruct (Hi [108; 120; 127; 115; 13]) as (d & s' & Hr & _ & Ht). exists d, s'. split; [exact Hr|].
  rewrite Ht. vm_compute. reflexivity.
Defined.
