(* ===== verification/Debug.v ===== *)
(** Debugging output: [getcallerpcs] of spinlock.c, [procdump] of proc.c and
    [panic] of console.c

    [getcallerpcs] walks the chain of saved frame pointers in memory; the other
    two print what it finds on the console. *)

From stdpp Require Import gmap list numbers strings.
From Stdlib Require Import ZArith Lia.
From S2P Require Import Prelude Mem StringC Memlayout Kalloc Cpu ProcData Rbtree Proc Ulib Console.

(** ** [getcallerpcs] *)

(** The two loops over [pcs], [n] entries left. *)
Fixpoint getcallerpcs_loop (n : nat) (m : mem) (ebp : Z) : list Z :=
  match n with
  | O => []
  | S n' =>
      if (ebp =? 0) || (ebp <? KERNBASE) || (ebp =? 0xffffffff) then replicate n 0
      else ld32 m (u32 (ebp + 4)) :: getcallerpcs_loop n' m (ld32 m ebp)
  end.

(** [v] is the address of the first argument, two words above the saved [%ebp]. *)
Definition getcallerpcs (m : mem) (v : Z) : list Z := getcallerpcs_loop 10 m (u32 (v - 8)).

(** The return addresses of the frames from [ebp] on. *)
Inductive calls (m : mem) : Z → list Z → Prop :=
  | calls_end ebp : ebp < KERNBASE ∨ ebp = 0xffffffff → calls m ebp []
  | calls_frame ebp l : KERNBASE ≤ ebp < 0xffffffff → calls m (ld32 m ebp) l →
      calls m ebp (ld32 m (u32 (ebp + 4)) :: l).

Lemma getcallerpcs_loop_run m ebp l : calls m ebp l → ∀ n, getcallerpcs_loop n m ebp = take n (l ++ replicate n 0).
Proof.
  induction 1 as [ebp He|ebp l He _ IH]; intros [|n]; cbn [getcallerpcs_loop]; try done.
  - destruct (Z.ltb_spec ebp KERNBASE) as [Hlt|Hge]; rewrite ?orb_true_r; cbn [orb app].
    + by rewrite take_ge by (rewrite length_replicate; lia).
    + destruct He as [He| ->]; [lia|]. by rewrite take_ge by (rewrite length_replicate; lia).
  - assert (KERNBASE = 2147483648) as E by done. rewrite (proj2 (Z.eqb_neq ebp 0)) by lia.
    rewrite (proj2 (Z.ltb_ge _ _)) by lia. rewrite (proj2 (Z.eqb_neq _ _)) by lia. cbn [orb app take]. f_equal. rewrite IH.
    rewrite (replicate_S_end n), app_assoc. rewrite (take_app_le (l ++ replicate n 0)); [done|]. rewrite length_app, length_replicate. lia.
Qed.

(** The first ten return addresses of the call chain, the rest zeros. *)
Lemma getcallerpcs_correct m v l : calls m (u32 (v - 8)) l →
  getcallerpcs m v = take 10 (l ++ replicate 10 0) ∧ length (getcallerpcs m v) = 10%nat.
Proof.
  intros Hc. unfold getcallerpcs. rewrite (getcallerpcs_loop_run m _ l Hc). split; [done|].
  rewrite length_take, length_app, length_replicate. lia.
Qed.

(** ** [procdump] *)

(** The array [states]. *)
Definition state_name (st : procstate) : list Z :=
  match st with
  | UNUSED => chars "unused"
  | EMBRYO => chars "embryo"
  | SLEEPING => chars "sleep "
  | RUNNABLE => chars "runble"
  | RUNNING => chars "run   "
  | ZOMBIE => chars "zombie"
  end.

(** [for(i=0; i<10 && pc[i] != 0; i++) cprintf(" %p", pc[i]);] *)
Fixpoint dump_pcs (pc : list Z) : M cons_st unit :=
  match pc with
  | [] => ret tt
  | x :: pc' => if x =? 0 then ret tt else cprintf (chars " %p") [AInt x] ;;; dump_pcs pc'
  end.

Section dump.
Variables (m : mem) (ctx : gmap Z context).

(** The body of the loop. *)
Definition dump_proc (p : proc) : M cons_st unit :=
  if bool_decide (p_state p = UNUSED) then ret tt
  else
    cprintf (chars "%d %s %s") [AInt (p_pid p); AStr (Some (state_name (p_state p))); AStr (Some (cstr (p_name p)))] ;;;
    (if bool_decide (p_state p = SLEEPING) then
       c <- deref (ctx !! p_context p) ;;
       dump_pcs (getcallerpcs m (u32 (c_ebp c + 8)))
     else ret tt) ;;;
    cprintf [10] [].

Fixpoint procdump (pt : list proc) : M cons_st unit :=
  match pt with
  | [] => ret tt
  | p :: pt' => dump_proc p ;;; procdump pt'
  end.

End dump.

(** ** [panic] *)

Fixpoint panic_pcs (pcs : list Z) : M cons_st unit :=
  match pcs with
  | [] => ret tt
  | x :: pcs' => cprintf (chars " %p") [AInt x] ;;; panic_pcs pcs'
  end.

(** [panic(s)], its argument at [v]: it prints and stops the machine, with
    [panicked] set.  [s] is a format itself. *)
Definition kpanic (m : mem) (lapicid v : Z) (s : list Z) : M cons_st unit :=
  cprintf (chars "lapicid %d: panic: ") [AInt lapicid] ;;;
  cprintf s [] ;;;
  cprintf [10] [] ;;;
  panic_pcs (getcallerpcs m v) ;;;
  fail (Panic "panicked").

(** ** What is printed *)

(** The bytes that [consputc] sends to the serial port. *)
Definition serial_bytes (l : list Z) : list Z := flat_map (λ c, if c =? BACKSPACE then [8; 32; 8] else [u8 c]) l.

(** [m] returns, prints [o], and leaves the input alone. *)
Definition prints (m : M cons_st unit) (o : list Z) : Prop :=
  ∀ s, cga_ok (c_screen s) → ∃ s', m s = Ok tt s' ∧ cga_ok (c_screen s') ∧ c_input s' = c_input s ∧
    c_woken s' = c_woken s ∧ c_uart s' = c_uart s ++ serial_bytes o.

Section prints.
Implicit Types (m : M cons_st unit) (o : list Z).

Lemma prints_ret : prints (ret tt) [].
Proof. intros s Hs. exists s. split_and!; try done. by rewrite app_nil_r. Qed.

Lemma prints_bind m1 m2 o1 o2 : prints m1 o1 → prints m2 o2 → prints (m1 ;;; m2) (o1 ++ o2).
Proof.
  intros H1 H2 s Hs. destruct (H1 s Hs) as (s1 & Hr1 & Hs1 & Hi1 & Hw1 & Hu1). rewrite (bind_ok _ _ _ _ _ Hr1).
  destruct (H2 s1 Hs1) as (s2 & Hr2 & Hs2 & Hi2 & Hw2 & Hu2). exists s2. split_and!; try done; [congruence..|].
  unfold serial_bytes in *. by rewrite Hu2, Hu1, flat_map_app, app_assoc.
Qed.

Lemma prints_consputc c : prints (consputc c) [c].
Proof.
  intros s Hs. destruct (cgaputc_ok c (c_screen s) Hs) as (g & Hg & Hok).
  unfold consputc, uartputc, zoom, bind, modify, serial_bytes. cbn [flat_map].
  destruct (c =? BACKSPACE); cbn [c_screen c_input c_uart c_woken]; rewrite Hg; eexists; (split; [done|]);
    split_and!; try done; cbn [c_uart app]; by rewrite <-?app_assoc.
Qed.

Lemma prints_consputs o : prints (consputs o) o.
Proof.
  induction o as [|c o IH]; [apply prints_ret|]. apply (prints_bind _ _ [c] o); [apply prints_consputc|exact IH].
Qed.

Lemma prints_cprintf fmt args o : cformat fmt args = Some o → prints (cprintf fmt args) o.
Proof. intros E. unfold cprintf. rewrite E. cbn [deref]. intros s Hs. rewrite bind_ret. by apply prints_consputs. Qed.

End prints.

(** The digits of a word always fit. *)
Lemma digit_loop_Some base : 2 ≤ base ≤ 16 → ∀ fuel x, 0 ≤ x < 2 ^ Z.of_nat fuel → (0 < fuel)%nat →
  is_Some (digit_loop fuel kdigits x base).
Proof.
  intros Hb. induction fuel as [|fuel IH]; intros x Hx Hf; [lia|]. cbn [digit_loop].
  destruct (lookup_lt_is_Some_2 kdigits (Z.to_nat (x mod base))) as [d Hd].
  { change (length kdigits) with 16%nat. pose proof (Z.mod_pos_bound x base). lia. }
  rewrite Hd. cbn [mbind option_bind]. destruct (Z.eqb_spec (x / base) 0) as [|Hne]; [done|].
  assert (Hpow : 2 ^ Z.of_nat (S fuel) = 2 * 2 ^ Z.of_nat fuel) by (rewrite Nat2Z.inj_succ, Z.pow_succ_r; lia).
  assert (Hdiv : 0 ≤ x / base ≤ x / 2) by (split; [apply Z.div_pos; lia|apply Z.div_le_compat_l; lia]).
  assert (Hhalf : x / 2 < 2 ^ Z.of_nat fuel) by (apply Z.div_lt_upper_bound; lia).
  destruct fuel as [|fuel]; [simpl in Hhalf; lia|]. destruct (IH (x / base)) as [r Hr]; [lia|lia|]. by rewrite Hr.
Qed.

Lemma printint_Some xx base sgn : 2 ≤ base ≤ 16 → is_Some (printint kdigits xx base sgn).
Proof.
  intros Hb. unfold printint. cbn zeta.
  destruct (digit_loop_Some base Hb 32 (if sgn && (xx <? 0) then u32 (- xx) else u32 xx)) as [b ->]; [|lia|done].
  change (2 ^ Z.of_nat 32) with 4294967296. destruct (sgn && (xx <? 0)); apply u32_range.
Qed.

(** The text of one number, [%p] and [%d]. *)
Definition hex (x : Z) : list Z := default [] (printint kdigits (s32 x) 16 false).
Definition dec (x : Z) : list Z := default [] (printint kdigits (s32 x) 10 true).

Lemma cformat_p x : cformat (chars " %p") [AInt x] = Some (32 :: hex x).
Proof.
  unfold hex. destruct (printint_Some (s32 x) 16 false) as [d Hd]; [lia|]. rewrite Hd. cbn [default].
  change (chars " %p") with [32; 37; 112]. cbn [cformat negb orb Z.eqb Pos.eqb]. rewrite Hd. cbn. by rewrite app_nil_r.
Qed.

Fixpoint pcs_text (pc : list Z) : list Z :=
  match pc with
  | [] => []
  | x :: pc' => if x =? 0 then [] else 32 :: hex x ++ pcs_text pc'
  end.

Lemma prints_dump_pcs pc : prints (dump_pcs pc) (pcs_text pc).
Proof.
  induction pc as [|x pc IH]; [apply prints_ret|]. cbn [dump_pcs pcs_text]. case_match; [apply prints_ret|].
  apply (prints_bind _ _ (32 :: hex x)); [apply prints_cprintf, cformat_p|exact IH].
Qed.

(** The line of one process. *)
Definition proc_line (m : mem) (ctx : gmap Z context) (p : proc) : list Z :=
  if bool_decide (p_state p = UNUSED) then []
  else dec (p_pid p) ++ 32 :: state_name (p_state p) ++ 32 :: cstr (p_name p) ++
       (if bool_decide (p_state p = SLEEPING)
        then pcs_text (getcallerpcs m (u32 (c_ebp (default (Context 0 0 0 0 0) (ctx !! p_context p)) + 8)))
        else []) ++ [10].

(** [procdump] prints one line for every entry in use, in the order of the table,
    and touches neither the table nor the input. *)
Lemma procdump_prints m ctx pt :
  (∀ p, p ∈ pt → p_state p = SLEEPING → is_Some (ctx !! p_context p)) →
  prints (procdump m ctx pt) (flat_map (proc_line m ctx) pt).
Proof.
  induction pt as [|p pt IH]; intros Hctx; [apply prints_ret|]. cbn [procdump flat_map].
  apply prints_bind; [|apply IH; intros q Hq; apply Hctx; by right].
  unfold dump_proc, proc_line. case_bool_decide as Hu; [apply prints_ret|].
  destruct (printint_Some (s32 (p_pid p)) 10 true) as [d Hd]; [lia|].
  assert (Hline : cformat (chars "%d %s %s") [AInt (p_pid p); AStr (Some (state_name (p_state p))); AStr (Some (cstr (p_name p)))] =
    Some (dec (p_pid p) ++ 32 :: state_name (p_state p) ++ 32 :: cstr (p_name p))).
  { unfold dec. rewrite Hd. cbn [default]. change (chars "%d %s %s") with [37; 100; 32; 37; 115; 32; 37; 115]. cbn [cformat negb orb Z.eqb Pos.eqb].
    rewrite Hd. cbn. by rewrite app_nil_r. }
  replace (_ ++ 32 :: _ ++ 32 :: _ ++ _ ++ [10]) with
    ((dec (p_pid p) ++ 32 :: state_name (p_state p) ++ 32 :: cstr (p_name p)) ++
     (if bool_decide (p_state p = SLEEPING)
      then pcs_text (getcallerpcs m (u32 (c_ebp (default (Context 0 0 0 0 0) (ctx !! p_context p)) + 8))) else []) ++ [10])
    by (by rewrite <-app_assoc; cbn [app]; rewrite <-app_assoc).
  apply prints_bind; [by apply prints_cprintf|]. apply prints_bind; [|by apply prints_cprintf].
  case_bool_decide as Hs; [|apply prints_ret]. destruct (Hctx p) as [c Hc]; [by left|done|]. rewrite Hc. cbn [deref default].
  intros s0 Hs0. rewrite bind_ret. by apply prints_dump_pcs.
Qed.

Lemma prints_panic_pcs pcs : prints (panic_pcs pcs) (flat_map (λ x, 32 :: hex x) pcs).
Proof.
  induction pcs as [|x pcs IH]; [apply prints_ret|]. cbn [panic_pcs flat_map].
  apply prints_bind; [apply prints_cprintf, cformat_p|exact IH].
Qed.

Lemma cformat_lapicid x : cformat (chars "lapicid %d: panic: ") [AInt x] = Some (chars "lapicid " ++ dec x ++ chars ": panic: ").
Proof.
  unfold dec. destruct (printint_Some (s32 x) 10 true) as [d Hd]; [lia|]. rewrite Hd. cbn [default].
  change (chars "lapicid %d: panic: ") with (chars "lapicid " ++ 37 :: 100 :: chars ": panic: ").
  change (chars "lapicid ") with [108; 97; 112; 105; 99; 105; 100; 32].
  change (chars ": panic: ") with [58; 32; 112; 97; 110; 105; 99; 58; 32]. cbn [app cformat negb orb Z.eqb Pos.eqb].
  rewrite Hd. reflexivity.
Qed.

(** [panic] prints its message and ten words of the call chain, and does not
    return. *)
Lemma kpanic_stops m lapicid v s o : cformat s [] = Some o → ∀ st, cga_ok (c_screen st) →
  ∃ st', kpanic m lapicid v s st = Err (Panic "panicked") st' ∧ c_input st' = c_input st ∧
    c_uart st' = c_uart st ++ serial_bytes ((chars "lapicid " ++ dec lapicid ++ chars ": panic: ") ++ o ++ [10] ++
                                            flat_map (λ x, 32 :: hex x) (getcallerpcs m v)).
Proof.
  intros Ho st Hst. unfold kpanic.
  destruct (prints_cprintf _ _ _ (cformat_lapicid lapicid) st Hst) as (s1 & Hr1 & Hs1 & Hi1 & _ & Hu1).
  destruct (prints_cprintf s [] o Ho s1 Hs1) as (s2 & Hr2 & Hs2 & Hi2 & _ & Hu2).
  destruct (prints_cprintf [10] [] [10] eq_refl s2 Hs2) as (s3 & Hr3 & Hs3 & Hi3 & _ & Hu3).
  destruct (prints_panic_pcs (getcallerpcs m v) s3 Hs3) as (s4 & Hr4 & _ & Hi4 & _ & Hu4).
  exists s4. rewrite (bind_ok _ _ _ _ _ Hr1), (bind_ok _ _ _ _ _ Hr2), (bind_ok _ _ _ _ _ Hr3), (bind_ok _ _ _ _ _ Hr4).
  split_and!; [done|congruence|]. unfold serial_bytes in *. rewrite !flat_map_app in *. by rewrite Hu4, Hu3, Hu2, Hu1, <-!app_assoc.
Qed.
