(* ===== verification/Kbd.v ===== *)
(** The keyboard: kbd.c and the tables of kbd.h

    [kbdgetc] keeps the modifier state [shift] and turns a byte of the keyboard
    controller into a character; [kbdintr] feeds the characters to the console.
    What the controller's two ports return is the input of the definitions. *)

From stdpp Require Import list numbers strings.
From Stdlib Require Import ZArith Lia.
From S2P Require Import Prelude Ulib Console.

Definition KBS_DIB : Z := 0x01.

Definition NO : Z := 0.

Definition SHIFT : Z := Z.shiftl 1 0.
Definition CTL : Z := Z.shiftl 1 1.
Definition ALT : Z := Z.shiftl 1 2.
Definition CAPSLOCK : Z := Z.shiftl 1 3.
Definition NUMLOCK : Z := Z.shiftl 1 4.
Definition SCROLLLOCK : Z := Z.shiftl 1 5.
Definition E0ESC : Z := Z.shiftl 1 6.

Definition KEY_HOME : Z := 0xE0.
Definition KEY_END : Z := 0xE1.
Definition KEY_UP : Z := 0xE2.
Definition KEY_DN : Z := 0xE3.
Definition KEY_LF : Z := 0xE4.
Definition KEY_RT : Z := 0xE5.
Definition KEY_PGUP : Z := 0xE6.
Definition KEY_PGDN : Z := 0xE7.
Definition KEY_INS : Z := 0xE8.
Definition KEY_DEL : Z := 0xE9.

(** [C(x)], stored in a byte. *)
Definition C (x : Z) : Z := u8 (x - 64).

(** A table of 256 bytes: its first entries, then designated ones. *)
Definition table (first : list Z) (entries : list (nat * Z)) : list Z :=
  foldl (λ t e, <[e.1 := e.2]> t) (first ++ replicate (256 - length first) 0) entries.

Definition shiftcode : list Z :=
  table [] [(0x1D%nat, CTL); (0x2A%nat, SHIFT); (0x36%nat, SHIFT); (0x38%nat, ALT); (0x9D%nat, CTL); (0xB8%nat, ALT)].

Definition togglecode : list Z :=
  table [] [(0x3A%nat, CAPSLOCK); (0x45%nat, NUMLOCK); (0x46%nat, SCROLLLOCK)].

(** The keys behind an E0 escape; enter and the slash differ between maps. *)
Definition extended (enter slash : Z) : list (nat * Z) :=
  [(0x9C%nat, enter); (0xB5%nat, slash);
   (0xC8%nat, KEY_UP); (0xD0%nat, KEY_DN);
   (0xC9%nat, KEY_PGUP); (0xD1%nat, KEY_PGDN);
   (0xCB%nat, KEY_LF); (0xCD%nat, KEY_RT);
   (0x97%nat, KEY_HOME); (0xCF%nat, KEY_END);
   (0xD2%nat, KEY_INS); (0xD3%nat, KEY_DEL)].

(** The keypad and the keys before it, the same in both maps. *)
Definition keypad : list Z :=
  [NO; 42; NO; 32] ++ replicate 13 NO ++ chars "789-456+1230." ++ replicate 4 NO.

Definition normalmap : list Z :=
  table ([NO; 0x1B] ++ chars "1234567890-=" ++ [8; 9] ++ chars "qwertyuiop[]" ++ [10; NO] ++
         chars "asdfghjkl;'`" ++ [NO] ++ chars "\zxcvbnm,./" ++ keypad) (extended 10 47).

Definition shiftmap : list Z :=
  table ([NO; 27] ++ chars "!@#$%^&*()_+" ++ [8; 9] ++ chars "QWERTYUIOP{}" ++ [10; NO] ++
         chars "ASDFGHJKL:" ++ [34; 126; NO] ++ chars "|ZXCVBNM<>?" ++ keypad) (extended 10 47).

Definition ctlmap : list Z :=
  table (replicate 16 NO ++ (C <$> chars "QWERTYUIOP") ++ [NO; NO; 13; NO] ++ (C <$> chars "ASDFGHJKL") ++
         replicate 4 NO ++ (C <$> chars "\ZXCVBNM") ++ [NO; NO] ++ [C 47; NO; NO]) (extended 13 (C 47)).

Definition charcode : list (list Z) := [normalmap; shiftmap; ctlmap; ctlmap].

(** [t[i]]: an index past the end is a fault. *)
Definition entry {S A} (t : list A) (i : Z) : M S A := deref (t !! Z.to_nat i).

(** [uint] complement. *)
Definition unot (x : Z) : Z := u32 (Z.lnot x).

(** [kbdgetc] when the status port reads [st] and the data port [data]. *)
Definition kbdgetc (st data : Z) : M Z Z :=
  if Z.land st KBS_DIB =? 0 then ret (-1)
  else if data =? 0xE0 then modify (λ shift, Z.lor shift E0ESC) ;;; ret 0
  else
    shift <- get ;;
    if negb (Z.land data 0x80 =? 0) then
      let data := if negb (Z.land shift E0ESC =? 0) then data else Z.land data 0x7F in
      sc <- entry shiftcode data ;;
      put (Z.land shift (unot (Z.lor sc E0ESC))) ;;;
      ret 0
    else
      let esc := negb (Z.land shift E0ESC =? 0) in
      let data := if esc then Z.lor data 0x80 else data in
      let shift := if esc then Z.land shift (unot E0ESC) else shift in
      sc <- entry shiftcode data ;;
      tc <- entry togglecode data ;;
      let shift := Z.lxor (Z.lor shift sc) tc in
      put shift ;;;
      map <- entry charcode (Z.land shift (Z.lor CTL SHIFT)) ;;
      c <- entry map data ;;
      ret (if negb (Z.land shift CAPSLOCK =? 0) then
             if (97 <=? c) && (c <=? 122) then u32 (c + (65 - 97))
             else if (65 <=? c) && (c <=? 90) then u32 (c + (97 - 65))
             else c
           else c).

(** [kbdintr]: the controller holds the bytes [queue]; [getc] is called until
    its buffer is empty, when it returns -1. *)
Fixpoint kbdintr (queue : list Z) : M (Z * cons_st) bool :=
  match queue with
  | [] =>
      c <- zoom fst (λ x s, (x, s.2)) (kbdgetc 0 0) ;;
      if 0 <=? c then fail NoFuel else ret false
  | data :: queue' =>
      c <- zoom fst (λ x s, (x, s.2)) (kbdgetc KBS_DIB data) ;;
      if 0 <=? c then
        d <- zoom snd (λ x s, (s.1, x)) (consoleintr_char c) ;;
        d' <- kbdintr queue' ;;
        ret (d || d')
      else ret false
  end.

(** ** The keyboard is total *)

(** A modifier state: seven bits. *)
Definition shift_ok (shift : Z) : Prop := 0 ≤ shift < 128.

(** One result of [kbdgetc] on a byte, as a boolean. *)
Definition getc_ok (shift data : Z) : bool :=
  match kbdgetc KBS_DIB data shift with
  | Ok c shift' => (0 <=? c) && (c <? 256) && (0 <=? shift') && (shift' <? 128)
  | Err _ _ => false
  end.

Definition below (n : nat) (P : Z → bool) : bool := forallb P (Z.of_nat <$> seq 0 n).

Lemma below_spec n P z : below n P = true → 0 ≤ z < Z.of_nat n → P z = true.
Proof.
  intros H Hz. unfold below in H. rewrite forallb_forall in H. apply H, list_elem_of_In, list_elem_of_fmap.
  exists (Z.to_nat z). split; [lia|]. apply elem_of_seq. lia.
Qed.

Lemma getc_ok_all : below 128 (λ shift, below 256 (getc_ok shift)) = true.
Proof. by vm_compute. Qed.

Lemma getc_total shift data : shift_ok shift → 0 ≤ data < 256 →
  ∃ c shift', kbdgetc KBS_DIB data shift = Ok c shift' ∧ 0 ≤ c < 256 ∧ shift_ok shift'.
Proof.
  intros Hs Hd. pose proof (below_spec _ _ data (below_spec _ _ shift getc_ok_all Hs) Hd) as H.
  unfold getc_ok in H. destruct (kbdgetc KBS_DIB data shift) as [c s'|]; [|done].
  exists c, s'. rewrite !andb_true_iff, !Z.leb_le, !Z.ltb_lt in H. split; [done|]. unfold shift_ok. lia.
Qed.

(** ** What the keys mean *)

Definition has (shift bit : Z) : bool := negb (Z.land shift bit =? 0).
Definition is_lower (c : Z) : bool := (97 <=? c) && (c <=? 122).
Definition key (data : Z) : Z := default 0 (normalmap !! Z.to_nat data).

(** The character of a letter's key: ^letter under control, else upper case when
    exactly one of shift and caps lock is on. *)
Definition letter (shift c : Z) : Z :=
  if has shift CTL then c - 96 else if xorb (has shift SHIFT) (has shift CAPSLOCK) then c - 32 else c.

Definition letter_ok (shift data : Z) : bool :=
  if is_lower (key data) && negb (has shift E0ESC) then
    match kbdgetc KBS_DIB data shift with
    | Ok c shift' => (c =? letter shift (key data)) && (shift' =? shift)
    | Err _ _ => false
    end
  else true.

Lemma letter_ok_all : below 128 (λ shift, below 128 (letter_ok shift)) = true.
Proof. by vm_compute. Qed.

(** A letter's key gives the letter that the modifiers ask for, and leaves them. *)
Lemma letter_case shift data : shift_ok shift → 0 ≤ data < 128 → is_lower (key data) = true → has shift E0ESC = false →
  kbdgetc KBS_DIB data shift = Ok (letter shift (key data)) shift.
Proof.
  intros Hs Hd Hk He. pose proof (below_spec _ _ data (below_spec _ _ shift letter_ok_all Hs) Hd) as H.
  unfold letter_ok in H. rewrite Hk, He in H. destruct (kbdgetc KBS_DIB data shift) as [c s'|]; [|done].
  apply andb_true_iff in H as [->%Z.eqb_eq ->%Z.eqb_eq]. done.
Qed.

Definition modifier (data : Z) : Z := default 0 (shiftcode !! Z.to_nat data).
Definition lock (data : Z) : Z := default 0 (togglecode !! Z.to_nat data).

Definition release_ok (shift data : Z) : bool :=
  if negb (has shift E0ESC) && negb (has shift (modifier data)) && negb (data =? 0x60) then
    match (kbdgetc KBS_DIB data ;;; kbdgetc KBS_DIB (data + 128)) shift with
    | Ok c shift' => (c =? 0) && (shift' =? Z.lxor shift (lock data))
    | Err _ _ => false
    end
  else true.

Lemma release_ok_all : below 128 (λ shift, below 128 (release_ok shift)) = true.
Proof. by vm_compute. Qed.

(** A key pressed and released while its modifier is off leaves the modifiers as
    they were, up to the lock it toggles; 0x60 is not a key, its release code
    would be the escape. *)
Lemma press_release shift data : shift_ok shift → 0 ≤ data < 128 → data ≠ 0x60 →
  has shift E0ESC = false → has shift (modifier data) = false →
  (kbdgetc KBS_DIB data ;;; kbdgetc KBS_DIB (data + 128)) shift = Ok 0 (Z.lxor shift (lock data)).
Proof.
  intros Hs Hd Hne He Hm. pose proof (below_spec _ _ data (below_spec _ _ shift release_ok_all Hs) Hd) as H.
  unfold release_ok in H. rewrite He, Hm in H. apply Z.eqb_neq in Hne. rewrite Hne in H. cbn [negb andb] in H.
  destruct ((kbdgetc KBS_DIB data ;;; kbdgetc KBS_DIB (data + 128)) shift) as [c s'|]; [|done].
  apply andb_true_iff in H as [->%Z.eqb_eq ->%Z.eqb_eq]. done.
Qed.

(** ** The interrupt *)

(** The characters that a sequence of bytes produces. *)
Fixpoint kbd_chars (shift : Z) (queue : list Z) : list Z :=
  match queue with
  | [] => []
  | data :: queue' =>
      match kbdgetc KBS_DIB data shift with
      | Ok c shift' => c :: kbd_chars shift' queue'
      | Err _ _ => []
      end
  end.

(** Whatever bytes the keyboard sends, no table is read past its end, every
    character is a byte and the modifier state keeps its seven bits; the
    interrupt handler returns, and the characters [kbd_chars] of the bytes, one
    for each of them, go through the console's line editor. *)
Theorem kbdintr_type (queue : list Z) (shift : Z) (s : cons_st) :
  shift_ok shift → console_ok s → Forall (λ b, 0 ≤ b < 256) queue →
  length (kbd_chars shift queue) = length queue ∧
  Forall (λ c, 0 ≤ c < 256) (kbd_chars shift queue) ∧
  ∃ d shift' s', kbdintr queue (shift, s) = Ok d (shift', s') ∧ shift_ok shift' ∧ console_ok s' ∧
    typed_of (c_input s') = foldl (λ t c, type_char c t) (typed_of (c_input s)) (kbd_chars shift queue).
Proof.
  intros Hsh Hs Hq. revert shift s Hsh Hs. induction Hq as [|data queue Hd Hq IH]; intros shift s Hsh Hs.
  { split_and!; [done|by constructor|]. by exists false, shift, s. }
  destruct (getc_total shift data Hsh Hd) as (c & shift1 & Hg & Hc & Hsh1).
  destruct (consoleintr_char_ok c s Hs) as (s1 & Hr1 & Hs1 & Ht1).
  destruct (IH shift1 s1 Hsh1 Hs1) as (Hlen & Hch & d & shift' & s' & Hr & Hsh' & Hs' & Ht).
  cbn [kbd_chars length foldl]. rewrite Hg. split_and!; [cbn [length]; lia|by constructor|].
  cbn [kbdintr]. unfold bind at 1, zoom at 1. cbn [fst snd]. rewrite Hg. cbn [fst snd].
  replace (0 <=? c) with true by (symmetry; apply Z.leb_le; lia).
  unfold bind at 1, zoom at 1. cbn [fst snd]. rewrite Hr1. cbn [fst snd]. rewrite (bind_ok _ _ _ _ _ Hr).
  eexists _, shift', s'. split_and!; [done..|]. cbn [foldl]. by rewrite Ht, Ht1.
Qed.

(** Shift held over "l", then "s", then return. *)
Lemma kbdintr_type_witness :
  shift_ok 0 ∧ ∃ d shift' s', kbdintr [0x2A; 0x26; 0xAA; 0x1F; 0x1C] (0, demo_console) = Ok d (shift', s') ∧
    typed_of (c_input s') = Typed [76; 115; 10] [].
Proof.
  assert (Hsh : shift_ok 0) by (unfold shift_ok; lia). split; [exact Hsh|].
  destruct (kbdintr_type [0x2A; 0x26; 0xAA; 0x1F; 0x1C] 0 demo_console Hsh demo_console_ok) as (_ & _ & d & sh & s' & Hr & _ & _ & Ht).
  { repeat constructor; lia. }
  exists d, sh, s'. split; [exact Hr|]. rewrite Ht. vm_compute. reflexivity.
Defined.
