(* ===== verification/Mp.v ===== *)
(** Finding the processors: mp.c and mp.h

    The BIOS leaves tables in memory: a floating pointer structure, the
    configuration table it points to, and in that table an entry per processor,
    bus, I/O APIC and interrupt source.  [mpinit] looks for the structure,
    checks both tables and records the APIC ids of the processors.  The BIOS's
    memory is a parameter of the state, the ports are the class [port_io].

    The theorem describes [mpinit] by the entries of the table ([entries_at]).
    A table with an entry of another type is no such list: the code means to
    panic there, but the [break] of the default case only leaves the [switch],
    and the loop goes on at the same entry. *)

From stdpp Require Import gmap list numbers strings.
From Stdlib Require Import ZArith Lia.
From S2P Require Import Prelude Mem Memlayout Dev.

(** ** The tables *)

(** [struct mp]: offsets of the fields that are read, and its size. *)
Definition sizeof_mp : Z := 16.
Definition mp_physaddr (m : mem) (mp : Z) : Z := ld32 m (mp + 4).
Definition mp_imcrp (m : mem) (mp : Z) : Z := ld8 m (mp + 12).

(** [struct mpconf] *)
Definition sizeof_mpconf : Z := 44.
Definition conf_length (m : mem) (conf : Z) : Z := ld8 m (conf + 4) + 256 * ld8 m (conf + 5).
Definition conf_version (m : mem) (conf : Z) : Z := ld8 m (conf + 6).
Definition conf_lapicaddr (m : mem) (conf : Z) : Z := ld32 m (conf + 36).

(** [struct mpproc] and [struct mpioapic] *)
Definition sizeof_mpproc : Z := 20.
Definition proc_apicid (m : mem) (p : Z) : Z := ld8 m (p + 1).
Definition sizeof_mpioapic : Z := 8.
Definition ioapic_apicno (m : mem) (p : Z) : Z := ld8 m (p + 1).

Definition MPPROC : Z := 0.
Definition MPBUS : Z := 1.
Definition MPIOAPIC : Z := 2.
Definition MPIOINTR : Z := 3.
Definition MPLINTR : Z := 4.

(** "_MP_" and "PCMP" *)
Definition mp_signature : list Z := [95; 77; 80; 95].
Definition pcmp_signature : list Z := [80; 67; 77; 80].

(** [memcmp] with a string literal as its second argument. *)
Fixpoint memcmp_lit (m : mem) (p : Z) (lit : list Z) : Z :=
  match lit with
  | [] => 0
  | c :: lit' => if ld8 m p =? c then memcmp_lit m (p + 1) lit' else ld8 m p - c
  end.

(** mp.c: [sum], the loop with [n] bytes to go. *)
Fixpoint sum_loop (m : mem) (addr : Z) (n : nat) (acc : Z) : Z :=
  match n with
  | O => acc
  | S n' => sum_loop m (addr + 1) n' (s32 (acc + ld8 m addr))
  end.
Definition sum (m : mem) (addr len : Z) : Z := u8 (sum_loop m addr (Z.to_nat len) 0).

(** mp.c: [mpsearch1]; [None] when the fuel does not suffice. *)
Fixpoint mpsearch1_loop (fuel : nat) (m : mem) (p e : Z) : option Z :=
  if p <? e then
    match fuel with
    | O => None
    | S fuel' =>
        if (memcmp_lit m p mp_signature =? 0) && (sum m p sizeof_mp =? 0) then Some p
        else mpsearch1_loop fuel' m (u32 (p + sizeof_mp)) e
    end
  else Some 0.
Definition mpsearch1 (m : mem) (a len : Z) : option Z :=
  let addr := P2V a in
  mpsearch1_loop (Z.to_nat (len / sizeof_mp)) m addr (u32 (addr + len)).

(** mp.c: [mpsearch]. *)
Definition mpsearch (m : mem) : option Z :=
  let bda := P2V 0x400 in
  let p := Z.shiftl (Z.lor (Z.shiftl (ld8 m (bda + 0x0F)) 8) (ld8 m (bda + 0x0E))) 4 in
  mp ← (if negb (p =? 0) then mpsearch1 m p 1024
        else
          let p := Z.lor (Z.shiftl (ld8 m (bda + 0x14)) 8) (ld8 m (bda + 0x13)) * 1024 in
          mpsearch1 m (u32 (p - 1024)) 1024);
  if negb (mp =? 0) then Some mp else mpsearch1 m 0xF0000 0x10000.

(** mp.c: [mpconfig]: the table and the structure that points to it, 0 and 0
    when there is none. *)
Definition mpconfig (m : mem) : option (Z * Z) :=
  mp ← mpsearch m;
  Some (
    if (mp =? 0) || (mp_physaddr m mp =? 0) then (0, 0)
    else
      let conf := P2V (mp_physaddr m mp) in
      if negb (memcmp_lit m conf pcmp_signature =? 0) then (0, 0)
      else if negb (conf_version m conf =? 1) && negb (conf_version m conf =? 4) then (0, 0)
      else if negb (sum m conf (conf_length m conf) =? 0) then (0, 0)
      else (conf, mp)).

(** ** [mpinit] *)

(** The memory, the variables that mp.c sets (of [cpus] the field [apicid]) and
    the devices. *)
Record mp_st (D : Type) := MpSt {
  mp_mem : mem;
  cpus : list Z;
  ncpu : Z;
  ioapicid : Z;
  lapic : Z;
  mp_dev : D
}.
Arguments MpSt {D}.
Arguments mp_mem {D}.
Arguments cpus {D}.
Arguments ncpu {D}.
Arguments ioapicid {D}.
Arguments lapic {D}.
Arguments mp_dev {D}.

Section mpinit.
Context {D : Type} `{!port_io D}.
Implicit Types (s : mp_st D).

Definition mp_ports {A} (f : M D A) : M (mp_st D) A :=
  zoom mp_dev (λ d s, MpSt (mp_mem s) (cpus s) (ncpu s) (ioapicid s) (lapic s) d) f.

(** The case [MPPROC]. *)
Definition add_cpu (id : Z) : M (mp_st D) unit :=
  n <- gets ncpu ;;
  if n <? Z.of_nat NCPU then
    modify (λ s, MpSt (mp_mem s) (<[Z.to_nat n := id]> (cpus s)) (n + 1) (ioapicid s) (lapic s) (mp_dev s))
  else ret tt.
Definition set_ioapicid (id : Z) : M (mp_st D) unit :=
  modify (λ s, MpSt (mp_mem s) (cpus s) (ncpu s) id (lapic s) (mp_dev s)).
Definition set_lapic (a : Z) : M (mp_st D) unit :=
  modify (λ s, MpSt (mp_mem s) (cpus s) (ncpu s) (ioapicid s) a (mp_dev s)).

(** The loop over the table; it returns [ismp]. *)
Fixpoint mpinit_loop (fuel : nat) (p e : Z) (ismp : bool) : M (mp_st D) bool :=
  if p <? e then
    match fuel with
    | O => fail NoFuel
    | S fuel' =>
        m <- gets mp_mem ;;
        let type := ld8 m p in
        if type =? MPPROC then
          add_cpu (proc_apicid m p) ;;; mpinit_loop fuel' (u32 (p + sizeof_mpproc)) e ismp
        else if type =? MPIOAPIC then
          set_ioapicid (ioapic_apicno m p) ;;; mpinit_loop fuel' (u32 (p + sizeof_mpioapic)) e ismp
        else if (type =? MPBUS) || (type =? MPIOINTR) || (type =? MPLINTR) then
          mpinit_loop fuel' (u32 (p + 8)) e ismp
        else mpinit_loop fuel' p e false
    end
  else ret ismp.

Definition mpinit (fuel : nat) : M (mp_st D) unit :=
  m <- gets mp_mem ;;
  match mpconfig m with
  | None => fail NoFuel
  | Some (conf, mp) =>
      if conf =? 0 then panic "Expect to run on an SMP"
      else
        set_lapic (conf_lapicaddr m conf) ;;;
        ismp <- mpinit_loop fuel (u32 (conf + sizeof_mpconf)) (u32 (conf + conf_length m conf)) true ;;
        if negb ismp then panic "Didn't find a suitable machine"
        else if negb (mp_imcrp m mp =? 0) then
          mp_ports (
            outb 0x22 0x70 ;;;
            v <- inb 0x23 ;;
            outb 0x23 (Z.lor v 1))
        else ret tt
  end.

End mpinit.

(** ** What the search finds *)

(** The checksum: the bytes add up to 0 modulo 256. *)
Definition byte_sum (l : list Z) : Z := foldr Z.add 0 l.

Definition mp_valid (m : mem) (p : Z) : Prop :=
  bytes_at m p 4 = mp_signature ∧ byte_sum (bytes_at m p 16) mod 256 = 0.
#[global] Instance mp_valid_dec m p : Decision (mp_valid m p).
Proof. unfold mp_valid. apply _. Defined.

(** [r] is the first structure among [n] places 16 bytes apart, or 0. *)
Definition first_valid (m : mem) (a : Z) (n : nat) (r : Z) : Prop :=
  (∃ k, 0 ≤ k < Z.of_nat n ∧ r = a + 16 * k ∧ mp_valid m r ∧
     ∀ j, 0 ≤ j < k → ¬ mp_valid m (a + 16 * j)) ∨
  (r = 0 ∧ ∀ j, 0 ≤ j < Z.of_nat n → ¬ mp_valid m (a + 16 * j)).

(** The first place [mpsearch] looks at: the EBDA when the BIOS data area has
    its segment, the last kilobyte of base memory otherwise. *)
Definition bda_word (m : mem) (o : Z) : Z :=
  ld8 m (P2V 0x400 + o) + 256 * ld8 m (P2V 0x400 + o + 1).
Definition first_place (m : mem) : Z :=
  P2V (if bda_word m 0x0E =? 0 then u32 (1024 * bda_word m 0x13 - 1024) else 16 * bda_word m 0x0E).

Definition search_spec (m : mem) (r : Z) : Prop :=
  (r ≠ 0 ∧ first_valid m (first_place m) 64 r) ∨
  (first_valid m (first_place m) 64 0 ∧ first_valid m (P2V 0xF0000) 4096 r).

Lemma memcmp_lit_0 m p lit : memcmp_lit m p lit = 0 ↔ bytes_at m p (length lit) = lit.
Proof.
  revert p. induction lit as [|c lit IH]; intros p; simpl; [done|].
  destruct (Z.eqb_spec (ld8 m p) c) as [->|Hne].
  - rewrite IH. split; [by intros ->|]. intros [= ->]. done.
  - split; [lia|]. intros [= ? ?]. done.
Qed.

Lemma sum_loop_mod m n : ∀ a acc, sum_loop m a n acc mod 256 = (acc + byte_sum (bytes_at m a n)) mod 256.
Proof.
  induction n as [|n IH]; intros a acc; simpl; [f_equal; lia|].
  rewrite IH. set (x := byte_sum _). clearbody x. zlia.
Qed.

Lemma sum_spec m a len : sum m a len = byte_sum (bytes_at m a (Z.to_nat len)) mod 256.
Proof. unfold sum, u8. by rewrite sum_loop_mod. Qed.

Lemma mp_test m p :
  (memcmp_lit m p mp_signature =? 0) && (sum m p sizeof_mp =? 0) = bool_decide (mp_valid m p).
Proof.
  apply eq_true_iff_eq. rewrite andb_true_iff, !Z.eqb_eq, bool_decide_eq_true, memcmp_lit_0, sum_spec.
  done.
Qed.

Lemma mpsearch1_loop_ok m : ∀ n p, 0 < p → p + 16 * Z.of_nat n < 4294967296 →
  ∃ r, mpsearch1_loop n m p (p + 16 * Z.of_nat n) = Some r ∧ first_valid m p n r.
Proof.
  induction n as [|n IH]; intros p Hp He.
  { exists 0. simpl. rewrite Z.add_0_r, Z.ltb_irrefl. split; [done|]. right. split; [done|]. intros. lia. }
  cbn [mpsearch1_loop]. rewrite (proj2 (Z.ltb_lt _ _)) by lia. rewrite mp_test.
  case_bool_decide as Hv.
  { exists p. split; [done|]. left. exists 0. split_and!; [lia|lia|lia|done|]. intros. lia. }
  unfold sizeof_mp. rewrite u32_small by lia.
  destruct (IH (p + 16)) as (r & Hr & Hf); [lia..|].
  replace (p + 16 * Z.of_nat (S n)) with (p + 16 + 16 * Z.of_nat n) by lia.
  exists r. split; [done|].
  assert (Hno : ∀ k, (∀ j, 0 ≤ j < k → ¬ mp_valid m (p + 16 + 16 * j)) →
                     ∀ j, 0 ≤ j < 1 + k → ¬ mp_valid m (p + 16 * j)).
  { intros k H j Hj. destruct (decide (j = 0)) as [->|]; [by rewrite Z.mul_0_r, Z.add_0_r|].
    replace (p + 16 * j) with (p + 16 + 16 * (j - 1)) by lia. apply H. lia. }
  destruct Hf as [(k & Hk & -> & Hv' & Hf)|[-> Hf]].
  - left. exists (1 + k). split_and!; [lia|lia|lia|done|by apply Hno].
  - right. split; [done|]. intros j Hj. apply (Hno (Z.of_nat n)); [done|lia].
Qed.

Lemma mpsearch1_ok m a n len : len = 16 * Z.of_nat n → 0 < P2V a → P2V a + len < 4294967296 →
  ∃ r, mpsearch1 m a len = Some r ∧ first_valid m (P2V a) n r.
Proof.
  intros -> Hp He. unfold mpsearch1, sizeof_mp.
  rewrite (Z.mul_comm 16), Z.div_mul, Nat2Z.id, Z.mul_comm, u32_small by lia. by apply mpsearch1_loop_ok.
Qed.

Lemma first_place_ok m : ∃ r,
  (if negb (Z.shiftl (Z.lor (Z.shiftl (ld8 m (P2V 0x400 + 0x0F)) 8) (ld8 m (P2V 0x400 + 0x0E))) 4 =? 0)
   then mpsearch1 m (Z.shiftl (Z.lor (Z.shiftl (ld8 m (P2V 0x400 + 0x0F)) 8) (ld8 m (P2V 0x400 + 0x0E))) 4) 1024
   else mpsearch1 m (u32 (Z.lor (Z.shiftl (ld8 m (P2V 0x400 + 0x14)) 8) (ld8 m (P2V 0x400 + 0x13)) * 1024 - 1024)) 1024)
  = Some r ∧ first_valid m (first_place m) 64 r.
Proof.
  rewrite !lor_bytes, Z.shiftl_mul_pow2 by (apply ld8_range || lia).
  pose proof (ld8_range m (P2V 0x400 + 0x0E)). pose proof (ld8_range m (P2V 0x400 + 0x0F)).
  pose proof (ld8_range m (P2V 0x400 + 0x13)). pose proof (ld8_range m (P2V 0x400 + 0x14)).
  unfold first_place, bda_word. rewrite <- !Z.add_assoc. change (0x0E + 1) with 0x0F. change (0x13 + 1) with 0x14.
  change (2 ^ 4) with 16.
  set (w := ld8 m (P2V 1024 + 14) + _) in *. set (v := ld8 m (P2V 1024 + 19) + _) in *.
  assert (0 ≤ w < 65536) by lia. assert (0 ≤ v < 65536) by lia. clearbody w v.
  destruct (Z.eqb_spec w 0) as [->|Hw].
  - cbn [Z.mul Z.eqb negb]. rewrite (Z.mul_comm v). apply mpsearch1_ok; unfold P2V, KERNBASE; zlia.
  - rewrite (proj2 (Z.eqb_neq _ _)) by lia. cbn [negb]. rewrite (Z.mul_comm w).
    apply mpsearch1_ok; unfold P2V, KERNBASE; zlia.
Qed.

Lemma mpsearch_ok m : ∃ r, mpsearch m = Some r ∧ search_spec m r.
Proof.
  unfold mpsearch. destruct (first_place_ok m) as (r & Hr & Hf). rewrite Hr. simpl.
  destruct (Z.eqb_spec r 0) as [->|Hne]; simpl.
  - destruct (mpsearch1_ok m 0xF0000 4096 0x10000) as (r & Hr' & Hf'); [done..|].
    exists r. split; [done|]. by right.
  - exists r. split; [done|]. by left.
Qed.

(** ** What [mpinit] makes of the table *)

Inductive entry : Type :=
| EProc (apicid : Z)
| EIoapic (apicno : Z)
| EOther.

(** The entry at [p] and its size, [None] for a type the MP specification does
    not list. *)
Definition entry_at (m : mem) (p : Z) : option (entry * Z) :=
  let type := ld8 m p in
  if type =? MPPROC then Some (EProc (ld8 m (p + 1)), 20)
  else if type =? MPIOAPIC then Some (EIoapic (ld8 m (p + 1)), 8)
  else if (type =? MPBUS) || (type =? MPIOINTR) || (type =? MPLINTR) then Some (EOther, 8)
  else None.

(** The entries from [p] on fill the table up to [e], or lead to one that is
    unknown. *)
Inductive entries_at (m : mem) (e : Z) : Z → list entry → Prop :=
| entries_end p : e ≤ p → entries_at m e p []
| entries_next p x n es : p < e → entry_at m p = Some (x, n) → entries_at m e (p + n) es →
    entries_at m e p (x :: es).

Inductive unknown_at (m : mem) (e : Z) : Z → Prop :=
| unknown_here p : p < e → entry_at m p = None → unknown_at m e p
| unknown_later p x n : p < e → entry_at m p = Some (x, n) → unknown_at m e (p + n) → unknown_at m e p.

Definition apicids (es : list entry) : list Z :=
  omap (λ x, match x with EProc id => Some id | _ => None end) es.
Definition ioapic_ids (es : list entry) : list Z :=
  omap (λ x, match x with EIoapic id => Some id | _ => None end) es.

(** The variables after the entries [es]: the first [NCPU] processors are
    recorded, and the last I/O APIC. *)
Definition record_entries {D} (es : list entry) (s : mp_st D) : mp_st D :=
  let ids := take (NCPU - Z.to_nat (ncpu s)) (apicids es) in
  MpSt (mp_mem s) (take (Z.to_nat (ncpu s)) (cpus s) ++ ids ++ drop (Z.to_nat (ncpu s) + length ids) (cpus s))
       (ncpu s + Z.of_nat (length ids)) (default (ioapicid s) (last (ioapic_ids es))) (lapic s) (mp_dev s).

(** Every table is one or the other. *)
Lemma table_cases m e p : (∃ es, entries_at m e p es) ∨ unknown_at m e p.
Proof.
  remember (Z.to_nat (e - p)) as k eqn:Hk. revert p Hk.
  induction k as [k IH] using lt_wf_ind. intros p ->.
  destruct (decide (e ≤ p)) as [He|He]; [left; eexists; by constructor|].
  destruct (entry_at m p) as [[x n]|] eqn:Hx; [|right; constructor; [lia|done]].
  assert (0 < n).
  { unfold entry_at in Hx. repeat case_match; simplify_eq; lia. }
  destruct (IH (Z.to_nat (e - (p + n))) ltac:(lia) (p + n) eq_refl) as [[es Hes]|Hu].
  - left. exists (x :: es). econstructor; [lia|done..].
  - right. eapply unknown_later; [lia|done..].
Qed.

Section mpinit_proofs.
Context {D : Type} `{!port_io D}.
Implicit Types (s : mp_st D).

Definition cpus_ok s : Prop := 0 ≤ ncpu s ≤ Z.of_nat NCPU ∧ length (cpus s) = NCPU.

(** What one known entry does to the variables. *)
Definition record_entry (x : entry) s : mp_st D :=
  match x with
  | EProc id =>
      if ncpu s <? Z.of_nat NCPU then
        MpSt (mp_mem s) (<[Z.to_nat (ncpu s) := id]> (cpus s)) (ncpu s + 1) (ioapicid s) (lapic s) (mp_dev s)
      else s
  | EIoapic id => MpSt (mp_mem s) (cpus s) (ncpu s) id (lapic s) (mp_dev s)
  | EOther => s
  end.

Lemma record_entry_ok x s : cpus_ok s → cpus_ok (record_entry x s).
Proof.
  intros [Hn Hl]. destruct x as [id|id|]; simpl; [|done..].
  destruct (Z.ltb_spec (ncpu s) (Z.of_nat NCPU)); [|done]. split; simpl; [lia|by rewrite length_insert].
Qed.

Lemma record_entry_mem x s : mp_mem (record_entry x s) = mp_mem s.
Proof. destruct x; simpl; [by case_match|done..]. Qed.

Lemma default_last_cons (a b : Z) l : default a (last (b :: l)) = default b (last l).
Proof. destruct l as [|c l]; [done|]. cbn [last]. by destruct (last (c :: l)) eqn:E; [|apply last_None in E]. Qed.

Lemma record_entries_cons x es s : cpus_ok s →
  record_entries (x :: es) s = record_entries es (record_entry x s).
Proof.
  intros [Hn Hl]. unfold record_entries. destruct x as [id|id|]; cbn [record_entry apicids ioapic_ids omap list_omap].
  - destruct (Z.ltb_spec (ncpu s) (Z.of_nat NCPU)) as [Hlt|Hge].
    + cbn [ncpu cpus mp_mem ioapicid lapic mp_dev].
      destruct (NCPU - Z.to_nat (ncpu s))%nat as [|k] eqn:Hk; [unfold NCPU in *; lia|].
      replace (NCPU - Z.to_nat (ncpu s + 1))%nat with k by (unfold NCPU in *; lia).
      replace (Z.to_nat (ncpu s + 1)) with (S (Z.to_nat (ncpu s))) by lia.
      cbn [take length]. set (l := take k _). f_equal; [|lia].
      rewrite (take_S_r _ _ id) by (apply list_lookup_insert_eq; unfold NCPU in *; lia).
      rewrite take_insert_ge, drop_insert_lt by lia. rewrite <- app_assoc. cbn [app].
      by rewrite Nat.add_succ_r.
    + replace (NCPU - Z.to_nat (ncpu s))%nat with O by (unfold NCPU in *; lia). done.
  - cbn [ncpu cpus mp_mem ioapicid lapic mp_dev]. f_equal. fold (ioapic_ids es). apply default_last_cons.
  - done.
Qed.

Lemma mpinit_loop_known fuel p e ismp s x n : p < e → entry_at (mp_mem s) p = Some (x, n) →
  mpinit_loop (S fuel) p e ismp s = mpinit_loop fuel (u32 (p + n)) e ismp (record_entry x s).
Proof.
  intros Hp Hx. cbn [mpinit_loop]. rewrite (proj2 (Z.ltb_lt _ _) Hp), bind_gets.
  unfold entry_at in Hx. repeat case_match; simplify_eq; cbn [record_entry]; [| |done].
  - unfold add_cpu, proc_apicid. rewrite bind_assoc, bind_gets. by case_match.
  - done.
Qed.

(** An unknown entry stops the walk but not the loop. *)
Lemma mpinit_loop_stuck e : ∀ fuel p ismp s, p < e → entry_at (mp_mem s) p = None →
  mpinit_loop fuel p e ismp s = Err NoFuel s.
Proof.
  induction fuel as [|fuel IH]; intros p ismp s Hp Hx; cbn [mpinit_loop];
    rewrite (proj2 (Z.ltb_lt _ _) Hp); [done|].
  rewrite bind_gets. pose proof Hx as Hx'. unfold entry_at in Hx'. repeat case_match; try done. by apply IH.
Qed.

Lemma entry_size m p x n : entry_at m p = Some (x, n) → 8 ≤ n ≤ 20.
Proof. unfold entry_at. intros. repeat case_match; simplify_eq; lia. Qed.

Lemma mpinit_loop_entries m e p es : entries_at m e p es → ∀ fuel s ismp,
  mp_mem s = m → cpus_ok s → (length es ≤ fuel)%nat → 0 ≤ p → e + 20 < 4294967296 →
  mpinit_loop fuel p e ismp s = Ok ismp (record_entries es s).
Proof.
  induction 1 as [p He|p x n es Hp Hx Hes IH]; intros fuel s ismp Hm Hs Hf Hp0 Htop.
  - assert (record_entries [] s = s) as ->.
    { unfold record_entries. change (apicids []) with (@nil Z). rewrite take_nil.
      cbn [app length]. rewrite Nat.add_0_r, Z.add_0_r, take_drop. by destruct s. }
    destruct fuel; cbn [mpinit_loop]; by rewrite (proj2 (Z.ltb_ge _ _) He).
  - destruct fuel as [|fuel]; cbn [length] in Hf; [lia|]. rewrite <- Hm in Hx.
    pose proof (entry_size _ _ _ _ Hx).
    rewrite (mpinit_loop_known _ _ _ _ _ x n Hp Hx), record_entries_cons, u32_small by (done || lia).
    apply IH; [by rewrite record_entry_mem|by apply record_entry_ok|lia..].
Qed.

Lemma mpinit_loop_unknown m e p : unknown_at m e p → ∀ fuel s ismp,
  mp_mem s = m → 0 ≤ p → e + 20 < 4294967296 → ∃ s', mpinit_loop fuel p e ismp s = Err NoFuel s'.
Proof.
  induction 1 as [p Hp Hx|p x n Hp Hx Hu IH]; intros fuel s ismp Hm Hp0 Htop.
  - exists s. apply mpinit_loop_stuck; [done|by rewrite Hm].
  - destruct fuel as [|fuel].
    { exists s. cbn. by rewrite (proj2 (Z.ltb_lt _ _) Hp). }
    rewrite <- Hm in Hx. pose proof (entry_size _ _ _ _ Hx).
    rewrite (mpinit_loop_known _ _ _ _ _ x n Hp Hx), u32_small by lia.
    apply IH; [by rewrite record_entry_mem|lia..].
Qed.

End mpinit_proofs.

(** The structure and the table it points to pass the checks of [mpconfig]. *)
Definition table_ok (m : mem) (mp : Z) : Prop :=
  mp ≠ 0 ∧ mp_physaddr m mp ≠ 0 ∧
  let conf := P2V (mp_physaddr m mp) in
  bytes_at m conf 4 = pcmp_signature ∧
  (conf_version m conf = 1 ∨ conf_version m conf = 4) ∧
  byte_sum (bytes_at m conf (Z.to_nat (conf_length m conf))) mod 256 = 0.
#[global] Instance table_ok_dec m mp : Decision (table_ok m mp).
Proof. unfold table_ok. apply _. Defined.

Lemma mpconfig_ok m mp : mpsearch m = Some mp →
  mpconfig m = Some (if decide (table_ok m mp) then (P2V (mp_physaddr m mp), mp) else (0, 0)).
Proof.
  intros Hs. unfold mpconfig. rewrite Hs. simpl. f_equal. unfold table_ok.
  set (conf := P2V _). rewrite sum_spec. pose proof (memcmp_lit_0 m conf pcmp_signature) as Hc.
  change (length pcmp_signature) with 4%nat in Hc.
  repeat match goal with
  | |- context [?a =? ?b] => destruct (Z.eqb_spec a b); cbn [orb andb negb]
  end; case_decide; try done; exfalso; intuition congruence.
Qed.

(** The devices after the write of the IMCR, when the machine has one. *)
Definition imcr_dev {D} `{!port_io D} (m : mem) (mp : Z) (d : D) : D :=
  if mp_imcrp m mp =? 0 then d
  else let '(v, d') := dev_in 0x23 (dev_out 0x22 0x70 d) in dev_out 0x23 (u8 (Z.lor (u8 v) 1)) d'.

Definition with_lapic {D} (a : Z) (s : mp_st D) : mp_st D :=
  MpSt (mp_mem s) (cpus s) (ncpu s) (ioapicid s) a (mp_dev s).
Definition with_dev {D} (d : D) (s : mp_st D) : mp_st D :=
  MpSt (mp_mem s) (cpus s) (ncpu s) (ioapicid s) (lapic s) d.

(** *** Memory that the tables do not reach

    The run depends only on the bytes below [top] when the places that are
    searched and the table lie below it. *)

Definition with_mem {D} (m : mem) (s : mp_st D) : mp_st D :=
  MpSt m (cpus s) (ncpu s) (ioapicid s) (lapic s) (mp_dev s).

Section agree.
Variables (m m' : mem) (top : Z).
Hypothesis Heq : ∀ b, b < top → ld8 m' b = ld8 m b.

Lemma memcmp_lit_low lit : ∀ p, p + Z.of_nat (length lit) ≤ top → memcmp_lit m' p lit = memcmp_lit m p lit.
Proof.
  induction lit as [|c lit IH]; intros p Hp; [done|]. cbn [length] in Hp. cbn [memcmp_lit].
  rewrite Heq by lia. destruct (_ =? c); [|done]. apply IH. lia.
Qed.

Lemma sum_loop_low n : ∀ addr acc, addr + Z.of_nat n ≤ top → sum_loop m' addr n acc = sum_loop m addr n acc.
Proof.
  induction n as [|n IH]; intros addr acc Hn; [done|]. cbn [sum_loop]. rewrite Heq by lia. apply IH. lia.
Qed.

Lemma sum_low addr len : 0 ≤ len → addr + len ≤ top → sum m' addr len = sum m addr len.
Proof. intros H0 Hl. unfold sum. rewrite sum_loop_low; [done|lia]. Qed.

Lemma mpsearch1_loop_low fuel e : e + 16 ≤ top → ∀ p, mpsearch1_loop fuel m' p e = mpsearch1_loop fuel m p e.
Proof.
  intros He. induction fuel as [|fuel IH]; intros p; cbn [mpsearch1_loop]; destruct (Z.ltb_spec p e); try done.
  rewrite memcmp_lit_low by (cbn; lia). rewrite sum_low by (unfold sizeof_mp; lia). by rewrite IH.
Qed.

Lemma ld32_low a : a + 4 ≤ top → ld32 m' a = ld32 m a.
Proof. intros Ha. apply ld32_ext. intros b Hb. apply Heq. lia. Qed.

Lemma mpinit_loop_low {D} `{!port_io D} e : e < top → ∀ fuel p ismp (s s1 : mp_st D) b, mp_mem s = m →
  mpinit_loop fuel p e ismp s = Ok b s1 →
  mp_mem s1 = m ∧ mpinit_loop fuel p e ismp (with_mem m' s) = Ok b (with_mem m' s1).
Proof.
  intros He. induction fuel as [|fuel IH]; intros p ismp s s1 b Hs; cbn [mpinit_loop];
    (destruct (Z.ltb_spec p e) as [Hp|]; [|by intros [= <- <-]]); [done|].
  rewrite !bind_gets. cbn [with_mem mp_mem]. rewrite Hs. unfold proc_apicid, ioapic_apicno. rewrite !Heq by lia.
  destruct (_ =? MPPROC).
  - unfold add_cpu. rewrite !bind_assoc, !bind_gets. cbn [with_mem ncpu]. destruct (_ <? _).
    + rewrite !bind_modify. intros H. by apply (IH _ _ (MpSt _ _ _ _ _ _)) in H.
    + rewrite !bind_ret. by apply IH.
  - destruct (_ =? MPIOAPIC).
    + unfold set_ioapicid. rewrite !bind_modify. intros H. by apply (IH _ _ (MpSt _ _ _ _ _ _)) in H.
    + destruct (_ || _); by apply IH.
Qed.

End agree.

(** Where [mpinit] looks on memory [m]. *)
Definition low_tables (m : mem) (top : Z) : Prop :=
  let bda := P2V 0x400 in
  let ebda := Z.shiftl (Z.lor (Z.shiftl (ld8 m (bda + 0x0F)) 8) (ld8 m (bda + 0x0E))) 4 in
  let base := Z.lor (Z.shiftl (ld8 m (bda + 0x14)) 8) (ld8 m (bda + 0x13)) * 1024 in
  P2V 0x100000 + 16 ≤ top ∧ u32 (P2V ebda + 1024) + 16 ≤ top ∧ u32 (P2V (u32 (base - 1024)) + 1024) + 16 ≤ top ∧
  ∀ mp, mpsearch m = Some mp → mp + 16 ≤ top ∧
    let conf := P2V (mp_physaddr m mp) in conf + 44 ≤ top ∧ conf + conf_length m conf < top ∧ u32 (conf + conf_length m conf) < top.

Lemma mpconfig_low m m' top : low_tables m top → (∀ b, b < top → ld8 m' b = ld8 m b) → mpconfig m' = mpconfig m.
Proof.
  intros (H1 & H2 & H3 & H4) Heq.
  assert (Hs : mpsearch m' = mpsearch m).
  { unfold mpsearch. rewrite !Heq by (change (P2V 0x100000) with 0x80100000 in H1; change (P2V 0x400) with 0x80000400; lia).
    unfold mpsearch1. rewrite !(mpsearch1_loop_low m m' top Heq); [done| |done|done].
    change (u32 (P2V 0xF0000 + 0x10000)) with (P2V 0x100000). done. }
  unfold mpconfig. rewrite Hs. destruct (mpsearch m) as [mp|] eqn:E; [|done]. cbn [mbind option_bind].
  destruct (H4 mp eq_refl) as (Hmp & Hc & Hl & _).
  assert (Hpa : mp_physaddr m' mp = mp_physaddr m mp) by (apply (ld32_low m m' top Heq); lia). rewrite !Hpa.
  set (conf := P2V (mp_physaddr m mp)) in *. unfold conf_version, conf_length in *. rewrite !Heq by lia.
  rewrite (memcmp_lit_low m m' top Heq) by (cbn; lia).
  pose proof (ld8_range m (conf + 4)). pose proof (ld8_range m (conf + 5)).
  rewrite (sum_low m m' top Heq); [done|lia|lia].
Qed.

Lemma mpinit_low {D} `{!port_io D} fuel (s s1 : mp_st D) m' top : low_tables (mp_mem s) top →
  (∀ b, b < top → ld8 m' b = ld8 (mp_mem s) b) → mpinit fuel s = Ok tt s1 →
  mpinit fuel (with_mem m' s) = Ok tt (with_mem m' s1).
Proof.
  intros Hlow Heq. unfold mpinit. rewrite !bind_gets. cbn [with_mem mp_mem]. set (m := mp_mem s) in *.
  rewrite (mpconfig_low m m' top Hlow Heq). destruct (mpconfig m) as [[conf mp]|] eqn:E; [|done].
  destruct (Z.eqb_spec conf 0) as [|Hc0]; [done|]. unfold mpconfig in E. destruct (mpsearch m) as [mp0|] eqn:Es; [|done].
  cbn [mbind option_bind] in E. destruct Hlow as (_ & _ & _ & H4). destruct (H4 mp0 Es) as (Hmp & Hc & Hl & Hu).
  assert (conf = P2V (mp_physaddr m mp0) ∧ mp = mp0) as [-> ->].
  { repeat (case_match; try (injection E as <- <-; done)); injection E as <- <-; done. }
  assert (Hla : conf_lapicaddr m' (P2V (mp_physaddr m mp0)) = conf_lapicaddr m (P2V (mp_physaddr m mp0)))
    by (apply (ld32_low m m' top Heq); lia).
  assert (Hcl : conf_length m' (P2V (mp_physaddr m mp0)) = conf_length m (P2V (mp_physaddr m mp0)))
    by (unfold conf_length; rewrite !Heq by lia; done).
  assert (Him : mp_imcrp m' mp0 = mp_imcrp m mp0) by (apply Heq; lia).
  rewrite Hla, Hcl, Him. unfold set_lapic. rewrite !bind_modify. cbn [with_mem mp_mem cpus ncpu ioapicid mp_dev].
  intros H. apply bind_inv in H as (ismp & s2 & Hloop & H).
  destruct (mpinit_loop_low m m' top Heq _ Hu fuel _ true (MpSt m _ _ _ _ _) s2 ismp eq_refl Hloop) as [Hm2 Hloop'].
  cbn [with_mem cpus ncpu ioapicid lapic mp_dev] in Hloop'. rewrite (bind_ok _ _ _ _ _ Hloop').
  revert H. destruct ismp; [cbn [negb]|done]. destruct (negb (mp_imcrp m mp0 =? 0)); [|by intros [= <-]].
  unfold mp_ports, zoom. cbn [mp_dev with_mem]. destruct (bind _ _ (mp_dev s2)) as [[] d'|]; [|done]. by intros [= <-].
Qed.

(** [cpus] is never overrun. *)
Lemma mpinit_loop_cpus {D} `{!port_io D} e : ∀ fuel p ismp (s s1 : mp_st D) b, cpus_ok s →
  mpinit_loop fuel p e ismp s = Ok b s1 → cpus_ok s1.
Proof.
  induction fuel as [|fuel IH]; intros p ismp s s1 b Hs; cbn [mpinit_loop];
    (destruct (_ <? _); [|by intros [= _ <-]]); [done|].
  rewrite bind_gets. cbv zeta. destruct (_ =? MPPROC).
  - unfold add_cpu. rewrite bind_assoc, bind_gets. destruct (Z.ltb_spec (ncpu s) (Z.of_nat NCPU)).
    + rewrite bind_modify. apply IH. destruct Hs. split; simpl; [lia|by rewrite length_insert].
    + rewrite bind_ret. by apply IH.
  - destruct (_ =? MPIOAPIC); [unfold set_ioapicid; rewrite bind_modify; by apply IH|]. destruct (_ || _); by apply IH.
Qed.

Lemma mpinit_cpus {D} `{!port_io D} fuel (s s1 : mp_st D) : cpus_ok s → mpinit fuel s = Ok tt s1 → cpus_ok s1.
Proof.
  intros Hs. unfold mpinit. rewrite bind_gets. destruct (mpconfig _) as [[conf mp]|]; [|done]. destruct (conf =? 0); [done|].
  unfold set_lapic. rewrite bind_modify. intros H. apply bind_inv in H as (ismp & s2 & Hl & H).
  apply mpinit_loop_cpus in Hl; [|done]. revert H. destruct ismp; [cbn [negb]|done].
  destruct (negb (mp_imcrp _ _ =? 0)); [|by intros [= <-]].
  unfold mp_ports, zoom. destruct (bind _ _ (mp_dev s2)) as [[] d'|]; [|done]. by intros [= <-].
Qed.

(** C40. [mpinit] on any memory.  The search ends, with the first floating
    structure of the places the BIOS data area names or of the ROM, if any.
    Without one, or with a configuration table that fails a check, [mpinit]
    panics.  When every entry of the table has a type of the specification,
    [mpinit] returns with the address of the local APIC, the APIC ids of the
    first eight processors in table order, the id of the last I/O APIC and the
    IMCR set where there is one.  When an entry has another type it neither
    returns nor reaches its panic, whatever the fuel. *)
Theorem mpinit_correct {D} `{!port_io D} (s : mp_st D) : cpus_ok s →
  let m := mp_mem s in
  ∃ mp, mpsearch m = Some mp ∧ search_spec m mp ∧
    let conf := P2V (mp_physaddr m mp) in
    let first := conf + sizeof_mpconf in
    let e := conf + conf_length m conf in
    if decide (table_ok m mp) then
      mp_physaddr m mp < 0x7FFE0000 →
      (∀ es fuel, entries_at m e first es → (length es ≤ fuel)%nat →
         mpinit fuel s =
         Ok tt (with_dev (imcr_dev m mp (mp_dev s)) (record_entries es (with_lapic (conf_lapicaddr m conf) s)))) ∧
      (∀ fuel, unknown_at m e first → ∃ s', mpinit fuel s = Err NoFuel s')
    else ∀ fuel, mpinit fuel s = Err (Panic "Expect to run on an SMP") s.
Proof.
  intros Hs m. destruct (mpsearch_ok m) as (mp & Hmp & Hspec). exists mp. do 2 (split; [done|]).
  intros conf first e. pose proof (mpconfig_ok m mp Hmp) as Hc. fold conf in Hc.
  case_decide as Hok; [|intros fuel; unfold mpinit; rewrite bind_gets; fold m; by rewrite Hc].
  intros Hlow. pose proof (ld32_range m (mp + 4)) as Hr. fold (mp_physaddr m mp) in Hr.
  assert (Hconf : conf = mp_physaddr m mp + 0x80000000)
    by (unfold conf, P2V, KERNBASE; rewrite u32_small; lia).
  pose proof (ld8_range m (conf + 4)). pose proof (ld8_range m (conf + 5)).
  assert (Hlen : 0 ≤ conf_length m conf < 65536) by (unfold conf_length; lia).
  assert (Hstart : ∀ fuel, mpinit fuel s =
    (ismp <- mpinit_loop fuel first e true ;;
     if negb ismp then panic "Didn't find a suitable machine"
     else if negb (mp_imcrp m mp =? 0)
     then mp_ports (outb 0x22 0x70 ;;; v <- inb 0x23 ;; outb 0x23 (Z.lor v 1)) else ret tt)
      (with_lapic (conf_lapicaddr m conf) s)).
  { intros fuel. unfold mpinit. rewrite bind_gets. fold m. rewrite Hc, (proj2 (Z.eqb_neq _ _)) by lia.
    unfold set_lapic. rewrite bind_modify. unfold first, e, sizeof_mpconf. by rewrite !u32_small by lia. }
  split.
  - intros es fuel Hes Hf. rewrite Hstart.
    rewrite (bind_ok _ _ _ _ _ (mpinit_loop_entries m e first es Hes fuel
      (with_lapic (conf_lapicaddr m conf) s) true eq_refl Hs Hf
      ltac:(unfold first, sizeof_mpconf; lia) ltac:(unfold e; lia))).
    unfold imcr_dev. cbn [negb]. destruct (mp_imcrp m mp =? 0); [done|]. cbn [negb].
    unfold mp_ports, zoom, bind, inb, outb. cbn [mp_dev record_entries with_lapic u8].
    change (u8 0x70) with 0x70. by destruct (dev_in 0x23 _).
  - intros fuel Hu. rewrite Hstart.
    destruct (mpinit_loop_unknown m e first Hu fuel (with_lapic (conf_lapicaddr m conf) s) true eq_refl
      ltac:(unfold first, sizeof_mpconf; lia) ltac:(unfold e; lia)) as [s' Hs'].
    exists s'. by apply bind_err.
Qed.

(** A machine with two processors, a bus and an I/O APIC: the structure in the
    ROM area and the table below it. *)
Definition demo_fps : list Z :=
  mp_signature ++ [0; 0x10; 0x0F; 0] ++ [1; 4; 0x81; 0; 0; 0; 0; 0].
Definition demo_header : list Z :=
  pcmp_signature ++ [100; 0; 4; 0x7B] ++ replicate 20 0 ++ [0; 0; 0; 0] ++ [0; 0; 4; 0] ++
  [0; 0; 0xE0; 0xFE] ++ [0; 0; 0; 0].
Definition demo_entries : list Z :=
  (0 :: 0 :: replicate 18 0) ++ (0 :: 1 :: replicate 18 0) ++ (1 :: replicate 7 0) ++
  (2 :: 7 :: replicate 6 0).
Definition demo_mem : mem :=
  store_bytes (store_bytes ∅ (P2V 0xF0010) demo_fps) (P2V 0xF1000) (demo_header ++ demo_entries).
#[local] Existing Instance quiet_env.
Definition demo_mp : mp_st history := MpSt demo_mem (replicate 8 0) 0 0 0 [].

Lemma demo_mp_entries : entries_at demo_mem (P2V 0xF1000 + 100) (P2V 0xF1000 + 44)
  [EProc 0; EProc 1; EOther; EIoapic 7].
Proof.
  do 4 (eapply entries_next; [vm_compute; reflexivity| vm_compute; reflexivity |]).
  constructor. vm_compute. congruence.
Qed.

Lemma mpinit_correct_witness :
  cpus_ok demo_mp ∧
  ∃ s', mpinit 10 demo_mp = Ok tt s' ∧ ncpu s' = 2 ∧ take 2 (cpus s') = [0; 1] ∧
    ioapicid s' = 7 ∧ lapic s' = 0xFEE00000.
Proof.
  assert (Hs : cpus_ok demo_mp) by (split; cbn; [lia|done]).
  split; [exact Hs|].
  destruct (mpinit_correct demo_mp Hs) as (mp & Hmp & _ & H).
  assert (mp = P2V 0xF0010) as ->.
  { enough (Some mp = Some (P2V 0xF0010)) by congruence. rewrite <- Hmp. vm_compute. reflexivity. }
  assert (Hok : table_ok (mp_mem demo_mp) (P2V 0xF0010)).
  { apply (bool_decide_eq_true_1 (table_ok demo_mem (P2V 0xF0010))). vm_compute. reflexivity. }
  rewrite decide_True in H by exact Hok.
  destruct H as [H _]; [vm_compute; reflexivity|].
  assert (Hconf : P2V (mp_physaddr (mp_mem demo_mp) (P2V 0xF0010)) = P2V 0xF1000) by (vm_compute; reflexivity).
  rewrite Hconf in H.
  assert (Hlen : conf_length (mp_mem demo_mp) (P2V 0xF1000) = 100) by (vm_compute; reflexivity).
  rewrite Hlen in H. eexists. split; [apply (H _ 10%nat demo_mp_entries); cbn; lia|].
  split; [|split; [|split]]; vm_compute; reflexivity.
Defined.
