(* ===== verification/Lapic.v ===== *)
(** The local APIC, the start of other processors and the clock: lapic.c

    The registers are 32-bit words from the address [lapic] on, the CMOS clock
    is behind two ports.  [lapic] is the variable that mp.c sets ([Mp.lapic]).

    The clock goes on while [cmostime] reads it, a register at a time.  The
    class [rtc] states what is relied on: a register read gives the field of the
    date at that moment.  The theorem is that the date returned is one that the
    clock showed, not a mixture of two. *)

From stdpp Require Import gmap list numbers strings.
From Stdlib Require Import ZArith Lia.
From S2P Require Import Prelude Mem Memlayout Dev Trap.

(** Registers, as indices of an array of [uint]. *)
Definition ID : Z := 0x0020 / 4.
Definition VER : Z := 0x0030 / 4.
Definition TPR : Z := 0x0080 / 4.
Definition EOI : Z := 0x00B0 / 4.
Definition SVR : Z := 0x00F0 / 4.
Definition ENABLE : Z := 0x00000100.
Definition ESR : Z := 0x0280 / 4.
Definition ICRLO : Z := 0x0300 / 4.
Definition INIT : Z := 0x00000500.
Definition STARTUP : Z := 0x00000600.
Definition DELIVS : Z := 0x00001000.
Definition ASSERT : Z := 0x00004000.
Definition LEVEL : Z := 0x00008000.
Definition BCAST : Z := 0x00080000.
Definition ICRHI : Z := 0x0310 / 4.
Definition TIMER : Z := 0x0320 / 4.
Definition X1 : Z := 0x0000000B.
Definition PERIODIC : Z := 0x00020000.
Definition PCINT : Z := 0x0340 / 4.
Definition LINT0 : Z := 0x0350 / 4.
Definition LINT1 : Z := 0x0360 / 4.
Definition ERROR : Z := 0x0370 / 4.
Definition MASKED : Z := 0x00010000.
Definition TICR : Z := 0x0380 / 4.
Definition TDCR : Z := 0x03E0 / 4.
Definition IRQ_ERROR : Z := 19.

Definition CMOS_PORT : Z := 0x70.
Definition CMOS_RETURN : Z := 0x71.

Section apic.
Context {D : Type} `{!mmio D}.
Variable lapic : Z.

(** [lapic[index]] *)
Definition lapicr (index : Z) : M D Z := vld (lapic + 4 * index).

(** lapic.c: [lapicw]. *)
Definition lapicw (index value : Z) : M D unit :=
  vst (lapic + 4 * index) value ;;; lapicr ID ;;; ret tt.

(** The loop of [lapicinit] that waits for the delivery. *)
Fixpoint wait_delivery (fuel : nat) : M D unit :=
  match fuel with
  | O => fail NoFuel
  | S fuel' => v <- lapicr ICRLO ;; if negb (Z.land v DELIVS =? 0) then wait_delivery fuel' else ret tt
  end.

(** lapic.c: [lapicinit]. *)
Definition lapicinit (fuel : nat) : M D unit :=
  if lapic =? 0 then ret tt
  else
    lapicw SVR (Z.lor ENABLE (T_IRQ0 + IRQ_SPURIOUS)) ;;;
    lapicw TDCR X1 ;;;
    lapicw TIMER (Z.lor PERIODIC (T_IRQ0 + IRQ_TIMER)) ;;;
    lapicw TICR 10000000 ;;;
    lapicw LINT0 MASKED ;;;
    lapicw LINT1 MASKED ;;;
    v <- lapicr VER ;;
    (if 4 <=? Z.land (Z.shiftr v 16) 0xFF then lapicw PCINT MASKED else ret tt) ;;;
    lapicw ERROR (T_IRQ0 + IRQ_ERROR) ;;;
    lapicw ESR 0 ;;;
    lapicw ESR 0 ;;;
    lapicw EOI 0 ;;;
    lapicw ICRHI 0 ;;;
    lapicw ICRLO (Z.lor (Z.lor BCAST INIT) LEVEL) ;;;
    wait_delivery fuel ;;;
    lapicw TPR 0.

(** lapic.c: [lapicid]. *)
Definition lapicid : M D Z :=
  if lapic =? 0 then ret 0 else v <- lapicr ID ;; ret (Z.shiftr v 24).

(** lapic.c: [lapiceoi]. *)
Definition lapiceoi : M D unit := if negb (lapic =? 0) then lapicw EOI 0 else ret tt.

(** lapic.c: [microdelay]. *)
Definition microdelay (us : Z) : M D unit := ret tt.

(** The loop of [lapicstartap] that sends the startup interrupts. *)
Fixpoint send_startup (n : nat) (apicid addr : Z) : M D unit :=
  match n with
  | O => ret tt
  | S n' =>
      lapicw ICRHI (Z.shiftl apicid 24) ;;;
      lapicw ICRLO (Z.lor STARTUP (Z.shiftr addr 12)) ;;;
      microdelay 200 ;;;
      send_startup n' apicid addr
  end.

(** [ushort] store. *)
Definition st16 (m : mem) (a v : Z) : mem := st8 (st8 m a v) (a + 1) (v / 256).

(** lapic.c: [lapicstartap], on memory and the devices. *)
Definition lapicstartap `{!port_io D} (apicid addr : Z) : M (mem * D) unit :=
  let dev {A} (f : M D A) : M (mem * D) A := zoom snd (λ d s, (s.1, d)) f in
  dev (outb CMOS_PORT 0xF) ;;;
  dev (outb (CMOS_PORT + 1) 0x0A) ;;;
  let wrv := P2V (Z.lor (Z.shiftl 0x40 4) 0x67) in
  modify (λ s, (st16 s.1 wrv 0, s.2)) ;;;
  modify (λ s, (st16 s.1 (wrv + 2) (Z.shiftr addr 4), s.2)) ;;;
  dev (lapicw ICRHI (Z.shiftl apicid 24)) ;;;
  dev (lapicw ICRLO (Z.lor (Z.lor INIT LEVEL) ASSERT)) ;;;
  dev (microdelay 200) ;;;
  dev (lapicw ICRLO (Z.lor INIT LEVEL)) ;;;
  dev (microdelay 100) ;;;
  dev (send_startup 2 apicid addr).

End apic.

(** ** The clock *)

(** date.h: [struct rtcdate]. *)
Record rtcdate := Rtcdate {
  second : Z; minute : Z; hour : Z; day : Z; month : Z; year : Z
}.
#[global] Instance rtcdate_eq_dec : EqDecision rtcdate.
Proof. solve_decision. Defined.

Definition CMOS_STATA : Z := 0x0a.
Definition CMOS_STATB : Z := 0x0b.
Definition CMOS_UIP : Z := Z.shiftl 1 7.
Definition SECS : Z := 0x00.
Definition MINS : Z := 0x02.
Definition HOURS : Z := 0x04.
Definition DAY : Z := 0x07.
Definition MONTH : Z := 0x08.
Definition YEAR : Z := 0x09.

(** The macro [CONV]. *)
Definition CONV (x : Z) : Z := u32 (Z.shiftr x 4 * 10 + Z.land x 0xf).

Section clock.
Context {D : Type} `{!port_io D}.

(** lapic.c: [cmos_read]. *)
Definition cmos_read (reg : Z) : M D Z :=
  outb CMOS_PORT reg ;;; microdelay 200 ;;; inb CMOS_RETURN.

(** lapic.c: [fill_rtcdate]. *)
Definition fill_rtcdate : M D rtcdate :=
  s <- cmos_read SECS ;;
  m <- cmos_read MINS ;;
  h <- cmos_read HOURS ;;
  d <- cmos_read DAY ;;
  mo <- cmos_read MONTH ;;
  y <- cmos_read YEAR ;;
  ret (Rtcdate s m h d mo y).

(** The loop of [cmostime]: the [memcmp] of the two structures is 0 when they
    are equal. *)
Fixpoint read_twice (fuel : nat) : M D rtcdate :=
  match fuel with
  | O => fail NoFuel
  | S fuel' =>
      t1 <- fill_rtcdate ;;
      a <- cmos_read CMOS_STATA ;;
      if negb (Z.land a CMOS_UIP =? 0) then read_twice fuel'
      else
        t2 <- fill_rtcdate ;;
        if bool_decide (t1 = t2) then ret t1 else read_twice fuel'
  end.

(** lapic.c: [cmostime]; the date is returned. *)
Definition cmostime (fuel : nat) : M D rtcdate :=
  sb <- cmos_read CMOS_STATB ;;
  let bcd := Z.land sb (Z.shiftl 1 2) =? 0 in
  t1 <- read_twice fuel ;;
  let t1 := if bcd then Rtcdate (CONV (second t1)) (CONV (minute t1)) (CONV (hour t1))
                                (CONV (day t1)) (CONV (month t1)) (CONV (year t1)) else t1 in
  ret (Rtcdate (second t1) (minute t1) (hour t1) (day t1) (month t1) (u32 (year t1 + 2000))).

End clock.

(** ** What the clock does *)

(** A read of a clock register: select, then read. *)
Definition regread {D} `{!port_io D} (reg : Z) (d : D) : Z * D :=
  let '(v, d') := dev_in CMOS_RETURN (dev_out CMOS_PORT reg d) in (u8 v, d').

Definition rtc_fields : list (Z * (rtcdate → Z)) :=
  [(SECS, second); (MINS, minute); (HOURS, hour); (DAY, day); (MONTH, month); (YEAR, year)].

(** Binary-coded decimal: two digits in the halves of a byte. *)
Definition to_bcd (x : Z) : Z := 16 * (x / 10) + x mod 10.

Definition map_date (f : Z → Z) (t : rtcdate) : rtcdate :=
  Rtcdate (f (second t)) (f (minute t)) (f (hour t)) (f (day t)) (f (month t)) (f (year t)).

(** The clock shows [date k] after [k] updates, in decimal digits unless bit 2
    of status register B is set.  A read gives a field of the date of that
    moment; no read takes as long as eight updates.  The seconds go round after
    60 updates.  [calm d n]: no update happens or is announced during the next
    [n] reads. *)
Class rtc (D : Type) `{!port_io D} := {
  updates : D → nat;
  date : nat → rtcdate;
  binary : bool;
  calm : D → nat → Prop;
  encode x := if binary then x else to_bcd x;
  rtc_updates reg (d : D) : (updates d ≤ updates (regread reg d).2 ≤ updates d + 8)%nat;
  rtc_field reg f (d : D) : (reg, f) ∈ rtc_fields →
    (regread reg d).1 = encode (f (date (updates (regread reg d).2)));
  rtc_mode (d : D) : (Z.land (regread CMOS_STATB d).1 (Z.shiftl 1 2) =? 0) = negb binary;
  rtc_range reg f k : (reg, f) ∈ rtc_fields → 0 ≤ f (date k) < 100;
  rtc_seconds k j : (0 < j < 60)%nat → second (date (k + j)) ≠ second (date k);
  rtc_calm reg (d : D) n : calm d (S n) →
    calm (regread reg d).2 n ∧ updates (regread reg d).2 = updates d;
  rtc_uip (d : D) n : calm d (S n) → Z.land (regread CMOS_STATA d).1 CMOS_UIP = 0
}.

Lemma CONV_to_bcd x : 0 ≤ x < 100 → CONV (to_bcd x) = x.
Proof.
  intros Hx. unfold CONV, to_bcd. change 0xf with (Z.ones 4).
  rewrite Z.land_ones, Z.shiftr_div_pow2 by lia. change (2 ^ 4) with 16. zlia.
Qed.

Section clock_proofs.
Context {D : Type} `{!port_io D} `{!rtc D}.
Implicit Types (d : D) (t : rtcdate).

Lemma encode_inj x y : 0 ≤ x < 100 → 0 ≤ y < 100 → encode x = encode y → x = y.
Proof.
  unfold encode. destruct binary; [done|]. intros Hx Hy E.
  by rewrite <- (CONV_to_bcd x), <- (CONV_to_bcd y), E.
Qed.

Lemma cmos_read_run reg d : 0 ≤ reg < 256 →
  cmos_read reg d = Ok (regread reg d).1 (regread reg d).2.
Proof.
  intros. unfold cmos_read, regread, bind, microdelay, ret, inb, outb. rewrite u8_small by done.
  by destruct (dev_in _ _).
Qed.

(** The states of the clock during [fill_rtcdate], one per register. *)
Definition fill_states d : list D :=
  let d1 := (regread SECS d).2 in let d2 := (regread MINS d1).2 in let d3 := (regread HOURS d2).2 in
  let d4 := (regread DAY d3).2 in let d5 := (regread MONTH d4).2 in
  [d1; d2; d3; d4; d5; (regread YEAR d5).2].
Definition fill_end d : D := default d (fill_states d !! 5%nat).
Definition fill_date d : rtcdate :=
  let fld i f := encode (f (date (updates (default d (fill_states d !! i))))) in
  Rtcdate (fld 0%nat second) (fld 1%nat minute) (fld 2%nat hour) (fld 3%nat day) (fld 4%nat month) (fld 5%nat year).

Lemma fill_rtcdate_run d : fill_rtcdate d = Ok (fill_date d) (fill_end d).
Proof.
  unfold fill_rtcdate.
  do 6 (erewrite bind_ok by (apply cmos_read_run; done)).
  unfold ret, fill_date, fill_end, fill_states. cbn [lookup list_lookup default from_option id].
  f_equal. f_equal; apply rtc_field; unfold rtc_fields; repeat constructor.
Qed.

(** No register is read before the seconds. *)
Lemma fill_states_mono d i x : fill_states d !! i = Some x →
  (updates d ≤ updates (regread SECS d).2 ≤ updates x)%nat ∧
  (updates x ≤ updates (fill_end d) ≤ updates (regread SECS d).2 + 40)%nat.
Proof.
  unfold fill_end, fill_states. cbn [lookup list_lookup default from_option id].
  pose proof (rtc_updates SECS d). set (d1 := (regread SECS d).2) in *.
  pose proof (rtc_updates MINS d1). set (d2 := (regread MINS d1).2) in *.
  pose proof (rtc_updates HOURS d2). set (d3 := (regread HOURS d2).2) in *.
  pose proof (rtc_updates DAY d3). set (d4 := (regread DAY d3).2) in *.
  pose proof (rtc_updates MONTH d4). set (d5 := (regread MONTH d4).2) in *.
  pose proof (rtc_updates YEAR d5). set (d6 := (regread YEAR d5).2) in *.
  intros Hx. do 6 (destruct i as [|i]; [cbn in Hx; simplify_eq; lia|]). done.
Qed.

(** A pass during which no update happens after the seconds were read is a
    snapshot. *)
Lemma fill_date_snapshot d : updates (fill_end d) = updates (regread SECS d).2 →
  fill_date d = map_date encode (date (updates (regread SECS d).2)).
Proof.
  intros He. unfold fill_date, map_date.
  assert (Hi : ∀ i, (i < 6)%nat → updates (default d (fill_states d !! i)) = updates (regread SECS d).2).
  { intros i Hi. destruct (lookup_lt_is_Some_2 (fill_states d) i Hi) as [x Hx]. rewrite Hx. simpl.
    pose proof (fill_states_mono d i x Hx). lia. }
  rewrite !Hi by lia. done.
Qed.

Lemma fill_end_bounds d : (updates d ≤ updates (regread SECS d).2 ≤ updates (fill_end d))%nat ∧
  (updates (fill_end d) ≤ updates (regread SECS d).2 + 40)%nat.
Proof. pose proof (fill_states_mono d 0 _ eq_refl). lia. Qed.

(** Two passes that agree: the first one is a snapshot. *)
Lemma two_passes d d2 : (updates (fill_end d) ≤ updates d2 ≤ updates (fill_end d) + 8)%nat →
  fill_date d = fill_date d2 → updates (fill_end d) = updates (regread SECS d).2.
Proof.
  intros Hd2 E. pose proof (fill_end_bounds d). pose proof (rtc_updates SECS d2).
  set (k := updates (regread SECS d).2) in *. set (k2 := updates (regread SECS d2).2) in *.
  assert (Hs : second (date k2) = second (date k)).
  { apply (f_equal second) in E. symmetry.
    eapply encode_inj; [..|exact E]; apply (rtc_range SECS); left. }
  destruct (decide (k2 = k)); [lia|].
  exfalso. apply (rtc_seconds k (k2 - k)); [lia|]. by replace (k + (k2 - k))%nat with k2 by lia.
Qed.

Lemma read_twice_snapshot : ∀ fuel d t d', read_twice fuel d = Ok t d' →
  ∃ k, (updates d ≤ k ≤ updates d')%nat ∧ t = map_date encode (date k).
Proof.
  induction fuel as [|fuel IH]; intros d t d' Hrun; cbn [read_twice] in Hrun; [done|].
  rewrite (bind_ok _ _ _ _ _ (fill_rtcdate_run d)) in Hrun.
  rewrite (bind_ok _ _ _ _ _ (cmos_read_run CMOS_STATA (fill_end d) ltac:(done))) in Hrun.
  pose proof (fill_end_bounds d). pose proof (rtc_updates CMOS_STATA (fill_end d)).
  set (d2 := (regread CMOS_STATA (fill_end d)).2) in *.
  destruct (negb _).
  { apply IH in Hrun as (k & Hk & ->). exists k. split; [lia|done]. }
  rewrite (bind_ok _ _ _ _ _ (fill_rtcdate_run d2)) in Hrun. pose proof (fill_end_bounds d2).
  case_bool_decide as E.
  - injection Hrun as <- <-. pose proof (two_passes d d2 ltac:(lia) E) as He.
    exists (updates (regread SECS d).2). split; [lia|]. by apply fill_date_snapshot.
  - apply IH in Hrun as (k & Hk & ->). exists k. split; [lia|done].
Qed.

(** Reads of a calm clock. *)
Lemma calm_fill d n : calm d (6 + n) → calm (fill_end d) n ∧ updates (fill_end d) = updates d.
Proof.
  intros H0. cbn [Nat.add] in H0. unfold fill_end, fill_states. cbn [lookup list_lookup default from_option id].
  do 6 (match goal with H : calm ?x (S _) |- context [regread ?r ?x] =>
    let C := fresh "C" in let U := fresh "U" in
    destruct (rtc_calm r x _ H) as [C U]; clear H; set (regread r x).2 in * end).
  split; [done|congruence].
Qed.

Lemma calm_read_twice fuel d : calm d 13 → ∃ t d', read_twice (S fuel) d = Ok t d'.
Proof.
  intros Hc. cbn [read_twice]. rewrite (bind_ok _ _ _ _ _ (fill_rtcdate_run d)).
  destruct (calm_fill d 7 Hc) as [C1 U1].
  rewrite (bind_ok _ _ _ _ _ (cmos_read_run CMOS_STATA (fill_end d) ltac:(done))).
  rewrite (rtc_uip _ _ C1). cbn [Z.eqb negb].
  destruct (rtc_calm CMOS_STATA _ _ C1) as [C2 U2]. set (d2 := (regread _ _).2) in *.
  rewrite (bind_ok _ _ _ _ _ (fill_rtcdate_run d2)). destruct (calm_fill d2 0 C2) as [_ U3].
  pose proof (fill_end_bounds d). pose proof (fill_end_bounds d2).
  rewrite !fill_date_snapshot by lia.
  replace (updates (regread SECS d2).2) with (updates (regread SECS d).2) by lia.
  rewrite bool_decide_eq_true_2 by done. by eexists _, _.
Qed.

End clock_proofs.

(** The date with the century. *)
Definition full_date (t : rtcdate) : rtcdate :=
  Rtcdate (second t) (minute t) (hour t) (day t) (month t) (year t + 2000).

(** The date [cmostime] returns is one that the clock showed between the
    call and the return, all six fields of the same moment and converted from
    decimal digits where the clock uses them, whenever its updates fall between
    the register reads.  It returns as soon as the clock stays calm for a
    round. *)
Theorem cmostime_correct {D} `{!port_io D} `{!rtc D} (d : D) fuel :
  (∀ r d', cmostime fuel d = Ok r d' →
     ∃ k, (updates d ≤ k ≤ updates d')%nat ∧ r = full_date (date k)) ∧
  ((0 < fuel)%nat → calm d 14 → ∃ r d', cmostime fuel d = Ok r d').
Proof.
  pose proof (rtc_updates CMOS_STATB d) as Hu.
  split.
  - intros r d' Hrun. unfold cmostime in Hrun.
    rewrite (bind_ok _ _ _ _ _ (cmos_read_run CMOS_STATB d ltac:(done))), rtc_mode in Hrun.
    apply bind_inv in Hrun as (t & d2 & Ht & Hrun).
    apply read_twice_snapshot in Ht as (k & Hk & ->). injection Hrun as <- <-.
    exists k. split; [lia|]. unfold full_date, map_date.
    assert (Hr : ∀ f, f ∈ rtc_fields.*2 → 0 ≤ f (date k) < 100).
    { intros f Hf. apply list_elem_of_fmap in Hf as ([reg f'] & -> & Hf). by apply (rtc_range reg). }
    assert (Hc : ∀ f, f ∈ rtc_fields.*2 →
      (if negb binary then CONV (encode (f (date k))) else encode (f (date k))) = f (date k)).
    { intros f Hf. unfold encode. destruct binary; cbn [negb]; [done|]. by apply CONV_to_bcd, Hr. }
    assert (Hy : year ∈ rtc_fields.*2) by (unfold rtc_fields; cbn; repeat constructor).
    pose proof (Hr _ Hy).
    destruct binary; cbn [negb second minute hour day month year] in *;
      rewrite (Hc second), (Hc minute), (Hc hour), (Hc day), (Hc month), (Hc year), u32_small
        by (lia || (unfold rtc_fields; cbn; repeat constructor)); done.
  - intros Hf Hc. destruct fuel as [|fuel]; [lia|]. unfold cmostime.
    rewrite (bind_ok _ _ _ _ _ (cmos_read_run CMOS_STATB d ltac:(done))).
    destruct (rtc_calm CMOS_STATB _ _ Hc) as [C _].
    destruct (calm_read_twice fuel _ C) as (t & d' & Hrun).
    rewrite (bind_ok _ _ _ _ _ Hrun). by eexists _, _.
Qed.

(** A clock that is updated every twentieth read. *)
Record demo_clock := DemoClock { sel : Z; reads : nat }.
Definition demo_date (k : nat) : rtcdate :=
  let k := Z.of_nat k in
  Rtcdate (k mod 60) (k / 60 mod 60) (k / 3600 mod 24) (1 + k / 86400 mod 28) 11 26.
Definition demo_reg (reg : Z) (k : nat) : Z :=
  match list_find (λ x, x.1 = reg) rtc_fields with
  | Some (_, (_, f)) => to_bcd (f (demo_date k))
  | None => 0
  end.
#[local] Instance demo_ports : port_io demo_clock := {
  dev_in p d := if p =? CMOS_RETURN then (demo_reg (sel d) (S (reads d) / 20), DemoClock (sel d) (S (reads d)))
                else (0, d);
  dev_out p v d := if p =? CMOS_PORT then DemoClock v (reads d) else d
}.

Lemma demo_regread reg (d : demo_clock) :
  regread reg d = (u8 (demo_reg reg (S (reads d) / 20)), DemoClock reg (S (reads d))).
Proof. done. Qed.

Lemma demo_date_range reg f k : (reg, f) ∈ rtc_fields → 0 ≤ f (demo_date k) < 100.
Proof.
  intros Hf. unfold rtc_fields in Hf.
  repeat (apply elem_of_cons in Hf as [[= -> ->]|Hf]; [unfold demo_date; cbn [second minute hour day month year]; zlia|]).
  by apply elem_of_nil in Hf.
Qed.

Lemma demo_reg_field reg f k : (reg, f) ∈ rtc_fields → demo_reg reg k = to_bcd (f (demo_date k)).
Proof.
  intros Hf. unfold rtc_fields in Hf.
  repeat (apply elem_of_cons in Hf as [[= -> ->]|Hf]; [reflexivity|]). by apply elem_of_nil in Hf.
Qed.

Lemma demo_step n :
  (n / 20 ≤ S n / 20 ≤ n / 20 + 1)%nat ∧
  (n mod 20 < 19 → S n / 20 = n / 20 ∧ S n mod 20 = S (n mod 20))%nat.
Proof.
  pose proof (Nat.div_mod_eq n 20). pose proof (Nat.mod_upper_bound n 20 ltac:(lia)).
  pose proof (Nat.div_mod_eq (S n) 20). pose proof (Nat.mod_upper_bound (S n) 20 ltac:(lia)). lia.
Qed.

#[local] Instance demo_rtc : rtc demo_clock.
Proof.
  refine {| updates := λ d : demo_clock, (reads d / 20)%nat; date := demo_date; binary := false;
            calm := λ (d : demo_clock) (n : nat), (reads d mod 20 + n < 20)%nat |}.
  - intros reg d. rewrite demo_regread. cbn [snd reads]. pose proof (demo_step (reads d)). lia.
  - intros reg f d Hf. rewrite demo_regread. cbn [fst snd reads]. rewrite (demo_reg_field _ _ _ Hf).
    apply u8_small. pose proof (demo_date_range _ _ (S (reads d) / 20) Hf). unfold to_bcd. zlia.
  - done.
  - intros reg f k. apply demo_date_range.
  - intros k j Hj. cbn [second demo_date]. zlia.
  - intros reg d n Hc. rewrite demo_regread. cbn [snd reads]. pose proof (demo_step (reads d)). lia.
  - done.
Defined.

Lemma cmostime_correct_witness :
  calm (DemoClock 0 0) 14 ∧
  ∃ r d', cmostime 1 (DemoClock 0 0) = Ok r d' ∧
    ∃ k, (k ≤ updates d')%nat ∧ r = full_date (date (D := demo_clock) k).
Proof.
  assert (Hc : calm (DemoClock 0 0) 14) by (cbn; lia).
  split; [exact Hc|].
  destruct (cmostime_correct (DemoClock 0 0) 1) as [Hs Hr].
  destruct (Hr ltac:(lia) Hc) as (r & d' & Hrun). exists r, d'. split; [exact Hrun|].
  destruct (Hs r d' Hrun) as (k & Hk & ->). exists k. split; [lia|reflexivity].
Defined.

(** ** What the APIC is told *)

Section apic_proofs.
Context `{!environment}.
Variable lapic : Z.
Implicit Types (h : history).

Lemma lapicw_run i v h : lapicw lapic i v h =
  Ok tt (h ++ [EvSt (lapic + 4 * i) (u32 v);
               EvLd (lapic + 4 * ID) (u32 (env_ld (h ++ [EvSt (lapic + 4 * i) (u32 v)]) (lapic + 4 * ID)))]).
Proof. unfold lapicw, vst, lapicr, vld, bind, ret. cbn [dev_st dev_ld history_mmio]. by rewrite <- app_assoc. Qed.

Lemma lapicw_stores i v h : ∃ h', lapicw lapic i v h = Ok tt h' ∧
  stores h' = stores h ++ [(lapic + 4 * i, u32 v)] ∧ outs h' = outs h.
Proof. rewrite lapicw_run. eexists. split; [done|]. by rewrite stores_app, outs_app, app_nil_r. Qed.

Lemma lapicr_stores i h : ∃ v h', lapicr lapic i h = Ok v h' ∧ stores h' = stores h ∧ outs h' = outs h.
Proof.
  unfold lapicr, vld. cbn [dev_ld history_mmio]. eexists _, _. split; [done|].
  by rewrite stores_app, outs_app, !app_nil_r.
Qed.

Lemma wait_delivery_stores : ∀ fuel h h', wait_delivery lapic fuel h = Ok tt h' →
  stores h' = stores h ∧ outs h' = outs h.
Proof.
  induction fuel as [|fuel IH]; intros h h' Hrun; cbn [wait_delivery] in Hrun; [done|].
  destruct (lapicr_stores ICRLO h) as (v & h1 & Hr & Hs & Ho). rewrite (bind_ok _ _ _ _ _ Hr) in Hrun.
  destruct (negb _); [apply IH in Hrun; by rewrite Hs, Ho in Hrun|]. by injection Hrun as <-.
Qed.

End apic_proofs.

(** Run the next register write of a goal. *)
Ltac step_lapicw :=
  match goal with
  | |- context [bind (lapicw ?l ?i ?v) _ ?h] =>
      let h' := fresh "h" in let Hr := fresh "Hr" in let Hs := fresh "Hs" in let Ho := fresh "Ho" in
      destruct (lapicw_stores l i v h) as (h' & Hr & Hs & Ho); rewrite (bind_ok _ _ _ _ _ Hr); clear Hr
  end.

(** [lapicinit] leaves the timer periodic on vector 32, the error interrupt on
    51, the local lines masked and every priority accepted; it needs the APIC to
    deliver the broadcast. *)
Lemma lapicinit_registers `{!environment} lapic fuel h : lapic ≠ 0 →
  (∀ h1, ∃ h2, wait_delivery lapic fuel h1 = Ok tt h2) →
  ∃ h', lapicinit lapic fuel h = Ok tt h' ∧ outs h' = outs h ∧
    last_store h' (lapic + 4 * SVR) = Some 0x13F ∧
    last_store h' (lapic + 4 * TIMER) = Some 0x20020 ∧
    last_store h' (lapic + 4 * TICR) = Some 10000000 ∧
    last_store h' (lapic + 4 * LINT0) = Some MASKED ∧
    last_store h' (lapic + 4 * LINT1) = Some MASKED ∧
    last_store h' (lapic + 4 * ERROR) = Some 51 ∧
    last_store h' (lapic + 4 * TPR) = Some 0.
Proof.
  intros Hl Hdel. unfold lapicinit. rewrite (proj2 (Z.eqb_neq _ _) Hl). do 6 step_lapicw.
  destruct (lapicr_stores lapic VER h5) as (v & h6 & Hr & Hs6 & Ho6). rewrite (bind_ok _ _ _ _ _ Hr).
  set (pc := if 4 <=? Z.land (Z.shiftr v 16) 0xFF then _ else _).
  assert (Hpc : ∃ h7 l, pc h6 = Ok tt h7 ∧ outs h7 = outs h6 ∧ stores h7 = stores h6 ++ l ∧
                  (l = [] ∨ l = [(lapic + 4 * PCINT, u32 MASKED)])).
  { unfold pc. destruct (4 <=? _).
    - destruct (lapicw_stores lapic PCINT MASKED h6) as (h7 & -> & Hs7 & Ho7). eauto 10.
    - exists h6, []. rewrite app_nil_r. eauto. }
  destruct Hpc as (h7 & l & Hpc & Ho7 & Hs7 & Hcase). rewrite (bind_ok _ _ _ _ _ Hpc).
  do 6 step_lapicw. destruct (Hdel h13) as [h14 Hw]. rewrite (bind_ok _ _ _ _ _ Hw).
  apply wait_delivery_stores in Hw as [Hs14 Ho14].
  destruct (lapicw_stores lapic TPR 0 h14) as (h15 & -> & Hs15 & Ho15).
  exists h15. split; [done|]. split; [congruence|].
  assert (Hall : stores h15 = stores h ++
    [(lapic + 4 * SVR, 0x13F); (lapic + 4 * TDCR, X1); (lapic + 4 * TIMER, 0x20020);
     (lapic + 4 * TICR, 10000000); (lapic + 4 * LINT0, MASKED); (lapic + 4 * LINT1, MASKED)] ++ l ++
    [(lapic + 4 * ERROR, 51); (lapic + 4 * ESR, 0); (lapic + 4 * ESR, 0); (lapic + 4 * EOI, 0);
     (lapic + 4 * ICRHI, 0); (lapic + 4 * ICRLO, 0x88500); (lapic + 4 * TPR, 0)]).
  { rewrite Hs15, Hs14. repeat (match goal with H : stores ?x = _ |- context [stores ?x] => rewrite H; clear H end).
    rewrite <- !app_assoc. reflexivity. }
  unfold last_store. rewrite Hall, !foldl_app.
  assert (Hne : ∀ i j, (lapic + 4 * i =? lapic + 4 * j) = (i =? j)).
  { intros i j. apply eq_true_iff_eq. rewrite !Z.eqb_eq. lia. }
  destruct Hcase as [->| ->]; cbn [foldl fst snd]; rewrite !Hne; vm_compute; done.
Qed.

(** [lapicstartap] at a page-aligned address below 1 MB: the warm reset vector
    is a far pointer to it, the shutdown code asks for a jump through the vector,
    and the processor [id], and no other, is sent INIT, its release and two
    startup interrupts with the page of the address. *)
Lemma lapicstartap_correct `{!environment} lapic id addr m h :
  0 ≤ id < 256 → 0 ≤ addr < 0x100000 → addr mod 4096 = 0 →
  let wrv := P2V 0x467 in
  let reg i v := (lapic + 4 * i, v) in
  ∃ m' h', lapicstartap lapic id addr (m, h) = Ok tt (m', h') ∧
    16 * (ld8 m' (wrv + 2) + 256 * ld8 m' (wrv + 3)) + (ld8 m' wrv + 256 * ld8 m' (wrv + 1)) = addr ∧
    (∀ b, b < wrv ∨ wrv + 4 ≤ b → ld8 m' b = ld8 m b) ∧
    outs h' = outs h ++ [(0x70, 0xF); (0x71, 0x0A)] ∧
    stores h' = stores h ++
      [reg ICRHI (id * 16777216); reg ICRLO 0xC500; reg ICRLO 0x8500;
       reg ICRHI (id * 16777216); reg ICRLO (0x600 + addr / 4096);
       reg ICRHI (id * 16777216); reg ICRLO (0x600 + addr / 4096)].
Proof.
  intros Hid Ha Hal wrv reg. unfold lapicstartap.
  change (P2V (Z.lor (Z.shiftl 0x40 4) 0x67)) with wrv.
  assert (Hhi : u32 (Z.shiftl id 24) = id * 16777216) by (rewrite Z.shiftl_mul_pow2 by lia; rewrite u32_small; lia).
  assert (Hlo : u32 (Z.lor STARTUP (Z.shiftr addr 12)) = 0x600 + addr / 4096).
  { change STARTUP with (Z.shiftl 6 8). rewrite Z.shiftr_div_pow2 by lia. change (2 ^ 12) with 4096.
    rewrite lor_shiftl_low, u32_small; zlia. }
  unfold send_startup, microdelay, outb, zoom, modify, ret, bind. cbn [fst snd dev_out history_ports].
  repeat (match goal with
  | |- context [lapicw ?l ?i ?v ?x] =>
      let h' := fresh "h" in let Hs := fresh "Hs" in let Ho := fresh "Ho" in let Hr := fresh "Hr" in
      destruct (lapicw_stores l i v x) as (h' & Hr & Hs & Ho); rewrite Hr; clear Hr
  end; cbn [fst snd]).
  eexists _, _. split; [done|]. split.
  { rewrite Z.shiftr_div_pow2 by lia. change (2 ^ 4) with 16. unfold st16.
    repeat first [rewrite ld8_st8_eq | rewrite ld8_st8_ne by lia]. zlia. }
  split.
  { intros b Hb. unfold st16. rewrite !ld8_st8_ne by lia. done. }
  repeat match goal with H : outs ?x = _ |- context [outs ?x] => rewrite H; clear H end.
  split; [rewrite !outs_app, <- app_assoc; done|].
  repeat match goal with H : stores ?x = _ |- context [stores ?x] => rewrite H; clear H end.
  rewrite !Hhi, !Hlo, !stores_app, <- !app_assoc. done.
Qed.

(** [lapicinit] returns once deliveries end. *)
Lemma returns_lapicw {D} `{!mmio D} lapic i v : returns (S := D) (lapicw lapic i v).
Proof. unfold lapicw, lapicr. solve_returns. Qed.

Lemma returns_lapicinit {D} `{!mmio D} lapic fuel :
  returns (S := D) (wait_delivery lapic fuel) → returns (S := D) (lapicinit lapic fuel).
Proof. intros Hw. pose proof (returns_lapicw (D := D)). unfold lapicinit, lapicr. solve_returns. Qed.

(** [lapicstartap] returns, and writes the warm reset vector only. *)
Lemma lapicstartap_low `{!environment} lapic id addr m h :
  ∃ m' h', lapicstartap lapic id addr (m, h) = Ok tt (m', h') ∧
    ∀ b, b < P2V 0x467 ∨ P2V 0x467 + 4 ≤ b → ld8 m' b = ld8 m b.
Proof.
  unfold lapicstartap. change (P2V (Z.lor (Z.shiftl 0x40 4) 0x67)) with (P2V 0x467). set (wrv := P2V 0x467).
  unfold send_startup, microdelay, outb, zoom, modify, ret, bind. cbn [fst snd dev_out history_ports].
  repeat (rewrite lapicw_run; cbn [fst snd]).
  eexists _, _. split; [reflexivity|]. intros b Hb. unfold st16. rewrite !ld8_st8_ne by lia. done.
Qed.
