(* ===== verification/Ioapic.v ===== *)
(** The interrupt controllers: ioapic.c and picirq.c

    The I/O APIC has two words in memory, an index and the register it selects.
    Its redirection table has two registers per interrupt.  The class [ioapic]
    states that the registers hold what was written to them.  The theorem follows
    the table through [ioapicinit] and every later [ioapicenable]. *)

From stdpp Require Import gmap list numbers strings.
From Stdlib Require Import ZArith Lia.
From S2P Require Import Prelude Dev Trap Ulib Console.

Definition IOAPIC : Z := 0xFEC00000.
Definition REG_ID : Z := 0x00.
Definition REG_VER : Z := 0x01.
Definition REG_TABLE : Z := 0x10.
Definition INT_DISABLED : Z := 0x00010000.

(** picirq.c *)
Definition IO_PIC1 : Z := 0x20.
Definition IO_PIC2 : Z := 0xA0.

Definition picinit {D} `{!port_io D} : M D unit :=
  outb (IO_PIC1 + 1) 0xFF ;;; outb (IO_PIC2 + 1) 0xFF.

Section ioapic_ops.
Context {D : Type} `{!mmio D}.

(** The fields [reg] and [data] of [struct ioapic]. *)
Definition ioapicread (reg : Z) : M D Z := vst IOAPIC reg ;;; vld (IOAPIC + 16).
Definition ioapicwrite (reg data : Z) : M D unit := vst IOAPIC reg ;;; vst (IOAPIC + 16) data.

(** The loop of [ioapicinit]: [n] interrupts from [i] on. *)
Fixpoint mask_all (n : nat) (i : Z) : M D unit :=
  match n with
  | O => ret tt
  | S n' =>
      ioapicwrite (REG_TABLE + 2 * i) (Z.lor INT_DISABLED (T_IRQ0 + i)) ;;;
      ioapicwrite (REG_TABLE + 2 * i + 1) 0 ;;;
      mask_all n' (i + 1)
  end.

Definition not_mp_msg : list Z := chars "ioapicinit: id isn't equal to ioapicid; not a MP" ++ [10].

(** ioapic.c: [ioapicinit], on the console and the devices; [ioapicid] is the
    variable that mp.c sets. *)
Definition ioapicinit (ioapicid : Z) : M (cons_st * D) unit :=
  let dev {A} (f : M D A) : M (cons_st * D) A := zoom snd (λ d s, (s.1, d)) f in
  v <- dev (ioapicread REG_VER) ;;
  let maxintr := Z.land (Z.shiftr v 16) 0xFF in
  v <- dev (ioapicread REG_ID) ;;
  let id := Z.shiftr v 24 in
  (if negb (id =? ioapicid) then zoom fst (λ c s, (c, s.2)) (cprintf not_mp_msg []) else ret tt) ;;;
  dev (mask_all (Z.to_nat (maxintr + 1)) 0).

(** ioapic.c: [ioapicenable]. *)
Definition ioapicenable (irq cpunum : Z) : M D unit :=
  ioapicwrite (REG_TABLE + 2 * irq) (T_IRQ0 + irq) ;;;
  ioapicwrite (REG_TABLE + 2 * irq + 1) (Z.shiftl cpunum 24).

End ioapic_ops.

(** ** What the I/O APIC does *)

(** [ioreg d r] is register [r]: a read through the window gives it and changes
    none, a write to a register of the table changes that register only. *)
Class ioapic (D : Type) `{!mmio D} := {
  ioreg : D → Z → Z;
  ioapic_read (d : D) r : 0 ≤ r < 0x10 →
    let '(v, d') := dev_ld (IOAPIC + 16) (dev_st IOAPIC r d) in
    u32 v = ioreg d r ∧ ∀ r', ioreg d' r' = ioreg d r';
  ioapic_write (d : D) r v r' : 0x10 ≤ r < 0x210 → 0 ≤ v < 4294967296 →
    ioreg (dev_st (IOAPIC + 16) v (dev_st IOAPIC r d)) r' = if decide (r' = r) then v else ioreg d r'
}.

(** An entry of the table: whether the interrupt is masked, its vector and its
    destination. *)
Definition redirect {D} `{!mmio D} `{!ioapic D} (d : D) (i : Z) : bool * Z * Z :=
  let lo := ioreg d (REG_TABLE + 2 * i) in
  (negb (Z.land lo INT_DISABLED =? 0), Z.land lo 0xFF, Z.shiftr (ioreg d (REG_TABLE + 2 * i + 1)) 24).

(** The number of interrupts that the version register gives, less one. *)
Definition max_intr {D} `{!mmio D} `{!ioapic D} (d : D) : Z := Z.land (Z.shiftr (ioreg d REG_VER) 16) 0xFF.

(** Where interrupt [i] goes after the calls [l] of [ioapicenable]. *)
Definition routed (l : list (Z * Z)) (i : Z) : bool * Z * Z :=
  foldl (λ e x, if x.1 =? i then (false, 32 + i, x.2) else e) (true, 32 + i, 0) l.

Fixpoint enable_all {D} `{!mmio D} (l : list (Z * Z)) : M D unit :=
  match l with
  | [] => ret tt
  | x :: l' => ioapicenable x.1 x.2 ;;; enable_all l'
  end.

Section ioapic_proofs.
Context {D : Type} `{!mmio D} `{!ioapic D}.
Implicit Types (d : D).

Lemma ioapicread_run r d : 0 ≤ r < 0x10 →
  ∃ d', ioapicread r d = Ok (ioreg d r) d' ∧ ∀ r', ioreg d' r' = ioreg d r'.
Proof.
  intros Hr. unfold ioapicread, vst, vld, bind. rewrite u32_small by lia.
  pose proof (ioapic_read d r Hr) as H. destruct (dev_ld _ _) as [v d']. destruct H as [-> H]. by exists d'.
Qed.

Lemma ioapicwrite_run r v d : 0x10 ≤ r < 0x210 →
  ∃ d', ioapicwrite r v d = Ok tt d' ∧ ∀ r', ioreg d' r' = if decide (r' = r) then u32 v else ioreg d r'.
Proof.
  intros Hr. unfold ioapicwrite, vst, bind. rewrite (u32_small r) by lia. eexists. split; [done|].
  intros r'. apply ioapic_write; [done|apply u32_range].
Qed.

(** The two writes of an entry. *)
Lemma write_entry {A} (k : M D A) i lo hi d : 0 ≤ i < 256 →
  ∃ d', (ioapicwrite (REG_TABLE + 2 * i) lo ;;; ioapicwrite (REG_TABLE + 2 * i + 1) hi ;;; k) d = k d' ∧
    ∀ r, ioreg d' r = if decide (r = REG_TABLE + 2 * i) then u32 lo
                      else if decide (r = REG_TABLE + 2 * i + 1) then u32 hi else ioreg d r.
Proof.
  intros Hi. destruct (ioapicwrite_run (REG_TABLE + 2 * i) lo d) as (d1 & H1 & R1); [unfold REG_TABLE; lia|].
  destruct (ioapicwrite_run (REG_TABLE + 2 * i + 1) hi d1) as (d2 & H2 & R2); [unfold REG_TABLE; lia|].
  exists d2. rewrite (bind_ok _ _ _ _ _ H1), (bind_ok _ _ _ _ _ H2). split; [done|].
  intros r. rewrite R2, R1. by repeat case_decide; try lia.
Qed.

Lemma redirect_ext d d' i : (∀ r, r = REG_TABLE + 2 * i ∨ r = REG_TABLE + 2 * i + 1 → ioreg d' r = ioreg d r) →
  redirect d' i = redirect d i.
Proof. intros H. unfold redirect. rewrite !H; auto. Qed.

(** The values written: the vector in the low byte, the mask in bit 16. *)
Lemma masked_entry d i : 0 ≤ i < 224 →
  ioreg d (REG_TABLE + 2 * i) = u32 (Z.lor INT_DISABLED (T_IRQ0 + i)) →
  ioreg d (REG_TABLE + 2 * i + 1) = u32 0 → redirect d i = (true, 32 + i, 0).
Proof.
  intros Hi Hlo Hhi. unfold redirect. rewrite Hlo, Hhi. unfold INT_DISABLED, T_IRQ0.
  rewrite (u32_small (Z.lor _ _)).
  2: { change 0x10000 with (Z.shiftl 1 16). rewrite lor_shiftl_low; lia. }
  f_equal. f_equal.
  - apply negb_true_iff, Z.eqb_neq. intros H. apply (f_equal (λ x, Z.testbit x 16)) in H.
    rewrite Z.land_spec, Z.lor_spec in H. done.
  - rewrite Z.land_lor_distr_l. change (Z.land 0x10000 0xFF) with 0.
    change 0xFF with (Z.ones 8). rewrite Z.lor_0_l, Z.land_ones, Z.mod_small by lia. done.
Qed.

Lemma enabled_entry d i cpu : 0 ≤ i < 224 → 0 ≤ cpu < 256 →
  ioreg d (REG_TABLE + 2 * i) = u32 (T_IRQ0 + i) →
  ioreg d (REG_TABLE + 2 * i + 1) = u32 (Z.shiftl cpu 24) → redirect d i = (false, 32 + i, cpu).
Proof.
  intros Hi Hc Hlo Hhi. unfold redirect. rewrite Hlo, Hhi. unfold INT_DISABLED, T_IRQ0.
  rewrite Z.shiftl_mul_pow2 by lia. rewrite !u32_small, Z.shiftr_div_pow2 by lia.
  rewrite Z.div_mul by lia. f_equal. f_equal.
  - apply negb_false_iff, Z.eqb_eq. change 0x10000 with (Z.shiftl 1 16).
    apply Z.bits_inj'. intros j Hj. rewrite Z.land_spec, Z.bits_0.
    destruct (Z.lt_ge_cases j 16); [rewrite (Z.shiftl_spec_low 1) by lia; apply andb_false_r|].
    rewrite <- (Z.mod_small (32 + i) (2 ^ 8)) by lia. by rewrite Z.mod_pow2_bits_high by lia.
  - change 0xFF with (Z.ones 8). rewrite Z.land_ones, Z.mod_small by lia. done.
Qed.

Lemma mask_all_run : ∀ n i d, 0 ≤ i → i + Z.of_nat n ≤ 224 → ∃ d', mask_all n i d = Ok tt d' ∧
  (∀ j, i ≤ j < i + Z.of_nat n → redirect d' j = (true, 32 + j, 0)) ∧
  (∀ j, 0 ≤ j < i → redirect d' j = redirect d j).
Proof.
  induction n as [|n IH]; intros i d Hi Hn; cbn [mask_all].
  { exists d. split_and!; [done|intros; lia|done]. }
  destruct (write_entry (mask_all n (i + 1)) i (Z.lor INT_DISABLED (T_IRQ0 + i)) 0 d) as (d1 & -> & R1); [lia|].
  destruct (IH (i + 1) d1) as (d2 & Hrun & Hnew & Hold); [lia..|].
  exists d2. split; [done|]. split.
  - intros j Hj. destruct (decide (j = i)) as [->|]; [|apply Hnew; lia].
    rewrite Hold by lia. apply masked_entry; [lia|..]; rewrite R1; repeat case_decide; done || lia.
  - intros j Hj. rewrite Hold by lia. apply redirect_ext. intros r Hr. rewrite R1. repeat case_decide; done || lia.
Qed.

Lemma enable_all_run : ∀ l d, Forall (λ x, 0 ≤ x.1 < 224 ∧ 0 ≤ x.2 < 256) l → ∃ d', enable_all l d = Ok tt d' ∧
  ∀ j, 0 ≤ j < 224 →
    redirect d' j = foldl (λ e x, if x.1 =? j then (false, 32 + j, x.2) else e) (redirect d j) l.
Proof.
  induction l as [|[i c] l IH]; intros d Hl; cbn [enable_all foldl fst snd]; [by exists d|].
  apply Forall_cons in Hl as [[Hi Hc] Hl]. cbn [fst snd] in Hi, Hc.
  unfold ioapicenable. rewrite bind_assoc.
  destruct (write_entry (enable_all l) i (T_IRQ0 + i) (Z.shiftl c 24) d) as (d1 & -> & R1); [lia|].
  destruct (IH d1 Hl) as (d2 & Hrun & Hd2). exists d2. split; [done|].
  intros j Hj. rewrite Hd2 by done. f_equal. destruct (Z.eqb_spec i j) as [<-|Hne].
  - apply enabled_entry; [done..| |]; rewrite R1; repeat case_decide; done || lia.
  - apply redirect_ext. intros r Hr. rewrite R1. repeat case_decide; done || lia.
Qed.

End ioapic_proofs.

Lemma cprintf_ok fmt args o c : cformat fmt args = Some o → cga_ok (c_screen c) →
  ∃ c', cprintf fmt args c = Ok tt c' ∧ cga_ok (c_screen c') ∧ c_input c' = c_input c.
Proof.
  intros Hf. unfold cprintf. rewrite Hf. unfold deref. rewrite bind_ret.
  clear Hf. revert c. induction o as [|x o IH]; intros c Hc; cbn [consputs]; [by exists c|].
  destruct (consputc_ok x c Hc) as (c1 & Hr & Hc1 & Hi & _). rewrite (bind_ok _ _ _ _ _ Hr).
  destruct (IH c1 Hc1) as (c2 & Hr2 & Hc2 & Hi2). exists c2. split_and!; [done|done|congruence].
Qed.

(** The routing of interrupts.  After [ioapicinit] and any calls of
    [ioapicenable], interrupt [i] has vector 32 + [i]; it is unmasked exactly
    when one of the calls was for [i], and goes to the CPU of the last of them. *)
Theorem ioapic_routes {D} `{!mmio D} `{!ioapic D} (d : D) c ioapicid l :
  cga_ok (c_screen c) → max_intr d < 224 → Forall (λ x, 0 ≤ x.1 < 224 ∧ 0 ≤ x.2 < 256) l →
  ∃ c' d1 d2, ioapicinit ioapicid (c, d) = Ok tt (c', d1) ∧ enable_all l d1 = Ok tt d2 ∧
    ∀ i, 0 ≤ i ≤ max_intr d → redirect d2 i = routed l i.
Proof.
  intros Hc Hm Hl. unfold ioapicinit, zoom.
  destruct (ioapicread_run REG_VER d) as (d1 & H1 & R1); [done|].
  erewrite bind_ok by (cbn [snd]; rewrite H1; reflexivity). fold (max_intr d).
  destruct (ioapicread_run REG_ID d1) as (d2 & H2 & R2); [done|].
  erewrite bind_ok by (cbn [snd]; rewrite H2; reflexivity).
  set (msg := if negb _ then _ else _).
  assert (Hmsg : ∃ c', msg (c, d2) = Ok tt (c', d2)).
  { unfold msg. destruct (negb _); [|by exists c]. cbn [fst].
    destruct (cprintf_ok not_mp_msg [] _ c (eq_refl : cformat not_mp_msg [] = Some not_mp_msg) Hc)
      as (c' & -> & _). by exists c'. }
  cbn [fst snd] in *. destruct Hmsg as [c' Hmsg].
  assert (0 ≤ max_intr d) by (unfold max_intr; apply Z.land_nonneg; by right).
  rewrite (bind_ok _ _ _ _ _ Hmsg). cbn [fst snd].
  destruct (mask_all_run (Z.to_nat (max_intr d + 1)) 0 d2) as (d3 & H3 & R3 & _); [lia..|].
  rewrite H3. destruct (enable_all_run l d3 Hl) as (d4 & H4 & R4).
  exists c', d3, d4. do 2 (split; [done|]). intros i Hi. rewrite R4, R3 by lia. done.
Qed.

(** A controller with 24 interrupts: the index and the registers. *)
Definition demo_apic : Type := Z * gmap Z Z.
#[local] Instance demo_mmio : mmio demo_apic := {
  dev_ld a d := (if a =? IOAPIC + 16 then default 0 (d.2 !! d.1) else 0, d);
  dev_st a v d := if a =? IOAPIC then (v, d.2) else if a =? IOAPIC + 16 then (d.1, <[d.1 := u32 v]> d.2) else d
}.
#[local] Instance demo_ioapic : ioapic demo_apic.
Proof.
  refine {| ioreg := λ (d : demo_apic) r, u32 (default 0 (d.2 !! r)) |}.
  - intros [s m] r Hr. cbn. done.
  - intros [s m] r v r' Hr Hv.
    change (dev_st (IOAPIC + 16) v (dev_st IOAPIC r (s, m))) with ((r, <[r := u32 v]> m) : demo_apic).
    cbn [snd]. case_decide as E.
    + subst. rewrite lookup_insert_eq. cbn. by rewrite u32_idemp, u32_small.
    + by rewrite lookup_insert_ne.
Defined.

Lemma ioapic_routes_witness :
  let d : demo_apic := (0, {[REG_VER := 0x170011]}) in
  cga_ok (c_screen demo_console) ∧ max_intr d = 23 ∧
  ∃ c' d1 d2, ioapicinit 0 (demo_console, d) = Ok tt (c', d1) ∧
    enable_all [(1, 0); (14, 1); (1, 2)] d1 = Ok tt d2 ∧
    redirect d2 1 = (false, 33, 2) ∧ redirect d2 14 = (false, 46, 1) ∧ redirect d2 4 = (true, 36, 0).
Proof.
  intros d.
  assert (Hc : cga_ok (c_screen demo_console)) by exact (proj2 demo_console_ok).
  assert (Hm : max_intr d = 23) by (vm_compute; reflexivity).
  split; [exact Hc|]. split; [exact Hm|].
  destruct (ioapic_routes d demo_console 0 [(1, 0); (14, 1); (1, 2)]) as (c' & d1 & d2 & H1 & H2 & Hr).
  - exact Hc.
  - rewrite Hm. lia.
  - repeat constructor; cbn; lia.
  - exists c', d1, d2. split; [exact H1|]. split; [exact H2|].
    rewrite !Hr by (rewrite Hm; lia). split; [|split]; vm_compute; reflexivity.
Defined.

(** [ioapicinit] returns whatever the device answers. *)
Lemma returns_ioapicenable {D} `{!mmio D} irq cpunum : returns (S := D) (ioapicenable irq cpunum).
Proof. unfold ioapicenable, ioapicwrite. solve_returns. Qed.

Lemma ioapicinit_returns {D} `{!mmio D} ioapicid c (d : D) : cga_ok (c_screen c) →
  ∃ c' d', ioapicinit ioapicid (c, d) = Ok tt (c', d') ∧ cga_ok (c_screen c').
Proof.
  intros Hc.
  assert (Hr : ∀ r, returns (S := D) (ioapicread r)) by (intros r; unfold ioapicread; solve_returns).
  assert (Hm : ∀ n i, returns (S := D) (mask_all n i)).
  { induction n as [|n IH]; intros i; cbn [mask_all]; [apply returns_ret|]. unfold ioapicwrite. solve_returns. }
  unfold ioapicinit. destruct (Hr REG_VER d) as (v & d1 & E1).
  unfold zoom at 1. erewrite bind_ok by (cbn [snd]; rewrite E1; reflexivity). cbn [fst snd].
  destruct (Hr REG_ID d1) as (v2 & d2 & E2). unfold zoom at 1.
  erewrite bind_ok by (cbn [snd]; rewrite E2; reflexivity). cbn [fst snd].
  destruct (cprintf_ok not_mp_msg [] _ c (eq_refl : cformat not_mp_msg [] = Some not_mp_msg) Hc)
    as (c' & Hp & Hc' & _).
  destruct (Hm (Z.to_nat (Z.land (Z.shiftr v 16) 0xFF + 1)) 0 d2) as ([] & d3 & E3).
  destruct (negb _).
  - unfold zoom at 1. erewrite bind_ok by (cbn [fst]; rewrite Hp; reflexivity). unfold zoom. cbn [fst snd].
    rewrite E3. by eexists _, _.
  - rewrite bind_ret. unfold zoom. cbn [fst snd]. rewrite E3. by eexists _, _.
Qed.
