(* ===== verification/Uart.v ===== *)
(** The serial port: uart.c

    The driver polls the line status register before it sends and hands what it
    receives to the console.  The class [serial] states what the port does with
    the bytes.  [Console.consoleintr] takes the characters as a list; here
    [consoleintr_getc] is the loop as the code has it, with [getc] called before
    every character, and the theorem says that it does to the console what the
    list version does with the bytes that were read. *)

From stdpp Require Import gmap list numbers strings.
From Stdlib Require Import ZArith Lia.
From S2P Require Import Prelude Dev Trap Ulib Console Lapic Ioapic.

Definition COM1 : Z := 0x3f8.

(** The variable [uart] and the devices. *)
Record uart_st (D : Type) := UartSt { uart : bool; u_dev : D }.
Arguments UartSt {D}.
Arguments uart {D}.
Arguments u_dev {D}.

Section uart_ops.
Context {D : Type} `{!port_io D}.

Definition u_io {A} (f : M D A) : M (uart_st D) A := zoom u_dev (λ d s, UartSt (uart s) d) f.

(** The wait of [uartputc]: [n] more polls. *)
Fixpoint wait_room (n : nat) : M D unit :=
  match n with
  | O => ret tt
  | S n' =>
      v <- inb (COM1 + 5) ;;
      if negb (Z.land v 0x20 =? 0) then ret tt else microdelay 10 ;;; wait_room n'
  end.

(** uart.c: [uartputc]. *)
Definition uartputc (c : Z) : M (uart_st D) unit :=
  u <- gets uart ;;
  if negb u then ret tt
  else u_io (wait_room 128 ;;; outb (COM1 + 0) c).

(** uart.c: [uartgetc]. *)
Definition uartgetc : M (uart_st D) Z :=
  u <- gets uart ;;
  if negb u then ret (-1)
  else
    u_io (v <- inb (COM1 + 5) ;;
          if Z.land v 0x01 =? 0 then ret (-1) else inb (COM1 + 0)).

Fixpoint uartputs (l : list Z) : M (uart_st D) unit :=
  match l with
  | [] => ret tt
  | c :: l' => uartputc c ;;; uartputs l'
  end.

(** uart.c: [uartinit]. *)
Definition uartinit `{!mmio D} : M (uart_st D) unit :=
  u_io (outb (COM1 + 2) 0 ;;;
        outb (COM1 + 3) 0x80 ;;;
        outb (COM1 + 0) (115200 / 9600) ;;;
        outb (COM1 + 1) 0 ;;;
        outb (COM1 + 3) 0x03 ;;;
        outb (COM1 + 4) 0 ;;;
        outb (COM1 + 1) 0x01) ;;;
  v <- u_io (inb (COM1 + 5)) ;;
  if v =? 0xFF then ret tt
  else
    modify (λ s, UartSt true (u_dev s)) ;;;
    u_io (inb (COM1 + 2)) ;;;
    u_io (inb (COM1 + 0)) ;;;
    u_io (ioapicenable IRQ_COM1 0) ;;;
    uartputs (chars "xv6..." ++ [10]).

(** The loop of [consoleintr] with its argument [getc]; it returns whether
    [procdump] is called. *)
Fixpoint consoleintr_getc {S} (getc : M S Z) (fuel : nat) (doprocdump : bool) : M (cons_st * S) bool :=
  c <- zoom snd (λ d s, (s.1, d)) getc ;;
  if c <? 0 then ret doprocdump
  else
    match fuel with
    | O => fail NoFuel
    | Datatypes.S fuel' =>
        p <- zoom fst (λ x s, (x, s.2)) (consoleintr_char c) ;;
        consoleintr_getc getc fuel' (doprocdump || p)
    end.

(** uart.c: [uartintr]. *)
Definition uartintr (fuel : nat) : M (cons_st * uart_st D) bool := consoleintr_getc uartgetc fuel false.

End uart_ops.

(** ** What the port does *)

(** [sent] are the bytes transmitted, [incoming] the bytes that the other end
    still has for us, [ready] whether the first of them is in the receive
    register. *)
Class serial (D : Type) `{!port_io D} := {
  sent : D → list Z;
  incoming : D → list Z;
  ready : D → bool;
  serial_status (d : D) : let '(v, d') := dev_in (COM1 + 5) d in
    Z.land (u8 v) 0x01 = (if ready d then 1 else 0) ∧
    sent d' = sent d ∧ incoming d' = incoming d ∧ ready d' = ready d;
  serial_recv (d : D) : ready d = true → let '(v, d') := dev_in (COM1 + 0) d in
    ∃ l, incoming d = u8 v :: l ∧ incoming d' = l ∧ sent d' = sent d;
  serial_send (d : D) c : 0 ≤ c < 256 → let d' := dev_out (COM1 + 0) c d in
    sent d' = sent d ++ [c] ∧ incoming d' = incoming d
}.

Section uart_proofs.
Context {D : Type} `{!port_io D} `{!serial D}.
Implicit Types (d : D).

Lemma wait_room_run : ∀ n d, ∃ d', wait_room n d = Ok tt d' ∧ sent d' = sent d ∧ incoming d' = incoming d.
Proof.
  induction n as [|n IH]; intros d; cbn [wait_room]; [by exists d|].
  unfold inb at 1, bind at 1. pose proof (serial_status d) as Hs. destruct (dev_in _ d) as [v d1].
  destruct Hs as (_ & Hs & Hi & _). destruct (negb _); [by exists d1|].
  destruct (IH d1) as (d2 & Hr & Hs2 & Hi2). exists d2. unfold microdelay. rewrite bind_ret.
  split_and!; [done|congruence..].
Qed.

(** [uartputc] always returns, and a port that is there transmits the byte. *)
Lemma uartputc_sends c (s : uart_st D) : ∃ d', uartputc c s = Ok tt (UartSt (uart s) d') ∧
  sent d' = (if uart s then sent (u_dev s) ++ [u8 c] else sent (u_dev s)) ∧
  incoming d' = incoming (u_dev s).
Proof.
  unfold uartputc. rewrite bind_gets. destruct s as [u d]. cbn [uart u_dev]. destruct u; cbn [negb].
  - destruct (wait_room_run 128 d) as (d1 & Hr & Hs & Hi).
    destruct (serial_send d1 (u8 c) (u8_range c)) as [Hs2 Hi2].
    eexists. unfold u_io, zoom. cbn [u_dev uart]. rewrite (bind_ok _ _ _ _ _ Hr). unfold outb.
    split; [done|]. rewrite Hs2, Hi2. split; congruence.
  - by exists d.
Qed.

Lemma uartgetc_run (s : uart_st D) : ∃ v d', uartgetc s = Ok v (UartSt (uart s) d') ∧ sent d' = sent (u_dev s) ∧
  ((v = -1 ∧ incoming d' = incoming (u_dev s) ∧ (uart s = false ∨ ready d' = false)) ∨
   (0 ≤ v < 256 ∧ uart s = true ∧ incoming (u_dev s) = v :: incoming d')).
Proof.
  unfold uartgetc. rewrite bind_gets. destruct s as [u d]. cbn [uart u_dev]. destruct u; cbn [negb].
  2: { exists (-1), d. split_and!; [done|done|]. left. auto. }
  unfold u_io, zoom, inb, bind. cbn [u_dev uart].
  pose proof (serial_status d) as Hs. destruct (dev_in (COM1 + 5) d) as [v d1].
  destruct Hs as (Hb & Hs & Hi & Hrd). rewrite Hb. destruct (ready d) eqn:Hr.
  - pose proof (serial_recv d1 Hrd) as H.
    change (1 =? 0) with false. cbv iota beta. destruct (dev_in (COM1 + 0) d1) as [w d2].
    destruct H as (l & Hl & Hl' & Hs'). exists (u8 w), d2. split_and!; [done|congruence|].
    right. split_and!; [apply u8_range..|done|]. congruence.
  - exists (-1), d1. split_and!; [done|done|]. left. auto.
Qed.

(** The loop does what [consoleintr] does with the bytes it reads. *)
Lemma uartintr_run : ∀ fuel c (s : uart_st D) p, console_ok c → (length (incoming (u_dev s)) ≤ fuel)%nat →
  ∃ cs q c' d', consoleintr_getc uartgetc fuel p (c, s) = Ok q (c', UartSt (uart s) d') ∧
    consoleintr cs c = Ok (existsb (λ x, x =? ctl_P) cs) c' ∧ q = p || existsb (λ x, x =? ctl_P) cs ∧
    incoming (u_dev s) = cs ++ incoming d' ∧ (uart s = false ∨ ready d' = false).
Proof.
  induction fuel as [|fuel IH]; intros c s p Hc Hf; cbn [consoleintr_getc]; unfold zoom at 1;
    destruct (uartgetc_run s) as (v & d1 & Hg & _ & [(-> & Hi & Hstop)|(Hv & Hu & Hi)]).
  - erewrite bind_ok by (cbn [snd]; rewrite Hg; done). exists [], p, c, d1. cbn.
    rewrite orb_false_r. split_and!; done.
  - rewrite Hi in Hf. cbn in Hf. lia.
  - erewrite bind_ok by (cbn [snd]; rewrite Hg; done). exists [], p, c, d1. cbn.
    rewrite orb_false_r. split_and!; done.
  - erewrite bind_ok by (cbn [snd]; rewrite Hg; done). cbn [fst].
    rewrite (proj2 (Z.ltb_ge _ _)) by lia.
    destruct (consoleintr_char_ok v c Hc) as (c1 & Hr1 & Hc1 & _).
    unfold zoom at 1. erewrite bind_ok by (cbn [fst]; rewrite Hr1; done). cbn [fst snd].
    rewrite Hi in Hf. cbn [length] in Hf.
    destruct (IH c1 (UartSt (uart s) d1) (p || (v =? ctl_P)) Hc1)
      as (cs & q & c' & d' & Hrun & Hcs & Hq & Hin & Hstop); [cbn [u_dev]; lia|].
    exists (v :: cs), q, c', d'. cbn [u_dev uart existsb] in *. split; [done|]. split.
    { cbn [consoleintr]. by rewrite (bind_ok _ _ _ _ _ Hr1), (bind_ok _ _ _ _ _ Hcs). }
    split_and!; [by rewrite orb_assoc|by rewrite Hi, Hin|done].
Qed.

End uart_proofs.

(** The serial console.  Output: [uartputc] always returns, and a port that
    is there has then transmitted exactly the given byte.  Input: [uartintr]
    returns whenever the other end has finitely many bytes; it takes a prefix of
    them, in order and until none is ready, and does to the console's line editor
    what typing that prefix does. *)
Theorem serial_console {D} `{!port_io D} `{!serial D} (s : uart_st D) (c : cons_st) fuel :
  console_ok c → (length (incoming (u_dev s)) ≤ fuel)%nat →
  (∀ b, ∃ d', uartputc b s = Ok tt (UartSt (uart s) d') ∧ incoming d' = incoming (u_dev s) ∧
     sent d' = (if uart s then sent (u_dev s) ++ [u8 b] else sent (u_dev s))) ∧
  ∃ cs c' d', uartintr fuel (c, s) = Ok (existsb (λ x, x =? ctl_P) cs) (c', UartSt (uart s) d') ∧
    incoming (u_dev s) = cs ++ incoming d' ∧ (uart s = false ∨ ready d' = false) ∧
    console_ok c' ∧ typed_of (c_input c') = foldl (λ t x, type_char x t) (typed_of (c_input c)) cs.
Proof.
  intros Hc Hf. split.
  - intros b. destruct (uartputc_sends b s) as (d' & H1 & H2 & H3). by exists d'.
  - destruct (uartintr_run fuel c s false Hc Hf) as (cs & q & c' & d' & Hrun & Hcs & -> & Hin & Hstop).
    destruct (consoleintr_ok cs c Hc) as (q & c1 & Hr & Hok & Ht).
    assert (c1 = c') as -> by congruence.
    exists cs, c', d'. by split_and!.
Qed.

(** A port with its two queues. *)
Record demo_port := DemoPort { out_q : list Z; in_q : list Z }.
#[local] Instance demo_ports : port_io demo_port := {
  dev_in p d := if p =? COM1 + 5 then (Z.lor 0x20 (if bool_decide (in_q d = []) then 0 else 1), d)
                else match in_q d with [] => (0, d) | c :: l => (c, DemoPort (out_q d) l) end;
  dev_out p v d := if p =? COM1 + 0 then DemoPort (out_q d ++ [v]) (in_q d) else d
}.
#[local] Instance demo_serial : serial demo_port.
Proof.
  refine {| sent := out_q; incoming := λ d : demo_port, u8 <$> in_q d;
            ready := λ d : demo_port, negb (bool_decide (in_q d = [])) |}.
  - intros [o [|c l]]; cbn; done.
  - intros [o [|c l]]; cbn; [done|]. intros _. by eexists.
  - done.
Defined.

Lemma serial_console_witness :
  let s := UartSt true (DemoPort [] [104; 105; 13]) in
  console_ok demo_console ∧
  ∃ q c' d', uartintr 3 (demo_console, s) = Ok q (c', UartSt true d') ∧
    typed_of (c_input c') = Typed [104; 105; 10] [].
Proof.
  intros s. split; [exact demo_console_ok|].
  assert (Hf : (length (incoming (u_dev s)) ≤ 3)%nat) by (vm_compute; lia).
  destruct (serial_console s demo_console 3 demo_console_ok Hf) as [_ H].
  destruct H as (cs & c' & d' & Hrun & Hin & Hstop & _ & Ht).
  eexists _, c', d'. split; [exact Hrun|]. rewrite Ht.
  assert (d' = DemoPort [] []) as ->.
  { vm_compute in Hrun. by injection Hrun. }
  cbn in Hin. rewrite app_nil_r in Hin. subst cs. vm_compute. reflexivity.
Defined.

(** [uartinit] returns whatever the device answers. *)
Lemma returns_uartputc {D} `{!port_io D} c : returns (S := uart_st D) (uartputc c).
Proof.
  assert (Hw : ∀ n, returns (S := D) (wait_room n)).
  { induction n as [|n IH]; cbn [wait_room]; [apply returns_ret|]. unfold microdelay. solve_returns. }
  unfold uartputc, u_io. solve_returns.
Qed.

Lemma returns_uartinit {D} `{!port_io D} `{!mmio D} : returns (S := uart_st D) uartinit.
Proof.
  assert (Hp : ∀ l, returns (S := uart_st D) (uartputs l)).
  { induction l as [|c l IH]; cbn [uartputs]; [apply returns_ret|]. pose proof (returns_uartputc c). solve_returns. }
  unfold uartinit, u_io, ioapicenable, ioapicwrite. solve_returns.
Qed.
