(* ===== verification/Bootmain.v ===== *)
(** The boot loader: bootmain.c

    [bootmain] reads the kernel's ELF header from the disk, then each segment
    to its physical address, whole sectors at a time, and jumps to the entry
    point.  The state is the physical memory and the disk controller.  The
    controller is the class [boot_ctl] with the laws [boot_laws].

    The theorem is about the comment of [readseg]: the sectors written beyond a
    segment do no harm, because the segments are loaded in increasing order. *)

From stdpp Require Import gmap list numbers strings sorting.
From Stdlib Require Import ZArith Lia.
From S2P Require Import Prelude Mem Memlayout Dev Exec.

Definition SECTSIZE : Z := 512.

(** The ports and the data port, which gives a sector. *)
Class boot_ctl (D : Type) := {
  boot_ports :: port_io D;
  insl : D → list Z * D
}.

(** struct elfhdr and struct proghdr in memory: the fields that are used. *)
Definition elf_magic (m : mem) (elf : Z) : Z := ld32 m elf.
Definition elf_entry (m : mem) (elf : Z) : Z := ld32 m (elf + 24).
Definition elf_phoff (m : mem) (elf : Z) : Z := ld32 m (elf + 28).
Definition elf_phnum (m : mem) (elf : Z) : Z := ld8 m (elf + 44) + 256 * ld8 m (elf + 45).
Definition phdr_off (m : mem) (ph : Z) : Z := ld32 m (ph + 4).
Definition phdr_paddr (m : mem) (ph : Z) : Z := ld32 m (ph + 12).
Definition phdr_filesz (m : mem) (ph : Z) : Z := ld32 m (ph + 16).
Definition phdr_memsz (m : mem) (ph : Z) : Z := ld32 m (ph + 20).

Section boot.
Context {D : Type} `{!boot_ctl D}.
(** Rounds of the loop of [waitdisk]. *)
Variable polls : nat.
Abbreviation st := (mem * D)%type.

Definition on_disk {A} (f : M D A) : M st A := zoom snd (λ d s, (s.1, d)) f.

(** bootmain.c: [waitdisk]. *)
Fixpoint waitdisk (fuel : nat) : M D unit :=
  match fuel with
  | O => fail NoFuel
  | S fuel' =>
      v <- inb 0x1F7 ;;
      if negb (Z.land v 0xC0 =? 0x40) then waitdisk fuel' else ret tt
  end.

(** The command registers, as [readsect] writes them. *)
Definition read_command (offset : Z) : M D unit :=
  outb 0x1F2 1 ;;;
  outb 0x1F3 offset ;;;
  outb 0x1F4 (Z.shiftr offset 8) ;;;
  outb 0x1F5 (Z.shiftr offset 16) ;;;
  outb 0x1F6 (Z.lor (Z.shiftr offset 24) 0xE0) ;;;
  outb 0x1F7 0x20.

(** bootmain.c: [readsect]. *)
Definition readsect (dst offset : Z) : M st unit :=
  on_disk (waitdisk polls) ;;;
  on_disk (read_command offset) ;;;
  on_disk (waitdisk polls) ;;;
  bs <- on_disk (λ d, let '(bs, d') := insl d in Ok bs d') ;;
  modify (λ s, (store_bytes (s.1) dst bs, s.2)).

(** bootmain.c: [readseg]. *)
Fixpoint readseg_loop (fuel : nat) (pa epa offset : Z) : M st unit :=
  if pa <? epa then
    match fuel with
    | O => fail NoFuel
    | S fuel' => readsect pa offset ;;; readseg_loop fuel' (u32 (pa + SECTSIZE)) epa (u32 (offset + 1))
    end
  else ret tt.

Definition readseg (pa count offset : Z) : M st unit :=
  let epa := u32 (pa + count) in
  let pa := u32 (pa - offset mod SECTSIZE) in
  let offset := u32 (offset / SECTSIZE + 1) in
  readseg_loop (Z.to_nat (count / SECTSIZE + 2)) pa epa offset.

(** The loop of [bootmain] over the program headers. *)
Fixpoint load_segments (fuel : nat) (ph eph : Z) : M st unit :=
  if ph <? eph then
    match fuel with
    | O => fail NoFuel
    | S fuel' =>
        pa <- gets (λ s, phdr_paddr (s.1) ph) ;;
        filesz <- gets (λ s, phdr_filesz (s.1) ph) ;;
        off <- gets (λ s, phdr_off (s.1) ph) ;;
        readseg pa filesz off ;;;
        memsz <- gets (λ s, phdr_memsz (s.1) ph) ;;
        filesz <- gets (λ s, phdr_filesz (s.1) ph) ;;
        (if filesz <? memsz then
           modify (λ s, (stosb (s.1) (u32 (pa + filesz)) 0 (Z.to_nat (memsz - filesz)), s.2))
         else ret tt) ;;;
        load_segments fuel' (u32 (ph + sizeof_proghdr)) eph
    end
  else ret tt.

(** bootmain.c: [bootmain]; the address it jumps to, none when it returns to
    bootasm.S. *)
Definition bootmain : M st (option Z) :=
  let elf := 0x10000 in
  readseg elf 4096 0 ;;;
  m <- gets fst ;;
  if negb (elf_magic m elf =? ELF_MAGIC) then ret None
  else
    let ph := u32 (elf + elf_phoff m elf) in
    let eph := u32 (ph + sizeof_proghdr * elf_phnum m elf) in
    load_segments (Z.to_nat (elf_phnum m elf)) ph eph ;;;
    m <- gets fst ;;
    ret (Some (elf_entry m elf)).

End boot.

(** ** What the disk does *)

(** [holding_sector d p]: the controller is idle, or has the data of a sector. *)
Class boot_laws (D : Type) `{!boot_ctl D} (polls : nat) (sector : Z → list Z) := {
  holds_sector : D → option Z → Prop;
  boot_ready (d : D) p : holds_sector d p → ∃ d', waitdisk polls d = Ok tt d' ∧ holds_sector d' p;
  boot_command (d : D) k : holds_sector d None → 0 ≤ k < 268435456 →
    ∃ d', read_command k d = Ok tt d' ∧ holds_sector d' (Some k);
  boot_data (d : D) k : holds_sector d (Some k) →
    ∃ d', insl d = (sector k, d') ∧ holds_sector d' None;
  boot_size k : length (sector k) = 512%nat
}.

Section loader.
Context {D : Type} `{!boot_ctl D} (polls : nat) (sector : Z → list Z) `{!boot_laws D polls sector}.
Implicit Types (m : mem) (d : D).

(** Byte [i] of the kernel file, which starts at sector 1, and the word there. *)
Definition image (i : Z) : Z := u8 (default 0 (sector (1 + i / 512) !! Z.to_nat (i mod 512))).
Definition image32 (i : Z) : Z :=
  image i + 256 * image (i + 1) + 65536 * image (i + 2) + 16777216 * image (i + 3).

Lemma readsect_run dst k m d : holds_sector d None → 0 ≤ k < 268435456 →
  ∃ d', readsect polls dst k (m, d) = Ok tt (store_bytes m dst (sector k), d') ∧ holds_sector d' None.
Proof.
  intros Hd Hk. unfold readsect, on_disk, zoom.
  destruct (boot_ready d None Hd) as (d1 & H1 & Hd1).
  erewrite bind_ok by (cbn [snd]; rewrite H1; reflexivity). cbn [fst snd].
  destruct (boot_command d1 k Hd1 Hk) as (d2 & H2 & Hd2).
  erewrite bind_ok by (cbn [snd]; rewrite H2; reflexivity). cbn [fst snd].
  destruct (boot_ready d2 _ Hd2) as (d3 & H3 & Hd3).
  erewrite bind_ok by (cbn [snd]; rewrite H3; reflexivity). cbn [fst snd].
  destruct (boot_data d3 k Hd3) as (d4 & H4 & Hd4).
  erewrite bind_ok by (cbn [snd]; rewrite H4; reflexivity). cbn [fst snd].
  exists d4. by split.
Qed.

(** [n] sectors from [k] on. *)
Lemma readseg_loop_run epa : ∀ n fuel pa k m d, holds_sector d None →
  0 ≤ pa → epa + 512 < 4294967296 → 0 ≤ k → k + Z.of_nat n < 268435456 →
  epa ≤ pa + 512 * Z.of_nat n → ((0 < n)%nat → pa + 512 * (Z.of_nat n - 1) < epa) → (n ≤ fuel)%nat →
  ∃ m' d', readseg_loop polls fuel pa epa k (m, d) = Ok tt (m', d') ∧ holds_sector d' None ∧
    ∀ b, ld8 m' b = if decide (pa ≤ b < pa + 512 * Z.of_nat n)
                    then image (512 * (k - 1) + (b - pa)) else ld8 m b.
Proof.
  induction n as [|n IH]; intros fuel pa k m d Hd Hpa Htop Hk Hkn He Hn Hf.
  { exists m, d. split; [|split; [done|]].
    - destruct fuel; cbn [readseg_loop]; by rewrite (proj2 (Z.ltb_ge _ _)) by lia.
    - intros b. rewrite decide_False by lia. done. }
  specialize (Hn ltac:(lia)). destruct fuel as [|fuel]; [lia|]. cbn [readseg_loop].
  rewrite (proj2 (Z.ltb_lt _ _)) by lia.
  destruct (readsect_run pa k m d Hd ltac:(lia)) as (d1 & H1 & Hd1). rewrite (bind_ok _ _ _ _ _ H1).
  unfold SECTSIZE. rewrite !u32_small by lia.
  destruct (IH fuel (pa + 512) (k + 1) (store_bytes m pa (sector k)) d1 Hd1) as (m' & d' & Hrun & Hd' & Hm');
    [lia..|].
  exists m', d'. do 2 (split; [done|]). intros b. rewrite Hm', ld8_store_bytes, boot_size.
  destruct (decide (pa ≤ b < pa + 512)) as [Hb|Hb].
  - rewrite decide_False by lia. rewrite decide_True by lia. rewrite decide_True by lia.
    unfold image. do 3 f_equal; [f_equal; zlia|f_equal; zlia].
  - destruct (decide (pa + 512 ≤ b < pa + 512 + 512 * Z.of_nat n)).
    + rewrite decide_True by lia. f_equal. lia.
    + rewrite decide_False by lia. rewrite decide_False by lia. done.
Qed.

(** [readseg]: the bytes asked for, and whole sectors around them. *)
Lemma readseg_run pa count offset m d : holds_sector d None →
  offset mod 512 ≤ pa → 0 ≤ count → pa + count + 1024 < 4294967296 → 0 ≤ offset < 4294967296 →
  ∃ m' d', readseg polls pa count offset (m, d) = Ok tt (m', d') ∧ holds_sector d' None ∧
    (∀ j, 0 ≤ j < count → ld8 m' (pa + j) = image (offset + j)) ∧
    (∀ b, b < pa - offset mod 512 → ld8 m' b = ld8 m b).
Proof.
  intros Hd Hlo Hc Htop Ho. unfold readseg, SECTSIZE.
  pose proof (Z.mod_pos_bound offset 512 ltac:(lia)).
  rewrite !u32_small by zlia. set (r := offset mod 512) in *.
  destruct (readseg_loop_run (pa + count) (Z.to_nat ((count + r + 511) / 512))
    (Z.to_nat (count / 512 + 2)) (pa - r) (offset / 512 + 1) m d Hd) as (m' & d' & Hrun & Hd' & Hm');
    [lia|lia|zlia|zlia|zlia|zlia|zlia|].
  exists m', d'. do 2 (split; [done|]). split.
  - intros j Hj. rewrite Hm', decide_True by zlia. f_equal. unfold r. zlia.
  - intros b Hb. rewrite Hm', decide_False by zlia. done.
Qed.

(** ** The segments *)

(** A segment of the kernel, as program header [i] of the file gives it. *)
Record segment := Segment { sg_off : Z; sg_paddr : Z; sg_filesz : Z; sg_memsz : Z }.
Definition segment_at (phoff : Z) (i : nat) : segment :=
  let ph := phoff + 32 * Z.of_nat i in
  Segment (image32 (ph + 4)) (image32 (ph + 12)) (image32 (ph + 16)) (image32 (ph + 20)).

(** The bytes in memory: [filesz] of the file, then zeros. *)
Definition sg_size (g : segment) : Z := Z.max (sg_filesz g) (sg_memsz g).
Definition loaded m (g : segment) : Prop :=
  ∀ j, 0 ≤ j < sg_size g →
    ld8 m (sg_paddr g + j) = if decide (j < sg_filesz g) then image (sg_off g + j) else 0.

(** The first byte that loading a segment may write. *)
Definition sg_start (g : segment) : Z := sg_paddr g - sg_off g mod 512.

(** A segment above the page with the header and below the top of the address
    space. *)
Definition segment_ok (g : segment) : Prop :=
  0x11000 ≤ sg_start g ∧ sg_paddr g + sg_size g + 1024 < 4294967296.
(** The segments are apart and in increasing order. *)
Definition apart (g g' : segment) : Prop := sg_paddr g + sg_size g ≤ sg_start g'.

(** The page with the header is the start of the file. *)
Definition header_in m : Prop := ∀ i, 0 ≤ i < 4096 → ld8 m (0x10000 + i) = image i.

Lemma header_ld32 m i : header_in m → 0 ≤ i ≤ 4092 → ld32 m (0x10000 + i) = image32 i.
Proof.
  intros H Hi. unfold ld32, image32. rewrite <- !Z.add_assoc, !H by lia. done.
Qed.

Lemma image32_range i : 0 ≤ image32 i < 4294967296.
Proof.
  unfold image32, image.
  repeat match goal with |- context [u8 ?x] => pose proof (u8_range x); set (u8 x) in * end. lia.
Qed.

(** One segment. *)
Lemma load_segment_run g m d : holds_sector d None → segment_ok g →
  0 ≤ sg_off g < 4294967296 → 0 ≤ sg_filesz g → 0 ≤ sg_memsz g →
  ∃ m1 m2 d', readseg polls (sg_paddr g) (sg_filesz g) (sg_off g) (m, d) = Ok tt (m1, d') ∧
    m2 = (if sg_filesz g <? sg_memsz g
          then stosb m1 (u32 (sg_paddr g + sg_filesz g)) 0 (Z.to_nat (sg_memsz g - sg_filesz g)) else m1) ∧
    holds_sector d' None ∧ loaded m2 g ∧
    (∀ b, b < sg_start g → ld8 m1 b = ld8 m b ∧ ld8 m2 b = ld8 m b).
Proof.
  intros Hd [Hlo Hhi] Ho Hf Hm. unfold sg_start, sg_size in *.
  destruct (readseg_run (sg_paddr g) (sg_filesz g) (sg_off g) m d Hd) as (m1 & d' & Hrun & Hd' & Hin & Hout);
    [lia..|].
  eexists m1, _, d'. do 3 (split; [done|]). pose proof (Z.mod_pos_bound (sg_off g) 512 ltac:(lia)).
  destruct (Z.ltb_spec (sg_filesz g) (sg_memsz g)); split.
  - intros j Hj. unfold sg_size in Hj. rewrite u32_small, stosb_spec by lia. case_decide.
    + by rewrite decide_False by lia.
    + rewrite decide_True by lia. apply Hin. lia.
  - intros b Hb. rewrite u32_small, stosb_spec, decide_False by lia. auto.
  - intros j Hj. unfold sg_size in Hj. rewrite decide_True by lia. apply Hin. lia.
  - auto.
Qed.

(** Every segment is there at the end, and what lies below the first one is as
    before. *)
Lemma load_segments_run phoff : ∀ n fuel i m d, holds_sector d None → header_in m →
  0 ≤ phoff → phoff + 32 * Z.of_nat (i + n) ≤ 4096 →
  Forall segment_ok (segment_at phoff <$> seq i n) → StronglySorted apart (segment_at phoff <$> seq i n) →
  (n ≤ fuel)%nat →
  ∃ m' d', load_segments polls fuel (0x10000 + phoff + 32 * Z.of_nat i)
             (0x10000 + phoff + 32 * Z.of_nat (i + n)) (m, d) = Ok tt (m', d') ∧
    header_in m' ∧ Forall (loaded m') (segment_at phoff <$> seq i n) ∧
    ∀ b, (∀ g, g ∈ segment_at phoff <$> seq i n → b < sg_start g) → ld8 m' b = ld8 m b.
Proof.
  induction n as [|n IH]; intros fuel i m d Hd Hh Hp Hn Hok Hs Hf.
  { exists m, d. rewrite Nat.add_0_r. split_and!; [|done|constructor|done].
    destruct fuel; cbn [load_segments]; by rewrite Z.ltb_irrefl. }
  destruct fuel as [|fuel]; [lia|]. cbn [load_segments seq fmap list_fmap] in *.
  apply Forall_cons in Hok as [Hg Hok]. apply StronglySorted_inv in Hs as [Hs Hall].
  set (g := segment_at phoff i) in *. rewrite (proj2 (Z.ltb_lt _ _)) by lia.
  assert (Hfield : ∀ mm o, header_in mm → 0 ≤ o ≤ 28 →
    ld32 mm (0x10000 + phoff + 32 * Z.of_nat i + o) = image32 (phoff + 32 * Z.of_nat i + o)).
  { intros mm o Hmm Ho. rewrite <- !Z.add_assoc. apply header_ld32; [done|lia]. }
  rewrite !bind_gets. cbn [fst]. unfold phdr_paddr, phdr_filesz, phdr_off, phdr_memsz.
  rewrite !(Hfield m) by (done || lia).
  change (image32 (phoff + 32 * Z.of_nat i + 12)) with (sg_paddr g).
  change (image32 (phoff + 32 * Z.of_nat i + 16)) with (sg_filesz g).
  change (image32 (phoff + 32 * Z.of_nat i + 4)) with (sg_off g).
  destruct (load_segment_run g m d Hd Hg) as (m1 & m2 & d1 & Hrun & Hm2 & Hd1 & Hl & Hbelow);
    [apply image32_range..|].
  rewrite (bind_ok _ _ _ _ _ Hrun), !bind_gets. cbn [fst].
  assert (Hh1 : header_in m1 ∧ header_in m2).
  { destruct Hg as [Hlo _]. split; intros j Hj; rewrite (proj1 (Hbelow (0x10000 + j) ltac:(lia))) ||
      rewrite (proj2 (Hbelow (0x10000 + j) ltac:(lia))); by apply Hh. }
  destruct Hh1 as [Hh1 Hh2]. rewrite !(Hfield m1) by (done || lia).
  change (image32 (phoff + 32 * Z.of_nat i + 20)) with (sg_memsz g).
  change (image32 (phoff + 32 * Z.of_nat i + 16)) with (sg_filesz g).
  destruct (IH fuel (S i) m2 d1 Hd1 Hh2) as (m' & d' & Hrun' & Hh' & Hl' & Hlow); [lia|lia|done..|lia|].
  exists m', d'. split.
  { unfold sizeof_proghdr. rewrite (u32_small (0x10000 + phoff + 32 * Z.of_nat i + 32)) by lia.
    replace (0x10000 + phoff + 32 * Z.of_nat i + 32) with (0x10000 + phoff + 32 * Z.of_nat (S i)) by lia.
    replace (i + S n)%nat with (S i + n)%nat by lia. rewrite <- Hrun', Hm2.
    by destruct (sg_filesz g <? sg_memsz g). }
  split; [done|]. split.
  - constructor; [|done]. intros j Hj. rewrite Hlow; [by apply Hl|].
    intros g' Hg'. rewrite Forall_forall in Hall. specialize (Hall g' Hg'). unfold apart in Hall. lia.
  - intros b Hb. rewrite Hlow by (intros g' Hg'; apply Hb; by right). apply Hbelow, Hb. by left.
Qed.

End loader.

(** C34. The boot loader.  On a disk whose first sectors hold an ELF file with its
    program headers in the first page, [bootmain] jumps to the entry point of
    the file with every segment in memory: [filesz] bytes of the file at its
    physical address, followed by zeros up to [memsz].  The segments may come in
    any number; they must lie above the header, apart and in increasing order,
    and then the whole sectors that are read around a segment spoil none.
    Without the magic number it returns. *)
Theorem bootmain_correct {D} `{!boot_ctl D} polls sector `{!boot_laws D polls sector} (m : mem) (d : D) :
  holds_sector d None →
  let phoff := image32 sector 28 in
  let phnum := image sector 44 + 256 * image sector 45 in
  let segs := segment_at sector phoff <$> seq 0 (Z.to_nat phnum) in
  if decide (image32 sector 0 = ELF_MAGIC) then
    phoff + 32 * phnum ≤ 4096 → Forall segment_ok segs → StronglySorted apart segs →
    ∃ m' d', bootmain polls (m, d) = Ok (Some (image32 sector 24)) (m', d') ∧ Forall (loaded sector m') segs
  else ∃ s', bootmain polls (m, d) = Ok None s'.
Proof.
  intros Hd phoff phnum segs. unfold bootmain.
  destruct (readseg_run polls sector 0x10000 4096 0 m d Hd) as (m1 & d1 & Hrun & Hd1 & Hin & _); [done..|].
  rewrite (bind_ok _ _ _ _ _ Hrun), bind_gets. cbn [fst].
  assert (Hh : header_in sector m1) by (intros i Hi; by rewrite Hin).
  unfold elf_magic, elf_phoff, elf_phnum, elf_entry.
  rewrite (header_ld32 sector m1 0 Hh ltac:(lia) : ld32 m1 0x10000 = _), !(header_ld32 sector) by (done || lia).
  rewrite !Hh by lia. fold phoff phnum. case_decide as Hmag.
  - intros Hpage Hok Hs. rewrite Hmag. cbn [negb]. rewrite Z.eqb_refl. cbn [negb].
    pose proof (image32_range sector 28). unfold phoff, phnum in *.
    pose proof (u8_range (default 0 (sector (1 + 44 / 512) !! Z.to_nat (44 mod 512)))).
    pose proof (u8_range (default 0 (sector (1 + 45 / 512) !! Z.to_nat (45 mod 512)))).
    fold (image sector 44) in *. fold (image sector 45) in *.
    destruct (load_segments_run polls sector (image32 sector 28) (Z.to_nat phnum) (Z.to_nat phnum) 0 m1 d1 Hd1 Hh)
      as (m2 & d2 & Hrun2 & Hh2 & Hl & _); [lia|unfold phnum; lia|done..|].
    exists m2, d2. unfold sizeof_proghdr. rewrite !u32_small by (rewrite ?u32_small; lia).
    rewrite Nat.add_0_l, Z.mul_0_r, Z.add_0_r in Hrun2. fold phnum.
    rewrite Z2Nat.id in Hrun2 by (unfold phnum; lia).
    rewrite (bind_ok _ _ _ _ _ Hrun2), bind_gets. cbn [fst]. split; [|done]. unfold ret.
    by rewrite (header_ld32 sector) by (done || lia).
  - rewrite (proj2 (Z.eqb_neq _ _)) by done. cbn [negb]. by eexists.
Qed.

(** A disk with a kernel of two segments, the second not aligned to a sector. *)
Definition le32 (x : Z) : list Z := [x mod 256; x / 256 mod 256; x / 65536 mod 256; x / 16777216].
Definition demo_phdr (off paddr filesz memsz : Z) : list Z :=
  le32 1 ++ le32 off ++ le32 0 ++ le32 paddr ++ le32 filesz ++ le32 memsz ++ le32 0 ++ le32 0.
Definition demo_file : list Z :=
  resize 512 0 (le32 ELF_MAGIC ++ replicate 20 0 ++ le32 0x10000C ++ le32 52 ++ replicate 12 0 ++ [2; 0] ++
    replicate 6 0 ++ demo_phdr 512 0x100000 4 8 ++ demo_phdr 1030 0x101006 3 3) ++
  resize 512 0 [11; 12; 13; 14; 99] ++ resize 512 0 [1; 2; 3; 4; 5; 6; 21; 22; 23; 7].
Definition demo_sector (k : Z) : list Z := resize 512 0 (drop (Z.to_nat (512 * (k - 1))) demo_file).

Record demo_ctl := DemoCtl { r3 : Z; r4 : Z; r5 : Z; r6 : Z; held : option Z }.
#[local] Instance demo_boot_ctl : boot_ctl demo_ctl := {
  boot_ports := {|
    dev_in p d := (0x40, d);
    dev_out p v d :=
      if p =? 0x1F3 then DemoCtl v (r4 d) (r5 d) (r6 d) (held d)
      else if p =? 0x1F4 then DemoCtl (r3 d) v (r5 d) (r6 d) (held d)
      else if p =? 0x1F5 then DemoCtl (r3 d) (r4 d) v (r6 d) (held d)
      else if p =? 0x1F6 then DemoCtl (r3 d) (r4 d) (r5 d) v (held d)
      else if p =? 0x1F7 then
        DemoCtl (r3 d) (r4 d) (r5 d) (r6 d)
          (Some (r3 d + 256 * r4 d + 65536 * r5 d + 16777216 * (r6 d mod 16)))
      else d |};
  insl d := (demo_sector (default 0 (held d)), DemoCtl (r3 d) (r4 d) (r5 d) (r6 d) None)
}.

Lemma command_sector k : 0 ≤ k < 268435456 →
  u8 k + 256 * u8 (Z.shiftr k 8) + 65536 * u8 (Z.shiftr k 16) +
  16777216 * (u8 (Z.lor (Z.shiftr k 24) 0xE0) mod 16) = k.
Proof.
  intros Hk. rewrite Z.lor_comm. change 0xE0 with (Z.shiftl 14 4).
  rewrite !Z.shiftr_div_pow2 by lia. rewrite lor_shiftl_low by zlia. change (14 * 2 ^ 4) with 224.
  change (2 ^ 8) with 256. change (2 ^ 16) with 65536. change (2 ^ 24) with 16777216. zlia.
Qed.

#[local] Instance demo_boot_laws : boot_laws demo_ctl 1 demo_sector.
Proof.
  refine {| holds_sector := λ (d : demo_ctl) p, held d = p |}.
  - intros d p Hp. exists d. done.
  - intros d k Hd Hk. eexists. split; [reflexivity|]. cbn. f_equal. by apply command_sector.
  - intros d k Hd. cbn. rewrite Hd. by eexists.
  - intros k. apply length_resize.
Defined.

Lemma bootmain_correct_witness :
  ∃ m' d', bootmain 1 (∅, DemoCtl 0 0 0 0 None) = Ok (Some 0x10000C) (m', d') ∧
    Forall (loaded demo_sector m') [Segment 512 0x100000 4 8; Segment 1030 0x101006 3 3].
Proof.
  pose proof (bootmain_correct 1 demo_sector ∅ (DemoCtl 0 0 0 0 None) eq_refl) as H. cbv zeta in H.
  assert (Hmag : image32 demo_sector 0 = ELF_MAGIC) by (vm_compute; reflexivity).
  assert (Hoff : image32 demo_sector 28 = 52) by (vm_compute; reflexivity).
  assert (Hnum : image demo_sector 44 + 256 * image demo_sector 45 = 2) by (vm_compute; reflexivity).
  assert (Hent : image32 demo_sector 24 = 0x10000C) by (vm_compute; reflexivity).
  assert (Hs : segment_at demo_sector 52 <$> seq 0 (Z.to_nat 2) =
    [Segment 512 0x100000 4 8; Segment 1030 0x101006 3 3]) by (vm_compute; reflexivity).
  rewrite decide_True in H by exact Hmag. rewrite Hoff, Hnum, Hent, Hs in H.
  apply H; [lia| |]; repeat constructor; vm_compute; congruence.
Defined.
