(* ===== verification/Main.v ===== *)
(** The start of the kernel: main.c, with kvmalloc of vm.c and consoleinit of console.c

    [main] runs the init functions of the other components, on one machine, in
    the order of the source.  The hardware is a device whose answers depend on
    the history of accesses ([Dev.environment]).  While the boot CPU waits for
    another one in [startothers], that one runs [mpenter]; where a CPU would
    enter [scheduler] its start is over.

    The theorem is that the boot ends, and that it establishes the invariant
    [proc_mem] from which the theorems of [ProcMem] start: the page allocator,
    the page tables and the process table agree, with the first process ready to
    run. *)

From stdpp Require Import gmap list numbers strings.
From Stdlib Require Import ZArith Lia.
From S2P Require Import Prelude Mem StringC Memlayout Kalloc Cpu ProcData Rbtree Proc ProcSpec.
From S2P Require Import Vm VmInv VmSpec VmProps Block Bio Trap Dev Segment ProcMem BootMem.
From S2P Require Import Ulib Console Mp Lapic Ioapic Uart.

(** ** The machine *)

Record machine (F I : Type) := Machine {
  mc_procs : pst (kenv F);            (* processes, memory, file system, the boot CPU's tables *)
  mc_aps : list hwcpu;                (* the tables of the other CPUs, by index *)
  mc_started : list bool;             (* cpus[i].started *)
  mc_kpgdir : Z;
  mc_cpus : list Z;                   (* cpus[i].apicid *)
  mc_ncpu : Z;
  mc_ioapicid : Z;
  mc_lapic : Z;
  mc_dev : history;
  mc_cons : cons_st;
  mc_locking : bool;                  (* cons.locking, and devsw[CONSOLE] set *)
  mc_uart : bool;
  mc_idt : list gatedesc;
  mc_bio : bst;
  mc_ide : I
}.
Arguments Machine {F I}.
Arguments mc_procs {F I}.
Arguments mc_aps {F I}.
Arguments mc_started {F I}.
Arguments mc_kpgdir {F I}.
Arguments mc_cpus {F I}.
Arguments mc_ncpu {F I}.
Arguments mc_ioapicid {F I}.
Arguments mc_lapic {F I}.
Arguments mc_dev {F I}.
Arguments mc_cons {F I}.
Arguments mc_locking {F I}.
Arguments mc_uart {F I}.
Arguments mc_idt {F I}.
Arguments mc_bio {F I}.
Arguments mc_ide {F I}.

(** The page directory of entry.S: 4 MB pages at 0 and at KERNBASE. *)
Definition PTE_PS : Z := 0x080.
Definition entrypgdir : list Z :=
  let e := Z.lor (Z.lor (Z.lor 0 PTE_P) PTE_W) PTE_PS in
  <[Z.to_nat (KERNBASE / 4194304) := e]> (<[0%nat := e]> (replicate 1024 0)).

(** It maps the first 4 MB twice, at 0 and at KERNBASE, writable and for the
    kernel only; no other address is mapped. *)
Lemma entrypgdir_maps i : (i < 1024)%nat →
  entrypgdir !! i = Some (if decide (i = 0 ∨ i = Z.to_nat (KERNBASE / 4194304))%nat then Z.lor (Z.lor PTE_P PTE_W) PTE_PS else 0).
Proof.
  intros Hi. unfold entrypgdir. change (Z.to_nat (KERNBASE / 4194304)) with 512%nat.
  destruct (decide (i = 512%nat)) as [->|]; [by rewrite list_lookup_insert_eq|]. rewrite list_lookup_insert_ne by done.
  destruct (decide (i = 0%nat)) as [->|]; [by rewrite list_lookup_insert_eq|]. rewrite list_lookup_insert_ne by done.
  rewrite lookup_replicate_2, decide_False by (lia || naive_solver). done.
Qed.

Section main.
Context `{!environment} {F I : Type} `{!fs_calls F}.

(** Linker symbols and addresses: the end and the data of the kernel, the first
    program, the code for the other CPUs, the tables; the entries of
    vectors.S. *)
Variables (kend kdata initcode initcode_size entryother entryother_size : Z).
Variables (ts_addr idt_addr entrypgdir_addr mpenter_addr forkret trapret : Z) (gdt_addr : nat → Z).
Variables vectors : list Z.
(** The boot CPU's index in [cpus], rounds of the polling loops, and [ideinit] of
    ide.c or memide.c. *)
Variables (me : nat) (polls : nat) (ideinit : M I unit).

#[local] Instance main_ops : kernel_ops (kenv F) := vm_ops kend kdata initcode initcode_size ts_addr.

Abbreviation mach := (machine F I).
Implicit Types (m : mach).

Definition set_procs (p : pst (kenv F)) m : mach :=
  Machine p (mc_aps m) (mc_started m) (mc_kpgdir m) (mc_cpus m) (mc_ncpu m) (mc_ioapicid m) (mc_lapic m)
    (mc_dev m) (mc_cons m) (mc_locking m) (mc_uart m) (mc_idt m) (mc_bio m) (mc_ide m).
Definition set_cpu_info (aps : list hwcpu) (started : list bool) (kpgdir : Z) m : mach :=
  Machine (mc_procs m) aps started kpgdir (mc_cpus m) (mc_ncpu m) (mc_ioapicid m) (mc_lapic m)
    (mc_dev m) (mc_cons m) (mc_locking m) (mc_uart m) (mc_idt m) (mc_bio m) (mc_ide m).
Definition set_devs (d : history) (c : cons_st) (k u : bool) m : mach :=
  Machine (mc_procs m) (mc_aps m) (mc_started m) (mc_kpgdir m) (mc_cpus m) (mc_ncpu m) (mc_ioapicid m) (mc_lapic m)
    d c k u (mc_idt m) (mc_bio m) (mc_ide m).
Definition set_mp (s : mp_st history) m : mach :=
  Machine (mc_procs m) (mc_aps m) (mc_started m) (mc_kpgdir m) (cpus s) (ncpu s) (ioapicid s) (lapic s)
    (mp_dev s) (mc_cons m) (mc_locking m) (mc_uart m) (mc_idt m) (mc_bio m) (mc_ide m).
Definition set_tables (idt : list gatedesc) (b : bst) (i : I) m : mach :=
  Machine (mc_procs m) (mc_aps m) (mc_started m) (mc_kpgdir m) (mc_cpus m) (mc_ncpu m) (mc_ioapicid m) (mc_lapic m)
    (mc_dev m) (mc_cons m) (mc_locking m) (mc_uart m) idt b i.

Definition mem_of m : kst := ke_mem (ext (mc_procs m)).

Definition on_procs {A} (f : M (pst (kenv F)) A) : M mach A := zoom mc_procs set_procs f.
Definition on_mem {A} (f : M kst A) : M mach A := on_procs (lift (on_kmem f)).
Definition on_dev {A} (f : M history A) : M mach A :=
  zoom mc_dev (λ d m, set_devs d (mc_cons m) (mc_locking m) (mc_uart m) m) f.
Definition on_cons {A} (f : M cons_st A) : M mach A :=
  zoom mc_cons (λ c m, set_devs (mc_dev m) c (mc_locking m) (mc_uart m) m) f.
Definition on_console {A} (f : M (cons_st * history) A) : M mach A :=
  zoom (λ m, (mc_cons m, mc_dev m)) (λ x m, set_devs x.2 x.1 (mc_locking m) (mc_uart m) m) f.
Definition on_uart {A} (f : M (uart_st history) A) : M mach A :=
  zoom (λ m, UartSt (mc_uart m) (mc_dev m)) (λ x m, set_devs (u_dev x) (mc_cons m) (mc_locking m) (uart x) m) f.
(** mp.c reads the memory and sets its variables. *)
Definition mp_view m : mp_st history :=
  MpSt (memory (mem_of m)) (mc_cpus m) (mc_ncpu m) (mc_ioapicid m) (mc_lapic m) (mc_dev m).
Definition on_mp {A} (f : M (mp_st history) A) : M mach A :=
  zoom mp_view set_mp f.
Definition on_bio {A} (f : M bst A) : M mach A := zoom mc_bio (λ b m, set_tables (mc_idt m) b (mc_ide m) m) f.
Definition on_ide {A} (f : M I A) : M mach A := zoom mc_ide (λ i m, set_tables (mc_idt m) (mc_bio m) i m) f.
(** Memory and devices, for [lapicstartap]. *)
Definition on_bus {A} (f : M (mem * history) A) : M mach A := λ m,
  let put x :=
    let e := ext (mc_procs m) in
    set_devs x.2 (mc_cons m) (mc_locking m) (mc_uart m)
      (set_procs (set_ext (Kenv (set_memory x.1 (ke_mem e)) (ke_fs e) (ke_hw e)) (mc_procs m)) m) in
  match f (memory (mem_of m), mc_dev m) with
  | Ok a x => Ok a (put x)
  | Err e x => Err e (put x)
  end.

(** The tables and registers of CPU [i]. *)
Definition on_tables {A} (i : nat) (f : M hwcpu A) : M mach A :=
  if bool_decide (i = me) then on_procs (lift (on_khw f))
  else
    h <- gets (λ m, mc_aps m !! i) ;;
    h <- deref h ;;
    match f h with
    | Ok a h' => modify (λ m, set_cpu_info (<[i := h']> (mc_aps m)) (mc_started m) (mc_kpgdir m) m) ;;; ret a
    | Err e h' => fail e
    end.

(** ** vm.c and console.c *)

(** vm.c: [kvmalloc]. *)
Definition kvmalloc : M mach unit :=
  kpgdir <- on_mem (setupkvm kend kdata) ;;
  modify (λ m, set_cpu_info (mc_aps m) (mc_started m) kpgdir m) ;;;
  on_tables me (switchkvm kpgdir).

(** console.c: [consoleinit]; its lock starts out free. *)
Definition consoleinit : M mach unit :=
  modify (λ m, set_devs (mc_dev m) (mc_cons m) true (mc_uart m) m) ;;;
  on_dev (ioapicenable IRQ_KBD 0).

(** trap.c: [tvinit]. *)
Definition tvinit : M mach unit := modify (λ m, set_tables (tvinit_idt vectors) (mc_bio m) (mc_ide m) m).

(** ** main.c *)

(** "cpu%d: starting %d\n" *)
Definition starting_msg : list Z := chars "cpu%d: starting %d" ++ [10].

(** [mpmain] on CPU [i], up to the call of [scheduler]. *)
Definition mpmain (i : nat) : M mach unit :=
  on_cons (cprintf starting_msg [AInt (Z.of_nat i); AInt (Z.of_nat i)]) ;;;
  on_tables i (idtinit idt_addr) ;;;
  modify (λ m, set_cpu_info (mc_aps m) (<[i := true]> (mc_started m)) (mc_kpgdir m) m).

Definition mpenter (i : nat) : M mach unit :=
  kpgdir <- gets mc_kpgdir ;;
  on_tables i (switchkvm kpgdir) ;;;
  on_tables i (seginit (gdt_addr i)) ;;;
  a <- gets mc_lapic ;;
  on_dev (lapicinit a polls) ;;;
  mpmain i.

Definition code : Z := P2V 0x7000.

(** The body of the loop of [startothers] for another CPU. *)
Definition start_cpu (i : nat) : M mach unit :=
  stack <- on_mem kalloc ;;
  on_mem (stw (code - 4) (u32 (stack + KSTACKSIZE))) ;;;
  on_mem (stw (code - 8) mpenter_addr) ;;;
  on_mem (stw (code - 12) (V2P entrypgdir_addr)) ;;;
  a <- gets mc_lapic ;;
  id <- gets (λ m, mc_cpus m !! i) ;;
  id <- deref id ;;
  on_bus (lapicstartap a id (V2P code)) ;;;
  mpenter i ;;;
  up <- gets (λ m, mc_started m !! i) ;;
  if bool_decide (up = Some true) then ret tt else fail NoFuel.

(** [n] CPUs from [i] on. *)
Fixpoint startothers_loop (n i : nat) : M mach unit :=
  match n with
  | O => ret tt
  | S n' =>
      (if bool_decide (i = me) then ret tt else start_cpu i) ;;;
      startothers_loop n' (S i)
  end.

Definition startothers : M mach unit :=
  on_mem (move code entryother entryother_size) ;;;
  n <- gets mc_ncpu ;;
  startothers_loop (Z.to_nat n) 0.

Definition four_mb : Z := P2V (4 * 1024 * 1024).

(** [main], up to the call of [scheduler]; [fileinit] only sets up a lock. *)
Definition main : M mach unit :=
  on_mem (kinit1 kend kend four_mb) ;;;
  kvmalloc ;;;
  on_mp (mpinit polls) ;;;
  a <- gets mc_lapic ;;
  on_dev (lapicinit a polls) ;;;
  on_tables me (seginit (gdt_addr me)) ;;;
  on_dev picinit ;;;
  id <- gets mc_ioapicid ;;
  on_console (ioapicinit id) ;;;
  consoleinit ;;;
  on_uart uartinit ;;;
  on_procs pinit ;;;
  tvinit ;;;
  on_bio binit ;;;
  on_ide ideinit ;;;
  startothers ;;;
  on_mem (kinit2 kend four_mb (P2V PHYSTOP)) ;;;
  on_procs (userinit me forkret trapret) ;;;
  mpmain me.

(** ** Steps *)

Definition set_mem (k : kst) m : mach :=
  set_procs (set_ext (Kenv k (ke_fs (ext (mc_procs m))) (ke_hw (ext (mc_procs m)))) (mc_procs m)) m.

Lemma on_mem_run {A} (f : M kst A) m a k : f (mem_of m) = Ok a k → on_mem f m = Ok a (set_mem k m).
Proof. intros E. unfold on_mem, on_procs, lift, on_kmem, zoom. fold (mem_of m). by rewrite E. Qed.

Lemma on_bus_run {A} (f : M (mem * history) A) m a x d : f (memory (mem_of m), mc_dev m) = Ok a (x, d) →
  on_bus f m = Ok a (set_devs d (mc_cons m) (mc_locking m) (mc_uart m) (set_mem (set_memory x (mem_of m)) m)).
Proof. intros E. unfold on_bus. by rewrite E. Qed.

(** The tables of CPU [i]. *)
Definition hw_of m (i : nat) : option hwcpu :=
  if bool_decide (i = me) then Some (ke_hw (ext (mc_procs m))) else mc_aps m !! i.
Definition set_hw (i : nat) (h : hwcpu) m : mach :=
  if bool_decide (i = me)
  then set_procs (set_ext (Kenv (mem_of m) (ke_fs (ext (mc_procs m))) h) (mc_procs m)) m
  else set_cpu_info (<[i := h]> (mc_aps m)) (mc_started m) (mc_kpgdir m) m.

Lemma on_tables_run i f m h h' : hw_of m i = Some h → f h = Ok tt h' → on_tables i f m = Ok tt (set_hw i h' m).
Proof.
  unfold hw_of, on_tables, set_hw. case_bool_decide; intros H1 H2.
  - injection H1 as <-. unfold on_procs, lift, on_khw, zoom. by rewrite H2.
  - rewrite bind_gets, H1. unfold deref. rewrite bind_ret, H2, bind_modify. done.
Qed.

(** What a step of the boot leaves alone. *)
Record same m m' : Prop := {
  sa_procs : ∃ e, mc_procs m' = set_ext e (mc_procs m) ∧ ke_fs e = ke_fs (ext (mc_procs m));
  sa_kpgdir : mc_kpgdir m' = mc_kpgdir m;
  sa_cpus : mc_cpus m' = mc_cpus m;
  sa_ncpu : mc_ncpu m' = mc_ncpu m;
  sa_lapic : mc_lapic m' = mc_lapic m;
  sa_idt : mc_idt m' = mc_idt m;
  sa_bio : mc_bio m' = mc_bio m;
  sa_ide : mc_ide m' = mc_ide m;
  sa_cga : cga_ok (c_screen (mc_cons m)) → cga_ok (c_screen (mc_cons m'));
  sa_aps : length (mc_aps m') = length (mc_aps m);
  sa_started : length (mc_started m') = length (mc_started m)
}.

#[global] Instance same_pre : PreOrder same.
Proof.
  split.
  - intros m. split; try done. exists (ext (mc_procs m)). by destruct m as [[]].
  - intros m1 m2 m3 [(e & A1 & A1') A2 A3 A4 A5 A6 A7 A8 A9 A10 A11] [(e' & B1 & B1') B2 B3 B4 B5 B6 B7 B8 B9 B10 B11].
    split; try congruence; [|by auto]. exists e'. rewrite B1, A1. split; [done|]. rewrite B1', A1. done.
Qed.

Lemma same_mem_step k m : same m (set_mem k m).
Proof. split; try done. by eexists. Qed.

Lemma same_hw i h m : same m (set_hw i h m).
Proof.
  unfold set_hw. case_bool_decide; split; try done; [by eexists| |cbn; by rewrite length_insert].
  exists (ext (mc_procs m)). by destruct m as [[]].
Qed.

Lemma same_devs d c k u m : cga_ok (c_screen c) → same m (set_devs d c k u m).
Proof. intros. split; try done. exists (ext (mc_procs m)). by destruct m as [[]]. Qed.

Lemma mem_of_set_hw i h m : mem_of (set_hw i h m) = mem_of m.
Proof. unfold set_hw. by case_bool_decide. Qed.

Lemma started_set_hw i h m : mc_started (set_hw i h m) = mc_started m.
Proof. unfold set_hw. by case_bool_decide. Qed.

Lemma hw_of_set_hw i h m j : (i < length (mc_aps m))%nat →
  hw_of (set_hw i h m) j = if decide (j = i) then Some h else hw_of m j.
Proof.
  intros Hi. unfold hw_of, set_hw. destruct (decide (i = me)) as [->|Hi'].
  - rewrite (bool_decide_eq_true_2 (me = me)) by done. case_decide; by case_bool_decide.
  - rewrite (bool_decide_eq_false_2 (i = me)) by done. cbn [mc_aps set_cpu_info mc_procs]. case_bool_decide as Hj.
    + by rewrite decide_False by congruence.
    + case_decide; [subst j; by rewrite list_lookup_insert_eq|by rewrite list_lookup_insert_ne].
Qed.

Lemma hw_of_devs d c k u m j : hw_of (set_devs d c k u m) j = hw_of m j.
Proof. done. Qed.

Lemma hw_of_mem k m j : hw_of (set_mem k m) j = hw_of m j.
Proof. done. Qed.

(** ** The other CPUs *)

(** Room for every CPU, and a screen in order. *)
Definition sized m : Prop :=
  length (mc_aps m) = NCPU ∧ length (mc_started m) = NCPU ∧ cga_ok (c_screen (mc_cons m)) ∧
  ∀ i h, hw_of m i = Some h → length (gdt h) = NSEGS.

(** CPU [i] uses the kernel's page table, flat segments and the interrupt
    table, and says so. *)
Definition ready_tables (kpgdir : Z) (i : nat) (h : hwcpu) : Prop :=
  cr3 h = V2P kpgdir ∧ gdtr h = pseudo (gdt_addr i) 48 ∧ length (gdt h) = NSEGS ∧
  ∀ j dpl, (j, dpl) ∈ [(SEG_KCODE, 0); (SEG_KDATA, 0); (SEG_UCODE, 3); (SEG_UDATA, 3)] →
    ∃ d, gdt h !! Z.to_nat j = Some d ∧ flat d dpl.
Definition up m (i : nat) : Prop :=
  mc_started m !! i = Some true ∧
  ∃ h, hw_of m i = Some h ∧ ready_tables (mc_kpgdir m) i h ∧ idtr h = pseudo idt_addr 2048.

(** A step that only concerns CPU [i]. *)
Definition only (i : nat) m m' : Prop :=
  same m m' ∧ mem_of m' = mem_of m ∧
  ∀ j, j ≠ i → hw_of m' j = hw_of m j ∧ mc_started m' !! j = mc_started m !! j.

Lemma seginit_flat a h : length (gdt h) = NSEGS → ∃ h', seginit a h = Ok tt h' ∧
  cr3 h' = cr3 h ∧ gdtr h' = pseudo a 48 ∧ length (gdt h') = NSEGS ∧
  ∀ j dpl, (j, dpl) ∈ [(SEG_KCODE, 0); (SEG_KDATA, 0); (SEG_UCODE, 3); (SEG_UDATA, 3)] →
    ∃ d, gdt h' !! Z.to_nat j = Some d ∧ flat d dpl.
Proof.
  intros Hl. unfold seginit, set_gdt, lgdt. rewrite !bind_modify. unfold modify. cbn [gdt ts gdtr idtr tr cr3].
  eexists. split; [reflexivity|]. cbn [gdt gdtr cr3]. split_and!; [done|done|by rewrite !length_insert|].
  destruct (gdt h) as [|x0 [|x1 [|x2 [|x3 [|x4 [|x5 [|]]]]]]]; try done.
  exact (kernel_segments [x0; x1; x2; x3; x4; x5] x5 eq_refl).
Qed.

(** [mpmain] prints, loads the interrupt table and sets [started]. *)
Lemma starting_msg_ok i : (i < NCPU)%nat → ∃ o, cformat starting_msg [AInt (Z.of_nat i); AInt (Z.of_nat i)] = Some o.
Proof.
  unfold NCPU. intros Hi. destruct (cformat _ _) as [o|] eqn:E; [by exists o|]. exfalso. revert E.
  do 8 (destruct i as [|i]; [vm_compute; done|]). lia.
Qed.

Lemma mpmain_run i m h : (i < NCPU)%nat → sized m → hw_of m i = Some h → ready_tables (mc_kpgdir m) i h →
  ∃ m', mpmain i m = Ok tt m' ∧ only i m m' ∧ up m' i.
Proof.
  intros Hi (Ha & Hs & Hc & _) Hh Hr. unfold mpmain. destruct (starting_msg_ok i Hi) as [o Ho].
  destruct (cprintf_ok _ _ _ _ Ho Hc) as (c' & Hp & Hc' & _).
  unfold on_cons, zoom at 1. erewrite bind_ok by (rewrite Hp; reflexivity).
  set (m1 := set_devs _ _ _ _ m). set (h' := Hwcpu (gdt h) (ts h) (gdtr h) (pseudo idt_addr 2048) (tr h) (cr3 h)).
  rewrite (bind_ok _ _ _ _ _ (on_tables_run i (idtinit idt_addr) m1 h h' Hh eq_refl)). unfold modify. eexists. split; [reflexivity|].
  assert (Hl : (i < length (mc_aps m1))%nat) by (cbn; lia).
  assert (Hsame : same m (set_hw i h' m1)) by (etransitivity; [by apply same_devs|apply same_hw]).
  split.
  - split_and!.
    + destruct Hsame as [A1 A2 A3 A4 A5 A6 A7 A8 A9 A10 A11]. split; try done. cbn. by rewrite length_insert.
    + transitivity (mem_of (set_hw i h' m1)); [done|]. by rewrite mem_of_set_hw.
    + intros j Hj. split.
      * transitivity (hw_of (set_hw i h' m1) j); [done|]. by rewrite hw_of_set_hw, decide_False by done.
      * cbn [mc_started set_cpu_info]. by rewrite list_lookup_insert_ne, started_set_hw by done.
  - split.
    + cbn [mc_started set_cpu_info]. apply list_lookup_insert_eq. rewrite started_set_hw. cbn. lia.
    + exists h'. split; [|by rewrite (sa_kpgdir _ _ Hsame)].
      transitivity (hw_of (set_hw i h' m1) i); [done|]. by rewrite hw_of_set_hw, decide_True by done.
Qed.

(** A step on the tables of CPU [i] alone. *)
Lemma only_hw i h m : (i < length (mc_aps m))%nat → only i m (set_hw i h m).
Proof.
  intros Hi. split_and!; [apply same_hw|apply mem_of_set_hw|]. intros j Hj.
  by rewrite hw_of_set_hw, decide_False, started_set_hw by done.
Qed.

Lemma only_trans i m1 m2 m3 : only i m1 m2 → only i m2 m3 → only i m1 m3.
Proof.
  intros (S1 & M1 & H1) (S2 & M2 & H2). split_and!; [by etransitivity|congruence|].
  intros j Hj. destruct (H1 j Hj), (H2 j Hj). split; congruence.
Qed.

Lemma only_devs i d c k u m : cga_ok (c_screen c) → only i m (set_devs d c k u m).
Proof. intros. split_and!; [by apply same_devs|done|done]. Qed.

(** The accesses of [lapicinit] end: interrupts sent are delivered. *)
Definition delivers (lapic : Z) : Prop := returns (S := history) (wait_delivery lapic polls).

Lemma mpenter_run i m h : (i < NCPU)%nat → sized m → hw_of m i = Some h → delivers (mc_lapic m) →
  ∃ m', mpenter i m = Ok tt m' ∧ only i m m' ∧ up m' i.
Proof.
  intros Hi Hsz Hh Hdel. pose proof Hsz as (Ha & Hs & Hc & Hg). unfold mpenter. rewrite bind_gets.
  set (h1 := Hwcpu (gdt h) (ts h) (gdtr h) (idtr h) (tr h) (V2P (mc_kpgdir m))).
  rewrite (bind_ok _ _ _ _ _ (on_tables_run i (switchkvm (mc_kpgdir m)) m h h1 Hh eq_refl)).
  set (m1 := set_hw i h1 m). assert (Hl : (i < length (mc_aps m))%nat) by lia.
  assert (Hm1 : only i m m1) by (by apply only_hw).
  assert (Hh1 : hw_of m1 i = Some h1) by (unfold m1; by rewrite hw_of_set_hw, decide_True by done).
  destruct (seginit_flat (gdt_addr i) h1 (Hg i h Hh)) as (h2 & Hseg & E1 & E2 & E3 & E4).
  rewrite (bind_ok _ _ _ _ _ (on_tables_run i _ m1 h1 h2 Hh1 Hseg)), bind_gets.
  pose proof (proj1 Hm1) as Sm1.
  assert (Hl1 : (i < length (mc_aps m1))%nat) by (rewrite (sa_aps _ _ Sm1); done).
  set (m2 := set_hw i h2 m1). assert (Hm2 : only i m m2) by (eapply only_trans; [exact Hm1|by apply only_hw]).
  assert (Hh2 : hw_of m2 i = Some h2) by (unfold m2; by rewrite hw_of_set_hw, decide_True by done).
  pose proof (proj1 Hm2) as Sm2.
  destruct (returns_lapicinit (mc_lapic m2) polls ltac:(by rewrite (sa_lapic _ _ Sm2)) (mc_dev m2)) as ([] & d & Hla).
  unfold on_dev, zoom at 1. erewrite bind_ok by (rewrite Hla; reflexivity).
  set (m3 := set_devs _ _ _ _ m2).
  assert (Hm3 : only i m m3) by (eapply only_trans; [exact Hm2|apply only_devs; by apply (sa_cga _ _ Sm2)]).
  destruct (mpmain_run i m3 h2 Hi) as (m4 & Hrun & Ho & Hup).
  - destruct (proj1 Hm3) as [_ _ _ _ _ _ _ _ A9 A10 A11]. split_and!; [congruence|congruence|by apply A9|].
    intros j x Hx. destruct (decide (j = i)) as [->|Hj]; [change (hw_of m2 i = Some x) in Hx; rewrite Hh2 in Hx; by injection Hx as <-|].
    destruct Hm3 as (_ & _ & H3). rewrite (proj1 (H3 j Hj)) in Hx. by eapply Hg.
  - done.
  - split; [|done]. change (mc_kpgdir m3) with (mc_kpgdir m2). rewrite (sa_kpgdir _ _ Sm2). by rewrite E1.
  - exists m4. split_and!; [done|by eapply only_trans|done].
Qed.

(** The memory while the kernel starts: it holds the pages [K]. *)
Record boot_mem (P K : gset Z) (own : gmap Z role) (l : list Z) (k : kst) : Prop := {
  bm_vm : vm_inv (Hpool := P) kend own l k;
  bm_kern a : a ∈ K ↔ own !! a = Some Loose ∨ own !! a = Some Dir
}.

Lemma boot_mem_low P K own l k x : boot_mem P K own l k → (∀ b, kend ≤ b → ld8 x b = ld8 (memory k) b) →
  boot_mem P K own l (set_memory x k) ∧ ptes_same own (memory k) x.
Proof. intros [B1 B2] Hx. destruct (inv_low kend P own l k x B1 Hx) as [Hi Hp]. by split; [split|]. Qed.

Lemma boot_mem_stw P K own l k a v : boot_mem P K own l k → a + 4 ≤ kend →
  boot_mem P K own l (set_memory (st32 (memory k) a v) k) ∧ ptes_same own (memory k) (st32 (memory k) a v).
Proof.
  intros Hb Ha. apply boot_mem_low; [done|]. intros b Hb'. apply ld8_st32_ne. lia.
Qed.

Lemma boot_mem_kalloc P K own p l k : boot_mem P K own (p :: l) k → ∃ k', kalloc k = Ok p k' ∧
  boot_mem P ({[p]} ∪ K) (<[p := Loose]> own) l k' ∧ memory k' = memory k ∧ own !! p = None.
Proof.
  intros [B1 B2]. destruct (inv_kalloc (Hpool := P) kend own p l k B1) as (k' & Hk & Hm & Hi & Hn & _).
  exists k'. split_and!; [done| |done|done]. split; [done|]. intros a.
  rewrite elem_of_union, elem_of_singleton, lookup_insert, B2. case_decide; naive_solver.
Qed.

Section start.
Hypothesis Hkend : P2V 0x100000 ≤ kend.

Lemma start_cpu_run i m P K own p l id : boot_mem P K own (p :: l) (mem_of m) → sized m → (i < NCPU)%nat →
  mc_cpus m !! i = Some id → delivers (mc_lapic m) →
  ∃ m', start_cpu i m = Ok tt m' ∧ same m m' ∧ boot_mem P ({[p]} ∪ K) (<[p := Loose]> own) l (mem_of m') ∧
    ptes_same own (memory (mem_of m)) (memory (mem_of m')) ∧ up m' i ∧
    ∀ j, j ≠ i → hw_of m' j = hw_of m j ∧ mc_started m' !! j = mc_started m !! j.
Proof.
  intros Hb Hsz Hi Hid Hdel. unfold start_cpu. change (P2V 0x100000) with 0x80100000 in Hkend.
  destruct (boot_mem_kalloc P K own p l _ Hb) as (k1 & Hk & Hb1 & Hm1 & Hn).
  rewrite (bind_ok _ _ _ _ _ (on_mem_run _ _ _ _ Hk)).
  change code with 0x80007000.
  destruct (boot_mem_stw P _ _ l k1 (0x80007000 - 4) (u32 (p + KSTACKSIZE)) Hb1) as [Hb2 Hp2]; [lia|].
  set (k2 := set_memory _ k1) in Hb2.
  rewrite (bind_ok _ _ _ _ _ (on_mem_run (stw (0x80007000 - 4) (u32 (p + KSTACKSIZE))) (set_mem k1 m) tt k2 eq_refl)).
  destruct (boot_mem_stw P _ _ l k2 (0x80007000 - 8) mpenter_addr Hb2) as [Hb3 Hp3]; [lia|].
  set (k3 := set_memory _ k2) in Hb3.
  rewrite (bind_ok _ _ _ _ _ (on_mem_run (stw (0x80007000 - 8) mpenter_addr) (set_mem k2 (set_mem k1 m)) tt k3 eq_refl)).
  destruct (boot_mem_stw P _ _ l k3 (0x80007000 - 12) (V2P entrypgdir_addr) Hb3) as [Hb4 Hp4]; [lia|].
  set (k4 := set_memory _ k3) in Hb4.
  rewrite (bind_ok _ _ _ _ _ (on_mem_run (stw (0x80007000 - 12) (V2P entrypgdir_addr)) (set_mem k3 (set_mem k2 (set_mem k1 m))) tt k4 eq_refl)).
  change (set_mem k4 _) with (set_mem k4 m).
  rewrite !bind_gets. cbn [mc_lapic mc_cpus set_mem set_procs]. rewrite Hid. unfold deref. rewrite bind_ret.
  destruct (lapicstartap_low (mc_lapic m) id (V2P 0x80007000) (memory k4) (mc_dev m)) as (x & d & Hla & Hx).
  rewrite (bind_ok _ _ _ _ _ (on_bus_run _ (set_mem k4 m) _ _ _ Hla)).
  change (P2V 0x467) with 0x80000467 in Hx.
  destruct (boot_mem_low P _ _ l k4 x Hb4) as [Hb5 Hp5]; [intros b Hb'; apply Hx; lia|].
  set (m5 := set_devs _ _ _ _ _).
  assert (S5 : same m m5).
  { transitivity (set_mem (set_memory x k4) m); [apply same_mem_step|]. apply same_devs, Hsz. }
  destruct Hsz as (Ha & Hs & Hc & Hg).
  destruct (lookup_lt_is_Some_2 (mc_aps m) i) as [h0 Hh0]; [lia|].
  assert (Hh : ∃ h, hw_of m5 i = Some h).
  { unfold hw_of. case_bool_decide; [by eexists|]. by exists h0. }
  destruct Hh as [h Hh].
  destruct (mpenter_run i m5 h Hi) as (m6 & Hrun & (S6 & Hmem & Hoth) & Hup); [done|done|done|].
  rewrite (bind_ok _ _ _ _ _ Hrun), bind_gets. rewrite bool_decide_eq_true_2 by (apply Hup).
  exists m6. split; [done|]. split; [by etransitivity|]. rewrite Hmem. split; [exact Hb5|]. split_and!; [|done|].
  - intros a v Hda Hv. change (mem_of m5) with (set_memory x k4). cbn [memory set_memory].
    assert (Hd' : <[p := Loose]> own !! a = Some Dir) by (rewrite lookup_insert_ne; [done|congruence]).
    rewrite Hp5, Hp4, Hp3, Hp2, Hm1 by done. done.
  - intros j Hj. by apply Hoth.
Qed.

Lemma sized_step i m m' : sized m → same m m' → up m' i →
  (∀ j, j ≠ i → hw_of m' j = hw_of m j ∧ mc_started m' !! j = mc_started m !! j) → sized m'.
Proof.
  intros (Ha & Hs & Hc & Hg) Hsame (_ & h & Hh & (_ & _ & Hl & _) & _) Ho.
  split_and!; [by rewrite (sa_aps _ _ Hsame)|by rewrite (sa_started _ _ Hsame)|by apply (sa_cga _ _ Hsame)|].
  intros j x Hx. destruct (decide (j = i)) as [->|Hj]; [congruence|]. rewrite (proj1 (Ho j Hj)) in Hx. by eapply Hg.
Qed.

Lemma up_keep m m' j : up m j → mc_kpgdir m' = mc_kpgdir m → hw_of m' j = hw_of m j →
  mc_started m' !! j = mc_started m !! j → up m' j.
Proof. intros (Hs & h & Hh & Hr) E1 E2 E3. split; [congruence|]. exists h. rewrite E1, E2. done. Qed.

(** The number of CPUs from [i] on that are started. *)
Definition others (i n : nat) : nat := length (filter (λ j, j ≠ me) (seq i n)).

Lemma others_count n : ∀ i, others i n = if decide (i ≤ me < i + n)%nat then (n - 1)%nat else n.
Proof.
  unfold others. induction n as [|n IH]; intros i; cbn [seq]; [by case_decide|].
  rewrite filter_cons. specialize (IH (S i)). repeat case_decide; cbn [length]; rewrite IH; lia.
Qed.

Lemma startothers_run P : ∀ n i m K own l, boot_mem P K own l (mem_of m) → sized m → (i + n ≤ NCPU)%nat →
  length (mc_cpus m) = NCPU → delivers (mc_lapic m) → (n ≤ length l)%nat →
  ∃ m' stacks own' l', startothers_loop n i m = Ok tt m' ∧ same m m' ∧ sized m' ∧
    boot_mem P (list_to_set stacks ∪ K) own' l' (mem_of m') ∧ length stacks = others i n ∧
    (length l ≤ n + length l')%nat ∧
    (∀ a, own !! a = Some Dir → own' !! a = Some Dir) ∧
    ptes_same own (memory (mem_of m)) (memory (mem_of m')) ∧
    (∀ j, (i ≤ j < i + n)%nat → j ≠ me → up m' j) ∧
    ∀ j, (j < i)%nat ∨ j = me → hw_of m' j = hw_of m j ∧ mc_started m' !! j = mc_started m !! j.
Proof.
  induction n as [|n IH]; intros i m K own l Hb Hsz Hi Hcp Hdel Hl.
  { exists m, [], own, l. split_and!; try done; [by replace (list_to_set [] ∪ K) with K by set_solver|intros; lia]. }
  cbn [startothers_loop]. unfold others. cbn [seq]. rewrite filter_cons. case_bool_decide as Hme.
  { rewrite bind_ret, decide_False by auto.
    destruct (IH (S i) m K own l) as (m' & st & own' & l' & Hrun & H1 & H2 & H3 & H4 & H5 & H6 & H7 & H8 & H9); [done..|lia|done|done|lia|].
    exists m', st, own', l'. split_and!; try done; [lia| |].
    - intros j Hj Hj'. apply H8; [|done]. assert (j ≠ i) by congruence. lia.
    - intros j Hj. apply H9. lia. }
  rewrite decide_True by done. destruct l as [|p l]; [simpl in Hl; lia|]. simpl in Hl.
  destruct (lookup_lt_is_Some_2 (mc_cpus m) i) as [id Hid]; [lia|].
  destruct (start_cpu_run i m P K own p l id) as (m1 & Hrun1 & S1 & Hb1 & Hp1 & Hup & Ho); [done..|lia|done|done|].
  rewrite (bind_ok _ _ _ _ _ Hrun1). pose proof (sized_step i m m1 Hsz S1 Hup Ho) as Hsz1.
  destruct (IH (S i) m1 ({[p]} ∪ K) (<[p := Loose]> own) l)
    as (m' & st & own' & l' & Hrun & H1 & H2 & H3 & H4 & H5 & H6 & H7 & H8 & H9);
    [done..|lia|by rewrite (sa_cpus _ _ S1)|by rewrite (sa_lapic _ _ S1)|lia|].
  assert (Hnone : own !! p = None).
  { apply (own_free (Hpool := P) kend own (p :: l) _ (bm_vm _ _ _ _ _ Hb)). by left. }
  assert (Hkeep : ∀ a, own !! a = Some Dir → <[p := Loose]> own !! a = Some Dir).
  { intros a Hd. rewrite lookup_insert_ne; [done|congruence]. }
  exists m', (p :: st), own', l'. split_and!; try done; [by etransitivity| |cbn [length]; by rewrite H4|simpl; lia|by auto|..].
  - cbn [list_to_set]. by rewrite (comm_L (∪) {[p]}), <- (assoc_L (∪)).
  - intros d v Hd Hv. rewrite H7 by auto. by apply Hp1.
  - intros j Hj Hj'. destruct (decide (j = i)) as [->|Hne]; [|apply H8; [lia|done]].
    destruct (H9 i) as [A B]; [lia|]. eapply up_keep; [exact Hup|apply H1|done|done].
  - intros j Hj. destruct (H9 j) as [A B]; [lia|]. destruct (Ho j) as [C D]; [destruct Hj; [lia|congruence]|]. split; congruence.
Qed.

End start.

(** ** The phases of the boot *)

Section boot.
Hypothesis Hkend : P2V 0x100000 ≤ kend ≤ P2V 0x1E0000.
Hypothesis Hdata : kdata mod 4096 = 0 ∧ KERNLINK < kdata < KERNBASE + PHYSTOP.

Definition early_pool : gset Z := list_to_set (pages_in kend four_mb).

Lemma kend_pos : KERNBASE < kend.
Proof. unfold KERNBASE in *. change (P2V 0x100000) with 0x80100000 in Hkend. lia. Qed.

Lemma kinit1_run k : freelist k = 0 → ∃ k' l, kinit1 kend kend four_mb k = Ok tt k' ∧
  vm_inv (Hpool := early_pool) kend ∅ l k' ∧ low_same kend (memory k) (memory k') ∧ (540 ≤ length l)%nat.
Proof.
  intros Hf. unfold kinit1. rewrite !bind_modify. pose proof kend_pos as Hk.
  change (P2V 0x1E0000) with 0x801E0000 in Hkend. unfold KERNBASE in Hk.
  destruct (freerange_run kend Hk ∅ ∅ [] (set_use_lock false (set_kmem_lock false k)) kend four_mb)
    as (k' & Hrun & Hinv & Hlow & _).
  - split; try (intros; by rewrite lookup_empty in *); [|].
    2: { intros a. unfold pool. split; [by intros ?%elem_of_empty|]. intros [Ha|[x Ha]]; [by apply elem_of_nil in Ha|by rewrite lookup_empty in Ha]. }
    split_and!; [by cbn; rewrite Hf|constructor|constructor|done].
  - change four_mb with 0x80400000. lia.
  - done.
  - set_solver.
  - rewrite (right_id_L ∅ (∪)) in Hinv.
    eexists k', _. split_and!; [done|exact Hinv|done|]. rewrite app_nil_r, length_rev.
    pose proof (pages_in_length kend four_mb) as Hlen. change four_mb with 0x80400000 in *. unfold KERNBASE, PHYSTOP in Hlen. Z.div_mod_to_equations; lia.
Qed.

(** The kernel's page table. *)
Definition kernel_mapped (m : mem) (kpgdir : Z) : Prop :=
  ∀ k j, k ∈ kmaps kdata → 0 ≤ j < kpages k → pte_val m kpgdir (kfirst k + j) = kentry k j.

Lemma kvmalloc_run P m h l : vm_inv (Hpool := P) kend ∅ l (mem_of m) → (540 ≤ length l)%nat → hw_of m me = Some h →
  ∃ r k own l', kvmalloc m = Ok tt (set_hw me (Hwcpu (gdt h) (ts h) (gdtr h) (idtr h) (tr h) (V2P r))
                   (set_cpu_info (mc_aps m) (mc_started m) r (set_mem k m))) ∧
    boot_mem P {[r]} own l' k ∧ own !! r = Some Dir ∧ kernel_mapped (memory k) r ∧
    low_same kend (memory (mem_of m)) (memory k) ∧ (8 ≤ length l')%nat.
Proof.
  intros Hinv Hl Hh. unfold kvmalloc.
  destruct (setupkvm_run (Hpool := P) kend kend_pos kdata Hdata ∅ l _ Hinv)
    as (r & k & own & l' & Hset & Hvm & _ & _ & [(_ & _ & ?)|(Hr & _ & [M1 M2] & Hl' & Hlow & _ & Hmap)]); [lia|].
  rewrite (bind_ok _ _ _ _ _ (on_mem_run _ _ _ _ Hset)), bind_modify.
  exists r, k, own, l'. split_and!.
  - apply on_tables_run with h; [|done]. exact Hh.
  - split; [done|]. intros a. rewrite elem_of_singleton. split.
    + intros ->. right. apply M1, lookup_insert_eq.
    + intros [Ha|Ha]; destruct (M2 _ _ Ha) as [[(<- & _)|(_ & Hn)]%lookup_insert_Some|(_ & i & [=])]; done.
  - apply M1, lookup_insert_eq.
  - done.
  - done.
  - lia.
Qed.

(** From [lapicinit] to [ideinit]. *)
Definition devices_of m m' : Prop :=
  sized m' ∧ mem_of m' = mem_of m ∧ mc_kpgdir m' = mc_kpgdir m ∧ mc_cpus m' = mc_cpus m ∧ mc_ncpu m' = mc_ncpu m ∧
  mc_lapic m' = mc_lapic m ∧ mc_idt m' = tvinit_idt vectors ∧ bcache_ok (mc_bio m') ∧
  ∃ e, mc_procs m' = set_ext e (set_ptlock (CpuLock (pcpu (mc_procs m)) initlock) (mc_procs m)) ∧
    ke_fs e = ke_fs (ext (mc_procs m)).

Lemma binit_ok b : bufs b = replicate (S NBUF) zero_buf → ∃ b', binit b = Ok tt b' ∧ bcache_ok b'.
Proof.
  destruct b as [bf disk n]. cbn [bufs]. intros ->. exists (Bst boot_bufs disk n). split; [apply binit_run|apply boot_ok].
Qed.

Lemma devices_run m h : sized m → hw_of m me = Some h → cr3 h = V2P (mc_kpgdir m) → (me < NCPU)%nat →
  delivers (mc_lapic m) → returns ideinit → bufs (mc_bio m) = replicate (S NBUF) zero_buf →
  ∃ m' h', (∀ k : M mach unit,
     (a <- gets mc_lapic ;;
      on_dev (lapicinit a polls) ;;;
      on_tables me (seginit (gdt_addr me)) ;;;
      on_dev picinit ;;;
      id <- gets mc_ioapicid ;;
      on_console (ioapicinit id) ;;;
      consoleinit ;;; on_uart uartinit ;;; on_procs pinit ;;; tvinit ;;; on_bio binit ;;; on_ide ideinit ;;; k) m = k m') ∧
    devices_of m m' ∧ hw_of m' me = Some h' ∧ ready_tables (mc_kpgdir m') me h'.
Proof.
  intros (Ha & Hs & Hc & Hg) Hh Hcr Hme Hdel Hide Hbio.
  destruct (returns_lapicinit (mc_lapic m) polls Hdel (mc_dev m)) as ([] & d1 & E1).
  set (m1 := set_devs d1 (mc_cons m) (mc_locking m) (mc_uart m) m).
  destruct (seginit_flat (gdt_addr me) h (Hg me h Hh)) as (h' & Hseg & F1 & F2 & F3 & F4).
  set (m2 := set_hw me h' m1).
  assert (Ep : returns (S := history) picinit) by (unfold picinit; solve_returns).
  destruct (Ep (mc_dev m2)) as ([] & d3 & E3).
  set (m3 := set_devs d3 (mc_cons m2) (mc_locking m2) (mc_uart m2) m2).
  assert (Hc3 : cga_ok (c_screen (mc_cons m3))) by (unfold m3, m2, set_hw; by case_bool_decide).
  destruct (ioapicinit_returns (mc_ioapicid m3) (mc_cons m3) (mc_dev m3) Hc3) as (c4 & d4 & E4 & Hc4).
  set (m4 := set_devs d4 c4 (mc_locking m3) (mc_uart m3) m3).
  set (m5 := set_devs d4 c4 true (mc_uart m3) m3).
  destruct (returns_ioapicenable IRQ_KBD 0 (mc_dev m5)) as ([] & d6 & E6).
  set (m6 := set_devs d6 c4 true (mc_uart m3) m3).
  destruct (returns_uartinit (UartSt (mc_uart m6) (mc_dev m6))) as ([] & u7 & E7).
  set (m7 := set_devs (u_dev u7) (mc_cons m6) (mc_locking m6) (uart u7) m6).
  destruct (binit_ok _ Hbio) as (b & Eb & Hb).
  destruct (Hide (mc_ide m)) as ([] & i & Ei).
  set (m8 := set_procs (set_ptlock (CpuLock (pcpu (mc_procs m7)) initlock) (mc_procs m7)) m7).
  assert (Hbi : mc_bio m8 = mc_bio m ∧ mc_ide m8 = mc_ide m) by (unfold m8, m7, m6, m3, m2, set_hw; by case_bool_decide).
  set (m9 := set_tables (tvinit_idt vectors) b i m8).
  assert (Hm2 : m2 = set_procs (set_ext (Kenv (mem_of m) (ke_fs (ext (mc_procs m))) h') (mc_procs m)) m1).
  { unfold m2, set_hw. by rewrite bool_decide_eq_true_2. }
  assert (Hhw : ∀ j, hw_of m9 j = if decide (j = me) then Some h' else hw_of m j).
  { intros j. transitivity (hw_of m2 j); [done|]. unfold m2. rewrite hw_of_set_hw by (change (mc_aps m1) with (mc_aps m); lia). done. }
  exists m9, h'. split_and!.
  - intros k. rewrite bind_gets. unfold on_dev at 1, zoom at 1. erewrite bind_ok by (rewrite E1; reflexivity). fold m1.
    rewrite (bind_ok _ _ _ _ _ (on_tables_run me _ m1 h h' Hh Hseg)). fold m2.
    unfold on_dev at 1, zoom at 1. erewrite bind_ok by (rewrite E3; reflexivity). fold m3. rewrite bind_gets.
    unfold on_console, zoom at 1. erewrite bind_ok by (rewrite E4; reflexivity).
    unfold consoleinit. rewrite bind_assoc, bind_modify. change (set_devs _ _ _ _ _) with m5.
    unfold on_dev at 1, zoom at 1. erewrite bind_ok by (rewrite E6; reflexivity). change (set_devs _ _ _ _ _) with m6.
    unfold on_uart, zoom at 1. erewrite bind_ok by (rewrite E7; reflexivity). fold m7.
    unfold on_procs at 1, zoom at 1, pinit at 1, modify at 1. erewrite bind_ok by reflexivity. fold m8.
    unfold tvinit. rewrite bind_modify.
    unfold on_bio, zoom at 1. erewrite bind_ok by (cbn [mc_bio set_tables]; rewrite (proj1 Hbi), Eb; reflexivity).
    unfold on_ide, zoom at 1. erewrite bind_ok by (cbn [mc_ide set_tables]; rewrite (proj2 Hbi), Ei; reflexivity). done.
  - unfold devices_of, sized. split_and!; try (unfold m9, m8, m7, m6, m3; rewrite Hm2; done).
    + intros j x. rewrite Hhw. case_decide; [|by apply Hg]. by intros [= <-].
    + unfold m9, m8, m7, m6, m3. rewrite Hm2. by eexists.
  - by rewrite Hhw, decide_True.
  - assert (mc_kpgdir m9 = mc_kpgdir m) as -> by (unfold m9, m8, m7, m6, m3; by rewrite Hm2).
    split_and!; [by rewrite F1|done..].
Qed.

(** With every slot free the invariant is that of the memory. *)
Lemma boot_proc_mem P K own l pt k : boot_mem P K own l k → (∀ i p, pt !! i = Some p → p_state p = UNUSED) →
  proc_mem (Hpool := P) kend K own l pt k.
Proof.
  intros [B1 B2] Hu. split; [done|by apply B2|..].
  - intros i p Hp Hl. by destruct Hl; eapply Hu.
  - intros i j p q _ Hp _ Hl. by destruct Hl; eapply Hu.
  - intros a r Ha Hr. left. apply B2. destruct Hr as [->| ->]; auto.
Qed.

(** All pages above the kernel. *)
Definition all_pages : gset Z := list_to_set (pages_in kend (P2V PHYSTOP)).

Lemma kinit2_run K own l k : boot_mem early_pool K own l k → ∃ k' l', kinit2 kend four_mb (P2V PHYSTOP) k = Ok tt k' ∧
  boot_mem all_pages K own l' k' ∧ ptes_same own (memory k) (memory k') ∧
  low_same kend (memory k) (memory k') ∧ (1000 ≤ length l')%nat.
Proof.
  intros [B1 B2]. unfold kinit2. pose proof kend_pos as Hk.
  change (P2V 0x1E0000) with 0x801E0000 in Hkend. change (P2V 0x100000) with 0x80100000 in Hkend. unfold KERNBASE in Hk.
  assert (H4 : KERNBASE ≤ kend ≤ 0x80400000) by (unfold KERNBASE; lia).
  pose proof (λ q, pages_in_elem kend 0x80400000 q H4 ltac:(done)) as I1.
  pose proof (λ q, pages_in_elem 0x80400000 0x8E000000 q ltac:(done) ltac:(done)) as I2.
  pose proof (λ q, pages_in_elem kend 0x8E000000 q ltac:(lia) ltac:(done)) as I3.
  unfold early_pool, all_pages. change four_mb with 0x80400000 in *. change (P2V PHYSTOP) with 0x8E000000.
  destruct (freerange_run kend Hk early_pool own l k 0x80400000 0x8E000000 B1) as (k' & Hrun & Hinv & Hlow & Hp).
  - lia.
  - done.
  - intros q Hq%elem_of_list_to_set%I1. lia.
  - rewrite (bind_ok _ _ _ _ _ Hrun). eexists _, _. split; [reflexivity|]. split_and!; [|done|done|].
    + split; [|done].
      assert (list_to_set (pages_in 0x80400000 0x8E000000) ∪ early_pool = list_to_set (pages_in kend 0x8E000000)) as <-.
      { apply set_eq. intros q. unfold early_pool. change four_mb with 0x80400000.
        rewrite elem_of_union, !elem_of_list_to_set, I1, I2, I3. Z.div_mod_to_equations; lia. }
      by apply inv_use_lock.
    + rewrite length_app, length_rev. pose proof (pages_in_length 0x80400000 0x8E000000) as Hlen. unfold KERNBASE, PHYSTOP in Hlen.
      change ((0x8E000000 - 0x80400000) / 4096 - 1) with 56319 in Hlen. lia.
Qed.

(** The kernel's mappings stay while its page table's entries do. *)
Lemma kmap_range ks : ∀ lo k j, kmaps_ok lo ks → k ∈ ks → 0 ≤ lo → 0 ≤ j < kpages k → 0 ≤ kfirst k + j < 1048576.
Proof.
  induction ks as [|k0 ks IH]; intros lo k j Hok Hin Hlo Hj; [by apply elem_of_nil in Hin|].
  destruct Hok as (H1 & _ & H3 & _ & _ & Hok). apply elem_of_cons in Hin as [->|Hin].
  - pose proof (kmaps_ok_bound ks _ Hok). lia.
  - apply (IH (kfirst k0 + kpages k0) k j); [done|done|lia|done].
Qed.

Lemma mapped_keep own x x' d : kernel_mapped x d → own !! d = Some Dir → ptes_same own x x' → kernel_mapped x' d.
Proof.
  intros Hm Hd Hp k j Hk Hj. rewrite Hp; [by apply Hm|done|].
  apply (kmap_range (kmaps kdata) USERPAGES); [by apply kmaps_valid|done|done|done].
Qed.

(** The state before the other CPUs start. *)
Record front m (s1 : mp_st history) m' (own : gmap Z role) (l : list Z) : Prop := {
  fr_mem : boot_mem early_pool {[mc_kpgdir m']} own l (mem_of m');
  fr_len : (8 ≤ length l)%nat;
  fr_dir : own !! mc_kpgdir m' = Some Dir;
  fr_map : kernel_mapped (memory (mem_of m')) (mc_kpgdir m');
  fr_sized : sized m';
  fr_boot : ∃ h, hw_of m' me = Some h ∧ ready_tables (mc_kpgdir m') me h;
  fr_cpus : length (mc_cpus m') = NCPU;
  fr_ncpu : mc_ncpu m' = ncpu s1;
  fr_lapic : mc_lapic m' = lapic s1;
  fr_idt : mc_idt m' = tvinit_idt vectors;
  fr_bio : bcache_ok (mc_bio m');
  fr_procs : ∃ e, mc_procs m' = set_ext e (set_ptlock (CpuLock (pcpu (mc_procs m)) initlock) (mc_procs m)) ∧
    ke_fs e = ke_fs (ext (mc_procs m))
}.

(** The zeroed data of the kernel when [main] is called. *)
Record power_on m : Prop := {
  po_free : freelist (mem_of m) = 0;
  po_table : length (ptable (mc_procs m)) = NPROC;
  po_unused i p : ptable (mc_procs m) !! i = Some p → p_state p = UNUSED ∧ length (p_name p) = 16%nat;
  po_cpu : cpu_ok (pcpu (mc_procs m));
  po_sized : sized m;
  po_bio : bufs (mc_bio m) = replicate (S NBUF) zero_buf;
  po_mp : cpus_ok (mp_view m)
}.

Hypothesis Hme : (me < NCPU)%nat.

Lemma front_run m s1 : power_on m → low_tables (memory (mem_of m)) kend → mpinit polls (mp_view m) = Ok tt s1 →
  delivers (lapic s1) → returns ideinit →
  ∃ m' own l, main m = (startothers ;;; on_mem (kinit2 kend four_mb (P2V PHYSTOP)) ;;;
      on_procs (userinit me forkret trapret) ;;; mpmain me) m' ∧ front m s1 m' own l.
Proof.
  intros [P1 P2 P3 P4 P5 P6 P7] Hlow Hmp Hdel Hide. unfold main. pose proof P5 as (Ha & Hs & Hc & Hg).
  destruct (kinit1_run (mem_of m) P1) as (k1 & l1 & Hk1 & Hv1 & Hlow1 & Hl1).
  rewrite (bind_ok _ _ _ _ _ (on_mem_run _ _ _ _ Hk1)).
  set (h := ke_hw (ext (mc_procs m))).
  assert (Hh : hw_of m me = Some h) by (unfold hw_of; by rewrite bool_decide_eq_true_2).
  destruct (kvmalloc_run early_pool (set_mem k1 m) h l1 Hv1 Hl1 Hh) as (r & k2 & own & l2 & Hkv & Hb2 & Hdir & Hmap & Hlow2 & Hl2).
  rewrite (bind_ok _ _ _ _ _ Hkv). set (h2 := Hwcpu _ _ _ _ _ (V2P r)). set (m2 := set_hw _ _ _).
  assert (Hm2 : m2 = set_cpu_info (mc_aps m) (mc_started m) r
    (set_procs (set_ext (Kenv k2 (ke_fs (ext (mc_procs m))) h2) (mc_procs m)) m)).
  { unfold m2, set_hw. by rewrite bool_decide_eq_true_2. }
  pose proof (mpinit_low polls (mp_view m) s1 (memory k2) kend Hlow) as Hmp2.
  destruct (mpinit_cpus polls _ s1 P7 Hmp) as [_ Hcl].
  assert (Hview : mp_view m2 = with_mem (memory k2) (mp_view m)) by (by rewrite Hm2).
  unfold on_mp, zoom at 1. erewrite bind_ok.
  2: { rewrite Hview, Hmp2; [reflexivity|intros b Hb; by rewrite Hlow2, Hlow1|done]. }
  set (m3 := set_mp _ m2).
  assert (Hhw3 : ∀ j, hw_of m3 j = if decide (j = me) then Some h2 else hw_of m j).
  { intros j. transitivity (hw_of m2 j); [done|]. unfold m2. rewrite hw_of_set_hw; [done|]. cbn. lia. }
  destruct (devices_run m3 h2) as (m4 & h4 & Hdev & (D1 & D2 & D3 & D4 & D5 & D6 & D7 & D8 & D9) & Hh4 & Hr4).
  - unfold m3. rewrite Hm2. split_and!; [done|done|done|]. intros j x. rewrite <- Hm2. fold m3. rewrite Hhw3.
    case_decide; [|by apply Hg]. intros [= <-]. exact (Hg me h Hh).
  - by rewrite Hhw3, decide_True.
  - unfold m3. by rewrite Hm2.
  - done.
  - done.
  - done.
  - unfold m3. by rewrite Hm2.
  - exists m4, own, l2. split; [exact (Hdev _)|]. unfold m3 in *. rewrite Hm2 in *. split; try done.
    + by rewrite D2, D3.
    + by rewrite D3.
    + by rewrite D2, D3.
    + by exists h4.
    + by rewrite D4.
Qed.

Hypothesis Hinit : 0 ≤ initcode_size < 4096 ∧ 0 ≤ initcode ∧ initcode + initcode_size ≤ kend.
Hypothesis Hother : 0 ≤ entryother_size ≤ 4096 ∧ 0 ≤ entryother < kend.

(** The booted machine: [K] are the kernel's own pages, [n] is the first
    process. *)
Record booted m (s1 : mp_st history) m' (K : gset Z) (own : gmap Z role) (l : list Z) (n : proc) : Prop := {
  bo_mem : proc_mem (Hpool := all_pages) kend K own l (ptable (mc_procs m')) (mem_of m');
  bo_kern : ∃ stacks, K = list_to_set stacks ∪ {[mc_kpgdir m']} ∧ length stacks = (Z.to_nat (ncpu s1) - 1)%nat;
  bo_dir : own !! mc_kpgdir m' = Some Dir;
  bo_map : kernel_mapped (memory (mem_of m')) (mc_kpgdir m');
  bo_ready : pt_ready (mc_procs m');
  bo_init : initproc (mc_procs m') = Some 0%nat;
  bo_table : ptable (mc_procs m') = <[0%nat := n]> (ptable (mc_procs m));
  bo_first : p_state n = RUNNABLE ∧ p_sz n = PGSIZE ∧ cstr (p_name n) = chars "initcode";
  bo_frame : frames (mc_procs m') !! p_tf n = Some init_frame;
  bo_page : init_page initcode initcode_size own (memory (mem_of m')) n;
  bo_cpus i : (i < Z.to_nat (ncpu s1))%nat → up m' i;
  bo_idt : mc_idt m' = tvinit_idt vectors;
  bo_bio : bcache_ok (mc_bio m')
}.

(** A first slot that is free, with room for the name. *)
Lemma first_slot m : power_on m → ∃ q nm, ptable (mc_procs m) !! 0%nat = Some q ∧
  find_index is_unused (ptable (mc_procs m)) = Some 0%nat ∧
  safestrcpy (p_name q) str_initcode 16 = Some nm ∧ cstr nm = chars "initcode".
Proof.
  intros [_ P2 P3 _ _ _ _]. destruct (lookup_lt_is_Some_2 (ptable (mc_procs m)) 0) as [q Hq]; [unfold NPROC in P2; lia|].
  destruct (P3 0%nat q Hq) as [Hu Hn].
  destruct (safestrcpy_loop_Some 15 (p_name q) str_initcode) as (nm & Hnm & _ & Hc & _); [lia|by left; vm_compute; repeat constructor|].
  exists q, nm. split_and!; [done| |done|by rewrite Hc].
  destruct (ptable (mc_procs m)) as [|q0 pt]; [done|]. injection Hq as ->. unfold find_index, scan, is_unused. by rewrite bool_decide_eq_true_2.
Qed.

(** [startothers] and [kinit2]. *)
Lemma middle_run m s1 m4 own l : front m s1 m4 own l → (me < Z.to_nat (ncpu s1))%nat →
  ncpu s1 ≤ Z.of_nat NCPU → delivers (lapic s1) →
  ∃ m7 stacks own7 l7,
    (∀ k : M mach unit, (startothers ;;; on_mem (kinit2 kend four_mb (P2V PHYSTOP)) ;;; k) m4 = k m7) ∧
    same m4 m7 ∧ sized m7 ∧ hw_of m7 me = hw_of m4 me ∧
    boot_mem all_pages (list_to_set stacks ∪ {[mc_kpgdir m4]}) own7 l7 (mem_of m7) ∧
    length stacks = (Z.to_nat (ncpu s1) - 1)%nat ∧ (1000 ≤ length l7)%nat ∧ own7 !! mc_kpgdir m4 = Some Dir ∧
    kernel_mapped (memory (mem_of m7)) (mc_kpgdir m4) ∧
    ∀ i, (i < Z.to_nat (ncpu s1))%nat → i ≠ me → up m7 i.
Proof.
  intros [F1 F2 F3 F4 F5 _ F7 F8 F9 _ _ _] Hn1 Hn2 Hdel.
  pose proof kend_pos as Hk. change (P2V 0x1E0000) with 0x801E0000 in Hkend. change (P2V 0x100000) with 0x80100000 in Hkend.
  set (x5 := Mem.memmove (memory (mem_of m4)) code entryother entryother_size).
  destruct (boot_mem_low _ _ _ _ _ x5 F1) as [B5 Pt5].
  { intros b Hb. unfold x5. rewrite ld8_memmove by lia. rewrite decide_False; [done|]. change code with 0x80007000. lia. }
  set (m5 := set_mem (set_memory x5 (mem_of m4)) m4).
  destruct (startothers_run (proj1 Hkend) early_pool (Z.to_nat (ncpu s1)) 0 m5 _ own l B5)
    as (m6 & stacks & own6 & l6 & Hrun & S6 & Z6 & B6 & Hst & _ & Hd6 & Pt6 & Hup & Hoth);
    [done|lia|done|by change (mc_lapic m5) with (mc_lapic m4); rewrite F9|unfold NCPU in Hn2; lia|].
  destruct (kinit2_run _ _ _ _ B6) as (k7 & l7 & Hk2 & B7 & Pt7 & _ & Hl7).
  exists (set_mem k7 m6), stacks, own6, l7. split_and!.
  - intros k. unfold startothers. rewrite bind_assoc.
    rewrite (bind_ok _ _ _ _ _ (on_mem_run (move code entryother entryother_size) m4 tt (set_memory x5 (mem_of m4)) eq_refl)).
    rewrite bind_assoc, bind_gets. fold m5. change (mc_ncpu m5) with (mc_ncpu m4). rewrite F8.
    by rewrite (bind_ok _ _ _ _ _ Hrun), (bind_ok _ _ _ _ _ (on_mem_run _ _ _ _ Hk2)).
  - transitivity m5; [apply same_mem_step|]. transitivity m6; [exact S6|apply same_mem_step].
  - done.
  - apply (Hoth me). by right.
  - exact B7.
  - rewrite Hst, others_count. rewrite decide_True by lia. done.
  - done.
  - by apply Hd6.
  - eapply mapped_keep; [|apply Hd6, F3|exact Pt7]. eapply mapped_keep; [|exact F3|exact Pt6]. by eapply mapped_keep.
  - intros i Hi Hne. apply Hup; [lia|done].
Qed.

Lemma back_run m s1 m4 own l cwd f' : power_on m → front m s1 m4 own l → (me < Z.to_nat (ncpu s1))%nat →
  ncpu s1 ≤ Z.of_nat NCPU → delivers (lapic s1) → fs_namei str_slash (ke_fs (ext (mc_procs m))) = Ok cwd f' →
  ∃ m' K own' l' n, (startothers ;;; on_mem (kinit2 kend four_mb (P2V PHYSTOP)) ;;;
      on_procs (userinit me forkret trapret) ;;; mpmain me) m4 = Ok tt m' ∧ booted m s1 m' K own' l' n.
Proof.
  intros Hpo Hfr Hn1 Hn2 Hdel Hnam. pose proof Hfr as [_ _ _ _ _ (h & Hh & Hrt) _ _ _ F10 F11 (e & Hpr & Hfs)].
  pose proof kend_pos as Hk. change (P2V 0x1E0000) with 0x801E0000 in Hkend.
  destruct (middle_run m s1 m4 own l Hfr Hn1 Hn2 Hdel)
    as (m7 & stacks & own7 & l7 & -> & S7 & Z7 & Hh7 & B7 & Hst & Hl7 & Hd7 & Hmap & Hup).
  set (K := list_to_set stacks ∪ {[mc_kpgdir m4]}) in B7.
  destruct (first_slot m Hpo) as (q & nm & Hq & Hfi & Hnm & Hcs).
  destruct (sa_procs _ _ S7) as (e7 & Hp7 & Hf7). rewrite Hpr in Hp7, Hf7. cbn [ext set_ext] in Hf7.
  destruct (userinit_accounts kend kdata initcode initcode_size ts_addr ltac:(lia) Hdata Hinit me forkret trapret
    all_pages K own7 l7 (mc_procs m7) 0%nat q cwd f' nm)
    as (s8 & n & own8 & l8 & Hui & Hr8 & Hpm8 & Pt8 & Hd8 & Hhw8 & Hi8 & Ht8 & Hn8 & Hsz8 & _ & _ & Hnm8 & Hfr8 & Hpg8);
    [|rewrite Hp7; split; [done|apply (po_cpu _ Hpo)]|done|by rewrite Hp7|by rewrite Hp7|done|rewrite Hp7; cbn [ext set_ext]; by rewrite Hf7, Hfs|].
  { apply (boot_proc_mem _ _ _ _ _ _ B7). intros i p. rewrite Hp7. apply (po_unused _ Hpo). }
  assert (Hui' : on_procs (userinit me forkret trapret) m7 = Ok tt (set_procs s8 m7)).
  { unfold on_procs, zoom. change (userinit me forkret trapret (mc_procs m7)) with
      (userinit (H := boot_ops kend kdata initcode initcode_size ts_addr) me forkret trapret (mc_procs m7)). by rewrite Hui. }
  rewrite (bind_ok _ _ _ _ _ Hui'). set (m8 := set_procs s8 m7).
  assert (Hhw : ∀ j, hw_of m8 j = hw_of m7 j) by (intros j; unfold hw_of; cbn [m8 mc_procs set_procs mc_aps]; by rewrite Hhw8).
  pose proof (sa_kpgdir _ _ S7) as Ek.
  destruct (mpmain_run me m8 h) as (m9 & Hmm & (S9 & M9 & O9) & U9); [done| |by rewrite Hhw, Hh7|by cbn; rewrite Ek|].
  { destruct Z7 as (A1 & A2 & A3 & A4). split_and!; [done|done|done|]. intros j x. rewrite Hhw. apply A4. }
  destruct (sa_procs _ _ S9) as (e9 & Hp9 & _).
  assert (Hm9 : mem_of m9 = ke_mem (ext s8)) by (by rewrite M9).
  assert (Ek9 : mc_kpgdir m9 = mc_kpgdir m4) by (by rewrite (sa_kpgdir _ _ S9)).
  exists m9, K, own8, l8, n. split; [done|]. split; rewrite ?Hm9, ?Hp9, ?Ek9; try done.
  - by exists stacks.
  - by apply Hd8.
  - by eapply mapped_keep.
  - cbn [ptable set_ext m8 mc_procs set_procs]. rewrite Ht8, Hp7. done.
  - split_and!; [done|done|by rewrite Hnm8].
  - intros i Hi. destruct (decide (i = me)) as [->|Hne]; [done|]. destruct (O9 i Hne) as [O1 O2].
    eapply (up_keep m7); [by apply Hup|by rewrite Ek9, Ek|by rewrite O1, Hhw|by rewrite O2].
  - by rewrite (sa_idt _ _ S9), (sa_idt _ _ S7 : mc_idt m8 = _).
  - by rewrite (sa_bio _ _ S9), (sa_bio _ _ S7 : mc_bio m8 = _).
Qed.

(** C7. The kernel starts.  From zeroed data, on a machine whose tables [mpinit]
    accepts and whose APIC delivers interrupts, [main] reaches the call of
    [scheduler] on every CPU of the table.  Then all memory between the kernel's
    end and PHYSTOP is in the allocator's care, and the memory and process
    invariant of [ProcMem] holds, where the kernel itself holds its page table
    and one stack per other CPU; the kernel's mappings are in its page table.
    The first process is in slot 0, runnable, with one page that holds the
    program linked into the kernel and zeros, and will start at its address 0 in
    user mode.  Every CPU runs on the kernel's page table with flat segments and
    the interrupt table of [tvinit], and the buffer cache is in order. *)
Theorem main_boots m s1 cwd f' :
  power_on m → low_tables (memory (mem_of m)) kend → mpinit polls (mp_view m) = Ok tt s1 →
  (me < Z.to_nat (ncpu s1))%nat → delivers (lapic s1) → returns ideinit →
  fs_namei str_slash (ke_fs (ext (mc_procs m))) = Ok cwd f' →
  ∃ m' K own l n, main m = Ok tt m' ∧ booted m s1 m' K own l n.
Proof.
  intros Hpo Hlow Hmp Hn Hdel Hide Hnam.
  destruct (mpinit_cpus polls _ s1 (po_mp _ Hpo) Hmp) as [[_ Hle] _].
  destruct (front_run m s1 Hpo Hlow Hmp Hdel Hide) as (m4 & own & l & -> & Hfr).
  by apply (back_run m s1 m4 own l cwd f').
Qed.

End boot.

End main.

(** ** A machine with two CPUs *)

#[local] Existing Instance quiet_env.
#[local] Instance quiet_fs : fs_calls unit := {|
  fs_filedup f := ret f; fs_fileclose _ := ret tt; fs_idup i := ret i; fs_iput _ := ret tt;
  fs_namei _ := ret 1; fs_begin_op := ret tt; fs_end_op := ret tt; fs_iinit _ := ret tt;
  fs_initlog _ := ret tt
|}.

Definition off_hw : hwcpu := Hwcpu (replicate NSEGS (SEG16 0 0 0 0)) (Taskstate 0 0 0) (0, 0) (0, 0) 0 0.
Definition off_proc : proc := set_name (replicate 16 0) zero_proc.
Definition off_machine : machine unit unit :=
  Machine
    (Pst (replicate NPROC off_proc) initlock (Cpu 0 0 false false) None 1 ∅ ∅ ∅ (Rbtree 0 0 0 None None) true
       (Kenv (Kst demo_mem false false 0) tt off_hw))
    (replicate NCPU off_hw) (replicate NCPU false) 0 (replicate NCPU 0) 0 0 0 []
    demo_console false false []
    (Bst (replicate (S NBUF) zero_buf) ∅ 0) tt.

Lemma off_power_on : power_on 0 off_machine.
Proof.
  split; try done.
  - intros i p (-> & _)%lookup_replicate. done.
  - split_and!; [done|done|apply demo_console_ok|]. intros i h. unfold hw_of. case_bool_decide; [by intros [= <-]|].
    by intros (-> & _)%lookup_replicate.
Qed.

Lemma off_low_tables : low_tables demo_mem 0x80115000.
Proof.
  split; [by vm_compute|]. split; [by vm_compute|]. split; [by vm_compute|]. intros mp Hmp.
  assert (mp = P2V 0xF0010) as -> by (enough (Some mp = Some (P2V 0xF0010)) by congruence; rewrite <- Hmp; vm_compute; reflexivity).
  cbv zeta. assert (P2V (mp_physaddr demo_mem (P2V 0xF0010)) = 0x800F1000) as -> by (vm_compute; reflexivity).
  assert (conf_length demo_mem 0x800F1000 = 100) as -> by (vm_compute; reflexivity).
  change (P2V 0xF0010) with 0x800F0010. change (u32 (0x800F1000 + 100)) with 0x800F1064. lia.
Qed.

Definition on_main : M (machine unit unit) unit :=
  main 0x80115000 0x80108000 0x8010B000 44 0x8010B100 138 0 0 0x80109000 0 0 0 (λ _, 0) (replicate 256 0) 0 10 (ret tt).

Lemma main_boots_witness : ∃ m' own l n K, on_main off_machine = Ok tt m' ∧
  proc_mem (Hpool := all_pages 0x80115000) 0x80115000 K own l (ptable (mc_procs m')) (mem_of m') ∧
  p_state n = RUNNABLE ∧ ptable (mc_procs m') !! 0%nat = Some n ∧ up 0 (λ _, 0) 0 m' 1.
Proof.
  destruct (main_boots (F := unit) (I := unit) 0x80115000 0x80108000 0x8010B000 44 0x8010B100 138 0 0 0x80109000 0 0 0
    (λ _, 0) (replicate 256 0) 0 10 (ret tt) ltac:(by vm_compute) ltac:(by vm_compute) ltac:(unfold NCPU; lia)
    ltac:(by vm_compute) ltac:(by vm_compute) off_machine (MpSt demo_mem [0; 1; 0; 0; 0; 0; 0; 0] 2 7 0xFEE00000 []) 1 tt)
    as (m' & K & own & l & n & Hrun & HB).
  - exact off_power_on.
  - exact off_low_tables.
  - vm_compute. reflexivity.
  - vm_compute. lia.
  - intros h. eexists _, _. reflexivity.
  - apply returns_ret.
  - reflexivity.
  - exists m', own, l, n, K. destruct HB as [B1 B2 B3 B4 B5 B6 B7 B8 B9 B10 B11 B12 B13]. split; [exact Hrun|]. split; [exact B1|].
    split; [apply B8|]. split; [rewrite B7; reflexivity|]. apply B11. vm_compute. lia.
Defined.
